(* ===== verification/_CoqProject ===== *)
-Q . S2P
Prelude.v
JsString.v
JsNumber.v
Currency.v
IsoDate.v
QuoteMath.v
QuoteSpec.v
InvoiceMath.v
ContractMath.v
Recurrence.v
ContractCoverage.v
TimeBilling.v
CatalogPricing.v
BillingDb.v
InvoiceService.v
StripeSessions.v
StripeReversal.v
InvoiceLifecycle.v
StripeReconcile.v
PaymentPull.v
InvoiceInvariants.v
InvoiceSafety.v
StripeSafety.v
PullSafety.v
ContractService.v
QuoteDb.v
TimeEntries.v
TimeEntrySafety.v
TimeProperties.v
RateCards.v
RateCardSafety.v
RateProperties.v
OrgCurrency.v
OrgCurrencyProperties.v
QuoteConversion.v
ContractDrafting.v
QuoteService.v
QuoteLifecycle.v
RateColumn.v
QuoteInvariants.v
QuoteOperations.v
QuoteLife.v
ContractRenewal.v
ContractSafety.v
ContractLedger.v
ContractProperties.v
ContractLines.v
BillingSteps.v
ContractSteps.v
QuoteSafety.v
BillingSystem.v
TimeRefinement.v
ContractEditing.v
QuoteSystem.v
QuoteAcceptance.v
StripeProperties.v
