(* ===== verification/Prelude.v ===== *)
(** * Verification of the Breeze billing engine

    Breeze is a remote-monitoring and service-desk product for managed service
    providers. Its professional-services part prices work, quotes it, bills it by
    recurring contracts and by time and parts, issues invoices and collects the
    money, by hand or by card. This library models that part, the TypeScript of
    [apps/api/src/services], [apps/api/src/jobs] and [packages/shared/src/utils],
    and proves that it keeps its books straight.

    ** The parts and how they interact

    - Money. [JsString], [JsNumber] and [IsoDate] are the strings, IEEE doubles
      and UTC dates of the language. [Currency] ([currency.ts]) is the exact
      decimal arithmetic every amount goes through. [QuoteMath] and [QuoteSpec]
      ([quoteMath.ts], [depositMath.ts]) and [InvoiceMath] ([invoiceMath.ts],
      [taxRateResolver.ts]) compute document totals with it.
    - Time. [ContractMath] ([contractMath.ts]) and [Recurrence] ([recurrence.ts])
      are the calendars of contracts and of recurring deliverables.
    - What is billed. [ContractCoverage] ([contractCoverage.ts],
      [contractAllowance.ts], [contractQuantities.ts], [contractSnapshot.ts])
      counts devices, [TimeBilling] ([billableMinutes.ts],
      [billingRuleResolver.ts], [invoiceAssembly.ts]) turns work into lines,
      [CatalogPricing] ([catalogPricing.ts]) prices catalog items and bundles.
    - The tables. [BillingDb] ([db/schema/invoices.ts], [contracts.ts],
      [stripePayments.ts]) is the shared state: a record of the tables, the
      monad [M] of one transaction and the monad [Run] of a handler made of
      several.
    - Invoices. [InvoiceService] and [InvoiceLifecycle] ([invoiceService.ts],
      [invoiceNumbers.ts]) are the operations on drafts and on issued invoices.
    - Card payments. [StripeSessions] ([stripeSessionRevocation.ts] and its
      sweep) revokes checkout sessions, [StripeReversal] and [StripeReconcile]
      ([invoiceCheckout.ts], [stripeReconcile.ts], [stripeReversalState.ts],
      [stripeFinancialEventPoller.ts], [stripeSettle.ts], [stripeWebhook.ts],
      [jobs/stripeReconcileSweep.ts]) create payment links and record captures,
      refunds and disputes.
    - Pulled payments. [PaymentPull] ([accounting/accountingPaymentPull.ts],
      [accountingCurrency.ts]) inserts, edits and removes the payments QuickBooks
      reports.
    - Contracts. [ContractDrafting] ([contractService.ts],
      [validators/contracts.ts]) creates, edits, restamps and deletes contracts
      and their lines; [ContractService] ([contractService.ts]) and
      [ContractRenewal] ([contractRenewal.ts], [jobs/contractWorker.ts]) bill a
      contract's periods through the invoice service.
    - Logged work. [TimeEntries] ([timeEntryService.ts],
      [db/schema/timeTracking.ts], [validators/timeEntries.ts], and the reads it
      makes of [billingProfileService.ts] and [orgCurrencyCore.ts]) logs, times,
      edits, approves and deletes time entries and parts, over tables of its own
      that the billing tables show the billing columns of.
    - Rate cards. [RateCards] ([billingProfileService.ts], [workTypeService.ts],
      [validators/billingProfiles.ts], [db/schema/billingProfiles.ts]) edits the
      cards labour is priced by, their rows and defaults, the assignment of
      organizations and the work types, and gives the time service the tables it
      reads ([time_ref]). [OrgCurrency] ([orgCurrencyService.ts]) previews and
      makes the change of an organization's currency over them, the documents
      and the logged work.
    - Quotes. [QuoteDb] ([db/schema/quotes.ts]) is the quote tables beside the
      billing tables. [QuoteService] ([quoteService.ts], [quoteDeviceSet.ts],
      [quoteNumbers.ts], [quoteTypes.ts], [validators/quotes.ts]) drafts, copies
      and revises quotes; [QuoteLifecycle] ([quoteLifecycle.ts],
      [quoteAcceptService.ts], [acceptanceProvider.ts], [routes/quotesPublic.ts],
      [jobs/quoteExpiryReaper.ts]) sends them, records the customer's response
      and lets them expire; [QuoteConversion] ([quoteToContract.ts] and the
      writes of [acceptQuote] and [createContractWithLinesDetailed]) turns an
      accepted quote into an invoice and contracts.
    - The whole. [BillingSystem] puts every billing operation into one transition
      system over the shared tables, with the conversion of a quote as one of
      its steps; [QuoteSystem] puts every quote operation on top of it.

    ** What the theorems show

    - Arithmetic ([Currency], [QuoteSpec], [InvoiceMath], [CatalogPricing]):
      rounding, products, totals, taxes, deposits and bundle economics against
      their exact rational values, with the cases in which double arithmetic
      loses a tie.
    - Calendars ([ContractMath], [Recurrence]): periods tile, the index search
      and the planner terminate and are exact.
    - Counting and assembly ([ContractCoverage], [TimeBilling],
      [ContractProperties]): the SQL and the in-memory counts agree, every
      unbilled entry ends up in exactly one place, the estimate is what
      generation bills, the evidence accounts for the quantity.
    - The state ([InvoiceInvariants], [InvoiceSafety], [StripeSafety],
      [PullSafety], [ContractSafety], [QuoteSafety], [BillingSteps]): the
      invariants [Billing] and [Sys] and that every operation keeps them, the
      edits of contracts and their lines by [ContractLines] and [ContractSteps].
      [BillingSystem] and [StripeProperties] draw the conclusions for every
      reachable state: payments reconcile with invoices, charges with payments,
      work and periods are billed once; a capture is recorded at most once
      whatever happens between its deliveries, reversals of a charge converge
      whatever their order, retries end, gates hold.
    - Quotes ([RateColumn], [QuoteInvariants], [QuoteOperations], [QuoteLife]):
      the invariant [Quotes] of the quote tables, with the relation [evolves]
      that every operation keeps between the tables before and after it.
      [QuoteSystem] and [QuoteAcceptance] draw the conclusions: the rows are well
      formed, stored totals are those of the lines, what a sent quote prints
      stays, of a lineage one quote is converted, once, and for the amount it showed.
    - Contract editing ([ContractEditing]): contract lines are priced in the
      currency of their contract in every reachable state; the inspection before
      a currency change is exact, so an active contract is restamped only when
      no money is stranded; which price an edit of a line or a header keeps.
    - Logged work ([TimeEntrySafety], [TimeProperties]): every call is a sequence
      of the changes [Change] allows its actor; from this the invariant [Time] of
      the tables, the freeze of billed rows, the authorization of every change,
      stamps that are current under lock, and billed minutes that never disagree
      with the check of the table.
    - Rate cards ([RateCardSafety], [RateProperties]): the invariant [Cards] of
      the card tables and that every operation keeps it; so work is always priced
      by a card in the currency of its organization; the search for the name of a
      default card ends.
    - Currency changes ([OrgCurrencyProperties]): the SQL sums of the preview are
      the line totals the assembly computes in doubles and decimals, a currency is
      listed exactly when something is left in it, and each outcome of a change writes what it should and
      nothing else.
    - Refinement ([ContractLedger], [TimeRefinement]): a billing run implements
      one step of an abstract schedule of numbered periods, and any sequence of
      runs bills without a gap; the time entry service implements the contract
      [work_write_allowed] under which the billing system lets work be written.
      That acceptance converts a quote as a step of the billing system does is a
      lemma of [QuoteSystem] by which the billing tables stay reachable; the step
      takes any quote and lines, so it says nothing of what acceptance checks.
    - Liveness and concrete runs ([ContractProperties], [StripeProperties],
      [BillingSystem], [ContractEditing]): a contract that stalls after a resume, a
      renewal that is never reached, four ways in which card payments and links do
      less than the comments say, an overdue sweep that marks paid and voided
      invoices, and two patches that leave a self-renewing contract without an end.

    ** How the source is read

    - A number is the double the source has; a money column is the string
      PostgreSQL returns for numeric(12,2), overflow being an error. Strings are
      bytes; the sign of zero is not kept.
    - A transaction is a function of the tables that returns a value with the
      new tables or an error with none ([M]); row locks are its running alone.
      [Run] chains transactions that commit separately. A context opened inside
      another one is a transaction of its own. Random ids come from an injective
      source of fresh strings, the class [Uuids].
    - What another service answers is an argument: the provider's outcome for a
      session, its sessions, charges and events, the clock, and the members of a
      dynamic device group ([resolver]). A payment link is an offer and, any
      number of steps later, its row. The invariant is proved under pins (class
      [Pinned]): the invoices of the offers in flight, which stay issued, and
      checkout sessions whose capture was decided, which stay decided.
    - Where the source reads and checks without a lock and then writes by id, the
      operation of [BillingSystem] takes the tables the read saw as an argument
      [seen], unrelated to the tables it writes to: the header edits, the deletion,
      the pause, resumption and cancellation of contracts, due dates, and the
      overdue sweep. The due date of an invoice is written only while it is issued,
      and the sweep is run only if none of the invoices it marks was voided since
      its selection ([sweep_timely]); [late_mark_bills_twice] shows what it does
      otherwise.
    - An operation of several transactions runs them without another's in between,
      payment links apart; the invariant holds after each of them, from any state
      that has it.
    - The entity mappings of pulled payments are arguments: a call names the
      invoice, and a claimed payment is one that the pull inserted ([pull_claim]).
    - When reference rows change, the ids of deleted sites and device groups are
      cleared on contract lines and quote lines, as their foreign keys do
      ([referenced], [unreferenced]). Merging and erasing organizations are not
      steps.
    - A quote that needs a number draws it in a transaction of its own, so
      creating, copying, sending and accepting are sequences of transactions. The
      token of a public link is its id; the template variables a contract block
      leaves open and the outcome of writing the executed documents and orders of
      an acceptance are arguments.
    - The time service checks access on reads that precede its locks; what such a
      read saw ([seen]) is an argument, unrelated to the locked tables.
    - The digest of a provider event is modelled by the event. A connection is
      usable when it is connected and has a key, one flag here.

    ** Bounds and fuel

    Totals are exact for documents up to 10^13 cents, below the 2^53 integers of
    a double with room for one rate; tax rates are stored with five decimals, and
    an accepted quote is billed exactly at rates from 0 to 1; stored amounts are
    below the 10^12 cents of numeric(12,2), which the columns enforce. Provider amounts are taken to have
    at most twelve digits. Dates have four-digit years, where string order is day
    order. The guards of the source's loops (100001 steps) are the fuel of the
    period search; the planner's fuel is the months of its horizon and three, enough to
    step past the lead window, so exhaustion is impossible on its inputs. The walk
    to the root of a lineage has the 100 hops of the source, the walks over
    reissued invoices the 32 steps of the source's query, and a cascade of
    deleted lines as many rounds as there are lines. The unbounded loop over the
    names of a default card has one round more than there are cards, which is
    proved enough. Durations and minimums are
    the 32-bit integers of their columns, which refuse an overflow.

    ** Not modelled

    Scheduled sends, resends and share links of quotes, their pictures, cover
    pages and block contents, the content hash and the documents an acceptance
    executes, vendor and quote orders; the editing of the catalog, whose tables
    change freely between two operations, as in the billing system those of rate
    cards and organizations do; moves of tickets; time sheets, exports and suggested entries; the accounting outbox,
    the entity mappings and the remote side; documents, e-mail, events, audit rows and queues; locale
    formatting; the list and report queries; key rotation, account refresh and
    the page cursor of the provider poller; [reflectStripeRefund], which
    nothing calls. Outside billing: agents, monitoring, automation, AI tools,
    authentication, routes and user interfaces. *)

From Stdlib Require Export List ZArith Bool Lia String Ascii.
Export ListNotations.

#[global] Set Default Goal Selector "!".

(** ** Notations of the development *)

Declare Scope billing_scope.
Delimit Scope billing_scope with billing.

(** ** Results: a value, or the error the source throws *)

Inductive result (E A : Type) : Type :=
| Ok (a : A)
| Err (e : E).
Arguments Ok {E A} a.
Arguments Err {E A} e.

Definition rbind {E A B} (x : result E A) (k : A -> result E B) : result E B :=
  match x with Ok a => k a | Err e => Err e end.

Notation "'let!' x ':=' e 'in' k" := (rbind e (fun x => k))
  (at level 10, x pattern, e at level 100, k at level 200)
  : billing_scope.

Definition guard {E} (b : bool) (e : E) : result E unit :=
  if b then Ok tt else Err e.

Fixpoint rmap {E A B} (f : A -> result E B) (l : list A) : result E (list B) :=
  match l with
  | [] => Ok []
  | x :: r =>
      rbind (f x) (fun y => rbind (rmap f r) (fun ys => Ok (y :: ys)))
  end.

Section Results.
Context {E A B : Type}.

Lemma rbind_ok (x : result E A) (k : A -> result E B) b :
  rbind x k = Ok b <-> exists a, x = Ok a /\ k a = Ok b.
Proof.
  split.
  - destruct x as [a|e]; simpl; [eauto | discriminate].
  - intros (a & -> & H). exact H.
Qed.

Lemma rbind_err (x : result E A) (k : A -> result E B) e :
  rbind x k = Err e <-> x = Err e \/ exists a, x = Ok a /\ k a = Err e.
Proof.
  destruct x as [a|e']; simpl; split; intros H.
  - right; eauto.
  - destruct H as [H|(a' & [= ->] & H)]; [discriminate|exact H].
  - left; congruence.
  - destruct H as [H|(a' & H & _)]; congruence.
Qed.

Lemma guard_ok (b : bool) (e : E) u : guard b e = Ok u <-> b = true.
Proof. destruct b, u; simpl; split; congruence. Qed.
End Results.

(** Rewrites an equation [bind ... = Ok _] into its successful steps. *)
Ltac run_ok :=
  repeat match goal with
  | H : rbind _ _ = Ok _ |- _ => apply rbind_ok in H as (? & ? & ?)
  | H : guard _ _ = Ok _ |- _ => apply guard_ok in H
  | H : Ok _ = Ok _ |- _ => injection H as ?; subst
  | H : Err _ = Ok _ |- _ => discriminate H
  | H : Ok _ = Err _ |- _ => discriminate H
  end.

(** Boolean tests of the source as propositions. *)
Ltac breflect :=
  repeat match goal with
  | H : (_ && _)%bool = true |- _ => apply andb_true_iff in H as [? ?]
  | H : (_ || _)%bool = false |- _ => apply orb_false_iff in H as [? ?]
  | H : negb _ = true |- _ => apply negb_true_iff in H
  | H : negb _ = false |- _ => apply negb_false_iff in H
  | H : (_ <? _)%Z = true |- _ => apply Z.ltb_lt in H
  | H : (_ <? _)%Z = false |- _ => apply Z.ltb_ge in H
  | H : (_ <=? _)%Z = true |- _ => apply Z.leb_le in H
  | H : (_ <=? _)%Z = false |- _ => apply Z.leb_gt in H
  | H : (_ =? _)%Z = true |- _ => apply Z.eqb_eq in H
  | H : (_ =? _)%Z = false |- _ => apply Z.eqb_neq in H
  end.

Create HintDb billing discriminated.
Create Rewrite HintDb billing.

(** ** Lists *)

Lemma filter_filter_comm {A} (p q : A -> bool) l : filter p (filter q l) = filter q (filter p l).
Proof.
  induction l as [|x l IH]; [reflexivity|]. simpl. destruct (p x) eqn:Ep, (q x) eqn:Eq; simpl; rewrite ?Ep, ?Eq, IH; reflexivity.
Qed.

Lemma unique_in {A B} (g : A -> B) l x y : NoDup (map g l) -> In x l -> In y l -> g x = g y -> x = y.
Proof.
  induction l as [|z l IH]; [intros _ []|]. intros Hn Hx Hy E. inversion Hn as [|? ? Hz Hr]; subst.
  destruct Hx as [->|Hx], Hy as [->|Hy]; [reflexivity| | |auto].
  - exfalso. apply Hz. rewrite E. apply in_map, Hy.
  - exfalso. apply Hz. rewrite <- E. apply in_map, Hx.
Qed.

Lemma NoDup_filter_map {A B} (g : A -> B) (p : A -> bool) l : NoDup (map g l) -> NoDup (map g (filter p l)).
Proof.
  induction l as [|x l IH]; [auto|]. intros Hn. inversion Hn as [|? ? Hx Hr]; subst. simpl. destruct (p x); [|auto].
  constructor; [|auto]. intros Hin. apply Hx. apply in_map_iff in Hin as (y & <- & Hy). apply filter_In in Hy as [Hy _]. apply in_map, Hy.
Qed.

Lemma NoDup_end {A} (l : list A) x : NoDup l -> ~ In x l -> NoDup (l ++ [x]).
Proof. intros N H. apply NoDup_app; [exact N|repeat constructor; intros []|]. intros y Hy [<-|[]]. exact (H Hy). Qed.

Lemma filter_map_keep {A} (P : A -> bool) (f : A -> A) l :
  (forall x, In x l -> P (f x) = P x) -> filter P (map f l) = map f (filter P l).
Proof.
  induction l as [|x l IH]; intros H; [reflexivity|]. cbn. rewrite (H x (or_introl eq_refl)), IH by (intros y Hy; apply H; right; exact Hy).
  destruct (P x); reflexivity.
Qed.

Lemma map_on_filter {A B} (P : A -> bool) (f : A -> A) (g : A -> B) l :
  (forall x, In x l -> P x = true -> g (f x) = g x) -> map g (map f (filter P l)) = map g (filter P l).
Proof.
  intros H. rewrite map_map. apply map_ext_in. intros x Hx. apply filter_In in Hx as [Hx Hp]. apply H; assumption.
Qed.

Lemma filter_twice {A} (p q : A -> bool) l : filter p (filter q l) = filter (fun x => p x && q x) l.
Proof.
  induction l as [|x l IH]; [reflexivity|]. simpl. destruct (q x) eqn:Eq; simpl; [|rewrite andb_false_r; exact IH].
  rewrite IH, andb_true_r. reflexivity.
Qed.

(** ** Sums of integers over lists *)

Definition zsum (l : list Z) : Z := fold_right Z.add 0%Z l.

Section Sums.
Local Open Scope Z_scope.

Lemma zsum_app l1 l2 : zsum (l1 ++ l2) = zsum l1 + zsum l2.
Proof. induction l1 as [|x l1 IH]; simpl; [reflexivity|]. rewrite IH. lia. Qed.

Lemma zsum_nonneg l : Forall (fun x => 0 <= x) l -> 0 <= zsum l.
Proof. induction 1; simpl; lia. Qed.

Lemma zsum_pos_bounds cs : Forall (fun c => 0 < c) cs -> 0 <= zsum cs.
Proof. induction 1; simpl; lia. Qed.

Lemma zsum_abs_bound l : Z.abs (zsum l) <= zsum (map Z.abs l).
Proof. induction l as [|x l IH]; simpl; lia. Qed.

Lemma zsum_map_add {A} (f g : A -> Z) l :
  zsum (map (fun a => f a + g a) l) = zsum (map f l) + zsum (map g l).
Proof. induction l as [|x l IH]; simpl; lia. Qed.

Lemma zsum_filter {A} (p : A -> bool) (f : A -> Z) l :
  zsum (map f (filter p l)) = zsum (map (fun a => if p a then f a else 0) l).
Proof.
  induction l as [|x l IH]; simpl; [reflexivity|].
  destruct (p x); simpl; lia.
Qed.
End Sums.

#[export] Hint Rewrite zsum_app : billing.
