(* ===== verification/JsString.v ===== *)
(** * JavaScript strings as the billing code uses them

    Strings are sequences of code units below 256 (every string the modelled
    code builds or parses is ASCII).  This file holds decimal digit strings
    (their value, how an integer prints, padding), [trim], [toUpperCase] and
    the code-unit order of [<] and [<=] on strings. *)

From S2P Require Import Prelude.

Local Open Scope string_scope.
Local Open Scope Z_scope.

(** ** Digits *)

Definition is_digit (c : ascii) : bool :=
  let n := N_of_ascii c in (48 <=? n)%N && (n <=? 57)%N.

Definition digit_val (c : ascii) : Z := Z.of_N (N_of_ascii c) - 48.

Definition digit_char (d : Z) : ascii := ascii_of_N (Z.to_N (48 + d)).

Fixpoint all_digits (s : string) : bool :=
  match s with
  | EmptyString => true
  | String c r => is_digit c && all_digits r
  end.

(** The integer a digit string denotes ([BigInt(digits)]); [acc] is the value
    of the digits already read. *)
Fixpoint dec_acc (acc : Z) (s : string) : Z :=
  match s with
  | EmptyString => acc
  | String c r => dec_acc (acc * 10 + digit_val c) r
  end.

Definition dec_val (s : string) : Z := dec_acc 0 s.

(** Length as an integer. *)
Definition slen (s : string) : Z := Z.of_nat (String.length s).

(** [n.toString()] of a non-negative integer; the binary length of [n] bounds
    the number of decimal digits, so the fuel never runs out. *)
Fixpoint print_fuel (fuel : nat) (n : Z) (acc : string) : string :=
  match fuel with
  | O => acc
  | S f =>
      let acc' := String (digit_char (n mod 10)) acc in
      if n / 10 =? 0 then acc' else print_fuel f (n / 10) acc'
  end.

Definition print_dec (n : Z) : string :=
  print_fuel (S (Z.to_nat (Z.log2 n))) n "".

(** [String(n)] of an integer. *)
Definition print_int (n : Z) : string :=
  if n <? 0 then "-" ++ print_dec (- n) else print_dec n.

Fixpoint repeat_char (c : ascii) (n : nat) : string :=
  match n with O => "" | S k => String c (repeat_char c k) end.

Definition zeros (n : Z) : string := repeat_char "0" (Z.to_nat n).

Definition padStart (s : string) (w : Z) (c : ascii) : string :=
  repeat_char c (Z.to_nat (w - slen s)) ++ s.

Definition padEnd (s : string) (w : Z) (c : ascii) : string :=
  s ++ repeat_char c (Z.to_nat (w - slen s)).

(** ** Trimming, case, splitting, order *)

(** The white space and line terminators of ECMAScript below 256. *)
Definition is_space (c : ascii) : bool :=
  let n := N_of_ascii c in
  ((9 <=? n)%N && (n <=? 13)%N) || (n =? 32)%N || (n =? 160)%N.

Fixpoint trimStart (s : string) : string :=
  match s with
  | String c r => if is_space c then trimStart r else s
  | EmptyString => EmptyString
  end.

Fixpoint trimEnd (s : string) : string :=
  match s with
  | EmptyString => EmptyString
  | String c r =>
      match trimEnd r with
      | EmptyString => if is_space c then EmptyString else String c EmptyString
      | r' => String c r'
      end
  end.

Definition trim (s : string) : string := trimEnd (trimStart s).

Definition upper_char (c : ascii) : ascii :=
  let n := N_of_ascii c in
  if (97 <=? n)%N && (n <=? 122)%N then ascii_of_N (n - 32) else c.

Fixpoint toUpperCase (s : string) : string :=
  match s with
  | EmptyString => EmptyString
  | String c r => String (upper_char c) (toUpperCase r)
  end.

(** [toLowerCase], on ASCII letters. *)
Definition small_char (c : ascii) : ascii :=
  let n := N_of_ascii c in
  if (65 <=? n)%N && (n <=? 90)%N then ascii_of_N (n + 32) else c.

Fixpoint toLowerCase (s : string) : string :=
  match s with
  | EmptyString => EmptyString
  | String c r => String (small_char c) (toLowerCase r)
  end.

(** [s.split(sep)] for a one-character separator; never the empty list. *)
Fixpoint split_on (sep : ascii) (s : string) : list string :=
  match s with
  | EmptyString => [""]
  | String c r =>
      if Ascii.eqb c sep then "" :: split_on sep r
      else match split_on sep r with
           | [] => [String c ""]
           | x :: xs => String c x :: xs
           end
  end.

(** [a < b] on strings: code-unit lexicographic order. *)
Fixpoint str_ltb (a b : string) : bool :=
  match a, b with
  | _, EmptyString => false
  | EmptyString, String _ _ => true
  | String x a', String y b' =>
      if (N_of_ascii x <? N_of_ascii y)%N then true
      else if (N_of_ascii y <? N_of_ascii x)%N then false
      else str_ltb a' b'
  end.

Definition str_leb (a b : string) : bool := negb (str_ltb b a).

(** ** Lemmas on digits *)

Lemma digit_char_spec d :
  0 <= d < 10 -> is_digit (digit_char d) = true /\ digit_val (digit_char d) = d.
Proof.
  intros H. unfold is_digit, digit_val, digit_char.
  rewrite N_ascii_embedding by lia.
  rewrite Z2N.id by lia. split; [|lia].
  apply andb_true_iff; split; apply N.leb_le; lia.
Qed.

Lemma digit_code d : 0 <= d < 10 -> N_of_ascii (digit_char d) = Z.to_N (48 + d).
Proof. intros H. unfold digit_char. apply N_ascii_embedding. lia. Qed.

Lemma digit_val_bound c : is_digit c = true -> 0 <= digit_val c < 10.
Proof. unfold is_digit, digit_val. rewrite andb_true_iff, !N.leb_le. lia. Qed.

Lemma slen_nonneg s : 0 <= slen s.
Proof. unfold slen. lia. Qed.

Lemma slen_cons c s : slen (String c s) = 1 + slen s.
Proof. unfold slen. simpl String.length. lia. Qed.

Lemma slen_app a b : slen (a ++ b) = slen a + slen b.
Proof.
  induction a as [|c a IH]; [reflexivity|].
  change (String c a ++ b) with (String c (a ++ b)). rewrite !slen_cons. lia.
Qed.

Lemma slen_repeat c n : slen (repeat_char c n) = Z.of_nat n.
Proof. induction n as [|n IH]; [reflexivity|]. simpl repeat_char. rewrite slen_cons. lia. Qed.

Lemma dec_acc_app acc a b : dec_acc acc (a ++ b) = dec_acc (dec_acc acc a) b.
Proof. revert acc; induction a as [|c a IH]; intros acc; [reflexivity|]. apply IH. Qed.

Lemma dec_acc_shift acc s : dec_acc acc s = acc * 10 ^ slen s + dec_val s.
Proof.
  unfold dec_val.
  revert acc; induction s as [|c s IH]; intros acc.
  - cbn. lia.
  - cbn [dec_acc]. rewrite (IH (acc * 10 + digit_val c)), (IH (0 * 10 + digit_val c)).
    rewrite slen_cons, Z.pow_add_r by (pose proof (slen_nonneg s); lia). ring.
Qed.

(** The value of a concatenation of digit strings. *)
Lemma dec_val_app a b : dec_val (a ++ b) = dec_val a * 10 ^ slen b + dec_val b.
Proof. unfold dec_val at 1. rewrite dec_acc_app, dec_acc_shift. reflexivity. Qed.

Lemma all_digits_app a b : all_digits (a ++ b) = all_digits a && all_digits b.
Proof. induction a as [|c a IH]; [reflexivity|]. simpl. rewrite IH. apply andb_assoc. Qed.

Lemma dec_val_bound s : all_digits s = true -> 0 <= dec_val s < 10 ^ slen s.
Proof.
  induction s as [|c s IH]; [cbn; lia|].
  simpl all_digits. rewrite andb_true_iff. intros [Hc Hs].
  apply digit_val_bound in Hc. specialize (IH Hs).
  unfold dec_val. cbn [dec_acc]. rewrite dec_acc_shift, slen_cons.
  rewrite Z.pow_add_r by (pose proof (slen_nonneg s); lia). nia.
Qed.

Lemma dec_val_zeros n : dec_val (repeat_char "0" n) = 0.
Proof.
  induction n as [|n IH]; [reflexivity|].
  change (repeat_char "0" (S n)) with ("0" ++ repeat_char "0" n).
  rewrite dec_val_app, IH. reflexivity.
Qed.

Lemma all_digits_zeros n : all_digits (repeat_char "0" n) = true.
Proof. induction n; [reflexivity|]. simpl. assumption. Qed.

(** ** Printing an integer and reading it back *)

Lemma print_fuel_spec fuel n acc :
  0 <= n -> n < 2 ^ Z.of_nat fuel ->
  dec_val (print_fuel fuel n acc) = n * 10 ^ slen acc + dec_val acc /\
  (all_digits acc = true -> all_digits (print_fuel fuel n acc) = true).
Proof.
  revert n acc; induction fuel as [|f IH]; intros n acc H0 Hlt.
  { replace n with 0 by (change (2 ^ Z.of_nat 0) with 1 in Hlt; lia). split; [simpl; lia|auto]. }
  cbn [print_fuel].
  assert (Hm : 0 <= n mod 10 < 10) by (apply Z.mod_pos_bound; lia).
  pose proof (digit_char_spec _ Hm) as [Hd Hv].
  set (acc' := String (digit_char (n mod 10)) acc).
  assert (Hv' : dec_val acc' = n mod 10 * 10 ^ slen acc + dec_val acc).
  { unfold acc', dec_val. cbn [dec_acc]. rewrite dec_acc_shift, Hv. reflexivity. }
  assert (Hdig : all_digits acc = true -> all_digits acc' = true)
    by (intros Ha; unfold acc'; simpl; rewrite Hd; exact Ha).
  pose proof (Z.div_mod n 10 ltac:(lia)) as Hdm.
  destruct (n / 10 =? 0) eqn:E; breflect.
  - split; [rewrite Hv'; replace (n mod 10) with n by lia; reflexivity | exact Hdig].
  - assert (Hlt' : n / 10 < 2 ^ Z.of_nat f).
    { rewrite Nat2Z.inj_succ, Z.pow_succ_r in Hlt by lia.
      apply Z.div_lt_upper_bound; lia. }
    destruct (IH (n / 10) acc' ltac:(apply Z.div_pos; lia) Hlt') as [Hval Hall].
    split; [|auto].
    rewrite Hval, Hv'. unfold acc'. rewrite slen_cons.
    rewrite Z.pow_add_r by (pose proof (slen_nonneg acc); lia). nia.
Qed.

Lemma print_dec_fuel n : 0 <= n -> n < 2 ^ Z.of_nat (S (Z.to_nat (Z.log2 n))).
Proof.
  intros H. rewrite Nat2Z.inj_succ, Z2Nat.id by apply Z.log2_nonneg.
  destruct (Z.eq_dec n 0) as [->|]; [reflexivity|].
  pose proof (Z.log2_spec n ltac:(lia)). lia.
Qed.

(** Reading back what [n.toString()] printed. *)
Lemma dec_val_print n : 0 <= n -> dec_val (print_dec n) = n.
Proof.
  intros H. destruct (print_fuel_spec _ n "" H (print_dec_fuel n H)) as [Hv _].
  unfold print_dec. rewrite Hv. cbn. lia.
Qed.

Lemma all_digits_print n : 0 <= n -> all_digits (print_dec n) = true.
Proof.
  intros H. apply (print_fuel_spec _ n "" H (print_dec_fuel n H)). reflexivity.
Qed.

Lemma print_fuel_app fuel n a b :
  (print_fuel fuel n (a ++ b) = print_fuel fuel n a ++ b)%string.
Proof.
  revert n a; induction fuel as [|f IH]; intros n a; [reflexivity|].
  cbn [print_fuel]. destruct (n / 10 =? 0); [reflexivity|].
  apply (IH (n / 10) (String (digit_char (n mod 10)) a)).
Qed.

Lemma print_dec_nonempty n : print_dec n <> "".
Proof.
  unfold print_dec. cbn [print_fuel].
  destruct (n / 10 =? 0); [discriminate|].
  change (String (digit_char (n mod 10)) "") with ("" ++ String (digit_char (n mod 10)) "").
  rewrite print_fuel_app. destruct (print_fuel _ _ ""); discriminate.
Qed.

Lemma print_fuel_len fuel n acc :
  0 < n -> n < 2 ^ Z.of_nat fuel ->
  slen acc < slen (print_fuel fuel n acc) /\
  10 ^ (slen (print_fuel fuel n acc) - slen acc - 1) <= n.
Proof.
  revert n acc; induction fuel as [|f IH]; intros n acc H0 Hlt.
  { change (2 ^ Z.of_nat 0) with 1 in Hlt. lia. }
  cbn [print_fuel]. pose proof (Z.div_mod n 10 ltac:(lia)) as Hdm.
  pose proof (Z.mod_pos_bound n 10 ltac:(lia)) as Hm.
  destruct (n / 10 =? 0) eqn:E; breflect.
  - rewrite slen_cons. split; [lia|].
    replace (1 + slen acc - slen acc - 1) with 0 by lia. simpl. lia.
  - assert (Hlt' : n / 10 < 2 ^ Z.of_nat f).
    { rewrite Nat2Z.inj_succ, Z.pow_succ_r in Hlt by lia. apply Z.div_lt_upper_bound; lia. }
    assert (Hp : 0 < n / 10) by (pose proof (Z.div_pos n 10); lia).
    destruct (IH (n / 10) (String (digit_char (n mod 10)) acc) Hp Hlt') as [Hl Hv].
    rewrite slen_cons in *. split; [lia|].
    set (L := slen (print_fuel f (n / 10) (String (digit_char (n mod 10)) acc))) in *.
    replace (L - slen acc - 1) with (1 + (L - (1 + slen acc) - 1)) by lia.
    rewrite Z.pow_add_r by lia. lia.
Qed.

(** The number of digits of a positive integer is its decimal length. *)
Lemma print_dec_len n :
  0 < n -> 1 <= slen (print_dec n) /\ 10 ^ (slen (print_dec n) - 1) <= n < 10 ^ slen (print_dec n).
Proof.
  intros H.
  destruct (print_fuel_len _ n "" H (print_dec_fuel n ltac:(lia))) as [Hl Hv].
  pose proof (dec_val_bound _ (all_digits_print n ltac:(lia))) as Hb.
  rewrite dec_val_print in Hb by lia. unfold print_dec in *.
  change (slen "") with 0 in *. rewrite Z.sub_0_r in Hv. lia.
Qed.

(** A one- or two-digit integer, printed and zero-padded to two characters. *)
Definition two_digits (n : Z) : string :=
  String (digit_char (n / 10)) (String (digit_char (n mod 10)) "").

Lemma pad2_two_digits n : 0 <= n < 100 -> padStart (print_dec n) 2 "0" = two_digits n.
Proof.
  intros H.
  assert (forallb (fun k => String.eqb (padStart (print_dec k) 2 "0") (two_digits k))
            (map Z.of_nat (seq 0 100)) = true) as Hall by (vm_compute; reflexivity).
  rewrite forallb_forall in Hall. apply String.eqb_eq. apply Hall.
  apply in_map_iff. exists (Z.to_nat n). split; [lia|]. apply in_seq. lia.
Qed.

Lemma two_digits_all n : 0 <= n < 100 -> all_digits (two_digits n) = true /\ dec_val (two_digits n) = n.
Proof.
  intros H.
  assert (forallb (fun k => all_digits (two_digits k) && (dec_val (two_digits k) =? k)%Z)
            (map Z.of_nat (seq 0 100)) = true) as Hall by (vm_compute; reflexivity).
  rewrite forallb_forall in Hall. specialize (Hall n).
  rewrite andb_true_iff, Z.eqb_eq in Hall. apply Hall, in_map_iff.
  exists (Z.to_nat n). split; [lia|]. apply in_seq. lia.
Qed.

(** ** The order on strings *)

Lemma str_ltb_irrefl s : str_ltb s s = false.
Proof. induction s as [|c s IH]; [reflexivity|]. simpl. rewrite N.ltb_irrefl. exact IH. Qed.

Lemma str_leb_refl s : str_leb s s = true.
Proof. unfold str_leb. rewrite str_ltb_irrefl. reflexivity. Qed.

(** ** Printing, digit by digit *)

Lemma print_fuel_indep f g n acc :
  0 <= n -> n < 2 ^ Z.of_nat f -> n < 2 ^ Z.of_nat g -> (0 < f)%nat -> (0 < g)%nat ->
  print_fuel f n acc = print_fuel g n acc.
Proof.
  revert g n acc; induction f as [|f IH]; intros g n acc H0 Hf Hg Hf0 Hg0; [lia|].
  destruct g as [|g]; [lia|]. cbn [print_fuel].
  destruct (n / 10 =? 0) eqn:E; breflect; [reflexivity|].
  assert (Hp : 0 < n / 10) by (pose proof (Z.div_pos n 10); lia).
  rewrite Nat2Z.inj_succ, Z.pow_succ_r in Hf by lia.
  rewrite Nat2Z.inj_succ, Z.pow_succ_r in Hg by lia.
  assert (n / 10 < 2 ^ Z.of_nat f) by (apply Z.div_lt_upper_bound; lia).
  assert (n / 10 < 2 ^ Z.of_nat g) by (apply Z.div_lt_upper_bound; lia).
  destruct f; [change (2 ^ Z.of_nat 0) with 1 in *; lia|].
  destruct g; [change (2 ^ Z.of_nat 0) with 1 in *; lia|].
  apply IH; lia.
Qed.

Lemma print_dec_step n :
  10 <= n -> print_dec n = print_dec (n / 10) ++ String (digit_char (n mod 10)) "".
Proof.
  intros H. unfold print_dec at 1. cbn [print_fuel].
  assert (Hq : 1 <= n / 10) by (apply Z.div_le_lower_bound; lia).
  destruct (n / 10 =? 0) eqn:E; breflect; [lia|].
  change (String (digit_char (n mod 10)) "") with ("" ++ String (digit_char (n mod 10)) "") at 1.
  rewrite print_fuel_app. f_equal.
  pose proof (print_dec_fuel n ltac:(lia)) as Hn.
  rewrite Nat2Z.inj_succ, Z.pow_succ_r in Hn by lia.
  assert (n / 10 < 2 ^ Z.of_nat (Z.to_nat (Z.log2 n))) by (apply Z.div_lt_upper_bound; lia).
  apply print_fuel_indep; try lia.
  - apply print_dec_fuel; lia.
  - pose proof (Z.log2_le_mono 2 n ltac:(lia)). change (Z.log2 2) with 1 in *. lia.
Qed.

Lemma append_assoc (a b c : string) : (a ++ b) ++ c = a ++ (b ++ c).
Proof. induction a as [|x a IH]; [reflexivity|]. simpl. rewrite IH. reflexivity. Qed.

Lemma append_nil_r (a : string) : a ++ "" = a.
Proof. induction a as [|x a IH]; [reflexivity|]. simpl. rewrite IH. reflexivity. Qed.

(** The last two digits of an integer of at least three digits. *)
Lemma print_dec_cents n :
  100 <= n -> print_dec n = print_dec (n / 100) ++ two_digits (n mod 100).
Proof.
  intros H.
  assert (10 <= n / 10) by (apply Z.div_le_lower_bound; lia).
  rewrite print_dec_step, (print_dec_step (n / 10)), append_assoc by lia.
  rewrite Z.div_div by lia. change (10 * 10) with 100.
  assert ((n / 10) mod 10 = n mod 100 / 10) as ->.
  { rewrite (Z.mod_eq (n / 10) 10), (Z.mod_eq n 100) by lia.
    replace (n - 100 * (n / 100)) with (n + (- 10 * (n / 100)) * 10) by ring.
    rewrite Z.div_add, Z.div_div by lia. change (10 * 10) with 100. lia. }
  assert (n mod 10 = (n mod 100) mod 10) as ->; [|reflexivity].
  rewrite (Z.mod_eq n 100) by lia.
  replace (n - 100 * (n / 100)) with (n + (- 10 * (n / 100)) * 10) by ring.
  rewrite Z_mod_plus_full. reflexivity.
Qed.

Lemma substring_head a b : substring 0 (String.length a) (a ++ b) = a.
Proof.
  induction a as [|c a IH]; [destruct b; reflexivity|]. simpl. rewrite IH. reflexivity.
Qed.

Lemma substring_all b m : (String.length b <= m)%nat -> substring 0 m b = b.
Proof.
  revert m; induction b as [|c b IH]; intros m H; [destruct m; reflexivity|].
  destruct m as [|m]; simpl in H; [lia|]. simpl. rewrite IH by lia. reflexivity.
Qed.

Lemma substring_tail a b m :
  (String.length b <= m)%nat -> substring (String.length a) m (a ++ b) = b.
Proof.
  intros H. induction a as [|c a IH]; [apply substring_all, H|]. exact IH.
Qed.

Lemma split_at (s : string) n m :
  (n <= String.length s)%nat -> (String.length s <= m)%nat ->
  substring 0 n s ++ substring n m s = s.
Proof.
  revert n m; induction s as [|c s IH]; intros n m Hn Hm; simpl in *.
  - destruct n; [destruct m; reflexivity|lia].
  - destruct n as [|n]; simpl.
    + apply (substring_all (String c s) m). simpl. lia.
    + f_equal. apply IH; lia.
Qed.

Lemma substring_len (s : string) n :
  (n <= String.length s)%nat -> String.length (substring 0 n s) = n.
Proof.
  revert n; induction s as [|c s IH]; intros n H; simpl in *.
  - destruct n; [reflexivity|lia].
  - destruct n; simpl; [reflexivity|]. rewrite IH by lia. reflexivity.
Qed.

(** ** Strings without white space *)

Fixpoint no_space (s : string) : bool :=
  match s with
  | EmptyString => true
  | String c r => negb (is_space c) && no_space r
  end.

Lemma trim_no_space s : no_space s = true -> trim s = s.
Proof.
  intros H. unfold trim.
  assert (trimStart s = s) as ->.
  { destruct s as [|c r]; [reflexivity|]. simpl in *.
    apply andb_true_iff in H as [H _]. apply negb_true_iff in H. rewrite H. reflexivity. }
  induction s as [|c r IH]; [reflexivity|]. simpl in *.
  apply andb_true_iff in H as [H1 H2]. apply negb_true_iff in H1.
  rewrite (IH H2), H1. destruct r; reflexivity.
Qed.

Lemma no_space_app a b : no_space (a ++ b) = no_space a && no_space b.
Proof. induction a as [|c a IH]; [reflexivity|]. simpl. rewrite IH. apply andb_assoc. Qed.

Lemma digit_not_space c : is_digit c = true -> is_space c = false.
Proof.
  unfold is_digit, is_space. rewrite andb_true_iff, !N.leb_le. intros [H1 H2].
  repeat (apply orb_false_iff; split).
  - apply andb_false_iff. right. apply N.leb_gt. lia.
  - apply N.eqb_neq. lia.
  - apply N.eqb_neq. lia.
Qed.

Lemma all_digits_no_space s : all_digits s = true -> no_space s = true.
Proof.
  induction s as [|c s IH]; [reflexivity|]. simpl. intros H.
  apply andb_true_iff in H as [H1 H2]. rewrite (digit_not_space c H1), (IH H2). reflexivity.
Qed.
