(* ===== verification/JsNumber.v ===== *)
(** * JavaScript numbers

    IEEE-754 binary64 values with round-to-nearest-even, as the arithmetic of
    the source has them.  A finite double is the (reduced) rational number it denotes;
    every operation is the exact rational operation followed by [rnd], so the
    definitions compute and their rounding errors are provable.  The sign of
    zero is not represented: no operation of the modelled code observes it
    ([String(-0)] and [(-0).toFixed(2)] print ["0"] and ["0.00"], and no
    division by a computed zero is reached). *)

From Stdlib Require Import QArith Qround Qabs Qpower Lqa.
From S2P Require Import Prelude JsString.

Local Open Scope string_scope.
Local Open Scope Q_scope.

Inductive num :=
| NaN
| Inf (neg : bool)
| Fin (q : Q).

(** ** Rounding *)

Definition two : Q := 2.
Definition ten : Q := 10.

(** The exponent [E] with [2^E <= q < 2^(E+1)], for [q > 0]. *)
Definition binexp (q : Q) : Z :=
  let k := (Z.log2 (Qnum q) - Z.log2 (Zpos (Qden q)))%Z in
  if Qle_bool (two ^ k) q then k else (k - 1)%Z.

(** Nearest integer, ties to even. *)
Definition rne (x : Q) : Z :=
  let f := Qfloor x in
  match Qcompare (x - inject_Z f) (1 # 2) with
  | Lt => f
  | Gt => (f + 1)%Z
  | Eq => if Z.even f then f else (f + 1)%Z
  end.

(** A positive rational rounded to 53 significant bits (fewer below the
    normal range, whose unit is [2^-1074]). *)
Definition rnd_pos (q : Q) : Q :=
  let e := Z.max (binexp q - 52) (-1074) in
  inject_Z (rne (q / two ^ e)) * two ^ e.

Definition rnd (q : Q) : Q :=
  match Qnum q with
  | Z0 => 0
  | Zpos _ => rnd_pos q
  | Zneg _ => - rnd_pos (- q)
  end.

(** The double nearest to [q]; magnitudes from [2^1024] on are infinite. *)
Definition fin (q : Q) : num :=
  let r := rnd q in
  if Qle_bool (two ^ 1024) (Qabs r) then Inf (Qnum q <? 0)%Z else Fin (Qred r).

(** ** Operators *)

Definition isNeg (x : num) : bool :=
  match x with NaN => false | Inf s => s | Fin q => (Qnum q <? 0)%Z end.

Definition isZero (x : num) : bool :=
  match x with Fin q => (Qnum q =? 0)%Z | _ => false end.

Definition isFinite (x : num) : bool := match x with Fin _ => true | _ => false end.

Definition js_neg (x : num) : num :=
  match x with NaN => NaN | Inf s => Inf (negb s) | Fin q => Fin (- q) end.

Definition js_add (x y : num) : num :=
  match x, y with
  | NaN, _ | _, NaN => NaN
  | Inf a, Inf b => if Bool.eqb a b then Inf a else NaN
  | Inf a, Fin _ | Fin _, Inf a => Inf a
  | Fin p, Fin q => fin (p + q)
  end.

Definition js_sub (x y : num) : num := js_add x (js_neg y).

Definition js_mul (x y : num) : num :=
  match x, y with
  | NaN, _ | _, NaN => NaN
  | Fin p, Fin q => fin (p * q)
  | _, _ => if isZero x || isZero y then NaN else Inf (xorb (isNeg x) (isNeg y))
  end.

Definition js_div (x y : num) : num :=
  match x, y with
  | NaN, _ | _, NaN => NaN
  | Inf _, Inf _ => NaN
  | Inf a, Fin q => Inf (xorb a (isNeg y))
  | Fin _, Inf _ => Fin 0
  | Fin p, Fin q =>
      if isZero y then (if isZero x then NaN else Inf (isNeg x)) else fin (p / q)
  end.

(** [x < y] and [x <= y]; false as soon as one side is [NaN]. *)
Definition js_lt (x y : num) : bool :=
  match x, y with
  | NaN, _ | _, NaN => false
  | Inf a, Inf b => a && negb b
  | Inf a, Fin _ => a
  | Fin _, Inf b => negb b
  | Fin p, Fin q => negb (Qle_bool q p)
  end.

Definition js_eq (x y : num) : bool :=
  match x, y with
  | Inf a, Inf b => Bool.eqb a b
  | Fin p, Fin q => Qeq_bool p q
  | _, _ => false
  end.

Definition js_le (x y : num) : bool := js_lt x y || js_eq x y.
Definition js_gt (x y : num) : bool := js_lt y x.
Definition js_ge (x y : num) : bool := js_le y x.

(** [Math.floor], [Math.ceil], [Math.round] (nearest, ties towards
    plus infinity), [Math.min], [Math.max].  The integral results are exact:
    the floor of a double is a double. *)
Definition math_floor (x : num) : num :=
  match x with Fin q => Fin (inject_Z (Qfloor q)) | _ => x end.

Definition math_ceil (x : num) : num :=
  match x with Fin q => Fin (inject_Z (Qceiling q)) | _ => x end.

Definition math_round (x : num) : num :=
  match x with Fin q => Fin (inject_Z (Qfloor (q + (1 # 2)))) | _ => x end.

Definition math_min (x y : num) : num :=
  match x, y with
  | NaN, _ | _, NaN => NaN
  | _, _ => if js_lt y x then y else x
  end.

Definition math_max (x y : num) : num :=
  match x, y with
  | NaN, _ | _, NaN => NaN
  | _, _ => if js_lt x y then y else x
  end.

(** The double of an integer literal or counter. *)
Definition ofZ (n : Z) : num := Fin (inject_Z n).

(** ** [Number(text)] *)

(** A run of digits at the head of a string. *)
Fixpoint span_digits (s : string) : string * string :=
  match s with
  | String c r =>
      if is_digit c then let '(d, t) := span_digits r in (String c d, t) else ("", s)
  | EmptyString => ("", "")
  end.

(** Decimal literals [digits][.digits][e[+-]digits]: integer digits, fraction
    digits and exponent, when the whole text is one. *)
Definition scan_exp (s : string) : option Z :=
  match s with
  | EmptyString => Some 0%Z
  | String c r =>
      if (c =? "e")%char || (c =? "E")%char then
        let '(neg, r') :=
          match r with
          | String c' r' =>
              if (c' =? "-")%char then (true, r')
              else if (c' =? "+")%char then (false, r') else (false, r)
          | EmptyString => (false, r)
          end in
        let '(d, t) := span_digits r' in
        match d, t with
        | EmptyString, _ => None
        | _, EmptyString => Some (if neg then - dec_val d else dec_val d)%Z
        | _, _ => None
        end
      else None
  end.

Definition scan_unsigned (s : string) : option (string * string * Z) :=
  let '(ip, r) := span_digits s in
  match r with
  | String c r' =>
      if (c =? ".")%char then
        let '(fp, r'') := span_digits r' in
        match scan_exp r'' with Some e => Some (ip, fp, e) | None => None end
      else match scan_exp r with Some e => Some (ip, "", e) | None => None end
  | EmptyString => Some (ip, "", 0%Z)
  end.

(** The sign, if any, and the rest. *)
Definition scan_sign (s : string) : bool * string :=
  match s with
  | String c r =>
      if (c =? "-")%char then (true, r)
      else if (c =? "+")%char then (false, r) else (false, s)
  | EmptyString => (false, s)
  end.

(** The text as an optional sign, integer digits, an optional point with
    fraction digits and an optional exponent: the four groups of the source's
    [DECIMAL_RE].  Either digit group may be empty. *)
Definition scan_decimal (s : string) : option (bool * string * string * Z) :=
  let '(neg, r) := scan_sign s in
  match scan_unsigned r with
  | Some (ip, fp, e) => Some (neg, ip, fp, e)
  | None => None
  end.

(** Digits in base 2, 8 or 16. *)
Definition radix_digit (c : ascii) : option Z :=
  let n := N_of_ascii c in
  if is_digit c then Some (digit_val c)
  else if ((97 <=? n) && (n <=? 102))%N then Some (Z.of_N n - 87)%Z
  else if ((65 <=? n) && (n <=? 70))%N then Some (Z.of_N n - 55)%Z
  else None.

Fixpoint radix_val (b acc : Z) (s : string) : option Z :=
  match s with
  | EmptyString => Some acc
  | String c r =>
      match radix_digit c with
      | Some d => if (d <? b)%Z then radix_val b (acc * b + d)%Z r else None
      | None => None
      end
  end.

Definition scan_radix (s : string) : option Z :=
  match s with
  | String z (String x (String c r)) =>
      if (z =? "0")%char then
        if (x =? "x")%char || (x =? "X")%char then radix_val 16 0 (String c r)
        else if (x =? "o")%char || (x =? "O")%char then radix_val 8 0 (String c r)
        else if (x =? "b")%char || (x =? "B")%char then radix_val 2 0 (String c r)
        else None
      else None
  | _ => None
  end.

(** The rational a decimal literal denotes. *)
Definition dec_Q (neg : bool) (ip fp : string) (e : Z) : Q :=
  let m := dec_val (ip ++ fp) in
  inject_Z (if neg then - m else m)%Z * ten ^ (e - slen fp).

(** [Number(text)] (ECMAScript StringToNumber). *)
Definition js_Number (text : string) : num :=
  let s := trim text in
  if String.eqb s "" then Fin 0
  else match scan_radix s with
  | Some n => fin (inject_Z n)
  | None =>
      let '(neg, r) := scan_sign s in
      if String.eqb r "Infinity" then Inf neg
      else match scan_unsigned r with
           | Some (ip, fp, e) =>
               if String.eqb (ip ++ fp) "" then NaN else fin (dec_Q neg ip fp e)
           | None => NaN
           end
  end.

(** ** [parseFloat(text)] *)

(** The exponent at the head of a text, nothing when it is not one. *)
Definition exponent_prefix (s : string) : Z :=
  match s with
  | String c r =>
      if (c =? "e")%char || (c =? "E")%char then
        let '(neg, r') := scan_sign r in
        let d := fst (span_digits r') in
        (if neg then - dec_val d else dec_val d)%Z
      else 0%Z
  | EmptyString => 0%Z
  end.

(** The longest prefix that is a decimal literal, leading blanks skipped. *)
Definition parseFloat (text : string) : num :=
  let '(neg, r) := scan_sign (trimStart text) in
  if String.prefix "Infinity" r then Inf neg
  else
    let '(ip, r1) := span_digits r in
    let '(fp, r2) := match r1 with
                     | String c r' => if (c =? ".")%char then span_digits r' else ("", r1)
                     | EmptyString => ("", r1)
                     end in
    if String.eqb (ip ++ fp) "" then NaN else fin (dec_Q neg ip fp (exponent_prefix r2)).

(** ** [String(x)] and [x.toFixed(f)] *)

(** The decimal exponent [n] with [10^(n-1) <= q < 10^n], for [q > 0]: the
    number of digits of the integer part, or one minus the number of zeros to
    skip. *)
Definition decexp (q : Q) : Z :=
  if Qle_bool 1 q then slen (print_dec (Qfloor q))
  else (1 - slen (print_dec (Qceiling (/ q) - 1)))%Z.

(** The candidates with [k] digits for [q]: the two [k]-digit decimals around
    it, nearest first. *)
Definition candidates (q : Q) (n k : Z) : list Z :=
  let x := q * ten ^ (k - n) in
  let f := Qfloor x in
  if Qle_bool (x - inject_Z f) (1 # 2) then [f; (f + 1)%Z] else [(f + 1)%Z; f].

(** The shortest digits that read back as [q] (Number::toString): fewest
    digits first, at equal length the closest. *)
Fixpoint shortest (fuel : nat) (q : Q) (n k : Z) : Z * Z :=
  match fuel with
  | O => (Qfloor (q * ten ^ (k - n)), k)
  | S f =>
      match filter (fun s => Qeq_bool (rnd (inject_Z s * ten ^ (n - k))) q) (candidates q n k) with
      | s :: _ => (s, k)
      | [] => shortest f q n (k + 1)
      end
  end.

(** Digits [s] at decimal exponent [n], formatted as Number::toString does. *)
Definition format_digits (s : string) (n : Z) : string :=
  let k := slen s in
  if ((k <=? n) && (n <=? 21))%Z then s ++ zeros (n - k)
  else if ((0 <? n) && (n <=? 21))%Z then
    substring 0 (Z.to_nat n) s ++ "." ++ substring (Z.to_nat n) (String.length s) s
  else if ((-6 <? n) && (n <=? 0))%Z then "0." ++ zeros (- n) ++ s
  else
    let e := (n - 1)%Z in
    let es := (if e <? 0 then "-" ++ print_dec (- e) else "+" ++ print_dec e)%Z in
    if (k =? 1)%Z then s ++ "e" ++ es
    else substring 0 1 s ++ "." ++ substring 1 (String.length s) s ++ "e" ++ es.

Definition toString_pos (q : Q) : string :=
  let n := decexp q in
  let '(s, k) := shortest 17 q n 1 in
  (* [s] may be [10^k] when the upper candidate carries *)
  if (s =? 10 ^ k)%Z then format_digits "1" (n + 1)
  else format_digits (print_dec s) n.

Definition js_String (x : num) : string :=
  match x with
  | NaN => "NaN"
  | Inf neg => if neg then "-Infinity" else "Infinity"
  | Fin q =>
      match Qnum q with
      | Z0 => "0"
      | Zpos _ => toString_pos q
      | Zneg _ => "-" ++ toString_pos (- q)
      end
  end.

(** Digits of [n] with [f] decimals. *)
Definition fixed_digits (f n : Z) : string :=
  let d := padStart (print_dec n) (f + 1) "0" in
  let w := Z.to_nat (slen d - f) in
  if (f =? 0)%Z then d else substring 0 w d ++ "." ++ substring w (String.length d) d.

Definition toFixed (f : Z) (x : num) : string :=
  match x with
  | Fin q =>
      let a := Qabs q in
      if Qle_bool (ten ^ 21) a then js_String x
      else (if (Qnum q <? 0)%Z then "-" else "")
             ++ fixed_digits f (Qfloor (a * ten ^ f + (1 # 2)))
  | _ => js_String x
  end.

(** ** Powers of two and ten *)

Lemma two_pos e : 0 < two ^ e.
Proof. apply Qpower_0_lt. reflexivity. Qed.

Lemma ten_pos e : 0 < ten ^ e.
Proof. apply Qpower_0_lt. reflexivity. Qed.

Lemma two_plus a b : two ^ (a + b) == two ^ a * two ^ b.
Proof. apply Qpower_plus. discriminate. Qed.

Lemma ten_plus a b : ten ^ (a + b) == ten ^ a * ten ^ b.
Proof. apply Qpower_plus. discriminate. Qed.

Lemma two_Z e : (0 <= e)%Z -> two ^ e == inject_Z (2 ^ e).
Proof. intros H. symmetry. apply Zpower_Qpower, H. Qed.

Lemma ten_Z e : (0 <= e)%Z -> ten ^ e == inject_Z (10 ^ e).
Proof. intros H. symmetry. apply Zpower_Qpower, H. Qed.

Lemma two_mono a b : (a <= b)%Z -> two ^ a <= two ^ b.
Proof. intros H. apply Qpower_le_compat_l; [exact H|discriminate]. Qed.

Lemma two_lt_inv a b : two ^ a < two ^ b -> (a < b)%Z.
Proof.
  intros H. destruct (Z_lt_le_dec a b) as [|Hge]; [assumption|].
  pose proof (two_mono b a Hge). lra.
Qed.

Lemma ten_mono a b : (a <= b)%Z -> ten ^ a <= ten ^ b.
Proof. intros H. apply Qpower_le_compat_l; [exact H|discriminate]. Qed.

Lemma ten_lt_inv a b : ten ^ a < ten ^ b -> (a < b)%Z.
Proof.
  intros H. destruct (Z_lt_le_dec a b) as [|Hge]; [assumption|].
  pose proof (ten_mono b a Hge). lra.
Qed.

(** ** The rounding function *)

Lemma binexp_spec q : 0 < q -> two ^ binexp q <= q < two ^ (binexp q + 1).
Proof.
  intros Hq.
  assert (Hn : (0 < Qnum q)%Z) by (unfold Qlt in Hq; simpl in Hq; lia).
  set (la := Z.log2 (Qnum q)). set (ld := Z.log2 (Zpos (Qden q))).
  pose proof (Z.log2_spec _ Hn) as Ha. fold la in Ha.
  pose proof (Z.log2_spec (Zpos (Qden q)) ltac:(lia)) as Hd. fold ld in Hd.
  pose proof (Z.log2_nonneg (Qnum q)) as Hla. fold la in Hla.
  pose proof (Z.log2_nonneg (Zpos (Qden q))) as Hld. fold ld in Hld.
  set (D := inject_Z (Zpos (Qden q))).
  assert (HD : 0 < D) by (unfold D, Qlt; simpl; lia).
  assert (HqD : q * D == inject_Z (Qnum q)).
  { unfold D, Qeq; simpl. rewrite Pos.mul_1_r, Z.mul_1_r. reflexivity. }
  assert (H1 : two ^ la <= inject_Z (Qnum q) < two ^ (la + 1)).
  { rewrite !two_Z by lia. rewrite <- Zle_Qle, <- Zlt_Qlt.
    unfold Z.succ in Ha. exact Ha. }
  assert (H2 : two ^ ld <= D < two ^ (ld + 1)).
  { unfold D. rewrite !two_Z by lia. rewrite <- Zle_Qle, <- Zlt_Qlt.
    unfold Z.succ in Hd. exact Hd. }
  assert (Hlow : two ^ (la - ld - 1) <= q).
  { apply Qmult_le_r with (z := D); [exact HD|]. rewrite HqD.
    assert (E : two ^ la == two ^ (la - ld - 1) * two ^ (ld + 1))
      by (rewrite <- two_plus; replace (la - ld - 1 + (ld + 1))%Z with la by lia; reflexivity).
    pose proof (two_pos (la - ld - 1)). nra. }
  assert (Hup : q < two ^ (la - ld + 1)).
  { apply Qmult_lt_r with (z := D); [exact HD|]. rewrite HqD.
    assert (E : two ^ (la + 1) == two ^ (la - ld + 1) * two ^ ld)
      by (rewrite <- two_plus; replace (la - ld + 1 + ld)%Z with (la + 1)%Z by lia; reflexivity).
    pose proof (two_pos (la - ld + 1)). nra. }
  unfold binexp. fold la ld.
  destruct (Qle_bool (two ^ (la - ld)) q) eqn:E.
  - apply Qle_bool_iff in E. split; assumption.
  - assert (~ two ^ (la - ld) <= q) as Hn2 by (rewrite <- Qle_bool_iff; congruence).
    replace (la - ld - 1 + 1)%Z with (la - ld)%Z by lia. split; [exact Hlow | lra].
Qed.

Lemma binexp_unique q E : two ^ E <= q < two ^ (E + 1) -> binexp q = E.
Proof.
  intros [H1 H2].
  assert (Hq : 0 < q) by (pose proof (two_pos E); lra).
  destruct (binexp_spec q Hq) as [H3 H4].
  assert (binexp q < E + 1)%Z by (apply two_lt_inv; lra).
  assert (E < binexp q + 1)%Z by (apply two_lt_inv; lra). lia.
Qed.

Lemma rne_err x : Qabs (inject_Z (rne x) - x) <= 1 # 2.
Proof.
  unfold rne. pose proof (Qfloor_le x) as Hl. pose proof (Qlt_floor x) as Hu.
  rewrite inject_Z_plus in Hu. change (inject_Z 1) with 1 in Hu.
  destruct (Qcompare (x - inject_Z (Qfloor x)) (1 # 2)) eqn:E.
  - apply Qeq_alt in E. destruct (Z.even (Qfloor x)); rewrite ?inject_Z_plus;
      change (inject_Z 1) with 1; apply Qabs_Qle_condition; split; lra.
  - apply Qlt_alt in E. apply Qabs_Qle_condition; split; lra.
  - apply Qgt_alt in E. rewrite inject_Z_plus. change (inject_Z 1) with 1.
    apply Qabs_Qle_condition; split; lra.
Qed.

#[export] Instance rne_proper : Proper (Qeq ==> eq) rne.
Proof.
  intros x y H. unfold rne. rewrite (Qfloor_comp _ _ H).
  setoid_replace (x - inject_Z (Qfloor y)) with (y - inject_Z (Qfloor y)) by (rewrite H; reflexivity).
  reflexivity.
Qed.

Lemma rne_int n : rne (inject_Z n) = n.
Proof.
  unfold rne. rewrite Qfloor_Z.
  setoid_replace (inject_Z n - inject_Z n) with 0 by ring. reflexivity.
Qed.

Lemma binexp_eq x y : 0 < x -> x == y -> binexp x = binexp y.
Proof.
  intros Hx H. symmetry. apply binexp_unique. rewrite <- H. apply binexp_spec, Hx.
Qed.

Lemma Qnum_pos q : (exists p, Qnum q = Zpos p) <-> 0 < q.
Proof.
  unfold Qlt; simpl. rewrite Z.mul_1_r. split.
  - intros [p ->]. lia.
  - destruct (Qnum q) eqn:E; [lia | eauto | lia].
Qed.

Lemma rnd_of_pos q : 0 < q -> rnd q = rnd_pos q.
Proof. intros H. apply Qnum_pos in H as [p Hp]. unfold rnd. rewrite Hp. reflexivity. Qed.

Lemma rnd_of_neg q : q < 0 -> rnd q = - rnd_pos (- q).
Proof.
  unfold Qlt; simpl. rewrite Z.mul_1_r. intros H. unfold rnd.
  destruct (Qnum q) eqn:E; [lia | lia | reflexivity].
Qed.

Lemma rnd_of_zero q : q == 0 -> rnd q = 0.
Proof.
  unfold Qeq; simpl. rewrite Z.mul_1_r. intros H. unfold rnd. rewrite H. reflexivity.
Qed.

Lemma rnd_pos_eq x y : 0 < x -> x == y -> rnd_pos x == rnd_pos y.
Proof.
  intros Hx H. unfold rnd_pos. rewrite <- (binexp_eq x y Hx H).
  set (e := Z.max (binexp x - 52) (-1074)). clearbody e.
  setoid_replace (x / two ^ e) with (y / two ^ e) by (rewrite H; reflexivity).
  reflexivity.
Qed.

#[export] Instance rnd_proper : Proper (Qeq ==> Qeq) rnd.
Proof.
  intros x y H. destruct (Q_dec 0 x) as [[Hx|Hx]|Hx].
  - rewrite (rnd_of_pos x), (rnd_of_pos y) by lra. apply rnd_pos_eq; assumption.
  - rewrite (rnd_of_neg x), (rnd_of_neg y) by lra.
    rewrite (rnd_pos_eq (- x) (- y)); [reflexivity | lra | rewrite H; reflexivity].
  - rewrite (rnd_of_zero x), (rnd_of_zero y) by lra. reflexivity.
Qed.

Lemma rnd_opp q : rnd (- q) == - rnd q.
Proof.
  destruct (Q_dec 0 q) as [[Hq|Hq]|Hq].
  - rewrite (rnd_of_neg (- q)), (rnd_of_pos q) by lra.
    rewrite (rnd_pos_eq (- - q) q); [reflexivity | lra | ring].
  - rewrite (rnd_of_pos (- q)), (rnd_of_neg q) by lra. ring.
  - rewrite (rnd_of_zero (- q)), (rnd_of_zero q) by lra. reflexivity.
Qed.

(** In the normal range a rounding loses at most one part in [2^53]. *)
Lemma rnd_pos_err q :
  two ^ (-1022) <= q -> Qabs (rnd_pos q - q) <= q * two ^ (-53).
Proof.
  intros Hlo. assert (Hq : 0 < q) by (pose proof (two_pos (-1022)); lra).
  destruct (binexp_spec q Hq) as [H1 H2].
  assert (HE : (-1022 < binexp q + 1)%Z) by (apply two_lt_inv; lra).
  unfold rnd_pos. rewrite Z.max_l by lia.
  set (e := (binexp q - 52)%Z). pose proof (two_pos e) as He.
  pose proof (rne_err (q / two ^ e)) as Hr.
  set (m := inject_Z (rne (q / two ^ e))) in *.
  assert (Hqe : q / two ^ e * two ^ e == q) by (field; lra).
  assert (Habs : Qabs (m * two ^ e - q) == Qabs (m - q / two ^ e) * two ^ e).
  { rewrite <- Hqe at 1. setoid_replace (m * two ^ e - q / two ^ e * two ^ e)
      with ((m - q / two ^ e) * two ^ e) by ring.
    rewrite Qabs_Qmult, (Qabs_pos (two ^ e)) by lra. reflexivity. }
  rewrite Habs.
  assert (E53 : two ^ binexp q * two ^ (-53) == (1 # 2) * two ^ e).
  { rewrite <- two_plus. unfold e. replace (binexp q + -53)%Z with (-1 + (binexp q - 52))%Z by lia.
    rewrite two_plus. reflexivity. }
  pose proof (two_pos (-53)) as H53. nra.
Qed.

(** Zero and the magnitudes of the normal range. *)
Definition normal (q : Q) : Prop := q == 0 \/ two ^ (-1022) <= Qabs q.

Lemma rnd_err q : normal q -> Qabs (rnd q - q) <= Qabs q * two ^ (-53).
Proof.
  intros [H|H].
  { rewrite (rnd_of_zero q H), H. discriminate. }
  destruct (Q_dec 0 q) as [[Hq|Hq]|Hq].
  - rewrite (Qabs_pos q) in * by lra.
    rewrite rnd_of_pos by lra. apply rnd_pos_err. exact H.
  - rewrite (Qabs_neg q) in * by lra.
    rewrite rnd_of_neg by lra.
    setoid_replace (- rnd_pos (- q) - q) with (- (rnd_pos (- q) - - q)) by ring.
    rewrite Qabs_opp. apply rnd_pos_err. exact H.
  - rewrite (rnd_of_zero q) by lra. rewrite <- Hq. discriminate.
Qed.

(** A dyadic rational with a 53-bit mantissa is a double. *)
Lemma rnd_pos_exact m k :
  (0 < m < 2 ^ 53)%Z -> (-1074 <= k)%Z ->
  rnd_pos (inject_Z m * two ^ k) == inject_Z m * two ^ k.
Proof.
  intros Hm Hk. set (q := inject_Z m * two ^ k).
  assert (Hm' : 1 <= inject_Z m < two ^ 53).
  { rewrite two_Z by lia. split; [change 1 with (inject_Z 1); rewrite <- Zle_Qle; lia|].
    rewrite <- Zlt_Qlt. lia. }
  pose proof (two_pos k) as Hpk.
  assert (Hq : 0 < q) by (unfold q; nra).
  destruct (binexp_spec q Hq) as [H1 _].
  assert (HE : (binexp q < 53 + k)%Z).
  { apply two_lt_inv. rewrite two_plus. unfold q in *. nra. }
  unfold rnd_pos. set (e := Z.max (binexp q - 52) (-1074)).
  pose proof (two_pos e) as He.
  assert (Hdiv : q / two ^ e == inject_Z (m * 2 ^ (k - e))).
  { rewrite inject_Z_mult, <- two_Z by lia. unfold q.
    assert (Hk' : two ^ k == two ^ (k - e) * two ^ e)
      by (rewrite <- two_plus; replace (k - e + e)%Z with k by lia; reflexivity).
    rewrite Hk'. field. lra. }
  rewrite Hdiv, rne_int, <- Hdiv. field. lra.
Qed.

Lemma rnd_int n : (Z.abs n < 2 ^ 53)%Z -> rnd (inject_Z n) == inject_Z n.
Proof.
  intros H. destruct (Z.lt_trichotomy n 0) as [Hn|[->|Hn]].
  - rewrite rnd_of_neg by (change 0 with (inject_Z 0); rewrite <- Zlt_Qlt; lia).
    pose proof (rnd_pos_exact (- n) 0 ltac:(lia) ltac:(lia)) as Hx.
    rewrite (rnd_pos_eq (- inject_Z n) (inject_Z (- n) * two ^ 0)).
    + rewrite Hx, inject_Z_opp. change (two ^ 0) with 1. ring.
    + rewrite <- inject_Z_opp. change 0 with (inject_Z 0). rewrite <- Zlt_Qlt. lia.
    + rewrite inject_Z_opp. change (two ^ 0) with 1. ring.
  - reflexivity.
  - rewrite rnd_of_pos by (change 0 with (inject_Z 0); rewrite <- Zlt_Qlt; lia).
    pose proof (rnd_pos_exact n 0 ltac:(lia) ltac:(lia)) as Hx.
    rewrite (rnd_pos_eq (inject_Z n) (inject_Z n * two ^ 0)).
    + rewrite Hx. change (two ^ 0) with 1. ring.
    + change 0 with (inject_Z 0). rewrite <- Zlt_Qlt. lia.
    + change (two ^ 0) with 1. ring.
Qed.

(** ** Operations that stay far from overflow *)

Lemma rnd_pos_bound q : 0 < q -> 0 <= rnd_pos q <= 2 * q + 1.
Proof.
  intros Hq. unfold rnd_pos. destruct (binexp_spec q Hq) as [H1 _].
  set (e := Z.max (binexp q - 52) (-1074)). pose proof (two_pos e) as He.
  assert (He2 : two ^ e <= q + 1).
  { destruct (Z.max_spec (binexp q - 52) (-1074)) as [[_ Hm]|[_ Hm]]; fold e in Hm; rewrite Hm.
    - assert (two ^ (-1074) <= 1) by (apply (two_mono (-1074) 0); lia). lra.
    - assert (two ^ (binexp q - 52) <= two ^ binexp q) by (apply two_mono; lia). lra. }
  pose proof (rne_err (q / two ^ e)) as Hr. apply Qabs_Qle_condition in Hr.
  assert (Hx : q / two ^ e * two ^ e == q) by (field; lra).
  assert (Hx0 : 0 < q / two ^ e) by (apply Qlt_shift_div_l; lra).
  assert (H0 : (0 <= rne (q / two ^ e))%Z).
  { rewrite Zle_Qle. destruct (Z_lt_le_dec (rne (q / two ^ e)) 0) as [Hneg|Hpos].
    - assert (inject_Z (rne (q / two ^ e)) <= inject_Z (-1)) by (rewrite <- Zle_Qle; lia).
      change (inject_Z (-1)) with (-1) in *. lra.
    - rewrite <- Zle_Qle. exact Hpos. }
  rewrite Zle_Qle in H0. change (inject_Z 0) with 0 in H0. split; nra.
Qed.

Lemma rnd_abs_bound q : Qabs (rnd q) <= 2 * Qabs q + 1.
Proof.
  destruct (Q_dec 0 q) as [[Hq|Hq]|Hq].
  - rewrite rnd_of_pos by lra. pose proof (rnd_pos_bound q Hq).
    rewrite !Qabs_pos by lra. lra.
  - rewrite rnd_of_neg by lra. pose proof (rnd_pos_bound (- q) ltac:(lra)).
    rewrite Qabs_opp, Qabs_pos by lra. rewrite (Qabs_neg q) by lra. lra.
  - rewrite rnd_of_zero by lra. rewrite <- Hq. discriminate.
Qed.

Lemma fin_small q : Qabs q <= two ^ 1000 -> fin q = Fin (Qred (rnd q)).
Proof.
  intros H. unfold fin.
  destruct (Qle_bool (two ^ 1024) (Qabs (rnd q))) eqn:E; [|reflexivity].
  apply Qle_bool_iff in E. pose proof (rnd_abs_bound q) as Hb. exfalso.
  assert (two ^ 1024 == two ^ 1000 * 16777216) as H2
    by (rewrite <- (two_plus 1000 24); reflexivity).
  assert (1 <= two ^ 1000) by (apply (two_mono 0 1000); lia). lra.
Qed.

Lemma fin_eq p q : p == q -> fin p = fin q.
Proof.
  intros H. unfold fin. pose proof (rnd_proper _ _ H) as Hr.
  rewrite (Qred_complete _ _ Hr).
  assert (Qle_bool (two ^ 1024) (Qabs (rnd p)) = Qle_bool (two ^ 1024) (Qabs (rnd q))) as ->
    by (rewrite Hr; reflexivity).
  assert ((Qnum p <? 0) = (Qnum q <? 0))%Z as ->; [|reflexivity].
  apply eq_true_iff_eq. rewrite !Z.ltb_lt. unfold Qeq in H. nia.
Qed.

Lemma Qred_int n : Qred (inject_Z n) = inject_Z n.
Proof.
  unfold inject_Z. pose proof (Qred_correct (n # 1)) as H.
  pose proof (Z.ggcd_gcd n 1) as Hg. pose proof (Z.ggcd_correct_divisors n 1) as Hd.
  unfold Qred. simpl Z.gcd in Hg. destruct (Z.ggcd n 1) as [g [aa bb]]. simpl in *.
  rewrite Z.gcd_1_r in Hg. subst g. rewrite !Z.mul_1_l in Hd. destruct Hd as [-> <-].
  reflexivity.
Qed.

Definition int_bound : Z := 2 ^ 53.

Lemma Qabs_int n : Qabs (inject_Z n) = inject_Z (Z.abs n).
Proof. reflexivity. Qed.

Lemma fin_int q n : q == inject_Z n -> (Z.abs n < int_bound)%Z -> fin q = ofZ n.
Proof.
  unfold int_bound. intros H Hn. rewrite (fin_eq _ _ H), fin_small.
  - unfold ofZ. rewrite (Qred_complete _ _ (rnd_int n Hn)), Qred_int. reflexivity.
  - rewrite Qabs_int, two_Z by lia. rewrite <- Zle_Qle.
    assert (2 ^ 53 <= 2 ^ 1000)%Z by (apply Z.pow_le_mono_r; lia). lia.
Qed.

(** Integer arithmetic in doubles is exact below [2^53]. *)
Lemma js_add_int a b : (Z.abs (a + b) < int_bound)%Z -> js_add (ofZ a) (ofZ b) = ofZ (a + b).
Proof. intros H. apply fin_int; [rewrite inject_Z_plus; reflexivity | exact H]. Qed.

Lemma js_sub_int a b : (Z.abs (a - b) < int_bound)%Z -> js_sub (ofZ a) (ofZ b) = ofZ (a - b).
Proof.
  intros H. apply fin_int; [|exact H].
  unfold Z.sub. rewrite inject_Z_plus, inject_Z_opp. reflexivity.
Qed.

Lemma js_mul_int a b : (Z.abs (a * b) < int_bound)%Z -> js_mul (ofZ a) (ofZ b) = ofZ (a * b).
Proof. intros H. apply fin_int; [rewrite inject_Z_mult; reflexivity | exact H]. Qed.

Lemma js_lt_int a b : js_lt (ofZ a) (ofZ b) = (a <? b)%Z.
Proof.
  unfold js_lt, ofZ, Qle_bool. simpl. rewrite !Z.mul_1_r. symmetry. apply Z.ltb_antisym.
Qed.

Lemma js_eq_int a b : js_eq (ofZ a) (ofZ b) = (a =? b)%Z.
Proof. unfold js_eq, ofZ, Qeq_bool. simpl. rewrite !Z.mul_1_r. reflexivity. Qed.

Lemma js_le_int a b : js_le (ofZ a) (ofZ b) = (a <=? b)%Z.
Proof.
  unfold js_le. rewrite js_lt_int, js_eq_int.
  destruct (Z.ltb_spec a b), (Z.eqb_spec a b), (Z.leb_spec a b); simpl; lia || reflexivity.
Qed.

Lemma math_min_int a b : math_min (ofZ a) (ofZ b) = ofZ (Z.min a b).
Proof.
  unfold math_min. unfold ofZ at 1 2. rewrite js_lt_int.
  destruct (Z.ltb_spec b a); [rewrite Z.min_r by lia | rewrite Z.min_l by lia]; reflexivity.
Qed.

Lemma math_max_int a b : math_max (ofZ a) (ofZ b) = ofZ (Z.max a b).
Proof.
  unfold math_max. unfold ofZ at 1 2. rewrite js_lt_int.
  destruct (Z.ltb_spec a b); [rewrite Z.max_r by lia | rewrite Z.max_l by lia]; reflexivity.
Qed.

(** ** Hundredths: [cents / 100] as a double *)

Definition centsQ (c : Z) : Q := inject_Z c / 100.

Definition cents_bound : Z := 10 ^ 15.

Lemma centsQ_normal c : normal (centsQ c).
Proof.
  unfold normal, centsQ. destruct (Z.eq_dec c 0) as [->|Hc]; [left; reflexivity|right].
  assert (H : 1 <= Qabs (inject_Z c))
    by (rewrite Qabs_int; change 1 with (inject_Z 1); rewrite <- Zle_Qle; lia).
  unfold Qdiv. rewrite Qabs_Qmult. change (Qabs (/ 100)) with (1 # 100).
  assert (two ^ (-1022) <= two ^ (-7)) by (apply two_mono; lia).
  change (two ^ (-7)) with (1 # 128) in *. lra.
Qed.

Lemma u53_small : two ^ (-53) <= 1 # 9000000000000000.
Proof. vm_compute. discriminate. Qed.

(** The double of [cents / 100] is closer than one part in [9 * 10^15]. *)
Lemma rnd_cents_err c :
  Qabs (rnd (centsQ c) - centsQ c) <= Qabs (centsQ c) * (1 # 9000000000000000).
Proof.
  eapply Qle_trans; [apply rnd_err, centsQ_normal|].
  pose proof u53_small. pose proof (Qabs_nonneg (centsQ c)). nra.
Qed.

Lemma centsQ_abs c : Qabs (centsQ c) == centsQ (Z.abs c).
Proof. unfold centsQ, Qdiv. rewrite Qabs_Qmult, Qabs_int. reflexivity. Qed.

Lemma centsQ_bound c : (Z.abs c <= cents_bound)%Z -> Qabs (centsQ c) <= 10000000000000.
Proof.
  unfold cents_bound. intros H. rewrite centsQ_abs. unfold centsQ.
  assert (inject_Z (Z.abs c) <= inject_Z (10 ^ 15)) by (rewrite <- Zle_Qle; lia).
  change (inject_Z (10 ^ 15)) with 1000000000000000 in *.
  apply Qle_shift_div_r; lra.
Qed.

Lemma fin_cents c :
  (Z.abs c <= cents_bound)%Z -> fin (centsQ c) = Fin (Qred (rnd (centsQ c))).
Proof.
  intros H. apply fin_small. pose proof (centsQ_bound c H).
  assert (two ^ 50 <= two ^ 1000) by (apply two_mono; lia).
  change (two ^ 50) with 1125899906842624 in *. lra.
Qed.

Lemma js_div_cents c : js_div (ofZ c) (Fin 100) = fin (centsQ c).
Proof. reflexivity. Qed.

(** The integer nearest to a rational within a half of it. *)
Lemma Qfloor_near y c : Qabs (y - inject_Z c) < 1 # 2 -> Qfloor (y + (1 # 2)) = c.
Proof.
  intros H. apply Qabs_Qlt_condition in H.
  assert (inject_Z c <= y + (1 # 2)) as H1 by lra.
  assert (y + (1 # 2) < inject_Z (c + 1)) as H2
    by (rewrite inject_Z_plus; change (inject_Z 1) with 1; lra).
  apply Qfloor_resp_le in H1. rewrite Qfloor_Z in H1.
  pose proof (Qfloor_le (y + (1 # 2))) as H3.
  assert (inject_Z (Qfloor (y + (1 # 2))) < inject_Z (c + 1)) as H4 by lra.
  rewrite <- Zlt_Qlt in H4. lia.
Qed.

(** [Math.round(x * 100)] gives back the cents a double stands for. *)
Lemma round_cents c :
  (Z.abs c <= cents_bound)%Z ->
  math_round (js_mul (fin (centsQ c)) (Fin 100)) = ofZ c.
Proof.
  intros H. rewrite (fin_cents c H). simpl js_mul.
  set (x := Qred (rnd (centsQ c))).
  assert (Hx : Qabs (x - centsQ c) <= Qabs (centsQ c) * (1 # 9000000000000000)).
  { unfold x. rewrite Qred_correct. apply rnd_cents_err. }
  pose proof (centsQ_bound c H) as Hb.
  assert (Hc : centsQ c * 100 == inject_Z c) by (unfold centsQ; field).
  assert (Hxb : Qabs x <= 20000000000000).
  { setoid_replace x with (centsQ c + (x - centsQ c)) by ring.
    eapply Qle_trans; [apply Qabs_triangle|]. lra. }
  assert (Hn : normal (x * 100)).
  { destruct (Z.eq_dec c 0) as [->|Hc0].
    - left. unfold x. rewrite Qred_correct. rewrite (rnd_of_zero (centsQ 0)); reflexivity.
    - right.
      assert (1 <= Qabs (inject_Z c))
        by (rewrite Qabs_int; change 1 with (inject_Z 1); rewrite <- Zle_Qle; lia).
      assert (two ^ (-1022) <= two ^ (-1)) by (apply two_mono; lia).
      change (two ^ (-1)) with (1 # 2) in *.
      assert (Qabs (inject_Z c) == Qabs (centsQ c) * 100) as Hca
        by (rewrite <- Hc, Qabs_Qmult; reflexivity).
      assert (Qabs (centsQ c) <= Qabs x + Qabs (x - centsQ c)) as Ht.
      { setoid_replace (centsQ c) with (x - (x - centsQ c)) at 1 by ring.
        unfold Qminus at 1. eapply Qle_trans; [apply Qabs_triangle|].
        rewrite Qabs_opp. apply Qle_refl. }
      rewrite Qabs_Qmult. change (Qabs 100) with 100. lra. }
  rewrite fin_small.
  2: { rewrite Qabs_Qmult. change (Qabs 100) with 100.
       assert (two ^ 60 <= two ^ 1000) by (apply two_mono; lia).
       change (two ^ 60) with 1152921504606846976 in *. lra. }
  simpl math_round. unfold ofZ. f_equal. f_equal. apply Qfloor_near.
  rewrite Qred_correct.
  pose proof (rnd_err _ Hn) as Hr. pose proof u53_small as Hu.
  rewrite Qabs_Qmult in Hr. change (Qabs 100) with 100 in Hr.
  pose proof (Qabs_nonneg x) as Hx0.
  rewrite <- Hc.
  setoid_replace (rnd (x * 100) - centsQ c * 100)
    with ((rnd (x * 100) - x * 100) + (x - centsQ c) * 100) by ring.
  eapply Qle_lt_trans; [apply Qabs_triangle|].
  rewrite (Qabs_Qmult (x - centsQ c)). change (Qabs 100) with 100.
  assert (Qabs x * 100 * two ^ (-53) <= Qabs x * 100 * (1 # 9000000000000000)) by nra.
  lra.
Qed.

(** ** [String(cents / 100)] reads back as the exact decimal *)

Lemma Qfloor_spec q f : inject_Z f <= q -> q < inject_Z (f + 1) -> Qfloor q = f.
Proof.
  intros H1 H2. pose proof (Qfloor_le q) as H3. pose proof (Qlt_floor q) as H4.
  assert (inject_Z (Qfloor q) < inject_Z (f + 1)) as H5 by lra.
  assert (inject_Z f < inject_Z (Qfloor q + 1)) as H6 by lra.
  rewrite <- Zlt_Qlt in H5, H6. lia.
Qed.

Lemma decexp_spec q : 0 < q -> ten ^ (decexp q - 1) <= q < ten ^ decexp q.
Proof.
  intros Hq. unfold decexp. destruct (Qle_bool 1 q) eqn:E.
  - apply Qle_bool_iff in E.
    pose proof (Qfloor_le q) as Hl. pose proof (Qlt_floor q) as Hu.
    assert (1 <= Qfloor q)%Z
      by (pose proof (Qfloor_resp_le _ _ E) as Hf; change (Qfloor 1) with 1%Z in Hf; lia).
    destruct (print_dec_len (Qfloor q) ltac:(lia)) as (Hs & H1 & H2).
    set (L := slen (print_dec (Qfloor q))) in *.
    rewrite !ten_Z by lia. rewrite Zle_Qle in H1.
    assert (inject_Z (Qfloor q + 1) <= inject_Z (10 ^ L)) by (rewrite <- Zle_Qle; lia).
    split; lra.
  - assert (q < 1) as Hlt.
    { apply Qnot_le_lt. intros Hc. apply Qle_bool_iff in Hc. congruence. }
    set (z := (Qceiling (/ q) - 1)%Z).
    assert (Hi : 1 < / q) by (apply Qlt_shift_inv_l; lra).
    assert (Hqi : q * / q == 1) by (field; lra).
    pose proof (Qle_ceiling (/ q)) as Hc1. pose proof (Qceiling_lt (/ q)) as Hc2.
    fold z in Hc2.
    assert (Hz1 : (1 <= z)%Z).
    { assert (inject_Z 1 < inject_Z (z + 1)) as H
        by (unfold z; replace (Qceiling (/ q) - 1 + 1)%Z with (Qceiling (/ q)) by lia;
            change (inject_Z 1) with 1; lra).
      rewrite <- Zlt_Qlt in H. lia. }
    destruct (print_dec_len z ltac:(lia)) as (Hs & H1 & H2).
    set (L := slen (print_dec z)) in *.
    assert (E1 : ten ^ (1 - L) * ten ^ (L - 1) == 1)
      by (rewrite <- ten_plus; replace (1 - L + (L - 1))%Z with 0%Z by lia; reflexivity).
    assert (E2 : ten ^ (1 - L - 1) * ten ^ L == 1)
      by (rewrite <- ten_plus; replace (1 - L - 1 + L)%Z with 0%Z by lia; reflexivity).
    rewrite (ten_Z (L - 1)) in E1 by lia. rewrite (ten_Z L) in E2 by lia.
    rewrite Zle_Qle in H1.
    assert (/ q <= inject_Z (10 ^ L)) as H3.
    { eapply Qle_trans; [exact Hc1|]. rewrite <- Zle_Qle. unfold z in H2. lia. }
    pose proof (ten_pos (1 - L)). pose proof (ten_pos (1 - L - 1)). split; nra.
Qed.

Lemma candidates_near q n k s :
  In s (candidates q n k) ->
  Qabs (inject_Z s - q * ten ^ (k - n)) <= 1 /\
  (Qfloor (q * ten ^ (k - n)) <= s <= Qfloor (q * ten ^ (k - n)) + 1)%Z.
Proof.
  unfold candidates. set (x := q * ten ^ (k - n)).
  pose proof (Qfloor_le x). pose proof (Qlt_floor x) as Hu.
  rewrite inject_Z_plus in Hu. change (inject_Z 1) with 1 in Hu.
  destruct (Qle_bool _ _); intros [<-|[<-|[]]]; rewrite ?inject_Z_plus;
    change (inject_Z 1) with 1; (split; [apply Qabs_Qle_condition; split; lra|lia]).
Qed.

Lemma candidates_in q n k s :
  Qabs (inject_Z s - q * ten ^ (k - n)) < 1 -> In s (candidates q n k).
Proof.
  unfold candidates. set (x := q * ten ^ (k - n)). intros H.
  apply Qabs_Qlt_condition in H.
  pose proof (Qfloor_le x). pose proof (Qlt_floor x) as Hu.
  rewrite inject_Z_plus in Hu. change (inject_Z 1) with 1 in Hu.
  assert (inject_Z s < inject_Z (Qfloor x + 2)) as H1
    by (rewrite inject_Z_plus; change (inject_Z 2) with 2; lra).
  assert (inject_Z (Qfloor x - 1) < inject_Z s) as H2
    by (unfold Z.sub; rewrite inject_Z_plus; change (inject_Z (- (1))) with (-1); lra).
  rewrite <- Zlt_Qlt in H1, H2.
  assert (s = Qfloor x \/ s = (Qfloor x + 1)%Z) as [-> | ->] by lia;
    destruct (Qle_bool _ _); simpl; auto.
Qed.

(** The search stops at the first length with a candidate that reads back. *)
Lemma shortest_sound fuel q n k K S :
  (k <= K < k + Z.of_nat fuel)%Z ->
  In S (candidates q n K) -> rnd (inject_Z S * ten ^ (n - K)) == q ->
  exists s k', shortest fuel q n k = (s, k') /\ (k <= k' <= K)%Z /\
    In s (candidates q n k') /\ rnd (inject_Z s * ten ^ (n - k')) == q.
Proof.
  revert k; induction fuel as [|f IH]; intros k Hk HS Hr; [lia|]. cbn [shortest].
  destruct (filter _ (candidates q n k)) as [|s l] eqn:E.
  - destruct (Z.eq_dec k K) as [->|Hne].
    + exfalso. assert (In S []) as []. rewrite <- E. apply filter_In. split; [exact HS|].
      apply Qeq_bool_iff. exact Hr.
    + destruct (IH (k + 1)%Z ltac:(lia) HS Hr) as (s & k' & Hs & Hk' & Hin & Hq).
      exists s, k'. repeat split; auto; lia.
  - exists s, k. assert (In s (s :: l)) as Hin by (left; reflexivity).
    rewrite <- E in Hin. apply filter_In in Hin as [Hin Hq].
    apply Qeq_bool_iff in Hq. repeat split; auto; lia.
Qed.

Lemma Qabs_near_bounds a b e :
  Qabs (a - b) <= e -> b - e <= a <= b + e.
Proof. intros H. apply Qabs_Qle_condition in H. lra. Qed.

Definition ulp_bound : Q := 1 # 9000000000000000.

Lemma rel_err_pos a v :
  0 < v -> Qabs (a - v) <= v * ulp_bound -> 0 < a /\ a <= 2 * v /\ v <= 2 * a.
Proof.
  intros Hv H. apply Qabs_near_bounds in H. unfold ulp_bound in *. lra.
Qed.

(** Two values with the same integer grid, both within a rounding of the same
    double below [10^15] units, are equal. *)
Lemma grid_unique q v w g N i j :
  0 < v -> 0 < w -> 0 < g -> q < N * g -> N <= 1000000000000000 ->
  v == inject_Z i * g -> w == inject_Z j * g ->
  Qabs (q - v) <= v * ulp_bound -> Qabs (q - w) <= w * ulp_bound ->
  i = j.
Proof.
  intros Hv Hw Hg Hq HN Ei Ej H1 H2.
  destruct (rel_err_pos _ _ Hv H1) as (_ & _ & Hv2).
  destruct (rel_err_pos _ _ Hw H2) as (_ & _ & Hw2).
  apply Qabs_near_bounds in H1, H2.
  assert (Hb : v * ulp_bound + w * ulp_bound < g * (1 # 2)).
  { unfold ulp_bound. assert (N * g <= 1000000000000000 * g) by nra. lra. }
  assert (- (1 # 2) < inject_Z (i - j) < 1 # 2) as [Hl Hu].
  { assert (inject_Z (i - j) == inject_Z i - inject_Z j) as ->
      by (unfold Z.sub; rewrite inject_Z_plus, inject_Z_opp; reflexivity).
    split; apply Qmult_lt_r with (z := g); try exact Hg; lra. }
  destruct (Z.lt_trichotomy (i - j) 0) as [Hn|[Hz|Hp]]; [|lia|].
  - assert (inject_Z (i - j) <= inject_Z (-1)) by (rewrite <- Zle_Qle; lia).
    change (inject_Z (-1)) with (-1) in *. lra.
  - assert (inject_Z 1 <= inject_Z (i - j)) by (rewrite <- Zle_Qle; lia).
    change (inject_Z 1) with 1 in *. lra.
Qed.

Section ShortestCents.
Variable c : Z.
Hypothesis Hc : (0 < c < 10 ^ 15)%Z.

Let v0 := centsQ c.
Let q := Qred (rnd v0).
Let n := decexp q.

Local Lemma sc_v0 : (1 # 100) <= v0 <= 10000000000000 - (1 # 100).
Proof.
  unfold v0, centsQ.
  assert (inject_Z 1 <= inject_Z c <= inject_Z (10 ^ 15 - 1)) as [H1 H2]
    by (rewrite <- !Zle_Qle; lia).
  change (inject_Z 1) with 1 in H1. change (inject_Z (10 ^ 15 - 1)) with 999999999999999 in H2.
  split; [apply Qle_shift_div_l | apply Qle_shift_div_r]; lra.
Qed.

Local Lemma sc_err : Qabs (q - v0) <= v0 * ulp_bound.
Proof.
  pose proof sc_v0. unfold q. rewrite Qred_correct.
  pose proof (rnd_cents_err c) as H1. fold v0 in H1.
  rewrite (Qabs_pos v0) in H1 by lra. exact H1.
Qed.

Local Lemma sc_q : 0 < q /\ (-2 <= n <= 13)%Z /\ ten ^ (n - 1) <= q < ten ^ n.
Proof.
  pose proof sc_v0 as Hv. destruct (rel_err_pos q v0 ltac:(lra) sc_err) as (Hq & _ & _).
  pose proof (decexp_spec q Hq) as Hn. fold n in Hn.
  pose proof (Qabs_near_bounds _ _ _ sc_err) as He. unfold ulp_bound in He.
  split; [exact Hq|]. split; [|exact Hn]. split.
  - assert (ten ^ (-3) < ten ^ n) as H by (change (ten ^ (-3)) with (1 # 1000); lra).
    apply ten_lt_inv in H. lia.
  - assert (ten ^ (n - 1) < ten ^ 13) as H by (change (ten ^ 13) with 10000000000000; lra).
    apply ten_lt_inv in H. lia.
Qed.

Let K := Z.max 1 (n + 2).
Let S := (c * 10 ^ (K - n - 2))%Z.

Local Lemma sc_S : inject_Z S * ten ^ (n - K) == v0.
Proof.
  unfold S, v0, centsQ. rewrite inject_Z_mult, <- ten_Z by (unfold K; lia).
  rewrite <- Qmult_assoc, <- ten_plus.
  replace (K - n - 2 + (n - K))%Z with (-2)%Z by lia. reflexivity.
Qed.

Local Lemma sc_S_in : In S (candidates q n K).
Proof.
  apply candidates_in. destruct sc_q as (Hq & Hn & Hq1 & Hq2). pose proof sc_v0 as Hv.
  pose proof sc_err as He. destruct (rel_err_pos q v0 ltac:(lra) He) as (_ & _ & Hv2).
  pose proof (ten_pos (K - n)) as Hp.
  assert (HS : inject_Z S == v0 * ten ^ (K - n)).
  { rewrite <- sc_S, <- Qmult_assoc, <- ten_plus.
    replace (n - K + (K - n))%Z with 0%Z by lia. simpl. ring. }
  setoid_replace (inject_Z S - q * ten ^ (K - n)) with (- (q - v0) * ten ^ (K - n))
    by (rewrite HS; ring).
  rewrite Qabs_Qmult, Qabs_opp, (Qabs_pos (ten ^ (K - n))) by lra.
  assert (HK : ten ^ n * ten ^ (K - n) <= 1000000000000000).
  { rewrite <- ten_plus. replace (n + (K - n))%Z with K by lia.
    change 1000000000000000 with (ten ^ 15). apply ten_mono. unfold K; lia. }
  unfold ulp_bound in He. nra.
Qed.

Local Lemma sc_range s k :
  (1 <= k)%Z -> In s (candidates q n k) -> (10 ^ (k - 1) <= s <= 10 ^ k)%Z.
Proof.
  intros Hk Hin. destruct sc_q as (Hq & Hn & Hq1 & Hq2).
  destruct (candidates_near _ _ _ _ Hin) as [_ Hfl].
  pose proof (ten_pos (k - n)) as Hp.
  assert (Hlo : inject_Z (10 ^ (k - 1)) <= q * ten ^ (k - n)).
  { rewrite <- ten_Z by lia. replace (k - 1)%Z with (n - 1 + (k - n))%Z by lia.
    rewrite ten_plus. nra. }
  assert (Hhi : q * ten ^ (k - n) < inject_Z (10 ^ k)).
  { rewrite <- ten_Z by lia. replace k with (n + (k - n))%Z at 2 by lia.
    rewrite ten_plus. nra. }
  apply Qfloor_resp_le in Hlo. rewrite Qfloor_Z in Hlo.
  pose proof (Qfloor_le (q * ten ^ (k - n))) as Hf.
  assert (inject_Z (Qfloor (q * ten ^ (k - n))) < inject_Z (10 ^ k)) as Hf2 by lra.
  rewrite <- Zlt_Qlt in Hf2. lia.
Qed.

Local Lemma sc_value s k :
  (1 <= k <= K)%Z -> (1 <= s)%Z -> rnd (inject_Z s * ten ^ (n - k)) == q ->
  inject_Z s * ten ^ (n - k) == v0.
Proof.
  intros Hk Hs Hr. destruct sc_q as (Hq & Hn & Hq1 & Hq2). pose proof sc_v0 as Hv.
  assert (Hs1 : 1 <= inject_Z s) by (change 1 with (inject_Z 1); rewrite <- Zle_Qle; lia).
  assert (HK15 : (K <= 15)%Z) by (unfold K; lia).
  set (v := inject_Z s * ten ^ (n - k)) in *. pose proof (ten_pos (n - k)) as Hp.
  assert (Hgv : ten ^ (n - k) <= v) by (unfold v; nra).
  assert (Hnorm : normal v).
  { right. rewrite Qabs_pos by lra.
    assert (ten ^ (-17) <= ten ^ (n - k)) by (apply ten_mono; lia).
    assert (two ^ (-1022) <= two ^ (-60)) by (apply two_mono; lia).
    assert (two ^ (-60) <= ten ^ (-17)) by (vm_compute; discriminate). lra. }
  assert (Herr : Qabs (q - v) <= v * ulp_bound).
  { rewrite <- Hr. eapply Qle_trans; [apply rnd_err, Hnorm|].
    rewrite (Qabs_pos v) by lra. pose proof u53_small. unfold ulp_bound. nra. }
  assert (Ev : v == inject_Z (s * 10 ^ (K - k)) * ten ^ (n - K)).
  { rewrite inject_Z_mult, <- ten_Z, <- Qmult_assoc, <- ten_plus by lia.
    replace (K - k + (n - K))%Z with (n - k)%Z by lia. reflexivity. }
  assert (HN : q < ten ^ K * ten ^ (n - K))
    by (rewrite <- ten_plus; replace (K + (n - K))%Z with n by lia; exact Hq2).
  assert (HN' : ten ^ K <= 1000000000000000)
    by (change 1000000000000000 with (ten ^ 15); apply ten_mono; lia).
  assert (Heq : (s * 10 ^ (K - k))%Z = S).
  { refine (grid_unique q v v0 (ten ^ (n - K)) (ten ^ K) _ _ _ _ (ten_pos _) HN HN' Ev _ Herr sc_err);
      [lra | lra | symmetry; apply sc_S]. }
  rewrite Ev, Heq. apply sc_S.
Qed.

(** The shortest digits of the double nearest to [c/100] denote [c/100]. *)
Lemma shortest_cents :
  exists s k, shortest 17 q n 1 = (s, k) /\ (1 <= k <= 15)%Z /\
    (10 ^ (k - 1) <= s <= 10 ^ k)%Z /\ inject_Z s * ten ^ (n - k) == v0.
Proof.
  destruct sc_q as (_ & Hn & _).
  destruct (shortest_sound 17 q n 1 K S) as (s & k & Hs & Hk & Hin & Hr).
  - unfold K; lia.
  - exact sc_S_in.
  - rewrite sc_S. unfold q. rewrite Qred_correct. reflexivity.
  - pose proof (sc_range s k ltac:(lia) Hin) as Hrange.
    assert (0 < 10 ^ (k - 1))%Z by (apply Z.pow_pos_nonneg; lia).
    exists s, k. split; [exact Hs|]. split; [unfold K in Hk; lia|]. split; [exact Hrange|].
    apply sc_value; [exact Hk | lia | exact Hr].
Qed.
End ShortestCents.

(** ** Scanning what was printed *)

Definition stops (r : string) : bool :=
  match r with EmptyString => true | String c _ => negb (is_digit c) end.

Lemma span_digits_app d r :
  all_digits d = true -> stops r = true -> span_digits (d ++ r) = (d, r).
Proof.
  intros Hd Hr. induction d as [|c d IH]; simpl in *.
  - destruct r as [|c r]; [reflexivity|]. simpl in Hr |- *.
    apply negb_true_iff in Hr. rewrite Hr. reflexivity.
  - apply andb_true_iff in Hd as [Hc Hd]. rewrite Hc, (IH Hd). reflexivity.
Qed.

Lemma scan_int ip : all_digits ip = true -> scan_unsigned ip = Some (ip, "", 0%Z).
Proof.
  intros H. unfold scan_unsigned.
  pose proof (span_digits_app ip "" H eq_refl) as Hs. rewrite append_nil_r in Hs.
  rewrite Hs. reflexivity.
Qed.

Lemma scan_frac ip fp :
  all_digits ip = true -> all_digits fp = true ->
  scan_unsigned (ip ++ "." ++ fp) = Some (ip, fp, 0%Z).
Proof.
  intros Hi Hf. unfold scan_unsigned.
  rewrite (span_digits_app ip ("." ++ fp) Hi eq_refl). cbn -[span_digits].
  pose proof (span_digits_app fp "" Hf eq_refl) as Hs. rewrite append_nil_r in Hs.
  rewrite Hs. reflexivity.
Qed.

Lemma scan_sign_digit c r : is_digit c = true -> scan_sign (String c r) = (false, String c r).
Proof.
  intros H. unfold scan_sign.
  destruct (Ascii.eqb_spec c "-"); [subst; discriminate|].
  destruct (Ascii.eqb_spec c "+"); [subst; discriminate|]. reflexivity.
Qed.

Lemma scan_sign_digits ip r :
  all_digits ip = true -> ip <> "" -> scan_sign (ip ++ r) = (false, ip ++ r).
Proof.
  destruct ip as [|c ip]; [congruence|]. simpl. intros H _.
  apply andb_true_iff in H as [H _]. apply (scan_sign_digit c (ip ++ r) H).
Qed.

(** A decimal literal without exponent, its digit groups and its value. *)
Definition reads_as (text : string) (neg : bool) (v : Q) : Prop :=
  exists ip fp body,
    text = (if neg then "-" ++ body else body) /\
    scan_sign body = (false, body) /\ scan_unsigned body = Some (ip, fp, 0%Z) /\
    all_digits ip = true /\ all_digits fp = true /\ ip <> "" /\
    dec_Q neg ip fp 0 == v.

Lemma reads_scan text neg v :
  reads_as text neg v ->
  exists ip fp, scan_decimal text = Some (neg, ip, fp, 0%Z) /\
    all_digits ip = true /\ all_digits fp = true /\ ip <> "" /\ dec_Q neg ip fp 0 == v.
Proof.
  intros (ip & fp & body & -> & Hs & Hu & H). exists ip, fp. split; [|exact H].
  unfold scan_decimal. destruct neg.
  - simpl scan_sign. cbv beta iota. rewrite Hu. reflexivity.
  - rewrite Hs, Hu. reflexivity.
Qed.

Lemma dec_Q_frac neg ip fp :
  dec_Q neg ip fp 0 ==
  inject_Z (if neg then - dec_val (ip ++ fp) else dec_val (ip ++ fp)) * ten ^ (- slen fp).
Proof. reflexivity. Qed.

Lemma all_digits_split (a b : string) :
  all_digits (a ++ b) = true -> all_digits a = true /\ all_digits b = true.
Proof. rewrite all_digits_app. apply andb_true_iff. Qed.

Lemma format_reads s n :
  all_digits s = true -> s <> "" -> (-6 < n <= 21)%Z ->
  reads_as (format_digits s n) false (inject_Z (dec_val s) * ten ^ (n - slen s)).
Proof.
  intros Hs Hne Hn. unfold format_digits.
  pose proof (slen_nonneg s) as Hl.
  destruct (Z.leb_spec (slen s) n); [rewrite (proj2 (Z.leb_le n 21)) by lia|]; simpl andb.
  - exists (s ++ zeros (n - slen s)), "", (s ++ zeros (n - slen s)).
    assert (Hd : all_digits (s ++ zeros (n - slen s)) = true)
      by (rewrite all_digits_app, Hs; apply all_digits_zeros).
    split; [reflexivity|]. split; [apply scan_sign_digits; assumption|].
    split; [apply scan_int, Hd|]. split; [exact Hd|]. split; [reflexivity|]. split.
    + destruct s; [congruence|discriminate].
    + rewrite dec_Q_frac, append_nil_r, dec_val_app. unfold zeros at 2.
      rewrite dec_val_zeros, Z.add_0_r, inject_Z_mult. unfold zeros. rewrite slen_repeat, Z2Nat.id by lia.
      rewrite <- ten_Z by lia. change (ten ^ (- slen "")) with 1. ring.
  - destruct (Z.ltb_spec 0 n); [rewrite (proj2 (Z.leb_le n 21)) by lia|]; simpl andb.
    + assert (Hlen : (Z.to_nat n <= String.length s)%nat) by (unfold slen in *; lia).
      set (ip := substring 0 (Z.to_nat n) s). set (fp := substring _ _ s).
      assert (Happ : ip ++ fp = s) by (apply split_at; lia).
      assert (Hdd : all_digits ip = true /\ all_digits fp = true)
        by (apply all_digits_split; rewrite Happ; exact Hs).
      assert (Hip : String.length ip = Z.to_nat n) by (apply substring_len, Hlen).
      assert (Hne' : ip <> "") by (intros Hc; rewrite Hc in Hip; simpl in Hip; lia).
      exists ip, fp, (ip ++ "." ++ fp). split; [reflexivity|].
      split; [apply scan_sign_digits; [apply Hdd|exact Hne']|].
      split; [apply scan_frac; apply Hdd|]. split; [apply Hdd|]. split; [apply Hdd|].
      split; [exact Hne'|]. rewrite dec_Q_frac, Happ.
        assert (slen fp = slen s - n)%Z as ->
          by (rewrite <- Happ, slen_app; unfold slen at 2; rewrite Hip; lia).
        replace (- (slen s - n))%Z with (n - slen s)%Z by lia. reflexivity.
    + rewrite (proj2 (Z.ltb_lt (-6) n)), (proj2 (Z.leb_le n 0)) by lia. simpl andb.
      exists "0", (zeros (- n) ++ s), ("0" ++ "." ++ (zeros (- n) ++ s)).
      assert (Hd : all_digits (zeros (- n) ++ s) = true)
        by (rewrite all_digits_app; apply andb_true_iff; split; [apply all_digits_zeros|exact Hs]).
      split; [reflexivity|]. split; [apply scan_sign_digits; reflexivity || discriminate|].
      split; [apply scan_frac; [reflexivity|exact Hd]|].
      split; [reflexivity|]. split; [exact Hd|]. split; [discriminate|].
      rewrite dec_Q_frac, !dec_val_app. unfold zeros. rewrite dec_val_zeros.
        change (dec_val "0") with 0%Z. rewrite !Z.mul_0_l, !Z.add_0_l.
        rewrite slen_app, slen_repeat, Z2Nat.id by lia.
        replace (- (- n + slen s))%Z with (n - slen s)%Z by lia. reflexivity.
Qed.

(** Digits found by the search, printed at their exponent, read as their value. *)
Lemma print_digits_reads s k n :
  (-6 < n <= 20)%Z -> (1 <= k)%Z -> (10 ^ (k - 1) <= s <= 10 ^ k)%Z ->
  reads_as (if (s =? 10 ^ k)%Z then format_digits "1" (n + 1) else format_digits (print_dec s) n)
    false (inject_Z s * ten ^ (n - k)).
Proof.
  intros Hn Hk Hr. assert (0 < 10 ^ (k - 1))%Z by (apply Z.pow_pos_nonneg; lia).
  destruct (Z.eqb_spec s (10 ^ k)) as [He|He].
  - destruct (format_reads "1" (n + 1) eq_refl ltac:(discriminate) ltac:(lia))
      as (ip & fp & body & H1 & H2 & H3 & H4 & H5 & H6 & H7).
    exists ip, fp, body. repeat (split; [assumption|]). rewrite H7, He.
    rewrite <- ten_Z, <- ten_plus by lia. replace (k + (n - k))%Z with n by lia.
    change (slen "1") with 1%Z. replace (n + 1 - 1)%Z with n by lia.
    change (inject_Z (dec_val "1")) with 1. ring.
  - assert (Hlen : slen (print_dec s) = k).
    { destruct (print_dec_len s ltac:(lia)) as (HL & H1 & H2).
      assert (10 ^ (slen (print_dec s) - 1) < 10 ^ k)%Z as Ha by lia.
      assert (10 ^ (k - 1) < 10 ^ slen (print_dec s))%Z as Hb by lia.
      apply Z.pow_lt_mono_r_iff in Ha; [|lia|lia]. apply Z.pow_lt_mono_r_iff in Hb; lia. }
    destruct (format_reads (print_dec s) n) as (ip & fp & body & H1 & H2 & H3 & H4 & H5 & H6 & H7).
    + apply all_digits_print. lia.
    + apply print_dec_nonempty.
    + lia.
    + exists ip, fp, body. repeat (split; [assumption|]).
      rewrite H7, Hlen, dec_val_print by lia. reflexivity.
Qed.

Lemma reads_as_eq text ng v w : v == w -> reads_as text ng v -> reads_as text ng w.
Proof.
  intros E (ip & fp & body & H1 & H2 & H3 & H4 & H5 & H6 & H7). exists ip, fp, body.
  repeat (split; [assumption|]). rewrite H7. exact E.
Qed.

Lemma toString_pos_cents c :
  (0 < c < cents_bound)%Z -> reads_as (toString_pos (Qred (rnd (centsQ c)))) false (centsQ c).
Proof.
  intros Hc. unfold toString_pos.
  destruct (shortest_cents c Hc) as (s & k & Hs & Hk & Hr & Hv).
  destruct (sc_q c Hc) as (_ & Hn & _). rewrite Hs.
  apply (reads_as_eq _ _ _ _ Hv), print_digits_reads; [lia..|exact Hr].
Qed.

Lemma Qred_pos_num q : 0 < q -> exists p, Qnum (Qred q) = Zpos p.
Proof. intros H. apply Qnum_pos. rewrite Qred_correct. exact H. Qed.

Lemma rnd_cents_pos c : (0 < c)%Z -> 0 < rnd (centsQ c).
Proof.
  intros H. assert (Hv : 0 < centsQ c).
  { unfold centsQ. apply Qlt_shift_div_l; [reflexivity|]. rewrite Qmult_0_l.
    change 0 with (inject_Z 0). rewrite <- Zlt_Qlt. exact H. }
  apply (rel_err_pos _ (centsQ c) Hv). pose proof (rnd_cents_err c) as He.
  rewrite (Qabs_pos (centsQ c)) in He by lra. exact He.
Qed.

Lemma centsQ_opp c : centsQ (- c) == - centsQ c.
Proof. unfold centsQ. rewrite inject_Z_opp. field. Qed.

Lemma reads_neg text v : reads_as text false v -> reads_as ("-" ++ text) true (- v).
Proof.
  intros (ip & fp & body & -> & H1 & H2 & H3 & H4 & H5 & H6). exists ip, fp, body.
  repeat (split; [assumption || reflexivity|]).
  rewrite dec_Q_frac in *. rewrite <- H6, inject_Z_opp. ring.
Qed.

(** The text of the double of [c/100] reads as exactly [c/100]. *)
Lemma js_String_cents c :
  (Z.abs c < cents_bound)%Z -> reads_as (js_String (fin (centsQ c))) (c <? 0)%Z (centsQ c).
Proof.
  intros Hc. rewrite fin_cents by (unfold cents_bound in *; lia). simpl js_String.
  destruct (Z.lt_trichotomy c 0) as [Hn|[->|Hp]].
  - rewrite (proj2 (Z.ltb_lt c 0)) by lia.
    assert (Hr : rnd (centsQ c) == - rnd (centsQ (- c)))
      by (rewrite centsQ_opp, rnd_opp; ring).
    destruct (Qred_pos_num _ (rnd_cents_pos (- c) ltac:(lia))) as [p Hpn].
    rewrite (Qred_complete _ _ Hr), Qred_opp. simpl Qnum. rewrite Hpn. simpl Z.opp. cbv iota.
    assert (- - Qred (rnd (centsQ (- c))) = Qred (rnd (centsQ (- c)))) as ->
      by (unfold Qopp; destruct (Qred _); simpl; rewrite Z.opp_involutive; reflexivity).
    pose proof (reads_neg _ _ (toString_pos_cents (- c) ltac:(lia)))
      as (ip & fp & body & H1 & H2 & H3 & H4 & H5 & H6 & H7).
    exists ip, fp, body. repeat (split; [assumption|]). rewrite H7, centsQ_opp. ring.
  - exists "0", "", "0". repeat (split; [reflexivity || discriminate|]). reflexivity.
  - rewrite (proj2 (Z.ltb_ge c 0)) by lia.
    destruct (Qred_pos_num _ (rnd_cents_pos c Hp)) as [p Hpn]. rewrite Hpn.
    apply toString_pos_cents. lia.
Qed.

(** ** The text of any double of document size *)

Lemma candidate_range q n k s :
  ten ^ (n - 1) <= q < ten ^ n -> (1 <= k)%Z ->
  (Qfloor (q * ten ^ (k - n)) <= s <= Qfloor (q * ten ^ (k - n)) + 1)%Z ->
  (10 ^ (k - 1) <= s <= 10 ^ k)%Z /\ Qabs (inject_Z s - q * ten ^ (k - n)) <= 1.
Proof.
  intros [Hq1 Hq2] Hk Hfl. pose proof (ten_pos (k - n)) as Hp.
  assert (Hlo : inject_Z (10 ^ (k - 1)) <= q * ten ^ (k - n)).
  { rewrite <- ten_Z by lia. replace (k - 1)%Z with (n - 1 + (k - n))%Z by lia.
    rewrite ten_plus. nra. }
  assert (Hhi : q * ten ^ (k - n) < inject_Z (10 ^ k)).
  { rewrite <- ten_Z by lia. replace k with (n + (k - n))%Z at 2 by lia.
    rewrite ten_plus. nra. }
  apply Qfloor_resp_le in Hlo. rewrite Qfloor_Z in Hlo.
  pose proof (Qfloor_le (q * ten ^ (k - n))) as Hf. pose proof (Qlt_floor (q * ten ^ (k - n))) as Hu.
  assert (inject_Z (Qfloor (q * ten ^ (k - n))) < inject_Z (10 ^ k)) as Hf2 by lra.
  rewrite <- Zlt_Qlt in Hf2. split; [lia|]. rewrite inject_Z_plus in Hu. change (inject_Z 1) with 1 in Hu.
  assert (Hs : inject_Z (Qfloor (q * ten ^ (k - n))) <= inject_Z s <= inject_Z (Qfloor (q * ten ^ (k - n)) + 1))
    by (rewrite <- !Zle_Qle; lia).
  rewrite inject_Z_plus in Hs. change (inject_Z 1) with 1 in Hs. apply Qabs_Qle_condition. lra.
Qed.

(** The search returns neighbours of [q] that read back, or 18 digits of it. *)
Lemma shortest_any fuel q n k :
  exists s k', shortest fuel q n k = (s, k') /\ (k <= k' <= k + Z.of_nat fuel)%Z /\
    (Qfloor (q * ten ^ (k' - n)) <= s <= Qfloor (q * ten ^ (k' - n)) + 1)%Z /\
    (rnd (inject_Z s * ten ^ (n - k')) == q \/ k' = (k + Z.of_nat fuel)%Z).
Proof.
  revert k; induction fuel as [|f IH]; intros k; cbn [shortest].
  - eexists _, k. split; [reflexivity|]. split; [lia|]. split; [lia|]. right. lia.
  - destruct (filter _ (candidates q n k)) as [|s l] eqn:E.
    + destruct (IH (k + 1)%Z) as (s & k' & Hs & Hk & Hf & Hr). exists s, k'.
      split; [exact Hs|]. split; [lia|]. split; [exact Hf|]. destruct Hr; [auto|right; lia].
    + exists s, k. assert (In s (s :: l)) as Hin by (left; reflexivity).
      rewrite <- E in Hin. apply filter_In in Hin as [Hin Hq]. apply Qeq_bool_iff in Hq.
      destruct (candidates_near _ _ _ _ Hin) as [_ Hf]. split; [reflexivity|]. split; [lia|]. split; [exact Hf|]. left. exact Hq.
Qed.

Lemma toString_pos_near q :
  1 # 1000 <= q -> q <= 10000000000000 ->
  exists v, reads_as (toString_pos q) false v /\ Qabs (v - q) <= q * (2 * ulp_bound).
Proof.
  intros Hlo Hhi. pose proof (decexp_spec q ltac:(lra)) as Hn. unfold toString_pos.
  set (n := decexp q) in *.
  assert (Hnr : (-2 <= n <= 14)%Z).
  { split.
    - assert (ten ^ (-3) < ten ^ n) as H by (change (ten ^ (-3)) with (1 # 1000); lra). apply ten_lt_inv in H. lia.
    - assert (ten ^ (n - 1) < ten ^ 14) as H by (change (ten ^ 14) with 100000000000000; lra). apply ten_lt_inv in H. lia. }
  destruct (shortest_any 17 q n 1) as (s & k & Hs & Hk & Hf & Hr). rewrite Hs.
  destruct (candidate_range q n k s Hn ltac:(lia) Hf) as [Hrange Hnear].
  exists (inject_Z s * ten ^ (n - k)). split; [apply print_digits_reads; [lia|lia|exact Hrange]|].
  pose proof (ten_pos (n - k)) as Hp. destruct Hr as [Hr|Hr].
  - assert (Hs1 : 1 <= inject_Z s).
    { change 1 with (inject_Z 1). rewrite <- Zle_Qle. assert (0 < 10 ^ (k - 1))%Z by (apply Z.pow_pos_nonneg; lia). lia. }
    set (v := inject_Z s * ten ^ (n - k)) in *.
    assert (Hv : ten ^ (n - k) <= v) by (unfold v; nra).
    assert (Hnorm : normal v).
    { right. rewrite Qabs_pos by lra. assert (ten ^ (-20) <= ten ^ (n - k)) by (apply ten_mono; lia).
      assert (two ^ (-1022) <= two ^ (-70)) by (apply two_mono; lia).
      assert (two ^ (-70) <= ten ^ (-20)) by (vm_compute; discriminate). lra. }
    pose proof (rnd_err v Hnorm) as He. rewrite Hr, (Qabs_pos v) in He by lra. pose proof u53_small.
    assert (v * two ^ (-53) <= v * ulp_bound) by (unfold ulp_bound; nra).
    apply Qabs_near_bounds in He. unfold ulp_bound in *. apply Qabs_Qle_condition. lra.
  - assert (E : inject_Z s * ten ^ (n - k) - q == (inject_Z s - q * ten ^ (k - n)) * ten ^ (n - k)).
    { assert (ten ^ (k - n) * ten ^ (n - k) == 1) as E by (rewrite <- ten_plus; replace (k - n + (n - k))%Z with 0%Z by lia; reflexivity).
      rewrite <- (Qmult_1_r q) at 1. rewrite <- E. ring. }
    rewrite E, Qabs_Qmult, (Qabs_pos (ten ^ (n - k))) by lra.
    assert (ten ^ (n - k) <= q * (1 # 100000000000000000)).
    { subst k. replace (n - (1 + Z.of_nat 17))%Z with (n - 1 + -17)%Z by lia. rewrite ten_plus.
      change (ten ^ (-17)) with (1 # 100000000000000000). nra. }
    unfold ulp_bound. nra.
Qed.

Lemma js_String_near q :
  1 # 1000 <= Qabs q -> Qabs q <= 10000000000000 ->
  exists ng v, reads_as (js_String (Fin q)) ng v /\ Qabs (v - q) <= Qabs q * (2 * ulp_bound).
Proof.
  intros H1 H2. unfold js_String. destruct (Qnum q) as [|p|p] eqn:E.
  - exfalso. assert (q == 0) as Hq by (unfold Qeq; rewrite E; reflexivity).
    rewrite Hq in H1. change (Qabs 0) with 0 in H1. lra.
  - assert (Hq : 0 < q) by (apply Qnum_pos; eauto). assert (Ea : Qabs q == q) by (apply Qabs_pos; lra).
    rewrite Ea in H1, H2. destruct (toString_pos_near q H1 H2) as (v & Hv & He). exists false, v.
    split; [exact Hv|rewrite Ea; exact He].
  - assert (Hq : q < 0) by (unfold Qlt; rewrite E; simpl; lia). assert (Ea : Qabs q == - q) by (apply Qabs_neg; lra). rewrite Ea in H1, H2.
    destruct (toString_pos_near (- q) H1 H2) as (v & Hv & He). exists true, (- v).
    split; [apply reads_neg, Hv|]. setoid_replace (- v - q) with (- (v - - q)) by ring.
    rewrite Qabs_opp, Ea. exact He.
Qed.

(** ** Money strings: two decimals *)

(** The fixed-2 string of an integer number of hundredths. *)
Definition fixed2 (c : Z) : string :=
  let m := Z.abs c in
  (if (c <? 0)%Z then "-" else "") ++ print_dec (m / 100) ++ "." ++ two_digits (m mod 100).

Lemma fixed_digits_2 n :
  (0 <= n)%Z -> fixed_digits 2 n = print_dec (n / 100) ++ "." ++ two_digits (n mod 100).
Proof.
  intros H. destruct (Z_lt_le_dec n 100) as [Hs|Hb].
  - assert (forallb (fun k => String.eqb (fixed_digits 2 k)
              (print_dec (k / 100) ++ "." ++ two_digits (k mod 100)))
              (map Z.of_nat (seq 0 100)) = true) as Hall by (vm_compute; reflexivity).
    rewrite forallb_forall in Hall. apply String.eqb_eq, Hall, in_map_iff.
    exists (Z.to_nat n). split; [lia|]. apply in_seq. lia.
  - unfold fixed_digits, padStart. rewrite print_dec_cents by lia.
    assert (1 <= n / 100)%Z by (apply Z.div_le_lower_bound; lia).
    destruct (print_dec_len (n / 100) ltac:(lia)) as [HL _].
    rewrite slen_app. change (slen (two_digits (n mod 100))) with 2%Z.
    replace (Z.to_nat (2 + 1 - (slen (print_dec (n / 100)) + 2))) with 0%nat by lia.
    change (repeat_char "0" 0) with "". change (2 =? 0)%Z with false.
    cbv iota.
    replace (Z.to_nat (slen ("" ++ print_dec (n / 100) ++ two_digits (n mod 100)) - 2))
      with (String.length (print_dec (n / 100))).
    2: { simpl append. rewrite slen_app. change (slen (two_digits (n mod 100))) with 2%Z. unfold slen. lia. }
    simpl append. rewrite substring_head. rewrite substring_tail; [reflexivity|].
    pose proof (slen_app (print_dec (n / 100)) (two_digits (n mod 100))) as Hl. unfold slen in Hl. lia.
Qed.

Lemma Qred_sign q : (Qnum (Qred q) <? 0)%Z = (Qnum q <? 0)%Z.
Proof.
  pose proof (Qred_correct q) as H. unfold Qeq in H.
  apply eq_true_iff_eq. rewrite !Z.ltb_lt. nia.
Qed.

Lemma rnd_cents_neg c : (Qnum (rnd (centsQ c)) <? 0)%Z = (c <? 0)%Z.
Proof.
  destruct (Z.lt_trichotomy c 0) as [Hn|[->|Hp]].
  - rewrite (proj2 (Z.ltb_lt c 0)) by lia. apply Z.ltb_lt.
    assert (rnd (centsQ c) < 0) as H.
    { assert (rnd (centsQ c) == - rnd (centsQ (- c))) as ->
        by (rewrite centsQ_opp, rnd_opp; ring).
      pose proof (rnd_cents_pos (- c) ltac:(lia)). lra. }
    unfold Qlt in H. simpl in H. lia.
  - reflexivity.
  - rewrite (proj2 (Z.ltb_ge c 0)) by lia. apply Z.ltb_ge.
    pose proof (rnd_cents_pos c Hp) as H. unfold Qlt in H. simpl in H. lia.
Qed.

(** [(c / 100).toFixed(2)] prints exactly [c] hundredths. *)
Lemma toFixed_cents c :
  (Z.abs c <= cents_bound)%Z -> toFixed 2 (fin (centsQ c)) = fixed2 c.
Proof.
  intros H. rewrite (fin_cents c H). unfold toFixed. set (x := Qred (rnd (centsQ c))).
  pose proof (centsQ_bound c H) as Hb.
  assert (Hx : Qabs (x - centsQ c) <= Qabs (centsQ c) * ulp_bound)
    by (unfold x; rewrite Qred_correct; apply rnd_cents_err).
  assert (Hd : Qabs (Qabs x - Qabs (centsQ c)) <= Qabs (x - centsQ c)).
  { apply Qabs_Qle_condition.
    pose proof (Qabs_triangle_reverse x (centsQ c)) as H1.
    pose proof (Qabs_triangle_reverse (centsQ c) x) as H2.
    assert (Qabs (centsQ c - x) == Qabs (x - centsQ c)) as E
      by (rewrite <- (Qabs_opp (centsQ c - x)); apply Qabs_wd; ring).
    lra. }
  apply Qabs_near_bounds in Hd. pose proof (Qabs_nonneg (centsQ c)). unfold ulp_bound in *.
  assert (E : Qle_bool (ten ^ 21) (Qabs x) = false).
  { destruct (Qle_bool _ _) eqn:E; [|reflexivity]. apply Qle_bool_iff in E.
    change (ten ^ 21) with 1000000000000000000000 in E. lra. }
  rewrite E. unfold x at 1. rewrite Qred_sign, rnd_cents_neg.
  assert (Qfloor (Qabs x * ten ^ 2 + (1 # 2)) = Z.abs c) as ->.
  { apply Qfloor_near. change (ten ^ 2) with 100.
    assert (inject_Z (Z.abs c) == Qabs (centsQ c) * 100) as ->
      by (rewrite centsQ_abs; unfold centsQ; field).
    apply Qabs_Qlt_condition. split; lra. }
  rewrite fixed_digits_2 by lia. reflexivity.
Qed.

Lemma fixed2_reads c : reads_as (fixed2 c) (c <? 0)%Z (centsQ c).
Proof.
  set (m := Z.abs c). pose proof (Z.mod_pos_bound m 100 ltac:(lia)) as Hm.
  destruct (two_digits_all _ Hm) as [Hd Hv].
  assert (Hq : (0 <= m / 100)%Z) by (apply Z.div_pos; lia).
  pose proof (all_digits_print _ Hq) as Hi.
  exists (print_dec (m / 100)), (two_digits (m mod 100)),
    (print_dec (m / 100) ++ "." ++ two_digits (m mod 100)).
  split; [unfold fixed2; fold m; destruct (c <? 0)%Z; reflexivity|].
  split; [apply scan_sign_digits; [exact Hi|apply print_dec_nonempty]|].
  split; [apply scan_frac; assumption|]. split; [exact Hi|]. split; [exact Hd|].
  split; [apply print_dec_nonempty|].
  rewrite dec_Q_frac, dec_val_app, Hv, dec_val_print by exact Hq.
  change (slen (two_digits (m mod 100))) with 2%Z. change (10 ^ 2)%Z with 100%Z.
  replace (m / 100 * 100 + m mod 100)%Z with m by (pose proof (Z.div_mod m 100); lia).
  assert ((if c <? 0 then - m else m)%Z = c) as -> by (destruct (Z.ltb_spec c 0); lia).
  reflexivity.
Qed.

Lemma scan_radix_digits ip r :
  all_digits ip = true -> (r = "" \/ exists r', r = String "." r') -> scan_radix (ip ++ r) = None.
Proof.
  intros Hi Hr. unfold scan_radix.
  destruct ip as [|c [|c' ip]]; simpl append.
  - destruct Hr as [->|[r' ->]]; [reflexivity|]. destruct r' as [|? [|? ?]]; reflexivity.
  - destruct Hr as [->|[r' ->]]; [reflexivity|]. destruct r' as [|? ?]; [reflexivity|].
    destruct (c =? "0")%char; reflexivity.
  - simpl in Hi. apply andb_true_iff in Hi as [_ Hi]. apply andb_true_iff in Hi as [Hi _].
    destruct (ip ++ r); [reflexivity|]. destruct (c =? "0")%char; [|reflexivity].
    repeat match goal with
    | |- context [(c' =? ?k)%char] => destruct (Ascii.eqb_spec c' k); [subst c'; discriminate Hi|]
    end. reflexivity.
Qed.

(** [Number(text)] of a plain decimal is the double nearest to its value. *)
Lemma js_Number_plain ip r fp v neg :
  all_digits ip = true -> all_digits fp = true -> ip <> "" ->
  r = "" \/ r = "." ++ fp -> (r = "" -> fp = "") -> dec_Q neg ip fp 0 == v ->
  js_Number (if neg then "-" ++ ip ++ r else ip ++ r) = fin v.
Proof.
  intros Hi Hf Hne Hr Hr0 Hv. unfold js_Number.
  assert (Hsp : no_space (ip ++ r) = true).
  { rewrite no_space_app, all_digits_no_space by exact Hi.
    destruct Hr as [-> | ->]; [reflexivity|]. simpl. apply all_digits_no_space, Hf. }
  assert (Hu : scan_unsigned (ip ++ r) = Some (ip, fp, 0%Z)).
  { destruct Hr as [-> | ->]; [rewrite append_nil_r, (Hr0 eq_refl); apply scan_int, Hi|].
    apply scan_frac; assumption. }
  assert (Hrd : scan_radix (ip ++ r) = None).
  { apply scan_radix_digits; [exact Hi|]. destruct Hr as [-> | ->]; [auto|right; eexists; reflexivity]. }
  assert (Hinf : String.eqb (ip ++ r) "Infinity" = false).
  { destruct ip as [|c ip]; [congruence|]. simpl in Hi |- *.
    destruct (Ascii.eqb_spec c "I"); [subst; discriminate|reflexivity]. }
  assert (Hemp : String.eqb (ip ++ fp) "" = false) by (destruct ip; [congruence|reflexivity]).
  destruct neg.
  - rewrite trim_no_space by (simpl; exact Hsp).
    change (String.eqb ("-" ++ ip ++ r) "") with false. cbv iota.
    assert (scan_radix ("-" ++ ip ++ r) = None) as ->
      by (simpl; destruct (ip ++ r) as [|? [|? ?]]; reflexivity).
    simpl scan_sign. cbv iota beta. rewrite Hinf, Hu, Hemp. apply fin_eq, Hv.
  - rewrite trim_no_space by exact Hsp.
    assert (String.eqb (ip ++ r) "" = false) as -> by (destruct ip; [congruence|reflexivity]).
    rewrite Hrd, scan_sign_digits by assumption. rewrite Hinf, Hu, Hemp. apply fin_eq, Hv.
Qed.

(** [Number] of a fixed-2 money string. *)
Lemma js_Number_fixed2 c : js_Number (fixed2 c) = fin (centsQ c).
Proof.
  destruct (fixed2_reads c) as (ip & fp & body & Ht & _ & Hu & Hi & Hf & Hne & Hv).
  set (m := Z.abs c). pose proof (Z.mod_pos_bound m 100 ltac:(lia)) as Hm.
  destruct (two_digits_all _ Hm) as [Hd Hvd].
  assert (Hq : (0 <= m / 100)%Z) by (apply Z.div_pos; lia).
  rewrite <- (js_Number_plain (print_dec (m / 100)) ("." ++ two_digits (m mod 100))
    (two_digits (m mod 100)) (centsQ c) (c <? 0)%Z).
  - unfold fixed2. fold m. destruct (c <? 0)%Z; reflexivity.
  - apply all_digits_print, Hq.
  - exact Hd.
  - apply print_dec_nonempty.
  - right; reflexivity.
  - discriminate.
  - rewrite <- Hv. unfold fixed2 in Ht. fold m in Ht.
    assert (body = print_dec (m / 100) ++ "." ++ two_digits (m mod 100)) as Hb
      by (destruct (c <? 0)%Z; simpl in Ht; [injection Ht; auto|auto]).
    rewrite Hb, scan_frac in Hu by (apply all_digits_print, Hq || exact Hd).
    injection Hu as <- <-. reflexivity.
Qed.

(** [parseFloat] reads a plain decimal the same way. *)
Lemma parseFloat_plain ip r fp v neg :
  all_digits ip = true -> all_digits fp = true -> ip <> "" ->
  r = "" \/ r = "." ++ fp -> (r = "" -> fp = "") -> dec_Q neg ip fp 0 == v ->
  parseFloat (if neg then "-" ++ ip ++ r else ip ++ r) = fin v.
Proof.
  intros Hi Hf Hne Hr Hr0 Hv. unfold parseFloat.
  assert (Ht : forall c s, is_space c = false -> trimStart (String c s) = String c s) by (intros c s Hc; simpl; rewrite Hc; reflexivity).
  assert (Hs : (let '(n, b) := scan_sign (trimStart (if neg then "-" ++ ip ++ r else ip ++ r)) in (n, b)) = (neg, ip ++ r)).
  { destruct neg; [reflexivity|]. destruct ip as [|c ip]; [congruence|]. simpl in Hi. apply andb_true_iff in Hi as [Hc _].
    cbn [append]. rewrite Ht by apply digit_not_space, Hc. rewrite scan_sign_digit by exact Hc. reflexivity. }
  destruct (scan_sign _) as [n b]. injection Hs as -> ->.
  assert (String.prefix "Infinity" (ip ++ r) = false) as ->.
  { destruct ip as [|c ip]; [congruence|]. apply andb_true_iff in Hi as [Hc _]. cbn [append String.prefix].
    destruct (ascii_dec "I" c) as [<-|]; [discriminate Hc|reflexivity]. }
  assert (stops r = true) as Hst by (destruct Hr as [-> | ->]; reflexivity).
  rewrite (span_digits_app ip r Hi Hst). cbv iota beta.
  assert (Hemp : String.eqb (ip ++ fp) "" = false) by (destruct ip; [congruence|reflexivity]).
  destruct Hr as [-> | ->].
  - rewrite (Hr0 eq_refl) in *. rewrite Hemp. apply fin_eq, Hv.
  - cbn [append]. cbv iota beta. change (("." =? ".")%char) with true. cbv iota beta.
    pose proof (span_digits_app fp "" Hf eq_refl) as E. rewrite append_nil_r in E. rewrite E. cbv iota beta. rewrite Hemp. apply fin_eq, Hv.
Qed.

Example parseFloat_prefix : parseFloat " 12.5e1kg" = Fin 125.
Proof. vm_compute. reflexivity. Qed.
Example parseFloat_nan : parseFloat "e5" = NaN.
Proof. vm_compute. reflexivity. Qed.
