(* ===== verification/Currency.v ===== *)
(** * Currency arithmetic ([packages/shared/src/utils/currency.ts])

    The exact-decimal money primitives every document total goes through:
    parsing an amount into a scaled integer, half-up rounding at the
    currency's minor unit, the fixed-2 storage string, products, and the
    conversions to and from minor units. *)

From Stdlib Require Import QArith Qround Qabs Qpower Lqa.
From S2P Require Import Prelude JsString JsNumber.

Local Open Scope string_scope.
Local Open Scope Z_scope.
Local Open Scope billing_scope.

(** ** Currencies *)

Definition CURRENCY_CODES : list string :=
  ["AED"; "ARS"; "AUD"; "BRL"; "CAD"; "CHF"; "CLP"; "COP"; "CZK"; "DKK";
   "EUR"; "GBP"; "HKD"; "HUF"; "IDR"; "ILS"; "INR"; "JPY"; "KES"; "MXN";
   "MYR"; "NGN"; "NOK"; "NZD"; "PHP"; "PLN"; "RON"; "SAR"; "SEK"; "SGD";
   "THB"; "TRY"; "USD"; "ZAR"].

Definition ZERO_DECIMAL : list string :=
  ["BIF"; "CLP"; "DJF"; "GNF"; "JPY"; "KMF"; "KRW"; "MGA"; "PYG";
   "RWF"; "UGX"; "VND"; "VUV"; "XAF"; "XOF"; "XPF"].

(** [Set.has] on a set of string literals. *)
Definition str_in (s : string) (l : list string) : bool := existsb (String.eqb s) l.

Definition isKnownCurrency (code : string) : bool :=
  str_in (toUpperCase (trim code)) CURRENCY_CODES.

Definition isZeroDecimal (currency : string) : bool :=
  str_in (toUpperCase (trim currency)) ZERO_DECIMAL.

Definition minorUnitExponent (currency : string) : Z :=
  if isZeroDecimal currency then 0 else 2.

(** An amount argument: [string | number]. *)
Inductive amount :=
| Str (s : string)
| Num (x : num).

Definition NON_FINITE : string := "currency: non-finite amount".

Definition to_num (v : amount) : num :=
  match v with Str s => js_Number s | Num x => x end.

Definition toMinorUnits (amountMajor : amount) (currency : string) : result string num :=
  let n := to_num amountMajor in
  if negb (isFinite n) then Err NON_FINITE
  else Ok (if isZeroDecimal currency then math_round n
           else math_round (js_mul n (ofZ 100))).

Definition fromMinorUnits (minor : amount) (currency : string) : result string string :=
  let n := to_num minor in
  if negb (isFinite n) then Err NON_FINITE
  else Ok (if isZeroDecimal currency then toFixed 2 n else toFixed 2 (js_div n (ofZ 100))).

(** ** Exact decimals *)

(** [interface Decimal]: sign, unscaled magnitude (a BigInt) and scale. *)
Record Decimal := mkDecimal { neg : bool; unscaled : Z; scale : Z }.

(** [.replace(/^0+(?=\d)/, '')]: leading zeros before another digit. *)
Fixpoint strip_zeros (s : string) : string :=
  match s with
  | String c (String c' r as t) =>
      if Ascii.eqb c "0" && is_digit c' then strip_zeros t else s
  | _ => s
  end.

(** The matched groups as a [Decimal]; an amount with no digit is refused. *)
Definition decimal_of_groups (g : bool * string * string * Z) : result string Decimal :=
  let '(ng, intPart, fracPart, exp) := g in
  if String.eqb intPart "" && String.eqb fracPart "" then Err NON_FINITE
  else
    let digits := strip_zeros (intPart ++ fracPart) in
    let sc := slen fracPart - exp in
    if sc <? 0 then Ok (mkDecimal ng (dec_val (digits ++ zeros (- sc))) 0)
    else Ok (mkDecimal ng (dec_val digits) sc).

Definition parse_text (text : string) : result string Decimal :=
  match scan_decimal text with
  | Some g => decimal_of_groups g
  | None => Err NON_FINITE
  end.

Definition parseDecimal (value : amount) : result string Decimal :=
  match value with
  | Num x => if isFinite x then parse_text (js_String x) else Err NON_FINITE
  | Str s =>
      let text := trim s in
      if String.eqb text "" then Ok (mkDecimal false 0 0)
      else match scan_decimal text with
           | Some g => decimal_of_groups g
           | None =>
               let n := js_Number text in
               if isFinite n then parse_text (js_String n) else Err NON_FINITE
           end
  end.

(** Half-up towards plus infinity on the signed value, at [exp] decimals. *)
Definition roundScaled (d : Decimal) (exp : Z) : Z :=
  let q :=
    if scale d <=? exp then unscaled d * 10 ^ (exp - scale d)
    else
      let div := 10 ^ (scale d - exp) in
      let q := unscaled d / div in
      let twiceRem := (unscaled d mod div) * 2 in
      if (if neg d then div <? twiceRem else div <=? twiceRem) then q + 1 else q in
  if neg d then - q else q.

Definition formatMinor (minor exp : Z) : string :=
  if minor =? 0 then "0.00"
  else
    let ng := minor <? 0 in
    let mag := if ng then - minor else minor in
    let div := 10 ^ exp in
    let whole := mag / div in
    let frac := padEnd (padStart (print_dec (mag mod div)) exp "0") 2 "0" in
    (if ng then "-" else "") ++ print_dec whole ++ "." ++ frac.

Definition roundToCurrency (value : amount) (currency : string) : result string string :=
  let exp := minorUnitExponent currency in
  let! d := parseDecimal value in
  Ok (formatMinor (roundScaled d exp) exp).

Definition multiplyToCurrency (a b : amount) (currency : string) : result string string :=
  let! x := parseDecimal a in
  let! y := parseDecimal b in
  let exp := minorUnitExponent currency in
  let product :=
    mkDecimal (negb (Bool.eqb (neg x) (neg y))) (unscaled x * unscaled y) (scale x + scale y) in
  Ok (formatMinor (roundScaled product exp) exp).

Definition isRepresentableInCurrency (value : amount) (currency : string) : bool :=
  match parseDecimal value with
  | Err _ => false
  | Ok d =>
      let exp := minorUnitExponent currency in
      if scale d <=? exp then true
      else unscaled d mod 10 ^ (scale d - exp) =? 0
  end.

(** ** The Stripe settlement-currency warning *)

Inductive StripeWarningCode :=
| CURRENCY_DIFFERS_FROM_STRIPE_ACCOUNT
| STRIPE_ACCOUNT_CURRENCY_UNKNOWN.

Record StripeCurrencyWarning := {
  sw_code : StripeWarningCode;
  sw_documentCurrency : string;
  sw_accountCurrency : option string;
  sw_message : string;
}.

Definition buildStripeCurrencyWarning (documentCurrency : string)
    (accountCurrency : option string) : option StripeCurrencyWarning :=
  let doc := toUpperCase (trim documentCurrency) in
  let acc := toUpperCase (trim (match accountCurrency with Some a => a | None => "" end)) in
  if String.eqb doc "" then None
  else if String.eqb acc "" then
    Some {| sw_code := STRIPE_ACCOUNT_CURRENCY_UNKNOWN;
            sw_documentCurrency := doc; sw_accountCurrency := None;
            sw_message := "Your Stripe account's settlement currency is not cached, so it could not be checked against this "
              ++ doc ++ " document. Refresh your Stripe account details under Settings → Integrations to enable the mismatch check." |}
  else if String.eqb acc doc then None
  else Some {| sw_code := CURRENCY_DIFFERS_FROM_STRIPE_ACCOUNT;
               sw_documentCurrency := doc; sw_accountCurrency := Some acc;
               sw_message := "This document is in " ++ doc ++ " but your Stripe account settles in " ++ acc
                 ++ ". Stripe will present " ++ doc
                 ++ " to the customer and convert it on settlement — you bear the FX spread and any conversion fee." |}.

(** Options of the currency picker: an off-list current code comes first. *)
Definition currencyOptions (current : string) : list string :=
  let normalized := toUpperCase (trim current) in
  if negb (String.eqb normalized "") && negb (str_in normalized CURRENCY_CODES)
  then normalized :: CURRENCY_CODES else CURRENCY_CODES.

(** ** The rational a decimal denotes, and half-up rounding of it *)

Definition decQ (d : Decimal) : Q :=
  inject_Z (if neg d then - unscaled d else unscaled d) * ten ^ (- scale d).

Definition half_up (v : Q) : Z := Qfloor (v + (1 # 2)).

(** The minor-unit integer of a value in a currency with exponent [exp]. *)
Definition minor_of (v : Q) (exp : Z) : Z := half_up (v * ten ^ exp).

#[export] Instance half_up_proper : Proper (Qeq ==> eq) half_up.
Proof. intros x y H. unfold half_up. apply Qfloor_comp. rewrite H. reflexivity. Qed.

#[export] Instance minor_of_proper : Proper (Qeq ==> eq ==> eq) minor_of.
Proof. intros x y H e ? <-. unfold minor_of. rewrite H. reflexivity. Qed.

Lemma half_up_int n : half_up (inject_Z n) = n.
Proof.
  unfold half_up. apply Qfloor_spec; [lra|].
  rewrite inject_Z_plus. change (inject_Z 1) with 1%Q. lra.
Qed.

Lemma half_up_frac a b :
  0 < b -> half_up (inject_Z a / inject_Z b) = if b <=? (a mod b) * 2 then a / b + 1 else a / b.
Proof.
  intros Hb. unfold half_up.
  pose proof (Z.div_mod a b ltac:(lia)) as Hdm. pose proof (Z.mod_pos_bound a b Hb) as Hm.
  set (q := a / b) in *. set (r := a mod b) in *.
  assert (HbQ : (0 < inject_Z b)%Q) by (change 0%Q with (inject_Z 0); rewrite <- Zlt_Qlt; lia).
  assert (Ha : (inject_Z a == inject_Z b * inject_Z q + inject_Z r)%Q)
    by (rewrite <- inject_Z_mult, <- inject_Z_plus, Hdm; reflexivity).
  assert (Hx : (inject_Z a / inject_Z b * inject_Z b == inject_Z a)%Q) by (field; lra).
  set (x := (inject_Z a / inject_Z b)%Q) in *.
  assert (Hr : (0 <= inject_Z r < inject_Z b)%Q)
    by (change 0%Q with (inject_Z 0); rewrite <- Zle_Qle, <- Zlt_Qlt; lia).
  destruct (Z.leb_spec b (r * 2)) as [Ht|Ht];
    apply Qfloor_spec; rewrite ?inject_Z_plus; change (inject_Z 1) with 1%Q.
  1,2: rewrite Zle_Qle, inject_Z_mult in Ht. 3,4: rewrite Zlt_Qlt, inject_Z_mult in Ht.
  all: change (inject_Z 2) with 2%Q in Ht.
  all: first [ apply Qmult_le_r with (z := inject_Z b); [exact HbQ | lra]
             | apply Qmult_lt_r with (z := inject_Z b); [exact HbQ | lra] ].
Qed.

(** ** Rounding is half-up on the exact value *)

Lemma pow10_pos e : 0 <= e -> 0 < 10 ^ e.
Proof. intros. apply Z.pow_pos_nonneg; lia. Qed.

Lemma neg_half_up a b :
  0 < b -> 0 <= a ->
  half_up (inject_Z (- a) / inject_Z b) = - (if b <? (a mod b) * 2 then a / b + 1 else a / b).
Proof.
  intros Hb Ha. rewrite half_up_frac by exact Hb.
  pose proof (Z.div_mod a b ltac:(lia)) as Hdm. pose proof (Z.mod_pos_bound a b Hb) as Hm.
  destruct (Z.eq_dec (a mod b) 0) as [H0|H0].
  - rewrite Z.mod_opp_l_z, Z.div_opp_l_z, H0 by lia.
    destruct (Z.leb_spec b (0 * 2)), (Z.ltb_spec b (0 * 2)); lia.
  - rewrite Z.mod_opp_l_nz, Z.div_opp_l_nz by lia.
    destruct (Z.leb_spec b ((b - a mod b) * 2)), (Z.ltb_spec b (a mod b * 2)); lia.
Qed.

Lemma decQ_scaled d exp :
  exp < scale d ->
  (decQ d * ten ^ exp ==
   inject_Z (if neg d then - unscaled d else unscaled d) / inject_Z (10 ^ (scale d - exp)))%Q.
Proof.
  intros H. unfold decQ. rewrite <- Qmult_assoc, <- ten_plus.
  replace (- scale d + exp) with (- (scale d - exp)) by lia.
  rewrite <- (ten_Z (scale d - exp)) by lia. unfold ten. rewrite Qpower_opp.
  reflexivity.
Qed.

(** [roundScaled] is the half-up integer of the exact decimal value. *)
Lemma roundScaled_half_up d exp :
  0 <= unscaled d -> 0 <= exp -> roundScaled d exp = minor_of (decQ d) exp.
Proof.
  intros Hu He. unfold roundScaled, minor_of.
  destruct (Z.leb_spec (scale d) exp) as [Hs|Hs].
  - assert (decQ d * ten ^ exp ==
      inject_Z (if neg d then - (unscaled d * 10 ^ (exp - scale d)) else unscaled d * 10 ^ (exp - scale d)))%Q as ->.
    { unfold decQ. rewrite <- Qmult_assoc, <- ten_plus.
      replace (- scale d + exp) with (exp - scale d) by lia.
      rewrite ten_Z, <- inject_Z_mult by lia. destruct (neg d); [|reflexivity].
      rewrite Z.mul_opp_l. reflexivity. }
    rewrite half_up_int. destruct (neg d); reflexivity.
  - pose proof (pow10_pos (scale d - exp) ltac:(lia)) as Hp.
    rewrite (decQ_scaled d exp Hs). destruct (neg d).
    + rewrite neg_half_up by assumption. reflexivity.
    + rewrite half_up_frac by assumption. reflexivity.
Qed.

Lemma minorUnitExponent_cases cur : minorUnitExponent cur = 0 \/ minorUnitExponent cur = 2.
Proof. unfold minorUnitExponent. destruct (isZeroDecimal cur); auto. Qed.

Lemma minorUnitExponent_nonneg cur : 0 <= minorUnitExponent cur.
Proof. destruct (minorUnitExponent_cases cur); lia. Qed.

(** ** Storage strings *)

(** Hundredths of a major unit held by [m] minor units. *)
Definition minor_cents (m exp : Z) : Z := m * 10 ^ (2 - exp).

Lemma formatMinor_fixed2 m exp :
  exp = 0 \/ exp = 2 -> formatMinor m exp = fixed2 (minor_cents m exp).
Proof.
  intros He. unfold formatMinor, minor_cents.
  destruct (Z.eqb_spec m 0) as [->|Hm]; [reflexivity|].
  unfold fixed2. destruct He as [-> | ->].
  - change (10 ^ (2 - 0)) with 100. change (10 ^ 0) with 1.
    assert ((m * 100 <? 0) = (m <? 0)) as ->
      by (destruct (Z.ltb_spec (m * 100) 0), (Z.ltb_spec m 0); lia).
    rewrite Z.div_1_r, Z.mod_1_r. change (padEnd (padStart (print_dec 0) 0 "0") 2 "0") with "00".
    rewrite Z.abs_mul. change (Z.abs 100) with 100. rewrite Z.div_mul, Z.mod_mul by lia.
    change (two_digits 0) with "00". f_equal. f_equal. f_equal.
    destruct (Z.ltb_spec m 0); lia.
  - change (10 ^ (2 - 2)) with 1. change (10 ^ 2) with 100. rewrite Z.mul_1_r.
    replace (if m <? 0 then - m else m) with (Z.abs m) by (destruct (Z.ltb_spec m 0); lia).
    pose proof (Z.mod_pos_bound (Z.abs m) 100 ltac:(lia)) as Hb.
    rewrite pad2_two_digits by exact Hb. unfold padEnd.
    change (slen (two_digits (Z.abs m mod 100))) with 2.
    rewrite append_nil_r. reflexivity.
Qed.

(** ** Parsing *)

Lemma strip_zeros_val s : dec_val (strip_zeros s) = dec_val s.
Proof.
  induction s as [|c s IH]; [reflexivity|]. destruct s as [|c' r]; [reflexivity|].
  cbn [strip_zeros]. destruct (Ascii.eqb_spec c "0"); [|reflexivity]. subst c.
  destruct (is_digit c'); [|reflexivity]. simpl andb. cbv iota.
  change (dec_val (strip_zeros (String c' r)) = dec_val ("0" ++ String c' r)).
  rewrite IH, dec_val_app. reflexivity.
Qed.

Lemma parse_groups ng ip fp :
  all_digits ip = true -> all_digits fp = true -> ip <> "" ->
  decimal_of_groups (ng, ip, fp, 0) = Ok (mkDecimal ng (dec_val (ip ++ fp)) (slen fp)).
Proof.
  intros Hi Hf Hne. unfold decimal_of_groups.
  destruct (String.eqb_spec ip ""); [congruence|]. simpl andb. cbv iota.
  rewrite Z.sub_0_r. pose proof (slen_nonneg fp). rewrite (proj2 (Z.ltb_ge (slen fp) 0)) by lia.
  rewrite strip_zeros_val. reflexivity.
Qed.

(** An amount parses as the exact rational [v]. *)
Definition parses (a : amount) (v : Q) : Prop :=
  exists d, parseDecimal a = Ok d /\ 0 <= unscaled d /\ (decQ d == v)%Q.

Lemma reads_parse text ng v :
  reads_as text ng v ->
  exists g d, scan_decimal text = Some g /\ decimal_of_groups g = Ok d /\
    0 <= unscaled d /\ (decQ d == v)%Q.
Proof.
  intros H. destruct (reads_scan _ _ _ H) as (ip & fp & Hs & Hi & Hf & Hne & Hv).
  exists (ng, ip, fp, 0), (mkDecimal ng (dec_val (ip ++ fp)) (slen fp)).
  split; [exact Hs|]. split; [apply parse_groups; assumption|]. simpl. split.
  - apply dec_val_bound. rewrite all_digits_app, Hi, Hf. reflexivity.
  - rewrite <- Hv. reflexivity.
Qed.

Lemma parses_text text ng v :
  reads_as text ng v -> no_space text = true -> text <> "" -> parses (Str text) v.
Proof.
  intros H Hsp Hne. destruct (reads_parse _ _ _ H) as (g & d & Hs & Hd & Hu & Hv).
  exists d. split; [|auto]. simpl. rewrite trim_no_space by exact Hsp.
  destruct (String.eqb_spec text ""); [congruence|]. rewrite Hs. exact Hd.
Qed.

Lemma parses_num x ng v : isFinite x = true -> reads_as (js_String x) ng v -> parses (Num x) v.
Proof.
  intros Hx H. destruct (reads_parse _ _ _ H) as (g & d & Hs & Hd & Hu & Hv).
  exists d. split; [|auto]. simpl. rewrite Hx. unfold parse_text. rewrite Hs. exact Hd.
Qed.

Lemma fixed2_nospace c : no_space (fixed2 c) = true /\ fixed2 c <> "".
Proof.
  unfold fixed2. pose proof (Z.mod_pos_bound (Z.abs c) 100 ltac:(lia)) as Hm.
  destruct (two_digits_all _ Hm) as [Hd _].
  assert (0 <= Z.abs c / 100) by (apply Z.div_pos; lia).
  pose proof (all_digits_no_space _ (all_digits_print _ H)) as H1.
  pose proof (all_digits_no_space _ Hd) as H2. split.
  - rewrite !no_space_app, H1, H2. destruct (c <? 0); reflexivity.
  - pose proof (print_dec_nonempty (Z.abs c / 100)).
    destruct (c <? 0); [discriminate|]. destruct (print_dec _); [congruence|discriminate].
Qed.

(** A fixed-2 storage string parses as its hundredths. *)
Lemma parses_fixed2 c : parses (Str (fixed2 c)) (centsQ c).
Proof.
  destruct (fixed2_nospace c). eapply parses_text; [apply fixed2_reads | assumption..].
Qed.

(** The double of [c/100] parses as exactly [c/100]. *)
Lemma parses_cents c :
  Z.abs c < cents_bound -> parses (Num (js_div (ofZ c) (ofZ 100))) (centsQ c).
Proof.
  intros H. change (js_div (ofZ c) (ofZ 100)) with (fin (centsQ c)).
  eapply parses_num; [|apply js_String_cents, H].
  rewrite fin_cents by lia. reflexivity.
Qed.

(** ** Functional correctness of the rounding primitives *)

Lemma roundToCurrency_parses a v cur :
  parses a v ->
  roundToCurrency a cur =
    Ok (fixed2 (minor_cents (minor_of v (minorUnitExponent cur)) (minorUnitExponent cur))).
Proof.
  intros (d & Hd & Hu & Hv). unfold roundToCurrency. rewrite Hd. simpl rbind.
  rewrite roundScaled_half_up, Hv, formatMinor_fixed2
    by (assumption || apply minorUnitExponent_nonneg || apply minorUnitExponent_cases).
  reflexivity.
Qed.

Lemma multiplyToCurrency_parses a b v w cur :
  parses a v -> parses b w ->
  multiplyToCurrency a b cur =
    Ok (fixed2 (minor_cents (minor_of (v * w) (minorUnitExponent cur)) (minorUnitExponent cur))).
Proof.
  intros (x & Hx & Hux & Hvx) (y & Hy & Huy & Hvy).
  unfold multiplyToCurrency. rewrite Hx, Hy. simpl rbind.
  rewrite roundScaled_half_up by (simpl; nia || apply minorUnitExponent_nonneg).
  rewrite formatMinor_fixed2 by apply minorUnitExponent_cases.
  match goal with |- context [minor_of (decQ ?d) _] => assert (decQ d == v * w)%Q as -> end;
    [|reflexivity].
  rewrite <- Hvx, <- Hvy. unfold decQ. simpl.
  replace (- (scale x + scale y)) with (- scale x + - scale y) by lia.
  rewrite ten_plus. destruct (neg x), (neg y); simpl;
    rewrite <- ?inject_Z_mult, ?inject_Z_opp, ?inject_Z_mult; ring.
Qed.

(** Minor units of a value that is a whole number of them. *)
Lemma minor_of_exact m exp : 0 <= exp -> minor_of (inject_Z m / ten ^ exp) exp = m.
Proof.
  intros He. unfold minor_of.
  assert (inject_Z m / ten ^ exp * ten ^ exp == inject_Z m)%Q as ->
    by (field; pose proof (ten_pos exp); lra).
  apply half_up_int.
Qed.

Lemma centsQ_minor m cur :
  (centsQ (minor_cents m (minorUnitExponent cur)) == inject_Z m / ten ^ minorUnitExponent cur)%Q.
Proof.
  unfold minor_cents. destruct (minorUnitExponent_cases cur) as [-> | ->].
  - change (10 ^ (2 - 0)) with 100. change (ten ^ 0)%Q with 1%Q. unfold centsQ.
    rewrite inject_Z_mult. change (inject_Z 100) with 100%Q. field.
  - change (10 ^ (2 - 2)) with 1. rewrite Z.mul_1_r. reflexivity.
Qed.

(** Whole minor units, as hundredths, survive rounding in their currency. *)
Lemma minor_of_cents m cur :
  minor_of (centsQ (minor_cents m (minorUnitExponent cur))) (minorUnitExponent cur) = m.
Proof. rewrite centsQ_minor. apply minor_of_exact, minorUnitExponent_nonneg. Qed.

Lemma representable_parses a v cur :
  parses a v ->
  isRepresentableInCurrency a cur = true <->
  exists m, (v == inject_Z m / ten ^ minorUnitExponent cur)%Q.
Proof.
  intros (d & Hd & Hu & Hv). unfold isRepresentableInCurrency. rewrite Hd.
  set (exp := minorUnitExponent cur). pose proof (minorUnitExponent_nonneg cur) as He. fold exp in He.
  set (u := if neg d then - unscaled d else unscaled d).
  pose proof (ten_pos exp) as Htp.
  destruct (Z.leb_spec (scale d) exp) as [Hs|Hs].
  - split; [intros _|reflexivity]. exists (u * 10 ^ (exp - scale d)).
    rewrite <- Hv. unfold decQ. fold u. rewrite inject_Z_mult, <- ten_Z by lia.
    assert (ten ^ (exp - scale d) == ten ^ exp * ten ^ (- scale d))%Q as -> by (rewrite <- ten_plus; reflexivity).
    field. lra.
  - pose proof (pow10_pos (scale d - exp) ltac:(lia)) as Hp.
    rewrite Z.eqb_eq. rewrite Z.mod_divide by lia.
    pose proof (decQ_scaled d exp Hs) as Hq. fold u in Hq. rewrite Hv in Hq.
    assert (HpQ : (0 < inject_Z (10 ^ (scale d - exp)))%Q)
      by (change 0%Q with (inject_Z 0); rewrite <- Zlt_Qlt; lia).
    split.
    + intros [k Hk]. exists (if neg d then - k else k).
      assert (v == v * ten ^ exp / ten ^ exp)%Q as -> by (field; lra). rewrite Hq.
      assert (u = (if neg d then - k else k) * 10 ^ (scale d - exp)) as ->
        by (unfold u; destruct (neg d); lia).
      rewrite inject_Z_mult. field. lra.
    + intros [m Hm]. rewrite Hm in Hq.
      assert (inject_Z m * inject_Z (10 ^ (scale d - exp)) == inject_Z u)%Q as Hmu.
      { assert (inject_Z m / ten ^ exp * ten ^ exp == inject_Z m)%Q as E by (field; lra).
        rewrite E in Hq. rewrite Hq. field. lra. }
      rewrite <- inject_Z_mult, inject_Z_injective in Hmu.
      exists (if neg d then - m else m). unfold u in Hmu. destruct (neg d); lia.
Qed.

(** ** Parsed decimals are well formed *)

Lemma span_digits_all s : all_digits (fst (span_digits s)) = true.
Proof.
  induction s as [|c s IH]; [reflexivity|]. simpl. destruct (is_digit c) eqn:Ec; [|reflexivity].
  destruct (span_digits s) as [d t]. simpl in *. rewrite Ec. exact IH.
Qed.

Lemma scan_unsigned_digits s ip fp e :
  scan_unsigned s = Some (ip, fp, e) -> all_digits ip = true /\ all_digits fp = true.
Proof.
  unfold scan_unsigned. pose proof (span_digits_all s) as Hi.
  destruct (span_digits s) as [ip0 [|c r]]; simpl in Hi; [intros [= <- <- _]; auto|].
  destruct (c =? ".")%char.
  - pose proof (span_digits_all r) as Hf. destruct (span_digits r) as [fp0 r'']. simpl in Hf.
    destruct (scan_exp r''); [intros [= <- <- _]; auto|discriminate].
  - destruct (scan_exp (String c r)); [intros [= <- <- _]; auto|discriminate].
Qed.

Lemma decimal_wf s g d :
  scan_decimal s = Some g -> decimal_of_groups g = Ok d -> 0 <= unscaled d /\ 0 <= scale d.
Proof.
  unfold scan_decimal. destruct (scan_sign s) as [ng r].
  destruct (scan_unsigned r) as [[[ip fp] e]|] eqn:Es; [|discriminate]. intros [= <-].
  apply scan_unsigned_digits in Es as [Hi Hf]. unfold decimal_of_groups.
  destruct (String.eqb ip "" && String.eqb fp ""); [discriminate|].
  assert (0 <= dec_val (ip ++ fp)) as Hv by (apply dec_val_bound; rewrite all_digits_app, Hi, Hf; reflexivity).
  destruct (Z.ltb_spec (slen fp - e) 0) as [Hs|Hs]; intros [= <-]; cbn [unscaled scale].
  - split; [|lia]. unfold zeros.
    rewrite dec_val_app, strip_zeros_val, dec_val_zeros. pose proof (Z.pow_nonneg 10 (slen (repeat_char "0" (Z.to_nat (- (slen fp - e)))))).
    nia.
  - split; [|lia]. rewrite strip_zeros_val. exact Hv.
Qed.

Lemma parse_text_wf s d : parse_text s = Ok d -> 0 <= unscaled d /\ 0 <= scale d.
Proof.
  unfold parse_text. destruct (scan_decimal s) eqn:E; [|discriminate]. apply (decimal_wf _ _ _ E).
Qed.

Lemma parseDecimal_wf a d : parseDecimal a = Ok d -> 0 <= unscaled d /\ 0 <= scale d.
Proof.
  destruct a as [s|x]; simpl.
  - destruct (String.eqb (trim s) ""); [intros [= <-]; simpl; lia|].
    destruct (scan_decimal (trim s)) eqn:E; [apply (decimal_wf _ _ _ E)|].
    destruct (isFinite _); [apply parse_text_wf|discriminate].
  - destruct (isFinite x); [apply parse_text_wf|discriminate].
Qed.

Lemma parsed a d : parseDecimal a = Ok d -> parses a (decQ d).
Proof. intros H. exists d. split; [exact H|]. split; [apply (parseDecimal_wf a), H|reflexivity]. Qed.

(** ** A text that scans is its own trimmed text *)

Lemma span_digits_split s a b : span_digits s = (a, b) -> s = a ++ b /\ all_digits a = true.
Proof.
  revert a b. induction s as [|c r IH]; intros a b; cbn [span_digits]; [intros [= <- <-]; auto|].
  destruct (is_digit c) eqn:E; [|intros [= <- <-]; auto].
  destruct (span_digits r) as [x y] eqn:Er. intros [= <- <-]. destruct (IH _ _ eq_refl) as [-> H]. split; [reflexivity|]. cbn. rewrite E. exact H.
Qed.

Lemma scan_exp_no_space s e : scan_exp s = Some e -> no_space s = true.
Proof.
  unfold scan_exp. destruct s as [|c r]; [reflexivity|]. destruct ((c =? "e")%char || (c =? "E")%char) eqn:Ec; [|discriminate].
  assert (Hc : is_space c = false) by (apply orb_true_iff in Ec as [E|E]; apply Ascii.eqb_eq in E as ->; reflexivity).
  cbn [no_space]. rewrite Hc. cbn [negb andb].
  set (p := match r with String c' r' => _ | EmptyString => _ end). destruct p as [ng r'] eqn:Ep. unfold p in Ep. clear p.
  destruct (span_digits r') as [d t] eqn:Ed. apply span_digits_split in Ed as [-> Hd].
  intros H. assert (t = "") as -> by (destruct d, t; congruence).
  assert (Hr : no_space (d ++ "") = true) by (rewrite no_space_app, all_digits_no_space by exact Hd; reflexivity).
  destruct r as [|c' r0]; [reflexivity|].
  destruct (c' =? "-")%char eqn:E1; [apply Ascii.eqb_eq in E1 as ->; injection Ep as _ ->; exact Hr|].
  destruct (c' =? "+")%char eqn:E2; [apply Ascii.eqb_eq in E2 as ->; injection Ep as _ ->; exact Hr|].
  injection Ep as _ ->. exact Hr.
Qed.

Lemma scan_unsigned_no_space s g : scan_unsigned s = Some g -> no_space s = true.
Proof.
  unfold scan_unsigned. destruct (span_digits s) as [ip r] eqn:E. apply span_digits_split in E as [-> Hi].
  rewrite no_space_app, all_digits_no_space by exact Hi. cbn [andb]. destruct r as [|c r']; [reflexivity|].
  destruct (c =? ".")%char eqn:Ec.
  - apply Ascii.eqb_eq in Ec as ->. destruct (span_digits r') as [fp r2] eqn:E2. apply span_digits_split in E2 as [-> Hf].
    destruct (scan_exp r2) eqn:Ee; [|discriminate]. intros _. cbn. rewrite no_space_app, all_digits_no_space by exact Hf.
    exact (scan_exp_no_space _ _ Ee).
  - destruct (scan_exp _) eqn:Ee; [|discriminate]. intros _. exact (scan_exp_no_space _ _ Ee).
Qed.

Lemma scan_decimal_no_space s g : scan_decimal s = Some g -> no_space s = true.
Proof.
  unfold scan_decimal, scan_sign. destruct s as [|c r]; [reflexivity|].
  destruct (c =? "-")%char eqn:E1; [|destruct (c =? "+")%char eqn:E2];
    (destruct (scan_unsigned _) eqn:E; [|discriminate]); intros _; apply scan_unsigned_no_space in E; [| |exact E].
  - apply Ascii.eqb_eq in E1 as ->. exact E.
  - apply Ascii.eqb_eq in E2 as ->. exact E.
Qed.

Lemma parse_text_amount s d : parse_text s = Ok d -> parseDecimal (Str s) = Ok d.
Proof.
  unfold parse_text. cbn [parseDecimal]. destruct (scan_decimal s) as [g|] eqn:E; [|discriminate]. intros H.
  rewrite (trim_no_space s (scan_decimal_no_space _ _ E)), E. destruct (String.eqb_spec s "") as [->|]; [|exact H].
  cbn in E. injection E as <-. discriminate H.
Qed.

(** ** Properties *)

(** The storage string of a value half-up at the currency's minor unit. *)
Definition stored (v : Q) (currency : string) : string :=
  let exp := minorUnitExponent currency in fixed2 (minor_cents (minor_of v exp) exp).

Lemma roundToCurrency_stored s v : parses s v -> forall cur, roundToCurrency s cur = Ok (stored v cur).
Proof. intros H cur. apply roundToCurrency_parses, H. Qed.

Lemma stored_text v cur : parses (Str (stored v cur)) (centsQ (minor_cents (minor_of v (minorUnitExponent cur)) (minorUnitExponent cur))).
Proof. apply parses_fixed2. Qed.

Lemma stored_again v cur :
  stored (centsQ (minor_cents (minor_of v (minorUnitExponent cur)) (minorUnitExponent cur))) cur = stored v cur.
Proof. unfold stored. rewrite minor_of_cents. reflexivity. Qed.

(** C34: For every pair of amounts that parse, [roundToCurrency] returns the
    fixed-2 string of the first one's exact decimal value rounded half-up (ties
    towards plus infinity) at the currency's minor unit, and
    [multiplyToCurrency] the string of the exact product rounded once the same
    way: no binary double enters the result. *)
Theorem money_rounding_exact a b x y cur :
  parseDecimal a = Ok x -> parseDecimal b = Ok y ->
  roundToCurrency a cur = Ok (stored (decQ x) cur) /\
  multiplyToCurrency a b cur = Ok (stored (decQ x * decQ y) cur).
Proof.
  intros Ha Hb. split.
  - apply roundToCurrency_stored, parsed, Ha.
  - apply multiplyToCurrency_parses; apply parsed; assumption.
Qed.

Lemma money_rounding_exact_witness :
  multiplyToCurrency (Str "0.02") (Str "7.25") "USD" = Ok "0.15" /\
  roundToCurrency (Str "-1.005") "USD" = Ok "-1.00".
Proof.
  destruct (money_rounding_exact (Str "0.02") (Str "7.25") (mkDecimal false 2 2) (mkDecimal false 725 2) "USD"
              eq_refl eq_refl) as [_ ->].
  destruct (money_rounding_exact (Str "-1.005") (Str "1") (mkDecimal true 1005 3) (mkDecimal false 1 0) "USD"
              eq_refl eq_refl) as [-> _].
  split; reflexivity.
Defined.

(** What the rounding primitives return is a fixed point of rounding and
    is representable in the currency: storing an amount and rounding it again
    changes nothing. *)
Theorem stored_amount_stable a b cur s :
  roundToCurrency a cur = Ok s \/ multiplyToCurrency a b cur = Ok s ->
  roundToCurrency (Str s) cur = Ok s /\ isRepresentableInCurrency (Str s) cur = true.
Proof.
  intros H. assert (exists v, s = stored v cur) as [v ->].
  { destruct H as [H|H].
    - unfold roundToCurrency in H. run_ok. match goal with E : parseDecimal _ = Ok _ |- _ => rename E into Hd end.
      exists (decQ x). pose proof (roundToCurrency_stored _ _ (parsed _ _ Hd) cur) as E.
      unfold roundToCurrency in E. rewrite Hd in E. injection E as E. exact E.
    - unfold multiplyToCurrency in H. run_ok. rename x into dx, x0 into dy.
      exists (decQ dx * decQ dy)%Q.
      match goal with Hx : parseDecimal a = _, Hy : parseDecimal b = _ |- _ =>
        pose proof (multiplyToCurrency_parses _ _ _ _ cur (parsed _ _ Hx) (parsed _ _ Hy)) as E;
        unfold multiplyToCurrency in E; rewrite Hx, Hy in E end.
      injection E as E. exact E. }
  split.
  - rewrite (roundToCurrency_stored _ _ (stored_text v cur)), stored_again. reflexivity.
  - apply (representable_parses _ _ _ (stored_text v cur)).
    eexists. apply centsQ_minor.
Qed.

Lemma stored_amount_stable_witness :
  roundToCurrency (Str "1001.00") "JPY" = Ok "1001.00" /\ isRepresentableInCurrency (Str "1001.00") "JPY" = true.
Proof. apply (stored_amount_stable (Str "1000.5") (Str "") "JPY"). left. reflexivity. Defined.

(** An amount that parses is representable in a currency exactly when its
    exact value is a whole number of minor units. *)
Theorem representable_iff_whole_units a d cur :
  parseDecimal a = Ok d ->
  isRepresentableInCurrency a cur = true <->
  exists m, (decQ d == inject_Z m / ten ^ minorUnitExponent cur)%Q.
Proof. intros H. apply representable_parses, parsed, H. Qed.

Lemma representable_iff_whole_units_witness :
  isRepresentableInCurrency (Str "1.0151") "USD" = false /\
  (~ exists m, (decQ (mkDecimal false 10151 4) == inject_Z m / ten ^ minorUnitExponent "USD")%Q) /\
  isRepresentableInCurrency (Str "12.50") "EUR" = true.
Proof.
  split; [reflexivity|]. split.
  - intros H. apply (representable_iff_whole_units (Str "1.0151") _ "USD" eq_refl) in H. discriminate H.
  - apply (representable_iff_whole_units (Str "12.50") (mkDecimal false 1250 2) "EUR" eq_refl).
    exists 1250. reflexivity.
Defined.

Lemma ofZ_cents m : Z.abs (m * 100) <= cents_bound -> ofZ m = fin (centsQ (m * 100)).
Proof.
  intros H. symmetry. apply fin_int.
  - unfold centsQ. rewrite inject_Z_mult. change (inject_Z 100) with 100%Q. field.
  - unfold cents_bound, int_bound in *. lia.
Qed.

(** Minor units and the stored string say the same. *)
Lemma fromMinorUnits_money m cur :
  Z.abs m <= 10 ^ 13 -> fromMinorUnits (Num (ofZ m)) cur = Ok (fixed2 (minor_cents m (minorUnitExponent cur))).
Proof.
  intros H. unfold fromMinorUnits, minorUnitExponent, minor_cents. cbn [to_num isFinite ofZ negb]. f_equal.
  destruct (isZeroDecimal cur); change (Fin (inject_Z m)) with (ofZ m).
  - change (10 ^ (2 - 0)) with 100. assert (Hb : Z.abs (m * 100) <= cents_bound) by (unfold cents_bound; lia).
    rewrite (ofZ_cents m Hb). apply (toFixed_cents _ Hb).
  - change (10 ^ (2 - 2)) with 1. rewrite Z.mul_1_r. apply toFixed_cents. unfold cents_bound. lia.
Qed.

Lemma toMinorUnits_money m cur :
  Z.abs m <= 10 ^ 13 -> toMinorUnits (Str (fixed2 (minor_cents m (minorUnitExponent cur)))) cur = Ok (ofZ m).
Proof.
  intros H. unfold toMinorUnits, minorUnitExponent, minor_cents. cbn [to_num]. rewrite js_Number_fixed2.
  destruct (isZeroDecimal cur).
  - change (10 ^ (2 - 0)) with 100. assert (Hb : Z.abs (m * 100) <= cents_bound) by (unfold cents_bound; lia).
    rewrite <- (ofZ_cents m Hb). cbn [isFinite ofZ negb]. f_equal. unfold math_round. change (Fin (inject_Z m)) with (ofZ m).
    unfold ofZ. do 2 f_equal. apply (half_up_int m).
  - change (10 ^ (2 - 2)) with 1. rewrite Z.mul_1_r. assert (Hb : Z.abs m <= cents_bound) by (unfold cents_bound; lia).
    rewrite (fin_cents m Hb). cbn [isFinite negb]. f_equal. rewrite <- (fin_cents m Hb). apply (round_cents m Hb).
Qed.

(** C38: Minor units survive the trip through the stored string: for every
    integer count of minor units within 10^13, [fromMinorUnits] succeeds and
    [toMinorUnits] of its string is the same count, in two-decimal and in
    zero-decimal currencies. *)
Theorem minor_units_roundtrip m cur :
  Z.abs m <= 10 ^ 13 ->
  exists s, fromMinorUnits (Num (ofZ m)) cur = Ok s /\ toMinorUnits (Str s) cur = Ok (ofZ m).
Proof. intros H. eexists. split; [apply fromMinorUnits_money, H|apply toMinorUnits_money, H]. Qed.

Lemma minor_units_roundtrip_witness :
  exists s, fromMinorUnits (Num (ofZ 1999)) "EUR" = Ok s /\ toMinorUnits (Str s) "EUR" = Ok (ofZ 1999).
Proof. apply (minor_units_roundtrip 1999 "EUR"). lia. Defined.
