(* ===== verification/IsoDate.v ===== *)
(** * Calendar dates as the services handle them

    JavaScript's UTC calendar ([Date.UTC], [getUTCFullYear], ...) on whole days
    and milliseconds, and the [YYYY-MM-DD] strings of the date columns, whose
    string order is the order of the days. *)

From S2P Require Import Prelude JsString.

Local Open Scope string_scope.
Local Open Scope Z_scope.

(** ** Days since 1970-01-01 (ECMAScript, "Date Objects") *)

Definition day_from_year (y : Z) : Z :=
  365 * (y - 1970) + (y - 1969) / 4 - (y - 1901) / 100 + (y - 1601) / 400.

Definition leap (y : Z) : bool := day_from_year (y + 1) - day_from_year y =? 366.

(** Days of the year before month [m] (1-based). *)
Definition month_start (lp : bool) (m : Z) : Z :=
  let k := if lp then 1 else 0 in
  if m <=? 1 then 0 else if m =? 2 then 31 else if m =? 3 then 59 + k
  else if m =? 4 then 90 + k else if m =? 5 then 120 + k else if m =? 6 then 151 + k
  else if m =? 7 then 181 + k else if m =? 8 then 212 + k else if m =? 9 then 243 + k
  else if m =? 10 then 273 + k else if m =? 11 then 304 + k else if m =? 12 then 334 + k
  else 365 + k.

Definition month_days (y m : Z) : Z := month_start (leap y) (m + 1) - month_start (leap y) m.

Definition day_number (y m d : Z) : Z := day_from_year y + month_start (leap y) m + d - 1.

(** The year of a day: an estimate, corrected by at most one year. *)
Definition year_of (n : Z) : Z :=
  let g := n * 400 / 146097 + 1970 in
  if n <? day_from_year g then g - 1
  else if day_from_year (g + 1) <=? n then g + 1 else g.

Fixpoint month_search (lp : bool) (doy m : Z) (fuel : nat) : Z :=
  match fuel with
  | O => m
  | S f => if month_start lp (m + 1) <=? doy then month_search lp doy (m + 1) f else m
  end.

Definition getUTCFullYear (n : Z) : Z := year_of n.
(** The month counted from 1; the source adds the 1 to [getUTCMonth()]. *)
Definition utc_month1 (n : Z) : Z :=
  month_search (leap (year_of n)) (n - day_from_year (year_of n)) 1 11.
Definition getUTCDate (n : Z) : Z :=
  n - day_from_year (year_of n) - month_start (leap (year_of n)) (utc_month1 n) + 1.

(** [Date.UTC(y, m, d)] in days; [m] counts from 0 and may overflow. *)
Definition Date_UTC (y m0 d : Z) : Z :=
  let y' := if (0 <=? y) && (y <=? 99) then 1900 + y else y in
  day_number (y' + m0 / 12) (m0 mod 12 + 1) 1 + d - 1.

(** ** The strings *)

(** [`${y}-${mm}-${dd}`]. *)
Definition fmt (y m d : Z) : string :=
  print_int y ++ "-" ++ padStart (print_int m) 2 "0" ++ "-" ++ padStart (print_int d) 2 "0".

(** [iso.split('-')] and [Number] of the three segments of a date column. *)
Definition parts (iso : string) : Z * Z * Z :=
  match split_on "-" iso with
  | y :: m :: d :: _ => (dec_val y, dec_val m, dec_val d)
  | _ => (0, 0, 0)
  end.

(** ** The calendar *)

Definition valid (y m d : Z) : Prop := 1 <= m <= 12 /\ 1 <= d <= month_days y m.

Lemma year_length y : day_from_year (y + 1) - day_from_year y = 365 \/ day_from_year (y + 1) - day_from_year y = 366.
Proof. unfold day_from_year. Z.to_euclidean_division_equations. lia. Qed.

Lemma leap_spec y : day_from_year (y + 1) - day_from_year y = if leap y then 366 else 365.
Proof. unfold leap. destruct (year_length y) as [-> | ->]; reflexivity. Qed.

(** Twelve cases for a month variable. *)
Ltac month_cases m :=
  let H := fresh in
  assert (m = 1 \/ m = 2 \/ m = 3 \/ m = 4 \/ m = 5 \/ m = 6 \/ m = 7 \/ m = 8 \/ m = 9 \/ m = 10 \/ m = 11 \/ m = 12)
    as H by lia;
  repeat (destruct H as [H|H]; [subst m|]); [..|subst m].

Lemma month_start_step lp m : 1 <= m <= 12 -> 28 <= month_start lp (m + 1) - month_start lp m <= 31.
Proof. intros H. destruct lp; month_cases m; vm_compute; split; discriminate. Qed.

Lemma month_start_13 lp : month_start lp 13 = if lp then 366 else 365.
Proof. destruct lp; reflexivity. Qed.

Lemma month_days_bound y m : 1 <= m <= 12 -> 28 <= month_days y m <= 31.
Proof. intros H. unfold month_days. apply month_start_step, H. Qed.

Lemma month_start_mono lp a b : 1 <= a <= b -> b <= 13 -> month_start lp a <= month_start lp b.
Proof.
  intros H Hb. replace b with (a + Z.of_nat (Z.to_nat (b - a))) by lia.
  assert (Hn : (Z.to_nat (b - a) <= Z.to_nat (13 - a))%nat) by lia. revert Hn.
  generalize (Z.to_nat (b - a)) as n. induction n as [|n IH]; intros Hn; [rewrite Z.add_0_r; lia|].
  specialize (IH ltac:(lia)). pose proof (month_start_step lp (a + Z.of_nat n) ltac:(lia)).
  replace (a + Z.of_nat (S n)) with (a + Z.of_nat n + 1) by lia. lia.
Qed.

Lemma day_from_year_mono a b : a <= b -> day_from_year a <= day_from_year b.
Proof.
  intros H. replace b with (a + Z.of_nat (Z.to_nat (b - a))) by lia.
  generalize (Z.to_nat (b - a)) as n. induction n as [|n IH]; [rewrite Z.add_0_r; lia|].
  pose proof (year_length (a + Z.of_nat n)). replace (a + Z.of_nat (S n)) with (a + Z.of_nat n + 1) by lia. lia.
Qed.

Lemma day_in_year y m d :
  valid y m d -> day_from_year y <= day_number y m d < day_from_year (y + 1).
Proof.
  intros [Hm Hd]. unfold day_number, month_days in *.
  pose proof (month_start_mono (leap y) 1 m ltac:(lia) ltac:(lia)) as H1.
  pose proof (month_start_mono (leap y) (m + 1) 13 ltac:(lia) ltac:(lia)) as H2.
  change (month_start (leap y) 1) with 0 in H1. rewrite month_start_13 in H2.
  pose proof (leap_spec y). lia.
Qed.

Lemma year_unique n y : day_from_year y <= n < day_from_year (y + 1) -> year_of n = y.
Proof.
  intros H. unfold year_of. set (g := n * 400 / 146097 + 1970).
  assert (g - 1 <= y <= g + 1) as Hg.
  { subst g. unfold day_from_year in H. Z.to_euclidean_division_equations. lia. }
  destruct (Z.ltb_spec n (day_from_year g)).
  - assert (~ g <= y) by (intros Hc; pose proof (day_from_year_mono g y Hc); lia). lia.
  - assert (~ y + 1 <= g) as Hy by (intros Hc; pose proof (day_from_year_mono (y + 1) g Hc); lia).
    destruct (Z.leb_spec (day_from_year (g + 1)) n).
    + assert (~ y + 1 <= g + 1) by (intros Hc; pose proof (day_from_year_mono (y + 1) (g + 1) Hc); lia). lia.
    + assert (~ g + 1 <= y) by (intros Hc; pose proof (day_from_year_mono (g + 1) y Hc); lia). lia.
Qed.

Lemma month_search_unique lp doy m k fuel :
  month_start lp m <= doy < month_start lp (m + 1) -> 1 <= k <= m -> m <= 12 -> m <= k + Z.of_nat fuel ->
  month_search lp doy k fuel = m.
Proof.
  intros H. revert k. induction fuel as [|f IH]; intros k Hk Hm Hf; [simpl; lia|].
  cbn [month_search]. destruct (Z.leb_spec (month_start lp (k + 1)) doy).
  - apply IH; try lia. destruct (Z.eq_dec k m) as [->|]; lia.
  - destruct (Z.eq_dec k m) as [->|Hne]; [reflexivity|].
    pose proof (month_start_mono lp (k + 1) m ltac:(lia) ltac:(lia)). lia.
Qed.

(** Reading the fields back from the day number. *)
Lemma civil_fields y m d :
  valid y m d ->
  getUTCFullYear (day_number y m d) = y /\ utc_month1 (day_number y m d) = m /\
  getUTCDate (day_number y m d) = d.
Proof.
  intros Hv. pose proof (year_unique _ _ (day_in_year y m d Hv)) as Hy.
  unfold getUTCFullYear, getUTCDate. destruct Hv as [Hm Hd]. unfold month_days in Hd.
  assert (Hmo : utc_month1 (day_number y m d) = m).
  { unfold utc_month1. rewrite Hy. apply month_search_unique; try lia. unfold day_number. lia. }
  rewrite Hmo, Hy. unfold day_number. lia.
Qed.

Lemma year_spec n : day_from_year (year_of n) <= n < day_from_year (year_of n + 1).
Proof.
  unfold year_of. set (g := n * 400 / 146097 + 1970).
  assert (day_from_year (g - 1) <= n < day_from_year (g + 2)) as H.
  { subst g. unfold day_from_year. Z.to_euclidean_division_equations. lia. }
  destruct (Z.ltb_spec n (day_from_year g)); [replace (g - 1 + 1) with g by lia; lia|].
  destruct (Z.leb_spec (day_from_year (g + 1)) n); [|lia].
  replace (g + 1 + 1) with (g + 2) by lia. lia.
Qed.

Lemma month_search_spec lp doy fuel k :
  month_start lp k <= doy -> doy < month_start lp (k + Z.of_nat fuel + 1) ->
  k <= month_search lp doy k fuel <= k + Z.of_nat fuel /\
  month_start lp (month_search lp doy k fuel) <= doy < month_start lp (month_search lp doy k fuel + 1).
Proof.
  revert k. induction fuel as [|f IH]; intros k H1 H2; cbn [month_search].
  - rewrite Z.add_0_r in H2. lia.
  - destruct (Z.leb_spec (month_start lp (k + 1)) doy) as [H|H]; [|lia].
    destruct (IH (k + 1) H) as [Ha Hb]; [|split; [lia|exact Hb]].
    replace (k + 1 + Z.of_nat f + 1) with (k + Z.of_nat (S f) + 1) by lia. exact H2.
Qed.

(** Every day number is a valid date, the one the accessors read. *)
Lemma civil_total n :
  valid (getUTCFullYear n) (utc_month1 n) (getUTCDate n) /\
  day_number (getUTCFullYear n) (utc_month1 n) (getUTCDate n) = n.
Proof.
  pose proof (year_spec n) as Hy. unfold getUTCFullYear, getUTCDate.
  assert (H : 1 <= utc_month1 n <= 12 /\
    month_start (leap (year_of n)) (utc_month1 n) <= n - day_from_year (year_of n)
      < month_start (leap (year_of n)) (utc_month1 n + 1)).
  { unfold utc_month1. apply (month_search_spec _ _ 11 1); [change (month_start _ 1) with 0; lia|].
    change (1 + Z.of_nat 11 + 1) with 13. rewrite month_start_13. pose proof (leap_spec (year_of n)).
    destruct (leap (year_of n)); lia. }
  unfold valid, month_days, day_number. lia.
Qed.

(** Two valid dates are in order exactly when their days are. *)
Definition date_lt (a b : Z * Z * Z) : Prop :=
  let '(y, m, d) := a in let '(y', m', d') := b in
  y < y' \/ y = y' /\ (m < m' \/ m = m' /\ d < d').

Lemma date_lt_days y m d y' m' d' :
  valid y m d -> valid y' m' d' -> date_lt (y, m, d) (y', m', d') -> day_number y m d < day_number y' m' d'.
Proof.
  intros Hv Hv' [H|[-> [H|[-> H]]]].
  - pose proof (day_in_year _ _ _ Hv). pose proof (day_in_year _ _ _ Hv').
    pose proof (day_from_year_mono (y + 1) y' ltac:(lia)). lia.
  - destruct Hv as [Hm Hd], Hv' as [Hm' Hd']. unfold month_days, day_number in *.
    pose proof (month_start_mono (leap y') (m + 1) m' ltac:(lia) ltac:(lia)). lia.
  - unfold day_number. lia.
Qed.

Lemma date_trichotomy (a b : Z * Z * Z) : date_lt a b \/ a = b \/ date_lt b a.
Proof.
  destruct a as [[y m] d], b as [[y' m'] d']. simpl.
  destruct (Z.lt_trichotomy y y') as [?|[->|?]]; [lia| |lia].
  destruct (Z.lt_trichotomy m m') as [?|[->|?]]; [lia| |lia].
  destruct (Z.lt_trichotomy d d') as [?|[->|?]]; [lia|auto|lia].
Qed.

Lemma days_date_lt y m d y' m' d' :
  valid y m d -> valid y' m' d' -> day_number y m d < day_number y' m' d' <-> date_lt (y, m, d) (y', m', d').
Proof.
  intros Hv Hv'. split; [|apply date_lt_days; assumption]. intros H.
  destruct (date_trichotomy (y, m, d) (y', m', d')) as [?|[[= -> -> ->]|Hc]]; [assumption|lia|].
  pose proof (date_lt_days _ _ _ _ _ _ Hv' Hv Hc). lia.
Qed.

(** ** Dates as strings *)

(** A four-digit year: the range where string order is date order. *)
Definition year4 (y : Z) : Prop := 1000 <= y <= 9999.

Definition pad2 (n : Z) : string := padStart (print_int n) 2 "0".

Lemma pad2_two n : 0 <= n < 100 -> pad2 n = two_digits n.
Proof.
  intros H. unfold pad2, print_int. rewrite (proj2 (Z.ltb_ge n 0)) by lia. apply pad2_two_digits, H.
Qed.

Definition four_digits (y : Z) : string := two_digits (y / 100) ++ two_digits (y mod 100).

Lemma print_year y : year4 y -> print_int y = four_digits y.
Proof.
  intros H. unfold year4 in H. unfold print_int, four_digits. rewrite (proj2 (Z.ltb_ge y 0)) by lia.
  assert (10 <= y / 100 < 100) by (Z.to_euclidean_division_equations; lia).
  rewrite print_dec_cents by lia. rewrite <- (pad2_two_digits (y / 100)) by lia.
  unfold padStart. destruct (print_dec_len (y / 100) ltac:(lia)) as (HL & H1 & H2).
  assert (slen (print_dec (y / 100)) = 2) as ->.
  { assert (10 ^ 1 < 10 ^ slen (print_dec (y / 100))) as Ha by lia.
    assert (10 ^ (slen (print_dec (y / 100)) - 1) < 10 ^ 2) as Hb by lia.
    apply Z.pow_lt_mono_r_iff in Ha; [|lia|lia]. apply Z.pow_lt_mono_r_iff in Hb; lia. }
  reflexivity.
Qed.

Lemma fmt_digits y m d :
  year4 y -> 0 <= m < 100 -> 0 <= d < 100 ->
  fmt y m d = two_digits (y / 100) ++ two_digits (y mod 100) ++ "-" ++ two_digits m ++ "-" ++ two_digits d.
Proof.
  intros Hy Hm Hd. unfold fmt. fold (pad2 m) (pad2 d). rewrite print_year, !pad2_two by assumption.
  unfold four_digits. rewrite !append_assoc. reflexivity.
Qed.

Lemma split_on_digits s r :
  all_digits s = true -> split_on "-" (s ++ "-" ++ r) = s :: split_on "-" r.
Proof.
  induction s as [|c s IH]; [reflexivity|]. simpl. intros H. apply andb_true_iff in H as [Hc Hs].
  destruct (Ascii.eqb_spec c "-") as [->|_]; [discriminate Hc|].
  change (split_on "-" (s ++ String "-" r)) with (split_on "-" (s ++ "-" ++ r)).
  rewrite (IH Hs). reflexivity.
Qed.

Lemma split_on_last s : all_digits s = true -> split_on "-" s = [s].
Proof.
  induction s as [|c s IH]; [reflexivity|]. simpl. intros H. apply andb_true_iff in H as [Hc Hs].
  destruct (Ascii.eqb_spec c "-") as [->|_]; [discriminate Hc|]. rewrite (IH Hs). reflexivity.
Qed.

Lemma year4_halves y : year4 y -> 0 <= y / 100 < 100 /\ 0 <= y mod 100 < 100.
Proof. unfold year4. intros. Z.to_euclidean_division_equations. lia. Qed.

(** The fields of a formatted date are read back. *)
Lemma parts_fmt y m d :
  year4 y -> 0 <= m < 100 -> 0 <= d < 100 -> parts (fmt y m d) = (y, m, d).
Proof.
  intros Hy Hm Hd. rewrite fmt_digits by assumption. destruct (year4_halves y Hy) as [H1 H2].
  destruct (two_digits_all _ H1) as [Da Va], (two_digits_all _ H2) as [Db Vb],
    (two_digits_all _ Hm) as [Dm Vm], (two_digits_all _ Hd) as [Dd Vd].
  unfold parts. rewrite <- append_assoc.
  rewrite split_on_digits by (rewrite all_digits_app, Da, Db; reflexivity).
  rewrite split_on_digits, split_on_last by assumption.
  rewrite dec_val_app, Va, Vb, Vm, Vd. change (slen (two_digits (y mod 100))) with 2.
  change (10 ^ 2) with 100. rewrite (Z.mul_comm (y / 100)), <- Z.div_mod by lia. reflexivity.
Qed.

Lemma str_ltb_digit x y s t :
  0 <= x < 10 -> 0 <= y < 10 ->
  str_ltb (String (digit_char x) s) (String (digit_char y) t) = (x <? y) || (x =? y) && str_ltb s t.
Proof.
  intros Hx Hy. cbn [str_ltb]. rewrite !digit_code by assumption.
  destruct (N.ltb_spec (Z.to_N (48 + x)) (Z.to_N (48 + y))) as [H|H].
  - rewrite (proj2 (Z.ltb_lt x y)) by lia. reflexivity.
  - rewrite (proj2 (Z.ltb_ge x y)) by lia.
    destruct (N.ltb_spec (Z.to_N (48 + y)) (Z.to_N (48 + x))).
    + rewrite (proj2 (Z.eqb_neq x y)) by lia. reflexivity.
    + rewrite (proj2 (Z.eqb_eq x y)) by lia. reflexivity.
Qed.

Lemma str_ltb_two a b s t :
  0 <= a < 100 -> 0 <= b < 100 ->
  str_ltb (two_digits a ++ s) (two_digits b ++ t) = (a <? b) || (a =? b) && str_ltb s t.
Proof.
  intros Ha Hb. unfold two_digits. cbn [append].
  rewrite !str_ltb_digit by (Z.to_euclidean_division_equations; lia).
  destruct (str_ltb s t); rewrite ?andb_true_r, ?andb_false_r, ?orb_false_r;
    destruct (Z.ltb_spec (a / 10) (b / 10)), (Z.eqb_spec (a / 10) (b / 10)),
      (Z.ltb_spec (a mod 10) (b mod 10)), (Z.eqb_spec (a mod 10) (b mod 10)),
      (Z.ltb_spec a b), (Z.eqb_spec a b); try reflexivity;
    exfalso; Z.to_euclidean_division_equations; lia.
Qed.

Lemma str_ltb_cons c s t : str_ltb (String c s) (String c t) = str_ltb s t.
Proof. cbn [str_ltb]. rewrite N.ltb_irrefl. reflexivity. Qed.

Lemma fmt_ltb y m d y' m' d' :
  year4 y -> year4 y' -> 0 <= m < 100 -> 0 <= d < 100 -> 0 <= m' < 100 -> 0 <= d' < 100 ->
  str_ltb (fmt y m d) (fmt y' m' d') = true <-> date_lt (y, m, d) (y', m', d').
Proof.
  intros Hy Hy' Hm Hd Hm' Hd'. rewrite !fmt_digits by assumption.
  destruct (year4_halves y Hy) as [H1 H2], (year4_halves y' Hy') as [H1' H2'].
  rewrite !str_ltb_two by assumption. cbn [append]. rewrite str_ltb_cons, str_ltb_two by assumption.
  rewrite str_ltb_cons. rewrite <- (append_nil_r (two_digits d)), <- (append_nil_r (two_digits d')).
  rewrite str_ltb_two by assumption. cbn [str_ltb]. rewrite andb_false_r, orb_false_r.
  rewrite !orb_true_iff, !andb_true_iff, !orb_true_iff, !andb_true_iff, !orb_true_iff, !andb_true_iff.
  rewrite !Z.ltb_lt, !Z.eqb_eq. simpl.
  pose proof (Z.div_mod y 100 ltac:(lia)). pose proof (Z.div_mod y' 100 ltac:(lia)). lia.
Qed.

(** ** Dates by their day *)

(** The string of a day, and the day of a string. *)
Definition iso_of (n : Z) : string := fmt (getUTCFullYear n) (utc_month1 n) (getUTCDate n).

Definition day_of (iso : string) : Z := let '(y, m, d) := parts iso in day_number y m d.

(** The value of a date column with a four-digit year. *)
Definition is_iso (s : string) : Prop :=
  exists y m d, valid y m d /\ year4 y /\ s = fmt y m d.

(** The days whose year has four digits. *)
Definition day4 (n : Z) : Prop := day_from_year 1000 <= n < day_from_year 10000.

Lemma valid_pad y m d : valid y m d -> 0 <= m < 100 /\ 0 <= d < 100.
Proof. intros [Hm Hd]. pose proof (month_days_bound y m Hm). lia. Qed.

Lemma day_of_fmt y m d : valid y m d -> year4 y -> day_of (fmt y m d) = day_number y m d.
Proof. intros Hv Hy. unfold day_of. rewrite parts_fmt by (assumption || apply (valid_pad y m d Hv)). reflexivity. Qed.

Lemma day4_year4 n : day4 n <-> year4 (getUTCFullYear n).
Proof.
  unfold day4, year4. pose proof (year_spec n) as H. unfold getUTCFullYear. split; intros Hn.
  - split.
    + assert (~ year_of n + 1 <= 1000) by (intros Hc; pose proof (day_from_year_mono _ _ Hc); lia). lia.
    + assert (~ 10000 <= year_of n) by (intros Hc; pose proof (day_from_year_mono _ _ Hc); lia). lia.
  - pose proof (day_from_year_mono 1000 (year_of n) ltac:(lia)).
    pose proof (day_from_year_mono (year_of n + 1) 10000 ltac:(lia)). lia.
Qed.

Lemma iso_of_is_iso n : day4 n -> is_iso (iso_of n) /\ day_of (iso_of n) = n.
Proof.
  intros H. apply day4_year4 in H. destruct (civil_total n) as [Hv Hn]. split.
  - exists (getUTCFullYear n), (utc_month1 n), (getUTCDate n). auto.
  - unfold iso_of. rewrite day_of_fmt by assumption. exact Hn.
Qed.

Lemma iso_of_day_number y m d : valid y m d -> iso_of (day_number y m d) = fmt y m d.
Proof. intros H. unfold iso_of. destruct (civil_fields y m d H) as (-> & -> & ->). reflexivity. Qed.

Lemma is_iso_day s : is_iso s -> iso_of (day_of s) = s /\ day4 (day_of s).
Proof.
  intros (y & m & d & Hv & Hy & ->). rewrite day_of_fmt, iso_of_day_number by assumption.
  split; [reflexivity|]. apply day4_year4. destruct (civil_fields y m d Hv) as (-> & _). exact Hy.
Qed.

Lemma iso_ltb a b : is_iso a -> is_iso b -> str_ltb a b = (day_of a <? day_of b).
Proof.
  intros (y & m & d & Hv & Hy & ->) (y' & m' & d' & Hv' & Hy' & ->).
  rewrite !day_of_fmt by assumption. destruct (valid_pad _ _ _ Hv), (valid_pad _ _ _ Hv').
  pose proof (fmt_ltb y m d y' m' d' Hy Hy' ltac:(lia) ltac:(lia) ltac:(lia) ltac:(lia)) as H3.
  rewrite <- (days_date_lt _ _ _ _ _ _ Hv Hv') in H3.
  destruct (Z.ltb_spec (day_number y m d) (day_number y' m' d')).
  - apply H3. assumption.
  - destruct (str_ltb _ _); [|reflexivity]. assert (true = true) as E by reflexivity. apply H3 in E. lia.
Qed.

Lemma iso_leb a b : is_iso a -> is_iso b -> str_leb a b = (day_of a <=? day_of b).
Proof.
  intros Ha Hb. unfold str_leb. rewrite (iso_ltb b a Hb Ha).
  destruct (Z.ltb_spec (day_of b) (day_of a)), (Z.leb_spec (day_of a) (day_of b)); lia || reflexivity.
Qed.

Lemma iso_inj a b : is_iso a -> is_iso b -> day_of a = day_of b -> a = b.
Proof. intros Ha Hb H. rewrite <- (proj1 (is_iso_day a Ha)), <- (proj1 (is_iso_day b Hb)), H. reflexivity. Qed.

(** ** Moments *)

Definition MS_PER_DAY : Z := 86400000.

(** [at.toISOString().slice(0, 10)] of a moment in milliseconds. *)
Definition utc_day_string (ms : Z) : string :=
  let n := ms / MS_PER_DAY in
  padStart (print_int (getUTCFullYear n)) 4 "0" ++ "-" ++ pad2 (utc_month1 n) ++ "-" ++ pad2 (getUTCDate n).

(** [new Date(iso + 'T23:59:59Z').getTime()] of a date column. *)
Definition end_of_day_ms (iso : string) : Z := day_of iso * MS_PER_DAY + 86399000.

Lemma utc_day_string_iso ms : day4 (ms / MS_PER_DAY) -> utc_day_string ms = iso_of (ms / MS_PER_DAY).
Proof.
  intros H. apply day4_year4 in H. unfold utc_day_string, iso_of, fmt. fold pad2. f_equal.
  rewrite print_year by exact H. reflexivity.
Qed.
