(* ===== verification/QuoteMath.v ===== *)
(** * Quote totals ([packages/shared/src/utils/quoteMath.ts], [depositMath.ts])

    The totals of a quote as the API persists them and the editor previews
    them: cents per line, sums per cadence and category, tax, the amount due
    on acceptance, the deposit, and the pay-now rule. *)

From Stdlib Require Import QArith Qround Qabs Qpower Lqa.
From S2P Require Import Prelude JsString JsNumber Currency.

Local Open Scope string_scope.
Local Open Scope Z_scope.
Local Open Scope billing_scope.

(** ** Cents *)

(** [toCents(v)]; [None] is [null] or [undefined]. *)
Definition toCents (v : option amount) : num :=
  match v with
  | None => ofZ 0
  | Some (Str "") => ofZ 0
  | Some a =>
      let n := to_num a in
      if isFinite n then math_round (js_mul n (ofZ 100)) else ofZ 0
  end.

#[global] Arguments toCents : simpl never.
#[global] Arguments fixed2 : simpl never.

Definition fromCents (cents : num) : string := toFixed 2 (js_div cents (ofZ 100)).

Definition computeLineTotal (quantity unitPrice : amount) (currencyCode : string)
  : result string string := multiplyToCurrency quantity unitPrice currencyCode.

(** ** Data *)

Inductive QuoteDepositConfig :=
| deposit_none
| deposit_percent (percent : num)
| deposit_selected_lines.

Inductive QuoteDepositType := ty_none | ty_percent | ty_selected_lines.

(** The flat pair of columns as the union; a blank percent becomes [NaN]. *)
Definition toQuoteDepositConfig (type : option QuoteDepositType) (percent : option amount)
  : QuoteDepositConfig :=
  match type with
  | Some ty_percent =>
      let blank := match percent with
                   | None => true
                   | Some (Str s) => String.eqb (trim s) ""
                   | Some (Num _) => false
                   end in
      deposit_percent (if blank then NaN
                       else match percent with Some a => to_num a | None => NaN end)
  | Some ty_selected_lines => deposit_selected_lines
  | _ => deposit_none
  end.

Inductive Recurrence := one_time | monthly | annual.

Inductive ItemCategory := hardware | software | service | other.

Record QuoteLineForMath := {
  quantity : string;
  unitPrice : string;
  unitCost : option string;
  taxable : bool;
  customerVisible : bool;
  recurrence : Recurrence;
  depositEligible : option bool;
  itemType : option ItemCategory;
}.

Record QuoteCategorySubtotal := {
  category : ItemCategory;
  cat_oneTimeTotal : string;
  cat_monthlyTotal : string;
  cat_annualTotal : string;
}.

Record QuoteTotals := {
  subtotal : string;
  taxTotal : string;
  total : string;
  oneTimeTotal : string;
  monthlyRecurringTotal : string;
  annualRecurringTotal : string;
  dueOnAcceptanceTotal : string;
  depositDueTotal : option string;
  categoryBreakdown : list QuoteCategorySubtotal;
}.

(** ** The accumulators of the totals loop *)

Record Bucket := mkBucket { b_oneTime : num; b_monthly : num; b_annual : num }.

Definition empty_bucket : Bucket := mkBucket (ofZ 0) (ofZ 0) (ofZ 0).

Record Acc := mkAcc {
  a_oneTime : num; a_monthly : num; a_annual : num;
  a_taxableBasis : num; a_oneTimeTaxableBasis : num;
  a_eligible : num; a_eligibleTaxable : num;
  a_cat : ItemCategory -> option Bucket;
}.

Definition acc0 : Acc :=
  mkAcc (ofZ 0) (ofZ 0) (ofZ 0) (ofZ 0) (ofZ 0) (ofZ 0) (ofZ 0) (fun _ => None).

Definition cat_eqb (a b : ItemCategory) : bool :=
  match a, b with
  | hardware, hardware | software, software | service, service | other, other => true
  | _, _ => false
  end.

Definition is_one_time (r : Recurrence) : bool :=
  match r with one_time => true | _ => false end.

Definition add_to_bucket (r : Recurrence) (c : num) (b : Bucket) : Bucket :=
  match r with
  | monthly => mkBucket (b_oneTime b) (js_add (b_monthly b) c) (b_annual b)
  | annual => mkBucket (b_oneTime b) (b_monthly b) (js_add (b_annual b) c)
  | one_time => mkBucket (js_add (b_oneTime b) c) (b_monthly b) (b_annual b)
  end.

(** The category key of a line: [l.itemType ?? 'other']. *)
Definition line_category (l : QuoteLineForMath) : ItemCategory :=
  match itemType l with Some k => k | None => other end.

Definition is_eligible (l : QuoteLineForMath) : bool :=
  match depositEligible l with Some true => is_one_time (recurrence l) | _ => false end.

(** One iteration of the loop body for a visible line of [c] cents. *)
Definition add_line (l : QuoteLineForMath) (c : num) (a : Acc) : Acc :=
  let bump (b : bool) (x : num) := if b then js_add x c else x in
  let r := recurrence l in
  let key := line_category l in
  let bucket := match a_cat a key with Some b => b | None => empty_bucket end in
  mkAcc
    (bump (match r with one_time => true | _ => false end) (a_oneTime a))
    (bump (match r with monthly => true | _ => false end) (a_monthly a))
    (bump (match r with annual => true | _ => false end) (a_annual a))
    (bump (taxable l) (a_taxableBasis a))
    (bump (taxable l && is_one_time r) (a_oneTimeTaxableBasis a))
    (bump (is_eligible l) (a_eligible a))
    (bump (is_eligible l && taxable l) (a_eligibleTaxable a))
    (fun k => if cat_eqb k key then Some (add_to_bucket r c bucket) else a_cat a k).

Definition line_cents (currencyCode : string) (l : QuoteLineForMath) : result string num :=
  let! t := computeLineTotal (Str (quantity l)) (Str (unitPrice l)) currencyCode in
  Ok (toCents (Some (Str t))).

Fixpoint accumulate (currencyCode : string) (lines : list QuoteLineForMath) (a : Acc)
  : result string Acc :=
  match lines with
  | [] => Ok a
  | l :: rest =>
      if negb (customerVisible l) then accumulate currencyCode rest a
      else
        let! c := line_cents currencyCode l in
        accumulate currencyCode rest (add_line l c a)
  end.

(** [Math.floor(basis * rate + 0.5)]. *)
Definition tax_cents (basis rate : num) : num :=
  math_floor (js_add (js_mul basis rate) (Fin (1 # 2))).

Definition CATEGORY_ORDER : list ItemCategory := [hardware; software; service; other].

Definition round_cents_to (cents : num) (currencyCode : string) : result string string :=
  roundToCurrency (Num (js_div cents (ofZ 100))) currencyCode.

(** The deposit in cents before rounding; [None] is [null]. *)
Definition deposit_cents (deposit : option QuoteDepositConfig) (dueOnAcceptance eligible eligibleTaxable rate : num)
  : option num :=
  let raw :=
    match deposit with
    | Some (deposit_percent p) =>
        if isFinite p && js_gt p (ofZ 0)
        then Some (math_floor (js_add (js_mul dueOnAcceptance (js_div p (ofZ 100))) (Fin (1 # 2))))
        else None
    | Some deposit_selected_lines => Some (js_add eligible (tax_cents eligibleTaxable rate))
    | _ => None
    end in
  match raw with
  | Some d => if js_le d (ofZ 0) then None else Some d
  | None => None
  end.

(** The rounded deposit; a rounded zero is still no deposit. *)
Definition deposit_due (d : option num) (currencyCode : string) : result string (option string) :=
  match d with
  | None => Ok None
  | Some d =>
      let! s := round_cents_to d currencyCode in
      Ok (if js_gt (js_Number s) (ofZ 0) then Some s else None)
  end.

Fixpoint breakdown (cat : ItemCategory -> option Bucket) (currencyCode : string) (keys : list ItemCategory)
  : result string (list QuoteCategorySubtotal) :=
  match keys with
  | [] => Ok []
  | k :: ks =>
      match cat k with
      | None => breakdown cat currencyCode ks
      | Some b =>
          let! o := round_cents_to (b_oneTime b) currencyCode in
          let! m := round_cents_to (b_monthly b) currencyCode in
          let! y := round_cents_to (b_annual b) currencyCode in
          let! r := breakdown cat currencyCode ks in
          Ok ({| category := k; cat_oneTimeTotal := o; cat_monthlyTotal := m; cat_annualTotal := y |} :: r)
      end
  end.

Definition computeQuoteTotals (lines : list QuoteLineForMath) (taxRate : option num)
    (deposit : option QuoteDepositConfig) (currencyCode : string) : result string QuoteTotals :=
  let! a := accumulate currencyCode lines acc0 in
  let sub := js_add (js_add (a_oneTime a) (a_monthly a)) (a_annual a) in
  let rate := match taxRate with Some r => r | None => ofZ 0 end in
  let taxCents := tax_cents (a_taxableBasis a) rate in
  let oneTimeTaxCents := tax_cents (a_oneTimeTaxableBasis a) rate in
  let dueCents := js_add (a_oneTime a) oneTimeTaxCents in
  let depositCents := deposit_cents deposit dueCents (a_eligible a) (a_eligibleTaxable a) rate in
  let! depositDue := deposit_due depositCents currencyCode in
  let! s := round_cents_to sub currencyCode in
  let! t := round_cents_to taxCents currencyCode in
  let! tot := round_cents_to (js_add sub taxCents) currencyCode in
  let! o := round_cents_to (a_oneTime a) currencyCode in
  let! m := round_cents_to (a_monthly a) currencyCode in
  let! y := round_cents_to (a_annual a) currencyCode in
  let! due := round_cents_to dueCents currencyCode in
  let! cats := breakdown (a_cat a) currencyCode CATEGORY_ORDER in
  Ok {| subtotal := s; taxTotal := t; total := tot; oneTimeTotal := o;
        monthlyRecurringTotal := m; annualRecurringTotal := y;
        dueOnAcceptanceTotal := due; depositDueTotal := depositDue;
        categoryBreakdown := cats |}.

(** ** Deposit validation *)

Inductive DepositError :=
| DEPOSIT_REQUIRES_ONE_TIME_LINES
| DEPOSIT_PERCENT_INVALID
| DEPOSIT_NO_ELIGIBLE_LINES
| DEPOSIT_NOT_BELOW_TOTAL.

Inductive QuoteDepositValidation :=
| deposit_ok (depositDueTotal : option string)
| deposit_refused (code : DepositError) (message : string).

(** The outer [result] is a throw of the totals computation. *)
Definition validateQuoteDeposit (lines : list QuoteLineForMath) (taxRate : option num)
    (deposit : QuoteDepositConfig) (currencyCode : string) : result string QuoteDepositValidation :=
  match deposit with
  | deposit_none => Ok (deposit_ok None)
  | _ =>
      let! totals := computeQuoteTotals lines taxRate (Some deposit) currencyCode in
      let due := toCents (Some (Str (dueOnAcceptanceTotal totals))) in
      let depositCents :=
        match depositDueTotal totals with Some s => toCents (Some (Str s)) | None => ofZ 0 end in
      let tail :=
        if js_ge depositCents due then deposit_refused DEPOSIT_NOT_BELOW_TOTAL
          "Deposit must be less than the amount due on acceptance — remove the deposit instead"
        else deposit_ok (depositDueTotal totals) in
      Ok (if js_le due (ofZ 0) then deposit_refused DEPOSIT_REQUIRES_ONE_TIME_LINES
            "A deposit needs at least one one-time, customer-visible line"
          else match deposit with
               | deposit_percent pct =>
                   if negb (isFinite pct) || js_le pct (ofZ 0) || js_ge pct (ofZ 100)
                   then deposit_refused DEPOSIT_PERCENT_INVALID "Deposit percent must be between 0 and 100 (exclusive)"
                   else if js_le depositCents (ofZ 0) then
                     deposit_refused DEPOSIT_PERCENT_INVALID "Deposit percent is too small for this quote total"
                   else tail
               | _ =>
                   if js_le depositCents (ofZ 0) then
                     deposit_refused DEPOSIT_NO_ELIGIBLE_LINES "Flag at least one one-time line as deposit-eligible"
                   else tail
               end)
  end.

(** ** Markup, margin, profit *)

Definition markupPct (price : amount) (cost : option amount) : option num :=
  match cost with
  | None => None
  | Some (Str "") => None
  | Some ca =>
      let c := to_num ca in
      let p := to_num price in
      if negb (isFinite c) || js_le c (ofZ 0) || negb (isFinite p) then None
      else Some (js_mul (js_div (js_sub p c) c) (ofZ 100))
  end.

Definition priceFromMarkup (cost : amount) (markupPctValue : num) (currencyCode : string)
  : result string string :=
  let c := to_num cost in
  if negb (isFinite c) || negb (isFinite markupPctValue) then Ok "0.00"
  else roundToCurrency
         (Num (js_mul c (js_add (ofZ 1) (js_div markupPctValue (ofZ 100))))) currencyCode.

Record QuoteProfit := {
  oneTimeNet : string;
  monthlyRecurringNet : string;
  annualRecurringNet : string;
  totalCost : string;
  oneTimeRevenue : string;
  monthlyRecurringRevenue : string;
  annualRecurringRevenue : string;
  linesMissingCost : Z;
}.

Record ProfitAcc := mkProfit {
  p_net : Bucket; p_rev : Bucket; p_cost : num; p_missing : Z }.

Definition missing_cost (l : QuoteLineForMath) : bool :=
  match unitCost l with None => true | Some s => String.eqb s "" end.

(** [computeLineTotal(l.quantity, price)] with the default currency. *)
Definition usd_cents (l : QuoteLineForMath) (price : string) : result string num :=
  let! t := computeLineTotal (Str (quantity l)) (Str price) "USD" in
  Ok (toCents (Some (Str t))).

Fixpoint profit_loop (lines : list QuoteLineForMath) (a : ProfitAcc) : result string ProfitAcc :=
  match lines with
  | [] => Ok a
  | l :: rest =>
      if negb (customerVisible l) then profit_loop rest a
      else if missing_cost l then
        profit_loop rest (mkProfit (p_net a) (p_rev a) (p_cost a) (p_missing a + 1))
      else
        let! revenueCents := usd_cents l (unitPrice l) in
        let! costCents := usd_cents l (match unitCost l with Some s => s | None => "" end) in
        let netCents := js_sub revenueCents costCents in
        profit_loop rest
          (mkProfit (add_to_bucket (recurrence l) netCents (p_net a))
                    (add_to_bucket (recurrence l) revenueCents (p_rev a))
                    (js_add (p_cost a) costCents) (p_missing a))
  end.

Definition computeQuoteProfit (lines : list QuoteLineForMath) : result string QuoteProfit :=
  let! a := profit_loop lines (mkProfit empty_bucket empty_bucket (ofZ 0) 0) in
  Ok {| oneTimeNet := fromCents (b_oneTime (p_net a));
        monthlyRecurringNet := fromCents (b_monthly (p_net a));
        annualRecurringNet := fromCents (b_annual (p_net a));
        totalCost := fromCents (p_cost a);
        oneTimeRevenue := fromCents (b_oneTime (p_rev a));
        monthlyRecurringRevenue := fromCents (b_monthly (p_rev a));
        annualRecurringRevenue := fromCents (b_annual (p_rev a));
        linesMissingCost := p_missing a |}.

Definition marginPct (net revenue : amount) : option num :=
  let n := to_num net in
  let r := to_num revenue in
  if negb (isFinite n) || negb (isFinite r) || js_le r (ofZ 0) then None
  else Some (js_mul (js_div n r) (ofZ 100)).

(** ** The pay-now rule ([depositMath.ts]) *)

Record DepositChargeInput := {
  dc_depositDue : option string;
  dc_amountPaid : string;
  dc_balance : string;
}.

Definition computeChargeNow (inv : DepositChargeInput) (currencyCode : string)
  : result string (string * bool) :=
  let balanceCents := toCents (Some (Str (dc_balance inv))) in
  let depositCents := match dc_depositDue inv with Some s => toCents (Some (Str s)) | None => ofZ 0 end in
  let paidCents := toCents (Some (Str (dc_amountPaid inv))) in
  if js_gt depositCents (ofZ 0) && js_lt paidCents depositCents then
    let! s := round_cents_to (math_min (js_sub depositCents paidCents) balanceCents) currencyCode in
    Ok (s, true)
  else
    let! s := roundToCurrency (Str (dc_balance inv)) currencyCode in
    Ok (s, false).

(** ** Cents of stored strings *)

Lemma toCents_fixed2 c : Z.abs c <= cents_bound -> toCents (Some (Str (fixed2 c))) = ofZ c.
Proof.
  intros H. pose proof (fixed2_nospace c) as [_ Hne].
  unfold toCents. destruct (fixed2 c) as [|ch s] eqn:E; [congruence|]. rewrite <- E.
  simpl to_num. rewrite js_Number_fixed2. rewrite fin_cents by exact H. simpl isFinite. cbv iota.
  rewrite <- (fin_cents c H). apply (round_cents c H).
Qed.

Lemma fromCents_fixed2 c : Z.abs c <= cents_bound -> fromCents (ofZ c) = fixed2 c.
Proof. intros H. apply (toFixed_cents c H). Qed.

(** Whole minor units of the currency, counted in hundredths. *)
Definition whole_units (cur : string) (c : Z) : Prop :=
  exists m, c = minor_cents m (minorUnitExponent cur).

Lemma whole_units_usd cur c : minorUnitExponent cur = 2 -> whole_units cur c.
Proof.
  intros H. exists c. unfold minor_cents. rewrite H. change (10 ^ (2 - 2)) with 1. lia.
Qed.

Lemma whole_units_0 cur : whole_units cur 0.
Proof. exists 0. unfold minor_cents. lia. Qed.

Lemma whole_units_add cur a b : whole_units cur a -> whole_units cur b -> whole_units cur (a + b).
Proof. intros [m ->] [n ->]. exists (m + n). unfold minor_cents. lia. Qed.

(** Rounding a sum of whole units in doubles gives its exact string. *)
Lemma round_cents_exact cur c :
  Z.abs c < cents_bound -> whole_units cur c -> round_cents_to (ofZ c) cur = Ok (fixed2 c).
Proof.
  intros H [m Hm]. unfold round_cents_to.
  rewrite (roundToCurrency_parses _ _ _ (parses_cents c H)), Hm, minor_of_cents. reflexivity.
Qed.

(** ** Exactness of the accumulation *)

(** A visible line whose total is [c] hundredths. *)
Definition line_is (cur : string) (l : QuoteLineForMath) (c : Z) : Prop :=
  computeLineTotal (Str (quantity l)) (Str (unitPrice l)) cur = Ok (fixed2 c) /\ whole_units cur c.

Lemma line_is_parses cur l v w :
  parses (Str (quantity l)) v -> parses (Str (unitPrice l)) w ->
  line_is cur l (minor_cents (minor_of (v * w) (minorUnitExponent cur)) (minorUnitExponent cur)).
Proof.
  intros Hv Hw. split; [apply multiplyToCurrency_parses; assumption|].
  eexists. reflexivity.
Qed.

(** The visible lines of a quote with their cents, in order. *)
Inductive lines_are (cur : string) : list QuoteLineForMath -> list (QuoteLineForMath * Z) -> Prop :=
| la_nil : lines_are cur [] []
| la_skip l ls lcs :
    customerVisible l = false -> lines_are cur ls lcs -> lines_are cur (l :: ls) lcs
| la_cons l c ls lcs :
    customerVisible l = true -> line_is cur l c -> lines_are cur ls lcs ->
    lines_are cur (l :: ls) ((l, c) :: lcs).

(** The exact sum of the cents of the lines that satisfy [p]. *)
Definition sum_where (p : QuoteLineForMath -> bool) (lcs : list (QuoteLineForMath * Z)) : Z :=
  zsum (map (fun lc => if p (fst lc) then snd lc else 0) lcs).

Definition total_abs (lcs : list (QuoteLineForMath * Z)) : Z :=
  zsum (map (fun lc => Z.abs (snd lc)) lcs).

Definition is_rec (r : Recurrence) (l : QuoteLineForMath) : bool :=
  match r, recurrence l with
  | one_time, one_time | monthly, monthly | annual, annual => true
  | _, _ => false
  end.

Definition in_cat (k : ItemCategory) (l : QuoteLineForMath) : bool := cat_eqb k (line_category l).

Lemma sum_where_app p a b : sum_where p (a ++ b) = sum_where p a + sum_where p b.
Proof. unfold sum_where. rewrite map_app, zsum_app. reflexivity. Qed.

Lemma sum_where_one p l c : sum_where p [(l, c)] = if p l then c else 0.
Proof. unfold sum_where. simpl. lia. Qed.

Lemma sum_where_bound p lcs : Z.abs (sum_where p lcs) <= total_abs lcs.
Proof.
  induction lcs as [|[l c] r IH]; [reflexivity|].
  unfold sum_where, total_abs in *. simpl in *. destruct (p l); lia.
Qed.

Lemma sum_where_ext p p' lcs : (forall l, p l = p' l) -> sum_where p lcs = sum_where p' lcs.
Proof. intros H. unfold sum_where. f_equal. apply map_ext. intros [l c]. simpl. rewrite H. reflexivity. Qed.

Lemma total_abs_app a b : total_abs (a ++ b) = total_abs a + total_abs b.
Proof. unfold total_abs. rewrite map_app, zsum_app. reflexivity. Qed.

Lemma total_abs_nonneg lcs : 0 <= total_abs lcs.
Proof. induction lcs as [|[l c] r IH]; [reflexivity|]. unfold total_abs in *. simpl. lia. Qed.

Definition bucket_of (lcs : list (QuoteLineForMath * Z)) (k : ItemCategory) : Bucket :=
  let s r := ofZ (sum_where (fun l => in_cat k l && is_rec r l) lcs) in
  mkBucket (s one_time) (s monthly) (s annual).

Definition has_cat (lcs : list (QuoteLineForMath * Z)) (k : ItemCategory) : bool :=
  existsb (fun lc => in_cat k (fst lc)) lcs.

(** The accumulators hold the exact sums of the lines read so far. *)
Definition acc_ok (a : Acc) (lcs : list (QuoteLineForMath * Z)) : Prop :=
  a_oneTime a = ofZ (sum_where (is_rec one_time) lcs) /\
  a_monthly a = ofZ (sum_where (is_rec monthly) lcs) /\
  a_annual a = ofZ (sum_where (is_rec annual) lcs) /\
  a_taxableBasis a = ofZ (sum_where taxable lcs) /\
  a_oneTimeTaxableBasis a = ofZ (sum_where (fun l => taxable l && is_rec one_time l) lcs) /\
  a_eligible a = ofZ (sum_where is_eligible lcs) /\
  a_eligibleTaxable a = ofZ (sum_where (fun l => is_eligible l && taxable l) lcs) /\
  forall k, a_cat a k = if has_cat lcs k then Some (bucket_of lcs k) else None.

Lemma cents_int_bound : cents_bound < int_bound.
Proof. reflexivity. Qed.

Lemma bump_exact (p : QuoteLineForMath -> bool) lcs l c :
  total_abs (lcs ++ [(l, c)]) < cents_bound ->
  (if p l then js_add (ofZ (sum_where p lcs)) (ofZ c) else ofZ (sum_where p lcs))
  = ofZ (sum_where p (lcs ++ [(l, c)])).
Proof.
  intros H. pose proof (sum_where_bound p (lcs ++ [(l, c)])) as Hb. pose proof cents_int_bound.
  rewrite sum_where_app, sum_where_one in *. destruct (p l); [|f_equal; lia].
  apply js_add_int. lia.
Qed.

Lemma cat_eqb_refl k : cat_eqb k k = true.
Proof. destruct k; reflexivity. Qed.

Lemma cat_eqb_eq a b : cat_eqb a b = true -> a = b.
Proof. destruct a, b; simpl; congruence. Qed.

Lemma bucket_none lcs k : has_cat lcs k = false -> bucket_of lcs k = empty_bucket.
Proof.
  intros H. unfold bucket_of.
  assert (forall r, sum_where (fun l => in_cat k l && is_rec r l) lcs = 0) as E.
  { intros r. induction lcs as [|[l c] rest IH]; [reflexivity|].
    simpl in H. apply orb_false_iff in H as [H1 H2].
    unfold sum_where in *. simpl in *. rewrite H1. simpl. rewrite IH by exact H2. reflexivity. }
  rewrite !E. reflexivity.
Qed.

Lemma cat_step lcs l c k :
  total_abs (lcs ++ [(l, c)]) < cents_bound ->
  in_cat k l = true ->
  add_to_bucket (recurrence l) (ofZ c) (bucket_of lcs k) = bucket_of (lcs ++ [(l, c)]) k.
Proof.
  intros H Hk. unfold bucket_of.
  assert (forall r, ofZ (sum_where (fun l => in_cat k l && is_rec r l) (lcs ++ [(l, c)])) =
    if is_rec r l then js_add (ofZ (sum_where (fun l => in_cat k l && is_rec r l) lcs)) (ofZ c)
    else ofZ (sum_where (fun l => in_cat k l && is_rec r l) lcs)) as E.
  { intros r. rewrite <- (bump_exact (fun l => in_cat k l && is_rec r l)) by exact H.
    simpl. rewrite Hk. reflexivity. }
  rewrite !E. unfold is_rec. destruct (recurrence l); reflexivity.
Qed.

Lemma add_line_ok a lcs l c :
  acc_ok a lcs -> total_abs (lcs ++ [(l, c)]) < cents_bound ->
  acc_ok (add_line l (ofZ c) a) (lcs ++ [(l, c)]).
Proof.
  intros (H1 & H2 & H3 & H4 & H5 & H6 & H7 & H8) Hb. unfold acc_ok, add_line. simpl.
  rewrite H1, H2, H3, H4, H5, H6, H7.
  repeat split;
    try (rewrite <- bump_exact by exact Hb; unfold is_rec, is_one_time;
         destruct (recurrence l); reflexivity).
  intros k. rewrite !H8.
  assert (has_cat (lcs ++ [(l, c)]) k = has_cat lcs k || in_cat k l) as ->
    by (unfold has_cat; rewrite existsb_app; simpl; rewrite orb_false_r; reflexivity).
  fold (in_cat k l).
  destruct (in_cat k l) eqn:Ek.
  - rewrite orb_true_r. apply cat_eqb_eq in Ek as Ek'. subst k. f_equal.
    destruct (has_cat lcs (line_category l)) eqn:Eh.
    + apply cat_step; assumption.
    + rewrite <- (bucket_none _ _ Eh). apply cat_step; assumption.
  - rewrite orb_false_r. destruct (has_cat lcs k) eqn:Eh; [|reflexivity]. f_equal.
      unfold bucket_of. f_equal; f_equal; rewrite sum_where_app, sum_where_one, Ek; simpl; lia.
Qed.

(** Reading the lines computes the exact sums. *)
Lemma accumulate_exact cur lines lcs :
  lines_are cur lines lcs -> forall a pre,
  acc_ok a pre -> total_abs (pre ++ lcs) < cents_bound ->
  exists a', accumulate cur lines a = Ok a' /\ acc_ok a' (pre ++ lcs).
Proof.
  induction 1 as [|l ls lcs Hv _ IH|l c ls lcs Hv [Hl Hw] _ IH]; intros a pre Ha Hb.
  - exists a. rewrite app_nil_r. auto.
  - simpl. rewrite Hv. apply IH; assumption.
  - simpl. rewrite Hv. simpl. unfold line_cents. rewrite Hl. simpl rbind.
    assert (Hb' : total_abs (pre ++ [(l, c)]) < cents_bound).
    { change ((l, c) :: lcs) with ([(l, c)] ++ lcs)%list in Hb. rewrite app_assoc, total_abs_app in Hb.
      pose proof (total_abs_nonneg lcs). lia. }
    rewrite toCents_fixed2.
    2: { rewrite total_abs_app in Hb'. pose proof (total_abs_nonneg pre).
         unfold total_abs at 2 in Hb'. simpl in Hb'. lia. }
    change ((l, c) :: lcs) with ([(l, c)] ++ lcs)%list. rewrite app_assoc.
    apply IH; [apply add_line_ok; assumption|].
    rewrite <- app_assoc. exact Hb.
Qed.

Lemma acc0_ok : acc_ok acc0 [].
Proof. unfold acc_ok, acc0. simpl. repeat split. Qed.

Lemma lines_are_whole cur lines lcs p :
  lines_are cur lines lcs -> whole_units cur (sum_where p lcs).
Proof.
  induction 1 as [|l ls lcs Hv _ IH|l c ls lcs Hv [Hl Hw] _ IH]; [apply whole_units_0|exact IH|].
  change ((l, c) :: lcs) with ([(l, c)] ++ lcs)%list. rewrite sum_where_app, sum_where_one.
  apply whole_units_add; [|exact IH]. destruct (p l); [exact Hw|apply whole_units_0].
Qed.

(** ** Tax *)

(** The integer [Math.floor(B * r + 0.5)] computes in doubles. *)
Definition tax_int (B : Z) (r : Q) : Z := Qfloor (rnd (rnd (inject_Z B * r) + (1 # 2))).

Lemma abs_mult_le (B : Z) (r : Q) (K M : Q) :
  (Qabs (inject_Z B) <= M -> 0 <= r <= K -> Qabs (inject_Z B * r) <= K * M)%Q.
Proof.
  intros HB Hr. rewrite Qabs_Qmult, (Qabs_pos r) by lra.
  pose proof (Qabs_nonneg (inject_Z B)). nra.
Qed.

Lemma small_two_1000 (x : Q) : (x <= 1000000000000000000 -> x <= two ^ 1000)%Q.
Proof.
  intros H. assert (two ^ 60 <= two ^ 1000)%Q by (apply two_mono; lia).
  change (two ^ 60)%Q with 1152921504606846976%Q in *. lra.
Qed.

Lemma abs_inject_le B M : Z.abs B <= M -> (Qabs (inject_Z B) <= inject_Z M)%Q.
Proof. intros H. rewrite Qabs_int, <- Zle_Qle. exact H. Qed.

(** The tax computation on integers, for rates (and deposit fractions) up to 3. *)
Lemma tax_cents_int B r :
  Z.abs B <= cents_bound -> (0 <= r <= 3)%Q -> tax_cents (ofZ B) (Fin r) = ofZ (tax_int B r).
Proof.
  intros HB Hr. unfold tax_cents.
  assert (HB' : (Qabs (inject_Z B) <= 1000000000000000)%Q)
    by (apply (abs_inject_le _ _ HB)).
  pose proof (abs_mult_le B r _ _ HB' Hr) as H1.
  simpl js_mul. rewrite fin_small by (apply small_two_1000; lra).
  simpl js_add.
  assert (E : (Qred (rnd (inject_Z B * r)) + (1 # 2) == rnd (inject_Z B * r) + (1 # 2))%Q)
    by (rewrite Qred_correct; reflexivity).
  rewrite (fin_eq _ _ E). rewrite fin_small.
  - simpl. unfold ofZ, tax_int. do 2 f_equal. apply Qfloor_comp, Qred_correct.
  - pose proof (rnd_abs_bound (inject_Z B * r)) as Hb. apply small_two_1000.
    eapply Qle_trans; [apply Qabs_triangle|]. change (Qabs (1 # 2)) with (1 # 2). lra.
Qed.

Lemma tax_int_bound B r K :
  (0 <= r <= inject_Z K)%Q -> Z.abs (tax_int B r) <= 4 * K * Z.abs B + 6.
Proof.
  intros Hr. unfold tax_int.
  pose proof (abs_mult_le B r _ _ (Qle_refl _) Hr) as H1.
  pose proof (rnd_abs_bound (inject_Z B * r)) as H2.
  set (y := rnd (inject_Z B * r)) in *.
  pose proof (rnd_abs_bound (y + (1 # 2))) as H3.
  pose proof (Qabs_triangle y (1 # 2)) as H4. change (Qabs (1 # 2)) with (1 # 2) in H4.
  set (z := rnd (y + (1 # 2))) in *.
  rewrite Qabs_int, <- inject_Z_mult in H1.
  assert (Hz : (Qabs z <= 4 * inject_Z (K * Z.abs B) + 4)%Q) by lra.
  apply Qabs_Qle_condition in Hz.
  pose proof (Qfloor_le z) as Hl. pose proof (Qlt_floor z) as Hu.
  rewrite inject_Z_plus in Hu. change (inject_Z 1) with 1%Q in Hu.
  assert (inject_Z (Qfloor z) <= inject_Z (4 * (K * Z.abs B) + 6))%Q as Ha
    by (rewrite inject_Z_plus, (inject_Z_mult 4); change (inject_Z 4) with 4%Q; change (inject_Z 6) with 6%Q; lra).
  assert (inject_Z (- (4 * (K * Z.abs B) + 6)) <= inject_Z (Qfloor z))%Q as Hb
    by (rewrite inject_Z_opp, inject_Z_plus, (inject_Z_mult 4); change (inject_Z 4) with 4%Q; change (inject_Z 6) with 6%Q; lra).
  rewrite <- Zle_Qle in Ha, Hb. lia.
Qed.

Lemma rate_le_3 r : (0 <= r <= 1)%Q -> (0 <= r <= 3)%Q.
Proof. intros. lra. Qed.

(** ** The totals of a quote *)

(** [c] hundredths rounded half-up at the currency's minor unit. *)
Definition money (cur : string) (c : Z) : string :=
  fixed2 (minor_cents (minor_of (centsQ c) (minorUnitExponent cur)) (minorUnitExponent cur)).

Lemma money_whole cur c : whole_units cur c -> money cur c = fixed2 c.
Proof. intros [m ->]. unfold money. rewrite minor_of_cents. reflexivity. Qed.

Lemma round_cents_money cur c :
  Z.abs c < cents_bound -> round_cents_to (ofZ c) cur = Ok (money cur c).
Proof. intros H. apply roundToCurrency_parses, parses_cents, H. Qed.

(** The largest document the exactness results cover: 10^13 hundredths. *)
Definition doc_bound : Z := 10 ^ 13.

Definition rate_is (taxRate : option num) (r : Q) : Prop :=
  (taxRate = None /\ r = inject_Z 0 \/ taxRate = Some (Fin r)) /\ (0 <= r <= 1)%Q.

Lemma rate_is_num taxRate r :
  rate_is taxRate r -> match taxRate with Some x => x | None => ofZ 0 end = Fin r.
Proof. intros [[[-> ->] | ->] _]; reflexivity. Qed.

(** The breakdown lists the categories that have a visible line, in order. *)
Definition breakdown_of (cur : string) (lcs : list (QuoteLineForMath * Z)) : list QuoteCategorySubtotal :=
  map (fun k =>
         let s r := fixed2 (sum_where (fun l => in_cat k l && is_rec r l) lcs) in
         {| category := k; cat_oneTimeTotal := s one_time;
            cat_monthlyTotal := s monthly; cat_annualTotal := s annual |})
      (filter (has_cat lcs) CATEGORY_ORDER).

Lemma breakdown_exact cur lines lcs cat keys :
  lines_are cur lines lcs -> total_abs lcs < cents_bound ->
  (forall k, cat k = if has_cat lcs k then Some (bucket_of lcs k) else None) ->
  breakdown cat cur keys =
  Ok (map (fun k =>
         let s r := fixed2 (sum_where (fun l => in_cat k l && is_rec r l) lcs) in
         {| category := k; cat_oneTimeTotal := s one_time;
            cat_monthlyTotal := s monthly; cat_annualTotal := s annual |})
      (filter (has_cat lcs) keys)).
Proof.
  intros Hl Hb Hc. induction keys as [|k ks IH]; [reflexivity|].
  cbn [breakdown filter]. rewrite Hc. destruct (has_cat lcs k); [|exact IH].
  unfold bucket_of. cbn [b_oneTime b_monthly b_annual].
  assert (forall r, round_cents_to (ofZ (sum_where (fun l => in_cat k l && is_rec r l) lcs)) cur =
    Ok (fixed2 (sum_where (fun l => in_cat k l && is_rec r l) lcs))) as E.
  { intros r. apply round_cents_exact; [|apply (lines_are_whole cur lines), Hl].
    pose proof (sum_where_bound (fun l => in_cat k l && is_rec r l) lcs). lia. }
  rewrite !E. cbn [rbind]. rewrite IH. reflexivity.
Qed.

(** The sums [computeQuoteTotals] reports for lines of known cents. *)
Definition totals_of (cur : string) (lcs : list (QuoteLineForMath * Z)) (r : Q)
    (dep : option string) : QuoteTotals :=
  let sum p := sum_where p lcs in
  let sub := sum (is_rec one_time) + sum (is_rec monthly) + sum (is_rec annual) in
  let tax := tax_int (sum taxable) r in
  let tax1 := tax_int (sum (fun l => taxable l && is_rec one_time l)) r in
  {| subtotal := fixed2 sub;
     taxTotal := money cur tax;
     total := money cur (sub + tax);
     oneTimeTotal := fixed2 (sum (is_rec one_time));
     monthlyRecurringTotal := fixed2 (sum (is_rec monthly));
     annualRecurringTotal := fixed2 (sum (is_rec annual));
     dueOnAcceptanceTotal := money cur (sum (is_rec one_time) + tax1);
     depositDueTotal := dep;
     categoryBreakdown := breakdown_of cur lcs |}.

Lemma sum_split lcs :
  sum_where (is_rec one_time) lcs + sum_where (is_rec monthly) lcs + sum_where (is_rec annual) lcs
  = sum_where (fun _ => true) lcs.
Proof.
  induction lcs as [|[l c] r IH]; [reflexivity|].
  unfold sum_where, zsum, is_rec in *. cbn [map fold_right fst snd].
  destruct (recurrence l); lia.
Qed.

Lemma sum_pair_bound lcs :
  Z.abs (sum_where (is_rec one_time) lcs + sum_where (is_rec monthly) lcs) <= total_abs lcs.
Proof.
  replace (sum_where (is_rec one_time) lcs + sum_where (is_rec monthly) lcs)
    with (sum_where (fun l => negb (is_rec annual l)) lcs); [apply sum_where_bound|].
  induction lcs as [|[l c] r IH]; [reflexivity|].
  unfold sum_where, zsum, is_rec in *. cbn [map fold_right fst snd].
  destruct (recurrence l); cbn [negb]; lia.
Qed.

(** The bounds under which every sum and tax of a document is exact. *)
Lemma doc_sums lcs r :
  total_abs lcs <= doc_bound -> (0 <= r <= 1)%Q ->
  let ot := sum_where (is_rec one_time) lcs in
  let mo := sum_where (is_rec monthly) lcs in
  let an := sum_where (is_rec annual) lcs in
  let t := tax_int (sum_where taxable lcs) r in
  let t1 := tax_int (sum_where (fun l => taxable l && is_rec one_time l) lcs) r in
  Z.abs ot < cents_bound /\ Z.abs mo < cents_bound /\ Z.abs an < cents_bound /\
  Z.abs t < cents_bound /\ Z.abs (ot + mo) < cents_bound /\ Z.abs (ot + mo + an) < cents_bound /\
  Z.abs (ot + t1) < cents_bound /\ Z.abs (ot + mo + an + t) < cents_bound.
Proof.
  intros Hb Hr. unfold doc_bound in Hb. cbv zeta.
  pose proof (sum_where_bound (is_rec one_time) lcs) as B1.
  pose proof (sum_where_bound (is_rec monthly) lcs) as B2.
  pose proof (sum_where_bound (is_rec annual) lcs) as B3.
  pose proof (sum_where_bound taxable lcs) as B4.
  pose proof (sum_where_bound (fun l => taxable l && is_rec one_time l) lcs) as B5.
  pose proof (sum_pair_bound lcs) as B6.
  pose proof (sum_where_bound (fun _ => true) lcs) as B7. rewrite <- sum_split in B7.
  pose proof (tax_int_bound (sum_where taxable lcs) r 1 Hr) as X1.
  pose proof (tax_int_bound (sum_where (fun l => taxable l && is_rec one_time l) lcs) r 1 Hr) as X2.
  unfold cents_bound. repeat split; lia.
Qed.

Lemma js_add_cents a b : Z.abs (a + b) < cents_bound -> js_add (ofZ a) (ofZ b) = ofZ (a + b).
Proof. intros H. apply js_add_int. pose proof cents_int_bound. lia. Qed.

Lemma sum_where_cents p lcs : total_abs lcs <= doc_bound -> Z.abs (sum_where p lcs) <= cents_bound.
Proof.
  intros H. pose proof (sum_where_bound p lcs). unfold doc_bound, cents_bound in *. lia.
Qed.

(** Everything but the deposit: the totals follow from the exact sums. *)
Lemma computeQuoteTotals_core cur lines lcs taxRate r deposit dep :
  lines_are cur lines lcs -> total_abs lcs <= doc_bound -> rate_is taxRate r ->
  deposit_due (deposit_cents deposit
    (ofZ (sum_where (is_rec one_time) lcs +
          tax_int (sum_where (fun l => taxable l && is_rec one_time l) lcs) r))
    (ofZ (sum_where is_eligible lcs))
    (ofZ (sum_where (fun l => is_eligible l && taxable l) lcs)) (Fin r)) cur = Ok dep ->
  computeQuoteTotals lines taxRate deposit cur = Ok (totals_of cur lcs r dep).
Proof.
  intros Hl Hb Hr Hdep. pose proof (rate_is_num _ _ Hr) as Hrate. destruct Hr as [_ Hr01].
  assert (Hcb : total_abs lcs < cents_bound) by (unfold doc_bound, cents_bound in *; lia).
  destruct (accumulate_exact cur lines lcs Hl acc0 [] acc0_ok Hcb) as (a & Ha & Hok).
  cbn [app] in Hok. destruct Hok as (H1 & H2 & H3 & H4 & H5 & H6 & H7 & H8).
  destruct (doc_sums lcs r Hb Hr01) as (B1 & B2 & B3 & B4 & B5 & B6 & B7 & B8).
  unfold computeQuoteTotals. rewrite Ha. cbn [rbind].
  rewrite H1, H2, H3, H4, H5, H6, H7, Hrate.
  rewrite !tax_cents_int by (first [apply sum_where_cents; assumption | apply rate_le_3; assumption]).
  rewrite (js_add_cents _ _ B5), (js_add_cents _ _ B6), (js_add_cents _ _ B7), (js_add_cents _ _ B8).
  rewrite Hdep. cbn [rbind].
  rewrite !round_cents_money by assumption. cbn [rbind].
  rewrite (breakdown_exact cur lines lcs _ _ Hl Hcb H8). cbn [rbind].
  pose proof (fun p => lines_are_whole cur lines lcs p Hl) as W.
  unfold totals_of, breakdown_of. cbv zeta.
  rewrite (money_whole cur _ (W (is_rec one_time))), (money_whole cur _ (W (is_rec monthly))),
    (money_whole cur _ (W (is_rec annual))).
  rewrite (money_whole cur (_ + _ + sum_where (is_rec annual) lcs))
    by (repeat apply whole_units_add; apply W).
  reflexivity.
Qed.
