(* ===== verification/QuoteSpec.v ===== *)
(** * What the quote arithmetic promises

    The totals, the deposit, the tax rounding, the pay-now amount and the
    profit figures of [QuoteMath], stated on exact integers. *)

From Stdlib Require Import QArith Qround Qabs Qpower Lqa.
From S2P Require Import Prelude JsString JsNumber Currency QuoteMath.

Local Open Scope string_scope.
Local Open Scope Z_scope.
Local Open Scope billing_scope.

(** ** The deposit on integers *)

(** [c] hundredths at the currency's minor unit, in hundredths. *)
Definition money_cents (cur : string) (c : Z) : Z :=
  minor_cents (minor_of (centsQ c) (minorUnitExponent cur)) (minorUnitExponent cur).

Lemma money_eq cur c : money cur c = fixed2 (money_cents cur c).
Proof. reflexivity. Qed.

(** A positive deposit that is still positive after rounding. *)
Definition deposit_string (cur : string) (d : Z) : option string :=
  if d <=? 0 then None
  else if 0 <? money_cents cur d then Some (money cur d) else None.

(** The fraction of the due amount a percent deposit asks for, as a double. *)
Definition percent_rate (p : Q) : Q := Qred (rnd (p / 100)).

(** The deposit the totals report for lines of known cents. *)
Definition deposit_of (cur : string) (lcs : list (QuoteLineForMath * Z)) (r : Q)
    (deposit : option QuoteDepositConfig) : option string :=
  let due := sum_where (is_rec one_time) lcs +
             tax_int (sum_where (fun l => taxable l && is_rec one_time l) lcs) r in
  match deposit with
  | Some (deposit_percent (Fin p)) =>
      if negb (Qle_bool p 0)
      then deposit_string cur (tax_int due (percent_rate p)) else None
  | Some deposit_selected_lines =>
      deposit_string cur (sum_where is_eligible lcs +
        tax_int (sum_where (fun l => is_eligible l && taxable l) lcs) r)
  | _ => None
  end.

(** A percent is not above 100 (or is not a number at all). *)
Definition percent_ok (deposit : option QuoteDepositConfig) : Prop :=
  match deposit with
  | Some (deposit_percent (Fin p)) => (p <= 100)%Q
  | _ => True
  end.

Lemma js_gt_fixed2 c : Z.abs c <= cents_bound -> js_gt (js_Number (fixed2 c)) (ofZ 0) = (0 <? c).
Proof.
  intros H. rewrite js_Number_fixed2, fin_cents by exact H. unfold js_gt, js_lt, ofZ.
  assert (0 < c <-> (inject_Z 0 < Qred (rnd (centsQ c)))%Q) as E.
  { rewrite Qred_correct. change (inject_Z 0) with 0%Q. split; [apply rnd_cents_pos|]. intros E.
    destruct (Z.lt_trichotomy c 0) as [Hc|[->|Hc]]; [| |exact Hc].
    - pose proof (rnd_cents_neg c) as Hn. rewrite (proj2 (Z.ltb_lt c 0)) in Hn by lia.
      apply Z.ltb_lt in Hn. unfold Qlt in E. simpl in E. nia.
    - rewrite rnd_of_zero in E by reflexivity. lra. }
  pose proof (Qle_bool_iff (Qred (rnd (centsQ c))) (inject_Z 0)) as Hle.
  destruct (Z.ltb_spec 0 c) as [Hc|Hc], (Qle_bool (Qred (rnd (centsQ c))) (inject_Z 0)); try reflexivity.
  - apply E in Hc. assert (Qred (rnd (centsQ c)) <= inject_Z 0)%Q by (apply Hle; reflexivity). lra.
  - assert (~ (Qred (rnd (centsQ c)) <= inject_Z 0)%Q) as Hn by (intros F; apply Hle in F; discriminate F).
    apply Qnot_le_lt, E in Hn. lia.
Qed.

Lemma money_cents_near cur c : Z.abs (money_cents cur c - c) <= 50.
Proof.
  unfold money_cents, minor_cents. destruct (minorUnitExponent_cases cur) as [-> | ->].
  - change (10 ^ (2 - 0)) with 100. unfold minor_of.
    assert (centsQ c * ten ^ 0 == inject_Z c / inject_Z 100)%Q as ->
      by (unfold centsQ; change (ten ^ 0)%Q with 1%Q; change (inject_Z 100) with 100%Q; field).
    rewrite half_up_frac by lia. pose proof (Z.div_mod c 100 ltac:(lia)).
    pose proof (Z.mod_pos_bound c 100 ltac:(lia)). destruct (Z.leb_spec 100 (c mod 100 * 2)); lia.
  - change (10 ^ (2 - 2)) with 1. rewrite Z.mul_1_r. unfold minor_of.
    assert (centsQ c * ten ^ 2 == inject_Z c)%Q as ->
      by (unfold centsQ; change (ten ^ 2)%Q with 100%Q; field).
    rewrite half_up_int. lia.
Qed.

Lemma deposit_due_int cur d :
  Z.abs d + 50 < cents_bound ->
  deposit_due (if js_le (ofZ d) (ofZ 0) then None else Some (ofZ d)) cur = Ok (deposit_string cur d).
Proof.
  intros H. unfold deposit_string. rewrite js_le_int. destruct (d <=? 0); [reflexivity|].
  unfold deposit_due. rewrite round_cents_money by lia. cbn [rbind].
  rewrite money_eq, js_gt_fixed2.
  - destruct (0 <? money_cents cur d); reflexivity.
  - pose proof (money_cents_near cur d). lia.
Qed.

Lemma percent_rate_bound p : (0 < p <= 100)%Q -> (0 <= percent_rate p <= 3)%Q.
Proof.
  intros H. unfold percent_rate. rewrite Qred_correct.
  assert (Hp : (0 < p / 100)%Q) by (apply Qlt_shift_div_l; lra).
  assert (Hp1 : (p / 100 <= 1)%Q) by (apply Qle_shift_div_r; lra).
  rewrite rnd_of_pos by exact Hp. pose proof (rnd_pos_bound (p / 100) Hp). lra.
Qed.

Lemma deposit_exact cur lcs r deposit :
  total_abs lcs <= doc_bound -> (0 <= r <= 1)%Q -> percent_ok deposit ->
  deposit_due (deposit_cents deposit
    (ofZ (sum_where (is_rec one_time) lcs +
          tax_int (sum_where (fun l => taxable l && is_rec one_time l) lcs) r))
    (ofZ (sum_where is_eligible lcs))
    (ofZ (sum_where (fun l => is_eligible l && taxable l) lcs)) (Fin r)) cur
  = Ok (deposit_of cur lcs r deposit).
Proof.
  intros Hb Hr Hp. unfold doc_bound in Hb.
  pose proof (sum_where_bound (is_rec one_time) lcs) as B1.
  pose proof (sum_where_bound (fun l => taxable l && is_rec one_time l) lcs) as B2.
  pose proof (sum_where_bound is_eligible lcs) as B3.
  pose proof (sum_where_bound (fun l => is_eligible l && taxable l) lcs) as B4.
  pose proof (tax_int_bound (sum_where (fun l => taxable l && is_rec one_time l) lcs) r 1 Hr) as X1.
  pose proof (tax_int_bound (sum_where (fun l => is_eligible l && taxable l) lcs) r 1 Hr) as X2.
  destruct deposit as [[|p|]|]; try reflexivity.
  - destruct p as [|ng|p]; try reflexivity. unfold deposit_of, deposit_cents. cbn [isFinite andb].
    unfold js_gt, js_lt, ofZ at 1. change (inject_Z 0) with 0%Q.
    destruct (Qle_bool p 0) eqn:Ep; [reflexivity|]. cbn [negb].
    assert (E : (0 < p)%Q) by (apply Qnot_le_lt; rewrite <- Qle_bool_iff; congruence).
    simpl percent_ok in Hp. pose proof (percent_rate_bound p (conj E Hp)) as Hpr.
    assert (js_div (Fin p) (ofZ 100) = Fin (percent_rate p)) as ->.
    { unfold js_div, ofZ. simpl. rewrite fin_small; [reflexivity|]. apply small_two_1000.
      change (inject_Z 100) with 100%Q. assert (Hd : (0 < p / 100)%Q) by (apply Qlt_shift_div_l; lra).
      rewrite Qabs_pos by lra. apply Qle_shift_div_r; lra. }
    match goal with |- context [math_floor ?e] =>
      change (math_floor e) with (tax_cents (ofZ (sum_where (is_rec one_time) lcs +
        tax_int (sum_where (fun l => taxable l && is_rec one_time l) lcs) r)) (Fin (percent_rate p))) end.
    rewrite tax_cents_int by (assumption || (unfold cents_bound; lia)).
    apply deposit_due_int.
    pose proof (tax_int_bound (sum_where (is_rec one_time) lcs +
      tax_int (sum_where (fun l => taxable l && is_rec one_time l) lcs) r) _ 3 Hpr).
    unfold cents_bound. lia.
  - unfold deposit_of, deposit_cents.
    rewrite tax_cents_int by (apply rate_le_3, Hr || (unfold cents_bound; lia)).
    rewrite js_add_int by (unfold int_bound; lia).
    apply deposit_due_int. unfold cents_bound. lia.
Qed.

(** ** The totals *)

(** Lines whose quantity and price parse have their cents. *)
Lemma lines_are_parsed cur lines :
  Forall (fun l => customerVisible l = true ->
    exists x y, parseDecimal (Str (quantity l)) = Ok x /\ parseDecimal (Str (unitPrice l)) = Ok y) lines ->
  exists lcs, lines_are cur lines lcs.
Proof.
  induction 1 as [|l ls H _ [lcs IH]]; [exists []; constructor|].
  destruct (customerVisible l) eqn:Ev.
  - destruct (H eq_refl) as (x & y & Hx & Hy). eexists (_ :: lcs). constructor; [exact Ev| |exact IH].
    apply line_is_parses; apply parsed; eassumption.
  - exists lcs. constructor; assumption.
Qed.

(** C35: The totals of a quote are exact: for visible lines worth [lcs] cents
    (document up to 10^13 cents, tax rate between 0 and 1, deposit percent at
    most 100), [computeQuoteTotals] succeeds and every figure it reports is the
    exact integer sum, per cadence, per category and overall, plus the tax in
    cents, formatted at the currency's minor unit; the subtotal is the sum of
    all visible lines. *)
Theorem quote_totals_exact cur lines lcs taxRate r deposit :
  lines_are cur lines lcs -> total_abs lcs <= doc_bound -> rate_is taxRate r -> percent_ok deposit ->
  computeQuoteTotals lines taxRate deposit cur =
    Ok (totals_of cur lcs r (deposit_of cur lcs r deposit)) /\
  subtotal (totals_of cur lcs r (deposit_of cur lcs r deposit)) =
    fixed2 (sum_where (fun _ => true) lcs).
Proof.
  intros Hl Hb Hr Hp. split.
  - apply (computeQuoteTotals_core cur lines); try assumption.
    apply deposit_exact; [assumption|apply Hr|assumption].
  - simpl. rewrite sum_split. reflexivity.
Qed.

(** A taxable one-time line and a monthly line. *)
Definition demo_lines : list QuoteLineForMath :=
  [ {| quantity := "2"; unitPrice := "150.00"; unitCost := Some "100.00"; taxable := true; customerVisible := true;
       recurrence := one_time; depositEligible := Some true; itemType := Some hardware |};
    {| quantity := "3"; unitPrice := "19.99"; unitCost := None; taxable := false; customerVisible := true;
       recurrence := monthly; depositEligible := None; itemType := None |};
    {| quantity := "x"; unitPrice := "1"; unitCost := None; taxable := true; customerVisible := false;
       recurrence := annual; depositEligible := None; itemType := None |} ].

Definition demo_cents : list (QuoteLineForMath * Z) :=
  combine demo_lines [30000; 5997].

Lemma demo_lines_are : lines_are "USD" demo_lines demo_cents.
Proof.
  assert (forall c, whole_units "USD" c) as W by (intros; apply whole_units_usd; reflexivity).
  repeat (first [apply la_nil | apply la_skip; [reflexivity|] | apply la_cons; [reflexivity|split; [reflexivity|apply W]|]]).
Qed.

Lemma quote_totals_exact_witness :
  exists t, computeQuoteTotals demo_lines (Some (Fin (1 # 8))) (Some deposit_selected_lines) "USD" = Ok t /\
    subtotal t = "359.97" /\ taxTotal t = "37.50" /\ dueOnAcceptanceTotal t = "337.50" /\
    depositDueTotal t = Some "337.50".
Proof.
  eexists. split.
  - apply (quote_totals_exact "USD" demo_lines demo_cents (Some (Fin (1 # 8))) (1 # 8)); [exact demo_lines_are| | |exact I].
    + unfold total_abs, doc_bound. simpl. lia.
    + split; [right; reflexivity|split; unfold Qle; simpl; lia].
  - vm_compute. repeat split; reflexivity.
Defined.

(** ** Tax rounding *)

(** The rate columns hold five decimals: a rate is [k] hundred-thousandths. *)
Definition rate5 (k : Z) : Q := inject_Z k / 100000.

Lemma grid_floor (v z : Q) (j : Z) :
  (v == inject_Z j / 100000 -> Qabs (z - v) < 1 # 100000 ->
   Qfloor z = Qfloor v \/ (v == inject_Z (Qfloor v) /\ Qfloor z = (Qfloor v - 1)%Z))%Q.
Proof.
  intros Hv Hz. apply Qabs_Qlt_condition in Hz.
  pose proof (Qfloor_le v) as Hl. pose proof (Qlt_floor v) as Hu.
  rewrite inject_Z_plus in Hu. change (inject_Z 1) with 1%Q in Hu.
  set (f := Qfloor v) in *.
  assert (Hj : (inject_Z j == v * 100000)%Q) by (rewrite Hv; field).
  assert (Hgap : (inject_Z f * 100000 <= inject_Z j)%Q) by lra.
  change 100000%Q with (inject_Z 100000) in Hgap. rewrite <- inject_Z_mult, <- Zle_Qle in Hgap.
  assert (Hup : (inject_Z j < (inject_Z f + 1) * inject_Z 100000)%Q)
    by (change (inject_Z 100000) with 100000%Q; lra).
  change 1%Q with (inject_Z 1) in Hup. rewrite <- inject_Z_plus, <- inject_Z_mult, <- Zlt_Qlt in Hup.
  assert (Hj1 : (inject_Z j <= inject_Z ((f + 1) * 100000 - 1))%Q) by (rewrite <- Zle_Qle; lia).
  unfold Z.sub in Hj1. rewrite inject_Z_plus, inject_Z_mult, inject_Z_plus in Hj1.
  change (inject_Z 1) with 1%Q in Hj1. change (inject_Z 100000) with 100000%Q in Hj1.
  change (inject_Z (- (1))) with (-1)%Q in Hj1.
  destruct (Z.eq_dec j (f * 100000)) as [E|E].
  - assert (Hvf : (v == inject_Z f)%Q)
      by (rewrite Hv, E, inject_Z_mult; change (inject_Z 100000) with 100000%Q; field).
    destruct (Qlt_le_dec z (inject_Z f)) as [Hzf|Hzf]; [right|left].
    + split; [exact Hvf|]. apply Qfloor_spec.
      * unfold Z.sub. rewrite inject_Z_plus. change (inject_Z (- (1))) with (-1)%Q. lra.
      * replace (f - 1 + 1) with f by lia. exact Hzf.
    + apply Qfloor_spec; [exact Hzf|]. rewrite inject_Z_plus. change (inject_Z 1) with 1%Q. lra.
  - left. assert (Hj0 : (inject_Z (f * 100000 + 1) <= inject_Z j)%Q) by (rewrite <- Zle_Qle; lia).
    rewrite inject_Z_plus, inject_Z_mult in Hj0.
    change (inject_Z 1) with 1%Q in Hj0. change (inject_Z 100000) with 100000%Q in Hj0.
    apply Qfloor_spec; [lra|]. rewrite inject_Z_plus. change (inject_Z 1) with 1%Q. lra.
Qed.

(** A double of a value that is zero or at least a millionth. *)
Lemma rnd_near q :
  (q == 0 \/ 1 # 1000000 <= q)%Q -> (q * (1 - ulp_bound) <= rnd q <= q * (1 + ulp_bound))%Q.
Proof.
  intros H. assert (Hn : normal q).
  { destruct H as [H|H]; [left; exact H|right].
    assert (two ^ (-1022) <= two ^ (-20))%Q by (apply two_mono; lia).
    change (two ^ (-20))%Q with (1 # 1048576)%Q in *. rewrite Qabs_pos by lra. lra. }
  pose proof (rnd_err q Hn) as He. pose proof u53_small as Hu. fold ulp_bound in Hu.
  assert (Hq : (0 <= q)%Q) by (destruct H; lra).
  rewrite (Qabs_pos q) in He by exact Hq. apply Qabs_near_bounds in He.
  assert (q * two ^ (-53) <= q * ulp_bound)%Q by nra. lra.
Qed.

Lemma rate5_bounds k : 0 <= k <= 100000 -> (rate5 k == 0 \/ 1 # 100000 <= rate5 k)%Q /\ (0 <= rate5 k <= 1)%Q.
Proof.
  intros H. unfold rate5.
  assert (H1 : (inject_Z 0 <= inject_Z k <= inject_Z 100000)%Q) by (rewrite <- !Zle_Qle; lia).
  change (inject_Z 0) with 0%Q in H1. change (inject_Z 100000) with 100000%Q in H1.
  split; [|split; [apply Qle_shift_div_l|apply Qle_shift_div_r]; lra].
  destruct (Z.eq_dec k 0) as [->|Hk]; [left; reflexivity|right].
  assert (H2 : (inject_Z 1 <= inject_Z k)%Q) by (rewrite <- Zle_Qle; lia).
  change (inject_Z 1) with 1%Q in H2. apply Qle_shift_div_l; lra.
Qed.

(** The double product is within three roundings of the exact one. *)
Lemma tax_double_error B k :
  0 <= B <= 10 ^ 10 -> 0 <= k <= 100000 ->
  let v := (inject_Z B * rate5 k + (1 # 2))%Q in
  (Qabs (rnd (rnd (inject_Z B * rnd (rate5 k)) + (1 # 2)) - v) < 1 # 100000)%Q.
Proof.
  intros HB Hk v. destruct (rate5_bounds k Hk) as [HR0 HR].
  pose proof (rnd_near (rate5 k) ltac:(lra)) as H1. set (R := rate5 k) in *. set (r := rnd R) in *.
  assert (HBQ : (inject_Z B == 0 \/ 1 <= inject_Z B)%Q /\ (0 <= inject_Z B <= 10000000000)%Q).
  { change 10000000000%Q with (inject_Z (10 ^ 10)). change 0%Q with (inject_Z 0). change 1%Q with (inject_Z 1).
    rewrite <- !Zle_Qle. split; [|lia]. destruct (Z.eq_dec B 0) as [->|]; [left; reflexivity|right; lia]. }
  destruct HBQ as [HB0 HBQ]. clearbody r R. subst v. set (b := inject_Z B) in *. clearbody b.
  assert (HbR : (0 <= b * R <= 10000000000)%Q) by nra.
  assert (H2 : (b * R * (1 - ulp_bound) <= b * r <= b * R * (1 + ulp_bound))%Q) by (split; nra).
  assert (H3 : (b * r == 0 \/ 1 # 1000000 <= b * r)%Q).
  { destruct HB0 as [E|E]; [left; rewrite E; ring|]. destruct HR0 as [E'|E'].
    - left. assert (r == 0)%Q as -> by (rewrite E' in H1; lra). ring.
    - right. unfold ulp_bound in *. assert (b * r >= 1 * (1 # 200000))%Q by nra. lra. }
  pose proof (rnd_near _ H3) as H4. set (x := (b * r)%Q) in *. clearbody x. set (y := rnd x) in *. clearbody y.
  assert (Hy : (0 <= y)%Q) by (unfold ulp_bound in *; nra).
  pose proof (rnd_near (y + (1 # 2)) ltac:(lra)) as H5. set (z := rnd (y + (1 # 2))) in *. clearbody z.
  set (t := (b * R)%Q) in *. clearbody t. unfold ulp_bound in *. apply Qabs_Qlt_condition. lra.
Qed.

(** The tax [Math.floor(basis * rate + 0.5)] on the exact values. *)
Lemma tax_int_half_up B k :
  0 <= B <= 10 ^ 10 -> 0 <= k <= 100000 ->
  let exact := (inject_Z B * rate5 k)%Q in
  tax_int B (Qred (rnd (rate5 k))) = half_up exact \/
  (exact + (1 # 2) == inject_Z (half_up exact))%Q /\
  tax_int B (Qred (rnd (rate5 k))) = half_up exact - 1.
Proof.
  intros HB Hk exact.
  assert (tax_int B (Qred (rnd (rate5 k))) = Qfloor (rnd (rnd (inject_Z B * rnd (rate5 k)) + (1 # 2)))) as ->.
  { unfold tax_int. apply Qfloor_comp. apply rnd_proper. rewrite (rnd_proper _ (inject_Z B * rnd (rate5 k))%Q); [reflexivity|].
    rewrite Qred_correct. reflexivity. }
  apply (grid_floor _ _ (B * k + 50000)); [|apply tax_double_error; assumption].
  unfold exact, rate5. rewrite inject_Z_plus, inject_Z_mult. change (inject_Z 50000) with 50000%Q. field.
Qed.

Lemma fin_rate5 k : 0 <= k <= 100000 -> fin (rate5 k) = Fin (Qred (rnd (rate5 k))).
Proof.
  intros H. destruct (rate5_bounds k H) as [_ H1]. apply fin_small, small_two_1000.
  rewrite Qabs_pos; lra.
Qed.

(** C39: The tax of a basis of up to 10^10 cents at a five-decimal rate between
    0 and 1, computed in doubles as [Math.floor(basis * rate + 0.5)], is the
    exact product rounded half-up, except that on an exact half-cent tie it may
    be one cent lower; it is never off by more, and never off without a tie. *)
Theorem tax_half_up_up_to_ties B k :
  0 <= B <= 10 ^ 10 -> 0 <= k <= 100000 ->
  exists t, tax_cents (ofZ B) (fin (rate5 k)) = ofZ t /\
    (t = half_up (inject_Z B * rate5 k) \/
     (inject_Z B * rate5 k + (1 # 2) == inject_Z (half_up (inject_Z B * rate5 k)))%Q /\
     t = half_up (inject_Z B * rate5 k) - 1).
Proof.
  intros HB Hk. exists (tax_int B (Qred (rnd (rate5 k)))). split; [|apply tax_int_half_up; assumption].
  rewrite (fin_rate5 k Hk). apply tax_cents_int.
  - unfold cents_bound. lia.
  - rewrite Qred_correct. destruct (rate5_bounds k Hk) as [H0 H1].
    pose proof (rnd_near (rate5 k) ltac:(lra)) as Hn. unfold ulp_bound in Hn. nra.
Qed.

Lemma tax_half_up_up_to_ties_witness :
  exists t, tax_cents (ofZ 12345) (fin (rate5 8250)) = ofZ t /\
    (t = half_up (inject_Z 12345 * rate5 8250) \/
     (inject_Z 12345 * rate5 8250 + (1 # 2) == inject_Z (half_up (inject_Z 12345 * rate5 8250)))%Q /\
     t = half_up (inject_Z 12345 * rate5 8250) - 1).
Proof. apply (tax_half_up_up_to_ties 12345 8250); lia. Defined.

Definition tie_line : QuoteLineForMath :=
  {| quantity := "1"; unitPrice := "1.00"; unitCost := None; taxable := true; customerVisible := true;
     recurrence := one_time; depositEligible := None; itemType := None |}.

(** The tie of the previous property is reached: one taxable line of 1.00
    at a tax rate of 0.145 is taxed 0.14 by [computeQuoteTotals], where the
    half-up product of the exact decimal helper [multiplyToCurrency] is 0.15. *)
Theorem quote_tax_loses_exact_tie :
  exists t, computeQuoteTotals [tie_line] (Some (js_Number "0.145")) None "USD" = Ok t /\
    taxTotal t = "0.14" /\ multiplyToCurrency (Str "1.00") (Str "0.145") "USD" = Ok "0.15".
Proof. eexists. split; [vm_compute; reflexivity|]. split; vm_compute; reflexivity. Qed.

(** ** Deposits *)

Definition due_cents (cur : string) (lcs : list (QuoteLineForMath * Z)) (r : Q) : Z :=
  money_cents cur (sum_where (is_rec one_time) lcs +
    tax_int (sum_where (fun l => taxable l && is_rec one_time l) lcs) r).

Lemma due_cents_bound cur lcs r :
  total_abs lcs <= doc_bound -> (0 <= r <= 1)%Q -> Z.abs (due_cents cur lcs r) <= cents_bound.
Proof.
  intros Hb Hr. unfold due_cents, doc_bound in *.
  pose proof (sum_where_bound (is_rec one_time) lcs).
  pose proof (sum_where_bound (fun l => taxable l && is_rec one_time l) lcs).
  pose proof (tax_int_bound (sum_where (fun l => taxable l && is_rec one_time l) lcs) r 1 Hr).
  match goal with |- Z.abs (money_cents _ ?c) <= _ => pose proof (money_cents_near cur c) end.
  unfold cents_bound. lia.
Qed.

(** The deposit of selected lines, in hundredths, before the positivity test. *)
Definition selected_cents (lcs : list (QuoteLineForMath * Z)) (r : Q) : Z :=
  sum_where is_eligible lcs + tax_int (sum_where (fun l => is_eligible l && taxable l) lcs) r.

Lemma selected_cents_bound cur lcs r :
  total_abs lcs <= doc_bound -> (0 <= r <= 1)%Q -> Z.abs (money_cents cur (selected_cents lcs r)) <= cents_bound.
Proof.
  intros Hb Hr. unfold selected_cents, doc_bound in *.
  pose proof (sum_where_bound is_eligible lcs).
  pose proof (sum_where_bound (fun l => is_eligible l && taxable l) lcs).
  pose proof (tax_int_bound (sum_where (fun l => is_eligible l && taxable l) lcs) r 1 Hr).
  match goal with |- Z.abs (money_cents _ ?c) <= _ => pose proof (money_cents_near cur c) end.
  unfold cents_bound. lia.
Qed.

Lemma money_cents_nonpos cur d : d <= 0 -> money_cents cur d <= 0.
Proof.
  intros H. unfold money_cents, minor_cents. destruct (minorUnitExponent_cases cur) as [-> | ->].
  - change (10 ^ (2 - 0)) with 100. unfold minor_of.
    assert (centsQ d * ten ^ 0 == inject_Z d / inject_Z 100)%Q as ->
      by (unfold centsQ; change (ten ^ 0)%Q with 1%Q; change (inject_Z 100) with 100%Q; field).
    rewrite half_up_frac by lia. pose proof (Z.div_mod d 100 ltac:(lia)).
    pose proof (Z.mod_pos_bound d 100 ltac:(lia)). destruct (Z.leb_spec 100 (d mod 100 * 2)); lia.
  - change (10 ^ (2 - 2)) with 1. unfold minor_of.
    assert (centsQ d * ten ^ 2 == inject_Z d)%Q as ->
      by (unfold centsQ; change (ten ^ 2)%Q with 100%Q; field).
    rewrite half_up_int. lia.
Qed.

Lemma deposit_string_cases cur d :
  deposit_string cur d = None /\ money_cents cur d <= 0 \/
  deposit_string cur d = Some (money cur d) /\ 0 < money_cents cur d.
Proof.
  unfold deposit_string. pose proof (money_cents_nonpos cur d).
  destruct (Z.leb_spec d 0); [left; auto|].
  destruct (Z.ltb_spec 0 (money_cents cur d)); [right|left]; auto.
Qed.

(** A deposit on selected lines is accepted exactly when its amount (the
    eligible one-time lines plus their tax) is positive and strictly below the
    amount due on acceptance, and the accepted deposit is that amount; the
    refusals are the three other cases, in the order the code tests them. *)
Theorem selected_deposit_validation cur lines lcs taxRate r :
  lines_are cur lines lcs -> total_abs lcs <= doc_bound -> rate_is taxRate r ->
  let due := due_cents cur lcs r in
  let d := money_cents cur (selected_cents lcs r) in
  validateQuoteDeposit lines taxRate deposit_selected_lines cur =
    Ok (if due <=? 0 then
          deposit_refused DEPOSIT_REQUIRES_ONE_TIME_LINES "A deposit needs at least one one-time, customer-visible line"
        else if d <=? 0 then
          deposit_refused DEPOSIT_NO_ELIGIBLE_LINES "Flag at least one one-time line as deposit-eligible"
        else if due <=? d then
          deposit_refused DEPOSIT_NOT_BELOW_TOTAL
            "Deposit must be less than the amount due on acceptance — remove the deposit instead"
        else deposit_ok (Some (fixed2 d))).
Proof.
  intros Hl Hb Hr due d. pose proof (due_cents_bound cur lcs r Hb (proj2 Hr)) as Hd.
  pose proof (selected_cents_bound cur lcs r Hb (proj2 Hr)) as Hs.
  unfold validateQuoteDeposit.
  rewrite (computeQuoteTotals_core cur lines lcs taxRate r (Some deposit_selected_lines) _ Hl Hb Hr
             (deposit_exact cur lcs r (Some deposit_selected_lines) Hb (proj2 Hr) I)). cbn [rbind].
  unfold totals_of, deposit_of. cbn [dueOnAcceptanceTotal depositDueTotal]. fold (selected_cents lcs r).
  rewrite money_eq. fold (due_cents cur lcs r). fold due in Hd |- *. fold d in Hs |- *.
  rewrite toCents_fixed2 by exact Hd. rewrite js_le_int. destruct (due <=? 0); [reflexivity|].
  destruct (deposit_string_cases cur (selected_cents lcs r)) as [[-> Hd0]|[-> Hd0]]; fold d in Hd0.
  - rewrite (proj2 (Z.leb_le d 0)) by exact Hd0. reflexivity.
  - rewrite money_eq. fold d. rewrite toCents_fixed2 by exact Hs. unfold js_ge. rewrite !js_le_int.
    rewrite (proj2 (Z.leb_gt d 0)) by exact Hd0. destruct (due <=? d); reflexivity.
Qed.

Lemma selected_deposit_validation_witness :
  validateQuoteDeposit (tie_line :: demo_lines) None deposit_selected_lines "USD" = Ok (deposit_ok (Some "300.00")).
Proof.
  rewrite (selected_deposit_validation "USD" (tie_line :: demo_lines) ((tie_line, 100) :: demo_cents) None (inject_Z 0)).
  - reflexivity.
  - apply la_cons; [reflexivity|split; [reflexivity|apply whole_units_usd; reflexivity]|exact demo_lines_are].
  - unfold total_abs, doc_bound. simpl. lia.
  - split; [left; split; reflexivity|split; unfold Qle; simpl; lia].
Defined.

(** ** The pay-now rule *)

Lemma charge_pay_now cur d p b :
  Z.abs d < 10 ^ 14 -> Z.abs p < 10 ^ 14 -> Z.abs b < 10 ^ 14 ->
  computeChargeNow {| dc_depositDue := Some (fixed2 d); dc_amountPaid := fixed2 p; dc_balance := fixed2 b |} cur =
  Ok (if (0 <? d) && (p <? d) then (money cur (Z.min (d - p) b), true) else (money cur b, false)).
Proof.
  intros Hd Hp Hb. unfold computeChargeNow. cbn [dc_balance dc_depositDue dc_amountPaid].
  rewrite !toCents_fixed2 by (unfold cents_bound; lia).
  unfold js_gt. rewrite !js_lt_int. destruct ((0 <? d) && (p <? d)).
  - rewrite js_sub_int by (unfold int_bound; lia). rewrite math_min_int.
    rewrite round_cents_money by (unfold cents_bound; lia). reflexivity.
  - rewrite (roundToCurrency_parses _ _ _ (parses_fixed2 b)). reflexivity.
Qed.

(** The amount a customer is asked to pay now, for an invoice whose
    deposit, paid amount and balance are whole minor units: while a deposit is
    outstanding it is the unpaid part of the deposit capped by the balance, so
    the payments never pass the deposit; otherwise it is the balance.  It never
    exceeds the balance, and is positive whenever the balance is. *)
Theorem charge_now_bounds cur d p b :
  Z.abs d < 10 ^ 14 -> Z.abs p < 10 ^ 14 -> Z.abs b < 10 ^ 14 ->
  whole_units cur d -> whole_units cur p -> whole_units cur b ->
  exists c isDeposit,
    computeChargeNow {| dc_depositDue := Some (fixed2 d); dc_amountPaid := fixed2 p; dc_balance := fixed2 b |} cur
      = Ok (fixed2 c, isDeposit) /\
    isDeposit = (0 <? d) && (p <? d) /\
    c <= b /\ (0 < b -> 0 < c) /\
    (if isDeposit then p + c <= d else c = b).
Proof.
  intros Hd Hp Hb Wd Wp Wb. rewrite charge_pay_now by assumption.
  destruct ((0 <? d) && (p <? d)) eqn:E.
  - apply andb_true_iff in E as [E1 E2]. apply Z.ltb_lt in E1, E2.
    exists (Z.min (d - p) b), true. rewrite money_whole; [repeat split; lia|].
    destruct (Z.min_spec (d - p) b) as [[_ ->]|[_ ->]]; [|exact Wb].
    destruct Wd as [x ->], Wp as [y ->]. exists (x - y). unfold minor_cents. lia.
  - exists b, false. rewrite money_whole by exact Wb. repeat split; lia.
Qed.

Lemma charge_now_bounds_witness :
  exists c isDeposit,
    computeChargeNow {| dc_depositDue := Some (fixed2 50000); dc_amountPaid := fixed2 20000; dc_balance := fixed2 80000 |} "USD"
      = Ok (fixed2 c, isDeposit) /\
    isDeposit = (0 <? 50000) && (20000 <? 50000) /\
    c <= 80000 /\ (0 < 80000 -> 0 < c) /\
    (if isDeposit then 20000 + c <= 50000 else c = 80000).
Proof. apply (charge_now_bounds "USD" 50000 20000 80000); (lia || (apply whole_units_usd; reflexivity)). Defined.

(** ** Profit *)

(** The visible lines with a cost: cadence, revenue and cost in cents, and the
    number of visible lines without one. *)
Inductive profit_lines : list QuoteLineForMath -> list (Recurrence * Z * Z) -> Z -> Prop :=
| pl_nil : profit_lines [] [] 0
| pl_hidden l ls ps n : customerVisible l = false -> profit_lines ls ps n -> profit_lines (l :: ls) ps n
| pl_missing l ls ps n :
    customerVisible l = true -> missing_cost l = true -> profit_lines ls ps n ->
    profit_lines (l :: ls) ps (1 + n)
| pl_line l ls ps n s rev cost :
    customerVisible l = true -> unitCost l = Some s -> s <> "" ->
    computeLineTotal (Str (quantity l)) (Str (unitPrice l)) "USD" = Ok (fixed2 rev) ->
    computeLineTotal (Str (quantity l)) (Str s) "USD" = Ok (fixed2 cost) ->
    profit_lines ls ps n -> profit_lines (l :: ls) ((recurrence l, rev, cost) :: ps) n.

Definition rec_eqb (a b : Recurrence) : bool :=
  match a, b with one_time, one_time | monthly, monthly | annual, annual => true | _, _ => false end.

Definition rev_of (k : Recurrence) (ps : list (Recurrence * Z * Z)) : Z :=
  zsum (map (fun p => if rec_eqb k (fst (fst p)) then snd (fst p) else 0) ps).
Definition cost_of (k : Recurrence) (ps : list (Recurrence * Z * Z)) : Z :=
  zsum (map (fun p => if rec_eqb k (fst (fst p)) then snd p else 0) ps).
Definition profit_abs (ps : list (Recurrence * Z * Z)) : Z :=
  zsum (map (fun p => Z.abs (snd (fst p)) + Z.abs (snd p)) ps).

Definition bucket_Z (f : Recurrence -> Z) : Bucket :=
  mkBucket (ofZ (f one_time)) (ofZ (f monthly)) (ofZ (f annual)).

Lemma rev_of_app k a b : rev_of k (a ++ b) = rev_of k a + rev_of k b.
Proof. unfold rev_of. rewrite map_app, zsum_app. reflexivity. Qed.
Lemma cost_of_app k a b : cost_of k (a ++ b) = cost_of k a + cost_of k b.
Proof. unfold cost_of. rewrite map_app, zsum_app. reflexivity. Qed.
Lemma profit_abs_app a b : profit_abs (a ++ b) = profit_abs a + profit_abs b.
Proof. unfold profit_abs. rewrite map_app, zsum_app. reflexivity. Qed.

(** Gives a name to every sum in the goal and hypotheses. *)
Ltac name_sums :=
  repeat match goal with |- context [fold_right Z.add 0 ?l] =>
    let x := fresh "sum" in set (x := fold_right Z.add 0 l) in *; clearbody x end.

Lemma profit_bounds ps : 0 <= profit_abs ps /\
  (forall k, Z.abs (rev_of k ps) + Z.abs (cost_of k ps) <= profit_abs ps) /\
  Z.abs (cost_of one_time ps + cost_of monthly ps + cost_of annual ps) <= profit_abs ps.
Proof.
  induction ps as [|[[k r] c] ps (IH0 & IH1 & IH2)].
  - split; [reflexivity|]. split; [intros []|]; reflexivity.
  - unfold rev_of, cost_of, profit_abs in *. cbn [map fst snd zsum fold_right] in *. unfold zsum in *.
    split; [lia|]. split.
    + intros k'. specialize (IH1 k'). destruct (rec_eqb k' k); lia.
    + name_sums. destruct k; cbn [rec_eqb]; lia.
Qed.

Lemma add_to_bucket_Z (f : Recurrence -> Z) k c :
  Z.abs (f k + c) < int_bound ->
  add_to_bucket k (ofZ c) (bucket_Z f) = bucket_Z (fun k' => f k' + if rec_eqb k' k then c else 0).
Proof.
  intros H. unfold bucket_Z. destruct k; cbn [add_to_bucket b_oneTime b_monthly b_annual rec_eqb];
    rewrite js_add_int by exact H; rewrite !Z.add_0_r; reflexivity.
Qed.

Lemma bucket_Z_ext f g : (forall k, f k = g k) -> bucket_Z f = bucket_Z g.
Proof. intros H. unfold bucket_Z. rewrite !H. reflexivity. Qed.

Definition profit_state (ps : list (Recurrence * Z * Z)) (n : Z) : ProfitAcc :=
  mkProfit (bucket_Z (fun k => rev_of k ps - cost_of k ps)) (bucket_Z (fun k => rev_of k ps))
           (ofZ (cost_of one_time ps + cost_of monthly ps + cost_of annual ps)) n.

Lemma profit_loop_exact lines ps n :
  profit_lines lines ps n -> forall pre m, profit_abs (pre ++ ps) <= doc_bound ->
  profit_loop lines (profit_state pre m) = Ok (profit_state (pre ++ ps) (m + n)).
Proof.
  induction 1 as [|l ls ps n Hv _ IH|l ls ps n Hv Hm _ IH|l ls ps n s rev cost Hv Hc Hs Hr Hk _ IH];
    intros pre m Hb; cbn [profit_loop].
  - rewrite app_nil_r, Z.add_0_r. reflexivity.
  - rewrite Hv. apply IH, Hb.
  - rewrite Hv, Hm. cbn [negb p_net p_rev p_cost p_missing profit_state].
    change (mkProfit _ _ _ (m + 1)) with (profit_state pre (m + 1)).
    rewrite (IH pre (m + 1) Hb). do 2 f_equal. lia.
  - rewrite Hv. cbn [negb]. assert (missing_cost l = false) as ->.
    { unfold missing_cost. rewrite Hc. apply String.eqb_neq, Hs. }
    unfold usd_cents. rewrite Hc, Hr, Hk. cbn [rbind].
    change ((recurrence l, rev, cost) :: ps) with ([(recurrence l, rev, cost)] ++ ps)%list in *.
    rewrite app_assoc in Hb |- *. rewrite <- (IH _ m Hb). rewrite profit_abs_app in Hb.
    destruct (profit_bounds ps) as (Hp0 & _). unfold doc_bound in Hb.
    destruct (profit_bounds (pre ++ [(recurrence l, rev, cost)])) as (_ & Hx & Hy).
    destruct (profit_bounds pre) as (Hq0 & Hq & _).
    assert (Z.abs rev <= 10 ^ 13 /\ Z.abs cost <= 10 ^ 13) as [Hrb Hcb].
    { rewrite profit_abs_app in Hb. unfold profit_abs in Hb at 2. simpl in Hb. lia. }
    rewrite !toCents_fixed2 by (unfold cents_bound; lia).
    rewrite js_sub_int by (unfold int_bound; lia). f_equal. unfold profit_state.
    cbn [p_net p_rev p_cost p_missing].
    specialize (Hq (recurrence l)). rewrite profit_abs_app in Hb.
    assert (profit_abs [(recurrence l, rev, cost)] = Z.abs rev + Z.abs cost) as E
      by (unfold profit_abs; simpl; lia).
    rewrite !add_to_bucket_Z by (unfold int_bound; lia).
    rewrite js_add_int.
    + f_equal; [apply bucket_Z_ext..|]; try intros k; rewrite ?rev_of_app, ?cost_of_app; unfold rev_of, cost_of;
        cbn [map zsum fold_right fst snd]; unfold zsum; try (destruct (rec_eqb k (recurrence l)); lia).
      f_equal. destruct (recurrence l); simpl; lia.
    + rewrite !cost_of_app in Hy. unfold int_bound. destruct (profit_bounds pre) as (_ & _ & Hz).
      rewrite profit_abs_app in Hx, Hy. lia.
Qed.

(** The profit figures are exact: over the visible lines that carry a cost
    (documents up to 10^13 cents), every net figure is the revenue of its
    cadence minus its cost, the total cost is the sum over the cadences, and
    the visible lines without a cost are counted and left out. *)
Theorem quote_profit_exact lines ps n :
  profit_lines lines ps n -> profit_abs ps <= doc_bound ->
  computeQuoteProfit lines = Ok
    {| oneTimeNet := fixed2 (rev_of one_time ps - cost_of one_time ps);
       monthlyRecurringNet := fixed2 (rev_of monthly ps - cost_of monthly ps);
       annualRecurringNet := fixed2 (rev_of annual ps - cost_of annual ps);
       totalCost := fixed2 (cost_of one_time ps + cost_of monthly ps + cost_of annual ps);
       oneTimeRevenue := fixed2 (rev_of one_time ps);
       monthlyRecurringRevenue := fixed2 (rev_of monthly ps);
       annualRecurringRevenue := fixed2 (rev_of annual ps);
       linesMissingCost := n |}.
Proof.
  intros Hl Hb. unfold computeQuoteProfit.
  change (mkProfit empty_bucket empty_bucket (ofZ 0) 0) with (profit_state [] 0).
  rewrite (profit_loop_exact lines ps n Hl [] 0 Hb). cbn [rbind app]. unfold profit_state.
  cbn [p_net p_rev p_cost p_missing bucket_Z b_oneTime b_monthly b_annual].
  destruct (profit_bounds ps) as (_ & Hk & Hc). unfold doc_bound in Hb.
  pose proof (Hk one_time). pose proof (Hk monthly). pose proof (Hk annual).
  rewrite !fromCents_fixed2 by (unfold cents_bound; lia). reflexivity.
Qed.

Lemma quote_profit_exact_witness :
  exists p, computeQuoteProfit demo_lines = Ok p /\ oneTimeNet p = "100.00" /\ linesMissingCost p = 1.
Proof.
  eexists. split.
  - apply (quote_profit_exact demo_lines [(one_time, 30000, 20000)] (1 + 0)).
    + apply pl_line with (s := "100.00"); try reflexivity; try discriminate.
      apply pl_missing; try reflexivity. apply pl_hidden; [reflexivity|]. apply pl_nil.
    + unfold profit_abs, doc_bound. simpl. lia.
  - split; reflexivity.
Defined.
