(* ===== verification/InvoiceMath.v ===== *)
(** * Invoice totals ([apps/api/src/services/invoiceMath.ts], [taxRateResolver.ts])

    The totals of an invoice's lines, the effective tax rate, and the status an
    invoice derives from its totals, payments and due date. *)

From Stdlib Require Import QArith Qround Qabs Qpower Lqa.
From S2P Require Import Prelude JsString JsNumber Currency IsoDate QuoteMath QuoteSpec.

Local Open Scope string_scope.
Local Open Scope Z_scope.
Local Open Scope billing_scope.

(** ** The code *)

(** [toCents(v)]: unlike the quote helper, a non-finite amount stays NaN. *)
Definition toCents (v : option amount) : num :=
  match v with
  | None => ofZ 0
  | Some (Str "") => ofZ 0
  | Some a => math_round (js_mul (to_num a) (ofZ 100))
  end.

#[global] Arguments toCents : simpl never.

Definition fromCents (cents : num) : string := toFixed 2 (js_div cents (ofZ 100)).

Definition roundHalfUp (n : num) : num := math_floor (js_add n (Fin (1 # 2))).

Definition computeLineTotal (quantity unitPrice currencyCode : string) : result string string :=
  multiplyToCurrency (Str quantity) (Str unitPrice) currencyCode.

Record TotalsLine := mkTotalsLine {
  tl_lineTotal : string;
  tl_taxable : bool;
  tl_customerVisible : bool;
}.

Record InvoiceTotals := mkInvoiceTotals { it_subtotal : string; it_taxTotal : string; it_total : string }.

(** The loop: subtotal and taxable cents of the visible lines. *)
Fixpoint sum_lines (lines : list TotalsLine) (acc : num * num) : num * num :=
  match lines with
  | [] => acc
  | l :: rest =>
      if negb (tl_customerVisible l) then sum_lines rest acc
      else
        let c := toCents (Some (Str (tl_lineTotal l))) in
        sum_lines rest
          (js_add (fst acc) c, if tl_taxable l then js_add (snd acc) c else snd acc)
  end.

Definition computeInvoiceTotals (lines : list TotalsLine) (taxRate : option string) (currencyCode : string)
  : result string InvoiceTotals :=
  let '(subtotalCents, taxableCents) := sum_lines lines (ofZ 0, ofZ 0) in
  let rate := match taxRate with
              | Some s => if String.eqb s "" then ofZ 0 else js_Number s
              | None => ofZ 0
              end in
  let taxCents := roundHalfUp (js_mul taxableCents rate) in
  let! subtotal := roundToCurrency (Num (js_div subtotalCents (ofZ 100))) currencyCode in
  let! taxTotal := roundToCurrency (Num (js_div taxCents (ofZ 100))) currencyCode in
  let! total := roundToCurrency (Num (js_add (js_Number subtotal) (js_Number taxTotal))) currencyCode in
  Ok (mkInvoiceTotals subtotal taxTotal total).

Definition resolveEffectiveTaxRate (taxExempt : bool) (orgRate partnerRate : option string) : string :=
  if taxExempt then "0.00000"
  else
    let rate := match orgRate with
                | Some r => r
                | None => match partnerRate with Some r => r | None => "0" end
                end in
    toFixed 5 (js_Number rate).

(** The organization row, when the caller may see it, and the partner's rate. *)
Record OrgTax := mkOrgTax { ot_taxExempt : bool; ot_taxRate : option string }.

Inductive TaxError := OrgNotVisibleForTaxError.

(** [resolveOrgTaxRate]: the two reads are arguments; a missing organization
    row fails before the partner's rate is used. *)
Definition resolveOrgTaxRate (org : option OrgTax) (partnerRate : option (option string))
  : result TaxError (option string) :=
  match org with
  | None => Err OrgNotVisibleForTaxError
  | Some o =>
      let rate := resolveEffectiveTaxRate (ot_taxExempt o) (ot_taxRate o)
                    (match partnerRate with Some r => r | None => None end) in
      Ok (if js_gt (js_Number rate) (ofZ 0) then Some rate else None)
  end.

Inductive InvoiceStatus := st_draft | st_sent | st_partially_paid | st_paid | st_overdue | st_void.

(** [asOf] is a moment in milliseconds. *)
Definition deriveInvoiceStatus (voided issued : bool) (total amountPaid : string)
    (dueDate : option string) (asOf : Z) : InvoiceStatus :=
  if voided then st_void
  else if negb issued then st_draft
  else
    let balanceCents := js_sub (toCents (Some (Str total))) (toCents (Some (Str amountPaid))) in
    if js_le balanceCents (ofZ 0) then st_paid
    else
      let pastDue := match dueDate with Some d => end_of_day_ms d <? asOf | None => false end in
      if pastDue then st_overdue
      else if js_gt (toCents (Some (Str amountPaid))) (ofZ 0) then st_partially_paid
      else st_sent.

(** ** Exact sums *)

Lemma toCents_money c : Z.abs c <= cents_bound -> toCents (Some (Str (fixed2 c))) = ofZ c.
Proof.
  intros H. pose proof (fixed2_nospace c) as [_ Hne].
  unfold toCents. destruct (fixed2 c) as [|ch s] eqn:E; [congruence|]. rewrite <- E.
  cbn [to_num]. rewrite js_Number_fixed2. apply (round_cents c H).
Qed.

(** An amount close enough to whole units parses and rounds to them. *)
Lemma near_whole cur c v :
  whole_units cur c -> (Qabs (v - centsQ c) <= 1 # 1000)%Q ->
  minor_cents (minor_of v (minorUnitExponent cur)) (minorUnitExponent cur) = c.
Proof.
  intros [m ->] H. rewrite (centsQ_minor m cur) in H. set (e := minorUnitExponent cur) in *.
  f_equal. unfold minor_of, half_up. apply Qfloor_near.
  apply Qabs_Qle_condition in H. pose proof (minorUnitExponent_cases cur) as Hc. fold e in Hc.
  apply Qabs_Qlt_condition.
  destruct Hc as [-> | ->]; [change (ten ^ 0)%Q with 1%Q in *|change (ten ^ 2)%Q with 100%Q in *].
  - assert (inject_Z m / 1 == inject_Z m)%Q as E by field. rewrite E in H. lra.
  - assert (inject_Z m == (inject_Z m / 100) * 100)%Q as E by field.
    set (w := (inject_Z m / 100)%Q) in *. lra.
Qed.

Lemma rnd_cents_bounds a : Z.abs a <= 10 ^ 14 ->
  (Qabs (rnd (centsQ a) - centsQ a) <= 1 # 8000)%Q /\ (Qabs (centsQ a) <= 1000000000000)%Q.
Proof.
  intros H. assert (Hb : (Qabs (centsQ a) <= 1000000000000)%Q).
  { rewrite centsQ_abs. unfold centsQ. assert (inject_Z (Z.abs a) <= inject_Z (10 ^ 14))%Q by (rewrite <- Zle_Qle; lia).
    change (inject_Z (10 ^ 14)) with 100000000000000%Q in *. apply Qle_shift_div_r; lra. }
  split; [|exact Hb]. pose proof (rnd_cents_err a). pose proof (Qabs_nonneg (centsQ a)). lra.
Qed.

Lemma centsQ_plus a b : (centsQ (a + b) == centsQ a + centsQ b)%Q.
Proof. unfold centsQ. rewrite inject_Z_plus. field. Qed.

Lemma centsQ_away c : c <> 0 -> (1 # 100 <= Qabs (centsQ c))%Q.
Proof.
  intros H. rewrite centsQ_abs. unfold centsQ. apply Qle_shift_div_l; [reflexivity|].
  assert (inject_Z 1 <= inject_Z (Z.abs c))%Q by (rewrite <- Zle_Qle; lia).
  change (inject_Z 1) with 1%Q in *. lra.
Qed.

(** [Number(subtotal) + Number(taxTotal)] as a double near the exact sum. *)
Lemma sum_double a b :
  Z.abs a <= 10 ^ 14 -> Z.abs b <= 10 ^ 14 -> a + b <> 0 ->
  exists q, js_add (js_Number (fixed2 a)) (js_Number (fixed2 b)) = Fin q /\
    (Qabs (q - centsQ (a + b)) <= 1 # 2000)%Q.
Proof.
  intros Ha Hb Hne. rewrite !js_Number_fixed2, !fin_cents by (unfold cents_bound; lia). cbn [js_add].
  destruct (rnd_cents_bounds a Ha) as [Ea Ba], (rnd_cents_bounds b Hb) as [Eb Bb].
  pose proof (centsQ_plus a b) as Hs. pose proof (centsQ_away (a + b) Hne) as Haw.
  set (x := rnd (centsQ a)) in *. set (y := rnd (centsQ b)) in *.
  assert (E : (Qred x + Qred y == x + y)%Q) by (rewrite !Qred_correct; reflexivity).
  rewrite (fin_eq _ _ E).
  set (ca := centsQ a) in *. set (cb := centsQ b) in *. set (cs := centsQ (a + b)) in *. clearbody x y ca cb cs.
  assert (Hsum : (Qabs (x + y - cs) <= 1 # 4000)%Q).
  { rewrite Hs. setoid_replace (x + y - (ca + cb))%Q with ((x - ca) + (y - cb))%Q by ring.
    eapply Qle_trans; [apply Qabs_triangle|]. lra. }
  assert (Hcs : (Qabs cs <= 2000000000000)%Q) by (rewrite Hs; eapply Qle_trans; [apply Qabs_triangle|lra]).
  pose proof (Qabs_triangle_reverse (x + y) cs) as Hr1. pose proof (Qabs_triangle_reverse cs (x + y)) as Hr2.
  rewrite (Qabs_Qminus cs) in Hr2.
  assert (Hn : normal (x + y)).
  { right. assert (two ^ (-1022) <= two ^ (-7))%Q by (apply two_mono; lia).
    change (two ^ (-7))%Q with (1 # 128)%Q in *. lra. }
  exists (Qred (rnd (x + y))). split; [apply fin_small, small_two_1000; lra|]. rewrite Qred_correct.
  pose proof (rnd_err _ Hn) as He. pose proof u53_small as Hu.
  assert (Qabs (x + y) * two ^ (-53) <= 1 # 4400)%Q by nra.
  setoid_replace (rnd (x + y) - cs)%Q with ((rnd (x + y) - (x + y)) + (x + y - cs))%Q by ring.
  eapply Qle_trans; [apply Qabs_triangle|]. lra.
Qed.

(** Adding two stored amounts as numbers and rounding is exact. *)
Lemma add_stored cur a b :
  Z.abs a <= 10 ^ 14 -> Z.abs b <= 10 ^ 14 -> whole_units cur a -> whole_units cur b ->
  roundToCurrency (Num (js_add (js_Number (fixed2 a)) (js_Number (fixed2 b)))) cur = Ok (fixed2 (a + b)).
Proof.
  intros Ha Hb Wa Wb. destruct (Z.eq_dec (a + b) 0) as [E|E].
  - assert (b = - a) as -> by lia. rewrite Z.add_opp_diag_r.
    rewrite !js_Number_fixed2, !fin_cents by (unfold cents_bound; lia). cbn [js_add].
    assert (fin (Qred (rnd (centsQ a)) + Qred (rnd (centsQ (- a)))) = ofZ 0) as ->;
      [|apply (round_cents_exact cur 0); [reflexivity|apply whole_units_0]].
    apply fin_int; [|reflexivity]. rewrite !Qred_correct, centsQ_opp, rnd_opp. change (inject_Z 0) with 0%Q. ring.
  - destruct (sum_double a b Ha Hb E) as (q & -> & Hq). pose proof (centsQ_away _ E) as Haw.
    destruct (rnd_cents_bounds a Ha) as [_ Ba], (rnd_cents_bounds b Hb) as [_ Bb].
    pose proof (Qabs_triangle (centsQ a) (centsQ b)) as Ht. rewrite <- centsQ_plus in Ht.
    pose proof (Qabs_triangle_reverse q (centsQ (a + b))) as Hr1.
    pose proof (Qabs_triangle_reverse (centsQ (a + b)) q) as Hr2. rewrite (Qabs_Qminus (centsQ (a + b))) in Hr2.
    destruct (js_String_near q) as (ng & v & Hv & Hnear); [lra..|].
    rewrite (roundToCurrency_parses _ v cur (parses_num (Fin q) ng v eq_refl Hv)).
    rewrite (near_whole cur (a + b) v); [reflexivity|apply whole_units_add; assumption|].
    setoid_replace (v - centsQ (a + b))%Q with ((v - q) + (q - centsQ (a + b)))%Q by ring.
    eapply Qle_trans; [apply Qabs_triangle|]. unfold ulp_bound in Hnear. lra.
Qed.

(** The visible lines of an invoice: taxable flag and cents, in order. *)
Inductive inv_lines (cur : string) : list TotalsLine -> list (bool * Z) -> Prop :=
| il_nil : inv_lines cur [] []
| il_hidden l ls lcs : tl_customerVisible l = false -> inv_lines cur ls lcs -> inv_lines cur (l :: ls) lcs
| il_line l c ls lcs :
    tl_customerVisible l = true -> tl_lineTotal l = fixed2 c -> whole_units cur c ->
    inv_lines cur ls lcs -> inv_lines cur (l :: ls) ((tl_taxable l, c) :: lcs).

Definition inv_sum (lcs : list (bool * Z)) : Z := zsum (map snd lcs).
Definition inv_taxable (lcs : list (bool * Z)) : Z := zsum (map (fun lc : bool * Z => if fst lc then snd lc else 0) lcs).
Definition inv_abs (lcs : list (bool * Z)) : Z := zsum (map (fun lc => Z.abs (snd lc)) lcs).

Lemma inv_bounds lcs : 0 <= inv_abs lcs /\ Z.abs (inv_sum lcs) <= inv_abs lcs /\ Z.abs (inv_taxable lcs) <= inv_abs lcs.
Proof.
  induction lcs as [|[t c] r IH]; [split; [|split]; discriminate|].
  unfold inv_abs, inv_sum, inv_taxable in *. simpl in *. destruct t; lia.
Qed.

Lemma sum_lines_exact cur lines lcs :
  inv_lines cur lines lcs -> forall s t,
  Z.abs s + inv_abs lcs <= doc_bound -> Z.abs t + inv_abs lcs <= doc_bound ->
  sum_lines lines (ofZ s, ofZ t) = (ofZ (s + inv_sum lcs), ofZ (t + inv_taxable lcs)).
Proof.
  induction 1 as [|l ls lcs Hv _ IH|l c ls lcs Hv Hl _ _ IH]; intros s t Hs Ht; cbn [sum_lines].
  - unfold inv_sum, inv_taxable. simpl. rewrite !Z.add_0_r. reflexivity.
  - rewrite Hv. apply IH; assumption.
  - rewrite Hv, Hl. cbn [negb fst snd]. destruct (inv_bounds lcs) as (H0 & _).
    unfold inv_abs, doc_bound in *. simpl in Hs, Ht.
    rewrite toCents_money by (unfold cents_bound; lia).
    rewrite js_add_int by (unfold int_bound; lia).
    assert ((if tl_taxable l then js_add (ofZ t) (ofZ c) else ofZ t)
            = ofZ (t + if tl_taxable l then c else 0)) as ->.
    { destruct (tl_taxable l); [apply js_add_int; unfold int_bound; lia|f_equal; lia]. }
    rewrite IH by (destruct (tl_taxable l); lia).
    unfold inv_sum, inv_taxable. simpl. f_equal; f_equal; lia.
Qed.

Lemma inv_lines_whole cur lines lcs : inv_lines cur lines lcs -> whole_units cur (inv_sum lcs).
Proof.
  induction 1 as [|l ls lcs _ _ IH|l c ls lcs _ _ Hw _ IH]; [apply whole_units_0|exact IH|].
  unfold inv_sum in *. simpl. apply whole_units_add; assumption.
Qed.

(** The tax-rate column, as a rate. *)
Definition rate_string (taxRate : option string) (r : Q) : Prop :=
  (taxRate = None /\ r = inject_Z 0 \/ exists s, taxRate = Some s /\ s <> "" /\ js_Number s = Fin r)
  /\ (0 <= r <= 1)%Q.

Lemma rate_string_num taxRate r :
  rate_string taxRate r ->
  match taxRate with Some s => if String.eqb s "" then ofZ 0 else js_Number s | None => ofZ 0 end = Fin r.
Proof.
  intros [[[-> ->]|(s & -> & Hs & ->)] _]; [reflexivity|].
  destruct (String.eqb_spec s ""); [congruence|reflexivity].
Qed.

Lemma roundHalfUp_tax basis rate : roundHalfUp (js_mul basis rate) = tax_cents basis rate.
Proof. reflexivity. Qed.

Lemma money_cents_whole cur c : whole_units cur (money_cents cur c).
Proof. eexists. reflexivity. Qed.

Lemma invoice_totals_core cur lines lcs taxRate r :
  inv_lines cur lines lcs -> inv_abs lcs <= doc_bound -> rate_string taxRate r ->
  computeInvoiceTotals lines taxRate cur =
    Ok (mkInvoiceTotals (fixed2 (inv_sum lcs)) (money cur (tax_int (inv_taxable lcs) r))
          (fixed2 (inv_sum lcs + money_cents cur (tax_int (inv_taxable lcs) r)))).
Proof.
  intros Hl Hb Hr. unfold computeInvoiceTotals. rewrite (rate_string_num _ _ Hr). destruct Hr as [_ Hr].
  rewrite (sum_lines_exact cur lines lcs Hl 0 0) by (simpl; assumption). rewrite !Z.add_0_l.
  destruct (inv_bounds lcs) as (_ & Hs & Ht). unfold doc_bound in Hb.
  pose proof (tax_int_bound (inv_taxable lcs) r 1 Hr) as Hx.
  pose proof (money_cents_near cur (tax_int (inv_taxable lcs) r)) as Hm.
  rewrite roundHalfUp_tax, tax_cents_int by (unfold cents_bound; lia || apply rate_le_3, Hr).
  pose proof (round_cents_exact cur (inv_sum lcs) ltac:(unfold cents_bound; lia) (inv_lines_whole cur lines lcs Hl)) as E1.
  pose proof (round_cents_money cur (tax_int (inv_taxable lcs) r) ltac:(unfold cents_bound; lia)) as E2.
  unfold round_cents_to in E1, E2. rewrite E1. cbn [rbind]. rewrite E2. cbn [rbind].
  rewrite money_eq, add_stored; try lia.
  - reflexivity.
  - apply (inv_lines_whole cur lines), Hl.
  - apply money_cents_whole.
Qed.

Lemma half_up_add n v : half_up (inject_Z n + v) = n + half_up v.
Proof.
  unfold half_up. apply Qfloor_spec.
  - pose proof (Qfloor_le (v + (1 # 2))). rewrite inject_Z_plus. lra.
  - pose proof (Qlt_floor (v + (1 # 2))). rewrite !inject_Z_plus in *. lra.
Qed.

(** Whole units pass through the rounding of a sum. *)
Lemma money_cents_add cur s c : whole_units cur s -> money_cents cur (s + c) = s + money_cents cur c.
Proof.
  intros [m ->]. unfold money_cents. set (e := minorUnitExponent cur).
  assert (minor_of (centsQ (minor_cents m e + c)) e = m + minor_of (centsQ c) e) as ->.
  { unfold minor_of. rewrite <- half_up_add. apply half_up_proper.
    rewrite centsQ_plus. unfold e at 1. rewrite (centsQ_minor m cur). fold e. field.
    pose proof (ten_pos e). lra. }
  unfold minor_cents. lia.
Qed.

(** ** Properties *)

(** C36: Invoice totals are exact: for visible lines whose stored totals are
    whole minor units (documents up to 10^13 cents, tax rate between 0 and 1),
    [computeInvoiceTotals] succeeds; the subtotal is the exact sum of the
    visible lines, the tax is computed on the taxable ones and rounded at the
    currency's minor unit, and the total is exactly subtotal plus tax, although
    the code adds the two stored strings as binary doubles. *)
Theorem invoice_totals_exact cur lines lcs taxRate r :
  inv_lines cur lines lcs -> inv_abs lcs <= doc_bound -> rate_string taxRate r ->
  exists s t, computeInvoiceTotals lines taxRate cur =
      Ok (mkInvoiceTotals (fixed2 s) (fixed2 t) (fixed2 (s + t))) /\
    s = inv_sum lcs /\ t = money_cents cur (tax_int (inv_taxable lcs) r).
Proof.
  intros Hl Hb Hr. exists (inv_sum lcs), (money_cents cur (tax_int (inv_taxable lcs) r)).
  rewrite (invoice_totals_core cur lines lcs taxRate r Hl Hb Hr). auto.
Qed.

Lemma invoice_totals_exact_witness :
  computeInvoiceTotals [mkTotalsLine "0.10" true true; mkTotalsLine "0.20" false true; mkTotalsLine "9.99" true false]
    (Some "0.5") "USD" = Ok (mkInvoiceTotals "0.30" "0.05" "0.35").
Proof.
  destruct (invoice_totals_exact "USD"
    [mkTotalsLine "0.10" true true; mkTotalsLine "0.20" false true; mkTotalsLine "9.99" true false]
    [(true, 10); (false, 20)] (Some "0.5") (1 # 2)) as (s & t & -> & -> & ->).
  - assert (forall c, whole_units "USD" c) as W by (intros; apply whole_units_usd; reflexivity).
    apply il_line; [reflexivity..|apply W|]. apply (il_line _ (mkTotalsLine "0.20" false true)); [reflexivity..|apply W|].
    apply il_hidden; [reflexivity|apply il_nil].
  - unfold inv_abs, doc_bound. simpl. lia.
  - split; [right; exists "0.5"; split; [reflexivity|split; [discriminate|vm_compute; reflexivity]]|split; unfold Qle; simpl; lia].
  - vm_compute. reflexivity.
Defined.

Lemma status_of_cents voided issued t p due asOf :
  Z.abs t <= 10 ^ 14 -> Z.abs p <= 10 ^ 14 ->
  deriveInvoiceStatus voided issued (fixed2 t) (fixed2 p) due asOf =
    if voided then st_void
    else if negb issued then st_draft
    else if t <=? p then st_paid
    else match due with
         | Some d => if day_of d * MS_PER_DAY + 86399000 <? asOf then st_overdue
                     else if 0 <? p then st_partially_paid else st_sent
         | None => if 0 <? p then st_partially_paid else st_sent
         end.
Proof.
  intros Ht Hp. unfold deriveInvoiceStatus. destruct voided, issued; try reflexivity. cbn [negb].
  rewrite !toCents_money by (unfold cents_bound; lia). rewrite js_sub_int by (unfold int_bound; lia).
  rewrite js_le_int. unfold js_gt. rewrite js_lt_int.
  replace (t - p <=? 0) with (t <=? p) by (destruct (Z.leb_spec t p), (Z.leb_spec (t - p) 0); lia).
  destruct (t <=? p); [reflexivity|]. destruct due as [d|]; reflexivity.
Qed.

(** The derived status of an invoice, on amounts stored as cents: void
    beats everything, an unissued invoice is a draft, a balance of zero or less
    is paid even past the due date, an open balance is overdue from the first
    millisecond after the last second of the due date, and otherwise partially
    paid or sent by whether anything was paid. *)
Theorem derived_status voided issued t p due asOf :
  Z.abs t <= 10 ^ 14 -> Z.abs p <= 10 ^ 14 ->
  deriveInvoiceStatus voided issued (fixed2 t) (fixed2 p) due asOf =
    if voided then st_void
    else if negb issued then st_draft
    else if t <=? p then st_paid
    else match due with
         | Some d => if day_of d * MS_PER_DAY + 86399000 <? asOf then st_overdue
                     else if 0 <? p then st_partially_paid else st_sent
         | None => if 0 <? p then st_partially_paid else st_sent
         end.
Proof. apply status_of_cents. Qed.

Lemma derived_status_witness :
  deriveInvoiceStatus false true (fixed2 10000) (fixed2 2500) (Some "2026-03-01") (end_of_day_ms "2026-03-01" + 1) = st_overdue.
Proof. rewrite (derived_status false true 10000 2500 (Some "2026-03-01")) by lia. vm_compute. reflexivity. Defined.

(** Tax resolution fails closed: a rate is only ever returned for an
    organization the caller can see and that is not tax exempt, it is positive,
    and it is the organization's own rate when it has one (the partner's
    default, at five decimals, otherwise); an invisible organization is an error
    whatever the partner's rate. *)
Theorem tax_resolution_fails_closed org partnerRate :
  match resolveOrgTaxRate org partnerRate with
  | Err _ => org = None
  | Ok None => exists o, org = Some o
  | Ok (Some rate) =>
      js_gt (js_Number rate) (ofZ 0) = true /\
      exists o, org = Some o /\ ot_taxExempt o = false /\
        rate = match ot_taxRate o, partnerRate with
               | Some r, _ => toFixed 5 (js_Number r)
               | None, Some (Some r) => toFixed 5 (js_Number r)
               | None, _ => toFixed 5 (js_Number "0")
               end
  end.
Proof.
  destruct org as [[ex r]|]; [|reflexivity]. unfold resolveOrgTaxRate, resolveEffectiveTaxRate. cbn [ot_taxExempt ot_taxRate].
  destruct ex; [vm_compute; eauto|].
  match goal with |- context [js_gt (js_Number ?e) _] => destruct (js_gt (js_Number e) (ofZ 0)) eqn:E end; [|eauto].
  split; [exact E|]. eexists. split; [reflexivity|]. split; [reflexivity|].
  destruct r; [reflexivity|]. destruct partnerRate as [[|]|]; reflexivity.
Qed.
