(* ===== verification/ContractMath.v ===== *)
(** * Contract periods ([apps/api/src/services/contractMath.ts])

    Calendar arithmetic of recurring billing: clamped month steps, the billing
    periods of a contract, the period an instant falls in, the next billing
    date, expiry, the notice window and term renewal. *)

From S2P Require Import Prelude JsString IsoDate.

Local Open Scope string_scope.
Local Open Scope Z_scope.

(** ** The code *)

Inductive BillingTiming := advance | arrears.

Record Period := mkPeriod { periodStart : string; periodEnd : string }.

(** Day 0 of the next month. *)
Definition daysInMonth (year month1 : Z) : Z := getUTCDate (Date_UTC year month1 0).

Definition addMonthsClamped (iso : string) (months : Z) : string :=
  let '(y, m, d) := parts iso in
  let zeroBased := (m - 1) + months in
  let ny := y + zeroBased / 12 in
  let nm1 := Z.rem (Z.rem zeroBased 12 + 12) 12 + 1 in
  let clampedDay := Z.min d (daysInMonth ny nm1) in
  fmt ny nm1 clampedDay.

Definition computePeriod (startDate : string) (intervalMonths periodIndex : Z) : Period :=
  mkPeriod (addMonthsClamped startDate (intervalMonths * periodIndex))
           (addMonthsClamped startDate (intervalMonths * (periodIndex + 1))).

(** The [while] loop; the fuel is its runaway guard. *)
Fixpoint period_walk (fuel : nat) (startDate : string) (intervalMonths : Z) (asOf : string) (idx : Z) : Z :=
  match fuel with
  | O => idx
  | S f =>
      if str_leb (periodStart (computePeriod startDate intervalMonths (idx + 1))) asOf then
        let idx := idx + 1 in
        if 100000 <? idx then idx else period_walk f startDate intervalMonths asOf idx
      else idx
  end.

Definition periodIndexFor (startDate : string) (intervalMonths : Z) (asOf : string) : Z :=
  period_walk (Z.to_nat 100001) startDate intervalMonths asOf 0.

Definition nextBillingDate (startDate : string) (intervalMonths : Z) (billingTiming : BillingTiming)
    (periodIndex : Z) : string :=
  let p := computePeriod startDate intervalMonths periodIndex in
  match billingTiming with advance => periodStart p | arrears => periodEnd p end.

Definition isExpired (endDate : option string) (periodStart : string) : bool :=
  match endDate with
  | None => false
  | Some e => str_leb e periodStart
  end.

Definition addDaysISO (iso : string) (days : Z) : string :=
  let '(y, m, d) := parts iso in
  let dt := Date_UTC y (m - 1) (d + days) in
  print_int (getUTCFullYear dt) ++ "-" ++ padStart (print_int (utc_month1 dt)) 2 "0"
    ++ "-" ++ padStart (print_int (getUTCDate dt)) 2 "0".

Definition duePeriodStartFor (billingTiming : BillingTiming) (nextBillingAt : string) (intervalMonths : Z) : string :=
  match billingTiming with
  | advance => nextBillingAt
  | arrears => addMonthsClamped nextBillingAt (- intervalMonths)
  end.

Definition isWithinNoticeWindow (asOf endDate : string) (noticeDays : Z) : bool :=
  let windowStart := addDaysISO endDate (- noticeDays) in
  str_leb windowStart asOf && str_ltb asOf endDate.

Fixpoint extend_walk (fuel : nat) (endDate duePeriodStart : string) (termMonths : Z) (renewed : bool) (g : Z)
  : string * bool :=
  match fuel with
  | O => (endDate, renewed)
  | S f =>
      if isExpired (Some endDate) duePeriodStart then
        let endDate := addMonthsClamped endDate termMonths in
        if 100000 <? g + 1 then (endDate, true)
        else extend_walk f endDate duePeriodStart termMonths true (g + 1)
      else (endDate, renewed)
  end.

(** The new end date, and whether the term was renewed. *)
Definition extendTermPastDue (endDate duePeriodStart : string) (termMonths : Z) : string * bool :=
  extend_walk (Z.to_nat 100001) endDate duePeriodStart termMonths false 0.

(** ** Months of a date *)

Definition month_index (iso : string) : Z := let '(y, m, _) := parts iso in y * 12 + (m - 1).

(** A month with a four-digit year. *)
Definition month4 (i : Z) : Prop := 12000 <= i < 120000.

Lemma rem_mod z : Z.rem (Z.rem z 12 + 12) 12 = z mod 12.
Proof.
  pose proof (Z.rem_bound_abs z 12 ltac:(lia)). rewrite (Z.rem_mod_nonneg (Z.rem z 12 + 12)) by lia.
  pose proof (Z.quot_rem z 12 ltac:(lia)).
  apply (Z.mod_unique_pos z 12 (Z.quot z 12 + ((Z.rem z 12 + 12) / 12 - 1))).
  - apply Z.mod_pos_bound. lia.
  - pose proof (Z.div_mod (Z.rem z 12 + 12) 12 ltac:(lia)). lia.
Qed.

Lemma daysInMonth_spec y m : 1000 <= y -> 1 <= m <= 12 -> daysInMonth y m = month_days y m.
Proof.
  intros Hy Hm. unfold daysInMonth, Date_UTC.
  rewrite (proj2 (Z.leb_gt y 99)) by lia. rewrite andb_false_r.
  pose proof (month_days_bound y m Hm) as Hb.
  assert (day_number (y + m / 12) (m mod 12 + 1) 1 + 0 - 1 = day_number y m (month_days y m)) as ->.
  { destruct (Z.eq_dec m 12) as [->|Hm12].
    - change (12 / 12) with 1. change (12 mod 12) with 0. unfold day_number, month_days.
      change (month_start (leap (y + 1)) (0 + 1)) with 0. change (12 + 1) with 13. rewrite month_start_13.
      pose proof (leap_spec y). destruct (leap y); lia.
    - rewrite Z.div_small, Z.mod_small, !Z.add_0_r by lia. unfold day_number, month_days. lia. }
  apply civil_fields. split; [exact Hm|lia].
Qed.

(** The date [d] of month [i], clamped to the month. *)
Definition in_month (i d : Z) : string :=
  fmt (i / 12) (i mod 12 + 1) (Z.min d (month_days (i / 12) (i mod 12 + 1))).

Lemma month4_year i : month4 i <-> year4 (i / 12).
Proof. unfold month4, year4. Z.to_euclidean_division_equations. lia. Qed.

Lemma in_month_valid i d :
  1 <= d -> valid (i / 12) (i mod 12 + 1) (Z.min d (month_days (i / 12) (i mod 12 + 1))).
Proof.
  intros Hd. assert (1 <= i mod 12 + 1 <= 12) as Hm by (pose proof (Z.mod_pos_bound i 12 ltac:(lia)); lia).
  pose proof (month_days_bound (i / 12) _ Hm). split; lia.
Qed.

Lemma in_month_iso i d : month4 i -> 1 <= d -> is_iso (in_month i d).
Proof.
  intros Hi Hd. exists (i / 12), (i mod 12 + 1), (Z.min d (month_days (i / 12) (i mod 12 + 1))).
  split; [apply in_month_valid, Hd|]. split; [apply month4_year, Hi|reflexivity].
Qed.

Lemma parts_in_month i d :
  month4 i -> 1 <= d ->
  parts (in_month i d) = (i / 12, i mod 12 + 1, Z.min d (month_days (i / 12) (i mod 12 + 1))).
Proof.
  intros Hi Hd. pose proof (in_month_valid i d Hd) as Hv. unfold in_month.
  apply parts_fmt; [apply month4_year, Hi|apply (valid_pad _ _ _ Hv)..].
Qed.

Lemma month_index_in_month i d : month4 i -> 1 <= d -> month_index (in_month i d) = i.
Proof.
  intros Hi Hd. unfold month_index. rewrite parts_in_month by assumption.
  pose proof (Z.div_mod i 12 ltac:(lia)). lia.
Qed.

(** ** The operations on months and days *)

(** The day of the month of a date. *)
Definition dom (iso : string) : Z := snd (parts iso).

Lemma iso_fields s : is_iso s -> s = in_month (month_index s) (dom s) /\ month4 (month_index s) /\ 1 <= dom s <= 31.
Proof.
  intros (y & m & d & Hv & Hy & ->). destruct (valid_pad _ _ _ Hv) as [Hmp Hdp].
  unfold month_index, dom. rewrite parts_fmt by assumption. simpl.
  destruct Hv as [Hm Hd]. pose proof (month_days_bound y m Hm).
  assert (((y * 12 + (m - 1)) / 12 = y) /\ ((y * 12 + (m - 1)) mod 12 = m - 1)) as [E1 E2]
    by (Z.to_euclidean_division_equations; lia).
  split; [|split; [apply month4_year; rewrite E1; exact Hy|lia]].
  unfold in_month. rewrite E1, E2. replace (m - 1 + 1) with m by lia. rewrite Z.min_l by lia. reflexivity.
Qed.

(** A clamped step of [n] months: [n] months later, same day or the last one. *)
Lemma addMonths_in_month s n :
  is_iso s -> month4 (month_index s + n) ->
  addMonthsClamped s n = in_month (month_index s + n) (dom s).
Proof.
  intros (y & m & d & Hv & Hy & ->) Hn. destruct (valid_pad _ _ _ Hv) as [Hmp Hdp].
  unfold addMonthsClamped, month_index, dom in *. rewrite parts_fmt in * by assumption. cbn [snd].
  rewrite rem_mod. destruct Hv as [Hm Hd].
  assert (y + (m - 1 + n) / 12 = (y * 12 + (m - 1) + n) / 12) as ->
    by (Z.to_euclidean_division_equations; lia).
  assert ((m - 1 + n) mod 12 = (y * 12 + (m - 1) + n) mod 12) as ->
    by (Z.to_euclidean_division_equations; lia).
  unfold in_month. rewrite daysInMonth_spec; [reflexivity| |].
  - apply month4_year in Hn. unfold year4 in Hn. lia.
  - pose proof (Z.mod_pos_bound (y * 12 + (m - 1) + n) 12 ltac:(lia)). lia.
Qed.

Lemma day_of_in_month i d :
  month4 i -> 1 <= d ->
  day_of (in_month i d) = day_number (i / 12) (i mod 12 + 1) (Z.min d (month_days (i / 12) (i mod 12 + 1))).
Proof. intros Hi Hd. unfold day_of. rewrite parts_in_month by assumption. reflexivity. Qed.

(** A later month is a later date, whatever the days. *)
Lemma in_month_mono i j d e :
  month4 i -> month4 j -> 1 <= d -> 1 <= e -> i < j -> day_of (in_month i d) < day_of (in_month j e).
Proof.
  intros Hi Hj Hd He H. rewrite !day_of_in_month by assumption.
  apply date_lt_days; [apply in_month_valid; assumption..|]. simpl.
  Z.to_euclidean_division_equations. lia.
Qed.

Lemma month_index_le s t : is_iso s -> is_iso t -> day_of s <= day_of t -> month_index s <= month_index t.
Proof.
  intros Hs Ht H. destruct (iso_fields s Hs) as (Es & Ms & Ds), (iso_fields t Ht) as (Et & Mt & Dt).
  destruct (Z.le_gt_cases (month_index s) (month_index t)) as [?|Hc]; [assumption|exfalso].
  rewrite Es, Et in H.
  pose proof (in_month_mono (month_index t) (month_index s) (dom t) (dom s) Mt Ms ltac:(lia) ltac:(lia) Hc). lia.
Qed.

Lemma month_index_lt s t : is_iso s -> is_iso t -> month_index s < month_index t -> day_of s < day_of t.
Proof.
  intros Hs Ht H. destruct (iso_fields s Hs) as (Es & Ms & Ds), (iso_fields t Ht) as (Et & Mt & Dt).
  rewrite Es, Et. apply in_month_mono; lia || assumption.
Qed.

Lemma addMonths_iso s n :
  is_iso s -> month4 (month_index s + n) ->
  is_iso (addMonthsClamped s n) /\ month_index (addMonthsClamped s n) = month_index s + n.
Proof.
  intros Hs Hn. rewrite (addMonths_in_month s n Hs Hn). destruct (iso_fields s Hs) as (_ & _ & Hd).
  split; [apply in_month_iso|apply month_index_in_month]; lia || assumption.
Qed.

(** Day arithmetic is exact. *)
Lemma addDays_day s n :
  is_iso s -> addDaysISO s n = iso_of (day_of s + n).
Proof.
  intros (y & m & d & Hv & Hy & ->). destruct (valid_pad _ _ _ Hv) as [Hmp Hdp].
  rewrite day_of_fmt by assumption. unfold addDaysISO. rewrite parts_fmt by assumption.
  assert (Date_UTC y (m - 1) (d + n) = day_number y m d + n) as ->; [|reflexivity].
  unfold Date_UTC. unfold year4 in Hy. rewrite (proj2 (Z.leb_gt y 99)) by lia. rewrite andb_false_r.
  destruct Hv as [Hm Hd]. rewrite Z.div_small, Z.mod_small, Z.add_0_r by lia.
  replace (m - 1 + 1) with m by lia. unfold day_number. lia.
Qed.

Lemma addDays_iso s n :
  is_iso s -> day4 (day_of s + n) -> is_iso (addDaysISO s n) /\ day_of (addDaysISO s n) = day_of s + n.
Proof. intros Hs Hn. rewrite (addDays_day s n Hs). apply iso_of_is_iso, Hn. Qed.

#[export] Hint Resolve in_month_iso in_month_valid : billing.

(** ** Properties *)

Section Periods.
Variables (startDate : string) (intervalMonths : Z).
Hypothesis Hstart : is_iso startDate.
Hypothesis Hint : 1 <= intervalMonths.

Local Abbreviation pstart i := (periodStart (computePeriod startDate intervalMonths i)).

Lemma pstart_month i :
  month4 (month_index startDate + intervalMonths * i) ->
  is_iso (pstart i) /\ month_index (pstart i) = month_index startDate + intervalMonths * i.
Proof. intros H. apply addMonths_iso; assumption. Qed.

Lemma pstart_0 : pstart 0 = startDate.
Proof.
  unfold computePeriod. simpl. rewrite Z.mul_0_r.
  destruct (iso_fields startDate Hstart) as (E & M & _).
  rewrite addMonths_in_month, Z.add_0_r; [symmetry; exact E|exact Hstart|rewrite Z.add_0_r; exact M].
Qed.

Lemma pstart_lt i j :
  month4 (month_index startDate + intervalMonths * i) -> month4 (month_index startDate + intervalMonths * j) ->
  i < j -> day_of (pstart i) < day_of (pstart j).
Proof.
  intros Hi Hj H. destruct (pstart_month i Hi) as [Ii Mi], (pstart_month j Hj) as [Ij Mj].
  apply month_index_lt; [assumption..|]. rewrite Mi, Mj. nia.
Qed.

Lemma pstart_le i j :
  month4 (month_index startDate + intervalMonths * i) -> month4 (month_index startDate + intervalMonths * j) ->
  i <= j -> day_of (pstart i) <= day_of (pstart j).
Proof.
  intros Hi Hj H. destruct (Z.eq_dec i j) as [->|]; [lia|].
  pose proof (pstart_lt i j Hi Hj ltac:(lia)). lia.
Qed.

(** The walk stops at the last period that has started. *)
Lemma period_walk_spec asOf fuel idx :
  is_iso asOf -> month4 (Z.max (month_index startDate) (month_index asOf) + intervalMonths) ->
  month_index asOf - month_index startDate <= 100000 ->
  0 <= idx -> (idx = 0 \/ day_of (pstart idx) <= day_of asOf) ->
  month_index startDate + intervalMonths * idx <= Z.max (month_index startDate) (month_index asOf) ->
  month_index asOf - month_index startDate - idx < Z.of_nat fuel -> (0 < fuel)%nat ->
  let i := period_walk fuel startDate intervalMonths asOf idx in
  0 <= i /\ month_index startDate + intervalMonths * i <= Z.max (month_index startDate) (month_index asOf) /\
  (i = 0 \/ day_of (pstart i) <= day_of asOf) /\ day_of asOf < day_of (pstart (i + 1)).
Proof.
  intros Has Hm Hg. destruct (iso_fields startDate Hstart) as (_ & Ms & _). unfold month4 in Hm, Ms.
  revert idx. induction fuel as [|f IH]; intros idx H0 Hle Hmi Hf Hpos; [lia|].
  cbv zeta. cbn [period_walk].
  destruct (pstart_month (idx + 1)) as [Ip Mp]; [unfold month4; nia|].
  rewrite (iso_leb _ _ Ip Has). destruct (Z.leb_spec (day_of (pstart (idx + 1))) (day_of asOf)) as [Hs|Hs].
  - pose proof (month_index_le _ _ Ip Has Hs) as Hmon. rewrite Mp in Hmon.
    rewrite (proj2 (Z.ltb_ge 100000 (idx + 1))) by nia.
    apply IH; lia || nia.
  - auto.
Qed.

(** The period that starts on a period's start date is that period. *)
Lemma index_of_start j :
  0 <= j -> month4 (month_index startDate + intervalMonths * (j + 1)) -> intervalMonths * j <= 100000 ->
  periodIndexFor startDate intervalMonths (pstart j) = j.
Proof.
  intros Hj Hm Hg. destruct (iso_fields startDate Hstart) as (_ & Ms & _). unfold month4 in Hm, Ms.
  assert (Hm0 : month4 (month_index startDate + intervalMonths * j)) by (unfold month4; nia).
  destruct (pstart_month j Hm0) as [Ij Mj].
  assert (Emax : Z.max (month_index startDate) (month_index (pstart j)) = month_index startDate + intervalMonths * j) by (rewrite Mj; nia).
  destruct (period_walk_spec (pstart j) (Z.to_nat 100001) 0 Ij ltac:(rewrite Emax; unfold month4; nia) ltac:(rewrite Mj; lia) ltac:(lia)
    (or_introl eq_refl) ltac:(rewrite Emax; nia) ltac:(rewrite Mj; lia) ltac:(lia)) as (H0 & Hmi & Hle & Hlt).
  change (period_walk _ _ _ _ 0) with (periodIndexFor startDate intervalMonths (pstart j)) in *.
  set (i := periodIndexFor _ _ _) in *. rewrite Emax in Hmi.
  assert (i <= j) by nia.
  destruct (Z.eq_dec i j) as [|Hne]; [assumption|exfalso].
  pose proof (pstart_le (i + 1) j ltac:(unfold month4; nia) Hm0 ltac:(lia)). lia.
Qed.
End Periods.

(** The billing periods of a contract tile the calendar: for a four-digit
    start date and an interval of at least one month, period [i] ends where
    period [i+1] starts, its start is strictly before its end in the string
    order the code compares with, and the month of its start is exactly [i]
    intervals after the contract's start (month-end days are clamped, never
    drifted). *)
Theorem periods_tile startDate intervalMonths i :
  is_iso startDate -> 1 <= intervalMonths -> 0 <= i ->
  month4 (month_index startDate + intervalMonths * (i + 1)) ->
  let p := computePeriod startDate intervalMonths i in
  periodEnd p = periodStart (computePeriod startDate intervalMonths (i + 1)) /\
  str_ltb (periodStart p) (periodEnd p) = true /\
  periodStart p = in_month (month_index startDate + intervalMonths * i) (dom startDate).
Proof.
  intros Hs Hi H0 Hm p. split; [reflexivity|].
  destruct (iso_fields startDate Hs) as (_ & Ms & _).
  assert (Hm0 : month4 (month_index startDate + intervalMonths * i)) by (unfold month4 in *; nia).
  destruct (pstart_month startDate intervalMonths Hs i Hm0) as [I0 _].
  destruct (pstart_month startDate intervalMonths Hs (i + 1) Hm) as [I1 _].
  split; [|apply addMonths_in_month; assumption].
  change (str_ltb (periodStart (computePeriod startDate intervalMonths i))
    (periodStart (computePeriod startDate intervalMonths (i + 1))) = true).
  rewrite (iso_ltb _ _ I0 I1). apply Z.ltb_lt. apply pstart_lt; assumption || lia.
Qed.

Lemma is_iso_fmt y m d : valid y m d -> year4 y -> is_iso (fmt y m d).
Proof. intros Hv Hy. exists y, m, d. auto. Qed.

Ltac solve_iso :=
  match goal with |- is_iso ?s =>
    let p := eval vm_compute in (parts s) in
    match p with (?y, ?m, ?d) =>
      change s with (fmt y m d); apply is_iso_fmt;
      [ split; [lia|vm_compute; split; discriminate] | unfold year4; lia ] end
  end.

Lemma periods_tile_witness :
  periodStart (computePeriod "2026-01-31" 1 1) = "2026-02-28" /\
  str_ltb "2026-02-28" "2026-03-31" = true.
Proof.
  destruct (periods_tile "2026-01-31" 1 1) as (_ & H & Hs); try lia.
  - solve_iso.
  - vm_compute. split; [discriminate|reflexivity].
  - split; [exact Hs|exact H].
Defined.

(** C19: [periodIndexFor] returns the index of the period the date falls in: the
    period has started (or is the first one of a contract not started yet), and the
    next one has not; no other index has both properties. The dates are calendar
    dates, the interval is at least a month, the next period still starts within
    year 9999, and the date is no more months after the start than the runaway
    guard of the walk allows steps. *)
Theorem period_index_correct startDate intervalMonths asOf :
  is_iso startDate -> is_iso asOf -> 1 <= intervalMonths ->
  month4 (Z.max (month_index startDate) (month_index asOf) + intervalMonths) ->
  month_index asOf - month_index startDate <= 100000 ->
  let at_ i := periodStart (computePeriod startDate intervalMonths i) in
  let i := periodIndexFor startDate intervalMonths asOf in
  (0 <= i /\ (i = 0 \/ str_leb (at_ i) asOf = true) /\ str_ltb asOf (at_ (i + 1)) = true) /\
  (str_leb startDate asOf = true -> forall j, 0 <= j -> month4 (month_index startDate + intervalMonths * (j + 1)) ->
     str_leb (at_ j) asOf = true -> str_ltb asOf (at_ (j + 1)) = true -> j = i).
Proof.
  intros Hs Ha Hi Hm Hg at_ i. destruct (iso_fields startDate Hs) as (_ & Ms & _).
  destruct (period_walk_spec startDate intervalMonths Hs Hi asOf (Z.to_nat 100001) 0 Ha Hm Hg ltac:(lia)
    (or_introl eq_refl) ltac:(lia) ltac:(lia) ltac:(lia)) as (H0 & Hmi & Hle & Hlt).
  change (period_walk _ _ _ _ 0) with i in *. unfold month4 in Ms, Hm.
  assert (R : month4 (month_index startDate + intervalMonths * i) /\
              month4 (month_index startDate + intervalMonths * (i + 1))) by (unfold month4; nia).
  destruct R as [R0 R1]. pose proof (pstart_month startDate intervalMonths Hs) as Hp.
  pose proof (proj1 (Hp i R0)) as I0. pose proof (proj1 (Hp (i + 1) R1)) as I1.
  split; [split; [exact H0|split]|].
  - destruct Hle as [->|Hle]; [left; reflexivity|right]. unfold at_. rewrite (iso_leb _ _ I0 Ha). apply Z.leb_le, Hle.
  - unfold at_. rewrite (iso_ltb _ _ Ha I1). apply Z.ltb_lt, Hlt.
  - intros Hst j Hj Hr1 Hjl Hjt. rewrite (iso_leb _ _ Hs Ha) in Hst. apply Z.leb_le in Hst.
    assert (Hr0 : month4 (month_index startDate + intervalMonths * j)) by (unfold month4 in *; nia).
    unfold at_ in Hjl, Hjt. pose proof (proj1 (Hp j Hr0)) as Ij. pose proof (proj1 (Hp (j + 1) Hr1)) as Ij1.
    rewrite (iso_leb _ _ Ij Ha) in Hjl. rewrite (iso_ltb _ _ Ha Ij1) in Hjt. apply Z.leb_le in Hjl. apply Z.ltb_lt in Hjt.
    assert (Hli : day_of (periodStart (computePeriod startDate intervalMonths i)) <= day_of asOf)
      by (destruct Hle as [->|Hle]; [rewrite (pstart_0 startDate intervalMonths Hs); exact Hst|exact Hle]).
    destruct (Z.lt_trichotomy i j) as [Hc|[Hc|Hc]]; [exfalso|lia|exfalso].
    + pose proof (pstart_le startDate intervalMonths Hs Hi (i + 1) j R1 Hr0 ltac:(lia)). lia.
    + pose proof (pstart_le startDate intervalMonths Hs Hi (j + 1) i Hr1 R0 ltac:(lia)). lia.
Qed.

Lemma period_index_correct_witness :
  periodIndexFor "2026-01-31" 1 "2026-03-30" = 1 /\
  str_leb (periodStart (computePeriod "2026-01-31" 1 1)) "2026-03-30" = true.
Proof.
  assert (E : periodIndexFor "2026-01-31" 1 "2026-03-30" = 1) by (vm_compute; reflexivity).
  assert (is_iso "2026-01-31") as H1 by solve_iso. assert (is_iso "2026-03-30") as H2 by solve_iso.
  destruct (period_index_correct "2026-01-31" 1 "2026-03-30" H1 H2 ltac:(lia)
    ltac:(vm_compute; split; [discriminate|reflexivity]) ltac:(vm_compute; discriminate)) as [[_ [[H|H] _]] _];
    rewrite E in H; [discriminate H|split; [exact E|exact H]].
Defined.

(** [k] successive terms after an end date, as the renewal loop steps. *)
Fixpoint terms_after (endDate : string) (termMonths : Z) (k : nat) : string :=
  match k with
  | O => endDate
  | S k' => addMonthsClamped (terms_after endDate termMonths k') termMonths
  end.

Lemma terms_after_iso e t k :
  is_iso e -> 1 <= t -> month4 (month_index e + t * Z.of_nat k) ->
  is_iso (terms_after e t k) /\ month_index (terms_after e t k) = month_index e + t * Z.of_nat k.
Proof.
  intros He Ht. destruct (iso_fields e He) as (_ & M & _). induction k as [|k IH]; intros Hk.
  - split; [exact He|]. simpl. lia.
  - destruct IH as [Ik Mk]; [unfold month4 in *; nia|]. cbn [terms_after].
    rewrite Nat2Z.inj_succ in Hk |- *.
    destruct (addMonths_iso _ t Ik) as [Ia Ma]; [rewrite Mk; unfold month4 in *; nia|].
    split; [exact Ia|]. rewrite Ma, Mk. lia.
Qed.

(** Months left until the end date passes the due period. *)
Lemma extend_walk_spec e t due fuel k r :
  is_iso e -> is_iso due -> 1 <= t -> month4 (Z.max (month_index e) (month_index due) + t) ->
  month_index due - month_index e <= 99990 ->
  (k = 0%nat -> r = false) -> ((0 < k)%nat -> r = true /\ isExpired (Some (terms_after e t (k - 1))) due = true) ->
  month_index e + t * Z.of_nat k <= Z.max (month_index e) (month_index due) + t ->
  month_index due - month_index e - Z.of_nat k + 1 < Z.of_nat fuel -> (0 < fuel)%nat ->
  exists k', extend_walk fuel (terms_after e t k) due t r (Z.of_nat k)
      = (terms_after e t k', (0 <? Z.of_nat k')) /\
    is_iso (terms_after e t k') /\ isExpired (Some (terms_after e t k')) due = false /\
    ((0 < k')%nat -> isExpired (Some (terms_after e t (k' - 1))) due = true).
Proof.
  intros He Hd Ht Hm Hg. destruct (iso_fields e He) as (_ & Me & _). unfold month4 in Hm, Me.
  revert k r. induction fuel as [|f IH]; intros k r Hk0 Hk1 Hmi Hf Hpos; [lia|].
  cbn [extend_walk]. destruct (terms_after_iso e t k He Ht) as [Ik Mk]; [unfold month4; nia|].
  destruct (isExpired (Some (terms_after e t k)) due) eqn:Ex.
  - simpl in Ex. rewrite (iso_leb _ _ Ik Hd) in Ex. apply Z.leb_le in Ex.
    pose proof (month_index_le _ _ Ik Hd Ex) as Hmk. rewrite Mk in Hmk.
    rewrite (proj2 (Z.ltb_ge 100000 (Z.of_nat k + 1))) by nia.
    replace (Z.of_nat k + 1) with (Z.of_nat (S k)) by lia.
    change (addMonthsClamped (terms_after e t k) t) with (terms_after e t (S k)).
    apply IH; try lia; try nia. intros _. split; [reflexivity|].
    replace (S k - 1)%nat with k by lia. simpl. rewrite (iso_leb _ _ Ik Hd). apply Z.leb_le, Ex.
  - exists k. split; [|split; [exact Ik|split; [exact Ex|intros H; apply Hk1, H]]].
    f_equal. destruct k; [rewrite Hk0 by reflexivity; reflexivity|].
    rewrite (proj1 (Hk1 ltac:(lia))). reflexivity.
Qed.

(** Renewal extends the term by the least number of whole terms that puts
    the due period before the end date: the loop stops within its guard, the
    new end date is strictly after the due period's start, one term earlier
    was not, and [renewed] tells whether anything was added. *)
Theorem extend_term_least endDate duePeriodStart termMonths :
  is_iso endDate -> is_iso duePeriodStart -> 1 <= termMonths ->
  month4 (Z.max (month_index endDate) (month_index duePeriodStart) + termMonths) ->
  month_index duePeriodStart - month_index endDate <= 99990 ->
  exists k, extendTermPastDue endDate duePeriodStart termMonths =
      (terms_after endDate termMonths k, 0 <? Z.of_nat k) /\
    str_ltb duePeriodStart (terms_after endDate termMonths k) = true /\
    ((0 < k)%nat -> str_leb (terms_after endDate termMonths (k - 1)) duePeriodStart = true).
Proof.
  intros He Hd Ht Hm Hg.
  destruct (extend_walk_spec endDate termMonths duePeriodStart (Z.to_nat 100001) 0 false He Hd Ht Hm)
    as (k & Ek & Ik & Hk & Hprev); try lia.
  exists k. split; [exact Ek|]. split; [|exact Hprev].
  simpl in Hk. unfold str_leb in Hk. apply negb_false_iff in Hk. exact Hk.
Qed.

Lemma extend_term_least_witness :
  exists k, extendTermPastDue "2026-01-01" "2028-01-01" 12 =
      (terms_after "2026-01-01" 12 k, 0 <? Z.of_nat k) /\
    str_ltb "2028-01-01" (terms_after "2026-01-01" 12 k) = true /\
    ((0 < k)%nat -> str_leb (terms_after "2026-01-01" 12 (k - 1)) "2028-01-01" = true).
Proof.
  apply (extend_term_least "2026-01-01" "2028-01-01" 12); try solve_iso; try lia.
  - vm_compute. split; [discriminate|reflexivity].
  - vm_compute. discriminate.
Defined.

(** Day arithmetic on date strings is exact, and the notice window is the
    half-open interval of days the comment promises: [addDaysISO] moves by
    exactly [n] days and is undone by [-n], and [isWithinNoticeWindow] holds
    exactly on the last [noticeDays] days before the end date. *)
Theorem notice_window_days asOf endDate noticeDays :
  is_iso asOf -> is_iso endDate -> day4 (day_of endDate - noticeDays) ->
  addDaysISO (addDaysISO endDate (- noticeDays)) noticeDays = endDate /\
  (isWithinNoticeWindow asOf endDate noticeDays = true <->
   day_of endDate - noticeDays <= day_of asOf < day_of endDate).
Proof.
  intros Ha He Hn. destruct (addDays_iso endDate (- noticeDays) He Hn) as [Iw Dw]. split.
  - rewrite (addDays_day _ _ Iw), Dw. replace (_ + _ + _) with (day_of endDate) by lia.
    apply is_iso_day, He.
  - unfold isWithinNoticeWindow. rewrite andb_true_iff, (iso_leb _ _ Iw Ha), (iso_ltb _ _ Ha He), Dw.
    rewrite Z.leb_le, Z.ltb_lt. lia.
Qed.

Lemma notice_window_days_witness :
  addDaysISO (addDaysISO "2026-03-01" (-30)) 30 = "2026-03-01" /\
  (isWithinNoticeWindow "2026-01-30" "2026-03-01" 30 = true <->
   day_of "2026-03-01" - 30 <= day_of "2026-01-30" < day_of "2026-03-01").
Proof.
  apply (notice_window_days "2026-01-30" "2026-03-01" 30); try solve_iso.
  vm_compute. split; [discriminate|reflexivity].
Defined.

(** In arrears the renewal sweep and the billing sweep can disagree on the
    period that is due: for a contract started on 2026-01-30 the first invoice,
    due on 2026-02-28, bills the period from 2026-01-30, but
    [duePeriodStartFor] takes the due period to start on 2026-01-28, because
    stepping back does not undo the clamping of a month end. *)
Theorem arrears_due_start_not_period_start :
  nextBillingDate "2026-01-30" 1 arrears 0 = "2026-02-28" /\
  periodStart (computePeriod "2026-01-30" 1 0) = "2026-01-30" /\
  duePeriodStartFor arrears (nextBillingDate "2026-01-30" 1 arrears 0) 1 = "2026-01-28".
Proof. vm_compute. repeat split; reflexivity. Qed.

(** For contracts whose start day exists in every month, the period the
    renewal sweep takes as due is the one the billing sweep bills, in advance
    and in arrears: [duePeriodStartFor] of the next billing date of period [i]
    is the start of period [i]. *)
Theorem due_start_is_period_start startDate intervalMonths timing i :
  is_iso startDate -> 1 <= intervalMonths -> 0 <= i -> dom startDate <= 28 ->
  month4 (month_index startDate + intervalMonths * (i + 1)) ->
  duePeriodStartFor timing (nextBillingDate startDate intervalMonths timing i) intervalMonths
  = periodStart (computePeriod startDate intervalMonths i).
Proof.
  intros Hs Hi H0 Hd Hm. destruct timing; [reflexivity|].
  unfold duePeriodStartFor, nextBillingDate. cbn [periodEnd periodStart computePeriod].
  destruct (iso_fields startDate Hs) as (_ & Ms & Hd1).
  assert (Hm0 : month4 (month_index startDate + intervalMonths * i)) by (unfold month4 in *; nia).
  destruct (addMonths_iso startDate _ Hs Hm) as [Ia Ma].
  rewrite (addMonths_in_month _ _ Ia); [|rewrite Ma; unfold month4 in *; nia].
  rewrite Ma, (addMonths_in_month startDate (intervalMonths * i) Hs Hm0).
  replace (month_index startDate + intervalMonths * (i + 1) + - intervalMonths)
    with (month_index startDate + intervalMonths * i) by lia.
  f_equal. rewrite (addMonths_in_month startDate _ Hs Hm). unfold dom at 1.
  rewrite parts_in_month by (assumption || lia). cbn [snd].
  pose proof (in_month_valid (month_index startDate + intervalMonths * (i + 1)) 1 ltac:(lia)) as [Hmm _].
  pose proof (month_days_bound ((month_index startDate + intervalMonths * (i + 1)) / 12) _ Hmm). lia.
Qed.

Lemma due_start_is_period_start_witness :
  duePeriodStartFor arrears (nextBillingDate "2026-01-15" 3 arrears 2) 3 = periodStart (computePeriod "2026-01-15" 3 2).
Proof.
  apply (due_start_is_period_start "2026-01-15" 3 arrears 2); try solve_iso; try lia.
  - vm_compute. discriminate.
  - vm_compute. split; [discriminate|reflexivity].
Defined.
