(* ===== verification/Recurrence.v ===== *)
(** * Service deliverable schedules ([apps/api/src/services/recurrence.ts])

    Due dates of a recurring deliverable, the period each covers, and the
    occurrences a planning run materialises. *)

From S2P Require Import Prelude JsString IsoDate ContractMath.

Local Open Scope string_scope.
Local Open Scope Z_scope.
Local Open Scope billing_scope.

(** ** The code *)

Inductive Cadence := c_monthly | c_quarterly | c_semiannual | c_annual | c_one_time.

Definition cadenceMonths (cadence : Cadence) : option Z :=
  match cadence with
  | c_monthly => Some 1
  | c_quarterly => Some 3
  | c_semiannual => Some 6
  | c_annual => Some 12
  | c_one_time => None
  end.

Inductive RangeError := n_must_be_nonnegative.

(** [Err] is the thrown [RangeError]; [Ok None] the [null] of a spent one-time cadence. *)
Definition nthDueDate (anchorDueDate : string) (cadence : Cadence) (n : Z) : result RangeError (option string) :=
  if n <? 0 then Err n_must_be_nonnegative
  else match cadenceMonths cadence with
       | None => Ok (if n =? 0 then Some anchorDueDate else None)
       | Some months => Ok (Some (addMonthsClamped anchorDueDate (months * n)))
       end.

(** [iso.slice(0, 7)]. *)
Definition year_month (iso : string) : string := substring 0 7 iso.

Definition isLastDayOfMonth (iso : string) : bool :=
  negb (String.eqb (year_month (addDaysISO iso 1)) (year_month iso)).

Definition endOfMonth (iso : string) : string :=
  addDaysISO (addMonthsClamped (year_month iso ++ "-01") 1) (-1).

Definition coveredPeriod (dueAt : string) (cadence : Cadence) : Period :=
  match cadenceMonths cadence with
  | None => mkPeriod dueAt dueAt
  | Some months =>
      let stepped := addMonthsClamped dueAt (- months) in
      let previousDue := if isLastDayOfMonth dueAt then endOfMonth stepped else stepped in
      mkPeriod (addDaysISO previousDue 1) dueAt
  end.

Definition isInLeadWindow (dueAt : string) (leadDays : Z) (today : string) : bool :=
  str_leb (addDaysISO dueAt (- leadDays)) today.

Definition isPastGrace (dueAt : string) (graceDays : Z) (today : string) : bool :=
  str_ltb (addDaysISO dueAt graceDays) today.

Record PlanInput := {
  anchorDueDate : string; pi_cadence : Cadence; effectiveFrom : string; effectiveUntil : option string;
  leadDays : Z; graceDays : Z; today : string; existingDueDates : list string; pi_cap : option Z;
}.

Inductive InitialStatus := scheduled | missed.

Record PlannedOccurrence := {
  po_period : Period; dueAt : string; initialStatus : InitialStatus;
}.

Definition has_due (l : list string) (d : string) : bool := existsb (String.eqb d) l.

(** The [for] loop from index [n]; [None] when the fuel runs out.  The body
    never passes a negative index, so the throw of [nthDueDate] is unreachable
    and ends the loop like a missing date. *)
Fixpoint plan_loop (fuel : nat) (input : PlanInput) (cap n : Z) (out : list PlannedOccurrence)
  : option (list PlannedOccurrence) :=
  match fuel with
  | O => None
  | S f =>
      if Z.of_nat (List.length out) <? cap then
        match nthDueDate (anchorDueDate input) (pi_cadence input) n with
        | Ok (Some due) =>
            if negb (isInLeadWindow due (leadDays input) (today input)) then Some out
            else if match effectiveUntil input with Some u => str_ltb u due | None => false end then Some out
            else if str_ltb due (effectiveFrom input) || has_due (existingDueDates input) due
            then plan_loop f input cap (n + 1) out
            else
              let o := {| po_period := coveredPeriod due (pi_cadence input); dueAt := due;
                          initialStatus := if isPastGrace due (graceDays input) (today input)
                                           then missed else scheduled |} in
              plan_loop f input cap (n + 1) (out ++ [o])
        | _ => Some out
        end
      else Some out
  end.

(** Steps that take the schedule past the end of the lead window. *)
Definition plan_fuel (input : PlanInput) : nat :=
  Z.to_nat (Z.max 0 (month_index (addDaysISO (today input) (leadDays input)) - month_index (anchorDueDate input)) + 3).

Definition planOccurrences (input : PlanInput) : option (list PlannedOccurrence) :=
  plan_loop (plan_fuel input) input (match pi_cap input with Some c => c | None => 12 end) 0 [].

Definition firstAnchorAfter (effectiveFrom : string) (cadence : Cadence) : string :=
  match cadenceMonths cadence with
  | None => effectiveFrom
  | Some months => addDaysISO (addMonthsClamped effectiveFrom months) (-1)
  end.

(** ** Month ends *)

Lemma year_month_fmt y m d :
  year4 y -> 0 <= m < 100 -> 0 <= d < 100 ->
  year_month (fmt y m d) = two_digits (y / 100) ++ two_digits (y mod 100) ++ "-" ++ two_digits m.
Proof. intros Hy Hm Hd. rewrite fmt_digits by assumption. unfold year_month. cbn. reflexivity. Qed.

Lemma two_digits_inj a b : 0 <= a < 100 -> 0 <= b < 100 -> two_digits a = two_digits b -> a = b.
Proof.
  intros Ha Hb H. rewrite <- (proj2 (two_digits_all a Ha)), <- (proj2 (two_digits_all b Hb)), H. reflexivity.
Qed.

Lemma year_month_inj y m d y' m' d' :
  year4 y -> year4 y' -> 0 <= m < 100 -> 0 <= d < 100 -> 0 <= m' < 100 -> 0 <= d' < 100 ->
  year_month (fmt y m d) = year_month (fmt y' m' d') <-> y = y' /\ m = m'.
Proof.
  intros Hy Hy' Hm Hd Hm' Hd'. rewrite !year_month_fmt by assumption.
  destruct (year4_halves y Hy) as [H1 H2], (year4_halves y' Hy') as [H1' H2'].
  split; [|intros [-> ->]; reflexivity]. unfold two_digits. cbn [append]. intros [= A1 A2 B1 B2 C1 C2].
  assert (two_digits (y / 100) = two_digits (y' / 100)) as Ea by (unfold two_digits; congruence).
  assert (two_digits (y mod 100) = two_digits (y' mod 100)) as Eb by (unfold two_digits; congruence).
  assert (two_digits m = two_digits m') as Ec by (unfold two_digits; congruence).
  apply two_digits_inj in Ea, Eb, Ec; try assumption.
  pose proof (Z.div_mod y 100 ltac:(lia)). pose proof (Z.div_mod y' 100 ltac:(lia)). lia.
Qed.

Lemma next_day y m d :
  valid y m d ->
  day_number y m d + 1 =
    if d <? month_days y m then day_number y m (d + 1)
    else if m =? 12 then day_number (y + 1) 1 1 else day_number y (m + 1) 1.
Proof.
  intros [Hm Hd]. destruct (Z.ltb_spec d (month_days y m)); [unfold day_number; lia|].
  assert (d = month_days y m) as -> by lia. unfold day_number, month_days.
  destruct (Z.eqb_spec m 12) as [->|Hne]; [|lia].
  change (12 + 1) with 13. rewrite month_start_13. change (month_start (leap (y + 1)) 1) with 0.
  pose proof (leap_spec y). destruct (leap y); lia.
Qed.

Lemma isLastDay_iff y m d :
  valid y m d -> 1000 <= y < 9999 -> isLastDayOfMonth (fmt y m d) = (d =? month_days y m).
Proof.
  intros Hv Hy. assert (H4 : year4 y) by (unfold year4; lia). assert (H4' : year4 (y + 1)) by (unfold year4; lia).
  destruct (valid_pad _ _ _ Hv) as [Hmp Hdp]. destruct Hv as [Hm Hd]. pose proof (month_days_bound y m Hm) as Hb.
  unfold isLastDayOfMonth. rewrite addDays_day by (apply is_iso_fmt; [split; assumption|exact H4]).
  rewrite day_of_fmt, next_day by first [exact H4 | split; assumption].
  destruct (Z.ltb_spec d (month_days y m)) as [Hlt|Hge].
  - rewrite (proj2 (Z.eqb_neq d (month_days y m))) by lia.
    rewrite iso_of_day_number by (split; lia).
    rewrite (proj2 (String.eqb_eq _ _)); [reflexivity|]. apply year_month_inj; try assumption; lia.
  - rewrite (proj2 (Z.eqb_eq d (month_days y m))) by lia.
    apply negb_true_iff, String.eqb_neq. intros E.
    destruct (Z.eqb_spec m 12) as [->|Hne].
    + rewrite iso_of_day_number in E by (split; [lia|pose proof (month_days_bound (y + 1) 1); lia]).
      apply year_month_inj in E; try assumption; lia.
    + rewrite iso_of_day_number in E by (split; [lia|pose proof (month_days_bound y (m + 1)); lia]).
      apply year_month_inj in E; try assumption; lia.
Qed.

(** The day after the last of a month is the first of the next. *)
Lemma month_end_next i :
  month4 i -> month4 (i + 1) -> day_of (in_month i 31) + 1 = day_of (in_month (i + 1) 1).
Proof.
  intros Hi Hn. rewrite !day_of_in_month by (assumption || lia).
  set (y := i / 12). set (m := i mod 12 + 1).
  assert (Hm : 1 <= m <= 12) by (pose proof (Z.mod_pos_bound i 12 ltac:(lia)); unfold m; lia).
  pose proof (month_days_bound y m Hm) as Hb. rewrite (Z.min_r 31 (month_days y m)) by lia.
  rewrite next_day, Z.ltb_irrefl by (split; lia).
  assert (Hi' : (i + 1) / 12 = (if m =? 12 then y + 1 else y) /\ (i + 1) mod 12 + 1 = (if m =? 12 then 1 else m + 1)).
  { unfold m, y. destruct (Z.eqb_spec (i mod 12 + 1) 12); Z.to_euclidean_division_equations; lia. }
  destruct Hi' as [-> ->]. rewrite Z.min_l; [destruct (m =? 12); reflexivity|].
  destruct (Z.eqb_spec m 12); [pose proof (month_days_bound (y + 1) 1)|pose proof (month_days_bound y (m + 1))]; lia.
Qed.

Lemma day_before_first i :
  month4 i -> month4 (i + 1) -> addDaysISO (in_month (i + 1) 1) (-1) = in_month i 31.
Proof.
  intros Hi Hn. rewrite addDays_day by (apply in_month_iso; assumption || lia).
  rewrite <- (month_end_next i Hi Hn). replace (_ + 1 + -1) with (day_of (in_month i 31)) by lia.
  apply is_iso_day, in_month_iso; assumption || lia.
Qed.

Lemma day_after_last i :
  month4 i -> month4 (i + 1) -> addDaysISO (in_month i 31) 1 = in_month (i + 1) 1.
Proof.
  intros Hi Hn. rewrite addDays_day by (apply in_month_iso; assumption || lia).
  rewrite (month_end_next i Hi Hn). apply is_iso_day, in_month_iso; assumption || lia.
Qed.

(** The last day of the month of a date. *)
Lemma endOfMonth_spec s :
  is_iso s -> month4 (month_index s + 1) -> endOfMonth s = in_month (month_index s) 31.
Proof.
  intros Hs Hn. destruct Hs as (y & m & d & Hv & Hy & ->). destruct (valid_pad _ _ _ Hv) as [Hmp Hdp].
  destruct Hv as [Hm Hd]. pose proof (month_days_bound y m Hm) as Hb. unfold endOfMonth.
  assert (year_month (fmt y m d) ++ "-01" = fmt y m 1) as ->.
  { rewrite year_month_fmt, fmt_digits by (assumption || lia). rewrite !append_assoc. reflexivity. }
  assert (H1 : is_iso (fmt y m 1)) by (apply is_iso_fmt; [split; lia|exact Hy]).
  assert (Mi : month_index (fmt y m 1) = month_index (fmt y m d) /\ dom (fmt y m 1) = 1).
  { unfold month_index, dom. rewrite !parts_fmt by (assumption || lia). auto. }
  destruct Mi as (M1 & D1). destruct (iso_fields _ H1) as (_ & M4 & _). rewrite <- M1 in Hn |- *.
  rewrite addMonths_in_month by assumption. rewrite D1. apply day_before_first; assumption.
Qed.

(** The last day of a month is recognised. *)
Lemma isLastDay_in_month i : month4 i -> i < 119988 -> isLastDayOfMonth (in_month i 31) = true.
Proof.
  intros Hi Hlt. pose proof (in_month_valid i 31 ltac:(lia)) as V. unfold in_month.
  rewrite isLastDay_iff; [|exact V|unfold month4 in *; Z.to_euclidean_division_equations; lia].
  pose proof (month_days_bound (i / 12) _ (proj1 V)). rewrite Z.min_r by lia. apply Z.eqb_refl.
Qed.

(** Covered periods are contiguous for anchors on days 1 to 27 and on the
    31st: the period of the [n+1]-th due date starts the day after the [n]-th
    due date, in every month (a 31st anchor returns to the 31st after a short
    month). *)
Theorem covered_periods_contiguous anchor cadence months n d0 d1 :
  is_iso anchor -> dom anchor <= 27 \/ dom anchor = 31 ->
  cadenceMonths cadence = Some months -> 0 <= n ->
  month4 (month_index anchor + months * (n + 1) + 12) ->
  nthDueDate anchor cadence n = Ok (Some d0) -> nthDueDate anchor cadence (n + 1) = Ok (Some d1) ->
  periodStart (coveredPeriod d1 cadence) = addDaysISO d0 1 /\ periodEnd (coveredPeriod d1 cadence) = d1.
Proof.
  intros Ha Hd Hc Hn Hm. unfold nthDueDate, coveredPeriod. rewrite Hc.
  rewrite (proj2 (Z.ltb_ge n 0)), (proj2 (Z.ltb_ge (n + 1) 0)) by lia. intros [= <-] [= <-].
  split; [|reflexivity]. cbn [periodStart]. f_equal.
  destruct (iso_fields anchor Ha) as (_ & Ma & Hd1). unfold month4 in Hm, Ma.
  assert (1 <= months) by (destruct cadence; cbn in Hc; congruence || (injection Hc as <-; lia)).
  set (i := month_index anchor + months * n).
  assert (R : month4 i /\ month4 (i + months) /\ month4 (i + 1) /\ i + months + 12 < 120000)
    by (unfold i, month4; nia). destruct R as (R0 & R1 & R2 & R3).
  assert (E0 : addMonthsClamped anchor (months * n) = in_month i (dom anchor))
    by (apply addMonths_in_month; assumption).
  assert (E1 : addMonthsClamped anchor (months * (n + 1)) = in_month (i + months) (dom anchor)).
  { replace (i + months) with (month_index anchor + months * (n + 1)) by (unfold i; lia).
    apply addMonths_in_month; [assumption|]. unfold i, month4 in *. lia. }
  rewrite E0, E1. pose proof (in_month_iso _ (dom anchor) R1 ltac:(lia)) as I1.
  pose proof (month_index_in_month _ (dom anchor) R1 ltac:(lia)) as M1.
  pose proof (in_month_valid (i + months) (dom anchor) ltac:(lia)) as V1.
  pose proof (month_days_bound ((i + months) / 12) _ (proj1 V1)) as B1.
  assert (Hdom : dom (in_month (i + months) (dom anchor)) = Z.min (dom anchor) (month_days ((i + months) / 12) ((i + months) mod 12 + 1)))
    by (unfold dom at 1; rewrite parts_in_month by (assumption || lia); reflexivity).
  assert (Hst : addMonthsClamped (in_month (i + months) (dom anchor)) (- months)
                = in_month i (dom (in_month (i + months) (dom anchor)))).
  { rewrite addMonths_in_month by (rewrite ?M1, ?Z.add_opp_r, ?Z.add_simpl_r; assumption).
    rewrite M1. f_equal. lia. }
  rewrite Hst. unfold in_month at 1. rewrite isLastDay_iff; [|exact V1|unfold month4 in *; Z.to_euclidean_division_equations; lia].
  destruct Hd as [Hd|Hd].
  - rewrite Z.min_l by lia. rewrite (proj2 (Z.eqb_neq _ _)) by lia. rewrite Hdom, Z.min_l by lia. reflexivity.
  - rewrite Z.min_r by lia. rewrite Z.eqb_refl.
    assert (1 <= dom (in_month (i + months) (dom anchor))) by lia.
    rewrite endOfMonth_spec; rewrite ?month_index_in_month by (assumption || lia).
    + rewrite Hd. reflexivity.
    + apply in_month_iso; assumption.
    + exact R2.
Qed.

Lemma covered_periods_contiguous_witness :
  periodStart (coveredPeriod "2026-02-28" c_monthly) = "2026-02-01" /\
  periodEnd (coveredPeriod "2026-02-28" c_monthly) = "2026-02-28".
Proof.
  apply (covered_periods_contiguous "2026-01-31" c_monthly 1 0 "2026-01-31" "2026-02-28");
    try solve_iso; try lia; try (vm_compute; reflexivity); [right; vm_compute; reflexivity|].
  vm_compute. split; [discriminate|reflexivity].
Defined.

(** For anchors on the 28th to the 30th the covered periods leave days
    out: a monthly deliverable anchored on 2026-01-28 is next due on
    2026-02-28, and the period reported for that due date starts on
    2026-02-01, so 29 to 31 January are covered by neither period. *)
Theorem covered_period_gap :
  nthDueDate "2026-01-28" c_monthly 0 = Ok (Some "2026-01-28") /\
  nthDueDate "2026-01-28" c_monthly 1 = Ok (Some "2026-02-28") /\
  addDaysISO (periodEnd (coveredPeriod "2026-01-28" c_monthly)) 1 = "2026-01-29" /\
  periodStart (coveredPeriod "2026-02-28" c_monthly) = "2026-02-01".
Proof. vm_compute. repeat split; reflexivity. Qed.

(** ** Planning *)

(** The [n]-th due date, its window test, its filter and its occurrence. *)
Definition due (input : PlanInput) (n : Z) : option string :=
  match nthDueDate (anchorDueDate input) (pi_cadence input) n with Ok d => d | Err _ => None end.

Definition in_window (input : PlanInput) (n : Z) : bool :=
  match due input n with
  | Some d => isInLeadWindow d (leadDays input) (today input) &&
              match effectiveUntil input with Some u => str_leb d u | None => true end
  | None => false
  end.

Definition eligible (input : PlanInput) (n : Z) : bool :=
  match due input n with
  | Some d => str_leb (effectiveFrom input) d && negb (has_due (existingDueDates input) d)
  | None => false
  end.

Definition occurrence (input : PlanInput) (n : Z) : PlannedOccurrence :=
  let d := match due input n with Some d => d | None => "" end in
  {| po_period := coveredPeriod d (pi_cadence input); dueAt := d;
     initialStatus := if isPastGrace d (graceDays input) (today input) then missed else scheduled |}.

Definition first_indices (n : nat) : list Z := map Z.of_nat (seq 0 n).

Lemma first_indices_S n : first_indices (S n) = (first_indices n ++ [Z.of_nat n])%list.
Proof. unfold first_indices. rewrite seq_S, map_app. reflexivity. Qed.

(** The occurrences of the eligible indices below [n]. *)
Definition planned (input : PlanInput) (n : nat) : list PlannedOccurrence :=
  map (occurrence input) (filter (eligible input) (first_indices n)).

Lemma planned_S input n :
  planned input (S n) =
    (planned input n ++ if eligible input (Z.of_nat n) then [occurrence input (Z.of_nat n)] else [])%list.
Proof.
  unfold planned. rewrite first_indices_S, filter_app, map_app. f_equal. simpl.
  destruct (eligible input (Z.of_nat n)); reflexivity.
Qed.

Definition plan_cap (input : PlanInput) : Z := match pi_cap input with Some c => c | None => 12 end.

(** Inputs whose schedule stays within four-digit years. *)
Definition plan_ok (input : PlanInput) : Prop :=
  is_iso (anchorDueDate input) /\ is_iso (today input) /\ 0 <= leadDays input /\
  day4 (day_of (today input) + leadDays input) /\ day4 (day_of (anchorDueDate input) - leadDays input) /\
  month_index (addDaysISO (today input) (leadDays input)) + 24 < 120000 /\
  month_index (anchorDueDate input) + 24 < 120000.

Section Planning.
Variable input : PlanInput.
Hypothesis Hok : plan_ok input.

Let last := addDaysISO (today input) (leadDays input).

Local Lemma due_month n d :
  0 <= n -> due input n = Some d -> cadenceMonths (pi_cadence input) = None /\ n = 0 /\ d = anchorDueDate input \/
  exists k, 1 <= k <= 12 /\ cadenceMonths (pi_cadence input) = Some k /\ d = addMonthsClamped (anchorDueDate input) (k * n).
Proof.
  intros Hn. unfold due, nthDueDate. rewrite (proj2 (Z.ltb_ge n 0)) by lia.
  destruct (cadenceMonths (pi_cadence input)) as [k|] eqn:Ek.
  - intros [= <-]. right. exists k. split; [|auto]. destruct (pi_cadence input); cbn in Ek; congruence || (injection Ek as <-; lia).
  - destruct (Z.eqb_spec n 0); [intros [= <-]; auto|discriminate].
Qed.

(** A due date whose predecessor is not past the window is a proper date. *)
Local Lemma due_iso n d k :
  cadenceMonths (pi_cadence input) = Some k -> 1 <= k <= 12 -> 0 <= n ->
  month_index (anchorDueDate input) + k * n <= Z.max (month_index last) (month_index (anchorDueDate input)) + 12 ->
  due input n = Some d ->
  is_iso d /\ month_index d = month_index (anchorDueDate input) + k * n.
Proof.
  intros Hk Hk12 Hn Hb Hd. destruct Hok as (Ha & _ & _ & _ & _ & H1 & H2). fold last in H1.
  destruct (due_month n d Hn Hd) as [(Hc & _)|(k' & _ & Hc & ->)]; [congruence|].
  assert (k' = k) as -> by congruence. destruct (iso_fields _ Ha) as (_ & Ma & _).
  apply addMonths_iso; [exact Ha|]. unfold month4 in *. nia.
Qed.

Local Lemma lead_window d :
  is_iso d -> day_of (anchorDueDate input) <= day_of d ->
  isInLeadWindow d (leadDays input) (today input) = (day_of d <=? day_of last).
Proof.
  intros Hd Hge. destruct Hok as (Ha & Ht & Hl & Hb1 & Hb2 & _). unfold isInLeadWindow.
  destruct (addDays_iso d (- leadDays input) Hd) as [Iw Dw].
  { destruct (is_iso_day d Hd) as [_ Hd4]. unfold day4 in *. lia. }
  rewrite (iso_leb _ _ Iw Ht), Dw. destruct (addDays_iso _ _ Ht Hb1) as [_ Dl]. fold last in Dl. rewrite Dl.
  destruct (Z.leb_spec (day_of d + - leadDays input) (day_of (today input))),
    (Z.leb_spec (day_of d) (day_of (today input) + leadDays input)); lia || reflexivity.
Qed.

(** What the loop knows before it looks at index [n]: the index is the first,
    the previous due date of a recurring schedule is not past the lead window,
    or a one-time schedule has been read. *)
Definition reached (n : Z) : Prop :=
  n = 0 \/
  (exists k, cadenceMonths (pi_cadence input) = Some k /\ 1 <= k <= 12 /\ 1 <= n /\
     month_index (anchorDueDate input) + k * (n - 1) <= month_index last) \/
  (cadenceMonths (pi_cadence input) = None /\ n = 1).

Lemma reached_bound n :
  reached n -> 0 <= n <= Z.max 0 (month_index last - month_index (anchorDueDate input)) + 1.
Proof. intros [->|[(k & _ & Hk & Hn & H)|[_ ->]]]; [lia|nia|lia]. Qed.

Lemma due_anchor n d :
  reached n -> due input n = Some d -> is_iso d /\ day_of (anchorDueDate input) <= day_of d /\
  forall k, cadenceMonths (pi_cadence input) = Some k -> month_index d = month_index (anchorDueDate input) + k * n.
Proof.
  intros Hr Hd. pose proof (reached_bound n Hr) as Hb. pose proof Hok as (Ha & _).
  destruct (due_month n d ltac:(lia) Hd) as [(Hc & -> & ->)|(k & Hk & Hc & E)].
  - split; [exact Ha|]. split; [lia|]. congruence.
  - assert (Hm : month_index (anchorDueDate input) + k * n <=
                 Z.max (month_index last) (month_index (anchorDueDate input)) + 12).
    { destruct Hr as [->|[(k' & Hk' & _ & _ & H)|[Hc' _]]]; [nia| |congruence].
      assert (k' = k) as -> by congruence. nia. }
    destruct (due_iso n d k Hc Hk ltac:(lia) Hm Hd) as [Id Md].
    split; [exact Id|]. split; [|intros k' Hk'; assert (k' = k) as -> by congruence; exact Md].
    destruct (Z.eq_dec n 0) as [->|Hn].
    + rewrite Z.mul_0_r in E. destruct (iso_fields _ Ha) as (Ea & Ma & _).
      rewrite addMonths_in_month, Z.add_0_r, <- Ea in E by (assumption || (rewrite Z.add_0_r; assumption)).
      rewrite E. lia.
    + pose proof (month_index_lt _ _ Ha Id ltac:(nia)). lia.
Qed.

Lemma reached_step n : reached n -> in_window input n = true -> reached (n + 1).
Proof.
  intros Hr Hw. pose proof (reached_bound n Hr) as Hb. unfold in_window in Hw.
  destruct (due input n) as [d|] eqn:Ed; [|discriminate]. apply andb_true_iff in Hw as [Hw _].
  destruct (due_anchor n d Hr Ed) as (Id & Hge & Hm).
  rewrite (lead_window d Id Hge) in Hw. apply Z.leb_le in Hw.
  destruct (due_month n d ltac:(lia) Ed) as [(Hc & -> & _)|(k & Hk & Hc & _)].
  - right. right. auto.
  - right. left. exists k. split; [exact Hc|]. split; [exact Hk|]. split; [lia|].
    destruct Hok as (_ & Ht & _ & Hb1 & _). destruct (addDays_iso _ _ Ht Hb1) as [Il _]. fold last in Il.
    pose proof (month_index_le _ _ Id Il Hw) as H. rewrite (Hm k Hc) in H.
    replace (n + 1 - 1) with n by lia. exact H.
Qed.

(** One turn of the loop, in terms of the window and the filter. *)
Lemma plan_loop_step f cap n out :
  0 <= n ->
  plan_loop (S f) input cap n out =
    if Z.of_nat (List.length out) <? cap then
      if in_window input n then
        plan_loop f input cap (n + 1) (if eligible input n then out ++ [occurrence input n] else out)
      else Some out
    else Some out.
Proof.
  intros Hn. cbn [plan_loop]. destruct (Z.of_nat (List.length out) <? cap); [|reflexivity].
  unfold in_window, eligible, occurrence, due. destruct (nthDueDate _ _ n) as [[d|]|]; try reflexivity.
  destruct (isInLeadWindow d _ _); [|reflexivity]. cbn [negb andb].
  unfold str_leb. destruct (effectiveUntil input) as [u|].
  - destruct (str_ltb u d); [reflexivity|]. cbn [negb].
    destruct (str_ltb d (effectiveFrom input)), (has_due (existingDueDates input) d); reflexivity.
  - destruct (str_ltb d (effectiveFrom input)), (has_due (existingDueDates input) d); reflexivity.
Qed.

Lemma plan_loop_spec fuel n cap :
  reached (Z.of_nat n) ->
  Z.max 0 (month_index last - month_index (anchorDueDate input)) + 3 <= Z.of_nat fuel + Z.of_nat n ->
  Z.of_nat (List.length (planned input n)) <= Z.max cap 0 ->
  exists N, plan_loop fuel input cap (Z.of_nat n) (planned input n) = Some (planned input N) /\
    (n <= N)%nat /\ (forall m, (n <= m < N)%nat -> in_window input (Z.of_nat m) = true) /\
    (cap <= Z.of_nat (List.length (planned input N)) \/ in_window input (Z.of_nat N) = false) /\
    Z.of_nat (List.length (planned input N)) <= Z.max cap 0.
Proof.
  revert n. induction fuel as [|f IH]; intros n Hr Hf Hl.
  { pose proof (reached_bound _ Hr). lia. }
  rewrite plan_loop_step by lia. destruct (Z.ltb_spec (Z.of_nat (List.length (planned input n))) cap) as [Hc|Hc].
  - destruct (in_window input (Z.of_nat n)) eqn:Ew.
    + replace (if eligible input (Z.of_nat n) then (planned input n ++ [occurrence input (Z.of_nat n)])%list
               else planned input n) with (planned input (S n))
        by (rewrite planned_S; destruct (eligible _ _); [reflexivity|apply app_nil_r]).
      replace (Z.of_nat n + 1) with (Z.of_nat (S n)) by lia.
      destruct (IH (S n)) as (N & HN & Hle & Hw & Hstop & Hlen); [| | |].
      * replace (Z.of_nat (S n)) with (Z.of_nat n + 1) by lia. apply reached_step; assumption.
      * lia.
      * rewrite planned_S, length_app. destruct (eligible _ _); simpl; lia.
      * exists N. split; [exact HN|]. split; [lia|]. split; [|auto].
        intros m Hm. destruct (Nat.eq_dec m n) as [->|]; [exact Ew|apply Hw; lia].
    + exists n. split; [reflexivity|]. split; [lia|]. split; [intros; lia|auto].
  - exists n. split; [reflexivity|]. split; [lia|]. split; [intros; lia|auto].
Qed.
End Planning.

(** C37: Planning terminates and is exact: the loop ends within its fuel, and
    there is an index [N] such that the planned occurrences are, in order, the
    occurrences of exactly the eligible due dates (not before the effective
    start, not materialised yet) among the first [N]; every due date before [N]
    is inside the lead window and not after the effective end, the [N]-th is
    not or the cap is reached, and the cap is never exceeded. *)
Theorem plan_occurrences_exact input :
  plan_ok input ->
  exists N, planOccurrences input = Some (planned input N) /\
    (forall m, (m < N)%nat -> in_window input (Z.of_nat m) = true) /\
    (plan_cap input <= Z.of_nat (List.length (planned input N)) \/ in_window input (Z.of_nat N) = false) /\
    Z.of_nat (List.length (planned input N)) <= Z.max (plan_cap input) 0.
Proof.
  intros Hok.
  destruct (plan_loop_spec input Hok (plan_fuel input) 0 (plan_cap input)) as (N & HN & _ & Hw & Hs & Hl).
  - left. reflexivity.
  - unfold plan_fuel. rewrite Z2Nat.id; lia.
  - simpl. lia.
  - exists N. split; [exact HN|]. split; [intros m Hm; apply Hw; lia|auto].
Qed.

Definition demo_plan : PlanInput :=
  {| anchorDueDate := "2026-01-31"; pi_cadence := c_monthly; effectiveFrom := "2026-02-01"; effectiveUntil := None;
     leadDays := 14; graceDays := 7; today := "2026-04-20"; existingDueDates := ["2026-03-31"]; pi_cap := None |}.

Lemma plan_occurrences_exact_witness :
  exists N, planOccurrences demo_plan = Some (planned demo_plan N) /\
    (forall m, (m < N)%nat -> in_window demo_plan (Z.of_nat m) = true) /\
    (plan_cap demo_plan <= Z.of_nat (List.length (planned demo_plan N)) \/ in_window demo_plan (Z.of_nat N) = false) /\
    Z.of_nat (List.length (planned demo_plan N)) <= Z.max (plan_cap demo_plan) 0.
Proof.
  apply (plan_occurrences_exact demo_plan). unfold plan_ok, demo_plan; cbn [anchorDueDate today leadDays].
  split; [solve_iso|]. split; [solve_iso|]. split; [lia|].
  split; [vm_compute; split; [discriminate|reflexivity]|].
  split; [vm_compute; split; [discriminate|reflexivity]|].
  split; vm_compute; reflexivity.
Defined.

(** The first anchor of a template item makes the covered period begin on
    the effective date whenever that date is a first of the month (monthly,
    quarterly, semi-annual or annual): the comment's "2026-02-01 covers from
    2026-01-29" does not happen. *)
Theorem first_anchor_covers_from_first_of_month y m cadence months :
  1001 <= y <= 9990 -> 1 <= m <= 12 -> cadenceMonths cadence = Some months ->
  periodStart (coveredPeriod (firstAnchorAfter (fmt y m 1) cadence) cadence) = fmt y m 1.
Proof.
  intros Hy Hm Hc. assert (H4 : year4 y) by (unfold year4; lia).
  assert (1 <= months <= 12) by (destruct cadence; cbn in Hc; congruence || (injection Hc as <-; lia)).
  pose proof (month_days_bound y m Hm) as Hb.
  assert (Ia : is_iso (fmt y m 1)) by (apply is_iso_fmt; [split; lia|exact H4]).
  destruct (iso_fields _ Ia) as (Ea & Ma & _).
  assert (Mi : month_index (fmt y m 1) = y * 12 + (m - 1) /\ dom (fmt y m 1) = 1)
    by (unfold month_index, dom; rewrite !parts_fmt by (assumption || lia); auto).
  destruct Mi as [M1 D1]. set (i := month_index (fmt y m 1)) in *. rewrite D1 in Ea.
  assert (R : forall j, -1 <= j <= 13 -> month4 (i + j)) by (unfold month4; lia).
  unfold firstAnchorAfter, coveredPeriod. rewrite Hc. cbn [periodStart].
  rewrite addMonths_in_month by (exact Ia || (apply R; lia)). fold i. rewrite D1.
  replace (i + months) with (i + (months - 1) + 1) by lia.
  rewrite day_before_first by (rewrite <- ?Z.add_assoc; apply R; lia).
  rewrite isLastDay_in_month by first [apply R; lia | lia].
  assert (I2 : is_iso (in_month (i + (months - 1)) 31)) by (apply in_month_iso; [apply R|]; lia).
  assert (M2 : month_index (in_month (i + (months - 1)) 31) = i + (months - 1))
    by (apply month_index_in_month; [apply R|]; lia).
  destruct (addMonths_iso (in_month (i + (months - 1)) 31) (- months) I2) as [I3 M3].
  { rewrite M2. replace (i + (months - 1) + - months) with (i + -1) by lia. apply R. lia. }
  assert (M3' : month_index (addMonthsClamped (in_month (i + (months - 1)) 31) (- months)) = i + -1)
    by (rewrite M3, M2; lia).
  rewrite endOfMonth_spec by (rewrite ?M3', <- ?Z.add_assoc; exact I3 || (apply R; lia)).
  rewrite M3', day_after_last by (rewrite <- ?Z.add_assoc; apply R; lia).
  replace (i + -1 + 1) with i by lia. symmetry. exact Ea.
Qed.

Lemma first_anchor_covers_from_first_of_month_witness :
  periodStart (coveredPeriod (firstAnchorAfter (fmt 2026 2 1) c_monthly) c_monthly) = "2026-02-01".
Proof. apply (first_anchor_covers_from_first_of_month 2026 2 c_monthly 1); lia || reflexivity. Defined.
