(* ===== verification/ContractCoverage.v ===== *)
(** * Device-counted contract lines
      ([apps/api/src/services/contractAllowance.ts], [contractCoverage.ts],
       [contractQuantities.ts], [contractSnapshot.ts])

    The split of a counted quantity into billed units and overage, the one
    snapshot of an organization's billable devices, which devices a contract
    line bills, the canonical evidence order, and the devices no line bills. *)

From stdpp Require Import base gmap strings list.
From Stdlib Require Import Sorting.Permutation Sorting.Sorted QArith Qfield.
From S2P Require Import Prelude JsString JsNumber Currency.

Local Open Scope string_scope.
Local Open Scope Z_scope.
Local Open Scope billing_scope.

(** ** Allowances *)

Inductive OverageMode := om_bill | om_flag.

Inductive BaseBillingMode := included_units | single_block.

Record AllowanceSpec := mkAllowance {
  includedQuantity : option string;
  overageMode : option OverageMode;
  overageUnitPrice : option string;
}.

Record ResolvedQuantity := mkResolved {
  rq_counted : num;
  rq_billed : num;
  rq_included : option num;
  rq_overage : num;
  rq_overageMode : option OverageMode;
}.

Definition applyAllowance (counted : num) (spec : AllowanceSpec) (baseBillingMode : BaseBillingMode)
  : ResolvedQuantity :=
  let included := option_map js_Number (includedQuantity spec) in
  let base (units : num) := match baseBillingMode with single_block => ofZ 1 | included_units => units end in
  match included with
  | None => mkResolved counted (base counted) None (ofZ 0) None
  | Some i =>
      mkResolved counted (base i) (Some i) (math_max (ofZ 0) (js_sub counted i)) (overageMode spec)
  end.

Definition billsOverage (r : ResolvedQuantity) : bool :=
  match rq_overageMode r with Some om_bill => js_gt (rq_overage r) (ofZ 0) | _ => false end.

Definition overageValue (r : ResolvedQuantity) (overageUnitPrice : option string) (currencyCode : string)
  : result string string :=
  match overageUnitPrice with
  | Some p => if billsOverage r then multiplyToCurrency (Num (rq_overage r)) (Str p) currencyCode
              else multiplyToCurrency (Num (ofZ 0)) (Str "0") currencyCode
  | None => multiplyToCurrency (Num (ofZ 0)) (Str "0") currencyCode
  end.

(** ** The device tables *)

Record DeviceSnapshotRow := mkRow {
  row_id : string; row_hostname : string; row_role : string; row_siteId : option string }.

#[export] Instance row_eq_dec : EqDecision DeviceSnapshotRow.
Proof. solve_decision. Defined.

(** A row of the [devices] table, the columns the queries read. *)
Record Device := mkDevice {
  dev_row : DeviceSnapshotRow; dev_orgId : string; dev_decommissioned : bool; dev_isEphemeral : bool }.

Definition billableDeviceConds (orgId : string) (d : Device) : bool :=
  String.eqb (dev_orgId d) orgId && negb (dev_decommissioned d) && negb (dev_isEphemeral d).

Definition opt_eqb (a b : option string) : bool :=
  match a, b with
  | Some x, Some y => String.eqb x y
  | None, None => true
  | _, _ => false
  end.

Definition str_mem (x : string) (l : list string) : bool := existsb (String.eqb x) l.

Lemma str_mem_in x l : str_mem x l = true <-> In x l.
Proof.
  unfold str_mem. rewrite existsb_exists. split.
  - intros (y & Hy & E). apply String.eqb_eq in E as ->. exact Hy.
  - intros Hx. exists x. split; [exact Hx|apply String.eqb_refl].
Qed.

Inductive QuantityError := ROLES_MUST_BE_NON_EMPTY.

(** A truthy [siteId] narrows; an empty role list is refused. *)
Definition countContractDevices (devices : list Device) (orgId : string) (siteId : option string)
    (roles : option (list string)) : result QuantityError Z :=
  match roles with
  | Some [] => Err ROLES_MUST_BE_NON_EMPTY
  | _ =>
      let at_site (d : Device) := match siteId with
                                  | Some s => String.eqb s "" || opt_eqb (row_siteId (dev_row d)) (Some s)
                                  | None => true
                                  end in
      let in_roles (d : Device) := match roles with Some rs => str_mem (row_role (dev_row d)) rs | None => true end in
      Ok (Z.of_nat (List.length (List.filter (fun d => billableDeviceConds orgId d && at_site d && in_roles d) devices)))
  end.

Definition snapshotContractDevices (devices : list Device) (orgId : string) : list DeviceSnapshotRow :=
  map dev_row (List.filter (billableDeviceConds orgId) devices).

Definition billableDeviceById (devices : list Device) (deviceId orgId : string) : option DeviceSnapshotRow :=
  option_map dev_row
    (List.find (fun d => billableDeviceConds orgId d && String.eqb (row_id (dev_row d)) deviceId) devices).

(** ** Groups and the snapshot *)

Record GroupMembers := mkGroup { gm_siteId : option string; memberIds : gset string }.

(** [matched] and [pinned] come from the group resolver. *)
Definition groupMembersForBilling (siteId : option string) (matched pinned : list string) : GroupMembers :=
  mkGroup siteId (list_to_set matched ∪ list_to_set pinned).

Record OrgDeviceSnapshot := mkSnapshot {
  sn_devices : list DeviceSnapshotRow;
  sn_groups : gmap string GroupMembers;
}.

(** A row of [device_groups]: the evaluation of its filter is the resolver's. *)
Record DeviceGroup := mkDeviceGroup {
  dg_id : string; dg_orgId : string; dg_name : string; dg_siteId : option string }.

Record OrgDeviceSnapshotResult := mkSnapshotResult {
  sr_snapshot : OrgDeviceSnapshot;
  sr_groupErrors : gmap string string;
  sr_groupNames : gmap string string;
}.

Section Builder.
(** [resolveEffectiveGroupMembers]: the matched and pinned members of a group,
    or the [GroupEvaluationError] it throws. *)
Variable resolveEffectiveGroupMembers : DeviceGroup -> result string (list string * list string).

Definition add_group (r : OrgDeviceSnapshotResult) (g : DeviceGroup) : OrgDeviceSnapshotResult :=
  let names := <[dg_id g := dg_name g]> (sr_groupNames r) in
  match resolveEffectiveGroupMembers g with
  | Ok (matched, pinned) =>
      let sn := sr_snapshot r in
      mkSnapshotResult
        (mkSnapshot (sn_devices sn) (<[dg_id g := groupMembersForBilling (dg_siteId g) matched pinned]> (sn_groups sn)))
        (sr_groupErrors r) names
  | Err e => mkSnapshotResult (sr_snapshot r) (<[dg_id g := e]> (sr_groupErrors r)) names
  end.

Definition buildOrgDeviceSnapshot (devices : list Device) (deviceGroups : list DeviceGroup) (orgId : string)
    (groupIds : list string) (prefetched : option (list DeviceSnapshotRow)) : OrgDeviceSnapshotResult :=
  let devicesList := match prefetched with Some d => d | None => snapshotContractDevices devices orgId end in
  let wanted := list_to_set groupIds : gset string in
  let rows := List.filter (fun g => bool_decide (dg_id g ∈ wanted) && String.eqb (dg_orgId g) orgId) deviceGroups in
  fold_left add_group rows (mkSnapshotResult (mkSnapshot devicesList ∅) ∅ ∅).
End Builder.

(** ** Which devices a line bills *)

Inductive ContractLineType := lt_flat | lt_per_device | lt_per_device_role | lt_per_device_group | lt_per_seat | lt_manual.

#[export] Instance line_type_eq_dec : EqDecision ContractLineType.
Proof. solve_decision. Defined.

Record CoverageLine := mkCoverage {
  cl_lineType : ContractLineType;
  cl_siteId : option string;
  cl_deviceRoles : option (list string);
  cl_deviceGroupId : option string;
}.

Definition isDeviceLine (line : CoverageLine) : bool :=
  match cl_lineType line with
  | lt_per_device | lt_per_device_role | lt_per_device_group => true
  | _ => false
  end.

Inductive CoverageError :=
| ROLE_LINE_WITHOUT_ROLES
| GROUP_LINE_WITHOUT_GROUP
| GROUP_NOT_IN_SNAPSHOT (groupId : string)
| NOT_A_DEVICE_LINE (t : ContractLineType).

Definition assertResolvable (line : CoverageLine) (snapshot : OrgDeviceSnapshot) : result CoverageError unit :=
  match cl_lineType line with
  | lt_per_device_role =>
      match cl_deviceRoles line with
      | None | Some [] => Err ROLE_LINE_WITHOUT_ROLES
      | Some _ => Ok tt
      end
  | lt_per_device_group =>
      match cl_deviceGroupId line with
      | None => Err GROUP_LINE_WITHOUT_GROUP
      | Some g =>
          if String.eqb g "" then Err GROUP_LINE_WITHOUT_GROUP
          else match sn_groups snapshot !! g with
               | Some _ => Ok tt
               | None => Err (GROUP_NOT_IN_SNAPSHOT g)
               end
      end
  | _ => Ok tt
  end.

Inductive CoverageMatchReason := mr_org | mr_site | mr_role | mr_group.

(** The group branch is reached only after [assertResolvable]; a missing group
    matches nothing here. *)
Definition matchReason (line : CoverageLine) (row : DeviceSnapshotRow) (snapshot : OrgDeviceSnapshot)
  : option CoverageMatchReason :=
  if match cl_siteId line with Some s => negb (opt_eqb (Some s) (row_siteId row)) | None => false end then None
  else match cl_lineType line with
  | lt_per_device => Some (match cl_siteId line with None => mr_org | Some _ => mr_site end)
  | lt_per_device_role =>
      if match cl_deviceRoles line with Some rs => str_mem (row_role row) rs | None => false end
      then Some mr_role else None
  | lt_per_device_group =>
      match cl_deviceGroupId line ≫= (fun g => sn_groups snapshot !! g) with
      | Some g =>
          if bool_decide (row_id row ∈ memberIds g) &&
             match gm_siteId g with Some s => opt_eqb (Some s) (row_siteId row) | None => true end
          then Some mr_group else None
      | None => None
      end
  | _ => None
  end.

Definition coverageMatch (line : CoverageLine) (row : DeviceSnapshotRow) (snapshot : OrgDeviceSnapshot)
  : result CoverageError (option CoverageMatchReason) :=
  let! _ := assertResolvable line snapshot in
  Ok (matchReason line row snapshot).

Definition lineMatches (line : CoverageLine) (row : DeviceSnapshotRow) (snapshot : OrgDeviceSnapshot)
  : result CoverageError bool :=
  let! m := coverageMatch line row snapshot in
  Ok (match m with Some _ => true | None => false end).

Definition is_matched (line : CoverageLine) (snapshot : OrgDeviceSnapshot) (row : DeviceSnapshotRow) : bool :=
  match matchReason line row snapshot with Some _ => true | None => false end.

Definition matchingDevicesForLine (snapshot : OrgDeviceSnapshot) (line : CoverageLine)
  : result CoverageError (list DeviceSnapshotRow) :=
  let! _ := assertResolvable line snapshot in
  if negb (isDeviceLine line) then Err (NOT_A_DEVICE_LINE (cl_lineType line))
  else Ok (List.filter (is_matched line snapshot) (sn_devices snapshot)).

Definition quantityFor (snapshot : OrgDeviceSnapshot) (line : CoverageLine) : result CoverageError Z :=
  let! rows := matchingDevicesForLine snapshot line in
  Ok (Z.of_nat (List.length rows)).

(** ** The canonical evidence order *)

Definition compareEvidenceDevices (a b : DeviceSnapshotRow) : Z :=
  if str_ltb (row_hostname a) (row_hostname b) then -1
  else if str_ltb (row_hostname b) (row_hostname a) then 1
  else if str_ltb (row_id a) (row_id b) then -1
  else if str_ltb (row_id b) (row_id a) then 1 else 0.

(** [Array.prototype.sort] is stable: an element stays before its equals. *)
Fixpoint ev_insert (x : DeviceSnapshotRow) (l : list DeviceSnapshotRow) : list DeviceSnapshotRow :=
  match l with
  | [] => [x]
  | y :: r => if compareEvidenceDevices x y <=? 0 then x :: l else y :: ev_insert x r
  end.

Definition orderDevicesForEvidence (rows : list DeviceSnapshotRow) : list DeviceSnapshotRow :=
  fold_right ev_insert [] rows.

(** ** Devices no line bills *)

Record UncoveredDevices := mkUncovered { uc_total : Z; uc_byRole : gmap string Z }.

Fixpoint assert_all (lines : list CoverageLine) (snapshot : OrgDeviceSnapshot) : result CoverageError unit :=
  match lines with
  | [] => Ok tt
  | l :: rest => let! _ := assertResolvable l snapshot in assert_all rest snapshot
  end.

(** [deviceLines.some(l => lineMatches(l, row, snapshot))]. *)
Fixpoint some_matches (lines : list CoverageLine) (row : DeviceSnapshotRow) (snapshot : OrgDeviceSnapshot)
  : result CoverageError bool :=
  match lines with
  | [] => Ok false
  | l :: rest =>
      let! m := lineMatches l row snapshot in
      if m then Ok true else some_matches rest row snapshot
  end.

Definition count_role (role : string) (u : UncoveredDevices) : UncoveredDevices :=
  mkUncovered (uc_total u + 1)
    (<[role := match uc_byRole u !! role with Some n => n | None => 0 end + 1]> (uc_byRole u)).

Fixpoint uncovered_loop (deviceLines : list CoverageLine) (snapshot : OrgDeviceSnapshot)
    (rows : list DeviceSnapshotRow) (u : UncoveredDevices) : result CoverageError UncoveredDevices :=
  match rows with
  | [] => Ok u
  | row :: rest =>
      let! m := some_matches deviceLines row snapshot in
      uncovered_loop deviceLines snapshot rest (if m then u else count_role (row_role row) u)
  end.

Definition uncoveredByRole (snapshot : OrgDeviceSnapshot) (lines : list CoverageLine)
  : result CoverageError UncoveredDevices :=
  let! _ := assert_all lines snapshot in
  uncovered_loop (List.filter isDeviceLine lines) snapshot (sn_devices snapshot) (mkUncovered 0 ∅).

(** ** The string order is a strict total order *)

Lemma str_ltb_trans a b c : str_ltb a b = true -> str_ltb b c = true -> str_ltb a c = true.
Proof.
  revert b c. induction a as [|x a IH]; intros [|y b] [|z c] H1 H2; try discriminate; [reflexivity|].
  cbn [str_ltb] in *.
  destruct (N.ltb_spec (N_of_ascii x) (N_of_ascii y)), (N.ltb_spec (N_of_ascii y) (N_of_ascii z)),
    (N.ltb_spec (N_of_ascii y) (N_of_ascii x)), (N.ltb_spec (N_of_ascii z) (N_of_ascii y)),
    (N.ltb_spec (N_of_ascii x) (N_of_ascii z)), (N.ltb_spec (N_of_ascii z) (N_of_ascii x));
    try lia; try discriminate; try reflexivity. eauto.
Qed.

Lemma str_ltb_total a b : str_ltb a b = false -> str_ltb b a = false -> a = b.
Proof.
  revert b. induction a as [|x a IH]; intros [|y b] H1 H2; try discriminate; [reflexivity|].
  cbn [str_ltb] in *.
  destruct (N.ltb_spec (N_of_ascii x) (N_of_ascii y)); [discriminate|].
  destruct (N.ltb_spec (N_of_ascii y) (N_of_ascii x)); [discriminate|].
  f_equal; [|auto]. rewrite <- (ascii_N_embedding x), <- (ascii_N_embedding y). f_equal. lia.
Qed.

Lemma str_ltb_asym a b : str_ltb a b = true -> str_ltb b a = false.
Proof.
  intros H. destruct (str_ltb b a) eqn:E; [|reflexivity].
  pose proof (str_ltb_trans a b a H E) as Hc. rewrite str_ltb_irrefl in Hc. discriminate.
Qed.

(** [a] may stand before [b]. *)
Definition ev_le (a b : DeviceSnapshotRow) : Prop := compareEvidenceDevices a b <= 0.

Lemma ev_le_total a b : ev_le a b \/ ev_le b a.
Proof.
  unfold ev_le, compareEvidenceDevices.
  destruct (str_ltb (row_hostname a) (row_hostname b)) eqn:E1; [left; lia|].
  destruct (str_ltb (row_hostname b) (row_hostname a)) eqn:E2; [right; lia|].
  destruct (str_ltb (row_id a) (row_id b)) eqn:E3; [left; lia|].
  destruct (str_ltb (row_id b) (row_id a)) eqn:E4; [right; lia|left; lia].
Qed.

Lemma ev_le_trans a b c : ev_le a b -> ev_le b c -> ev_le a c.
Proof.
  unfold ev_le, compareEvidenceDevices. intros H1 H2.
  destruct (str_ltb (row_hostname a) (row_hostname b)) eqn:A1.
  - destruct (str_ltb (row_hostname b) (row_hostname c)) eqn:B1.
    + rewrite (str_ltb_trans _ _ _ A1 B1). lia.
    + destruct (str_ltb (row_hostname c) (row_hostname b)) eqn:B2; [lia|].
      rewrite (str_ltb_total _ _ B1 B2) in A1. rewrite A1. lia.
  - destruct (str_ltb (row_hostname b) (row_hostname a)) eqn:A2; [lia|].
    rewrite (str_ltb_total _ _ A1 A2).
    destruct (str_ltb (row_hostname b) (row_hostname c)) eqn:B1; [lia|].
    destruct (str_ltb (row_hostname c) (row_hostname b)) eqn:B2; [lia|].
    destruct (str_ltb (row_id a) (row_id b)) eqn:A3.
    + destruct (str_ltb (row_id b) (row_id c)) eqn:B3; [rewrite (str_ltb_trans _ _ _ A3 B3); lia|].
      destruct (str_ltb (row_id c) (row_id b)) eqn:B4; [lia|].
      rewrite (str_ltb_total _ _ B3 B4) in A3. rewrite A3. lia.
    + destruct (str_ltb (row_id b) (row_id a)) eqn:A4; [lia|]. rewrite (str_ltb_total _ _ A3 A4). exact H2.
Qed.

Lemma ev_le_antisym a b : ev_le a b -> ev_le b a -> row_id a = row_id b.
Proof.
  unfold ev_le, compareEvidenceDevices. intros H1 H2.
  destruct (str_ltb (row_hostname a) (row_hostname b)) eqn:E1;
    [rewrite (str_ltb_asym _ _ E1) in H2; lia|].
  destruct (str_ltb (row_hostname b) (row_hostname a)) eqn:E2; [lia|].
  destruct (str_ltb (row_id a) (row_id b)) eqn:E3; [rewrite (str_ltb_asym _ _ E3) in H2; lia|].
  destruct (str_ltb (row_id b) (row_id a)) eqn:E4; [lia|]. apply str_ltb_total; assumption.
Qed.

Lemma ev_insert_perm x l : Permutation (x :: l) (ev_insert x l).
Proof.
  induction l as [|y l IH]; [reflexivity|]. cbn [ev_insert]. destruct (_ <=? 0); [reflexivity|].
  rewrite <- IH. apply perm_swap.
Qed.

Lemma ev_insert_sorted x l : StronglySorted ev_le l -> StronglySorted ev_le (ev_insert x l).
Proof.
  induction 1 as [|y l Hs IH Hy]; cbn [ev_insert]; [repeat constructor|].
  destruct (Z.leb_spec (compareEvidenceDevices x y) 0) as [H|H].
  - constructor; [constructor; assumption|]. constructor; [exact H|].
    rewrite List.Forall_forall in *. intros z Hz. apply (ev_le_trans x y z H), Hy, Hz.
  - constructor; [exact IH|]. rewrite <- ev_insert_perm. constructor; [|exact Hy].
    destruct (ev_le_total x y) as [Hc|Hc]; [unfold ev_le in Hc; lia|exact Hc].
Qed.

Lemma order_perm rows : Permutation rows (orderDevicesForEvidence rows).
Proof.
  induction rows as [|x rows IH]; [reflexivity|]. unfold orderDevicesForEvidence in *. cbn [fold_right].
  rewrite <- ev_insert_perm. constructor. exact IH.
Qed.

Lemma order_sorted rows : StronglySorted ev_le (orderDevicesForEvidence rows).
Proof. induction rows as [|x rows IH]; [constructor|]. apply ev_insert_sorted, IH. Qed.

(** Two sorted arrangements of rows with distinct ids are the same. *)
Lemma sorted_unique l1 l2 :
  StronglySorted ev_le l1 -> StronglySorted ev_le l2 -> Permutation l1 l2 ->
  List.NoDup (map row_id l1) -> l1 = l2.
Proof.
  intros H1. revert l2. induction H1 as [|x l1 Hs IH Hx]; intros l2 H2 Hp Hn.
  - apply Permutation_nil in Hp. congruence.
  - destruct H2 as [|y l2 Hs2 Hy]; [apply Permutation_sym, Permutation_nil in Hp; congruence|].
    rewrite List.Forall_forall in Hx, Hy. inversion Hn as [|? ? Hnx Hnl]; subst.
    assert (x = y) as ->.
    { assert (Hiny : List.In y (x :: l1)) by (apply (Permutation_in _ (Permutation_sym Hp)); left; reflexivity).
      assert (Hinx : List.In x (y :: l2)) by (apply (Permutation_in _ Hp); left; reflexivity).
      destruct Hiny as [?|Hiny]; [assumption|]. destruct Hinx as [?|Hinx]; [congruence|].
      exfalso. apply Hnx. rewrite (ev_le_antisym x y (Hx y Hiny) (Hy x Hinx)). apply List.in_map, Hiny. }
    f_equal. apply IH; [assumption| |assumption]. apply (Permutation_cons_inv Hp).
Qed.

(** ** Properties *)

(** The evidence order is reproducible: it is a sorted permutation of the
    rows, and two lists of the same devices (ids distinct), in whatever order
    the database returned them, are ordered identically. *)
Theorem evidence_order_canonical rows rows' :
  Permutation rows rows' -> List.NoDup (map row_id rows) ->
  orderDevicesForEvidence rows = orderDevicesForEvidence rows' /\
  Permutation rows (orderDevicesForEvidence rows) /\
  StronglySorted (fun a b => compareEvidenceDevices a b <= 0) (orderDevicesForEvidence rows).
Proof.
  intros Hp Hn. split; [|split; [apply order_perm|apply order_sorted]].
  apply sorted_unique; [apply order_sorted..| |].
  - rewrite <- !order_perm. exact Hp.
  - rewrite <- order_perm. exact Hn.
Qed.

Lemma evidence_order_canonical_witness :
  let a := mkRow "2" "web" "server" None in
  let b := mkRow "1" "web" "server" None in
  orderDevicesForEvidence [a; b] = orderDevicesForEvidence [b; a] /\ orderDevicesForEvidence [a; b] = [b; a].
Proof.
  intros a b. destruct (evidence_order_canonical [a; b] [b; a]) as [H _].
  - apply perm_swap.
  - repeat constructor; simpl; intuition congruence.
  - split; [exact H|reflexivity].
Defined.

(** A device that no device-counted line bills. *)
Definition uncovered (lines : list CoverageLine) (snapshot : OrgDeviceSnapshot) (row : DeviceSnapshotRow) : bool :=
  negb (existsb (fun l => isDeviceLine l && is_matched l snapshot row) lines).

Definition role_count (u : UncoveredDevices) (role : string) : Z :=
  match uc_byRole u !! role with Some n => n | None => 0 end.

Lemma assert_all_ok lines snapshot :
  assert_all lines snapshot = Ok tt -> Forall (fun l => assertResolvable l snapshot = Ok tt) lines.
Proof.
  induction lines as [|l lines IH]; [constructor|]. cbn [assert_all].
  destruct (assertResolvable l snapshot) as [[]|] eqn:E; [|discriminate]. intros H. constructor; auto.
Qed.

Lemma some_matches_ok lines row snapshot :
  Forall (fun l => assertResolvable l snapshot = Ok tt) lines ->
  some_matches (List.filter isDeviceLine lines) row snapshot = Ok (negb (uncovered lines snapshot row)).
Proof.
  unfold uncovered. rewrite negb_involutive. induction 1 as [|l lines Hl _ IH]; [reflexivity|]. simpl.
  destruct (isDeviceLine l); simpl; [|exact IH].
  unfold lineMatches, coverageMatch, is_matched. rewrite Hl. simpl.
  destruct (matchReason l row snapshot); [reflexivity|exact IH].
Qed.

Definition zlength {A} (l : list A) : Z := Z.of_nat (List.length l).

Lemma uncovered_loop_ok lines snapshot rows u :
  Forall (fun l => assertResolvable l snapshot = Ok tt) lines ->
  exists u', uncovered_loop (List.filter isDeviceLine lines) snapshot rows u = Ok u' /\
    uc_total u' = uc_total u + zlength (List.filter (uncovered lines snapshot) rows) /\
    forall role, role_count u' role = role_count u role +
      zlength (List.filter (fun r => uncovered lines snapshot r && String.eqb (row_role r) role) rows).
Proof.
  intros Ha. revert u. induction rows as [|row rows IH]; intros u; cbn [uncovered_loop].
  - exists u. split; [reflexivity|]. unfold zlength. simpl. split; [lia|intros; lia].
  - rewrite (some_matches_ok lines row snapshot Ha). cbn [rbind List.filter].
    destruct (uncovered lines snapshot row); cbn [negb andb].
    + destruct (IH (count_role (row_role row) u)) as (u' & Hu & Ht & Hr). exists u'. split; [exact Hu|].
      unfold zlength in *. split; [rewrite Ht; simpl; lia|]. intros role. rewrite Hr. unfold role_count, count_role. simpl.
      destruct (String.eqb_spec (row_role row) role) as [->|Hne].
      * rewrite lookup_insert_eq. simpl. lia.
      * rewrite lookup_insert_ne by exact Hne. lia.
    + apply IH.
Qed.

(** The coverage warning is exact: when every line resolves,
    [uncoveredByRole] succeeds, its total is the number of billable devices
    that no device-counted line of the contract matches, and its count for each
    role is the number of those devices with that role, so the total is the sum
    over the roles. *)
Theorem uncovered_exact snapshot lines :
  assert_all lines snapshot = Ok tt ->
  exists u, uncoveredByRole snapshot lines = Ok u /\
    uc_total u = zlength (List.filter (uncovered lines snapshot) (sn_devices snapshot)) /\
    forall role, role_count u role =
      zlength (List.filter (fun r => uncovered lines snapshot r && String.eqb (row_role r) role) (sn_devices snapshot)).
Proof.
  intros H. unfold uncoveredByRole. rewrite H. cbn [rbind].
  destruct (uncovered_loop_ok lines snapshot (sn_devices snapshot) (mkUncovered 0 ∅) (assert_all_ok _ _ H))
    as (u & Hu & Ht & Hr). exists u. split; [exact Hu|]. split; [exact Ht|].
  intros role. rewrite Hr. unfold role_count. simpl. rewrite lookup_empty. lia.
Qed.

Definition demo_snapshot : OrgDeviceSnapshot :=
  mkSnapshot [mkRow "1" "a" "server" None; mkRow "2" "b" "workstation" (Some "s1"); mkRow "3" "c" "workstation" None]
    (<["g" := groupMembersForBilling None ["3"] []]> ∅).

Lemma uncovered_exact_witness :
  exists u, uncoveredByRole demo_snapshot
      [mkCoverage lt_per_device_role None (Some ["server"]) None; mkCoverage lt_per_device_group None None (Some "g")] = Ok u /\
    uc_total u = 1 /\ role_count u "workstation" = 1.
Proof.
  destruct (uncovered_exact demo_snapshot
    [mkCoverage lt_per_device_role None (Some ["server"]) None; mkCoverage lt_per_device_group None None (Some "g")])
    as (u & Hu & Ht & Hr); [vm_compute; reflexivity|].
  exists u. split; [exact Hu|]. rewrite Ht, Hr. split; vm_compute; reflexivity.
Defined.

Lemma filter_map_rows (p : DeviceSnapshotRow -> bool) (q : Device -> bool) devices :
  List.length (List.filter p (map dev_row (List.filter q devices))) =
  List.length (List.filter (fun d => q d && p (dev_row d)) devices).
Proof.
  induction devices as [|d devices IH]; [reflexivity|]. simpl.
  destruct (q d); simpl; [|exact IH]. destruct (p (dev_row d)); simpl; rewrite IH; reflexivity.
Qed.

Lemma filter_ext_length {A} (p q : A -> bool) l :
  (forall x, p x = q x) -> List.length (List.filter p l) = List.length (List.filter q l).
Proof. intros H. rewrite (List.filter_ext p q H l). reflexivity. Qed.

Lemma opt_eqb_sym a b : opt_eqb a b = opt_eqb b a.
Proof. destruct a, b; simpl; [apply String.eqb_sym|reflexivity..]. Qed.

(** The snapshot and the counting query agree: for an organization's
    snapshot, the quantity of a [per_device] or [per_device_role] line (site
    ids are never empty strings) is what [countContractDevices] counts for the
    line's site and roles, so decommissioned, ephemeral and foreign devices are
    excluded in both. *)
Theorem device_counts_agree devices orgId groups line :
  cl_lineType line = lt_per_device /\ cl_deviceRoles line = None \/
  cl_lineType line = lt_per_device_role /\ (exists r rs, cl_deviceRoles line = Some (r :: rs)) ->
  cl_siteId line <> Some "" ->
  exists n, quantityFor (mkSnapshot (snapshotContractDevices devices orgId) groups) line = Ok n /\
    countContractDevices devices orgId (cl_siteId line) (cl_deviceRoles line) = Ok n.
Proof.
  intros Hl Hsite. unfold quantityFor, matchingDevicesForLine, countContractDevices.
  destruct line as [ty site roles grp]. cbn [cl_lineType cl_siteId cl_deviceRoles] in *.
  assert (Hsite' : forall d, match site with Some s => String.eqb s "" || opt_eqb (row_siteId (dev_row d)) (Some s) | None => true end
    = negb (match site with Some s => negb (opt_eqb (Some s) (row_siteId (dev_row d))) | None => false end)).
  { intros d. destruct site as [s|]; [|reflexivity]. rewrite negb_involutive, opt_eqb_sym.
    destruct (String.eqb_spec s ""); [congruence|reflexivity]. }
  destruct Hl as [[-> ->]|[-> (r & rs & ->)]]; (eexists; split; [reflexivity|]); f_equal; f_equal;
    cbn [sn_devices]; unfold snapshotContractDevices; rewrite filter_map_rows; apply filter_ext_length; intros d;
    rewrite Hsite'; unfold is_matched, matchReason; cbn [cl_siteId cl_lineType cl_deviceRoles];
    destruct (billableDeviceConds orgId d); try reflexivity; cbn [andb].
  - destruct (match site with Some s => _ | None => _ end); reflexivity.
  - destruct (match site with Some s => _ | None => _ end); [reflexivity|]. cbn [negb andb].
    destruct (str_mem (row_role (dev_row d)) (r :: rs)); reflexivity.
Qed.

Lemma device_counts_agree_witness :
  let d r st e := mkDevice (mkRow "x" "h" r (Some "s1")) "org" st e in
  exists n, quantityFor (mkSnapshot (snapshotContractDevices [d "server" false false; d "server" true false; d "nas" false false] "org") ∅)
      (mkCoverage lt_per_device_role (Some "s1") (Some ["server"]) None) = Ok n /\
    countContractDevices [d "server" false false; d "server" true false; d "nas" false false] "org" (Some "s1") (Some ["server"]) = Ok n.
Proof.
  intros d. apply (device_counts_agree _ "org" ∅ (mkCoverage lt_per_device_role (Some "s1") (Some ["server"]) None)).
  - right. split; [reflexivity|]. exists "server", []. reflexivity.
  - discriminate.
Defined.

Lemma parses_int n : Z.abs n < 10 ^ 13 -> parses (Num (ofZ n)) (inject_Z n).
Proof.
  intros H. assert (Hb : Z.abs (n * 100) < cents_bound) by (unfold cents_bound; lia).
  rewrite (ofZ_cents n) by lia.
  destruct (parses_cents (n * 100) Hb) as (d & Hd & Hu & Hv). exists d. split; [exact Hd|]. split; [exact Hu|].
  rewrite Hv. unfold centsQ. rewrite inject_Z_mult. change (inject_Z 100) with 100%Q. field.
Qed.

(** With a whole-number allowance the base line bills the allowance every
    period (or one block), whatever was counted; the overage is what was
    counted above it and never negative; and the overage leg is worth the exact
    product of the overage and its unit price when the line bills overage, zero
    in every other case (flag mode, inside the allowance, no allowance). *)
Theorem allowance_billing n s i mode price w base cur :
  0 <= n < 10 ^ 12 -> 0 <= i < 10 ^ 12 -> js_Number s = ofZ i -> parses (Str price) w ->
  let spec := mkAllowance (Some s) mode (Some price) in
  let r := applyAllowance (ofZ n) spec base in
  rq_billed r = ofZ (match base with single_block => 1 | included_units => i end) /\
  rq_overage r = ofZ (Z.max 0 (n - i)) /\
  billsOverage r = (match mode with Some om_bill => i <? n | _ => false end) /\
  overageValue r (overageUnitPrice spec) cur =
    Ok (stored (if billsOverage r then inject_Z (n - i) * w else inject_Z 0)%Q cur).
Proof.
  intros Hn Hi Hs Hw spec r.
  assert (Hov : rq_overage r = ofZ (Z.max 0 (n - i))).
  { unfold r, applyAllowance. cbn [includedQuantity spec option_map rq_overage]. rewrite Hs.
    rewrite js_sub_int by (unfold int_bound; lia). apply math_max_int. }
  assert (Hb : billsOverage r = (match mode with Some om_bill => i <? n | _ => false end)).
  { unfold billsOverage. rewrite Hov. unfold r, applyAllowance. cbn [includedQuantity spec option_map rq_overageMode overageMode].
    destruct mode as [[]|]; try reflexivity. unfold js_gt. rewrite js_lt_int.
    destruct (Z.ltb_spec 0 (Z.max 0 (n - i))), (Z.ltb_spec i n); lia || reflexivity. }
  split; [|split; [exact Hov|split; [exact Hb|]]].
  - unfold r, applyAllowance. cbn [includedQuantity spec option_map rq_billed]. rewrite Hs. destruct base; reflexivity.
  - cbn [overageUnitPrice spec overageValue]. unfold overageValue. destruct (billsOverage r) eqn:Eb.
    + rewrite Hov.
      assert (i < n) by (clear -Hb; destruct mode as [[]|]; try discriminate; apply Z.ltb_lt; congruence).
      rewrite Z.max_r by lia. apply multiplyToCurrency_parses; [apply parses_int; lia|exact Hw].
    + rewrite (multiplyToCurrency_parses _ _ _ _ cur (parses_int 0 ltac:(lia)) (parsed (Str "0") (mkDecimal false 0 0) eq_refl)).
      reflexivity.
Qed.

Lemma allowance_billing_witness :
  let spec := mkAllowance (Some "10.00") (Some om_bill) (Some "2.50") in
  overageValue (applyAllowance (ofZ 12) spec included_units) (overageUnitPrice spec) "USD" = Ok "5.00".
Proof.
  intros spec.
  destruct (allowance_billing 12 "10.00" 10 (Some om_bill) "2.50" (decQ (mkDecimal false 250 2)) included_units "USD")
    as (_ & _ & _ & H).
  - lia.
  - lia.
  - vm_compute. reflexivity.
  - apply parsed. vm_compute. reflexivity.
  - unfold spec. rewrite H. vm_compute. reflexivity.
Defined.

(** ** The snapshot builder *)

Section BuilderSpec.
Context (resolve : DeviceGroup -> result string (list string * list string)).

(** What the maps hold for a group after the rows were added. *)
Definition group_entry (r : OrgDeviceSnapshotResult) (id : string) : option (result string GroupMembers) :=
  match sn_groups (sr_snapshot r) !! id, sr_groupErrors r !! id with
  | Some g, None => Some (Ok g)
  | None, Some e => Some (Err e)
  | None, None => None
  | Some g, Some _ => Some (Ok g)
  end.

Definition resolved_entry (g : DeviceGroup) : result string GroupMembers :=
  match resolve g with
  | Ok (matched, pinned) => Ok (groupMembersForBilling (dg_siteId g) matched pinned)
  | Err e => Err e
  end.

Lemma add_group_other g r id :
  dg_id g <> id -> group_entry (add_group resolve r g) id = group_entry r id /\
  sr_groupNames (add_group resolve r g) !! id = sr_groupNames r !! id.
Proof.
  intros H. unfold group_entry, add_group. destruct (resolve g) as [[ma pi]|e]; simpl;
    rewrite ?lookup_insert_ne by exact H; auto.
Qed.

Lemma add_groups_other rows r id :
  ~ List.In id (map dg_id rows) ->
  group_entry (fold_left (add_group resolve) rows r) id = group_entry r id.
Proof.
  revert r. induction rows as [|g rows IH]; intros r Hn; [reflexivity|]. simpl in *.
  rewrite IH by tauto. apply add_group_other. tauto.
Qed.

Lemma add_groups_in rows r g :
  List.NoDup (map dg_id rows) -> List.In g rows -> group_entry r (dg_id g) = None ->
  group_entry (fold_left (add_group resolve) rows r) (dg_id g) = Some (resolved_entry g).
Proof.
  revert r. induction rows as [|h rows IH]; intros r Hn Hin Hr; [destruct Hin|].
  inversion Hn as [|? ? Hnh Hnr]; subst. simpl. destruct Hin as [->|Hin].
  - rewrite add_groups_other by exact Hnh. revert Hr. unfold group_entry, add_group, resolved_entry.
    destruct (resolve g) as [[ma pi]|e]; simpl; rewrite ?lookup_insert_eq;
      destruct (sn_groups (sr_snapshot r) !! dg_id g), (sr_groupErrors r !! dg_id g); congruence.
  - apply IH; [assumption..|].
    assert (Hne : dg_id h <> dg_id g) by (intros E; apply Hnh; rewrite E; apply List.in_map, Hin).
    rewrite (proj1 (add_group_other h r (dg_id g) Hne)). exact Hr.
Qed.

Lemma add_groups_devices rows r :
  sn_devices (sr_snapshot (fold_left (add_group resolve) rows r)) = sn_devices (sr_snapshot r).
Proof.
  revert r. induction rows as [|g rows IH]; intros r; [reflexivity|]. simpl. rewrite IH.
  unfold add_group. destruct (resolve g) as [[]|]; reflexivity.
Qed.
End BuilderSpec.

(** The snapshot builder resolves each requested group on its own: the
    device list is the organization's billable devices, a requested group of
    the organization is in the group map with its matched and pinned members or
    in the error map with its error (one bad filter does not affect another),
    and a group that was not requested or belongs to another organization is in
    neither. *)
Theorem snapshot_groups_independent resolve devices deviceGroups orgId groupIds g :
  List.NoDup (map dg_id deviceGroups) -> List.In g deviceGroups ->
  let r := buildOrgDeviceSnapshot resolve devices deviceGroups orgId groupIds None in
  sn_devices (sr_snapshot r) = snapshotContractDevices devices orgId /\
  group_entry r (dg_id g) =
    if bool_decide (dg_id g ∈ groupIds) && String.eqb (dg_orgId g) orgId then Some (resolved_entry resolve g) else None.
Proof.
  intros Hn Hin r. unfold r, buildOrgDeviceSnapshot. split; [apply add_groups_devices|].
  set (p := fun g0 => bool_decide (dg_id g0 ∈ list_to_set groupIds) && String.eqb (dg_orgId g0) orgId).
  assert (Hp : p g = bool_decide (dg_id g ∈ groupIds) && String.eqb (dg_orgId g) orgId).
  { unfold p. f_equal. apply bool_decide_ext. apply elem_of_list_to_set. }
  rewrite <- Hp. destruct (p g) eqn:Eg.
  - apply add_groups_in; [|apply List.filter_In; auto|reflexivity].
    clear -Hn. induction deviceGroups as [|h l IH]; [constructor|]. inversion Hn as [|? ? Hh Hl]; subst. simpl.
    destruct (p h); [|auto]. simpl. constructor; [|auto]. intros Hc. apply Hh.
    apply List.in_map_iff in Hc as (x & E & Hx). apply List.filter_In in Hx as [Hx _]. rewrite <- E. apply List.in_map, Hx.
  - rewrite add_groups_other; [reflexivity|]. intros Hc. apply List.in_map_iff in Hc as (x & E & Hx).
    apply List.filter_In in Hx as [Hx Hpx].
    assert (x = g) as ->; [|congruence]. clear -Hn Hin Hx E. induction deviceGroups as [|h l IH]; [destruct Hx|].
    inversion Hn as [|? ? Hh Hl]; subst. destruct Hin as [->|Hin], Hx as [->|Hx]; [reflexivity| | |auto].
    + exfalso. apply Hh. rewrite <- E. apply List.in_map, Hx.
    + exfalso. apply Hh. rewrite E. apply List.in_map, Hin.
Qed.

Lemma snapshot_groups_independent_witness :
  let resolve g := if String.eqb (dg_id g) "bad" then Err "filter" else Ok (["1"], []) in
  let groups := [mkDeviceGroup "bad" "o" "Bad" None; mkDeviceGroup "g" "o" "Good" None] in
  group_entry (buildOrgDeviceSnapshot resolve [] groups "o" ["bad"; "g"] None) "g"
    = Some (Ok (groupMembersForBilling None ["1"] [])).
Proof.
  intros resolve groups.
  destruct (snapshot_groups_independent resolve [] groups "o" ["bad"; "g"] (mkDeviceGroup "g" "o" "Good" None)) as [_ H].
  - repeat constructor; simpl; intuition congruence.
  - right. left. reflexivity.
  - exact H.
Defined.
