(* ===== verification/TimeBilling.v ===== *)
(** * Billing time and parts
      ([apps/api/src/services/billableMinutes.ts], [billingRuleResolver.ts],
       [invoiceAssembly.ts])

    The billed minutes of a time entry in its two representations, the rate
    card row that prices it, and the assembly of unbilled work into draft
    invoice lines without ever converting a currency or billing a missing
    rate. *)

From Stdlib Require Import QArith Qround Qabs Lqa Permutation.
From S2P Require Import Prelude JsString JsNumber Currency InvoiceMath.

Local Open Scope string_scope.
Local Open Scope Z_scope.
Local Open Scope billing_scope.

(** ** Billable minutes *)

Definition or_zero (x : option num) : num := match x with Some v => v | None => ofZ 0 end.

Definition computeBillableMinutes (durationMinutes minimumMinutes roundingIncrementMinutes : option num) : option num :=
  match durationMinutes with
  | None => None
  | Some d =>
      let increment := or_zero roundingIncrementMinutes in
      let rounded := if js_gt increment (ofZ 0) then js_mul (math_ceil (js_div d increment)) increment else d in
      Some (math_max (or_zero minimumMinutes) rounded)
  end.

(** A cast to PostgreSQL's [int], and a term that may be NULL. *)
Definition cast_int (z : Z) : result string Z :=
  if (- 2 ^ 31 <=? z) && (z <? 2 ^ 31) then Ok z else Err "integer out of range".
Definition cast_term (x : option Z) : result string (option Z) :=
  match x with
  | None => Ok None
  | Some v => match cast_int v with Ok z => Ok (Some z) | Err m => Err m end
  end.

(** The SQL expression with its casts; the minimum and the increment come cast or
    from [int] columns. [None] is NULL: [GREATEST] skips it, and [CEIL] and the
    product propagate it. *)
Definition billableMinutesSql (duration minimum increment : option Z) : result string Z :=
  let coalesce (x : option Z) := match x with Some v => v | None => 0 end in
  match cast_term minimum, cast_term increment with
  | Err m, _ => Err m
  | _, Err m => Err m
  | Ok min, Ok inc =>
      match duration with
      | None => Ok (coalesce min)
      | Some d =>
          match (if 0 <? coalesce inc then cast_int (Qceiling (inject_Z d / inject_Z (coalesce inc)) * coalesce inc) else Ok d) with
          | Err m => Err m
          | Ok rounded => cast_int (Z.max (coalesce min) rounded)
          end
      end
  end.

(** The duration rounded up to the increment, when there is one. *)
Definition rounded_up (duration : Z) (increment : option Z) : Z :=
  match increment with
  | Some i => if 0 <? i then Qceiling (inject_Z duration / inject_Z i) * i else duration
  | None => duration
  end.

(** ** Rate cards *)

Inductive BillCoverage := cov_billable | cov_included | cov_non_billable.

Record CardRule := mkCardRule {
  workTypeId : string; rule_coverage : BillCoverage; rule_hourlyRate : option string; rule_minimumMinutes : option Z }.

Record ResolvedCard := mkCard {
  card_id : string;
  card_currencyCode : string;
  card_roundingIncrementMinutes : option Z;
  baseCoverage : BillCoverage;
  baseHourlyRate : option string;
  baseMinimumMinutes : option Z;
  rules : list CardRule;
}.

Inductive TimeBillingStatus := not_billed | billed | no_charge | bs_contract.

Record BillingRule := mkBillingRule {
  billingProfileId : option string;
  coverage : BillCoverage;
  hourlyRate : option string;
  minimumMinutes : option Z;
  roundingIncrementMinutes : option Z;
  isBillable : bool;
  billingStatus : TimeBillingStatus;
  fellBackToNoCard : bool;
}.

(** The assigned card when it is in the organization's currency, else the
    partner's default when it is, else none. *)
Definition chosen_card (orgCurrency : option string) (assignedCard partnerDefaultCard : option ResolvedCard)
  : option ResolvedCard :=
  match orgCurrency with
  | None => None
  | Some c =>
      let usable (card : option ResolvedCard) :=
        match card with Some k => String.eqb (card_currencyCode k) c | None => false end in
      if usable assignedCard then assignedCard
      else if usable partnerDefaultCard then partnerDefaultCard
      else None
  end.

Definition rule_for (workTypeId' : option string) (r : CardRule) : bool :=
  match workTypeId' with Some w => String.eqb (workTypeId r) w | None => false end.

Definition resolveBillingRule (orgCurrency : option string) (assignedCard partnerDefaultCard : option ResolvedCard)
    (workTypeId : option string) : BillingRule :=
  match chosen_card orgCurrency assignedCard partnerDefaultCard with
  | None => mkBillingRule None cov_billable None None None true not_billed true
  | Some card =>
      let '(cov, rate, minimum) :=
        match List.find (rule_for workTypeId) (rules card) with
        | Some r => (rule_coverage r, rule_hourlyRate r, rule_minimumMinutes r)
        | None => (baseCoverage card, baseHourlyRate card, baseMinimumMinutes card)
        end in
      mkBillingRule (Some (card_id card)) cov
        (match cov with cov_billable => rate | _ => None end)
        (match cov with cov_billable => minimum | _ => None end)
        (card_roundingIncrementMinutes card)
        (match cov with cov_non_billable => false | _ => true end)
        (match cov with cov_included => bs_contract | _ => not_billed end)
        false
  end.

(** ** Draft lines *)

Inductive InvoiceLineSourceType := src_time_entry | src_part | src_bundle | src_manual | src_catalog | src_contract.

Record DraftLineSpec := mkSpec {
  ds_sourceType : InvoiceLineSourceType;
  ds_sourceId : option string;
  ds_catalogItemId : option string;
  ds_ticketId : option string;
  ds_description : string;
  ds_quantity : string;
  ds_unitPrice : string;
  ds_costBasis : option string;
  ds_taxable : bool;
  ds_customerVisible : bool;
  ds_lineTotal : string;
  ds_isUnapprovedTime : bool;
  ds_workedMinutes : option Z;
}.

Record MissingRateSpec := mkMissing {
  mr_sourceId : string; mr_ticketId : option string; mr_description : string; mr_quantity : string;
  mr_currencyCode : option string }.

(** [blockedByCurrency] is an object: an association list in insertion order. *)
Record AssemblyResult := mkAssembly {
  included : list DraftLineSpec;
  blockedByCurrency : list (string * list DraftLineSpec);
  missingRate : list MissingRateSpec;
}.

Definition empty_assembly : AssemblyResult := mkAssembly [] [] [].

Definition UNKNOWN_CURRENCY_KEY : string := "UNKNOWN".

Definition isMissingRateGap (rate : option string) (status : TimeBillingStatus) : bool :=
  match rate with
  | Some _ => false
  | None => match status with bs_contract | no_charge => false | _ => true end
  end.

(** [(blocked[key] ??= []).push(...specs)]. *)
Fixpoint push_blocked (key : string) (specs : list DraftLineSpec) (l : list (string * list DraftLineSpec))
  : list (string * list DraftLineSpec) :=
  match l with
  | [] => [(key, specs)]
  | (k, v) :: r => if String.eqb k key then (k, v ++ specs)%list :: r else (k, v) :: push_blocked key specs r
  end.

Section Partition.
Context {R : Type} (row_currency : R -> option string) (toSpec : R -> string -> result string DraftLineSpec).

Fixpoint partition_loop (rows : list R) (headerCurrency : string) (acc : AssemblyResult) : result string AssemblyResult :=
  match rows with
  | [] => Ok acc
  | row :: rest =>
      match row_currency row with
      | Some c =>
          if String.eqb c headerCurrency then
            let! s := toSpec row headerCurrency in
            partition_loop rest headerCurrency
              (mkAssembly (included acc ++ [s]) (blockedByCurrency acc) (missingRate acc))
          else
            let! s := toSpec row c in
            partition_loop rest headerCurrency
              (mkAssembly (included acc) (push_blocked c [s] (blockedByCurrency acc)) (missingRate acc))
      | None =>
          let! s := toSpec row headerCurrency in
          partition_loop rest headerCurrency
            (mkAssembly (included acc) (push_blocked UNKNOWN_CURRENCY_KEY [s] (blockedByCurrency acc)) (missingRate acc))
      end
  end.

Definition partitionByCurrency (rows : list R) (headerCurrency : string) : result string AssemblyResult :=
  partition_loop rows headerCurrency empty_assembly.
End Partition.

Definition mergeAssembly (parts : list AssemblyResult) : AssemblyResult :=
  fold_left (fun out p =>
    mkAssembly (included out ++ included p)%list
      (fold_left (fun b e => push_blocked (fst e) (snd e) b) (blockedByCurrency p) (blockedByCurrency out))
      (missingRate out ++ missingRate p)%list)
    parts empty_assembly.

Record TimeEntryRow := mkEntry {
  te_id : string; te_ticketId : option string; te_description : option string;
  te_durationMinutes : option Z; te_billableMinutes : option Z;
  te_hourlyRate : option string; te_isApproved : bool; te_currencyCode : option string }.

Definition entryHours (r : TimeEntryRow) : string :=
  let minutes := match te_billableMinutes r with
                 | Some m => m
                 | None => match te_durationMinutes r with Some m => m | None => 0 end
                 end in
  toFixed 2 (js_div (ofZ minutes) (ofZ 60)).

Definition entryDescription (r : TimeEntryRow) : string :=
  match te_description r with
  | Some d => if String.eqb (trim d) "" then "Labor" else trim d
  | None => "Labor"
  end.

Definition timeEntryToLineSpec (r : TimeEntryRow) (currencyCode : string) : result string DraftLineSpec :=
  match te_hourlyRate r with
  | None => Err ("time entry " ++ te_id r ++ " has no hourly rate and cannot become an invoice line")
  | Some rate =>
      let hours := entryHours r in
      let unitPrice := toFixed 2 (js_Number rate) in
      let! lineTotal := computeLineTotal hours unitPrice currencyCode in
      Ok (mkSpec src_time_entry (Some (te_id r)) None (te_ticketId r) (entryDescription r)
            hours unitPrice None false true lineTotal (negb (te_isApproved r)) (te_durationMinutes r))
  end.

Definition missing_spec (r : TimeEntryRow) : MissingRateSpec :=
  mkMissing (te_id r) (te_ticketId r) (entryDescription r) (entryHours r) (te_currencyCode r).

Definition partitionTimeEntries (rows : list TimeEntryRow) (headerCurrency : string) : result string AssemblyResult :=
  let gap r := isMissingRateGap (te_hourlyRate r) not_billed in
  let! a := partitionByCurrency te_currencyCode timeEntryToLineSpec
              (List.filter (fun r => negb (gap r)) rows) headerCurrency in
  Ok (mkAssembly (included a) (blockedByCurrency a) (map missing_spec (List.filter gap rows))).

Record TicketPartRow := mkPart {
  tp_id : string; tp_ticketId : option string; tp_catalogItemId : option string; tp_description : string;
  tp_quantity : string; tp_unitPrice : string; tp_costBasis : option string; tp_currencyCode : option string }.

Definition ticketPartToLineSpec (r : TicketPartRow) (currencyCode : string) : result string DraftLineSpec :=
  let! lineTotal := computeLineTotal (tp_quantity r) (tp_unitPrice r) currencyCode in
  Ok (mkSpec src_part (Some (tp_id r)) (tp_catalogItemId r) (tp_ticketId r) (tp_description r)
        (tp_quantity r) (tp_unitPrice r) (tp_costBasis r) true true lineTotal false None).

(** ** The gathering queries: rows with the columns their filters read *)

Record StoredEntry := mkStoredEntry {
  se_row : TimeEntryRow; se_orgId : string; se_isBillable : bool; se_status : TimeBillingStatus;
  se_endedAt : option Z }.
Record StoredPart := mkStoredPart {
  sp_row : TicketPartRow; sp_orgId : string; sp_isBillable : bool; sp_status : TimeBillingStatus;
  sp_createdAt : Z }.

Definition is_billed (s : TimeBillingStatus) : bool := match s with billed => true | _ => false end.
Definition is_not_billed (s : TimeBillingStatus) : bool := match s with not_billed => true | _ => false end.

Definition gatherOrgTimeEntries (table : list StoredEntry) (orgId : string) (from to : Z) (headerCurrency : string)
  : result string AssemblyResult :=
  partitionTimeEntries
    (map se_row (List.filter (fun e =>
       String.eqb (se_orgId e) orgId && se_isBillable e && is_not_billed (se_status e) &&
       match se_endedAt e with Some t => (from <=? t) && (t <=? to) | None => false end) table)) headerCurrency.

Definition gatherOrgParts (table : list StoredPart) (orgId : string) (from to : Z) (headerCurrency : string)
  : result string AssemblyResult :=
  partitionByCurrency tp_currencyCode ticketPartToLineSpec
    (map sp_row (List.filter (fun p =>
       String.eqb (sp_orgId p) orgId && sp_isBillable p && is_not_billed (sp_status p) &&
       (from <=? sp_createdAt p) && (sp_createdAt p <=? to)) table)) headerCurrency.

Definition for_ticket (ticketId : string) (t : option string) : bool :=
  match t with Some x => String.eqb x ticketId | None => false end.

Definition gatherTicketBillables (entries : list StoredEntry) (parts : list StoredPart) (ticketId headerCurrency : string)
  : result string AssemblyResult :=
  let te := map se_row (List.filter (fun e =>
              for_ticket ticketId (te_ticketId (se_row e)) && se_isBillable e && is_not_billed (se_status e) &&
              match se_endedAt e with Some _ => true | None => false end) entries) in
  let ps := map sp_row (List.filter (fun p =>
              for_ticket ticketId (tp_ticketId (sp_row p)) && sp_isBillable p && is_not_billed (sp_status p)) parts) in
  let! a := partitionTimeEntries te headerCurrency in
  let! b := partitionByCurrency tp_currencyCode ticketPartToLineSpec ps headerCurrency in
  Ok (mergeAssembly [a; b]).

(** ** The two representations of billable minutes *)

Lemma Qceiling_spec q f : (inject_Z (f - 1) < q -> q <= inject_Z f -> Qceiling q = f)%Q.
Proof.
  intros H1 H2. unfold Qceiling.
  assert (Qfloor (- q) = - f)%Z as ->; [|lia]. apply Qfloor_spec.
  - rewrite inject_Z_opp. lra.
  - replace (- f + 1)%Z with (- (f - 1))%Z by lia. rewrite inject_Z_opp. lra.
Qed.

(** The ceiling of a double quotient of integers is the exact ceiling. *)
Lemma ceil_div_exact d i :
  0 <= d < 2 ^ 31 -> 1 <= i < 2 ^ 31 ->
  math_ceil (js_div (ofZ d) (ofZ i)) = ofZ (Qceiling (inject_Z d / inject_Z i)).
Proof.
  intros Hd Hi. set (c := (d + i - 1) / i).
  pose proof (Z.div_mod (d + i - 1) i ltac:(lia)) as Hdm. pose proof (Z.mod_pos_bound (d + i - 1) i ltac:(lia)) as Hm.
  fold c in Hdm.
  assert (HiQ : (1 <= inject_Z i <= 2147483648)%Q)
    by (change 1%Q with (inject_Z 1); change 2147483648%Q with (inject_Z (2 ^ 31)); rewrite <- !Zle_Qle; lia).
  assert (HdQ : (0 <= inject_Z d <= 2147483648)%Q)
    by (change 0%Q with (inject_Z 0); change 2147483648%Q with (inject_Z (2 ^ 31)); rewrite <- !Zle_Qle; lia).
  assert (Hx : (inject_Z d / inject_Z i * inject_Z i == inject_Z d)%Q) by (field; lra).
  set (x := (inject_Z d / inject_Z i)%Q) in *.
  assert (Hx0 : (0 <= x <= 2147483648)%Q) by (split; nra).
  assert (Hlo : (inject_Z ((c - 1) * i + 1) <= inject_Z d)%Q) by (rewrite <- Zle_Qle; nia).
  assert (Hhi : (inject_Z d <= inject_Z (c * i))%Q) by (rewrite <- Zle_Qle; nia).
  rewrite inject_Z_plus, inject_Z_mult in Hlo. change (inject_Z 1) with 1%Q in Hlo. rewrite inject_Z_mult in Hhi.
  assert (Hec : Qceiling x = c) by (apply Qceiling_spec; nra).
  assert (Hnorm : normal x).
  { destruct (Z.eq_dec d 0) as [->|Hd0]; [left; unfold x; field; lra|right].
    rewrite Qabs_pos by lra. assert (inject_Z 1 <= inject_Z d)%Q by (rewrite <- Zle_Qle; lia).
    change (inject_Z 1) with 1%Q in *. assert (two ^ (-1022) <= two ^ (-31))%Q by (apply two_mono; lia).
    change (two ^ (-31))%Q with (1 # 2147483648)%Q in *. assert (1 # 2147483648 <= x)%Q by nra. lra. }
  assert (Hfin : js_div (ofZ d) (ofZ i) = Fin (Qred (rnd x))).
  { unfold js_div, ofZ. cbn [isZero Qnum inject_Z]. rewrite (proj2 (Z.eqb_neq i 0)) by lia.
    apply fin_small. assert (two ^ 50 <= two ^ 1000)%Q by (apply two_mono; lia).
    change (two ^ 50)%Q with 1125899906842624%Q in *. rewrite Qabs_pos; lra. }
  rewrite Hfin, Hec. cbn [math_ceil]. unfold ofZ. do 2 f_equal.
  assert (Qceiling (Qred (rnd x)) = Qceiling (rnd x)) as -> by (apply Qceiling_comp, Qred_correct).
  destruct (Z.eq_dec d (c * i)) as [Ed|Ed].
  - assert (Exc : (x == inject_Z c)%Q) by (unfold x; rewrite Ed, inject_Z_mult; field; lra).
    rewrite (Qceiling_comp _ (inject_Z c)); [apply Qceiling_Z|]. rewrite Exc. apply rnd_int. nia.
  - assert (Hhi' : (inject_Z d <= inject_Z (c * i - 1))%Q) by (rewrite <- Zle_Qle; lia).
    unfold Z.sub in Hhi'. rewrite inject_Z_plus, inject_Z_mult in Hhi'. change (inject_Z (- (1))) with (-1)%Q in Hhi'.
    pose proof (rnd_err x Hnorm) as He. rewrite (Qabs_pos x) in He by lra. pose proof u53_small as Hu.
    assert (Hxe : (x * two ^ (-53) <= x * (1 # 9000000000000000))%Q) by nra.
    apply Qabs_near_bounds in He.
    assert (Hei : (x * (1 # 9000000000000000) * inject_Z i <= 1 # 2)%Q) by nra.
    set (y := rnd x) in *. clearbody y.
    assert (HiQ0 : (0 < inject_Z i)%Q) by lra.
    apply Qceiling_spec; [apply (Qmult_lt_r _ _ (inject_Z i) HiQ0)|apply (Qmult_le_r _ _ (inject_Z i) HiQ0)]; nra.
Qed.

(** On whole minutes the double computation is exact. *)
Lemma computeBillableMinutes_exact d mn inc :
  0 <= d < 2 ^ 31 -> (forall i, inc = Some i -> 0 <= i < 2 ^ 31) ->
  computeBillableMinutes (Some (ofZ d)) (option_map ofZ mn) (option_map ofZ inc) =
    Some (ofZ (Z.max (match mn with Some m => m | None => 0 end) (rounded_up d inc))).
Proof.
  intros Hd Hi.
  set (m := match mn with Some m => m | None => 0 end). set (i := match inc with Some i => i | None => 0 end).
  assert (or_zero (option_map ofZ mn) = ofZ m) as Em by (destruct mn; reflexivity).
  assert (or_zero (option_map ofZ inc) = ofZ i) as Ei by (destruct inc; reflexivity).
  assert (rounded_up d inc = if 0 <? i then Qceiling (inject_Z d / inject_Z i) * i else d) as -> by (destruct inc; reflexivity).
  unfold computeBillableMinutes. rewrite Em, Ei. unfold js_gt. rewrite js_lt_int.
  destruct (Z.ltb_spec 0 i) as [Hi0|Hi0]; [|rewrite math_max_int; reflexivity].
  assert (Hib : i < 2 ^ 31) by (unfold i in *; destruct inc as [x|]; [specialize (Hi x eq_refl)|]; lia).
  rewrite ceil_div_exact by lia.
  pose proof (Qle_ceiling (inject_Z d / inject_Z i)) as H1. pose proof (Qceiling_lt (inject_Z d / inject_Z i)) as H2.
  set (c := Qceiling (inject_Z d / inject_Z i)) in *.
  assert (HiQ : (0 < inject_Z i)%Q) by (change 0%Q with (inject_Z 0); rewrite <- Zlt_Qlt; lia).
  assert (Hx : (inject_Z d / inject_Z i * inject_Z i == inject_Z d)%Q) by (field; lra).
  set (x := (inject_Z d / inject_Z i)%Q) in *. clearbody x c.
  assert (Hci : (inject_Z d <= inject_Z (c * i))%Q) by (rewrite inject_Z_mult; nra).
  assert (Hci2 : (inject_Z ((c - 1) * i) < inject_Z d)%Q) by (rewrite inject_Z_mult; nra).
  rewrite <- Zle_Qle in Hci. rewrite <- Zlt_Qlt in Hci2.
  rewrite js_mul_int by (unfold int_bound; nia). rewrite math_max_int. reflexivity.
Qed.

Lemma cast_int_ok z : - 2 ^ 31 <= z < 2 ^ 31 -> cast_int z = Ok z.
Proof. intros Hz. unfold cast_int. rewrite (proj2 (Z.leb_le _ _)), (proj2 (Z.ltb_lt _ _)) by lia. reflexivity. Qed.

Lemma cast_int_over z : 2 ^ 31 <= z -> cast_int z = Err "integer out of range".
Proof. intros Hz. unfold cast_int. rewrite (proj2 (Z.ltb_ge z _)) by lia. rewrite andb_false_r. reflexivity. Qed.

Lemma cast_term_ok x : (forall v, x = Some v -> - 2 ^ 31 <= v < 2 ^ 31) -> cast_term x = Ok x.
Proof. destruct x as [v|]; [|reflexivity]. intros Hv. unfold cast_term. rewrite cast_int_ok by auto. reflexivity. Qed.

Lemma rounded_up_spec d inc :
  0 <= d -> (forall i, inc = Some i -> 0 <= i) ->
  d <= rounded_up d inc /\
  match inc with
  | Some i => (0 < i -> rounded_up d inc < d + i /\ exists k, rounded_up d inc = k * i) /\ (i = 0 -> rounded_up d inc = d)
  | None => rounded_up d inc = d
  end.
Proof.
  intros Hd Hi. destruct inc as [i|]; [|cbn; lia]. specialize (Hi i eq_refl). cbn. destruct (Z.ltb_spec 0 i) as [H0|H0]; [|lia].
  pose proof (Qle_ceiling (inject_Z d / inject_Z i)) as H1. pose proof (Qceiling_lt (inject_Z d / inject_Z i)) as H2.
  set (c := Qceiling (inject_Z d / inject_Z i)) in *.
  assert (HiQ : (0 < inject_Z i)%Q) by (change 0%Q with (inject_Z 0); rewrite <- Zlt_Qlt; lia).
  assert (Hx : (inject_Z d / inject_Z i * inject_Z i == inject_Z d)%Q) by (field; lra).
  set (x := (inject_Z d / inject_Z i)%Q) in *. clearbody x c.
  assert (Hci : (inject_Z d <= inject_Z (c * i))%Q) by (rewrite inject_Z_mult; nra).
  assert (Hci2 : (inject_Z ((c - 1) * i) < inject_Z d)%Q) by (rewrite inject_Z_mult; nra).
  rewrite <- Zle_Qle in Hci. rewrite <- Zlt_Qlt in Hci2. split; [exact Hci|]. split; [|lia]. intros _. split; [lia|eauto].
Qed.

(** On a duration the SQL expression is the greater of the minimum and the
    rounded duration, or the error of the cast. *)
Lemma billableMinutesSql_value d mn inc :
  0 <= d < 2 ^ 31 -> (forall m, mn = Some m -> - 2 ^ 31 <= m < 2 ^ 31) -> (forall i, inc = Some i -> 0 <= i < 2 ^ 31) ->
  billableMinutesSql (Some d) mn inc =
    if rounded_up d inc <? 2 ^ 31 then Ok (Z.max (match mn with Some m => m | None => 0 end) (rounded_up d inc))
    else Err "integer out of range".
Proof.
  intros Hd Hm Hi.
  assert (Hi' : forall i, inc = Some i -> - 2 ^ 31 <= i < 2 ^ 31) by (intros i Ei; specialize (Hi i Ei); lia).
  destruct (rounded_up_spec d inc) as [Hr _]; [lia|intros i Ei; specialize (Hi i Ei); lia|].
  unfold billableMinutesSql. rewrite (cast_term_ok mn), (cast_term_ok inc) by assumption.
  set (m := match mn with Some m => m | None => 0 end). assert (Hmb : m < 2 ^ 31) by (unfold m; destruct mn as [x|]; [specialize (Hm x eq_refl)|]; lia).
  set (i := match inc with Some i => i | None => 0 end).
  assert (Er : rounded_up d inc = if 0 <? i then Qceiling (inject_Z d / inject_Z i) * i else d) by (destruct inc; reflexivity).
  destruct (Z.ltb_spec (rounded_up d inc) (2 ^ 31)) as [Hlt|Hge]; rewrite Er in *; destruct (0 <? i).
  - rewrite cast_int_ok by lia. apply cast_int_ok. lia.
  - apply cast_int_ok. lia.
  - rewrite cast_int_over by lia. reflexivity.
  - lia.
Qed.

(** C40: The TypeScript and the SQL representation of billable minutes agree.
    For a duration, a minimum and a rounding increment of [int] columns, the
    duration and the increment not negative, [computeBillableMinutes] in doubles
    returns the greater of the minimum and the duration rounded up to the next
    multiple of the increment, exactly; the SQL expression returns the same
    integer when the rounded duration fits an [int], and fails with "integer out
    of range" when it does not. Without a duration TypeScript returns null while
    the SQL expression returns the minimum, since GREATEST skips NULL. *)
Theorem billable_minutes_agree d mn inc :
  let minimum := match mn with Some m => m | None => 0 end in
  0 <= d < 2 ^ 31 -> (forall m, mn = Some m -> - 2 ^ 31 <= m < 2 ^ 31) -> (forall i, inc = Some i -> 0 <= i < 2 ^ 31) ->
  exists rounded,
    computeBillableMinutes (Some (ofZ d)) (option_map ofZ mn) (option_map ofZ inc) = Some (ofZ (Z.max minimum rounded)) /\
    billableMinutesSql (Some d) mn inc =
      (if rounded <? 2 ^ 31 then Ok (Z.max minimum rounded) else Err "integer out of range") /\
    d <= rounded /\
    match inc with
    | Some i => (0 < i -> rounded < d + i /\ exists k, rounded = k * i) /\ (i = 0 -> rounded = d)
    | None => rounded = d
    end /\
    computeBillableMinutes None (option_map ofZ mn) (option_map ofZ inc) = None /\
    billableMinutesSql None mn inc = Ok minimum.
Proof.
  intros minimum Hd Hm Hi. exists (rounded_up d inc).
  destruct (rounded_up_spec d inc) as [R1 R2]; [lia|intros i Ei; specialize (Hi i Ei); lia|].
  split; [apply computeBillableMinutes_exact; assumption|]. split; [apply billableMinutesSql_value; assumption|].
  split; [exact R1|]. split; [exact R2|]. split; [reflexivity|].
  unfold billableMinutesSql. rewrite (cast_term_ok mn), (cast_term_ok inc); [reflexivity| |exact Hm].
  intros i Ei. specialize (Hi i Ei). lia.
Qed.

Lemma billable_minutes_agree_witness :
  exists rounded,
    computeBillableMinutes (Some (ofZ 5)) (Some (ofZ 20)) (Some (ofZ 15)) = Some (ofZ (Z.max 20 rounded)) /\
    billableMinutesSql (Some 5) (Some 20) (Some 15) = Ok 20 /\ 5 <= rounded < 20 /\ exists k, rounded = k * 15.
Proof.
  destruct (billable_minutes_agree 5 (Some 20) (Some 15)) as (r & A & _ & B & (C & _) & _);
    [lia|intros m [= <-]; lia|intros i [= <-]; lia|].
  destruct (C ltac:(lia)) as [C1 C2]. exists r. split; [exact A|]. split; [vm_compute; reflexivity|]. split; [lia|exact C2].
Defined.

(** The cast fails where the doubles go on. *)
Example billable_minutes_overflow :
  billableMinutesSql (Some (2 ^ 31 - 1)) None (Some 15) = Err "integer out of range" /\
  computeBillableMinutes (Some (ofZ (2 ^ 31 - 1))) None (Some (ofZ 15)) = Some (ofZ 2147483655).
Proof. split; vm_compute; reflexivity. Qed.

(** A time entry is only priced by a rate card in the organization's own
    currency: when a rule names a profile, it is the assigned card or the
    partner's default card and its currency is the organization's (the assigned
    card first); work that is included or not billable carries no rate and no
    minimum; and an entry without a usable card stays unpriced and is flagged. *)
Theorem billing_rule_currency_safe orgCurrency assigned default_ workType :
  let r := resolveBillingRule orgCurrency assigned default_ workType in
  match billingProfileId r with
  | Some id =>
      exists card c, orgCurrency = Some c /\ card_id card = id /\ card_currencyCode card = c /\
        (assigned = Some card \/
         default_ = Some card /\ forall a, assigned = Some a -> card_currencyCode a <> c) /\
        fellBackToNoCard r = false
  | None => hourlyRate r = None /\ fellBackToNoCard r = true
  end /\
  (coverage r <> cov_billable -> hourlyRate r = None /\ minimumMinutes r = None) /\
  (isBillable r = false <-> coverage r = cov_non_billable) /\
  (billingStatus r = bs_contract <-> coverage r = cov_included).
Proof.
  unfold resolveBillingRule.
  destruct (chosen_card orgCurrency assigned default_) as [card|] eqn:Ec.
  - destruct (match List.find _ _ with Some _ => _ | None => _ end) as [[cov rate] mn]. cbn.
    split; [|destruct cov; repeat split; intros; congruence].
    unfold chosen_card in Ec. destruct orgCurrency as [c|]; [|discriminate]. exists card, c.
    destruct assigned as [a|].
    + destruct (String.eqb_spec (card_currencyCode a) c) as [E|E].
      * injection Ec as <-. repeat split; auto.
      * destruct default_ as [d|]; [|discriminate]. destruct (String.eqb_spec (card_currencyCode d) c); [|discriminate].
        injection Ec as <-. repeat split; auto. right. split; [reflexivity|]. intros a' [= <-]. exact E.
    + destruct default_ as [d|]; [|discriminate]. destruct (String.eqb_spec (card_currencyCode d) c); [|discriminate].
      injection Ec as <-. repeat split; auto. right. split; [reflexivity|]. discriminate.
  - cbn. repeat split; intros; congruence.
Qed.

(** ** Assembly *)

Definition blocked_specs (b : list (string * list DraftLineSpec)) : list DraftLineSpec := flat_map snd b.

Lemma push_blocked_perm key specs b :
  Permutation (blocked_specs (push_blocked key specs b)) (blocked_specs b ++ specs).
Proof.
  unfold blocked_specs. induction b as [|[k v] b IH]; simpl; [rewrite app_nil_r; reflexivity|].
  destruct (String.eqb k key); simpl; rewrite <- !app_assoc; apply Permutation_app_head.
  - apply Permutation_app_comm.
  - exact IH.
Qed.

Section PartitionSpec.
Context {R : Type} (cur : R -> option string) (toSpec : R -> string -> result string DraftLineSpec)
        (rid : R -> option string).
Hypothesis toSpec_id : forall r c s, toSpec r c = Ok s -> ds_sourceId s = rid r.

(** The spec of a row, priced in currency [c]. *)
Definition spec_of (row : R) (c : string) (s : DraftLineSpec) : Prop := toSpec row c = Ok s.

(** Where each collected line comes from. *)
Definition origin_ok (header : string) (rows : list R) (a : AssemblyResult) : Prop :=
  (forall s, In s (included a) -> exists row, In row rows /\ cur row = Some header /\ spec_of row header s) /\
  (forall k s, (exists specs, In (k, specs) (blockedByCurrency a) /\ In s specs) ->
     exists row, In row rows /\
       (cur row = Some k /\ k <> header /\ spec_of row k s \/
        cur row = None /\ k = UNKNOWN_CURRENCY_KEY /\ spec_of row header s)).

Lemma push_blocked_in k s key x b :
  (exists specs, In (k, specs) (push_blocked key [x] b) /\ In s specs) ->
  k = key /\ s = x \/ exists specs, In (k, specs) b /\ In s specs.
Proof.
  induction b as [|[k' v] b IH]; simpl; intros (specs & Hin & Hs).
  - destruct Hin as [[= <- <-]|[]]. destruct Hs as [<-|[]]. auto.
  - destruct (String.eqb_spec k' key) as [->|Hne]; simpl in Hin; destruct Hin as [[= <- <-]|Hin].
    + apply in_app_or in Hs as [Hs|[<-|[]]]; [|auto]. right. exists v. auto.
    + right. exists specs. auto.
    + right. exists v. auto.
    + destruct IH as [H|(sp & H1 & H2)]; [eauto|auto|]. right. exists sp. auto.
Qed.

(** One turn of the loop, given what the rest of it does. *)
Lemma partition_step header row rows seen acc acc' s a (loop : AssemblyResult -> result string AssemblyResult) :
  (forall seen acc, origin_ok header seen acc -> loop acc = Ok a ->
     origin_ok header (seen ++ rows) a /\ missingRate a = missingRate acc /\
     Permutation (map ds_sourceId (included a ++ blocked_specs (blockedByCurrency a)))
       (map ds_sourceId (included acc ++ blocked_specs (blockedByCurrency acc)) ++ map rid rows)) ->
  loop acc' = Ok a -> ds_sourceId s = rid row ->
  origin_ok header (seen ++ [row]) acc' -> missingRate acc' = missingRate acc ->
  Permutation (included acc' ++ blocked_specs (blockedByCurrency acc'))
              ((included acc ++ blocked_specs (blockedByCurrency acc)) ++ [s]) ->
  origin_ok header (seen ++ row :: rows) a /\ missingRate a = missingRate acc /\
  Permutation (map ds_sourceId (included a ++ blocked_specs (blockedByCurrency a)))
    (map ds_sourceId (included acc ++ blocked_specs (blockedByCurrency acc)) ++ map rid (row :: rows)).
Proof.
  intros IH Hl Hs Ho' Hm Hp. destruct (IH _ _ Ho' Hl) as (H1 & H2 & H3).
  rewrite <- app_assoc in H1. split; [exact H1|]. split; [congruence|].
  rewrite H3, Hp, map_app, <- app_assoc. simpl. rewrite Hs. reflexivity.
Qed.

Lemma partition_loop_spec header rows seen acc a :
  origin_ok header seen acc -> partition_loop cur toSpec rows header acc = Ok a ->
  origin_ok header (seen ++ rows) a /\ missingRate a = missingRate acc /\
  Permutation (map ds_sourceId (included a ++ blocked_specs (blockedByCurrency a)))
              (map ds_sourceId (included acc ++ blocked_specs (blockedByCurrency acc)) ++ map rid rows).
Proof.
  revert seen acc. induction rows as [|row rows IH]; intros seen acc Ho H; cbn [partition_loop] in H.
  - injection H as <-. rewrite !app_nil_r. auto.
  - assert (Hweak : forall s, In s seen -> In s (seen ++ [row])) by (intros; apply in_or_app; auto).
    assert (Hrow : In row (seen ++ [row])) by (apply in_or_app; simpl; auto).
    destruct Ho as [Hi Hb].
    destruct (cur row) as [c|] eqn:Ec; [destruct (String.eqb_spec c header) as [->|Hne]|];
      apply rbind_ok in H as (s & Hs & H); eapply (partition_step _ _ _ _ _ _ s _ _ IH H (toSpec_id _ _ _ Hs)); try reflexivity;
      try (split; cbn [included blockedByCurrency]).
    + intros x Hx. apply in_app_or in Hx as [Hx|[<-|[]]].
      * destruct (Hi x Hx) as (r & Hr & E & S). exists r. auto.
      * exists row. auto.
    + intros k x Hx. destruct (Hb k x Hx) as (r & Hr & E). exists r. auto.
    + cbn [included blockedByCurrency]. rewrite <- !app_assoc. apply Permutation_app_head, Permutation_app_comm.
    + intros x Hx. destruct (Hi x Hx) as (r & Hr & E & S). exists r. auto.
    + intros k x Hx. apply push_blocked_in in Hx as [[-> ->]|Hx].
      * exists row. auto.
      * destruct (Hb k x Hx) as (r & Hr & E). exists r. auto.
    + cbn [included blockedByCurrency]. rewrite push_blocked_perm, app_assoc. reflexivity.
    + intros x Hx. destruct (Hi x Hx) as (r & Hr & E & S). exists r. auto.
    + intros k x Hx. apply push_blocked_in in Hx as [[-> ->]|Hx].
      * exists row. split; [exact Hrow|]. right. auto.
      * destruct (Hb k x Hx) as (r & Hr & E). exists r. auto.
    + cbn [included blockedByCurrency]. rewrite push_blocked_perm, app_assoc. reflexivity.
Qed.
End PartitionSpec.

Lemma timeEntry_id r c s : timeEntryToLineSpec r c = Ok s -> ds_sourceId s = Some (te_id r).
Proof.
  unfold timeEntryToLineSpec. destruct (te_hourlyRate r); [|discriminate]. intros H.
  apply rbind_ok in H as (t & _ & [= <-]). reflexivity.
Qed.

Lemma filter_split_perm {A} (p : A -> bool) l :
  Permutation l (List.filter (fun x => negb (p x)) l ++ List.filter p l).
Proof.
  induction l as [|x l IH]; [reflexivity|]. simpl. destruct (p x); simpl.
  - rewrite <- Permutation_middle. constructor. exact IH.
  - constructor. exact IH.
Qed.

(** Assembling time entries loses nothing, invents nothing and converts
    nothing: every entry ends up exactly once among the included lines, the
    lines blocked under a currency, or the missing-rate gaps; an included line
    comes from a rated entry in the header's currency and is priced in it; a
    blocked line is filed under and priced in its entry's own currency; and the
    gaps are exactly the entries without a rate, which are never billed. *)
Theorem assembly_conserves_entries rows header a :
  partitionTimeEntries rows header = Ok a ->
  Permutation (map (fun r => Some (te_id r)) rows)
    (map ds_sourceId (included a ++ blocked_specs (blockedByCurrency a)) ++
     map (fun m => Some (mr_sourceId m)) (missingRate a)) /\
  (forall s, In s (included a) -> exists row, In row rows /\ te_currencyCode row = Some header /\
     te_hourlyRate row <> None /\ timeEntryToLineSpec row header = Ok s) /\
  (forall k specs s, In (k, specs) (blockedByCurrency a) -> In s specs -> exists row, In row rows /\
     (te_currencyCode row = Some k /\ k <> header /\ timeEntryToLineSpec row k = Ok s \/
      te_currencyCode row = None /\ k = UNKNOWN_CURRENCY_KEY /\ timeEntryToLineSpec row header = Ok s)) /\
  missingRate a = map missing_spec (List.filter (fun r => match te_hourlyRate r with None => true | _ => false end) rows).
Proof.
  intros H. unfold partitionTimeEntries in H. apply rbind_ok in H as (b & Hb & [= <-]).
  set (gap := fun r : TimeEntryRow => match te_hourlyRate r with None => true | _ => false end).
  assert (Eg : forall r, isMissingRateGap (te_hourlyRate r) not_billed = gap r)
    by (intros r; unfold gap; destruct (te_hourlyRate r); reflexivity).
  unfold partitionByCurrency in Hb.
  assert (Ho : origin_ok te_currencyCode timeEntryToLineSpec header [] empty_assembly)
    by (split; simpl; [tauto|]; intros k s (sp & [] & _)).
  destruct (partition_loop_spec te_currencyCode timeEntryToLineSpec (fun r => Some (te_id r)) timeEntry_id
    header _ [] empty_assembly b Ho Hb) as ((Hi & Hbl) & _ & Hp).
  simpl app in Hi, Hbl, Hp. cbn [included blockedByCurrency missingRate].
  assert (Hin : forall r, In r (List.filter (fun r => negb (isMissingRateGap (te_hourlyRate r) not_billed)) rows) ->
    In r rows /\ te_hourlyRate r <> None).
  { intros r Hr. apply filter_In in Hr as [Hr Hg]. split; [exact Hr|]. rewrite Eg in Hg. unfold gap in Hg.
    destruct (te_hourlyRate r); [discriminate|discriminate Hg]. }
  split; [|split; [|split]].
  - rewrite Hp. rewrite (filter_ext _ _ Eg). rewrite map_map. simpl.
    rewrite (filter_ext _ (fun r => negb (gap r))) by (intros r; rewrite Eg; reflexivity).
    rewrite <- map_app. apply Permutation_map, filter_split_perm.
  - intros s Hs. destruct (Hi s Hs) as (r & Hr & Hc & Hsp). destruct (Hin r Hr). exists r. auto.
  - intros k specs s Hk Hs. destruct (Hbl k s) as (r & Hr & Hc); [eauto|]. destruct (Hin r Hr). exists r. auto.
  - reflexivity.
Qed.

Lemma assembly_conserves_entries_witness :
  let e id rate cur := mkEntry id None None (Some 20) None rate true cur in
  exists a, partitionTimeEntries [e "a" (Some "1000") (Some "JPY"); e "b" None (Some "JPY"); e "c" (Some "90") (Some "USD")] "JPY" = Ok a /\
    Permutation [Some "a"; Some "b"; Some "c"]
      (map ds_sourceId (included a ++ blocked_specs (blockedByCurrency a)) ++ map (fun m => Some (mr_sourceId m)) (missingRate a)).
Proof.
  intros e. eexists. split; [vm_compute; reflexivity|].
  apply (assembly_conserves_entries [e "a" (Some "1000") (Some "JPY"); e "b" None (Some "JPY"); e "c" (Some "90") (Some "USD")] "JPY").
  vm_compute. reflexivity.
Defined.
