(* ===== verification/CatalogPricing.v ===== *)
(** * Catalog prices and bundles ([apps/api/src/services/catalogPricing.ts])

    Cost snapshots, price resolution in a target currency, bundle structure
    checks and the economics of a bundle. *)

From Stdlib Require Import QArith Qround Qabs Lqa.
From S2P Require Import Prelude JsString JsNumber Currency QuoteMath InvoiceMath.
From stdpp Require Import base gmap strings list.

Local Open Scope string_scope.
Local Open Scope Z_scope.
Local Open Scope billing_scope.

(** The file's own [toCents] and [fromCents] are [InvoiceMath]'s. *)
Definition cp_toCents (v : option amount) : num := InvoiceMath.toCents v.
Definition cp_fromCents (cents : num) : string := InvoiceMath.fromCents cents.

Definition snapshotCost (costBasis : option string) (costCurrency targetCurrency : string) : option string :=
  match costBasis with
  | None => None
  | Some c =>
      if negb (String.eqb costCurrency targetCurrency) then None
      else if isRepresentableInCurrency (Str c) targetCurrency then Some c else None
  end.

(** The cost and the currency an importer may store. *)
Definition importedCost (feedCost : option num) (feedCurrency : option string) : option num * option string :=
  let costCurrency := match feedCurrency with
                      | Some c => if String.eqb (trim c) "" then None else Some (toUpperCase (trim c))
                      | None => None
                      end in
  let cost := match feedCost with Some x => if isFinite x then Some x else None | None => None end in
  (match costCurrency with Some _ => cost | None => None end, costCurrency).

Definition deriveUnitPrice (explicitPrice : option num) (costBasis markupPercent : option string) : string :=
  match explicitPrice with
  | Some p => toFixed 2 p
  | None =>
      match costBasis, markupPercent with
      | Some c, Some m =>
          let cost := cp_toCents (Some (Str c)) in
          cp_fromCents (math_round (js_mul cost (js_add (ofZ 1) (js_div (js_Number m) (ofZ 100)))))
      | _, _ => "0.00"
      end
  end.

Inductive PriceSource := org_override | price_book.

Record ResolvedPrice := mkResolvedPrice {
  rp_unitPrice : string;
  rp_currencyCode : string;
  rp_costBasis : option string;
  rp_costCurrency : string;
  rp_marginAvailable : bool;
  rp_taxable : bool;
  rp_taxCategory : option string;
  rp_source : PriceSource;
}.

Inductive PriceGap :=
| NO_PRICE_FOR_CURRENCY
| PRICE_NOT_REPRESENTABLE (source : PriceSource) (unitPrice : string).

Definition isPriceGap (r : ResolvedPrice + PriceGap) : bool := match r with inl _ => false | inr _ => true end.

Record CatalogItem := mkItem {
  item_costBasis : option string; item_costCurrency : string; item_taxable : bool; item_taxCategory : option string }.

(** [override] is the organization's price with its currency, [bookRow] the
    price-book row of the target currency. *)
Definition resolvePriceFrom (item : CatalogItem) (override : option (string * string)) (bookRow : option string)
    (targetCurrency : string) : ResolvedPrice + PriceGap :=
  let costBasis := snapshotCost (item_costBasis item) (item_costCurrency item) targetCurrency in
  let candidate :=
    match override with
    | Some (p, c) => if String.eqb c targetCurrency then Some (p, org_override)
                     else match bookRow with Some b => Some (b, price_book) | None => None end
    | None => match bookRow with Some b => Some (b, price_book) | None => None end
    end in
  match candidate with
  | None => inr NO_PRICE_FOR_CURRENCY
  | Some (p, s) =>
      if negb (isRepresentableInCurrency (Str p) targetCurrency) then inr (PRICE_NOT_REPRESENTABLE s p)
      else inl (mkResolvedPrice p targetCurrency costBasis (item_costCurrency item)
                  (match costBasis with Some _ => true | None => false end)
                  (item_taxable item) (item_taxCategory item) s)
  end.

(** ** Bundle structure *)

Inductive BundleProblem := SELF_REFERENCE | NESTED_BUNDLE | CROSS_PARTNER | COMPONENT_NOT_FOUND | DUPLICATE_COMPONENT.

#[export] Instance problem_eq_dec : EqDecision BundleProblem.
Proof. solve_decision. Defined.

(** [problems.add(p)] on a [Set] that keeps insertion order. *)
Definition add_problem (p : BundleProblem) (b : bool) (l : list BundleProblem) : list BundleProblem :=
  if b && negb (bool_decide (p ∈ l)) then (l ++ [p])%list else l.

Record ComponentMeta := mkMeta { meta_isBundle : bool; meta_partnerId : string }.

Fixpoint bundle_loop (bundleId bundlePartnerId : string) (componentMeta : gmap string ComponentMeta)
    (components : list string) (seen : gset string) (problems : list BundleProblem) : list BundleProblem :=
  match components with
  | [] => problems
  | c :: rest =>
      let problems := add_problem DUPLICATE_COMPONENT (bool_decide (c ∈ seen)) problems in
      let seen := {[c]} ∪ seen in
      let problems := add_problem SELF_REFERENCE (String.eqb c bundleId) problems in
      let problems :=
        match componentMeta !! c with
        | None => add_problem COMPONENT_NOT_FOUND true problems
        | Some meta =>
            add_problem CROSS_PARTNER (negb (String.eqb (meta_partnerId meta) bundlePartnerId))
              (add_problem NESTED_BUNDLE (meta_isBundle meta) problems)
        end in
      bundle_loop bundleId bundlePartnerId componentMeta rest seen problems
  end.

(** The components' quantities play no part in the checks. *)
Definition detectBundleProblems (bundleId bundlePartnerId : string) (components : list string)
    (componentMeta : gmap string ComponentMeta) : list BundleProblem :=
  bundle_loop bundleId bundlePartnerId componentMeta components ∅ [].

(** ** Bundle economics *)

Inductive BundleHeadlineGap := HG_NO_PRICE_FOR_CURRENCY | HG_PRICE_NOT_REPRESENTABLE.

Record BundleComponent := mkComponent {
  bc_componentItemId : string;
  bc_quantity : string;
  bc_costBasis : option string;
  bc_costCurrency : string;
  bc_revenueAllocation : option string;
  bc_allocationCurrency : option string;
  bc_hasPriceInCurrency : bool;
}.

Record BundleEconomics := mkEconomics {
  be_currencyCode : string;
  be_headlinePrice : option string;
  be_headlineGap : option BundleHeadlineGap;
  be_headlineGapMessage : option string;
  be_priceBookComplete : bool;
  be_marginAvailable : bool;
  be_totalCost : option string;
  be_margin : option string;
  be_marginPct : option num;
  be_allocationAvailable : bool;
  be_allocationTotal : option string;
  be_allocationMatchesHeadline : bool;
  be_missingPriceComponentIds : list string;
}.

Record EconAcc := mkEcon { ec_cost : num; ec_alloc : num; ec_any : bool; ec_available : bool }.

(** One turn of the component loop. *)
Definition econ_step (currency : string) (c : BundleComponent) (a : EconAcc) : result string EconAcc :=
  let! cost :=
    match snapshotCost (bc_costBasis c) (bc_costCurrency c) currency with
    | Some cost =>
        let qty := js_Number (if String.eqb (bc_quantity c) "" then "0" else bc_quantity c) in
        let! s := roundToCurrency (Num (js_mul (js_Number cost) qty)) currency in
        Ok (js_add (ec_cost a) (cp_toCents (Some (Str s))))
    | None => Ok (ec_cost a)
    end in
  match bc_revenueAllocation c with
  | None => Ok (mkEcon cost (ec_alloc a) (ec_any a) (ec_available a))
  | Some r =>
      if match bc_allocationCurrency c with Some k => String.eqb k currency | None => false end
      then Ok (mkEcon cost (js_add (ec_alloc a) (cp_toCents (Some (Str r)))) true (ec_available a))
      else Ok (mkEcon cost (ec_alloc a) true false)
  end.

Fixpoint econ_loop (currency : string) (components : list BundleComponent) (a : EconAcc) : result string EconAcc :=
  match components with
  | [] => Ok a
  | c :: rest => let! a := econ_step currency c a in econ_loop currency rest a
  end.

Definition cost_usable (currency : string) (c : BundleComponent) : bool :=
  match bc_costBasis c with
  | None => true
  | Some _ => match snapshotCost (bc_costBasis c) (bc_costCurrency c) currency with Some _ => true | None => false end
  end.

Definition computeBundleEconomicsFrom (currencyCode : string) (headlinePrice : option string)
    (headlineGap : option BundleHeadlineGap) (headlineGapMessage : option string)
    (components : list BundleComponent) : result string BundleEconomics :=
  let currency := currencyCode in
  let missing := map bc_componentItemId (List.filter (fun c => negb (bc_hasPriceInCurrency c)) components) in
  let has_headline := match headlinePrice with Some _ => true | None => false end in
  let priceBookComplete := has_headline && match missing with [] => true | _ => false end in
  let marginAvailable := forallb (cost_usable currency) components in
  let! a := econ_loop currency components (mkEcon (ofZ 0) (ofZ 0) false true) in
  let! headlineCents :=
    match headlinePrice with
    | None => Ok (ofZ 0)
    | Some h => let! s := roundToCurrency (Str h) currency in Ok (cp_toCents (Some (Str s)))
    end in
  let marginCents := js_sub headlineCents (ec_cost a) in
  let available := priceBookComplete && marginAvailable in
  Ok (mkEconomics currency
        (match headlinePrice with None => None | Some _ => Some (cp_fromCents headlineCents) end)
        (if has_headline then None
         else Some (match headlineGap with Some g => g | None => HG_NO_PRICE_FOR_CURRENCY end))
        (if has_headline then None else headlineGapMessage)
        priceBookComplete marginAvailable
        (if available then Some (cp_fromCents (ec_cost a)) else None)
        (if available then Some (cp_fromCents marginCents) else None)
        (if available then
           Some (if js_eq headlineCents (ofZ 0) then ofZ 0
                 else js_div (math_round (js_mul (js_div marginCents headlineCents) (ofZ 10000))) (ofZ 100))
         else None)
        (ec_available a)
        (if ec_available a then Some (cp_fromCents (ec_alloc a)) else None)
        (if negb (ec_available a) then false
         else if negb has_headline then negb (ec_any a)
         else if ec_any a then js_eq (ec_alloc a) headlineCents else true)
        missing).

(** ** Properties *)

(** Price resolution never converts and never falls through: a resolved
    price is in the target currency and exact at its minor unit, it is the
    organization's override when one exists in that currency and the price-book
    row otherwise, an unusable winning row is reported rather than skipped, and
    a margin is only announced with a cost stamped in the target currency. *)
Theorem price_resolution_sound item override bookRow target :
  let winner := match override with
                | Some (p, c) => if String.eqb c target then Some (p, org_override)
                                 else option_map (fun b => (b, price_book)) bookRow
                | None => option_map (fun b => (b, price_book)) bookRow
                end in
  match resolvePriceFrom item override bookRow target with
  | inl r =>
      winner = Some (rp_unitPrice r, rp_source r) /\ rp_currencyCode r = target /\
      isRepresentableInCurrency (Str (rp_unitPrice r)) target = true /\
      (rp_marginAvailable r = true <-> exists c, rp_costBasis r = Some c) /\
      (forall c, rp_costBasis r = Some c ->
         item_costBasis item = Some c /\ item_costCurrency item = target /\ isRepresentableInCurrency (Str c) target = true)
  | inr NO_PRICE_FOR_CURRENCY => winner = None
  | inr (PRICE_NOT_REPRESENTABLE s p) => winner = Some (p, s) /\ isRepresentableInCurrency (Str p) target = false
  end.
Proof.
  intros winner. unfold resolvePriceFrom.
  set (cost := snapshotCost (item_costBasis item) (item_costCurrency item) target).
  assert (Hcost : forall c, cost = Some c ->
    item_costBasis item = Some c /\ item_costCurrency item = target /\ isRepresentableInCurrency (Str c) target = true).
  { unfold cost, snapshotCost. intros c. destruct (item_costBasis item) as [b|]; [|discriminate].
    destruct (String.eqb_spec (item_costCurrency item) target); [|discriminate]. cbn [negb].
    destruct (isRepresentableInCurrency (Str b) target) eqn:E; [|discriminate]. intros [= <-]. auto. }
  assert (Hw : (match override with
    | Some (p, c) => if String.eqb c target then Some (p, org_override)
                     else match bookRow with Some b => Some (b, price_book) | None => None end
    | None => match bookRow with Some b => Some (b, price_book) | None => None end
    end) = winner) by (unfold winner; destruct override as [[p c]|], bookRow; reflexivity).
  rewrite Hw. destruct winner as [[p s]|]; [|reflexivity].
  destruct (isRepresentableInCurrency (Str p) target) eqn:E; cbn [negb]; [|auto].
  cbn. split; [reflexivity|]. split; [reflexivity|]. split; [exact E|]. split; [|exact Hcost].
  destruct cost as [c|]; split; intros H; try reflexivity; try discriminate; [eauto|destruct H; discriminate].
Qed.

(** A bundle cost goes through binary doubles, so an exact half-cent is
    lost: a component costing 0.15 with quantity 1.50 is costed 0.22 by
    [computeBundleEconomicsFrom], where the exact product helper rounds the
    same 0.225 to 0.23. *)
Theorem bundle_cost_loses_exact_tie :
  exists e, computeBundleEconomicsFrom "USD" (Some "10.00") None None
      [mkComponent "a" "1.50" (Some "0.15") "USD" None None true] = Ok e /\
    be_totalCost e = Some "0.22" /\
    multiplyToCurrency (Str "1.50") (Str "0.15") "USD" = Ok "0.23".
Proof. eexists. split; [vm_compute; reflexivity|]. split; vm_compute; reflexivity. Qed.

Lemma econ_loop_available currency components a a' :
  econ_loop currency components a = Ok a' ->
  ec_available a' = ec_available a && forallb (fun c =>
    match bc_revenueAllocation c with
    | None => true
    | Some _ => match bc_allocationCurrency c with Some k => String.eqb k currency | None => false end
    end) components.
Proof.
  revert a. induction components as [|c rest IH]; intros a H; cbn [econ_loop forallb] in *.
  - injection H as <-. rewrite andb_true_r. reflexivity.
  - apply rbind_ok in H as (b & Hb & H). rewrite (IH b H), andb_assoc. f_equal.
    unfold econ_step in Hb. apply rbind_ok in Hb as (cost & _ & Hb).
    destruct (bc_revenueAllocation c); [|injection Hb as <-; rewrite andb_true_r; reflexivity].
    destruct (bc_allocationCurrency c) as [k|]; [destruct (String.eqb k currency)|];
      injection Hb as <-; cbn; rewrite ?andb_true_r, ?andb_false_r; reflexivity.
Qed.

(** Bundle economics are never partial: a total cost, a margin and a
    margin percent are reported together, exactly when the bundle and every
    component have a price in the currency and every recorded cost is usable in
    it; the allocation total is reported exactly when every allocation is
    stamped in the currency, and without one the allocations never match. *)
Theorem bundle_economics_all_or_nothing currency headline gap msg components e :
  computeBundleEconomicsFrom currency headline gap msg components = Ok e ->
  let complete := (match headline with Some _ => true | None => false end) &&
                  forallb bc_hasPriceInCurrency components && forallb (cost_usable currency) components in
  let allocated := forallb (fun c =>
    match bc_revenueAllocation c with
    | None => true
    | Some _ => match bc_allocationCurrency c with Some k => String.eqb k currency | None => false end
    end) components in
  (if complete then be_totalCost e <> None /\ be_margin e <> None /\ be_marginPct e <> None
   else be_totalCost e = None /\ be_margin e = None /\ be_marginPct e = None) /\
  (if allocated then be_allocationTotal e <> None else be_allocationTotal e = None /\ be_allocationMatchesHeadline e = false).
Proof.
  intros H complete allocated. unfold computeBundleEconomicsFrom in H.
  apply rbind_ok in H as (a & Ha & H). apply rbind_ok in H as (h & Hh & [= <-]).
  pose proof (econ_loop_available _ _ _ _ Ha) as Hav. cbn [ec_available andb] in Hav. fold allocated in Hav.
  cbn [be_totalCost be_margin be_marginPct be_allocationTotal be_allocationMatchesHeadline].
  assert (Hc : (match headline with Some _ => true | None => false end) &&
    (match map bc_componentItemId (List.filter (fun c => negb (bc_hasPriceInCurrency c)) components) with [] => true | _ => false end)
    && forallb (cost_usable currency) components = complete).
  { unfold complete. f_equal. f_equal. clear. induction components as [|c r IH]; [reflexivity|]. simpl.
    destruct (bc_hasPriceInCurrency c); [exact IH|reflexivity]. }
  rewrite Hc, Hav. split; [destruct complete|destruct allocated]; repeat split; congruence.
Qed.

Lemma bundle_economics_all_or_nothing_witness :
  exists e, computeBundleEconomicsFrom "USD" (Some "10.00") None None
      [mkComponent "a" "1" (Some "2.00") "EUR" (Some "4.00") (Some "USD") true] = Ok e /\ be_totalCost e = None.
Proof.
  eexists. split; [vm_compute; reflexivity|].
  match goal with |- be_totalCost ?e = _ =>
    destruct (bundle_economics_all_or_nothing "USD" (Some "10.00") None None
      [mkComponent "a" "1" (Some "2.00") "EUR" (Some "4.00") (Some "USD") true] e) as [H _]; [vm_compute; reflexivity|] end.
  vm_compute in H. apply H.
Defined.

(** ** Bundle structure *)

(** What each problem means, for the components read so far. *)
Definition has_problem (bundleId partner : string) (meta : gmap string ComponentMeta)
    (components : list string) (p : BundleProblem) : Prop :=
  match p with
  | DUPLICATE_COMPONENT => ~ NoDup components
  | SELF_REFERENCE => bundleId ∈ components
  | COMPONENT_NOT_FOUND => exists c, c ∈ components /\ meta !! c = None
  | NESTED_BUNDLE => exists c m, c ∈ components /\ meta !! c = Some m /\ meta_isBundle m = true
  | CROSS_PARTNER => exists c m, c ∈ components /\ meta !! c = Some m /\ meta_partnerId m <> partner
  end.

Lemma elem_of_add_problem p q b l : p ∈ add_problem q b l <-> p ∈ l \/ p = q /\ b = true.
Proof.
  unfold add_problem. destruct b; cbn [andb]; [|naive_solver].
  destruct (bool_decide_reflect (q ∈ l)); cbn [negb]; set_solver.
Qed.

Lemma NoDup_add_problem q b l : NoDup l -> NoDup (add_problem q b l).
Proof.
  intros H. unfold add_problem. destruct b; cbn [andb]; [|exact H].
  destruct (bool_decide_reflect (q ∈ l)); cbn [negb]; [exact H|].
  rewrite NoDup_app. split; [exact H|]. split; [|apply NoDup_singleton].
  intros x Hx Hq. apply list_elem_of_singleton in Hq as ->. contradiction.
Qed.

Lemma NoDup_snoc (l : list string) c : NoDup (l ++ [c]) <-> NoDup l /\ c ∉ l.
Proof.
  rewrite NoDup_app. split.
  - intros (H & Hd & _). split; [exact H|]. intros Hc. apply (Hd c Hc), list_elem_of_singleton. reflexivity.
  - intros [H Hc]. split; [exact H|]. split; [|apply NoDup_singleton].
    intros x Hx Hxc. apply list_elem_of_singleton in Hxc as ->. exact (Hc Hx).
Qed.

(** The problems a component adds to those of the ones before it. *)
Definition adds_problem (bundleId partner : string) (meta : gmap string ComponentMeta)
    (done : list string) (c : string) (p : BundleProblem) : Prop :=
  match p with
  | DUPLICATE_COMPONENT => c ∈ done
  | SELF_REFERENCE => c = bundleId
  | COMPONENT_NOT_FOUND => meta !! c = None
  | NESTED_BUNDLE => exists m, meta !! c = Some m /\ meta_isBundle m = true
  | CROSS_PARTNER => exists m, meta !! c = Some m /\ meta_partnerId m <> partner
  end.

Lemma exists_snoc (P : string -> Prop) done c :
  (exists x, x ∈ (done ++ [c])%list /\ P x) <-> (exists x, x ∈ done /\ P x) \/ P c.
Proof.
  split.
  - intros (x & Hx & HP). apply elem_of_app in Hx as [Hx|Hx]; [left; eauto|].
    apply list_elem_of_singleton in Hx as ->. auto.
  - intros [(x & Hx & HP)|HP]; [exists x|exists c]; (split; [|exact HP]); apply elem_of_app; [auto|].
    right. apply list_elem_of_singleton. reflexivity.
Qed.

Lemma exists2_snoc (P : string -> ComponentMeta -> Prop) done c :
  (exists x m, x ∈ (done ++ [c])%list /\ P x m) <-> (exists x m, x ∈ done /\ P x m) \/ exists m, P c m.
Proof.
  pose proof (exists_snoc (fun x => exists m, P x m) done c) as [E1 E2]. split.
  - intros (x & m & Hx & Hm). destruct E1 as [(y & Hy & m' & Hm')|Hm']; eauto.
  - intros H. destruct E2 as (y & Hy & m' & Hm'); [|eauto].
    destruct H as [(x & m & Hx & Hm)|Hm]; eauto.
Qed.

Lemma has_problem_snoc bundleId partner meta done c p :
  has_problem bundleId partner meta (done ++ [c]) p <->
  has_problem bundleId partner meta done p \/ adds_problem bundleId partner meta done c p.
Proof.
  destruct p; cbn [has_problem adds_problem].
  - rewrite elem_of_app, list_elem_of_singleton. split; intros [H|H]; auto.
  - apply (exists2_snoc (fun x m => meta !! x = Some m /\ meta_isBundle m = true)).
  - apply (exists2_snoc (fun x m => meta !! x = Some m /\ meta_partnerId m <> partner)).
  - apply (exists_snoc (fun x => meta !! x = None)).
  - rewrite NoDup_snoc. split.
    + intros H. destruct (decide (c ∈ done)); [auto|]. left. intros Hn. apply H. auto.
    + intros [H|H] [H1 H2]; auto.
Qed.

Lemma bundle_step_elem bundleId partner meta done (seen : gset string) problems c p :
  (forall x, x ∈ seen <-> x ∈ done) ->
  p ∈ (match meta !! c with
       | None => add_problem COMPONENT_NOT_FOUND true
           (add_problem SELF_REFERENCE (String.eqb c bundleId)
             (add_problem DUPLICATE_COMPONENT (bool_decide (c ∈ seen)) problems))
       | Some m => add_problem CROSS_PARTNER (negb (String.eqb (meta_partnerId m) partner))
           (add_problem NESTED_BUNDLE (meta_isBundle m)
             (add_problem SELF_REFERENCE (String.eqb c bundleId)
               (add_problem DUPLICATE_COMPONENT (bool_decide (c ∈ seen)) problems)))
       end) <-> p ∈ problems \/ adds_problem bundleId partner meta done c p.
Proof.
  intros Hs. unfold adds_problem.
  destruct (meta !! c) as [m|] eqn:Em; rewrite !elem_of_add_problem, bool_decide_eq_true, Hs, String.eqb_eq;
    rewrite ?negb_true_iff, ?String.eqb_neq; destruct p; split; intros H;
    repeat match goal with
    | H : _ \/ _ |- _ => destruct H
    | H : _ /\ _ |- _ => destruct H
    | H : exists _, _ |- _ => destruct H
    | H : Some _ = Some _ |- _ => injection H as <-
    end; try discriminate; eauto 8.
Qed.

Lemma bundle_loop_spec bundleId partner meta components done seen problems :
  (forall c, c ∈ seen <-> c ∈ done) -> NoDup problems ->
  (forall p, p ∈ problems <-> has_problem bundleId partner meta done p) ->
  let out := bundle_loop bundleId partner meta components seen problems in
  NoDup out /\ forall p, p ∈ out <-> has_problem bundleId partner meta (done ++ components) p.
Proof.
  revert done seen problems. induction components as [|c rest IH]; intros done seen problems Hs Hn Hp.
  - rewrite app_nil_r. auto.
  - replace (done ++ c :: rest)%list with ((done ++ [c]) ++ rest)%list by (rewrite <- app_assoc; reflexivity).
    cbv zeta. cbn [bundle_loop]. apply IH.
    + intros x. rewrite elem_of_union, elem_of_singleton, Hs, elem_of_app, list_elem_of_singleton. tauto.
    + destruct (meta !! c); repeat apply NoDup_add_problem; exact Hn.
    + intros p. rewrite has_problem_snoc, <- Hp. apply bundle_step_elem, Hs.
Qed.

(** The bundle check reports each problem once, and exactly the problems
    the components have: a duplicated component, the bundle itself, an unknown
    component, a component that is a bundle, or one of another partner. *)
Theorem bundle_problems_exact bundleId partner components meta :
  NoDup (detectBundleProblems bundleId partner components meta) /\
  forall p, p ∈ detectBundleProblems bundleId partner components meta <->
    has_problem bundleId partner meta components p.
Proof.
  apply (bundle_loop_spec bundleId partner meta components [] ∅ []).
  - intros c. split; intros H; [destruct (not_elem_of_empty c H)|inversion H].
  - constructor.
  - intros p. split; [intros H; inversion H|]. destruct p; cbn [has_problem].
    + intros H. inversion H.
    + intros (c & m & H & _). inversion H.
    + intros (c & m & H & _). inversion H.
    + intros (c & H & _). inversion H.
    + intros H. destruct H. constructor.
Qed.
