(* ===== verification/BillingDb.v ===== *)
(** * The billing tables ([apps/api/src/db/schema/invoices.ts], [contracts.ts])

    The rows the billing services read and write, a transaction as a state and
    error monad over them (an error leaves the caller's tables untouched), the
    numeric(12,2) columns, the catalog's price reads
    ([apps/api/src/services/catalogService.ts]) and the frozen document parties
    ([sellerSnapshot.ts]). *)

From Stdlib Require Import QArith Qround Lqa.
From S2P Require Import Prelude JsString JsNumber Currency IsoDate QuoteMath InvoiceMath ContractMath TimeBilling CatalogPricing ContractCoverage.
From stdpp Require Import base gmap strings list pretty.

Local Open Scope string_scope.
Local Open Scope Z_scope.
Local Open Scope billing_scope.

(** ** Errors *)

(** The codes of [InvoiceServiceError], [CatalogServiceError] and
    [ContractServiceError] that the modelled operations raise. *)
Inductive ErrorCode :=
| PARTNER_UNRESOLVABLE | ORG_DENIED | ORG_NOT_FOUND | SITE_DENIED | INVOICE_NOT_FOUND | NOT_A_DRAFT
| LINE_NOT_FOUND | INVALID_STATE | INVALID_AMOUNT | OVERPAYMENT | CURRENCY_MISMATCH | CURRENCY_LOCKED
| NO_PRICE | NOT_REPRESENTABLE | PRICE_BOOK_INCOMPLETE | ITEM_NOT_FOUND | NOT_A_BUNDLE
| NO_VISIBLE_LINES | SOURCE_NOT_FOUND | SOURCE_ALREADY_BILLED | CONCURRENT_MODIFICATION | NUMBER_ALLOCATION_FAILED
| PAYMENT_NOT_FOUND | QUICKBOOKS_OWNED_PAYMENT | STRIPE_PAYMENT_MANAGED_EXTERNALLY | STRIPE_REVOCATION_PENDING
| INVOICE_HAS_PAYMENTS | NOTHING_TO_INVOICE | ALL_BLOCKED_BY_CURRENCY | ALL_MISSING_RATE
| NOT_PAYABLE | NOTHING_TO_PAY | STRIPE_NOT_CONNECTED
| CONTRACT_NOT_FOUND | NO_LINES | SITE_DELETED | GROUP_DELETED | GROUP_EVALUATION_FAILED
| SITE_NOT_IN_ORG | GROUP_NOT_IN_ORG
| QUOTE_NOT_FOUND | RESPONSE_CONSUMED | QUOTE_SUPERSEDED | QUOTE_NOT_ACCEPTABLE | QUOTE_EXPIRED | PARENT_CONVERTED
| DEPOSIT_INVALID | CONTRACT_VARIABLES_UNRESOLVED | CONTRACT_RENDER_DATA_MISSING | QUOTE_LINE_REFERENCE_DELETED
| INVALID_SIGNER_NAME | BLOCK_NOT_FOUND | CATALOG_ITEM_NOT_FOUND | DEVICE_SET_UNCOUNTABLE | INVALID_LINE_PATCH
| INVALID_CONTRACT_TEMPLATE | ALREADY_SUPERSEDED | REVISION_IN_PROGRESS | REORDER_IDS_MISMATCH | LINE_IS_BUNDLE_CHILD
| BLOCK_NOT_LINE_ITEMS | BLOCK_TYPE_MISMATCH | DEPOSIT_RULE (code : DepositError)
| ACTIVE_CHANGE_FORBIDDEN | ACTIVE_CHANGE_CONFIRMATION_REQUIRED | ORPHANED_CONTRACT_SOURCE | ORPHANED_BILLING_PERIOD
| BROKEN_CONTRACT_LINEAGE | UNBILLED_MONETARY_ROWS
| TICKET_NOT_FOUND | TICKET_WRONG_PARTNER | TICKET_ORG_DENIED | ENTRY_NOT_FOUND | PART_NOT_FOUND | NOT_OWN_ENTRY | ADMIN_REQUIRED
| APPROVED_IMMUTABLE | NO_RUNNING_TIMER | ENTRY_RUNNING | INVALID_RANGE | BILLING_STATUS_RESERVED | ENTRY_BILLED | PART_BILLED
| WORK_TYPE_NOT_FOUND | RATE_REQUIRES_BILLABLE | MANAGE_BILLING_REQUIRED | BILLABLE_MINUTES_DRIFT
| PROFILE_NOT_FOUND | INVALID_PROFILE | INVALID_RATE | INVALID_CURRENCY | PROFILE_INACTIVE | PROFILE_NAME_TAKEN | DEFAULT_PROFILE_REQUIRED
| PROFILE_CURRENCY_LOCKED | DUPLICATE_WORK_TYPE | PROFILE_DEFAULT_CONFLICT | PROFILE_CURRENCY_MISMATCH | PARTNER_WIDE_WRITE_DENIED
| WORK_TYPE_NAME_TAKEN | ORG_CURRENCY_CHANGED | CONFIRMATION_REQUIRED.

Inductive Failure :=
| Refused (code : ErrorCode)
| Thrown (message : string).

(** ** Columns of type numeric(12,2) *)

(** What the column keeps of a written text: the value rounded half away from
    zero at two decimals, refused beyond ten integer digits. *)
Definition pg_numeric (s : string) : result Failure string :=
  match parse_text s with
  | Err _ => Err (Thrown "invalid input syntax for type numeric")
  | Ok d =>
      let m := roundScaled (mkDecimal false (unscaled d) (scale d)) 2 in
      if m <? 10 ^ 12 then Ok (fixed2 (if neg d then - m else m))
      else Err (Thrown "numeric field overflow")
  end.

Definition pg_numeric_opt (s : option string) : result Failure (option string) :=
  match s with
  | None => Ok None
  | Some x => let! y := pg_numeric x in Ok (Some y)
  end.

(** ** Parties *)

Record Address := mkAddress {
  ad_line1 : option string; ad_line2 : option string; ad_city : option string;
  ad_region : option string; ad_postalCode : option string; ad_country : option string }.

Definition no_address : Address := mkAddress None None None None None None.

Record Organization := mkOrg {
  org_partnerId : string; org_name : string; org_currencyCode : string;
  org_taxExempt : bool; org_taxRate : option string; org_taxId : option string;
  org_billingAddress : Address;
  org_brandingFooter : option string;
  org_automationEligible : bool }.

Record Partner := mkPartner {
  pt_name : string; pt_billingCompanyName : option string; pt_billingAddress : Address;
  pt_billingPhone : option string; pt_billingEmail : option string; pt_billingWebsite : option string;
  pt_defaultTaxRate : option string; pt_invoiceTermsDays : Z; pt_invoiceNumberPrefix : string;
  pt_invoiceFooter : option string; pt_billingTermsAndConditions : option string;
  pt_invoiceDeviceAppendix : bool; pt_documentLocale : string }.

Record SellerSnapshot := mkSeller {
  ss_name : option string; ss_address : Address; ss_phone : option string;
  ss_email : option string; ss_website : option string }.

Definition buildSellerSnapshot (partner : option Partner) : SellerSnapshot :=
  match partner with
  | None => mkSeller None no_address None None None
  | Some p =>
      mkSeller (Some (match pt_billingCompanyName p with Some n => n | None => pt_name p end))
        (pt_billingAddress p) (pt_billingPhone p) (pt_billingEmail p) (pt_billingWebsite p)
  end.

Definition buildBillToAddress (org : option Organization) : Address :=
  match org with Some o => org_billingAddress o | None => no_address end.

(** [filter(Boolean).join(', ')] and the two line filters. *)
Definition non_empty (l : list (option string)) : list string :=
  omap (fun o => match o with Some s => if String.eqb s "" then None else Some s | None => None end) l.

Definition sellerAddressLines (snapshot : option SellerSnapshot) : list string :=
  match snapshot with
  | None => []
  | Some s =>
      let a := ss_address s in
      let cityLine := String.concat ", " (non_empty [ad_city a; ad_region a; ad_postalCode a]) in
      List.filter (fun l => negb (String.eqb (trim l) ""))
        (non_empty [ad_line1 a; ad_line2 a; Some cityLine; ad_country a])
  end.

Definition resolveInvoiceFooter (invoiceTerms partnerFooter brandingFooter : option string) : option string :=
  match invoiceTerms with
  | Some t => Some t
  | None => match partnerFooter with Some t => Some t | None => brandingFooter end
  end.

(** ** Invoices *)

Record InvoiceActor := mkActor {
  ac_userId : option string;
  ac_partnerId : option string;
  ac_accessibleOrgIds : option (list string);
  ac_allowedSiteIds : option (list string);
}.

Record InvoiceMoney := mkMoney {
  im_subtotal : string; im_taxRate : option string; im_taxTotal : string; im_total : string;
  im_amountPaid : string; im_balance : string }.

(** Moments are milliseconds since the epoch. *)
Record InvoiceMarks := mkMarks {
  mk_paidAt : option Z; mk_markedOverdueAt : option Z; mk_voidedAt : option Z; mk_voidReason : option string;
  mk_firstViewedAt : option Z; mk_viewedAt : option Z }.

(** The columns frozen when the invoice is issued. *)
Record InvoiceParties := mkParties {
  pa_billToName : option string; pa_billToAddress : option Address; pa_billToTaxId : option string;
  pa_billToTaxExempt : bool; pa_terms : option string; pa_sellerSnapshot : option SellerSnapshot;
  pa_documentLocale : option string; pa_deviceAppendix : option bool }.

Record Invoice := mkInvoice {
  iv_partnerId : string; iv_orgId : string; iv_siteId : option string;
  iv_currencyCode : string; iv_createdBy : option string;
  iv_status : InvoiceStatus; iv_invoiceNumber : option string;
  iv_issueDate : option string; iv_dueDate : option string;
  iv_money : InvoiceMoney; iv_marks : InvoiceMarks; iv_parties : InvoiceParties;
  iv_notes : option string; iv_termsAndConditions : option string;
  iv_replacesInvoiceId : option string; iv_replacedByInvoiceId : option string;
  iv_evidenceVersion : option Z; iv_depositDue : option string }.

Definition zero_money : InvoiceMoney := mkMoney "0.00" None "0.00" "0.00" "0.00" "0.00".
Definition no_marks : InvoiceMarks := mkMarks None None None None None None.
Definition no_parties : InvoiceParties := mkParties None None None false None None None None.

(** The columns a line insert states. *)
Record LineValues := mkLine {
  lv_sourceType : InvoiceLineSourceType; lv_sourceId : option string; lv_sourceContractId : option string;
  lv_catalogItemId : option string; lv_parentLineId : option string; lv_ticketId : option string;
  lv_name : option string; lv_description : option string;
  lv_quantity : string; lv_unitPrice : string; lv_costBasis : option string; lv_revenueAllocation : option string;
  lv_taxable : bool; lv_customerVisible : bool; lv_lineTotal : string;
  lv_isUnapprovedTime : bool; lv_workedMinutes : option Z }.

Record InvoiceLine := mkInvoiceLine {
  il_id : string; il_invoiceId : string; il_orgId : string; il_sortOrder : Z; il_values : LineValues }.

Inductive CountedAs := ca_included | ca_overage | ca_flagged.

#[export] Instance time_status_eq_dec : EqDecision TimeBillingStatus.
Proof. solve_decision. Defined.
#[export] Instance counted_as_eq_dec : EqDecision CountedAs.
Proof. solve_decision. Defined.

(** A row of [invoice_line_devices]. *)
Record LineDevice := mkLineDevice {
  ld_invoiceLineId : string; ld_invoiceId : string; ld_orgId : string; ld_deviceId : option string;
  ld_hostname : string; ld_deviceRole : string; ld_siteId : option string; ld_countedAs : CountedAs }.

Record Payment := mkPayment {
  py_id : string; py_invoiceId : string; py_orgId : string; py_amount : string; py_method : string;
  py_reference : option string; py_receivedAt : string; py_recordedBy : option string; py_note : option string }.

(** ** Charges at the payment provider ([db/schema/stripePayments.ts]) *)

Inductive StripeObjectType := ot_checkout_session | ot_payment_intent | ot_charge.

Inductive StripeStatus :=
| sp_pending | sp_succeeded | sp_failed | sp_refunded | sp_partially_refunded | sp_disputed | sp_partially_disputed.

Inductive RevocationState :=
| rs_active | rs_requested | rs_revoked | rs_blocked | rs_charged_repair | rs_legacy_unbounded.

#[export] Instance stripe_object_type_eq_dec : EqDecision StripeObjectType.
Proof. solve_decision. Defined.
#[export] Instance stripe_status_eq_dec : EqDecision StripeStatus.
Proof. solve_decision. Defined.
#[export] Instance revocation_state_eq_dec : EqDecision RevocationState.
Proof. solve_decision. Defined.

Record Revocation := mkRevocation {
  rk_state : RevocationState; rk_reason : option string; rk_requestedAt : option Z; rk_attempts : Z;
  rk_nextAttemptAt : option Z }.

(** What refunds and disputes have taken back, in minor units. *)
Record Reversal := mkReversal {
  rv_refundedAmountMinor : Z; rv_disputeAmountMinor : Z; rv_disputeFundsWithdrawn : bool;
  rv_lastDisputeEventCreated : option Z; rv_lastDisputeEventId : option string }.

Definition no_revocation : Revocation := mkRevocation rs_active None None 0 None.
Definition no_reversal : Reversal := mkReversal 0 0 false None None.

(** A row of [invoice_stripe_payments]. *)
Record StripeRow := mkStripe {
  sr_id : string; sr_orgId : string; sr_invoiceId : string; sr_invoicePaymentId : option string;
  sr_stripeAccountId : string; sr_stripeObjectType : StripeObjectType; sr_stripeObjectId : string;
  sr_stripePaymentIntentId : option string; sr_amount : string; sr_currency : string; sr_status : StripeStatus;
  sr_reversal : Reversal; sr_paymentReceivedAt : option string; sr_createdAt : Z; sr_revocation : Revocation }.

Inductive FinancialEventStatus := fs_pending | fs_applied | fs_ignored | fs_blocked.

#[export] Instance financial_event_status_eq_dec : EqDecision FinancialEventStatus.
Proof. solve_decision. Defined.

(** The columns of a provider event that identify it and state the money. *)
Record FinancialFacts := mkFacts {
  ff_partnerId : string; ff_stripeAccountId : string; ff_stripeEventId : string; ff_eventType : string; ff_livemode : bool;
  ff_providerCreated : Z; ff_paymentIntentId : option string; ff_chargeId : option string; ff_disputeId : option string;
  ff_currency : string; ff_chargeAmountMinor : option Z; ff_refundedAmountMinor : option Z;
  ff_disputeAmountMinor : option Z; ff_disputeFundsWithdrawn : option bool }.

(** A row of [stripe_financial_events]. *)
Record FinancialEvent := mkFinancialEvent {
  fe_facts : FinancialFacts; fe_stripeConnectionId : string; fe_status : FinancialEventStatus; fe_attemptCount : Z;
  fe_lastError : option string; fe_nextAttemptAt : option Z }.

Record StripeConnection := mkConnection {
  sc_id : string; sc_partnerId : string; sc_stripeAccountId : string; sc_livemode : bool; sc_connected : bool }.

(** ** Contracts *)

Inductive ContractStatus := cs_draft | cs_active | cs_paused | cs_cancelled | cs_expired.

#[export] Instance contract_status_eq_dec : EqDecision ContractStatus.
Proof. solve_decision. Defined.

Record Contract := mkContract {
  ct_partnerId : string; ct_orgId : string; ct_name : string; ct_status : ContractStatus;
  ct_billingTiming : BillingTiming; ct_intervalMonths : Z; ct_startDate : string; ct_endDate : option string;
  ct_nextBillingAt : option string; ct_autoIssue : bool; ct_autoRenew : bool;
  ct_renewalTermMonths : option Z; ct_renewalNoticeDays : option Z; ct_currencyCode : string;
  ct_notes : option string; ct_terms : option string; ct_createdBy : option string }.

Record ContractLine := mkContractLine {
  cn_id : string; cn_contractId : string; cn_orgId : string; cn_coverage : CoverageLine;
  cn_description : string; cn_catalogItemId : option string; cn_unitPrice : string;
  cn_manualQuantity : option string; cn_siteName : option string; cn_deviceGroupName : option string;
  cn_allowance : AllowanceSpec; cn_taxable : bool; cn_sortOrder : Z }.

Record BillingPeriod := mkPeriod {
  bp_id : string; bp_contractId : string; bp_orgId : string; bp_periodStart : string; bp_periodEnd : string;
  bp_invoiceId : option string }.

(** ** Catalog rows *)

Record CatalogRow := mkCatalogRow {
  cr_partnerId : string; cr_name : string; cr_description : option string; cr_isBundle : bool; cr_item : CatalogItem;
  cr_recurring : bool; cr_billingFrequency : option string; cr_commitmentTermMonths : option Z; cr_itemType : ItemCategory }.

Record BundleRow := mkBundleRow {
  br_bundleItemId : string; br_componentItemId : string; br_quantity : string; br_showOnInvoice : bool;
  br_revenueAllocation : option string; br_allocationCurrency : option string }.

(** ** Overage summaries, billing outcomes and renewal notices *)

Record OverageSummary := mkOverage {
  ov_contractLineId : string; ov_invoiceLineId : option string; ov_description : string;
  ov_counted : num; ov_included : num; ov_overage : num; ov_mode : OverageMode }.

Record PeriodOutcome := mkOutcome {
  oc_contractBillingPeriodId : string; oc_orgId : string; oc_contractId : string; oc_invoiceId : option string;
  oc_snapshotDeviceTotal : Z; oc_uncoveredTotal : Z; oc_uncoveredByRole : gmap string Z;
  oc_flaggedTotal : num; oc_billedOverageTotal : num; oc_overages : list OverageSummary }.

Inductive NoticeKind := nk_advance | nk_renewed.

#[export] Instance notice_kind_eq_dec : EqDecision NoticeKind.
Proof. solve_decision. Defined.

(** ** The tables *)

(** Tables the billing operations only read. *)
Record Reference := mkReference {
  rf_organizations : gmap string Organization;
  rf_partners : gmap string Partner;
  rf_catalogItems : gmap string CatalogRow;
  rf_orgPricing : gmap (string * string) (string * string);
  rf_bookPrices : gmap (string * string) string;
  rf_bundleComponents : list BundleRow;
  rf_tickets : gmap string string;
  rf_devices : list Device;
  rf_deviceGroups : list DeviceGroup;
  rf_sites : gmap string (string * string);
  rf_seats : gmap string Z;
  rf_paymentMappings : gmap string bool;
  rf_quickbooks : gmap string (bool * bool);
  rf_revocationObserveOnly : bool;
  rf_stripeConnections : list StripeConnection;
}.

Record Db := mkDb {
  db_ref : Reference;
  db_invoices : gmap string Invoice;
  db_lines : list InvoiceLine;
  db_lineDevices : list LineDevice;
  db_payments : list Payment;
  db_entries : list StoredEntry;
  db_parts : list StoredPart;
  db_contracts : gmap string Contract;
  db_contractLines : list ContractLine;
  db_periods : list BillingPeriod;
  db_outcomes : list PeriodOutcome;
  db_notices : list (string * string * NoticeKind);
  db_sequences : gmap (string * Z) Z;
  db_stripe : list StripeRow;
  db_stripeEvents : list FinancialEvent;
  db_next : nat;
}.

Definition set_invoices x (d : Db) : Db :=
  mkDb (db_ref d) x (db_lines d) (db_lineDevices d) (db_payments d) (db_entries d) (db_parts d) (db_contracts d)
    (db_contractLines d) (db_periods d) (db_outcomes d) (db_notices d) (db_sequences d) (db_stripe d) (db_stripeEvents d) (db_next d).
Definition set_lines x (d : Db) : Db :=
  mkDb (db_ref d) (db_invoices d) x (db_lineDevices d) (db_payments d) (db_entries d) (db_parts d) (db_contracts d)
    (db_contractLines d) (db_periods d) (db_outcomes d) (db_notices d) (db_sequences d) (db_stripe d) (db_stripeEvents d) (db_next d).
Definition set_lineDevices x (d : Db) : Db :=
  mkDb (db_ref d) (db_invoices d) (db_lines d) x (db_payments d) (db_entries d) (db_parts d) (db_contracts d)
    (db_contractLines d) (db_periods d) (db_outcomes d) (db_notices d) (db_sequences d) (db_stripe d) (db_stripeEvents d) (db_next d).
Definition set_payments x (d : Db) : Db :=
  mkDb (db_ref d) (db_invoices d) (db_lines d) (db_lineDevices d) x (db_entries d) (db_parts d) (db_contracts d)
    (db_contractLines d) (db_periods d) (db_outcomes d) (db_notices d) (db_sequences d) (db_stripe d) (db_stripeEvents d) (db_next d).
Definition set_entries x (d : Db) : Db :=
  mkDb (db_ref d) (db_invoices d) (db_lines d) (db_lineDevices d) (db_payments d) x (db_parts d) (db_contracts d)
    (db_contractLines d) (db_periods d) (db_outcomes d) (db_notices d) (db_sequences d) (db_stripe d) (db_stripeEvents d) (db_next d).
Definition set_parts x (d : Db) : Db :=
  mkDb (db_ref d) (db_invoices d) (db_lines d) (db_lineDevices d) (db_payments d) (db_entries d) x (db_contracts d)
    (db_contractLines d) (db_periods d) (db_outcomes d) (db_notices d) (db_sequences d) (db_stripe d) (db_stripeEvents d) (db_next d).
Definition set_contracts x (d : Db) : Db :=
  mkDb (db_ref d) (db_invoices d) (db_lines d) (db_lineDevices d) (db_payments d) (db_entries d) (db_parts d) x
    (db_contractLines d) (db_periods d) (db_outcomes d) (db_notices d) (db_sequences d) (db_stripe d) (db_stripeEvents d) (db_next d).
Definition set_contractLines x (d : Db) : Db :=
  mkDb (db_ref d) (db_invoices d) (db_lines d) (db_lineDevices d) (db_payments d) (db_entries d) (db_parts d) (db_contracts d)
    x (db_periods d) (db_outcomes d) (db_notices d) (db_sequences d) (db_stripe d) (db_stripeEvents d) (db_next d).
Definition set_periods x (d : Db) : Db :=
  mkDb (db_ref d) (db_invoices d) (db_lines d) (db_lineDevices d) (db_payments d) (db_entries d) (db_parts d) (db_contracts d)
    (db_contractLines d) x (db_outcomes d) (db_notices d) (db_sequences d) (db_stripe d) (db_stripeEvents d) (db_next d).
Definition set_outcomes x (d : Db) : Db :=
  mkDb (db_ref d) (db_invoices d) (db_lines d) (db_lineDevices d) (db_payments d) (db_entries d) (db_parts d) (db_contracts d)
    (db_contractLines d) (db_periods d) x (db_notices d) (db_sequences d) (db_stripe d) (db_stripeEvents d) (db_next d).
Definition set_notices x (d : Db) : Db :=
  mkDb (db_ref d) (db_invoices d) (db_lines d) (db_lineDevices d) (db_payments d) (db_entries d) (db_parts d) (db_contracts d)
    (db_contractLines d) (db_periods d) (db_outcomes d) x (db_sequences d) (db_stripe d) (db_stripeEvents d) (db_next d).
Definition set_sequences x (d : Db) : Db :=
  mkDb (db_ref d) (db_invoices d) (db_lines d) (db_lineDevices d) (db_payments d) (db_entries d) (db_parts d) (db_contracts d)
    (db_contractLines d) (db_periods d) (db_outcomes d) (db_notices d) x (db_stripe d) (db_stripeEvents d) (db_next d).
Definition set_stripe x (d : Db) : Db :=
  mkDb (db_ref d) (db_invoices d) (db_lines d) (db_lineDevices d) (db_payments d) (db_entries d) (db_parts d) (db_contracts d)
    (db_contractLines d) (db_periods d) (db_outcomes d) (db_notices d) (db_sequences d) x (db_stripeEvents d) (db_next d).
Definition set_stripeEvents x (d : Db) : Db :=
  mkDb (db_ref d) (db_invoices d) (db_lines d) (db_lineDevices d) (db_payments d) (db_entries d) (db_parts d) (db_contracts d)
    (db_contractLines d) (db_periods d) (db_outcomes d) (db_notices d) (db_sequences d) (db_stripe d) x (db_next d).
Definition set_next x (d : Db) : Db :=
  mkDb (db_ref d) (db_invoices d) (db_lines d) (db_lineDevices d) (db_payments d) (db_entries d) (db_parts d) (db_contracts d)
    (db_contractLines d) (db_periods d) (db_outcomes d) (db_notices d) (db_sequences d) (db_stripe d) (db_stripeEvents d) x.

(** ** Transactions *)

(** A transaction over tables of type [T]: a value and the tables it leaves, or
    a failure, which leaves nothing. *)
Definition St (T A : Type) : Type := T -> result Failure (A * T).
Abbreviation M := (St Db).

Definition ret {T A} (a : A) : St T A := fun d => Ok (a, d).
Definition fail {T A} (c : ErrorCode) : St T A := fun _ => Err (Refused c).
Definition bind {T A B} (x : St T A) (k : A -> St T B) : St T B :=
  fun d => match x d with Ok (a, d') => k a d' | Err e => Err e end.

Notation "'do!' x ':=' e 'in' k" := (bind e (fun x => k))
  (at level 10, x pattern, e at level 100, k at level 200) : billing_scope.

Definition read {T A} (f : T -> A) : St T A := fun d => Ok (f d, d).
Definition modify {T} (f : T -> T) : St T unit := fun d => Ok (tt, f d).
Definition require {T} (b : bool) (c : ErrorCode) : St T unit := if b then ret tt else fail c.
Definition lift {T A} (r : result Failure A) : St T A := fun d => let! a := r in Ok (a, d).
(** An error of the arithmetic helpers, which throw plain errors. *)
Definition lift_throw {T A} (r : result string A) : St T A :=
  fun d => match r with Ok a => Ok (a, d) | Err m => Err (Thrown m) end.

(** A column's CHECK constraint. *)
Definition pg_check {T} (b : bool) : St T unit := fun d => if b then Ok (tt, d) else Err (Thrown "check constraint violation").

Fixpoint for_each {T A} (f : A -> St T unit) (l : list A) : St T unit :=
  match l with
  | [] => ret tt
  | x :: r => do! _ := f x in for_each f r
  end.

(** The uuid source of the ids the database and the services mint. *)
Class Uuids := { uuid : nat -> string; uuid_inj :: Inj eq eq uuid }.

#[export] Instance decimal_uuids : Uuids := {| uuid := fun n => pretty n |}.

Definition mint `{Uuids} : M string := fun d => Ok (uuid (db_next d), set_next (S (db_next d)) d).

(** What a committed transaction leaves, and a failed one. *)
Definition commit {T A} (x : St T A) (d : T) : T := match x d with Ok (_, d') => d' | Err _ => d end.

(** *** Handlers of several transactions

    Each transaction commits on its own, so what an earlier one wrote stays when
    a later one fails. *)

Definition RunOf (T A : Type) : Type := T -> result Failure A * T.
Abbreviation Run := (RunOf Db).

Definition tx {T A} (x : St T A) : RunOf T A := fun d => match x d with Ok (a, d') => (Ok a, d') | Err e => (Err e, d) end.
Definition done {T A} (a : A) : RunOf T A := fun d => (Ok a, d).
Definition then_run {T A B} (x : RunOf T A) (k : A -> RunOf T B) : RunOf T B :=
  fun d => match x d with (Ok a, d') => k a d' | (Err e, d') => (Err e, d') end.

Notation "'run!' x ':=' e 'in' k" := (then_run e (fun x => k))
  (at level 10, x pattern, e at level 100, k at level 200)
  : billing_scope.

(** A failure that the caller catches. *)
Definition catch {T A} (x : RunOf T A) (handler : Failure -> RunOf T A) : RunOf T A :=
  fun d => match x d with (Ok a, d') => (Ok a, d') | (Err e, d') => handler e d' end.

Fixpoint run_each {T A} (f : A -> RunOf T unit) (l : list A) : RunOf T unit :=
  match l with [] => done tt | a :: rest => run! _ := f a in run_each f rest end.

(** The tables a handler leaves, whatever it returns. *)
Definition after {T A} (x : RunOf T A) (d : T) : T := snd (x d).

(** *** What handlers keep *)

Lemma tx_keeps {T A} (P : T -> Prop) (x : St T A) :
  (forall d a d', P d -> x d = Ok (a, d') -> P d') -> forall d, P d -> P (after (tx x) d).
Proof. intros Hx d Hd. unfold after, tx. destruct (x d) as [[a d']|e] eqn:E; cbn; eauto. Qed.

Lemma run_keeps {T A B} (P : T -> Prop) (x : RunOf T A) (k : A -> RunOf T B) :
  (forall d, P d -> P (after x d)) -> (forall a d, P d -> P (after (k a) d)) -> forall d, P d -> P (after (then_run x k) d).
Proof.
  intros Hx Hk d Hd. specialize (Hx d Hd). unfold after, then_run in *. destruct (x d) as [[a|e] d'] eqn:E; cbn in *; [|exact Hx].
  exact (Hk a d' Hx).
Qed.

Lemma catch_keeps {T A} (P : T -> Prop) (x : RunOf T A) h :
  (forall d, P d -> P (after x d)) -> (forall e d, P d -> P (after (h e) d)) -> forall d, P d -> P (after (catch x h) d).
Proof.
  intros Hx Hh d Hd. specialize (Hx d Hd). unfold after, catch in *. destruct (x d) as [[a|e] d'] eqn:E; cbn in *; [exact Hx|].
  exact (Hh e d' Hx).
Qed.

Lemma run_each_keeps {T A} (P : T -> Prop) (f : A -> RunOf T unit) l :
  (forall a d, P d -> P (after (f a) d)) -> forall d, P d -> P (after (run_each f l) d).
Proof.
  intros Hf. induction l as [|a l IH]; [auto|]. cbn [run_each]. apply run_keeps; [apply Hf|intros _; exact IH].
Qed.

(** ** Reasoning about transactions *)

Lemma bind_ok {T A B} (x : St T A) (k : A -> St T B) d r :
  bind x k d = Ok r <-> exists a d1, x d = Ok (a, d1) /\ k a d1 = Ok r.
Proof.
  unfold bind. destruct (x d) as [[a d1]|e]; split.
  - eauto.
  - intros (a' & d' & [= -> ->] & Hk). exact Hk.
  - discriminate.
  - intros (a & d1 & Hx & _). discriminate Hx.
Qed.

(** An operation that writes nothing. *)
Class ReadOnly {T A} (x : St T A) : Prop := read_only : forall d a d', x d = Ok (a, d') -> d' = d.

#[export] Instance ret_ro {T A} (a : A) : ReadOnly (ret (T := T) a).
Proof. intros d b d' [= _ <-]. reflexivity. Qed.
#[export] Instance fail_ro {T A} c : ReadOnly (fail (T := T) (A := A) c).
Proof. intros d b d' [=]. Qed.
#[export] Instance read_ro {T A} (f : T -> A) : ReadOnly (read f).
Proof. intros d b d' [= _ <-]. reflexivity. Qed.
#[export] Instance require_ro {T} b c : ReadOnly (require (T := T) b c).
Proof. unfold require. destruct b; apply _. Qed.
#[export] Instance pg_check_ro {T} b : ReadOnly (pg_check (T := T) b).
Proof. unfold pg_check. destruct b; [intros ? ? ? [= _ <-]; reflexivity|intros ? ? ? [=]]. Qed.
#[export] Instance lift_ro {T A} (r : result Failure A) : ReadOnly (lift (T := T) r).
Proof. intros d a d' H. unfold lift in H. destruct r; [injection H as _ <-; reflexivity|discriminate]. Qed.
#[export] Instance lift_throw_ro {T A} (r : result string A) : ReadOnly (lift_throw (T := T) r).
Proof. intros d a d' H. unfold lift_throw in H. destruct r; [injection H as _ <-; reflexivity|discriminate]. Qed.
#[export] Instance bind_ro {T A B} (x : St T A) (k : A -> St T B) :
  ReadOnly x -> (forall a, ReadOnly (k a)) -> ReadOnly (bind x k).
Proof.
  intros Hx Hk d b d' H. apply bind_ok in H as (a & d1 & H1 & H2).
  apply Hx in H1 as ->. apply (Hk a _ _ _ H2).
Qed.
#[export] Instance for_each_ro {T A} (f : A -> St T unit) l : (forall a, ReadOnly (f a)) -> ReadOnly (for_each f l).
Proof. intros Hf. induction l as [|x l IH]; apply _. Qed.

(** Case analysis inside a read-only operation. *)
Ltac solve_ro :=
  repeat match goal with
  | |- ReadOnly (match ?x with _ => _ end) => destruct x
  | |- ReadOnly (let '(_, _) := ?x in _) => destruct x
  | |- ReadOnly (if ?x then _ else _) => destruct x
  | |- ReadOnly (bind _ _) => apply bind_ro; [|intros ?]
  | |- ReadOnly _ => apply _
  end.

Lemma require_ok {T} b c (d : T) u d' : require b c d = Ok (u, d') -> b = true /\ d' = d.
Proof. unfold require. destruct b; [intros [= _ <-]; auto|discriminate]. Qed.
Lemma pg_check_ok {T} b (d : T) u d' : pg_check b d = Ok (u, d') -> b = true /\ d' = d.
Proof. unfold pg_check. destruct b; [intros [= _ <-]; auto|discriminate]. Qed.
Lemma lift_ok {T A} (r : result Failure A) (d : T) a d' : lift r d = Ok (a, d') -> r = Ok a /\ d' = d.
Proof. unfold lift. destruct r; [intros [= <- <-]; auto|discriminate]. Qed.
Lemma lift_throw_ok {T A} (r : result string A) (d : T) a d' : lift_throw r d = Ok (a, d') -> r = Ok a /\ d' = d.
Proof. unfold lift_throw. destruct r; [intros [= <- <-]; auto|discriminate]. Qed.
Lemma modify_ok {T} f (d : T) u d' : modify f d = Ok (u, d') -> d' = f d.
Proof. intros [= _ <-]. reflexivity. Qed.
Lemma read_ok {T A} (f : T -> A) d a d' : read f d = Ok (a, d') -> a = f d /\ d' = d.
Proof. intros [= <- <-]. auto. Qed.
Lemma ret_ok {T A} (a : A) (d : T) b d' : ret a d = Ok (b, d') -> b = a /\ d' = d.
Proof. intros [= <- <-]. auto. Qed.

(** Uses an equation between results. *)
Ltac take_eq E :=
  first
    [ match type of E with ?x = ?x => clear E end
    | match type of E with ?x = _ => is_var x; subst x end
    | match type of E with _ = ?x => is_var x; subst x end
    | match type of E with (_, _) = (_, _) => injection E; clear E; intros; subst end
    | idtac ].

(** Runs a successful transaction backwards into its steps. *)
Ltac run_m :=
  repeat match goal with
  | H : bind _ _ _ = Ok _ |- _ => apply bind_ok in H as (? & ? & ? & ?)
  | H : require _ _ _ = Ok _ |- _ => let F := fresh in apply require_ok in H as [? F]; take_eq F
  | H : pg_check _ _ = Ok _ |- _ => let F := fresh in apply pg_check_ok in H as [? F]; take_eq F
  | H : lift_throw _ _ = Ok _ |- _ => let F := fresh in apply lift_throw_ok in H as [? F]; take_eq F
  | H : lift _ _ = Ok _ |- _ => let F := fresh in apply lift_ok in H as [? F]; take_eq F
  | H : modify _ _ = Ok _ |- _ => apply modify_ok in H; take_eq H
  | H : read _ _ = Ok _ |- _ => let E := fresh in let F := fresh in apply read_ok in H as [E F]; take_eq F; take_eq E
  | H : ret _ _ = Ok _ |- _ => let E := fresh in let F := fresh in apply ret_ok in H as [E F]; take_eq F; take_eq E
  | H : fail _ _ = Ok _ |- _ => discriminate H
  end.

(** What one round of a loop keeps, the loop keeps. *)
Lemma for_each_rel {A} (R : relation Db) `{!PreOrder R} (f : A -> M unit) :
  (forall a d u d', f a d = Ok (u, d') -> R d d') -> forall l d u d', for_each f l d = Ok (u, d') -> R d d'.
Proof.
  intros Hf l. induction l as [|a l IH]; intros d u d' E; cbn in E; run_m; [reflexivity|].
  match goal with G : f a _ = Ok _ |- _ => apply Hf in G end. etransitivity; eauto.
Qed.

(** ** The numeric columns keep money as it is *)

Definition column_bound : Z := 10 ^ 12.

Lemma roundScaled_nonneg u k : 0 <= u -> 0 <= k -> 0 <= roundScaled (mkDecimal false u k) 2.
Proof.
  intros Hu Hk. unfold roundScaled. cbn [scale unscaled neg].
  destruct (Z.leb_spec k 2); [apply Z.mul_nonneg_nonneg; [exact Hu|apply Z.pow_nonneg; lia]|].
  assert (0 < 10 ^ (k - 2)) by (apply Z.pow_pos_nonneg; lia).
  assert (0 <= u / 10 ^ (k - 2)) by (apply Z.div_pos; lia).
  repeat match goal with |- context [if ?b then _ else _] => destruct b end; lia.
Qed.

Lemma pg_numeric_money s t : pg_numeric s = Ok t -> exists c, t = fixed2 c /\ Z.abs c < column_bound.
Proof.
  unfold pg_numeric. destruct (parse_text s) as [d|e] eqn:E; [|discriminate]. apply parse_text_wf in E as [Hu Hk].
  pose proof (roundScaled_nonneg _ _ Hu Hk) as Hm. set (m := roundScaled _ _) in *.
  destruct (Z.ltb_spec m (10 ^ 12)); [|discriminate]. intros [= <-].
  eexists. split; [reflexivity|]. unfold column_bound. destruct (neg d); lia.
Qed.

Lemma pg_numeric_cents c :
  pg_numeric (fixed2 c) = if Z.abs c <? 10 ^ 12 then Ok (fixed2 c) else Err (Thrown "numeric field overflow").
Proof.
  destruct (reads_scan _ _ _ (fixed2_reads c)) as (ip & fp & Hs & Hi & Hf & Hne & Hv).
  unfold pg_numeric, parse_text. rewrite Hs, (parse_groups _ _ _ Hi Hf Hne). cbn [unscaled scale neg].
  set (u := dec_val (ip ++ fp)) in *.
  assert (Hu : 0 <= u) by (apply dec_val_bound; rewrite all_digits_app, Hi, Hf; reflexivity).
  assert (roundScaled (mkDecimal false u (slen fp)) 2 = Z.abs c) as ->.
  { rewrite roundScaled_half_up by (simpl; lia).
    assert (decQ (mkDecimal false u (slen fp)) == inject_Z (Z.abs c) / ten ^ 2)%Q as ->; [|apply minor_of_exact; lia].
    change (inject_Z (Z.abs c) / ten ^ 2)%Q with (centsQ (Z.abs c)).
    change (dec_Q (c <? 0)%Z ip fp 0) with (decQ (mkDecimal (c <? 0) u (slen fp))) in Hv.
    unfold decQ in *. cbn [unscaled scale neg] in *. destruct (Z.ltb_spec c 0).
    - replace (Z.abs c) with (- c) by lia. rewrite centsQ_opp, <- Hv, inject_Z_opp. ring.
    - replace (Z.abs c) with c by lia. exact Hv. }
  destruct (Z.abs c <? 10 ^ 12); [|reflexivity]. do 2 f_equal. destruct (Z.ltb_spec c 0); lia.
Qed.

Lemma pg_numeric_kept c t : pg_numeric (fixed2 c) = Ok t -> t = fixed2 c /\ Z.abs c < column_bound.
Proof.
  rewrite pg_numeric_cents. unfold column_bound. destruct (Z.ltb_spec (Z.abs c) (10 ^ 12)); [|discriminate].
  intros [= <-]. auto.
Qed.

Definition representable (s cur : string) : Prop := isRepresentableInCurrency (Str s) cur = true.

Lemma decQ_abs d m : 0 <= unscaled d -> (decQ d == inject_Z m)%Q -> (decQ (mkDecimal false (unscaled d) (scale d)) == inject_Z (Z.abs m))%Q.
Proof.
  unfold decQ. cbn [neg unscaled scale]. intros Hu Hm. pose proof (ten_pos (- scale d)) as Hp.
  assert (Hu' : (0 <= inject_Z (unscaled d) * ten ^ (- scale d))%Q).
  { apply Qmult_le_0_compat; [change 0%Q with (inject_Z 0); rewrite <- Zle_Qle; exact Hu|lra]. }
  assert (E0 : (0 == inject_Z 0)%Q) by reflexivity.
  destruct (neg d).
  - assert (Hn : (inject_Z (unscaled d) * ten ^ (- scale d) == inject_Z (- m))%Q)
      by (rewrite inject_Z_opp, <- Hm, inject_Z_opp; ring).
    rewrite Hn in Hu' |- *. rewrite E0, <- Zle_Qle in Hu'. rewrite Z.abs_neq by lia. reflexivity.
  - rewrite Hm in Hu' |- *. rewrite E0, <- Zle_Qle in Hu'. rewrite Z.abs_eq by lia. reflexivity.
Qed.

(** The column keeps a representable amount representable. *)
Lemma pg_numeric_representable s t cur : representable s cur -> pg_numeric s = Ok t -> representable t cur.
Proof.
  unfold representable, pg_numeric. intros R. destruct (parse_text s) as [d|] eqn:E; [|discriminate].
  pose proof (parse_text_wf _ _ E) as [Hu Hk]. apply parse_text_amount in E. destruct (proj1 (representable_parses _ _ _ (parsed _ _ E)) R) as [m Hm].
  cbv zeta. destruct (_ <? _); [|discriminate]. intros [= <-].
  apply (representable_parses _ _ _ (parses_fixed2 _)). destruct (minorUnitExponent_cases cur) as [Ec|Ec]; rewrite Ec in Hm |- *; [|eexists; reflexivity].
  assert (roundScaled (mkDecimal false (unscaled d) (scale d)) 2 = Z.abs m * 100) as ->.
  { rewrite roundScaled_half_up by (simpl; lia). rewrite (decQ_abs d m Hu); [|rewrite Hm; change (ten ^ 0)%Q with 1%Q; field].
    assert (inject_Z (Z.abs m) == inject_Z (Z.abs m * 100) / ten ^ 2)%Q as ->; [|apply minor_of_exact; lia].
    change (ten ^ 2)%Q with 100%Q. rewrite inject_Z_mult. change (inject_Z 100) with 100%Q. field. }
  exists (if neg d then - Z.abs m else Z.abs m). change (ten ^ 0)%Q with 1%Q. unfold centsQ.
  assert ((if neg d then - (Z.abs m * 100) else Z.abs m * 100) = (if neg d then - Z.abs m else Z.abs m) * 100) as -> by (destruct (neg d); lia).
  rewrite inject_Z_mult. change (inject_Z 100) with 100%Q. field.
Qed.
