(* ===== verification/InvoiceService.v ===== *)
(** * Draft invoices ([apps/api/src/services/invoiceService.ts], lines 68-665 and 1207-1328)

    Access guards, the draft line writers and their totals, the currency change
    of a draft, and the assembly of drafts from unbilled work. Each operation is
    one transaction over the tables of [BillingDb]; row locks are the sequential
    order of the steps, and notifications are not modelled. *)

From Stdlib Require Import QArith.
From S2P Require Import Prelude JsString JsNumber Currency IsoDate InvoiceMath ContractMath TimeBilling CatalogPricing ContractCoverage BillingDb.
From stdpp Require Import base gmap strings list pretty.

Local Open Scope string_scope.
Local Open Scope Z_scope.
Local Open Scope billing_scope.

(** ** Access *)

Definition requirePartner (actor : InvoiceActor) : M string :=
  match ac_partnerId actor with
  | Some p => if String.eqb p "" then fail PARTNER_UNRESOLVABLE else ret p
  | None => fail PARTNER_UNRESOLVABLE
  end.

Definition requireOrgAccess (actor : InvoiceActor) (orgId : string) : M unit :=
  match ac_accessibleOrgIds actor with
  | Some ids => require (str_mem orgId ids) ORG_DENIED
  | None => ret tt
  end.

Definition requireSiteAccess (actor : InvoiceActor) (siteId : option string) : M unit :=
  match ac_allowedSiteIds actor with
  | None => ret tt
  | Some allowed =>
      match siteId with
      | Some s => require (negb (String.eqb s "") && str_mem s allowed) SITE_DENIED
      | None => fail SITE_DENIED
      end
  end.

Definition requireInvoiceAccess (actor : InvoiceActor) (inv : Invoice) : M unit :=
  do! _ := requireOrgAccess actor (iv_orgId inv) in
  requireSiteAccess actor (iv_siteId inv).

Definition getOwnedInvoiceOr404 (id : string) : M Invoice :=
  do! row := read (fun d => db_invoices d !! id) in
  match row with Some inv => ret inv | None => fail INVOICE_NOT_FOUND end.

Definition is_draft (s : InvoiceStatus) : bool := match s with st_draft => true | _ => false end.

Definition assertDraft (inv : Invoice) : M unit := require (is_draft (iv_status inv)) NOT_A_DRAFT.

Definition lockDraftInvoice (invoiceId : string) : M Invoice :=
  do! inv := getOwnedInvoiceOr404 invoiceId in
  do! _ := assertDraft inv in
  ret inv.

Definition lockContractLineDestinationAndSource (invoiceId contractId : string) (actor : InvoiceActor)
  : M (Invoice * Contract) :=
  do! inv := lockDraftInvoice invoiceId in
  do! _ := requireInvoiceAccess actor inv in
  do! row := read (fun d => db_contracts d !! contractId) in
  match row with
  | None => fail INVALID_STATE
  | Some c =>
      do! _ := require (String.eqb (ct_orgId c) (iv_orgId inv)) INVALID_STATE in
      ret (inv, c)
  end.

(** ** Creation and totals *)

Section Ops.
Context `{Uuids}.

Definition lockOrgStampingDefaults (orgId : string) : M string :=
  do! row := read (fun d => rf_organizations (db_ref d) !! orgId) in
  match row with Some o => ret (org_currencyCode o) | None => fail ORG_NOT_FOUND end.

Definition insert_invoice (inv : Invoice) : M string :=
  do! id := mint in
  do! _ := modify (fun d => set_invoices (<[id := inv]> (db_invoices d)) d) in
  ret id.

(** A fresh draft row with its column defaults. *)
Definition draft_row (partnerId orgId : string) (siteId : option string) (currencyCode : string)
    (createdBy notes termsAndConditions : option string) : Invoice :=
  mkInvoice partnerId orgId siteId currencyCode createdBy st_draft None None None zero_money no_marks no_parties
    notes termsAndConditions None None None None.

Definition truthy (s : option string) : option string :=
  match s with Some x => if String.eqb x "" then None else Some x | None => None end.

Definition createManualInvoice (orgId : string) (siteId notes termsAndConditions currencyCode : option string)
    (actor : InvoiceActor) : M string :=
  do! partnerId := requirePartner actor in
  do! _ := requireOrgAccess actor orgId in
  do! _ := requireSiteAccess actor siteId in
  do! currency := match truthy currencyCode with
                  | Some c => ret c
                  | None => lockOrgStampingDefaults orgId
                  end in
  insert_invoice (draft_row partnerId orgId siteId currency (ac_userId actor) notes termsAndConditions).

Definition effectiveRateForOrg (orgId : string) : M string :=
  do! org := read (fun d => rf_organizations (db_ref d) !! orgId) in
  ret (resolveEffectiveTaxRate (match org with Some o => org_taxExempt o | None => false end)
         (match org with Some o => org_taxRate o | None => None end) None).

Definition update_invoice (id : string) (f : Invoice -> Invoice) : M unit :=
  modify (fun d => set_invoices (alter f id (db_invoices d)) d).

Definition with_money (m : InvoiceMoney) (i : Invoice) : Invoice :=
  mkInvoice (iv_partnerId i) (iv_orgId i) (iv_siteId i) (iv_currencyCode i) (iv_createdBy i) (iv_status i)
    (iv_invoiceNumber i) (iv_issueDate i) (iv_dueDate i) m (iv_marks i) (iv_parties i) (iv_notes i)
    (iv_termsAndConditions i) (iv_replacesInvoiceId i) (iv_replacedByInvoiceId i) (iv_evidenceVersion i) (iv_depositDue i).

Definition totals_row (l : InvoiceLine) : TotalsLine :=
  mkTotalsLine (lv_lineTotal (il_values l)) (lv_taxable (il_values l)) (lv_customerVisible (il_values l)).

Definition lines_of (invoiceId : string) (d : Db) : list InvoiceLine :=
  List.filter (fun l => String.eqb (il_invoiceId l) invoiceId) (db_lines d).

(** The money columns after a total of [t], what was paid unchanged. *)
Definition totals_money (t : InvoiceTotals) (taxRate : option string) (amountPaid : string) : result Failure InvoiceMoney :=
  let balance := fromCents (js_sub (toCents (Some (Str (it_total t)))) (toCents (Some (Str amountPaid)))) in
  let! subtotal := pg_numeric (it_subtotal t) in
  let! taxTotal := pg_numeric (it_taxTotal t) in
  let! total := pg_numeric (it_total t) in
  let! balance := pg_numeric balance in
  Ok (mkMoney subtotal taxRate taxTotal total amountPaid balance).

(** [taxRateOverride] is [None] when it is undefined. *)
Definition recomputeInvoiceTotals (invoiceId : string) (taxRateOverride : option (option string)) : M unit :=
  do! inv := getOwnedInvoiceOr404 invoiceId in
  do! _ := assertDraft inv in
  do! lines := read (fun d => map totals_row (lines_of invoiceId d)) in
  do! taxRate := match taxRateOverride with
                 | Some r => ret r
                 | None => do! r := effectiveRateForOrg (iv_orgId inv) in ret (Some r)
                 end in
  do! totals := lift_throw (computeInvoiceTotals lines taxRate (iv_currencyCode inv)) in
  do! money := lift (totals_money totals taxRate (im_amountPaid (iv_money inv))) in
  update_invoice invoiceId (with_money money).

(** ** Catalog prices *)

Definition getOwnedItemOr404 (id partnerId : string) : M CatalogRow :=
  do! row := read (fun d => rf_catalogItems (db_ref d) !! id) in
  match row with
  | Some r => if String.eqb (cr_partnerId r) partnerId then ret r else fail ITEM_NOT_FOUND
  | None => fail ITEM_NOT_FOUND
  end.

(** The reads of [resolvePrice], before a gap becomes an error. *)
Definition price_or_gap (catalogItemId targetCurrency : string) (orgId : option string) (actor : InvoiceActor)
  : M (CatalogRow * (ResolvedPrice + PriceGap)) :=
  do! partnerId := requirePartner actor in
  do! _ := match truthy orgId with Some o => requireOrgAccess actor o | None => ret tt end in
  do! item := getOwnedItemOr404 catalogItemId partnerId in
  do! override := match truthy orgId with
                  | Some o => read (fun d => rf_orgPricing (db_ref d) !! (catalogItemId, o))
                  | None => ret None
                  end in
  do! book := read (fun d => rf_bookPrices (db_ref d) !! (catalogItemId, targetCurrency)) in
  ret (item, resolvePriceFrom (cr_item item) override book targetCurrency).

Definition resolvePrice (catalogItemId targetCurrency : string) (orgId : option string) (actor : InvoiceActor)
  : M ResolvedPrice :=
  do! r := price_or_gap catalogItemId targetCurrency orgId actor in
  match snd r with
  | inl p => ret p
  | inr NO_PRICE_FOR_CURRENCY => fail NO_PRICE
  | inr (PRICE_NOT_REPRESENTABLE _ _) => fail NOT_REPRESENTABLE
  end.

(** Both typed gaps keep their code when the invoice service rethrows them. *)
Definition resolveInvoicePrice (catalogItemId : string) (currencyCode orgId : string) (actor : InvoiceActor) : M ResolvedPrice :=
  resolvePrice catalogItemId currencyCode (Some orgId) actor.

Definition dquote : string := String (Ascii.ascii_of_N 34) EmptyString.

Definition notRepresentableMessage (source : PriceSource) (unitPrice name target : string) : string :=
  (match source with org_override => "Org override" | price_book => "Price-book" end)
  ++ " price " ++ unitPrice ++ " for " ++ dquote ++ name ++ dquote ++ " is not representable in " ++ target
  ++ " — correct the " ++ target ++ " price before using this item".

Definition component_of (targetCurrency : string) (orgId : option string) (rf : Reference) (b : BundleRow)
  : option (BundleRow * CatalogRow * BundleComponent) :=
  match rf_catalogItems rf !! br_componentItemId b with
  | None => None
  | Some item =>
      let booked := match rf_bookPrices rf !! (br_componentItemId b, targetCurrency) with Some _ => true | None => false end in
      let overridden := match truthy orgId with
                        | Some o => match rf_orgPricing rf !! (br_componentItemId b, o) with
                                    | Some (_, c) => String.eqb c targetCurrency
                                    | None => false
                                    end
                        | None => false
                        end in
      Some (b, item, mkComponent (br_componentItemId b) (br_quantity b) (item_costBasis (cr_item item))
                       (item_costCurrency (cr_item item)) (br_revenueAllocation b) (br_allocationCurrency b)
                       (booked || overridden))
  end.

Definition bundle_rows (bundleId targetCurrency : string) (orgId : option string) (d : Db)
  : list (BundleRow * CatalogRow * BundleComponent) :=
  omap (component_of targetCurrency orgId (db_ref d))
    (List.filter (fun b => String.eqb (br_bundleItemId b) bundleId) (rf_bundleComponents (db_ref d))).

Definition computeBundleEconomics (bundleId targetCurrency : string) (orgId : option string) (actor : InvoiceActor)
  : M BundleEconomics :=
  do! partnerId := requirePartner actor in
  do! _ := match truthy orgId with Some o => requireOrgAccess actor o | None => ret tt end in
  do! bundle := getOwnedItemOr404 bundleId partnerId in
  do! _ := require (cr_isBundle bundle) NOT_A_BUNDLE in
  do! r := price_or_gap bundleId targetCurrency orgId actor in
  let '(headlinePrice, headlineGap, headlineGapMessage) :=
    match snd r with
    | inl p => (Some (rp_unitPrice p), None, None)
    | inr NO_PRICE_FOR_CURRENCY => (None, Some HG_NO_PRICE_FOR_CURRENCY, None)
    | inr (PRICE_NOT_REPRESENTABLE src p) =>
        (None, Some HG_PRICE_NOT_REPRESENTABLE, Some (notRepresentableMessage src p (cr_name (fst r)) targetCurrency))
    end in
  do! comps := read (bundle_rows bundleId targetCurrency orgId) in
  lift_throw (computeBundleEconomicsFrom targetCurrency headlinePrice headlineGap headlineGapMessage (map snd comps)).

(** ** Line writers *)

Definition assertRepresentable (value currencyCode : string) : M unit :=
  require (isRepresentableInCurrency (Str value) currencyCode) NOT_REPRESENTABLE.

Definition assertRepresentable_opt (value : option string) (currencyCode : string) : M unit :=
  match value with Some v => assertRepresentable v currencyCode | None => ret tt end.

(** The values as the numeric(12,2) columns keep them. *)
Definition store_values (v : LineValues) : result Failure LineValues :=
  let! quantity := pg_numeric (lv_quantity v) in
  let! unitPrice := pg_numeric (lv_unitPrice v) in
  let! costBasis := pg_numeric_opt (lv_costBasis v) in
  let! revenueAllocation := pg_numeric_opt (lv_revenueAllocation v) in
  let! lineTotal := pg_numeric (lv_lineTotal v) in
  Ok (mkLine (lv_sourceType v) (lv_sourceId v) (lv_sourceContractId v) (lv_catalogItemId v) (lv_parentLineId v)
        (lv_ticketId v) (lv_name v) (lv_description v) quantity unitPrice costBasis revenueAllocation
        (lv_taxable v) (lv_customerVisible v) lineTotal (lv_isUnapprovedTime v) (lv_workedMinutes v)).

Definition insert_line_with (id invoiceId orgId : string) (sortOrder : Z) (v : LineValues) : M InvoiceLine :=
  do! stored := lift (store_values v) in
  let line := mkInvoiceLine id invoiceId orgId sortOrder stored in
  do! _ := modify (fun d => set_lines (db_lines d ++ [line])%list d) in
  ret line.

Definition insert_line (invoiceId orgId : string) (sortOrder : Z) (v : LineValues) : M InvoiceLine :=
  do! id := mint in insert_line_with id invoiceId orgId sortOrder v.

Definition max_sort (lines : list InvoiceLine) : Z :=
  match lines with
  | [] => 0
  | l :: r => fold_left (fun m x => Z.max m (il_sortOrder x)) r (il_sortOrder l)
  end.

Definition insertLineAndRecompute (invoiceId orgId : string) (spec : LineValues) : M InvoiceLine :=
  do! nextSort := read (fun d => max_sort (lines_of invoiceId d) + 1) in
  do! line := insert_line invoiceId orgId nextSort spec in
  do! _ := recomputeInvoiceTotals invoiceId None in
  ret line.

Record ManualLineInput := mkManual {
  mi_name : option string; mi_description : option string; mi_quantity : num; mi_unitPrice : num;
  mi_taxable : bool; mi_costBasis : option num }.

Definition addManualLine (invoiceId : string) (input : ManualLineInput) (actor : InvoiceActor) : M InvoiceLine :=
  do! inv := lockDraftInvoice invoiceId in
  do! _ := requireInvoiceAccess actor inv in
  let unitPrice := toFixed 2 (mi_unitPrice input) in
  let costBasis := option_map (toFixed 2) (mi_costBasis input) in
  do! _ := assertRepresentable unitPrice (iv_currencyCode inv) in
  do! _ := assertRepresentable_opt costBasis (iv_currencyCode inv) in
  do! lineTotal := lift_throw (InvoiceMath.computeLineTotal (js_String (mi_quantity input)) (js_String (mi_unitPrice input))
                                 (iv_currencyCode inv)) in
  insertLineAndRecompute invoiceId (iv_orgId inv)
    (mkLine src_manual None None None None None (mi_name input) (mi_description input)
       (js_String (mi_quantity input)) unitPrice costBasis None (mi_taxable input) true lineTotal false None).

Definition addCatalogLine (invoiceId catalogItemId : string) (quantity : num) (actor : InvoiceActor) : M InvoiceLine :=
  do! inv := lockDraftInvoice invoiceId in
  do! _ := requireInvoiceAccess actor inv in
  do! resolved := resolveInvoicePrice catalogItemId (iv_currencyCode inv) (iv_orgId inv) actor in
  do! item := read (fun d => rf_catalogItems (db_ref d) !! catalogItemId) in
  do! _ := require (negb (match item with Some r => cr_isBundle r | None => false end)) INVALID_STATE in
  let qty := js_String quantity in
  do! lineTotal := lift_throw (InvoiceMath.computeLineTotal qty (rp_unitPrice resolved) (iv_currencyCode inv)) in
  insertLineAndRecompute invoiceId (iv_orgId inv)
    (mkLine src_catalog None None (Some catalogItemId) None None
       (Some (match item with Some r => cr_name r | None => "Catalog item" end))
       (match item with Some r => cr_description r | None => None end)
       qty (rp_unitPrice resolved) (if rp_marginAvailable resolved then rp_costBasis resolved else None) None
       (rp_taxable resolved) true lineTotal false None).

(** A component's child line: no price of its own, shown as configured. *)
Definition child_line (inv : Invoice) (parent : InvoiceLine) (c : BundleRow * CatalogRow * BundleComponent) : LineValues :=
  let '(b, item, _) := c in
  mkLine src_bundle None None (Some (br_componentItemId b)) (Some (il_id parent)) None (Some (cr_name item)) (cr_description item)
    (br_quantity b) "0.00" (snapshotCost (item_costBasis (cr_item item)) (item_costCurrency (cr_item item)) (iv_currencyCode inv))
    (match br_allocationCurrency b with
     | Some k => if String.eqb k (iv_currencyCode inv) then br_revenueAllocation b else None
     | None => None
     end)
    false (br_showOnInvoice b) "0.00" false None.

Definition addBundleLine (invoiceId bundleId : string) (quantity : num) (actor : InvoiceActor) : M InvoiceLine :=
  do! inv := lockDraftInvoice invoiceId in
  do! _ := requireInvoiceAccess actor inv in
  do! econ := computeBundleEconomics bundleId (iv_currencyCode inv) (Some (iv_orgId inv)) actor in
  match be_headlinePrice econ with
  | None => fail (match be_headlineGap econ with Some HG_PRICE_NOT_REPRESENTABLE => NOT_REPRESENTABLE | _ => NO_PRICE end)
  | Some price =>
      do! _ := require (be_priceBookComplete econ) PRICE_BOOK_INCOMPLETE in
      do! bundle := read (fun d => rf_catalogItems (db_ref d) !! bundleId) in
      let qty := js_String quantity in
      do! lineTotal := lift_throw (InvoiceMath.computeLineTotal qty price (iv_currencyCode inv)) in
      do! parent := insertLineAndRecompute invoiceId (iv_orgId inv)
        (mkLine src_bundle None None (Some bundleId) None None
           (Some (match bundle with Some r => cr_name r | None => "Bundle" end))
           (match bundle with Some r => cr_description r | None => None end)
           qty price (be_totalCost econ) None true true lineTotal false None) in
      do! comps := read (bundle_rows bundleId (iv_currencyCode inv) (Some (iv_orgId inv))) in
      do! _ := for_each (fun c => do! _ := insert_line invoiceId (iv_orgId inv) (il_sortOrder parent) (child_line inv parent c)
                                  in ret tt) comps in
      do! _ := recomputeInvoiceTotals invoiceId None in
      ret parent
  end.

Inductive ContractLinePricedFrom := pf_org_override | pf_price_book | pf_contract_snapshot.

Record ContractLineInput := mkContractInput {
  ci_description : string; ci_quantity : string; ci_unitPrice : string; ci_taxable : bool;
  ci_catalogItemId : option string; ci_sourceId : option string; ci_costBasis : option string; ci_contractId : string }.

(** What a contract line is billed at: price, tax flag, cost and where they come from. *)
Definition contract_line_price (input : ContractLineInput) (inv : Invoice) (actor : InvoiceActor)
  : M (string * bool * option string * ContractLinePricedFrom) :=
  let cur := iv_currencyCode inv in
  match truthy (ci_catalogItemId input) with
  | Some item =>
      do! r := price_or_gap item cur (Some (iv_orgId inv)) actor in
      match snd r with
      | inl p =>
          ret (rp_unitPrice p, rp_taxable p, if rp_marginAvailable p then rp_costBasis p else None,
               match rp_source p with org_override => pf_org_override | price_book => pf_price_book end)
      | inr _ =>
          let unitPrice := toFixed 2 (js_Number (ci_unitPrice input)) in
          do! _ := assertRepresentable unitPrice cur in
          ret (unitPrice, ci_taxable input, None, pf_contract_snapshot)
      end
  | None =>
      let unitPrice := toFixed 2 (js_Number (ci_unitPrice input)) in
      do! _ := assertRepresentable unitPrice cur in
      do! _ := require (negb (js_lt (js_Number (ci_quantity input)) (ofZ 0) || js_lt (js_Number unitPrice) (ofZ 0))) INVALID_AMOUNT in
      let costBasis := option_map (fun c => toFixed 2 (js_Number c)) (ci_costBasis input) in
      do! _ := assertRepresentable_opt costBasis cur in
      ret (unitPrice, ci_taxable input, costBasis, pf_contract_snapshot)
  end.

Definition addContractLine (invoiceId : string) (input : ContractLineInput) (actor : InvoiceActor)
  : M (InvoiceLine * ContractLinePricedFrom) :=
  do! _ := require (negb (String.eqb (ci_contractId input) "")) INVALID_STATE in
  do! r := lockContractLineDestinationAndSource invoiceId (ci_contractId input) actor in
  let '(inv, contract) := r in
  do! _ := require (String.eqb (ct_currencyCode contract) (iv_currencyCode inv)) CURRENCY_MISMATCH in
  do! p := contract_line_price input inv actor in
  let '(unitPrice, taxable, costBasis, pricedFrom) := p in
  do! lineTotal := lift_throw (InvoiceMath.computeLineTotal (ci_quantity input) unitPrice (iv_currencyCode inv)) in
  do! line := insertLineAndRecompute invoiceId (iv_orgId inv)
    (mkLine src_contract (ci_sourceId input) (Some (ci_contractId input)) (ci_catalogItemId input) None None None
       (Some (ci_description input)) (ci_quantity input) unitPrice costBasis None taxable true lineTotal false None) in
  ret (line, pricedFrom).

Record LinePatch := mkPatch {
  lp_name : option (option string); lp_description : option (option string); lp_quantity : option num;
  lp_unitPrice : option num; lp_taxable : option bool; lp_customerVisible : option bool }.

Definition from_option_default {A} (o : option A) (d : A) : A := match o with Some x => x | None => d end.

(** The patched columns of an existing line. *)
Definition patched (patch : LinePatch) (v : LineValues) (quantity unitPrice lineTotal : string) : LineValues :=
  mkLine (lv_sourceType v) (lv_sourceId v) (lv_sourceContractId v) (lv_catalogItemId v) (lv_parentLineId v) (lv_ticketId v)
    (from_option_default (lp_name patch) (lv_name v)) (from_option_default (lp_description patch) (lv_description v))
    quantity unitPrice (lv_costBasis v) (lv_revenueAllocation v)
    (from_option_default (lp_taxable patch) (lv_taxable v))
    (from_option_default (lp_customerVisible patch) (lv_customerVisible v))
    lineTotal (lv_isUnapprovedTime v) (lv_workedMinutes v).

Definition with_values (v : LineValues) (l : InvoiceLine) : InvoiceLine :=
  mkInvoiceLine (il_id l) (il_invoiceId l) (il_orgId l) (il_sortOrder l) v.

Definition update_line (lineId : string) (v : LineValues) : M unit :=
  do! stored := lift (store_values v) in
  modify (fun d => set_lines (map (fun l => if String.eqb (il_id l) lineId then with_values stored l else l) (db_lines d)) d).

Definition updateLine (invoiceId lineId : string) (patch : LinePatch) (actor : InvoiceActor) : M Invoice :=
  do! inv := lockDraftInvoice invoiceId in
  do! _ := requireInvoiceAccess actor inv in
  do! found := read (fun d => List.find (fun l => String.eqb (il_id l) lineId) (lines_of invoiceId d)) in
  match found with
  | None => fail LINE_NOT_FOUND
  | Some existing =>
      let v := il_values existing in
      let quantity := match lp_quantity patch with Some q => js_String q | None => lv_quantity v end in
      let unitPrice := match lp_unitPrice patch with Some p => toFixed 2 p | None => lv_unitPrice v end in
      do! _ := match lp_unitPrice patch with
               | Some _ => assertRepresentable unitPrice (iv_currencyCode inv)
               | None => ret tt
               end in
      do! lineTotal := lift_throw (InvoiceMath.computeLineTotal quantity unitPrice (iv_currencyCode inv)) in
      do! _ := update_line lineId (patched patch v quantity unitPrice lineTotal) in
      do! _ := recomputeInvoiceTotals invoiceId None in
      getOwnedInvoiceOr404 invoiceId
  end.

(** The lines left by a delete; the device evidence of a deleted line goes with
    it. *)
Definition keep_lines (lines : list InvoiceLine) (d : Db) : Db :=
  set_lineDevices
    (List.filter (fun e => existsb (fun l => String.eqb (il_id l) (ld_invoiceLineId e)) lines) (db_lineDevices d))
    (set_lines lines d).

(** Deleting a line deletes the children that point at it; children have none
    of their own. *)
Definition delete_line (invoiceId lineId : string) (lines : list InvoiceLine) : list InvoiceLine :=
  let hit (l : InvoiceLine) := String.eqb (il_id l) lineId && String.eqb (il_invoiceId l) invoiceId in
  if existsb hit lines
  then List.filter (fun l => negb (hit l || opt_eqb (lv_parentLineId (il_values l)) (Some lineId))) lines
  else lines.

Definition removeLine (invoiceId lineId : string) (actor : InvoiceActor) : M Invoice :=
  do! inv := lockDraftInvoice invoiceId in
  do! _ := requireInvoiceAccess actor inv in
  do! _ := modify (fun d => keep_lines (delete_line invoiceId lineId (db_lines d)) d) in
  do! _ := recomputeInvoiceTotals invoiceId None in
  getOwnedInvoiceOr404 invoiceId.

(** The replacement links of an invoice. *)
Definition relink (replaces replacedBy : option string) (i : Invoice) : Invoice :=
  mkInvoice (iv_partnerId i) (iv_orgId i) (iv_siteId i) (iv_currencyCode i) (iv_createdBy i) (iv_status i)
    (iv_invoiceNumber i) (iv_issueDate i) (iv_dueDate i) (iv_money i) (iv_marks i) (iv_parties i) (iv_notes i)
    (iv_termsAndConditions i) replaces replacedBy (iv_evidenceVersion i) (iv_depositDue i).

Definition forget (invoiceId : string) (x : option string) : option string :=
  if opt_eqb x (Some invoiceId) then None else x.

(** The row goes with its lines, device evidence, payments and provider
    sessions; the contract ledger, its outcomes and the invoices it replaced
    keep their rows with the reference cleared. *)
Definition delete_invoice (invoiceId : string) (d : Db) : Db :=
  let forget_period (p : BillingPeriod) :=
    mkPeriod (bp_id p) (bp_contractId p) (bp_orgId p) (bp_periodStart p) (bp_periodEnd p) (forget invoiceId (bp_invoiceId p)) in
  let forget_outcome (o : PeriodOutcome) :=
    mkOutcome (oc_contractBillingPeriodId o) (oc_orgId o) (oc_contractId o) (forget invoiceId (oc_invoiceId o))
      (oc_snapshotDeviceTotal o) (oc_uncoveredTotal o) (oc_uncoveredByRole o) (oc_flaggedTotal o) (oc_billedOverageTotal o)
      (oc_overages o) in
  let unlink (i : Invoice) := relink (forget invoiceId (iv_replacesInvoiceId i)) (forget invoiceId (iv_replacedByInvoiceId i)) i in
  set_invoices (unlink <$> delete invoiceId (db_invoices d))
    (set_lines (List.filter (fun l => negb (String.eqb (il_invoiceId l) invoiceId)) (db_lines d))
      (set_lineDevices (List.filter (fun l => negb (String.eqb (ld_invoiceId l) invoiceId)) (db_lineDevices d))
        (set_payments (List.filter (fun p => negb (String.eqb (py_invoiceId p) invoiceId)) (db_payments d))
          (set_periods (map forget_period (db_periods d))
            (set_outcomes (map forget_outcome (db_outcomes d))
              (set_stripe (List.filter (fun r => negb (String.eqb (sr_invoiceId r) invoiceId)) (db_stripe d)) d)))))).

Definition deleteDraftInvoice (invoiceId : string) (actor : InvoiceActor) : M unit :=
  do! inv := lockDraftInvoice invoiceId in
  do! _ := requireInvoiceAccess actor inv in
  modify (delete_invoice invoiceId).

Record InvoicePatch := mkInvoicePatch {
  ip_notes : option string; ip_siteId : option (option string); ip_dueDate : option string;
  ip_termsAndConditions : option (option string) }.

Definition patch_header (p : InvoicePatch) (i : Invoice) : Invoice :=
  mkInvoice (iv_partnerId i) (iv_orgId i) (from_option_default (ip_siteId p) (iv_siteId i)) (iv_currencyCode i) (iv_createdBy i)
    (iv_status i) (iv_invoiceNumber i) (iv_issueDate i)
    (match ip_dueDate p with Some x => Some x | None => iv_dueDate i end)
    (iv_money i) (iv_marks i) (iv_parties i)
    (match ip_notes p with Some x => Some x | None => iv_notes i end)
    (from_option_default (ip_termsAndConditions p) (iv_termsAndConditions i))
    (iv_replacesInvoiceId i) (iv_replacedByInvoiceId i) (iv_evidenceVersion i) (iv_depositDue i).

Definition updateInvoice (invoiceId : string) (patch : InvoicePatch) (actor : InvoiceActor) : M Invoice :=
  do! inv := lockDraftInvoice invoiceId in
  do! _ := requireInvoiceAccess actor inv in
  do! _ := match ip_siteId patch with Some s => requireSiteAccess actor s | None => ret tt end in
  do! _ := update_invoice invoiceId (patch_header patch) in
  getOwnedInvoiceOr404 invoiceId.

(** ** Changing a draft's currency *)

Definition with_currency (currencyCode : string) (m : InvoiceMoney) (i : Invoice) : Invoice :=
  mkInvoice (iv_partnerId i) (iv_orgId i) (iv_siteId i) currencyCode (iv_createdBy i) (iv_status i)
    (iv_invoiceNumber i) (iv_issueDate i) (iv_dueDate i) m (iv_marks i) (iv_parties i) (iv_notes i)
    (iv_termsAndConditions i) (iv_replacesInvoiceId i) (iv_replacedByInvoiceId i) (iv_evidenceVersion i) (iv_depositDue i).

Definition repriceable (l : InvoiceLine) : bool :=
  let v := il_values l in
  match lv_sourceType v, lv_catalogItemId v, lv_parentLineId v with
  | src_catalog, Some _, None => true
  | _, _, _ => false
  end.

Definition reprice_line (currencyCode orgId : string) (actor : InvoiceActor) (l : InvoiceLine) : M unit :=
  let v := il_values l in
  match lv_catalogItemId v with
  | None => ret tt
  | Some item =>
      do! resolved := resolveInvoicePrice item currencyCode orgId actor in
      do! lineTotal := lift_throw (InvoiceMath.computeLineTotal (lv_quantity v) (rp_unitPrice resolved) currencyCode) in
      update_line (il_id l)
        (mkLine (lv_sourceType v) (lv_sourceId v) (lv_sourceContractId v) (lv_catalogItemId v) (lv_parentLineId v) (lv_ticketId v)
           (lv_name v) (lv_description v) (lv_quantity v) (rp_unitPrice resolved)
           (if rp_marginAvailable resolved then rp_costBasis resolved else None)
           (lv_revenueAllocation v) (lv_taxable v) (lv_customerVisible v) lineTotal (lv_isUnapprovedTime v) (lv_workedMinutes v))
  end.

Definition changeInvoiceCurrency (invoiceId currencyCode : string) (clearLines reprice : bool) (actor : InvoiceActor) : M Invoice :=
  do! inv := lockDraftInvoice invoiceId in
  do! _ := requireInvoiceAccess actor inv in
  if String.eqb (iv_currencyCode inv) currencyCode then ret inv
  else
    do! lineRows := read (lines_of invoiceId) in
    if negb (match lineRows with [] => true | _ => false end) && reprice then
      do! _ := require (forallb repriceable lineRows) CURRENCY_LOCKED in
      do! _ := for_each (reprice_line currencyCode (iv_orgId inv) actor) lineRows in
      do! _ := update_invoice invoiceId (fun i => with_currency currencyCode (iv_money i) i) in
      do! _ := recomputeInvoiceTotals invoiceId None in
      getOwnedInvoiceOr404 invoiceId
    else
      do! _ := match lineRows with
               | [] => ret tt
               | _ =>
                   do! _ := require clearLines CURRENCY_LOCKED in
                   modify (fun d => keep_lines (List.filter (fun l => negb (String.eqb (il_invoiceId l) invoiceId)) (db_lines d)) d)
               end in
      do! totals := lift_throw (computeInvoiceTotals [] (im_taxRate (iv_money inv)) currencyCode) in
      do! money := lift (totals_money totals (im_taxRate (iv_money inv)) (im_amountPaid (iv_money inv))) in
      do! _ := update_invoice invoiceId (with_currency currencyCode money) in
      getOwnedInvoiceOr404 invoiceId.

(** ** Assembly *)

Definition spec_values (s : DraftLineSpec) : LineValues :=
  mkLine (ds_sourceType s) (ds_sourceId s) None (ds_catalogItemId s) None (ds_ticketId s) None (Some (ds_description s))
    (ds_quantity s) (ds_unitPrice s) (ds_costBasis s) None (ds_taxable s) (ds_customerVisible s) (ds_lineTotal s)
    (ds_isUnapprovedTime s) (ds_workedMinutes s).

Fixpoint materialize_from (sort : Z) (invoiceId orgId : string) (specs : list DraftLineSpec) : M unit :=
  match specs with
  | [] => ret tt
  | s :: rest =>
      do! _ := insert_line invoiceId orgId sort (spec_values s) in
      materialize_from (sort + 1) invoiceId orgId rest
  end.

Definition materializeLines (invoiceId orgId : string) (specs : list DraftLineSpec) : M unit :=
  materialize_from 0 invoiceId orgId specs.

Record BlockedCurrencySummary := mkBlocked { bs_currencyCode : string; bs_count : Z; bs_amount : string }.

Definition summarizeBlocked (blocked : list (string * list DraftLineSpec)) : result string (list BlockedCurrencySummary) :=
  rmap (fun e : string * list DraftLineSpec =>
    let! amount := roundToCurrency
      (Num (fold_left (fun sum sp => js_add sum (js_Number (ds_lineTotal sp))) (snd e) (ofZ 0)))
      (if String.eqb (fst e) "UNKNOWN" then "USD" else fst e) in
    Ok (mkBlocked (fst e) (Z.of_nat (List.length (snd e))) amount)) blocked.

Record MissingRateEntry := mkMissingRate { me_timeEntryId : string; me_ticketId : option string; me_description : string; me_hours : string }.

Definition summarizeMissingRate (missing : list MissingRateSpec) : list MissingRateEntry :=
  map (fun m => mkMissingRate (mr_sourceId m) (mr_ticketId m) (mr_description m) (mr_quantity m)) missing.

(** The draft deleted on an empty gather goes with the failed request, so the
    refusals below leave nothing behind. *)
Definition finishAssembly (invoiceId orgId : string) (gathered : AssemblyResult)
  : M (list BlockedCurrencySummary * list MissingRateEntry) :=
  do! blocked := lift_throw (summarizeBlocked (blockedByCurrency gathered)) in
  let missing := summarizeMissingRate (missingRate gathered) in
  match included gathered with
  | [] =>
      do! _ := modify (delete_invoice invoiceId) in
      match blocked, missing with
      | _ :: _, _ => fail ALL_BLOCKED_BY_CURRENCY
      | [], _ :: _ => fail ALL_MISSING_RATE
      | [], [] => fail NOTHING_TO_INVOICE
      end
  | _ =>
      do! _ := materializeLines invoiceId orgId (included gathered) in
      do! _ := recomputeInvoiceTotals invoiceId None in
      ret (blocked, missing)
  end.

(** [from] and [to] are the bounds in milliseconds of the requested days. *)
Definition assembleDraftFromOrg (orgId : string) (siteId : option string) (from to : Z) (currencyCode : option string)
    (actor : InvoiceActor) : M (string * (list BlockedCurrencySummary * list MissingRateEntry)) :=
  do! partnerId := requirePartner actor in
  do! _ := requireOrgAccess actor orgId in
  do! _ := requireSiteAccess actor siteId in
  do! org := lockOrgStampingDefaults orgId in
  let currency := from_option_default currencyCode org in
  do! id := insert_invoice (draft_row partnerId orgId siteId currency (ac_userId actor) None None) in
  do! entries := read db_entries in
  do! parts := read db_parts in
  do! a := lift_throw (gatherOrgTimeEntries entries orgId from to currency) in
  do! b := lift_throw (gatherOrgParts parts orgId from to currency) in
  do! r := finishAssembly id orgId (mergeAssembly [a; b]) in
  ret (id, r).

Definition assembleDraftFromTicket (ticketId : string) (currencyCode : option string) (actor : InvoiceActor)
  : M (string * (list BlockedCurrencySummary * list MissingRateEntry)) :=
  do! partnerId := requirePartner actor in
  do! tk := read (fun d => rf_tickets (db_ref d) !! ticketId) in
  match tk with
  | None => fail INVOICE_NOT_FOUND
  | Some orgId =>
      do! _ := requireOrgAccess actor orgId in
      do! _ := requireSiteAccess actor None in
      do! org := lockOrgStampingDefaults orgId in
      let currency := from_option_default currencyCode org in
      do! id := insert_invoice (draft_row partnerId orgId None currency (ac_userId actor) None None) in
      do! entries := read db_entries in
      do! parts := read db_parts in
      do! gathered := lift_throw (gatherTicketBillables entries parts ticketId currency) in
      do! r := finishAssembly id orgId gathered in
      ret (id, r)
  end.
End Ops.
