(* ===== verification/StripeSessions.v ===== *)
(** * Revocation of checkout sessions ([apps/api/src/services/stripeSessionRevocation.ts])

    The durable intent to close the open checkout sessions of an invoice, the
    provider's answers, and the gate that refuses a transition while a session
    may still be paid. What the provider answers for a session is an argument. *)

From S2P Require Import Prelude JsString JsNumber Currency ContractMath ContractCoverage BillingDb InvoiceService.
From stdpp Require Import base gmap strings list.

Local Open Scope string_scope.
Local Open Scope Z_scope.
Local Open Scope billing_scope.

Definition is_linked (r : StripeRow) : bool := match sr_invoicePaymentId r with Some _ => true | None => false end.

(** A checkout session of the invoice whose row is pending and unlinked, as the
    queries select it: a row that a declined attempt marked failed is not one, even
    though the customer can still pay in that session. *)
Definition pending_session (invoiceId : string) (r : StripeRow) : bool :=
  String.eqb (sr_invoiceId r) invoiceId && bool_decide (sr_stripeObjectType r = ot_checkout_session) &&
  bool_decide (sr_status r = sp_pending) && negb (is_linked r).

Definition OPEN_REVOCATION_STATES (s : RevocationState) : bool :=
  match s with rs_active | rs_requested | rs_legacy_unbounded => true | _ => false end.

Definition open_session (invoiceId : string) (r : StripeRow) : bool :=
  pending_session invoiceId r && OPEN_REVOCATION_STATES (rk_state (sr_revocation r)).

Definition with_revocation (k : Revocation) (r : StripeRow) : StripeRow :=
  mkStripe (sr_id r) (sr_orgId r) (sr_invoiceId r) (sr_invoicePaymentId r) (sr_stripeAccountId r) (sr_stripeObjectType r)
    (sr_stripeObjectId r) (sr_stripePaymentIntentId r) (sr_amount r) (sr_currency r) (sr_status r) (sr_reversal r)
    (sr_paymentReceivedAt r) (sr_createdAt r) k.

(** The rows that satisfy [p], rewritten by [f]. *)
Definition update_stripe (p : StripeRow -> bool) (f : StripeRow -> StripeRow) : M unit :=
  modify (fun d => set_stripe (map (fun r => if p r then f r else r) (db_stripe d)) d).

(** The first request keeps the clock. *)
Definition requested (now : Z) (reason : string) (r : StripeRow) : StripeRow :=
  let k := sr_revocation r in
  with_revocation (mkRevocation rs_requested (Some reason)
    (Some (match rk_requestedAt k with Some t => t | None => now end)) (rk_attempts k) (Some now)) r.

Definition actorMayTouchInvoice (actor : InvoiceActor) (inv : Invoice) : bool :=
  match ac_accessibleOrgIds actor with None => true | Some orgs => str_mem (iv_orgId inv) orgs end &&
  match ac_allowedSiteIds actor with
  | None => true
  | Some sites => match truthy (iv_siteId inv) with Some s => str_mem s sites | None => false end
  end.

Definition recordRevocationIntent (now : Z) (invoiceId reason : string) (actor : option InvoiceActor) : M (list StripeRow) :=
  do! row := read (fun d => db_invoices d !! invoiceId) in
  match row with
  | None => ret []
  | Some inv =>
      if negb (match actor with Some a => actorMayTouchInvoice a inv | None => true end) then ret []
      else
        do! rows := read (fun d => List.filter (open_session invoiceId) (db_stripe d)) in
        do! _ := update_stripe (open_session invoiceId) (requested now reason) in
        ret (map (requested now reason) rows)
  end.

(** What the provider said about one session. *)
Inductive ProviderOutcome :=
| po_revoked | po_charged | po_blocked (credentialUnavailable : bool) | po_retryable.

(** The retry ladder: thirty seconds, doubled, capped at an hour, for two days. *)
Definition RETRY_BASE_MS : Z := 30000.
Definition RETRY_CAP_MS : Z := 60 * 60 * 1000.
Definition RETRY_GIVE_UP_MS : Z := 48 * 60 * 60 * 1000.

(** The stored revocation after an outcome for a row as it was read. *)
Definition settled_revocation (now : Z) (row : StripeRow) (outcome : ProviderOutcome) (k : Revocation) : Revocation :=
  match outcome with
  | po_revoked => mkRevocation rs_revoked (rk_reason k) (rk_requestedAt k) (rk_attempts k) None
  | po_charged => mkRevocation rs_charged_repair (rk_reason k) (rk_requestedAt k) (rk_attempts k) None
  | po_blocked unavailable =>
      mkRevocation rs_blocked (if unavailable then Some "credential_unavailable" else rk_reason k) (rk_requestedAt k)
        (rk_attempts (sr_revocation row) + 1) None
  | po_retryable =>
      let attempts := rk_attempts (sr_revocation row) + 1 in
      let delayMs := Z.min RETRY_CAP_MS (RETRY_BASE_MS * 2 ^ Z.min (attempts - 1) 10) in
      let requestedAt := match rk_requestedAt (sr_revocation row) with Some t => t | None => now end in
      let exhausted := RETRY_GIVE_UP_MS <=? now - requestedAt in
      mkRevocation (if exhausted then rs_blocked else rs_requested) (rk_reason k) (rk_requestedAt k) attempts
        (if exhausted then None else Some (now + delayMs))
  end.

Definition applyProviderOutcome (now : Z) (row : StripeRow) (outcome : ProviderOutcome) : M unit :=
  update_stripe (fun r => String.eqb (sr_id r) (sr_id row))
    (fun r => with_revocation (settled_revocation now row outcome (sr_revocation r)) r).

(** A row the time budget did not reach has no answer. *)
Definition runProviderPhase (now : Z) (answer : StripeRow -> option ProviderOutcome) (rows : list StripeRow) : M unit :=
  for_each (fun row => match answer row with
                       | None => ret tt
                       | Some outcome => applyProviderOutcome now row outcome
                       end) rows.

Definition requestInvoiceSessionRevocation (now : Z) (answer : StripeRow -> option ProviderOutcome)
    (invoiceId reason : string) (actor : option InvoiceActor) : M unit :=
  do! rows := recordRevocationIntent now invoiceId reason actor in
  runProviderPhase now answer rows.

Definition ABANDONED_REASON_PREFIX : string := "operator_abandoned".

Definition isOperatorAbandoned (k : Revocation) : bool :=
  bool_decide (rk_state k = rs_blocked) &&
  String.prefix ABANDONED_REASON_PREFIX (match rk_reason k with Some s => s | None => "" end).

Definition blocking_session (invoiceId : string) (r : StripeRow) : bool :=
  pending_session invoiceId r && negb (bool_decide (rk_state (sr_revocation r) = rs_revoked)) &&
  negb (isOperatorAbandoned (sr_revocation r)).

Definition assertInvoiceSessionsRevoked (invoiceId : string) : M unit :=
  do! blocking := read (fun d => existsb (blocking_session invoiceId) (db_stripe d)) in
  do! observe := read (fun d => rf_revocationObserveOnly (db_ref d)) in
  require (negb blocking || observe) STRIPE_REVOCATION_PENDING.

(** ** The other writers of the revocation columns *)

Definition assertNoPendingRevocation (invoiceId : string) : M unit :=
  do! pending := read (fun d => existsb (fun r => String.eqb (sr_invoiceId r) invoiceId &&
      bool_decide (sr_stripeObjectType r = ot_checkout_session) && bool_decide (rk_state (sr_revocation r) = rs_requested)) (db_stripe d)) in
  do! observe := read (fun d => rf_revocationObserveOnly (db_ref d)) in
  require (negb pending || observe) STRIPE_REVOCATION_PENDING.

(** Every state but revoked. *)
Definition may_abandon (s : RevocationState) : bool :=
  match s with rs_active | rs_requested | rs_blocked | rs_charged_repair | rs_legacy_unbounded => true | rs_revoked => false end.

Definition abandonInvoiceSessionRevocation (invoiceId reason : string) : M nat :=
  let p r := pending_session invoiceId r && may_abandon (rk_state (sr_revocation r)) in
  do! rows := read (fun d => List.filter p (db_stripe d)) in
  do! _ := update_stripe p (fun r => let k := sr_revocation r in
             with_revocation (mkRevocation rs_blocked (Some (substring 0 2000 (ABANDONED_REASON_PREFIX ++ ": " ++ reason)))
               (rk_requestedAt k) (rk_attempts k) None) r) in
  match rows with
  | [] => do! _ := getOwnedInvoiceOr404 invoiceId in ret 0%nat
  | _ => ret (List.length rows)
  end.

Definition markSessionChargedRepair (stripeObjectId : string) : M unit :=
  update_stripe (fun r => String.eqb (sr_stripeObjectId r) stripeObjectId &&
      match rk_state (sr_revocation r) with rs_requested | rs_revoked | rs_blocked => true | _ => false end)
    (fun r => let k := sr_revocation r in
      with_revocation (mkRevocation rs_charged_repair (rk_reason k) (rk_requestedAt k) (rk_attempts k) None) r).

(** The other open sessions of an invoice one of whose sessions was paid. *)
Definition markSiblingRevocationIntentInTx (now : Z) (invoiceId settledStripeObjectId : string) : M unit :=
  update_stripe (fun r => open_session invoiceId r && negb (String.eqb (sr_stripeObjectId r) settledStripeObjectId))
    (requested now "sibling_settled").

Definition markSessionRevocationRequestedInTx (now : Z) (stripeObjectId reason : string) : M unit :=
  update_stripe (fun r => String.eqb (sr_stripeObjectId r) stripeObjectId && OPEN_REVOCATION_STATES (rk_state (sr_revocation r)))
    (requested now reason).

Definition account_session (stripeAccountId : string) (r : StripeRow) : bool :=
  String.eqb (sr_stripeAccountId r) stripeAccountId && pending_session (sr_invoiceId r) r.

Definition open_account_session (stripeAccountId : string) (r : StripeRow) : bool :=
  account_session stripeAccountId r && OPEN_REVOCATION_STATES (rk_state (sr_revocation r)).

Definition listInvoicesWithOpenSessionsForAccount (stripeAccountId : string) (d : Db) : list string :=
  remove_dups (map sr_invoiceId (List.filter (open_account_session stripeAccountId) (db_stripe d))).

Definition countUnresolvedSessionsForAccount (stripeAccountId : string) (d : Db) : nat :=
  List.length (List.filter (open_account_session stripeAccountId) (db_stripe d)).

(** Each invoice has its own intent and provider phase. *)
Definition revokeOpenSessionsForAccount (now : Z) (answer : StripeRow -> option ProviderOutcome) (stripeAccountId reason : string) : Run unit :=
  run! invoiceIds := tx (read (listInvoicesWithOpenSessionsForAccount stripeAccountId)) in
  run_each (fun invoiceId =>
    run! rows := tx (recordRevocationIntent now invoiceId reason None) in
    tx (runProviderPhase now answer (List.filter (fun r => String.eqb (sr_stripeAccountId r) stripeAccountId) rows))) invoiceIds.

Definition markRevocationIntentForAccountInTx (now : Z) (stripeAccountId reason : string) : M unit :=
  update_stripe (open_account_session stripeAccountId) (requested now reason).

(** [LIKE 'operator_abandoned%'], whose underscore matches any character. *)
Fixpoint like_prefix (pattern s : string) : bool :=
  match pattern, s with
  | EmptyString, _ => true
  | String p ps, String c cs => (Ascii.eqb p "_"%char || Ascii.eqb p c) && like_prefix ps cs
  | String _ _, EmptyString => false
  end.

Definition rearmBlockedRevocationsForAccount (now : Z) (stripeAccountId : string) : M unit :=
  update_stripe (fun r => account_session stripeAccountId r && bool_decide (rk_state (sr_revocation r) = rs_blocked) &&
      negb (like_prefix ABANDONED_REASON_PREFIX (match rk_reason (sr_revocation r) with Some s => s | None => "" end)))
    (fun r => with_revocation (mkRevocation rs_requested (rk_reason (sr_revocation r)) (Some now) 0 (Some now)) r).

Record PartnerRevocationHealth := mkHealth { hl_blocked : nat; hl_credentialUnavailable : nat; hl_chargedRepair : nat; hl_pending : nat }.

Definition health_row (h : PartnerRevocationHealth) (r : StripeRow) : PartnerRevocationHealth :=
  let k := sr_revocation r in
  match rk_state k with
  | rs_charged_repair => mkHealth (hl_blocked h) (hl_credentialUnavailable h) (S (hl_chargedRepair h)) (hl_pending h)
  | rs_requested => mkHealth (hl_blocked h) (hl_credentialUnavailable h) (hl_chargedRepair h) (S (hl_pending h))
  | rs_blocked =>
      if isOperatorAbandoned k then h
      else mkHealth (S (hl_blocked h))
             (if opt_eqb (rk_reason k) (Some "credential_unavailable") then S (hl_credentialUnavailable h) else hl_credentialUnavailable h)
             (hl_chargedRepair h) (hl_pending h)
  | _ => h
  end.

Definition getPartnerRevocationHealth (partnerId : string) (d : Db) : PartnerRevocationHealth :=
  fold_left health_row
    (List.filter (fun r => bool_decide (sr_stripeObjectType r = ot_checkout_session) &&
                           match db_invoices d !! sr_invoiceId r with Some i => String.eqb (iv_partnerId i) partnerId | None => false end) (db_stripe d))
    (mkHealth 0 0 0 0).

(** ** The revocation sweep ([apps/api/src/jobs/stripeSessionRevocationSweep.ts]) *)

Definition MAX_PER_RUN : nat := 200.
Definition MAX_PER_PARTNER_PER_RUN : nat := 25.

(** A stable sort by [le]. *)
Fixpoint insert_by {A} (le : A -> A -> bool) (x : A) (l : list A) : list A :=
  match l with [] => [x] | y :: rest => if le x y then x :: l else y :: insert_by le x rest end.
Definition sort_by {A} (le : A -> A -> bool) (l : list A) : list A := fold_right (insert_by le) [] l.

(** The first [cap] rows of each partner. *)
Fixpoint per_partner {A} (partner : A -> string) (cap : nat) (seen : list string) (l : list A) : list A :=
  match l with
  | [] => []
  | x :: rest =>
      if (List.length (List.filter (String.eqb (partner x)) seen) <? cap)%nat
      then x :: per_partner partner cap (partner x :: seen) rest
      else per_partner partner cap seen rest
  end.

Definition due_key (r : StripeRow) : Z := match rk_nextAttemptAt (sr_revocation r) with Some t => t | None => 0 end.

Definition selectDueRevocations (now : Z) (d : Db) : list StripeRow :=
  let due r := bool_decide (rk_state (sr_revocation r) = rs_requested) &&
               match rk_nextAttemptAt (sr_revocation r) with Some t => t <=? now | None => false end &&
               match db_invoices d !! sr_invoiceId r with Some _ => true | None => false end in
  let le a b := (due_key a <? due_key b) || ((due_key a =? due_key b) && negb (str_ltb (sr_id b) (sr_id a))) in
  let partner r := match db_invoices d !! sr_invoiceId r with Some i => iv_partnerId i | None => "" end in
  firstn MAX_PER_RUN (per_partner partner MAX_PER_PARTNER_PER_RUN [] (sort_by le (List.filter due (db_stripe d)))).

(** The provider answers every row the pass selected. *)
Definition runStripeSessionRevocationSweep (now : Z) (answer : StripeRow -> ProviderOutcome) : M unit :=
  do! rows := read (selectDueRevocations now) in
  runProviderPhase now (fun r => Some (answer r)) rows.
