(* ===== verification/StripeReversal.v ===== *)
(** * Refunds and disputes ([apps/api/src/services/stripeReversalState.ts])

    The arithmetic of reversals: which dispute event is newer, what a provider
    event makes of the stored reversal, how much of a charge is left and the
    retry ladder of an event that cannot be applied yet.  Events of one
    charge applied one after another leave a state that only depends on which they
    were ([delivered_same]). *)

From S2P Require Import Prelude JsString JsNumber Currency ContractCoverage BillingDb.
From stdpp Require Import base strings list.

Local Open Scope string_scope.
Local Open Scope Z_scope.
Local Open Scope billing_scope.

(** ** One event *)

Definition disputeEventIsNewer (mapping : Reversal) (event : FinancialFacts) : bool :=
  match ff_disputeFundsWithdrawn event with
  | None => false
  | Some withdrawn =>
      match rv_lastDisputeEventCreated mapping with
      | None => true
      | Some created =>
          if negb (ff_providerCreated event =? created) then created <? ff_providerCreated event
          else if opt_eqb (Some (ff_stripeEventId event)) (rv_lastDisputeEventId mapping) then false
          else negb withdrawn && rv_disputeFundsWithdrawn mapping
      end
  end.

Definition isSafeInteger (n : Z) : bool := Z.abs n <=? 2 ^ 53 - 1.

Definition in_bounds (originalMinor n : Z) : bool := isSafeInteger n && (0 <=? n) && (n <=? originalMinor).

(** The reversal after an event, or why the event is blocked. *)
Definition observe (originalMinor : Z) (mapping : Reversal) (event : FinancialFacts) : result string Reversal :=
  let priorRefunded := rv_refundedAmountMinor mapping in
  let observedRefunded := match ff_refundedAmountMinor event with None => priorRefunded | Some n => n end in
  if negb (in_bounds originalMinor observedRefunded) then Err "refund_amount_out_of_bounds"
  else
    let refunded := Z.max priorRefunded observedRefunded in
    if disputeEventIsNewer mapping event then
      let observedDispute := match ff_disputeAmountMinor event with None => 0 | Some n => n end in
      if negb (in_bounds originalMinor observedDispute) then Err "dispute_amount_out_of_bounds"
      else Ok (mkReversal refunded observedDispute (match ff_disputeFundsWithdrawn event with Some w => w | None => false end)
                 (Some (ff_providerCreated event)) (Some (ff_stripeEventId event)))
    else Ok (mkReversal refunded (rv_disputeAmountMinor mapping) (rv_disputeFundsWithdrawn mapping)
               (rv_lastDisputeEventCreated mapping) (rv_lastDisputeEventId mapping)).

Definition targetMinor (originalMinor : Z) (m : Reversal) : Z :=
  Z.max 0 (originalMinor - rv_refundedAmountMinor m - (if rv_disputeFundsWithdrawn m then rv_disputeAmountMinor m else 0)).

Definition nextStatus (originalMinor : Z) (m : Reversal) : StripeStatus :=
  if originalMinor <=? rv_refundedAmountMinor m then sp_refunded
  else if rv_disputeFundsWithdrawn m then (if targetMinor originalMinor m =? 0 then sp_disputed else sp_partially_disputed)
  else if 0 <? rv_refundedAmountMinor m then sp_partially_refunded
  else sp_succeeded.

(** ** The retry ladder *)

Definition MAX_PENDING_ATTEMPTS : Z := 50.

Definition pendingRetryUpdate (now : Z) (event : FinancialEvent) (reason : string) : FinancialEvent :=
  let attemptCount := fe_attemptCount event + 1 in
  let exhausted := MAX_PENDING_ATTEMPTS <=? attemptCount in
  let delayMinutes := Z.min 360 (5 * 2 ^ Z.min (attemptCount - 1) 6) in
  mkFinancialEvent (fe_facts event) (fe_stripeConnectionId event) (if exhausted then fs_blocked else fs_pending) attemptCount
    (Some (if exhausted then reason ++ "_retry_exhausted" else reason))
    (if exhausted then None else Some (now + delayMinutes * 60000)).

(** An event that leaves the retry loop. *)
Definition settledEvent (status : FinancialEventStatus) (lastError : option string) (event : FinancialEvent) : FinancialEvent :=
  mkFinancialEvent (fe_facts event) (fe_stripeConnectionId event) status (fe_attemptCount event + 1) lastError None.

(** ** Bounds of one event *)

Definition reversal_ok (originalMinor : Z) (m : Reversal) : Prop :=
  0 <= rv_refundedAmountMinor m <= originalMinor /\ 0 <= rv_disputeAmountMinor m <= originalMinor /\
  (rv_lastDisputeEventCreated m = None -> rv_disputeFundsWithdrawn m = false).

Lemma in_bounds_true o n : in_bounds o n = true -> 0 <= n <= o.
Proof. unfold in_bounds. rewrite !andb_true_iff, !Z.leb_le. lia. Qed.

Lemma observe_ok o m e m' :
  reversal_ok o m -> observe o m e = Ok m' ->
  reversal_ok o m' /\ rv_refundedAmountMinor m <= rv_refundedAmountMinor m' /\
  (rv_lastDisputeEventCreated m' = None ->
     rv_lastDisputeEventCreated m = None /\ rv_disputeFundsWithdrawn m' = rv_disputeFundsWithdrawn m /\ rv_disputeAmountMinor m' = rv_disputeAmountMinor m).
Proof.
  intros (R & D & N) E. unfold observe in E.
  destruct (in_bounds o _) eqn:Hr; [|discriminate E]. apply in_bounds_true in Hr. cbn [negb] in E.
  destruct (disputeEventIsNewer m e) eqn:Hn.
  - destruct (in_bounds o (match ff_disputeAmountMinor e with None => 0 | Some n => n end)) eqn:Hd; [|discriminate E].
    apply in_bounds_true in Hd. injection E as <-. cbn. split; [split; cbn; [lia|split; [lia|discriminate]]|]. split; [lia|discriminate].
  - injection E as <-. cbn. split; [split; cbn; [lia|split; assumption]|]. split; [lia|auto].
Qed.

Lemma target_full o : 0 <= o -> targetMinor o no_reversal = o.
Proof. unfold targetMinor, no_reversal. cbn. lia. Qed.

Lemma target_bounds o m : reversal_ok o m -> 0 <= targetMinor o m <= Z.max 0 o.
Proof. intros (R & D & _). unfold targetMinor. destruct (rv_disputeFundsWithdrawn m); lia. Qed.

(** Without a dispute an event never gives money back. *)
Lemma observe_undisputed o m e m' :
  reversal_ok o m -> observe o m e = Ok m' -> rv_lastDisputeEventCreated m' = None -> targetMinor o m' <= targetMinor o m.
Proof.
  intros K E Hd. destruct (observe_ok _ _ _ _ K E) as (_ & Hr & Hn). destruct (Hn Hd) as (_ & E1 & E2).
  unfold targetMinor. rewrite E1, E2. destruct (rv_disputeFundsWithdrawn m); lia.
Qed.

(** Nothing is left exactly when the charge was refunded or is in dispute. *)
Lemma nothing_left o m :
  0 < o -> targetMinor o m = 0 ->
  (nextStatus o m = sp_refunded /\ o <= rv_refundedAmountMinor m) \/ (nextStatus o m = sp_disputed /\ rv_disputeFundsWithdrawn m = true).
Proof.
  intros Ho E. unfold nextStatus. rewrite E. destruct (Z.leb_spec o (rv_refundedAmountMinor m)); [left; auto|].
  unfold targetMinor in E. destruct (rv_disputeFundsWithdrawn m); [right; auto|lia].
Qed.

(** ** Any order of delivery *)

Definition is_dispute (e : FinancialFacts) : Prop := ff_disputeFundsWithdrawn e <> None.

(** Newer events have greater keys; at equal times a reinstatement is newer. *)
Definition rank (created : Z) (withdrawn : bool) : Z := 2 * created + (if withdrawn then 0 else 1).
Definition key (e : FinancialFacts) : Z :=
  rank (ff_providerCreated e) (match ff_disputeFundsWithdrawn e with Some w => w | None => false end).

Definition refund_of (e : FinancialFacts) : Z := match ff_refundedAmountMinor e with Some n => n | None => 0 end.
Definition dispute_of (e : FinancialFacts) : Z := match ff_disputeAmountMinor e with Some n => n | None => 0 end.

(** The events of a batch: within the charge, one event per id, and at one time
    at most one withdrawal and one reinstatement. *)
Record batch (o : Z) (es : list FinancialFacts) : Prop := {
  ba_bounds : forall e, In e es -> in_bounds o (refund_of e) = true /\ in_bounds o (dispute_of e) = true;
  ba_ids : forall e e', In e es -> In e' es -> ff_stripeEventId e = ff_stripeEventId e' -> e = e';
  ba_times : forall e e', In e es -> In e' es -> is_dispute e -> is_dispute e' -> key e = key e' -> e = e';
}.

(** The part of a reversal that disputes write. *)
Definition dispute_state (m : Reversal) : Z * bool * option Z * option string :=
  (rv_disputeAmountMinor m, rv_disputeFundsWithdrawn m, rv_lastDisputeEventCreated m, rv_lastDisputeEventId m).

(** What a reversal says about the events it has seen. *)
Record summary (es : list FinancialFacts) (m : Reversal) : Prop := {
  sm_upper : forall e, In e es -> refund_of e <= rv_refundedAmountMinor m;
  sm_refund : rv_refundedAmountMinor m = 0 \/ exists e, In e es /\ rv_refundedAmountMinor m = refund_of e;
  sm_dispute : (dispute_state m = (0, false, None, None) /\ forall e, In e es -> ~ is_dispute e) \/
    exists e w, In e es /\ ff_disputeFundsWithdrawn e = Some w /\
      dispute_state m = (dispute_of e, w, Some (ff_providerCreated e), Some (ff_stripeEventId e)) /\
      forall e', In e' es -> is_dispute e' -> key e' <= key e;
}.

Lemma summary_unique o es es' m m' :
  batch o es -> (forall e, In e es <-> In e es') -> summary es m -> summary es' m' -> m = m'.
Proof.
  intros B S [U R D] [U' R' D'].
  assert (Er : rv_refundedAmountMinor m = rv_refundedAmountMinor m').
  { assert (P : forall e, In e es -> 0 <= refund_of e) by (intros e He; apply (ba_bounds _ _ B) in He as [He _]; apply in_bounds_true in He; lia).
    destruct R as [R|(e & He & R)], R' as [R'|(e' & He' & R')].
    - congruence.
    - apply S in He'. pose proof (U _ He'). pose proof (P _ He'). lia.
    - pose proof (P _ He). apply S in He. pose proof (U' _ He). lia.
    - pose proof (U' e ltac:(apply S; exact He)). apply S in He'. pose proof (U _ He'). lia. }
  enough (dispute_state m = dispute_state m') by (destruct m, m'; unfold dispute_state in *; cbn in *; congruence).
  destruct D as [[-> N]|(e & w & He & Hw & -> & K)], D' as [[-> N']|(e' & w' & He' & Hw' & -> & K')].
  - reflexivity.
  - exfalso. apply (N e'); [apply S; exact He'|]. unfold is_dispute. congruence.
  - exfalso. apply (N' e); [apply S; exact He|]. unfold is_dispute. congruence.
  - apply S in He'. assert (e = e') as <-; [|congruence].
    assert (is_dispute e /\ is_dispute e') as [I I'] by (unfold is_dispute; split; congruence).
    apply (ba_times _ _ B); try assumption. pose proof (K _ He' I'). pose proof (K' e ltac:(apply S; exact He) I). lia.
Qed.

(** The test of the code compares keys. *)
Lemma newer_key o all e0 w0 m e w :
  batch o all -> In e0 all -> In e all -> ff_disputeFundsWithdrawn e0 = Some w0 -> ff_disputeFundsWithdrawn e = Some w ->
  rv_lastDisputeEventCreated m = Some (ff_providerCreated e0) -> rv_lastDisputeEventId m = Some (ff_stripeEventId e0) ->
  rv_disputeFundsWithdrawn m = w0 -> disputeEventIsNewer m e = (key e0 <? key e).
Proof.
  intros B H0 He W0 W Hc Hi Hw. unfold disputeEventIsNewer, key. rewrite W, W0, Hc, Hi, Hw. unfold rank.
  destruct (Z.eqb_spec (ff_providerCreated e) (ff_providerCreated e0)) as [Ec|Ec]; cbn [negb].
  - rewrite Ec. cbn. destruct (String.eqb_spec (ff_stripeEventId e) (ff_stripeEventId e0)) as [Es|Es].
    + rewrite (ba_ids _ _ B _ _ He H0 Es) in W. rewrite W in W0. injection W0 as ->. symmetry. apply Z.ltb_irrefl.
    + symmetry. destruct w, w0; cbn [negb andb]; (apply Z.ltb_lt || apply Z.ltb_ge); lia.
  - destruct (Z.ltb_spec (ff_providerCreated e0) (ff_providerCreated e)); symmetry; (apply Z.ltb_lt || apply Z.ltb_ge);
      destruct w, w0; lia.
Qed.

Lemma observe_summary o all es m e :
  batch o all -> (forall x, In x (e :: es) -> In x all) -> 0 <= rv_refundedAmountMinor m <= o -> Z.abs o < 2 ^ 53 ->
  summary es m -> exists m', observe o m e = Ok m' /\ summary (e :: es) m' /\ 0 <= rv_refundedAmountMinor m' <= o.
Proof.
  intros B Hin Hr Ho [U R D]. destruct (ba_bounds _ _ B e (Hin e (or_introl eq_refl))) as [Br Bd].
  pose proof (in_bounds_true _ _ Br) as Br'. unfold observe.
  set (obs := match ff_refundedAmountMinor e with None => rv_refundedAmountMinor m | Some n => n end).
  assert (Hobs : in_bounds o obs = true /\ Z.max (rv_refundedAmountMinor m) obs = Z.max (rv_refundedAmountMinor m) (refund_of e)).
  { unfold obs, refund_of in *. destruct (ff_refundedAmountMinor e) as [n|]; [auto|]. split; [|lia].
    unfold in_bounds, isSafeInteger. rewrite !andb_true_iff, !Z.leb_le. lia. }
  destruct Hobs as [Ho1 Ho2]. rewrite Ho1, Ho2. cbn [negb]. fold (dispute_of e). set (rf := Z.max _ _).
  assert (Hrf : 0 <= rf <= o) by lia.
  assert (Up : forall x, In x (e :: es) -> refund_of x <= rf) by (intros x [<-|Hx]; [lia|specialize (U _ Hx); lia]).
  assert (Rf : rf = 0 \/ exists x, In x (e :: es) /\ rf = refund_of x).
  { unfold rf. destruct (Z.max_spec (rv_refundedAmountMinor m) (refund_of e)) as [[_ ->]|[_ ->]]; [right; exists e; simpl; auto|].
    destruct R as [R|(x & Hx & R)]; [auto|right; exists x; simpl; auto]. }
  destruct (ff_disputeFundsWithdrawn e) as [w|] eqn:W.
  2: { unfold disputeEventIsNewer. rewrite W. eexists. split; [reflexivity|]. cbn [rv_refundedAmountMinor]. split; [|exact Hrf].
       constructor; [exact Up|exact Rf|]. destruct D as [[Dm N]|(x & wx & Hx & Wx & Dm & K)].
       - left. split; [exact Dm|]. intros y [<-|Hy]; [unfold is_dispute; rewrite W; auto|auto].
       - right. exists x, wx. split; [right; exact Hx|]. split; [exact Wx|]. split; [exact Dm|].
         intros y [<-|Hy] Iy; [unfold is_dispute in Iy; congruence|auto]. }
  destruct D as [[Dm N]|(x & wx & Hx & Wx & Dm & K)]; pose proof Dm as [= D1 D2 D3 D4].
  - unfold disputeEventIsNewer. rewrite W, D3. rewrite Bd. cbn [negb].
    eexists. split; [reflexivity|]. cbn [rv_refundedAmountMinor]. split; [|exact Hrf]. constructor; [exact Up|exact Rf|].
    right. exists e, w. split; [left; reflexivity|]. split; [exact W|]. split; [reflexivity|].
    intros y [<-|Hy] Iy; [lia|]. elim (N _ Hy Iy).
  - rewrite (newer_key o all x wx _ e w B (Hin x (or_intror Hx)) (Hin e (or_introl eq_refl)) Wx W D3 D4 D2).
    destruct (Z.ltb_spec (key x) (key e)) as [Hk|Hk].
    + rewrite Bd. cbn [negb]. eexists. split; [reflexivity|]. cbn [rv_refundedAmountMinor]. split; [|exact Hrf]. constructor; [exact Up|exact Rf|].
      right. exists e, w. split; [left; reflexivity|]. split; [exact W|]. split; [reflexivity|].
      intros y [<-|Hy] Iy; [lia|]. specialize (K _ Hy Iy). lia.
    + eexists. split; [reflexivity|]. cbn [rv_refundedAmountMinor]. split; [|exact Hrf]. constructor; [exact Up|exact Rf|].
      right. exists x, wx. split; [right; exact Hx|]. split; [exact Wx|]. split; [exact Dm|].
      intros y [<-|Hy] Iy; [lia|auto].
Qed.

(** A summary only depends on which events were seen. *)
Lemma summary_seen es es' m : (forall e, In e es <-> In e es') -> summary es m -> summary es' m.
Proof.
  intros S [U R D]. constructor.
  - intros e He. apply U, S, He.
  - destruct R as [R|(e & He & R)]; [auto|right; exists e; split; [apply S, He|exact R]].
  - destruct D as [[D N]|(e & w & He & D)]; [left|right; exists e, w].
    + split; [exact D|]. intros e He. apply N, S, He.
    + split; [apply S, He|]. destruct D as (D1 & D2 & D3). split; [exact D1|]. split; [exact D2|]. intros e' He'. apply D3, S, He'.
Qed.

(** Events applied one after another, each on what the last one left. *)
Inductive delivered (originalMinor : Z) : list FinancialFacts -> Reversal -> Reversal -> Prop :=
| delivered_none m : delivered originalMinor [] m m
| delivered_one e es m m1 m' :
    observe originalMinor m e = Ok m1 -> delivered originalMinor es m1 m' -> delivered originalMinor (e :: es) m m'.

Lemma delivered_summary o all es : batch o all -> 0 <= o < 2 ^ 53 -> (forall e, In e es -> In e all) -> forall seen m m',
  (forall e, In e seen -> In e all) -> summary seen m -> 0 <= rv_refundedAmountMinor m <= o -> delivered o es m m' ->
  summary (es ++ seen)%list m'.
Proof.
  intros B Ho Hin. induction es as [|e es IH]; intros seen m m' Hs Sm Hr D; inversion D as [|? ? ? m1 ? E D']; subst; [exact Sm|].
  assert (Hes : forall x, In x (e :: seen) -> In x all) by (intros x [<-|Hx]; [apply Hin; left; reflexivity|apply Hs, Hx]).
  destruct (observe_summary o all seen m e B Hes Hr ltac:(lia) Sm) as (m2 & E2 & S2 & R2). rewrite E in E2. injection E2 as <-.
  eapply summary_seen; [|exact (IH (fun x Hx => Hin x (or_intror Hx)) (e :: seen) m1 m' Hes S2 R2 D')].
  intros x. rewrite !in_app_iff. cbn. tauto.
Qed.

Lemma no_reversal_summary : summary [] no_reversal.
Proof. constructor; [intros e []|left; reflexivity|]. left. split; [reflexivity|intros e []]. Qed.

Lemma delivered_same o es es' m m' :
  0 <= o < 2 ^ 53 -> batch o es -> (forall e, In e es <-> In e es') ->
  delivered o es no_reversal m -> delivered o es' no_reversal m' -> m = m'.
Proof.
  intros Ho B S D D'. apply (summary_unique o es es' _ _ B S).
  - rewrite <- (app_nil_r es). eapply (delivered_summary o es es); eauto using no_reversal_summary; [|cbn; lia]. intros e [].
  - rewrite <- (app_nil_r es'). eapply (delivered_summary o es es'); eauto using no_reversal_summary; [intros e He; apply S, He| |cbn; lia]. intros e [].
Qed.
