(* ===== verification/InvoiceLifecycle.v ===== *)
(** * Issued invoices ([apps/api/src/services/invoiceService.ts], lines 656-665
      and 1330-2377; [invoiceNumbers.ts]; the session gate of
      [stripeSessionRevocation.ts])

    Issuance with its double-bill guard, payments and the status they derive,
    voiding with reissue, the overdue sweep and the viewed stamps. Events, queue
    nudges and the accounting outbox are not modelled. *)

From Stdlib Require Import QArith.
From S2P Require Import Prelude JsString JsNumber Currency IsoDate InvoiceMath ContractMath TimeBilling CatalogPricing ContractCoverage BillingDb InvoiceService StripeSessions.
From stdpp Require Import base gmap strings list pretty.

Local Open Scope string_scope.
Local Open Scope Z_scope.
Local Open Scope billing_scope.

(** ** Issue *)

Definition formatInvoiceNumber (prefix : string) (year counter : Z) : string :=
  prefix ++ "-" ++ print_int year ++ "-" ++ padStart (print_int counter) 4 "0".

(** A billable source row: a time entry or a ticket part. *)
Record SourceRow := mkSource {
  so_id : string; so_orgId : string; so_status : TimeBillingStatus; so_currencyCode : option string }.

Definition entry_source (e : StoredEntry) : SourceRow :=
  mkSource (te_id (se_row e)) (se_orgId e) (se_status e) (te_currencyCode (se_row e)).
Definition part_source (p : StoredPart) : SourceRow :=
  mkSource (tp_id (sp_row p)) (sp_orgId p) (sp_status p) (tp_currencyCode (sp_row p)).

Definition source_type_eqb (a b : InvoiceLineSourceType) : bool :=
  match a, b with
  | src_time_entry, src_time_entry | src_part, src_part | src_bundle, src_bundle
  | src_manual, src_manual | src_catalog, src_catalog | src_contract, src_contract => true
  | _, _ => false
  end.

(** The distinct source ids of one type on the lines. *)
Definition sourceIds (type : InvoiceLineSourceType) (lines : list InvoiceLine) : list string :=
  remove_dups (omap (fun l => if source_type_eqb (lv_sourceType (il_values l)) type
                              then truthy (lv_sourceId (il_values l)) else None) lines).

Definition find_source (id : string) (table : list SourceRow) : option SourceRow :=
  List.find (fun r => String.eqb (so_id r) id) table.

Definition for_source (id : string) (table : list SourceRow) (p : SourceRow -> bool) : bool :=
  match find_source id table with Some r => p r | None => false end.

Definition validateBillable (inv : Invoice) (ids : list string) (locked : list SourceRow) : M unit :=
  do! _ := require (forallb (fun id => for_source id locked (fun r => String.eqb (so_orgId r) (iv_orgId inv))) ids) SOURCE_NOT_FOUND in
  do! _ := require (forallb (fun id => for_source id locked (fun r => is_not_billed (so_status r))) ids) SOURCE_ALREADY_BILLED in
  require (forallb (fun id => for_source id locked (fun r => opt_eqb (so_currencyCode r) (Some (iv_currencyCode inv)))) ids) CURRENCY_MISMATCH.

Definition check_contract_line (inv : Invoice) (d : Db) (id : string) : M unit :=
  match List.find (fun l => String.eqb (cn_id l) id) (db_contractLines d) with
  | None => fail SOURCE_NOT_FOUND
  | Some cl =>
      match db_contracts d !! cn_contractId cl with
      | None => fail SOURCE_NOT_FOUND
      | Some parent =>
          do! _ := require (String.eqb (ct_orgId parent) (iv_orgId inv)) SOURCE_NOT_FOUND in
          require (String.eqb (ct_currencyCode parent) (iv_currencyCode inv)) CURRENCY_MISMATCH
      end
  end.

(** [UPDATE ... SET billing_status = 'billed' WHERE id IN ids AND org_id = ...
    AND billing_status = 'not_billed']. *)
Definition flips (ids : list string) (orgId : string) (r : SourceRow) : bool :=
  str_mem (so_id r) ids && String.eqb (so_orgId r) orgId && is_not_billed (so_status r).

Definition entry_status (s : TimeBillingStatus) (e : StoredEntry) : StoredEntry :=
  mkStoredEntry (se_row e) (se_orgId e) (se_isBillable e) s (se_endedAt e).
Definition part_status (s : TimeBillingStatus) (p : StoredPart) : StoredPart :=
  mkStoredPart (sp_row p) (sp_orgId p) (sp_isBillable p) s (sp_createdAt p).

Definition flip_entries (ids : list string) (orgId : string) : M unit :=
  do! n := read (fun d => List.length (List.filter (fun e => flips ids orgId (entry_source e)) (db_entries d))) in
  do! _ := modify (fun d => set_entries
             (map (fun e => if flips ids orgId (entry_source e) then entry_status billed e else e) (db_entries d)) d) in
  require (Nat.eqb n (List.length ids)) CONCURRENT_MODIFICATION.

Definition flip_parts (ids : list string) (orgId : string) : M unit :=
  do! n := read (fun d => List.length (List.filter (fun p => flips ids orgId (part_source p)) (db_parts d))) in
  do! _ := modify (fun d => set_parts
             (map (fun p => if flips ids orgId (part_source p) then part_status billed p else p) (db_parts d)) d) in
  require (Nat.eqb n (List.length ids)) CONCURRENT_MODIFICATION.

(** The counter upsert of [partner_invoice_sequences]. *)
Definition allocateInvoiceCounter (partnerId : string) (year : Z) : M Z :=
  do! counter := read (fun d => match db_sequences d !! (partnerId, year) with Some c => c + 1 | None => 1 end) in
  do! _ := modify (fun d => set_sequences (<[(partnerId, year) := counter]> (db_sequences d)) d) in
  do! _ := require (1 <=? counter) NUMBER_ALLOCATION_FAILED in
  ret counter.

(** The row the issuance writes: the currency stays the draft's own. *)
Definition issued_row (org : option Organization) (partner : option Partner) (number taxRate : string)
    (money : InvoiceMoney) (now : Z) (i : Invoice) : Invoice :=
  let termsDays := match partner with Some p => pt_invoiceTermsDays p | None => 30 end in
  mkInvoice (iv_partnerId i) (iv_orgId i) (iv_siteId i) (iv_currencyCode i) (iv_createdBy i) st_sent (Some number)
    (Some (utc_day_string now)) (Some (utc_day_string (now + termsDays * MS_PER_DAY))) money (iv_marks i)
    (mkParties (option_map org_name org) (Some (buildBillToAddress org))
       (match org with Some o => org_taxId o | None => None end)
       (match org with Some o => org_taxExempt o | None => false end)
       (resolveInvoiceFooter None (match partner with Some p => pt_invoiceFooter p | None => None end)
          (match org with Some o => org_brandingFooter o | None => None end))
       (Some (buildSellerSnapshot partner))
       (Some (match pa_documentLocale (iv_parties i) with
              | Some l => l
              | None => match partner with Some p => pt_documentLocale p | None => "en" end
              end))
       (Some (match pa_deviceAppendix (iv_parties i) with
              | Some b => b
              | None => match partner with Some p => pt_invoiceDeviceAppendix p | None => false end
              end)))
    (iv_notes i)
    (match iv_termsAndConditions i with
     | Some t => Some t
     | None => match partner with Some p => pt_billingTermsAndConditions p | None => None end
     end)
    (iv_replacesInvoiceId i) (iv_replacedByInvoiceId i) (iv_evidenceVersion i) (iv_depositDue i).

(** The totals written at issue: the balance is the total. *)
Definition issue_money (t : InvoiceTotals) (taxRate amountPaid : string) : result Failure InvoiceMoney :=
  let! subtotal := pg_numeric (it_subtotal t) in
  let! taxTotal := pg_numeric (it_taxTotal t) in
  let! total := pg_numeric (it_total t) in
  Ok (mkMoney subtotal (Some taxRate) taxTotal total amountPaid total).

(** The sources are validated on the locked rows before anything is written. *)
Definition validate_sources (inv : Invoice) (lines : list InvoiceLine) : M unit :=
  do! d := read (fun d => d) in
  do! _ := for_each (check_contract_line inv d) (sourceIds src_contract lines) in
  do! _ := validateBillable inv (sourceIds src_time_entry lines) (map entry_source (db_entries d)) in
  validateBillable inv (sourceIds src_part lines) (map part_source (db_parts d)).

Definition issueInvoice (now : Z) (invoiceId : string) (actor : InvoiceActor) : M Invoice :=
  do! inv := lockDraftInvoice invoiceId in
  do! _ := requireInvoiceAccess actor inv in
  do! lines := read (lines_of invoiceId) in
  do! _ := require (existsb (fun l => lv_customerVisible (il_values l)) lines) NO_VISIBLE_LINES in
  do! _ := validate_sources inv lines in
  do! org := read (fun d => rf_organizations (db_ref d) !! iv_orgId inv) in
  do! partner := read (fun d => rf_partners (db_ref d) !! iv_partnerId inv) in
  let taxRate := resolveEffectiveTaxRate (match org with Some o => org_taxExempt o | None => false end)
                   (match org with Some o => org_taxRate o | None => None end)
                   (match partner with Some p => pt_defaultTaxRate p | None => None end) in
  let year := getUTCFullYear (now / MS_PER_DAY) in
  do! totals := lift_throw (computeInvoiceTotals (map totals_row lines) (Some taxRate) (iv_currencyCode inv)) in
  do! counter := allocateInvoiceCounter (iv_partnerId inv) year in
  let number := formatInvoiceNumber (match partner with Some p => pt_invoiceNumberPrefix p | None => "INV" end) year counter in
  do! money := lift (issue_money totals taxRate (im_amountPaid (iv_money inv))) in
  do! _ := update_invoice invoiceId (issued_row org partner number taxRate money now) in
  do! _ := flip_entries (sourceIds src_time_entry lines) (iv_orgId inv) in
  do! _ := flip_parts (sourceIds src_part lines) (iv_orgId inv) in
  getOwnedInvoiceOr404 invoiceId.

(** ** Payments *)

Definition payments_of (invoiceId : string) (d : Db) : list Payment :=
  List.filter (fun p => String.eqb (py_invoiceId p) invoiceId) (db_payments d).

Definition paid_sum (ps : list Payment) : num :=
  fold_left (fun s p => js_add s (toCents (Some (Str (py_amount p))))) ps (ofZ 0).

(** The row after its payments were summed again. *)
Definition recomputed_row (amountPaid balance : string) (now : Z) (i : Invoice) : Invoice :=
  let m := iv_money i in
  let k := iv_marks i in
  let status := deriveInvoiceStatus (match mk_voidedAt k with Some _ => true | None => false end)
                  (match iv_invoiceNumber i with Some _ => true | None => false end)
                  (im_total m) amountPaid (iv_dueDate i) now in
  let paidAt := match status, mk_paidAt k with
                | st_paid, None => Some now
                | st_paid, Some t => Some t
                | _, _ => None
                end in
  let markedOverdueAt := match status, mk_markedOverdueAt k with
                         | st_overdue, None => Some now
                         | _, t => t
                         end in
  mkInvoice (iv_partnerId i) (iv_orgId i) (iv_siteId i) (iv_currencyCode i) (iv_createdBy i) status (iv_invoiceNumber i)
    (iv_issueDate i) (iv_dueDate i)
    (mkMoney (im_subtotal m) (im_taxRate m) (im_taxTotal m) (im_total m) amountPaid balance)
    (mkMarks paidAt markedOverdueAt (mk_voidedAt k) (mk_voidReason k) (mk_firstViewedAt k) (mk_viewedAt k))
    (iv_parties i) (iv_notes i) (iv_termsAndConditions i) (iv_replacesInvoiceId i) (iv_replacedByInvoiceId i) (iv_evidenceVersion i) (iv_depositDue i).

Definition recomputeInvoiceStatus (now : Z) (invoiceId : string) : M unit :=
  do! inv := getOwnedInvoiceOr404 invoiceId in
  do! paidRows := read (payments_of invoiceId) in
  let amountPaid := fromCents (paid_sum paidRows) in
  let balance := fromCents (js_sub (toCents (Some (Str (im_total (iv_money inv))))) (toCents (Some (Str amountPaid)))) in
  do! storedPaid := lift (pg_numeric amountPaid) in
  do! storedBalance := lift (pg_numeric balance) in
  update_invoice invoiceId (recomputed_row storedPaid storedBalance now).

(** The due date is the one column an open issued invoice still changes. *)
Definition with_due_date (dueDate : string) (i : Invoice) : Invoice :=
  patch_header (mkInvoicePatch None None (Some dueDate) None) i.

(** The row is read and its status checked without a lock. *)
Definition due_date_allowed (invoiceId : string) (actor : InvoiceActor) : M unit :=
  do! inv := getOwnedInvoiceOr404 invoiceId in
  do! _ := requireInvoiceAccess actor inv in
  require (match iv_status inv with st_sent | st_partially_paid | st_overdue => true | _ => false end) INVALID_STATE.

(** The update takes the row's lock, and the status is derived from what the row
    and its payments are then. *)
Definition write_due_date (now : Z) (invoiceId dueDate : string) : M Invoice :=
  do! _ := update_invoice invoiceId (with_due_date dueDate) in
  do! _ := recomputeInvoiceStatus now invoiceId in
  getOwnedInvoiceOr404 invoiceId.

Definition updateIssuedDueDate (now : Z) (invoiceId dueDate : string) (actor : InvoiceActor) : M Invoice :=
  do! _ := due_date_allowed invoiceId actor in
  write_due_date now invoiceId dueDate.

Record RecordPaymentInput := mkPaymentInput {
  pi_amount : num; pi_method : string; pi_reference : option string; pi_receivedAt : string; pi_note : option string }.

(** The amount check against the balance of the locked rows. *)
Definition check_payment_amount (balanceCents : num) (amount : num) (currencyCode : string) : M unit :=
  let amountCents := toCents (Some (Num amount)) in
  if negb (isRepresentableInCurrency (Str (fromCents balanceCents)) currencyCode)
  then require (js_eq amountCents balanceCents) INVALID_AMOUNT
  else
    do! _ := require (isRepresentableInCurrency (Num amount) currencyCode) INVALID_AMOUNT in
    require (negb (js_gt amountCents balanceCents)) OVERPAYMENT.

Definition accepts_payment (inv : Invoice) : M unit :=
  require (match iv_status inv with st_draft | st_void => false | _ => true end) INVALID_STATE.

(** The transaction that writes the payment. *)
Definition recordPayment_tx `{Uuids} (now : Z) (invoiceId : string) (input : RecordPaymentInput) (actor : InvoiceActor) : M Payment :=
  do! inv := getOwnedInvoiceOr404 invoiceId in
  do! _ := requireInvoiceAccess actor inv in
  do! _ := accepts_payment inv in
  do! _ := assertInvoiceSessionsRevoked invoiceId in
  do! paidRows := read (payments_of invoiceId) in
  let balanceCents := js_sub (toCents (Some (Str (im_total (iv_money inv))))) (paid_sum paidRows) in
  do! _ := check_payment_amount balanceCents (pi_amount input) (iv_currencyCode inv) in
  do! id := mint in
  do! amount := lift (pg_numeric (toFixed 2 (pi_amount input))) in
  do! _ := pg_check (js_gt (js_Number amount) (ofZ 0)) in
  let payment := mkPayment id invoiceId (iv_orgId inv) amount (pi_method input) (pi_reference input) (pi_receivedAt input)
                   (ac_userId actor) (pi_note input) in
  do! _ := modify (fun d => set_payments (db_payments d ++ [payment])%list d) in
  do! _ := recomputeInvoiceStatus now invoiceId in
  ret payment.

(** The open sessions are asked to close before the transaction, and stay so
    when it refuses. *)
Definition recordPayment `{Uuids} (now : Z) (answer : StripeRow -> option ProviderOutcome) (invoiceId : string) (input : RecordPaymentInput)
    (actor : InvoiceActor) : Run Payment :=
  run! _ := tx (do! pre := getOwnedInvoiceOr404 invoiceId in accepts_payment pre) in
  run! _ := tx (requestInvoiceSessionRevocation now answer invoiceId "manual_payment" (Some actor)) in
  tx (recordPayment_tx now invoiceId input actor).

(** QuickBooks would pull the payment back in. *)
Definition will_reimport (partnerId : string) (d : Db) : bool :=
  match rf_quickbooks (db_ref d) !! partnerId with Some (connected, pullPayments) => connected && pullPayments | None => false end.

Definition voidPayment (now : Z) (paymentId : string) (actor : InvoiceActor) : M Invoice :=
  do! found := read (fun d => List.find (fun p => String.eqb (py_id p) paymentId) (db_payments d)) in
  match found with
  | None => fail PAYMENT_NOT_FOUND
  | Some pay =>
      do! parentInv := getOwnedInvoiceOr404 (py_invoiceId pay) in
      do! _ := requireInvoiceAccess actor parentInv in
      do! foreign := read (fun d => match rf_paymentMappings (db_ref d) !! paymentId with
                                    | Some breezeOrigin => negb breezeOrigin
                                    | None => false
                                    end) in
      do! reimport := read (will_reimport (iv_partnerId parentInv)) in
      do! _ := require (negb (foreign && reimport)) QUICKBOOKS_OWNED_PAYMENT in
      do! stripe := read (fun d => existsb (fun r => opt_eqb (sr_invoicePaymentId r) (Some paymentId)) (db_stripe d)) in
      do! _ := require (negb stripe) STRIPE_PAYMENT_MANAGED_EXTERNALLY in
      do! _ := modify (fun d => set_payments (List.filter (fun p => negb (String.eqb (py_id p) paymentId)) (db_payments d)) d) in
      do! _ := recomputeInvoiceStatus now (py_invoiceId pay) in
      getOwnedInvoiceOr404 (py_invoiceId pay)
  end.

(** ** Void and reissue *)

Definition contract_ids (lines : list InvoiceLine) (d : Db) : list string :=
  remove_dups (omap (fun l => truthy (lv_sourceContractId (il_values l))) lines ++
               map cn_contractId (List.filter (fun cl => str_mem (cn_id cl) (sourceIds src_contract lines)) (db_contractLines d)))%list.

Definition voided_row (reason : string) (now : Z) (i : Invoice) : Invoice :=
  let k := iv_marks i in
  mkInvoice (iv_partnerId i) (iv_orgId i) (iv_siteId i) (iv_currencyCode i) (iv_createdBy i) st_void (iv_invoiceNumber i)
    (iv_issueDate i) (iv_dueDate i) (iv_money i)
    (mkMarks None (mk_markedOverdueAt k) (Some now) (Some reason) (mk_firstViewedAt k) (mk_viewedAt k))
    (iv_parties i) (iv_notes i) (iv_termsAndConditions i) (iv_replacesInvoiceId i) (iv_replacedByInvoiceId i) (iv_evidenceVersion i) (iv_depositDue i).

Definition with_replacement (draftId : string) (i : Invoice) : Invoice :=
  mkInvoice (iv_partnerId i) (iv_orgId i) (iv_siteId i) (iv_currencyCode i) (iv_createdBy i) (iv_status i) (iv_invoiceNumber i)
    (iv_issueDate i) (iv_dueDate i) (iv_money i) (iv_marks i) (iv_parties i) (iv_notes i) (iv_termsAndConditions i)
    (iv_replacesInvoiceId i) (Some draftId) (iv_evidenceVersion i) (iv_depositDue i).

Definition release_entries (ids : list string) (d : Db) : Db :=
  set_entries (map (fun e => if str_mem (te_id (se_row e)) ids then entry_status not_billed e else e) (db_entries d)) d.
Definition release_parts (ids : list string) (d : Db) : Db :=
  set_parts (map (fun p => if str_mem (tp_id (sp_row p)) ids then part_status not_billed p else p) (db_parts d)) d.

(** Every id is minted before a row is written. *)
Fixpoint mint_ids `{Uuids} (lines : list InvoiceLine) : M (list (string * string)) :=
  match lines with
  | [] => ret []
  | l :: rest =>
      do! id := mint in
      do! more := mint_ids rest in
      ret ((il_id l, id) :: more)
  end.

(** [new Map(pairs)]: the last pair of a key wins. *)
Definition newId (oldToNew : list (string * string)) (oldLineId : string) : M string :=
  match List.find (fun p => String.eqb (fst p) oldLineId) (rev oldToNew) with
  | Some (_, id) => ret id
  | None => fail INVALID_STATE
  end.

Definition with_parent (parentLineId : option string) (v : LineValues) : LineValues :=
  mkLine (lv_sourceType v) (lv_sourceId v) (lv_sourceContractId v) (lv_catalogItemId v) parentLineId (lv_ticketId v)
    (lv_name v) (lv_description v) (lv_quantity v) (lv_unitPrice v) (lv_costBasis v) (lv_revenueAllocation v)
    (lv_taxable v) (lv_customerVisible v) (lv_lineTotal v) (lv_isUnapprovedTime v) (lv_workedMinutes v).

Definition clone_line (oldToNew : list (string * string)) (draftId : string) (l : InvoiceLine) : M unit :=
  do! id := newId oldToNew (il_id l) in
  do! parent := match lv_parentLineId (il_values l) with
                | None => ret None
                | Some p => do! np := newId oldToNew p in ret (Some np)
                end in
  do! _ := insert_line_with id draftId (il_orgId l) (il_sortOrder l) (with_parent parent (il_values l)) in
  ret tt.

Definition clone_evidence (oldToNew : list (string * string)) (draftId : string) (e : LineDevice) : M unit :=
  do! line := newId oldToNew (ld_invoiceLineId e) in
  modify (fun d => set_lineDevices (db_lineDevices d ++
    [mkLineDevice line draftId (ld_orgId e) (ld_deviceId e) (ld_hostname e) (ld_deviceRole e) (ld_siteId e) (ld_countedAs e)])%list d).

Definition is_child (l : InvoiceLine) : bool := match lv_parentLineId (il_values l) with Some _ => true | None => false end.

(** The fresh draft of a reissue: parents before children, then the evidence. *)
Definition reissue_clone `{Uuids} (invoiceId : string) (inv : Invoice) (srcLines : list InvoiceLine) (actor : InvoiceActor) : M string :=
  do! draftId := insert_invoice
    (mkInvoice (iv_partnerId inv) (iv_orgId inv) (iv_siteId inv) (iv_currencyCode inv) (ac_userId actor) st_draft None None None
       zero_money no_marks no_parties (iv_notes inv) None (Some invoiceId) None (iv_evidenceVersion inv) None) in
  do! _ := update_invoice invoiceId (with_replacement draftId) in
  do! oldToNew := mint_ids srcLines in
  do! _ := for_each (clone_line oldToNew draftId) (List.filter (fun l => negb (is_child l)) srcLines) in
  do! _ := for_each (clone_line oldToNew draftId) (List.filter is_child srcLines) in
  do! evidence := read (fun d => List.filter (fun e => String.eqb (ld_invoiceId e) invoiceId) (db_lineDevices d)) in
  do! _ := for_each (clone_evidence oldToNew draftId) evidence in
  ret draftId.

(** The void transaction. *)
Definition voidInvoice_tx `{Uuids} (now : Z) (invoiceId reason : string) (reissue : bool) (actor : InvoiceActor) : M (option string) :=
  do! inv := getOwnedInvoiceOr404 invoiceId in
  do! _ := requireInvoiceAccess actor inv in
  do! _ := accepts_payment inv in
  do! applied := read (payments_of invoiceId) in
  do! _ := require (negb (js_gt (paid_sum applied) (ofZ 0))) INVOICE_HAS_PAYMENTS in
  do! _ := assertInvoiceSessionsRevoked invoiceId in
  do! srcLines := read (lines_of invoiceId) in
  do! drifted := read (fun d => existsb (fun id => match db_contracts d !! id with
                                                   | Some c => negb (String.eqb (ct_currencyCode c) (iv_currencyCode inv))
                                                   | None => false
                                                   end) (contract_ids srcLines d)) in
  do! _ := require (negb (reissue && drifted)) CURRENCY_MISMATCH in
  do! _ := update_invoice invoiceId (voided_row reason now) in
  do! _ := modify (release_entries (sourceIds src_time_entry srcLines)) in
  do! _ := modify (release_parts (sourceIds src_part srcLines)) in
  if negb reissue then ret None
  else do! draftId := reissue_clone invoiceId inv srcLines actor in ret (Some draftId).

(** The totals of a reissued draft are computed after the void commits. *)
Definition voidInvoice `{Uuids} (now : Z) (answer : StripeRow -> option ProviderOutcome) (invoiceId reason : string) (reissue : bool)
    (actor : InvoiceActor) : Run (option string) :=
  run! _ := tx (requestInvoiceSessionRevocation now answer invoiceId "invoice_void" (Some actor)) in
  run! draft := tx (voidInvoice_tx now invoiceId reason reissue actor) in
  match draft with
  | None => done None
  | Some draftId => run! _ := tx (recomputeInvoiceTotals draftId None) in done (Some draftId)
  end.

(** ** The daily sweep and the viewed stamps *)

Definition sweep_due (today : string) (d : Db) (i : Invoice) : bool :=
  match iv_status i with st_sent | st_partially_paid => true | _ => false end &&
  match iv_dueDate i with Some due => str_ltb due today | None => false end &&
  js_gt (js_Number (im_balance (iv_money i))) (ofZ 0) &&
  match rf_organizations (db_ref d) !! iv_orgId i with Some o => org_automationEligible o | None => false end.

Definition overdue_row (asOf : Z) (i : Invoice) : Invoice :=
  let k := iv_marks i in
  mkInvoice (iv_partnerId i) (iv_orgId i) (iv_siteId i) (iv_currencyCode i) (iv_createdBy i) st_overdue (iv_invoiceNumber i)
    (iv_issueDate i) (iv_dueDate i) (iv_money i)
    (mkMarks (mk_paidAt k) (Some asOf) (mk_voidedAt k) (mk_voidReason k) (mk_firstViewedAt k) (mk_viewedAt k))
    (iv_parties i) (iv_notes i) (iv_termsAndConditions i) (iv_replacesInvoiceId i) (iv_replacedByInvoiceId i) (iv_evidenceVersion i) (iv_depositDue i).

(** The sweep selects without a lock. *)
Definition overdue_due (asOf : Z) (d : Db) : list string :=
  map fst (List.filter (fun e : string * Invoice => sweep_due (utc_day_string asOf) d (snd e)) (map_to_list (db_invoices d))).

(** It then marks by id, whatever the row has become. *)
Definition mark_overdue (asOf : Z) (due : list string) : M unit :=
  for_each (fun id => update_invoice id (overdue_row asOf)) due.

Definition runOverdueSweep (asOf : Z) : M nat :=
  do! due := read (overdue_due asOf) in
  do! _ := mark_overdue asOf due in
  ret (List.length due).

Definition viewed_row (now : Z) (i : Invoice) : Invoice :=
  let k := iv_marks i in
  mkInvoice (iv_partnerId i) (iv_orgId i) (iv_siteId i) (iv_currencyCode i) (iv_createdBy i) (iv_status i) (iv_invoiceNumber i)
    (iv_issueDate i) (iv_dueDate i) (iv_money i)
    (mkMarks (mk_paidAt k) (mk_markedOverdueAt k) (mk_voidedAt k) (mk_voidReason k)
       (match mk_firstViewedAt k with Some t => Some t | None => Some now end) (Some now))
    (iv_parties i) (iv_notes i) (iv_termsAndConditions i) (iv_replacesInvoiceId i) (iv_replacedByInvoiceId i) (iv_evidenceVersion i) (iv_depositDue i).

Definition markViewed (now : Z) (invoiceId : string) (orgId : option string) : M unit :=
  do! inv := getOwnedInvoiceOr404 invoiceId in
  do! _ := match orgId with Some o => require (String.eqb (iv_orgId inv) o) INVOICE_NOT_FOUND | None => ret tt end in
  update_invoice invoiceId (viewed_row now).
