(* ===== verification/StripeReconcile.v ===== *)
(** * Checkout and reconciliation ([invoiceCheckout.ts], [stripeReconcile.ts],
      [stripeReversalState.ts], [stripeFinancialEventPoller.ts], [stripeSettle.ts],
      [stripeWebhook.ts], [jobs/stripeReconcileSweep.ts])

    Payment links, captures, refunds and disputes as the provider reports them.
    What the provider says (sessions, events, retrieved charges) is an argument;
    a payment link is two transactions, with anything in between.  Rows that the
    source reads again under a lock are read once: a transaction runs alone. *)

From Stdlib Require Import QArith Qround.
From S2P Require Import Prelude JsString JsNumber Currency QuoteMath IsoDate ContractMath ContractCoverage InvoiceMath BillingDb InvoiceService StripeSessions StripeReversal InvoiceLifecycle.
From stdpp Require Import base gmap strings list.

Local Open Scope string_scope.
Local Open Scope Z_scope.
Local Open Scope billing_scope.

Definition isNone {A} (x : option A) : bool := match x with None => true | Some _ => false end.

Definition throw {A} (message : string) : M A := fun _ => Err (Thrown message).

(** ** Connections *)

Definition getConnectionByAccount (stripeAccountId : string) (d : Db) : option StripeConnection :=
  List.find (fun c => String.eqb (sc_stripeAccountId c) stripeAccountId) (rf_stripeConnections (db_ref d)).

(** The account whose key a partner charges with. *)
Definition getPartnerStripeClient (partnerId : string) (d : Db) : option string :=
  match List.find (fun c => String.eqb (sc_partnerId c) partnerId) (rf_stripeConnections (db_ref d)) with
  | Some c => if sc_connected c then Some (sc_stripeAccountId c) else None
  | None => None
  end.

Definition with_connections (cs : list StripeConnection) (r : Reference) : Reference :=
  mkReference (rf_organizations r) (rf_partners r) (rf_catalogItems r) (rf_orgPricing r) (rf_bookPrices r) (rf_bundleComponents r)
    (rf_tickets r) (rf_devices r) (rf_deviceGroups r) (rf_sites r) (rf_seats r) (rf_paymentMappings r) (rf_quickbooks r)
    (rf_revocationObserveOnly r) cs.

Definition set_ref x (d : Db) : Db :=
  mkDb x (db_invoices d) (db_lines d) (db_lineDevices d) (db_payments d) (db_entries d) (db_parts d) (db_contracts d)
    (db_contractLines d) (db_periods d) (db_outcomes d) (db_notices d) (db_sequences d) (db_stripe d) (db_stripeEvents d) (db_next d).

Definition markDisconnectedByAccount (stripeAccountId : string) : M unit :=
  modify (fun d => set_ref (with_connections
    (map (fun c => if String.eqb (sc_stripeAccountId c) stripeAccountId
                   then mkConnection (sc_id c) (sc_partnerId c) (sc_stripeAccountId c) (sc_livemode c) false else c)
       (rf_stripeConnections (db_ref d))) (db_ref d)) d).

(** ** Rows of [invoice_stripe_payments] *)

(** The unique indexes and the check of the table. *)
Definition stripe_constraints (rows : list StripeRow) : bool :=
  forallb (fun r => negb (bool_decide (sr_status r = sp_succeeded)) || is_linked r) rows &&
  forallb (fun r => (List.length (List.filter (fun q => String.eqb (sr_stripeObjectId q) (sr_stripeObjectId r)) rows) <=? 1)%nat) rows &&
  forallb (fun r => match sr_stripePaymentIntentId r with
                    | None => true
                    | Some pi => (List.length (List.filter (fun q => opt_eqb (sr_stripePaymentIntentId q) (Some pi) &&
                                     String.eqb (sr_stripeAccountId q) (sr_stripeAccountId r)) rows) <=? 1)%nat
                    end) rows.

Definition checked_stripe : M unit :=
  do! ok := read (fun d => stripe_constraints (db_stripe d)) in pg_check ok.

Definition by_id (mappingId : string) (r : StripeRow) : bool := String.eqb (sr_id r) mappingId.

Definition unlinked_by_id (mappingId : string) (r : StripeRow) : bool := by_id mappingId r && negb (is_linked r).

Definition with_charge (status : StripeStatus) (paymentId : option string) (reversal : Reversal) (r : StripeRow) : StripeRow :=
  mkStripe (sr_id r) (sr_orgId r) (sr_invoiceId r) paymentId (sr_stripeAccountId r) (sr_stripeObjectType r)
    (sr_stripeObjectId r) (sr_stripePaymentIntentId r) (sr_amount r) (sr_currency r) status reversal
    (sr_paymentReceivedAt r) (sr_createdAt r) (sr_revocation r).

Definition with_status (status : StripeStatus) (r : StripeRow) : StripeRow :=
  with_charge status (sr_invoicePaymentId r) (sr_reversal r) r.

Definition captured (paymentId paymentIntentId receivedAt : string) (r : StripeRow) : StripeRow :=
  mkStripe (sr_id r) (sr_orgId r) (sr_invoiceId r) (Some paymentId) (sr_stripeAccountId r) (sr_stripeObjectType r)
    (sr_stripeObjectId r) (Some paymentIntentId) (sr_amount r) (sr_currency r) sp_succeeded (sr_reversal r)
    (Some receivedAt) (sr_createdAt r) (sr_revocation r).

(** ** Payment links *)

Definition PAYABLE (s : InvoiceStatus) : bool := match s with st_sent | st_partially_paid | st_overdue => true | _ => false end.

(** What the handler keeps while the provider creates the session. *)
Record PayLinkOffer := mkOffer {
  of_invoiceId : string; of_invoice : Invoice; of_amount : string; of_isDeposit : bool; of_stripeAccountId : string;
  of_userId : option string }.

Definition offerPayLink (invoiceId : string) (actor : InvoiceActor) : M PayLinkOffer :=
  do! inv := getOwnedInvoiceOr404 invoiceId in
  do! _ := requireOrgAccess actor (iv_orgId inv) in
  do! _ := requireSiteAccess actor (iv_siteId inv) in
  do! _ := require (PAYABLE (iv_status inv)) NOT_PAYABLE in
  do! _ := assertNoPendingRevocation invoiceId in
  do! chargeNow := lift_throw (computeChargeNow
       {| dc_depositDue := iv_depositDue inv; dc_amountPaid := im_amountPaid (iv_money inv); dc_balance := im_balance (iv_money inv) |}
       (iv_currencyCode inv)) in
  do! chargeMinor := lift_throw (toMinorUnits (Str (fst chargeNow)) (iv_currencyCode inv)) in
  do! _ := require (negb (js_le chargeMinor (ofZ 0))) NOTHING_TO_PAY in
  do! account := read (getPartnerStripeClient (iv_partnerId inv)) in
  match account with
  | None => fail STRIPE_NOT_CONNECTED
  | Some stripeAccountId => ret (mkOffer invoiceId inv (fst chargeNow) (snd chargeNow) stripeAccountId (ac_userId actor))
  end.

(** The session the provider created. *)
Record CreatedSession := mkSession { sn_id : string; sn_paymentIntent : option string }.

(** The mapping is written before a raced revocation is refused. *)
Definition commitPayLink `{Uuids} (now : Z) (offer : PayLinkOffer) (session : CreatedSession) : M bool :=
  let inv := of_invoice offer in
  do! current := read (fun d => existsb (fun c => String.eqb (sc_partnerId c) (iv_partnerId inv) &&
       String.eqb (sc_stripeAccountId c) (of_stripeAccountId offer) && sc_connected c) (rf_stripeConnections (db_ref d))) in
  do! _ := require current STRIPE_NOT_CONNECTED in
  do! raced := read (fun d => existsb (fun r => String.eqb (sr_invoiceId r) (of_invoiceId offer) &&
       bool_decide (sr_stripeObjectType r = ot_checkout_session) && bool_decide (rk_state (sr_revocation r) = rs_requested)) (db_stripe d)) in
  do! exists_ := read (fun d => match db_invoices d !! of_invoiceId offer with Some _ => true | None => false end) in
  do! _ := pg_check exists_ in
  do! id := mint in
  do! amount := lift (pg_numeric (of_amount offer)) in
  do! _ := modify (fun d => set_stripe (db_stripe d ++
       [mkStripe id (iv_orgId inv) (of_invoiceId offer) None (of_stripeAccountId offer) ot_checkout_session (sn_id session)
          (sn_paymentIntent session) amount (iv_currencyCode inv) sp_pending no_reversal None now no_revocation])%list d) in
  do! _ := checked_stripe in
  do! _ := if raced then markSessionRevocationRequestedInTx now (sn_id session) "raced_revocation" else ret tt in
  ret raced.

(** The caller refuses a raced link once its mapping is durable. *)
Definition finishPayLink `{Uuids} (now : Z) (offer : PayLinkOffer) (session : CreatedSession) : Run unit :=
  run! raced := tx (commitPayLink now offer session) in
  tx (require (negb raced) STRIPE_REVOCATION_PENDING).

(** ** Refunds and disputes *)

Inductive PaymentChange := ch_reduced | ch_restored | ch_unchanged.
Inductive ApplyResult :=
| ar_pending | ar_ignored | ar_blocked | ar_already_processed | ar_applied (invoiceId : string) (change : PaymentChange).

Definition find_event (stripeEventId : string) (d : Db) : option FinancialEvent :=
  List.find (fun e => String.eqb (ff_stripeEventId (fe_facts e)) stripeEventId) (db_stripeEvents d).

Definition update_event (stripeEventId : string) (f : FinancialEvent -> FinancialEvent) : M unit :=
  modify (fun d => set_stripeEvents
    (map (fun e => if String.eqb (ff_stripeEventId (fe_facts e)) stripeEventId then f e else e) (db_stripeEvents d)) d).

Definition settle_event (stripeEventId : string) (status : FinancialEventStatus) (lastError : option string) (r : ApplyResult) : M ApplyResult :=
  do! _ := update_event stripeEventId (settledEvent status lastError) in ret r.

Definition retry_event (now : Z) (stripeEventId reason : string) : M ApplyResult :=
  do! _ := update_event stripeEventId (fun e => pendingRetryUpdate now e reason) in ret ar_pending.

(** A whole number of minor units, which [Math.round] always returns. *)
Definition whole_number (n : num) : result string Z :=
  match n with
  | Fin q => if Qeq_bool q (inject_Z (Qfloor q)) then Ok (Qfloor q) else Err "not an integer"
  | _ => Err "not an integer"
  end.

Definition minor_amount (amount currency : string) : M Z :=
  do! n := lift_throw (toMinorUnits (Str amount) currency) in lift_throw (whole_number n).

(** A payment amount in minor units, as the column keeps it. *)
Definition payment_amount (minor : Z) (currency : string) : M string :=
  do! s := lift_throw (fromMinorUnits (Num (ofZ minor)) currency) in
  do! amount := lift (pg_numeric s) in
  do! _ := pg_check (js_gt (js_Number amount) (ofZ 0)) in
  ret amount.

Definition with_amount (amount : string) (p : Payment) : Payment :=
  mkPayment (py_id p) (py_invoiceId p) (py_orgId p) amount (py_method p) (py_reference p) (py_receivedAt p) (py_recordedBy p) (py_note p).

(** The payment that stands for what is left of the charge: removed, rewritten,
    or restored. Returns the link and what was there before. *)
Definition write_payment `{Uuids} (mapping : StripeRow) (status : StripeStatus) (reversal : Reversal) (target : Z) : M (option string * Z) :=
  match sr_invoicePaymentId mapping with
  | Some paymentId =>
      do! found := read (fun d => List.find (fun p => String.eqb (py_id p) paymentId) (db_payments d)) in
      match found with
      | None => throw "Linked Stripe invoice payment is missing"
      | Some payment =>
          do! previous := minor_amount (py_amount payment) (sr_currency mapping) in
          if target =? 0 then
            do! _ := update_stripe (by_id (sr_id mapping)) (with_charge status None reversal) in
            do! _ := checked_stripe in
            do! _ := modify (fun d => set_payments (List.filter (fun p => negb (String.eqb (py_id p) paymentId)) (db_payments d)) d) in
            ret (None, previous)
          else
            do! amount := payment_amount target (sr_currency mapping) in
            do! _ := modify (fun d => set_payments
                 (map (fun p => if String.eqb (py_id p) paymentId then with_amount amount p else p) (db_payments d)) d) in
            ret (Some paymentId, previous)
      end
  | None =>
      if 0 <? target then
        do! id := mint in
        do! amount := payment_amount target (sr_currency mapping) in
        do! _ := modify (fun d => set_payments (db_payments d ++
             [mkPayment id (sr_invoiceId mapping) (sr_orgId mapping) amount "card" (sr_stripePaymentIntentId mapping)
                (match sr_paymentReceivedAt mapping with Some s => s | None => utc_day_string (sr_createdAt mapping) end)
                None (Some "Restored after Stripe dispute resolution")])%list d) in
        ret (Some id, 0)
      else ret (None, 0)
  end.

(** The event on the mapping it was bound to. *)
Definition apply_to_mapping `{Uuids} (now : Z) (event : FinancialEvent) (mapping : StripeRow) : M ApplyResult :=
  let facts := fe_facts event in
  let eventId := ff_stripeEventId facts in
  let block reason := settle_event eventId fs_blocked (Some reason) ar_blocked in
  do! row := read (fun d => db_invoices d !! sr_invoiceId mapping) in
  match row with
  | None => throw "Invoice not found"
  | Some invoice =>
      do! current := read (fun d => existsb (fun c => String.eqb (sc_id c) (fe_stripeConnectionId event) &&
           String.eqb (sc_partnerId c) (ff_partnerId facts) && String.eqb (sc_stripeAccountId c) (ff_stripeAccountId facts) &&
           Bool.eqb (sc_livemode c) (ff_livemode facts)) (rf_stripeConnections (db_ref d))) in
      if negb current then block "connection_binding_stale"
      else if negb (String.eqb (iv_partnerId invoice) (ff_partnerId facts) && String.eqb (sr_stripeAccountId mapping) (ff_stripeAccountId facts))
      then block "partner_or_account_binding_mismatch"
      else if negb (String.eqb (toUpperCase (sr_currency mapping)) (toUpperCase (ff_currency facts))) then block "currency_mismatch"
      else
        do! originalMinor := minor_amount (sr_amount mapping) (sr_currency mapping) in
        if match ff_chargeAmountMinor facts with Some n => negb (n =? originalMinor) | None => false end then block "charge_amount_mismatch"
        else if negb (is_linked mapping) && match sr_status mapping with sp_pending | sp_failed => true | _ => false end
        then retry_event now eventId "payment_capture_not_linked"
        else
          match observe originalMinor (sr_reversal mapping) facts with
          | Err reason => block reason
          | Ok reversal =>
              let target := targetMinor originalMinor reversal in
              let status := nextStatus originalMinor reversal in
              do! written := write_payment mapping status reversal target in
              do! _ := if is_linked mapping && (target =? 0) then ret tt
                       else do! _ := update_stripe (by_id (sr_id mapping)) (with_charge status (fst written) reversal) in checked_stripe in
              do! _ := recomputeInvoiceStatus now (sr_invoiceId mapping) in
              settle_event eventId fs_applied None (ar_applied (sr_invoiceId mapping)
                (if target <? snd written then ch_reduced else if snd written <? target then ch_restored else ch_unchanged))
          end
  end.

(** An event that is neither applied nor ignored yet. *)
Definition apply_open `{Uuids} (now : Z) (event : FinancialEvent) : M ApplyResult :=
  let facts := fe_facts event in
  let eventId := ff_stripeEventId facts in
  if isNone (ff_refundedAmountMinor facts) && isNone (ff_disputeFundsWithdrawn facts)
  then settle_event eventId fs_ignored None ar_ignored
  else
    match ff_paymentIntentId facts with
    | None => settle_event eventId fs_blocked (Some "Event has no PaymentIntent binding") ar_blocked
    | Some pi =>
        do! mappings := read (fun d => List.filter (fun r => String.eqb (sr_stripeAccountId r) (ff_stripeAccountId facts) &&
             opt_eqb (sr_stripePaymentIntentId r) (Some pi)) (db_stripe d)) in
        match firstn 2 mappings with
        | [] => retry_event now eventId "payment_mapping_not_ready"
        | [mapping] => apply_to_mapping now event mapping
        | _ => settle_event eventId fs_blocked (Some "ambiguous_payment_mapping") ar_blocked
        end
    end.

Definition applyStripeFinancialEvent `{Uuids} (now : Z) (stripeEventId : string) : M ApplyResult :=
  do! found := read (find_event stripeEventId) in
  match found with
  | None => throw "Stripe financial event is not durable"
  | Some event =>
      match fe_status event with
      | fs_applied | fs_ignored => ret ar_already_processed
      | fs_pending | fs_blocked => apply_open now event
      end
  end.

Fixpoint apply_each `{Uuids} (now : Z) (ids : list string) : Run unit :=
  match ids with
  | [] => done tt
  | id :: rest => run! _ := tx (applyStripeFinancialEvent now id) in apply_each now rest
  end.

Definition by_created (a b : FinancialEvent) : bool := ff_providerCreated (fe_facts a) <=? ff_providerCreated (fe_facts b).

Definition event_ids (es : list FinancialEvent) : list string := map (fun e => ff_stripeEventId (fe_facts e)) es.

Definition processPendingStripeFinancialEventsForPayment `{Uuids} (now : Z) (stripeAccountId paymentIntentId : string) : Run unit :=
  run! pending := tx (read (fun d => sort_by by_created (List.filter (fun e => bool_decide (fe_status e = fs_pending) &&
       String.eqb (ff_stripeAccountId (fe_facts e)) stripeAccountId && opt_eqb (ff_paymentIntentId (fe_facts e)) (Some paymentIntentId))
       (db_stripeEvents d)))) in
  apply_each now (event_ids pending).

(** The next attempt first, rows without one last, then in provider order. *)
Definition retry_order (a b : FinancialEvent) : bool :=
  match fe_nextAttemptAt a, fe_nextAttemptAt b with
  | Some x, Some y => (x <? y) || ((x =? y) && by_created a b)
  | Some _, None => true
  | None, Some _ => false
  | None, None => by_created a b
  end.

(** One row of the sweep: a failure is caught and counted. *)
Definition attempt_event `{Uuids} (now : Z) (id : string) : Run unit :=
  catch (run! _ := tx (applyStripeFinancialEvent now id) in done tt)
    (fun _ => tx (modify (fun d => set_stripeEvents
       (map (fun e => if String.eqb (ff_stripeEventId (fe_facts e)) id && bool_decide (fe_status e = fs_pending)
                      then pendingRetryUpdate now e "apply_error" else e) (db_stripeEvents d)) d))).

Definition processPendingStripeFinancialEvents `{Uuids} (now : Z) (limit : nat) : Run unit :=
  run! pending := tx (read (fun d => firstn limit (sort_by retry_order (List.filter (fun e => bool_decide (fe_status e = fs_pending) &&
       match fe_nextAttemptAt e with None => true | Some t => t <=? now end) (db_stripeEvents d))))) in
  run_each (attempt_event now) (event_ids pending).

(** ** The event inbox *)

#[export] Instance facts_eq_dec : EqDecision FinancialFacts.
Proof. solve_decision. Defined.

Definition exactNonNegativeInteger (value : option Z) : M unit :=
  match value with None => ret tt | Some n => if isSafeInteger n && (0 <=? n) then ret tt else throw "Invalid Stripe amount" end.

Definition is_currency_code (s : string) : bool :=
  (String.length s =? 3)%nat && forallb (fun c => Nat.leb 65 (nat_of_ascii c) && Nat.leb (nat_of_ascii c) 90) (list_ascii_of_string s).

Definition with_currency (currency : string) (f : FinancialFacts) : FinancialFacts :=
  mkFacts (ff_partnerId f) (ff_stripeAccountId f) (ff_stripeEventId f) (ff_eventType f) (ff_livemode f) (ff_providerCreated f)
    (ff_paymentIntentId f) (ff_chargeId f) (ff_disputeId f) currency (ff_chargeAmountMinor f) (ff_refundedAmountMinor f)
    (ff_disputeAmountMinor f) (ff_disputeFundsWithdrawn f).

Definition bound_connection (event : FinancialFacts) (d : Db) : option StripeConnection :=
  List.find (fun c => String.eqb (sc_partnerId c) (ff_partnerId event) && String.eqb (sc_stripeAccountId c) (ff_stripeAccountId event))
    (rf_stripeConnections (db_ref d)).

(** Inserts the event unless its id is taken. The digest of the payload is
    modelled by the payload: equal digests mean equal facts. *)
Definition store_event (now : Z) (event : FinancialFacts) (quarantineReason : option string) : M unit :=
  do! connection := read (bound_connection event) in
  match connection with
  | None => throw "Stripe financial event failed connection/livemode binding"
  | Some c =>
      if negb (Bool.eqb (sc_livemode c) (ff_livemode event)) then throw "Stripe financial event failed connection/livemode binding"
      else
        do! _ := exactNonNegativeInteger (ff_chargeAmountMinor event) in
        do! _ := exactNonNegativeInteger (ff_refundedAmountMinor event) in
        do! _ := exactNonNegativeInteger (ff_disputeAmountMinor event) in
        do! known := read (find_event (ff_stripeEventId event)) in
        match known with
        | Some _ => ret tt
        | None => modify (fun d => set_stripeEvents (db_stripeEvents d ++
            [if isNone (truthy (ff_paymentIntentId event)) then mkFinancialEvent event (sc_id c) fs_blocked 1 quarantineReason None
             else mkFinancialEvent event (sc_id c) fs_pending 0 None (Some now)])%list d)
        end
  end.

Definition ingestStripeFinancialEvent `{Uuids} (now : Z) (event : FinancialFacts) (quarantineReason : option string) : Run ApplyResult :=
  let currency := toUpperCase (ff_currency event) in
  let stored := with_currency currency event in
  let unbound := isNone (truthy (ff_paymentIntentId event)) in
  run! _ := tx (
    if String.eqb (ff_stripeEventId event) "" || String.eqb (ff_stripeAccountId event) "" then throw "Stripe financial event is missing a durable identity or account binding"
    else if unbound && isNone (truthy quarantineReason) then throw "Stripe financial event has no PaymentIntent binding and no quarantine reason"
    else if negb (isSafeInteger (ff_providerCreated event) && (0 <=? ff_providerCreated event)) then throw "Stripe financial event has an invalid provider timestamp"
    else if negb (is_currency_code currency) then throw "Stripe financial event has an invalid currency"
    else store_event now stored quarantineReason) in
  run! durable := tx (read (find_event (ff_stripeEventId event))) in
  if match durable with Some e => bool_decide (fe_facts e = stored) | None => false end
  then if unbound then done ar_blocked else tx (applyStripeFinancialEvent now (ff_stripeEventId event))
  else tx (throw "Stripe event identity was reused with different financial data").

(** ** Captures *)

Record CaptureInput := mkCapture {
  ci_stripeObjectId : string; ci_stripePaymentIntentId : string; ci_stripeAccountId : string; ci_amount : string;
  ci_currency : string; ci_receivedAt : option string }.

Inductive ReconcileOutcome :=
| ro_noop (invoiceId : string)
| ro_terminal (invoiceId reason : string)
| ro_recorded (invoiceId paymentId : string) (paid : bool).

Definition capture_cents (v : string) : num := math_round (js_mul (js_Number v) (ofZ 100)).

(** Why a capture can never be recorded. *)
Definition terminal_reason (inv : Invoice) (mapping : StripeRow) (input : CaptureInput) : option string :=
  let currency := toUpperCase (ci_currency input) in
  match iv_status inv with
  | st_draft => Some "invoice is draft"
  | st_void => Some "invoice is void"
  | _ =>
      if negb (String.eqb currency (toUpperCase (iv_currencyCode inv))) then Some "currency mismatch"
      else if negb (String.eqb (sr_currency mapping) "") && negb (String.eqb currency (toUpperCase (sr_currency mapping))) then Some "currency mismatch"
      else if String.eqb (ci_stripeAccountId input) "" || negb (String.eqb (ci_stripeAccountId input) (sr_stripeAccountId mapping)) then Some "account mismatch"
      else if match truthy (sr_stripePaymentIntentId mapping) with Some pi => negb (String.eqb pi (ci_stripePaymentIntentId input)) | None => false end
      then Some "payment intent mismatch"
      else if negb (js_eq (capture_cents (ci_amount input)) (capture_cents (sr_amount mapping))) then Some "amount mismatch"
      else if js_gt (capture_cents (ci_amount input)) (capture_cents (im_balance (iv_money inv))) then Some "overpayment: payment exceeds balance"
      else None
  end.

Definition markMapping (mappingId : string) (status : StripeStatus) : M unit :=
  update_stripe (by_id mappingId) (with_status status).

(** The payment, its link, the siblings and the header in one transaction. *)
Definition capture `{Uuids} (now : Z) (input : CaptureInput) (inv : Invoice) (mapping : StripeRow) : M ReconcileOutcome :=
  let invoiceId := sr_invoiceId mapping in
  let receivedAt := match ci_receivedAt input with Some s => s | None => utc_day_string now end in
  do! id := mint in
  do! amount := lift (pg_numeric (toFixed 2 (js_Number (ci_amount input)))) in
  do! _ := pg_check (js_gt (js_Number amount) (ofZ 0)) in
  do! _ := modify (fun d => set_payments (db_payments d ++
       [mkPayment id invoiceId (iv_orgId inv) amount "card" (Some (ci_stripePaymentIntentId input)) receivedAt None None])%list d) in
  do! linked := read (fun d => List.length (List.filter (unlinked_by_id (sr_id mapping)) (db_stripe d))) in
  do! _ := if (linked =? 1)%nat then ret tt else throw "Mapping changed under the payment lock" in
  do! _ := update_stripe (unlinked_by_id (sr_id mapping)) (captured id (ci_stripePaymentIntentId input) receivedAt) in
  do! _ := checked_stripe in
  do! _ := markSiblingRevocationIntentInTx now invoiceId (ci_stripeObjectId input) in
  do! _ := recomputeInvoiceStatus now invoiceId in
  do! updated := read (fun d => db_invoices d !! invoiceId) in
  ret (ro_recorded invoiceId id (match updated with Some i => match iv_status i with st_paid => true | _ => false end | None => false end)).

Definition recordStripePayment_tx `{Uuids} (now : Z) (input : CaptureInput) : M ReconcileOutcome :=
  do! found := read (fun d => List.find (fun r => String.eqb (sr_stripeObjectId r) (ci_stripeObjectId input)) (db_stripe d)) in
  match found with
  | None => throw "No mapping for stripe object"
  | Some mapping =>
      if is_linked mapping then ret (ro_noop (sr_invoiceId mapping))
      else
        do! row := read (fun d => db_invoices d !! sr_invoiceId mapping) in
        match row with
        | None => throw "Invoice not found"
        | Some inv =>
            match sr_status mapping with
            | sp_failed | sp_refunded | sp_disputed => ret (ro_noop (sr_invoiceId mapping))
            | sp_partially_refunded | sp_partially_disputed => throw "Partially reversed mapping lost its linked payment"
            | sp_pending | sp_succeeded =>
                match terminal_reason inv mapping input with
                | Some reason => do! _ := markMapping (sr_id mapping) sp_failed in ret (ro_terminal (sr_invoiceId mapping) reason)
                | None => capture now input inv mapping
                end
            end
        end
  end.

(** A reversal that came before the capture is applied after it commits; its
    failure is caught. *)
Definition recordStripePayment `{Uuids} (now : Z) (input : CaptureInput) : Run ReconcileOutcome :=
  run! outcome := tx (recordStripePayment_tx now input) in
  run! _ := match outcome with
            | ro_recorded _ _ _ =>
                catch (processPendingStripeFinancialEventsForPayment now (ci_stripeAccountId input) (ci_stripePaymentIntentId input)) (fun _ => done tt)
            | _ => done tt
            end in
  done outcome.

(** A checkout session as the provider describes it. *)
Record CheckoutSession := mkCheckout {
  ck_id : string; ck_paid : bool; ck_paymentIntent : option string; ck_amountTotal : option Z; ck_currency : option string }.

(** What of a session is recorded: nothing unless it is paid. *)
Definition session_capture (stripeAccountId : string) (s : CheckoutSession) : M (option CaptureInput) :=
  let amountCents := match ck_amountTotal s with Some n => n | None => 0 end in
  let currency := toUpperCase (match ck_currency s with Some c => c | None => "usd" end) in
  match truthy (ck_paymentIntent s) with
  | Some pi =>
      if negb (ck_paid s) || (amountCents <=? 0) then ret None
      else do! amount := lift_throw (fromMinorUnits (Num (ofZ amountCents)) currency) in
           ret (Some (mkCapture (ck_id s) pi stripeAccountId amount currency None))
  | None => ret None
  end.

Definition settleCheckoutSession `{Uuids} (now : Z) (partnerId : string) (session : CheckoutSession) : Run bool :=
  run! client := tx (read (getPartnerStripeClient partnerId)) in
  match client with
  | None => tx (throw "connect Stripe first")
  | Some stripeAccountId =>
      run! input := tx (session_capture stripeAccountId session) in
      match input with
      | None => done false
      | Some c =>
          run! _ := recordStripePayment now c in
          run! mapping := tx (read (fun d => List.find (fun r => String.eqb (sr_stripeObjectId r) (ck_id session) &&
               bool_decide (sr_stripeObjectType r = ot_checkout_session)) (db_stripe d))) in
          run! _ := match mapping with
                    | Some r => match rk_state (sr_revocation r) with
                                | rs_active | rs_legacy_unbounded => done tt
                                | _ => tx (markSessionChargedRepair (ck_id session))
                                end
                    | None => done tt
                    end in
          done true
      end
  end.

(** ** The reconcile sweep *)

Definition MIN_AGE : Z := 2 * 60 * 1000.
Definition MAX_AGE : Z := 7 * 24 * 60 * 60 * 1000.

Definition unsettled (now : Z) (d : Db) : list (string * string) :=
  let due r := bool_decide (sr_status r = sp_pending) && negb (is_linked r) && bool_decide (sr_stripeObjectType r = ot_checkout_session) &&
               (sr_createdAt r <? now - MIN_AGE) && (now - MAX_AGE <? sr_createdAt r) in
  firstn MAX_PER_RUN (omap (fun r => match db_invoices d !! sr_invoiceId r with
                                     | Some i => Some (iv_partnerId i, sr_stripeObjectId r)
                                     | None => None
                                     end)
    (sort_by (fun a b => sr_createdAt a <=? sr_createdAt b) (List.filter due (db_stripe d)))).

(** The provider answers for a session, or the call fails and the row waits. *)
Definition reconcilePendingStripePayments `{Uuids} (now : Z) (retrieve : string -> option CheckoutSession) : Run unit :=
  run! rows := tx (read (unsettled now)) in
  run_each (fun row => match retrieve (snd row) with
                       | None => done tt
                       | Some s => catch (run! _ := settleCheckoutSession now (fst row) s in done tt) (fun _ => done tt)
                       end) rows.

(** ** Provider events *)

Record Charge := mkCharge {
  cg_id : string; cg_paymentIntent : option string; cg_currency : string; cg_amount : Z; cg_amountRefunded : Z }.
Record Dispute := mkDispute {
  dp_id : string; dp_charge : option string; dp_paymentIntent : option string; dp_currency : string; dp_amount : Z; dp_status : string }.
Inductive DisputeEvent := de_created | de_updated | de_closed | de_funds_withdrawn | de_funds_reinstated.
Inductive ReversalObject := charge_refunded (c : Charge) | dispute_event (kind : DisputeEvent) (d : Dispute).

Record ReversalEvent := mkReversalEvent {
  re_id : string; re_account : option string; re_livemode : bool; re_created : Z; re_object : ReversalObject }.

Definition dispute_type (k : DisputeEvent) : string :=
  match k with
  | de_created => "charge.dispute.created" | de_updated => "charge.dispute.updated" | de_closed => "charge.dispute.closed"
  | de_funds_withdrawn => "charge.dispute.funds_withdrawn" | de_funds_reinstated => "charge.dispute.funds_reinstated"
  end.

Definition funds_withdrawn (k : DisputeEvent) (status : string) : option bool :=
  match k with
  | de_funds_withdrawn => Some true
  | de_funds_reinstated => Some false
  | de_closed =>
      if String.eqb status "won" || String.eqb status "warning_closed" || String.eqb status "prevented" then Some false
      else if String.eqb status "lost" then Some true else None
  | _ => None
  end.

(** The event in the columns of the inbox, with the reason it is quarantined
    for. [retrieve] is the charge's payment intent at the provider. *)
Definition normalizeStripeFinancialEvent (retrieve : string -> option string) (partnerId stripeAccountId : string) (event : ReversalEvent)
    : result string (FinancialFacts * option string) :=
  if match truthy (re_account event) with Some a => negb (String.eqb a stripeAccountId) | None => false end
  then Err "Stripe event account does not match the credential-bound account"
  else
    Ok match re_object event with
       | charge_refunded c =>
           let pi := truthy (cg_paymentIntent c) in
           (mkFacts partnerId stripeAccountId (re_id event) "charge.refunded" (re_livemode event) (re_created event) pi (Some (cg_id c)) None
              (cg_currency c) (Some (cg_amount c)) (Some (cg_amountRefunded c)) None None,
            if isNone pi then Some ("Refund event " ++ re_id event ++ " has no PaymentIntent binding") else None)
       | dispute_event k dp =>
           let pi := match truthy (dp_paymentIntent dp), truthy (dp_charge dp) with
                     | Some p, _ => Some p
                     | None, Some c => truthy (retrieve c)
                     | None, None => None
                     end in
           (mkFacts partnerId stripeAccountId (re_id event) (dispute_type k) (re_livemode event) (re_created event) pi (truthy (dp_charge dp))
              (Some (dp_id dp)) (dp_currency dp) None None (Some (dp_amount dp)) (funds_withdrawn k (dp_status dp)),
            if isNone pi then Some ("Dispute event " ++ re_id event ++ " has no PaymentIntent binding") else None)
       end.

(** ** The webhook *)

Inductive StripeEvent :=
| ev_checkout (account : option string) (livemode : bool) (session : CheckoutSession)
| ev_payment_failed (account : option string) (livemode : bool) (paymentIntentId : string)
| ev_reversal (event : ReversalEvent)
| ev_deauthorized (account : option string)
| ev_other.

(** A money-moving event needs a known account in its own mode. *)
Definition money_connection (account : option string) (livemode : bool) : M (option StripeConnection) :=
  read (fun d => match truthy account with
                 | None => None
                 | Some a => match getConnectionByAccount a d with
                             | Some c => if Bool.eqb (sc_livemode c) livemode then Some c else None
                             | None => None
                             end
                 end).

Definition payment_failed (paymentIntentId : string) : M unit :=
  do! found := read (fun d => List.find (fun r => opt_eqb (sr_stripePaymentIntentId r) (Some paymentIntentId)) (db_stripe d)) in
  match found with None => ret tt | Some m => markMapping (sr_id m) sp_failed end.

Definition handleStripeEvent `{Uuids} (now : Z) (retrieve : string -> option string) (event : StripeEvent) : Run unit :=
  match event with
  | ev_checkout account livemode session =>
      run! connection := tx (money_connection account livemode) in
      match connection with
      | None => done tt
      | Some _ =>
          run! input := tx (session_capture (match account with Some a => a | None => "" end) session) in
          match input with None => done tt | Some c => run! _ := recordStripePayment now c in done tt end
      end
  | ev_payment_failed account livemode pi =>
      run! connection := tx (money_connection account livemode) in
      match connection with None => done tt | Some _ => tx (payment_failed pi) end
  | ev_reversal e =>
      run! connection := tx (money_connection (re_account e) (re_livemode e)) in
      match connection, re_account e with
      | Some c, Some account =>
          run! normalized := tx (lift_throw (normalizeStripeFinancialEvent retrieve (sc_partnerId c) account e)) in
          run! _ := ingestStripeFinancialEvent now (fst normalized) (snd normalized) in done tt
      | _, _ => done tt
      end
  | ev_deauthorized account =>
      match truthy account with Some a => tx (markDisconnectedByAccount a) | None => done tt end
  | ev_other => done tt
  end.
