(* ===== verification/PaymentPull.v ===== *)
(** * Payments pulled from the accounting service
      ([services/accounting/accountingPaymentPull.ts], [accountingCurrency.ts])

    What the pull writes to the payments: a payment QuickBooks reports is
    inserted, rewritten when QuickBooks edits it, and removed when QuickBooks
    does, each under the invoice's lock and with the status derived again. It
    does not ask whether the invoice still owes that much. Which remote payment
    stands for which row (the entity mappings) is decided outside these tables: a
    call names the invoice, and the pulled payment its mapping claims, if any. The
    branches that leave the payments alone (pull switched off, a replay, a payment
    of Breeze's own echoing back) are not calls of this model. *)

From S2P Require Import Prelude JsString JsNumber Currency QuoteMath QuoteSpec ContractCoverage InvoiceMath BillingDb InvoiceService StripeSessions StripeReversal InvoiceLifecycle StripeReconcile.
From stdpp Require Import base gmap strings list.

Local Open Scope string_scope.
Local Open Scope Z_scope.
Local Open Scope billing_scope.

(** ** What QuickBooks reports *)

Record PaymentLine := mkPaymentLine {
  pl_remotePaymentId : string; pl_amountMinor : Z; pl_currency : string; pl_txnDate : string;
  pl_paymentMethodName : option string; pl_paymentRefNum : option string }.

Definition QBO_PAYMENT_METHOD_NAMES : list (string * string) :=
  [("cash", "cash"); ("check", "check"); ("cheque", "check"); ("credit card", "card"); ("card", "card"); ("debit card", "card");
   ("visa", "card"); ("mastercard", "card"); ("master card", "card"); ("amex", "card"); ("american express", "card");
   ("discover", "card"); ("diners club", "card")].

Definition mapQboPaymentMethod (name : option string) : string :=
  match name with
  | None => "other"
  | Some n => match List.find (fun e => String.eqb (fst e) (toLowerCase (trim n))) QBO_PAYMENT_METHOD_NAMES with
              | Some (_, method) => method
              | None => "other"
              end
  end.

Definition normalizeCurrencyCode (value : string) : option string :=
  match toUpperCase (trim value) with EmptyString => None | code => Some code end.

(** The largest integer a double counts exactly to. *)
Definition MAX_SAFE_INTEGER : Z := 2 ^ 53 - 1.

(** The currency a payment is accepted in, and its amount in it. *)
Definition normalizeAccountingPayment (line : PaymentLine) (invoiceCurrency : string) : option (string * Z) :=
  match normalizeCurrencyCode (pl_currency line), normalizeCurrencyCode invoiceCurrency with
  | Some p, Some i =>
      if String.eqb p i && (0 <? pl_amountMinor line) && (pl_amountMinor line <=? MAX_SAFE_INTEGER)
      then Some (p, pl_amountMinor line) else None
  | _, _ => None
  end.

(** ** The two transactions *)

Inductive PullOutcome := pu_applied | pu_updated | pu_reversed | pu_skipped_unmapped | pu_currency_mismatch | pu_invoice_void.

Definition PULLED_NOTE : string := "Pulled from QuickBooks".

(** A row the pull inserted: no one recorded it, and it carries the note. *)
Definition pulled (p : Payment) : bool :=
  match py_recordedBy p with None => opt_eqb (py_note p) (Some PULLED_NOTE) | Some _ => false end.

Definition pulled_as (amount : string) (line : PaymentLine) (p : Payment) : Payment :=
  mkPayment (py_id p) (py_invoiceId p) (py_orgId p) amount (mapQboPaymentMethod (pl_paymentMethodName line))
    (Some (match pl_paymentRefNum line with Some r => r | None => pl_remotePaymentId line end)) (pl_txnDate line)
    (py_recordedBy p) (py_note p).

(** [applyInsideTransaction] from the lock on. [existing] is the payment the
    mapping of this remote payment and invoice claims. *)
Definition applyAccountingPayment `{Uuids} (now : Z) (partnerId invoiceId : string) (existing : option string) (line : PaymentLine) : M PullOutcome :=
  do! row := read (fun d => db_invoices d !! invoiceId) in
  match row with
  | None => ret pu_skipped_unmapped
  | Some inv =>
      if negb (String.eqb (iv_partnerId inv) partnerId) then ret pu_skipped_unmapped
      else match iv_status inv with
      | st_void => ret pu_invoice_void
      | _ =>
          if String.eqb (trim (pl_txnDate line)) "" then throw "QuickBooks payment reported no transaction date"
          else match normalizeAccountingPayment line (iv_currencyCode inv) with
          | None => ret pu_currency_mismatch
          | Some (currency, minor) =>
              match existing with
              | Some paymentId =>
                  do! amount := payment_amount minor currency in
                  do! found := read (fun d => List.find (fun p => String.eqb (py_id p) paymentId) (db_payments d)) in
                  match found with
                  | None => throw "payment mapping points at no invoice_payments row"
                  | Some _ =>
                      do! _ := modify (fun d => set_payments
                        (map (fun p => if String.eqb (py_id p) paymentId then pulled_as amount line p else p) (db_payments d)) d) in
                      do! _ := recomputeInvoiceStatus now invoiceId in
                      ret pu_updated
                  end
              | None =>
                  do! id := mint in
                  do! amount := payment_amount minor currency in
                  let new := mkPayment id invoiceId (iv_orgId inv) "" "" None "" None (Some PULLED_NOTE) in
                  do! _ := modify (fun d => set_payments (db_payments d ++ [pulled_as amount line new])%list d) in
                  do! _ := recomputeInvoiceStatus now invoiceId in
                  ret pu_applied
              end
          end
      end
  end.

(** [reverseOneInsideTransaction] of a QuickBooks-origin mapping: the payment was
    deleted there, or no longer settles this invoice. *)
Definition reverseAccountingPayment (now : Z) (partnerId paymentId : string) : M (option PullOutcome) :=
  do! found := read (fun d => List.find (fun p => String.eqb (py_id p) paymentId) (db_payments d)) in
  match found with
  | None => ret None
  | Some pay =>
      do! row := read (fun d => db_invoices d !! py_invoiceId pay) in
      match row with
      | None => ret None
      | Some inv =>
          if negb (String.eqb (iv_partnerId inv) partnerId) then ret None
          else
            do! _ := modify (fun d => set_payments (List.filter (fun p => negb (String.eqb (py_id p) paymentId)) (db_payments d)) d) in
            do! _ := recomputeInvoiceStatus now (py_invoiceId pay) in
            ret (Some pu_reversed)
      end
  end.

(** ** What the mappings promise *)

(** A QuickBooks-origin payment mapping is written with the payment it claims, on
    the invoice the remote id names; a charge's payment never has one. *)
Definition pull_claim (invoiceId paymentId : string) (d : Db) : bool :=
  existsb (fun p => String.eqb (py_id p) paymentId && String.eqb (py_invoiceId p) invoiceId && pulled p) (db_payments d) &&
  negb (existsb (fun r => opt_eqb (sr_invoicePaymentId r) (Some paymentId)) (db_stripe d)).

(** Only an issued invoice is pushed, so only an issued invoice is mapped
    ([accountingInvoicePush.ts], [invoice_not_pushable]). *)
Definition pull_target (invoiceId : string) (existing : option string) (d : Db) : bool :=
  match db_invoices d !! invoiceId with
  | Some inv => match iv_status inv with st_draft => false | _ => true end
  | None => true
  end &&
  match existing with Some paymentId => pull_claim invoiceId paymentId d | None => true end.

(** ** The payments that are Breeze's own *)

(** The amounts [cs] of the payments [ps], without the pulled ones. *)
Fixpoint own (ps : list Payment) (cs : list Z) : list Z :=
  match ps, cs with
  | p :: ps', c :: cs' => if pulled p then own ps' cs' else c :: own ps' cs'
  | _, _ => []
  end.

Lemma own_cons p ps c cs : zsum (own (p :: ps) (c :: cs)) = (if pulled p then 0 else c) + zsum (own ps cs).
Proof. cbn [own]. destruct (pulled p); reflexivity. Qed.

Lemma own_le ps : forall cs, List.Forall (fun c => 0 < c) cs -> 0 <= zsum (own ps cs) <= zsum cs.
Proof.
  induction ps as [|p ps IH]; intros cs Hc; pose proof (zsum_pos_bounds cs Hc).
  - change (own [] cs) with (@nil Z). change (zsum []) with 0. lia.
  - destruct cs as [|c cs]; [cbn; lia|]. inversion Hc as [|? ? Hc0 Hr]; subst. pose proof (IH cs Hr).
    rewrite own_cons. change (zsum (c :: cs)) with (c + zsum cs). destruct (pulled p); lia.
Qed.

Lemma own_app ps p : forall cs c, List.length ps = List.length cs ->
  zsum (own (ps ++ [p])%list (cs ++ [c])%list) = zsum (own ps cs) + (if pulled p then 0 else c).
Proof.
  induction ps as [|q ps IH]; intros [|x cs] c E; try discriminate E.
  - cbn [app]. rewrite own_cons. cbn. lia.
  - injection E as E. cbn [app]. rewrite !own_cons, (IH _ _ E). lia.
Qed.

