(* ===== verification/InvoiceInvariants.v ===== *)
(** * Invariants of the invoice service

    What the draft writers may touch ([draft_work]), and the operations on
    issued invoices against the invariant [Billing]: payments add up, paid never
    exceeds the total, and no time entry or part is on two live invoices. *)

From Stdlib Require Import QArith Qround Qabs Lqa.
From S2P Require Import Prelude JsString JsNumber Currency IsoDate QuoteMath QuoteSpec InvoiceMath ContractMath TimeBilling CatalogPricing ContractCoverage BillingDb InvoiceService StripeSessions StripeReversal InvoiceLifecycle StripeReconcile PaymentPull.
From stdpp Require Import base gmap strings list pretty.

Local Open Scope string_scope.
Local Open Scope Z_scope.
Local Open Scope billing_scope.

#[export] Instance invoice_status_eq_dec : EqDecision InvoiceStatus.
Proof. solve_decision. Defined.

(** ** Read-only operations *)

#[export] Instance requirePartner_ro a : ReadOnly (requirePartner a).
Proof. unfold requirePartner. solve_ro. Qed.
#[export] Instance requireOrgAccess_ro a o : ReadOnly (requireOrgAccess a o).
Proof. unfold requireOrgAccess. solve_ro. Qed.
#[export] Instance requireSiteAccess_ro a o : ReadOnly (requireSiteAccess a o).
Proof. unfold requireSiteAccess. solve_ro. Qed.
#[export] Instance requireInvoiceAccess_ro a i : ReadOnly (requireInvoiceAccess a i).
Proof. unfold requireInvoiceAccess. solve_ro. Qed.
#[export] Instance getOwnedInvoiceOr404_ro i : ReadOnly (getOwnedInvoiceOr404 i).
Proof. unfold getOwnedInvoiceOr404. solve_ro. Qed.
#[export] Instance assertDraft_ro i : ReadOnly (assertDraft i).
Proof. unfold assertDraft. solve_ro. Qed.
#[export] Instance lockDraftInvoice_ro i : ReadOnly (lockDraftInvoice i).
Proof. unfold lockDraftInvoice. solve_ro. Qed.
#[export] Instance lockContract_ro i c a : ReadOnly (lockContractLineDestinationAndSource i c a).
Proof. unfold lockContractLineDestinationAndSource. solve_ro. Qed.
#[export] Instance lockOrg_ro o : ReadOnly (lockOrgStampingDefaults o).
Proof. unfold lockOrgStampingDefaults. solve_ro. Qed.
#[export] Instance effectiveRate_ro o : ReadOnly (effectiveRateForOrg o).
Proof. unfold effectiveRateForOrg. solve_ro. Qed.
#[export] Instance getOwnedItem_ro i p : ReadOnly (getOwnedItemOr404 i p).
Proof. unfold getOwnedItemOr404. solve_ro. Qed.
#[export] Instance price_or_gap_ro i c o a : ReadOnly (price_or_gap i c o a).
Proof. unfold price_or_gap. solve_ro. Qed.
#[export] Instance resolvePrice_ro i c o a : ReadOnly (resolvePrice i c o a).
Proof. unfold resolvePrice. solve_ro. Qed.
#[export] Instance resolveInvoicePrice_ro i c o a : ReadOnly (resolveInvoicePrice i c o a).
Proof. unfold resolveInvoicePrice. solve_ro. Qed.
#[export] Instance bundleEconomics_ro i c o a : ReadOnly (computeBundleEconomics i c o a).
Proof. unfold computeBundleEconomics. solve_ro. Qed.
#[export] Instance assertRepresentable_ro v c : ReadOnly (assertRepresentable v c).
Proof. unfold assertRepresentable. solve_ro. Qed.
#[export] Instance assertRepresentable_opt_ro v c : ReadOnly (assertRepresentable_opt v c).
Proof. unfold assertRepresentable_opt. solve_ro. Qed.
#[export] Instance contract_line_price_ro i v a : ReadOnly (contract_line_price i v a).
Proof. unfold contract_line_price. solve_ro. Qed.
#[export] Instance validateBillable_ro i l t : ReadOnly (validateBillable i l t).
Proof. unfold validateBillable. solve_ro. Qed.
#[export] Instance check_contract_line_ro i d l : ReadOnly (check_contract_line i d l).
Proof. unfold check_contract_line. solve_ro. Qed.
#[export] Instance validate_sources_ro i l : ReadOnly (validate_sources i l).
Proof. unfold validate_sources. solve_ro. Qed.
#[export] Instance assertRevoked_ro i : ReadOnly (assertInvoiceSessionsRevoked i).
Proof. unfold assertInvoiceSessionsRevoked. solve_ro. Qed.
#[export] Instance check_payment_amount_ro b a c : ReadOnly (check_payment_amount b a c).
Proof. unfold check_payment_amount. cbv zeta. solve_ro. Qed.
#[export] Instance accepts_payment_ro i : ReadOnly (accepts_payment i).
Proof. unfold accepts_payment. solve_ro. Qed.

(** Identifies the states around a read-only step. *)
Ltac drop_ro :=
  repeat match goal with
  | G : ?x ?d = Ok (_, ?s) |- _ =>
      is_var s; let R := fresh in
      assert (R : ReadOnly x) by (solve [cbv beta zeta; solve_ro]); pose proof (R _ _ _ G); clear R; subst s
  end.

Lemma getOwned_ok i d inv d' : getOwnedInvoiceOr404 i d = Ok (inv, d') -> d' = d /\ db_invoices d !! i = Some inv.
Proof.
  unfold getOwnedInvoiceOr404. intros E. run_m. destruct (db_invoices d !! i) eqn:F; run_m. auto.
Qed.

Lemma is_draft_true s : is_draft s = true -> s = st_draft.
Proof. destruct s; (reflexivity || discriminate). Qed.

Lemma lockDraft_ok i d inv d' :
  lockDraftInvoice i d = Ok (inv, d') -> d' = d /\ db_invoices d !! i = Some inv /\ iv_status inv = st_draft.
Proof.
  unfold lockDraftInvoice, assertDraft. intros E. run_m.
  match goal with G : getOwnedInvoiceOr404 _ _ = _ |- _ => apply getOwned_ok in G as [-> G] end.
  split; [reflexivity|]. split; [assumption|]. apply is_draft_true. assumption.
Qed.

(** ** What draft writers touch *)

Section Drafts.
Context `{Uuids}.

Definition ids_below (n : nat) (ids : list string) : Prop := forall x, In x ids -> exists k, (k < n)%nat /\ x = uuid k.

Definition draft_ok (inv : Invoice) : Prop :=
  iv_status inv = st_draft /\ iv_invoiceNumber inv = None /\ mk_voidedAt (iv_marks inv) = None /\
  im_amountPaid (iv_money inv) = "0.00".

(** An id that was handed out. *)
Definition minted (i : string) (d : Db) : Prop := exists k, (k < db_next d)%nat /\ i = uuid k.

(** A line's parent is a minted id, and no line of another invoice. *)
Definition parent_ok (parent : option string) (i : string) (d : Db) : Prop :=
  forall p, parent = Some p -> minted p d /\ forall q, In q (db_lines d) -> il_id q = p -> il_invoiceId q = i.

(** Ids are minted, lines have distinct ids and their parents on the same invoice,
    and drafts look like drafts. *)
Record wf (d : Db) : Prop := {
  wf_lines : List.NoDup (map il_id (db_lines d));
  wf_line_ids : ids_below (db_next d) (map il_id (db_lines d));
  wf_line_invoices : forall l, In l (db_lines d) -> minted (il_invoiceId l) d;
  wf_invoice_ids : forall j, is_Some (db_invoices d !! j) -> minted j d;
  wf_drafts : forall j inv, db_invoices d !! j = Some inv -> iv_status inv = st_draft -> draft_ok inv;
  wf_parents : forall l, In l (db_lines d) -> parent_ok (lv_parentLineId (il_values l)) (il_invoiceId l) d;
}.

(** The invoice is not issued: a draft, or no row. *)
Definition unissued (i : string) (d : Db) : Prop := forall inv, db_invoices d !! i = Some inv -> iv_status inv = st_draft.

(** The destination of a draft writer. *)
Definition not_issued (i : string) (d : Db) : Prop := unissued i d /\ minted i d.

(** What identifies a billed period in the contract ledger. *)
Definition period_key (p : BillingPeriod) : string * string := (bp_contractId p, bp_periodStart p).

(** The same row up to the replacement links, which the delete of the linked
    draft clears. *)
Definition same_document (inv inv' : Invoice) : Prop := exists a b, inv' = relink a b inv.

#[global] Instance same_document_preorder : PreOrder same_document.
Proof.
  split.
  - intros inv. exists (iv_replacesInvoiceId inv), (iv_replacedByInvoiceId inv). destruct inv. reflexivity.
  - intros x y z (a & b & ->) (a' & b' & ->). exists a', b'. reflexivity.
Qed.

(** Only draft rows, their lines and the id supply change: an issued invoice keeps
    its row, replacement links aside, and its lines as they are. *)
Record draft_work (d d' : Db) : Prop := {
  dw_payments : db_payments d' = db_payments d;
  dw_entries : db_entries d' = db_entries d;
  dw_parts : db_parts d' = db_parts d;
  dw_contracts : db_contracts d' = db_contracts d;
  dw_clines : db_contractLines d' = db_contractLines d;
  dw_ref : db_ref d' = db_ref d;
  dw_periods : map period_key (db_periods d') = map period_key (db_periods d);
  dw_next : (db_next d <= db_next d')%nat;
  dw_stripe : exists p, db_stripe d' = List.filter p (db_stripe d) /\
    (forall r inv, db_invoices d !! sr_invoiceId r = Some inv -> iv_status inv <> st_draft -> p r = true);
  dw_kept : forall j inv, db_invoices d !! j = Some inv -> iv_status inv <> st_draft ->
    exists inv', db_invoices d' !! j = Some inv' /\ same_document inv inv';
  dw_rows : forall j inv, db_invoices d' !! j = Some inv ->
    (exists inv0, db_invoices d !! j = Some inv0 /\ same_document inv0 inv) \/ draft_ok inv;
  dw_lines : forall j inv, db_invoices d !! j = Some inv -> iv_status inv <> st_draft -> lines_of j d' = lines_of j d;
  dw_wf : wf d -> wf d';
}.

Lemma filter_true {A} (l : list A) : List.filter (fun _ => true) l = l.
Proof. induction l as [|x l IH]; simpl; congruence. Qed.

Lemma filter_both {A} (p q : A -> bool) l : List.filter p (List.filter q l) = List.filter (fun x => q x && p x) l.
Proof. induction l as [|x l IH]; [reflexivity|]. simpl. destruct (q x); simpl; [destruct (p x)|]; rewrite IH; reflexivity. Qed.

Lemma filter_all {A} (p : A -> bool) l : (forall x, In x l -> p x = true) -> List.filter p l = l.
Proof.
  induction l as [|x l IH]; intros Hp; [reflexivity|]. simpl. rewrite (Hp x) by (left; reflexivity).
  f_equal. apply IH. intros y Hy. apply Hp. right. exact Hy.
Qed.

(** Work that leaves the links and the charges alone. *)
Lemma dw_exact d d' :
  db_payments d' = db_payments d -> db_entries d' = db_entries d -> db_parts d' = db_parts d ->
  db_contracts d' = db_contracts d -> db_contractLines d' = db_contractLines d -> db_ref d' = db_ref d ->
  map period_key (db_periods d') = map period_key (db_periods d) -> (db_next d <= db_next d')%nat -> db_stripe d' = db_stripe d ->
  (forall j inv, db_invoices d !! j = Some inv -> iv_status inv <> st_draft -> db_invoices d' !! j = Some inv) ->
  (forall j inv, db_invoices d' !! j = Some inv -> db_invoices d !! j = Some inv \/ draft_ok inv) ->
  (forall j inv, db_invoices d !! j = Some inv -> iv_status inv <> st_draft -> lines_of j d' = lines_of j d) -> (wf d -> wf d') ->
  draft_work d d'.
Proof.
  intros ? ? ? ? ? ? ? ? S K R ? ?. constructor; try assumption.
  - exists (fun _ => true). rewrite S, filter_true. auto.
  - intros j inv E Hs. exists inv. split; [apply K; assumption|reflexivity].
  - intros j inv E. destruct (R _ _ E) as [E'|E']; [left; exists inv; split; [exact E'|reflexivity]|right; exact E'].
Qed.

Lemma dw_refl d : draft_work d d.
Proof. apply dw_exact; auto. Qed.

Lemma dw_not_issued i d d' : draft_work d d' -> not_issued i d -> not_issued i d'.
Proof.
  intros W [Hi (k & Hk & Ek)]. split; [|exists k; pose proof (dw_next _ _ W); split; [lia|exact Ek]].
  intros inv Hinv. destruct (dw_rows _ _ W _ _ Hinv) as [(inv0 & E & a & b & ->)|[E _]]; [apply (Hi _ E)|exact E].
Qed.

Lemma dw_trans d1 d2 d3 : draft_work d1 d2 -> draft_work d2 d3 -> draft_work d1 d3.
Proof.
  intros A B. constructor.
  - rewrite (dw_payments _ _ B). apply A.
  - rewrite (dw_entries _ _ B). apply A.
  - rewrite (dw_parts _ _ B). apply A.
  - rewrite (dw_contracts _ _ B). apply A.
  - rewrite (dw_clines _ _ B). apply A.
  - rewrite (dw_ref _ _ B). apply A.
  - rewrite (dw_periods _ _ B). apply A.
  - pose proof (dw_next _ _ A). pose proof (dw_next _ _ B). lia.
  - destruct (dw_stripe _ _ A) as (q & Eq & Hq), (dw_stripe _ _ B) as (p & Ep & Hp). exists (fun r => q r && p r).
    rewrite Ep, Eq, filter_both. split; [reflexivity|]. intros r inv E Hs. apply andb_true_iff. split; [exact (Hq _ _ E Hs)|].
    destruct (dw_kept _ _ A _ _ E Hs) as (v & Ev & a & b & ->). exact (Hp _ _ Ev Hs).
  - intros j inv E Hs. destruct (dw_kept _ _ A _ _ E Hs) as (v & Ev & a & b & ->).
    destruct (dw_kept _ _ B _ _ Ev Hs) as (w & Ew & S). exists w. split; [exact Ew|]. etransitivity; [exists a, b; reflexivity|exact S].
  - intros j inv E. destruct (dw_rows _ _ B _ _ E) as [(v & Ev & a & b & ->)|E']; [|right; exact E'].
    destruct (dw_rows _ _ A _ _ Ev) as [(w & Ew & S)|(D1 & D2 & D3 & D4)]; [|right; repeat split; assumption].
    left. exists w. split; [exact Ew|]. etransitivity; [exact S|exists a, b; reflexivity].
  - intros j inv E Hs. destruct (dw_kept _ _ A _ _ E Hs) as (v & Ev & a & b & ->).
    rewrite (dw_lines _ _ B _ _ Ev Hs). exact (dw_lines _ _ A _ _ E Hs).
  - intros W. apply (dw_wf _ _ B), (dw_wf _ _ A), W.
Qed.

#[export] Instance dw_preorder : PreOrder draft_work.
Proof. split; [exact dw_refl|exact dw_trans]. Qed.

(** ** The primitive writes *)

Lemma mint_ok d x d' : mint d = Ok (x, d') -> x = uuid (db_next d) /\ d' = set_next (S (db_next d)) d.
Proof. intros [= <- <-]. auto. Qed.

Lemma wf_fresh_line d : wf d -> ~ In (uuid (db_next d)) (map il_id (db_lines d)).
Proof. intros W Hin. destruct (wf_line_ids _ W _ Hin) as (k & Hk & E). apply uuid_inj in E. lia. Qed.

Lemma wf_fresh_invoice d : wf d -> db_invoices d !! uuid (db_next d) = None.
Proof.
  intros W. destruct (db_invoices d !! uuid (db_next d)) eqn:E; [|reflexivity]. exfalso.
  destruct (wf_invoice_ids _ W (uuid (db_next d)) ltac:(eauto)) as (k & Hk & F). apply uuid_inj in F. lia.
Qed.

Lemma ids_below_mono n m l : (n <= m)%nat -> ids_below n l -> ids_below m l.
Proof. intros Hnm Hb x Hx. destruct (Hb x Hx) as (k & Hk & ->). exists k. split; [lia|reflexivity]. Qed.

Lemma minted_mono i d d' : (db_next d <= db_next d')%nat -> minted i d -> minted i d'.
Proof. intros Hn (k & Hk & E). exists k. split; [lia|exact E]. Qed.

Lemma parent_ok_mono p i d d' : db_lines d' = db_lines d -> (db_next d <= db_next d')%nat -> parent_ok p i d -> parent_ok p i d'.
Proof. intros El Hn Hp q E. destruct (Hp q E) as [Hm Hq]. split; [exact (minted_mono _ _ _ Hn Hm)|rewrite El; exact Hq]. Qed.

Lemma wf_next d m : (db_next d <= m)%nat -> wf d -> wf (set_next m d).
Proof.
  intros Hm [L I K V D P]. constructor; cbn; [exact L|eapply ids_below_mono; eassumption| | |exact D|].
  - intros l Hl. exact (minted_mono _ d (set_next m d) Hm (K l Hl)).
  - intros j Hj. exact (minted_mono _ d (set_next m d) Hm (V j Hj)).
  - intros l Hl p E. destruct (P l Hl p E) as [Hp Hq]. split; [exact (minted_mono _ d (set_next m d) Hm Hp)|exact Hq].
Qed.

Lemma mint_work d x d' : mint d = Ok (x, d') -> draft_work d d'.
Proof. intros E. apply mint_ok in E as [_ ->]. apply dw_exact; cbn; auto. apply wf_next. lia. Qed.

(** Writing a draft's row with a function that keeps it a draft. *)
Lemma update_draft_work i f d :
  not_issued i d -> (forall inv, draft_ok inv -> draft_ok (f inv)) ->
  wf d -> draft_work d (set_invoices (alter f i (db_invoices d)) d).
Proof.
  intros Hi Hf W. assert (R : forall j inv, alter f i (db_invoices d) !! j = Some inv ->
    db_invoices d !! j = Some inv \/ draft_ok inv).
  { intros j inv E. destruct (decide (j = i)) as [->|Hne]; [|rewrite lookup_alter_ne in E by congruence; auto].
    rewrite lookup_alter_eq in E. apply fmap_Some in E as (inv0 & E0 & ->). right.
    apply Hf, (wf_drafts _ W _ _ E0), Hi, E0. }
  apply dw_exact; cbn; auto.
  - intros j inv E Hs. rewrite lookup_alter_ne; [exact E|]. intros <-. apply Hs, Hi, E.
  - intros _. constructor; cbn; [apply W|apply W|apply W| | |apply W].
    + intros j [inv E]. destruct (decide (j = i)) as [->|Hne].
      * rewrite lookup_alter_eq in E. apply fmap_Some in E as (inv0 & E0 & _). apply (wf_invoice_ids _ W). eauto.
      * rewrite lookup_alter_ne in E by congruence. apply (wf_invoice_ids _ W). eauto.
    + intros j inv E Hs. destruct (R _ _ E) as [E'|E']; [apply (wf_drafts _ W _ _ E' Hs)|exact E'].
Qed.

(** Replacing the lines of drafts by others with the same or minted ids. *)
Lemma lines_work d ls :
  (forall l, In l ls -> minted (il_invoiceId l) d) ->
  (forall j inv, db_invoices d !! j = Some inv -> iv_status inv <> st_draft ->
     List.filter (fun l => String.eqb (il_invoiceId l) j) ls = lines_of j d) ->
  (wf d -> List.NoDup (map il_id ls) /\ ids_below (db_next d) (map il_id ls)) ->
  (wf d -> forall l, In l ls -> parent_ok (lv_parentLineId (il_values l)) (il_invoiceId l) (set_lines ls d)) ->
  draft_work d (set_lines ls d).
Proof.
  intros Hl Hj Hw Hp. apply dw_exact; cbn; auto.
  intros W. destruct (Hw W). constructor; cbn; [assumption|assumption|exact Hl|apply W|apply W|apply Hp, W].
Qed.

Lemma stored_parent v x : store_values v = Ok x -> lv_parentLineId x = lv_parentLineId v.
Proof. intros G. unfold store_values in G. repeat (apply rbind_ok in G as (? & _ & G)). injection G as <-. reflexivity. Qed.

Lemma parent_none i d : parent_ok None i d.
Proof. intros p [=]. Qed.

Lemma insert_line_with_work k i o sort v d l d' :
  not_issued i d -> wf d -> ~ In (uuid k) (map il_id (db_lines d)) -> (k < db_next d)%nat ->
  parent_ok (lv_parentLineId v) i d ->
  (forall q, In q (db_lines d) -> lv_parentLineId (il_values q) = Some (uuid k) -> il_invoiceId q = i) ->
  insert_line_with (uuid k) i o sort v d = Ok (l, d') ->
  draft_work d d' /\ il_sortOrder l = sort /\ db_lines d' = (db_lines d ++ [l])%list /\ il_id l = uuid k /\ il_invoiceId l = i /\
  db_next d' = db_next d /\ lv_parentLineId (il_values l) = lv_parentLineId v.
Proof.
  intros Hi W Hnew Hk Hp Hc E. unfold insert_line_with in E. run_m.
  match goal with G : store_values v = Ok ?x |- _ => assert (Ep : lv_parentLineId x = lv_parentLineId v)
    by exact (stored_parent _ _ G) end.
  split; [|repeat split; exact Ep]. apply lines_work.
  - intros l Hl. apply in_app_or in Hl as [Hl|[<-|[]]]; [apply (wf_line_invoices _ W), Hl|apply Hi].
  - intros j inv Hj Hs. rewrite List.filter_app. cbn. destruct (String.eqb_spec i j) as [->|Hne]; [|apply app_nil_r].
    elim Hs. apply Hi, Hj.
  - intros _. rewrite map_app. split.
    + apply List.NoDup_app; [apply W|repeat constructor; intros []|].
      intros y Hy [<-|[]]. contradiction.
    + intros y Hy. apply in_app_or in Hy as [Hy|[<-|[]]]; [apply (wf_line_ids _ W), Hy|eauto].
  - intros _ l Hl p E. apply in_app_or in Hl as [Hl|[<-|[]]].
    + destruct (wf_parents _ W l Hl p E) as [Hm Hq]. split; [exact Hm|]. cbn. intros q Hin Eq.
      apply in_app_or in Hin as [Hin|[<-|[]]]; [exact (Hq q Hin Eq)|]. cbn in *. symmetry. apply (Hc l Hl). congruence.
    + cbn in E. rewrite Ep in E. destruct (Hp p E) as [Hm Hq]. split; [exact Hm|]. cbn. intros q Hin Eq.
      apply in_app_or in Hin as [Hin|[<-|[]]]; [exact (Hq q Hin Eq)|reflexivity].
Qed.

(** A minted id no line has been given is no line's parent either. *)
Lemma wf_fresh_parent d q : wf d -> In q (db_lines d) -> lv_parentLineId (il_values q) <> Some (uuid (db_next d)).
Proof. intros W Hq E. destruct (wf_parents _ W q Hq _ E) as [(k & Hk & F) _]. apply uuid_inj in F. lia. Qed.

Lemma insert_line_work i o sort v d l d' :
  not_issued i d -> wf d -> parent_ok (lv_parentLineId v) i d -> insert_line i o sort v d = Ok (l, d') ->
  draft_work d d' /\ il_sortOrder l = sort /\ db_lines d' = (db_lines d ++ [l])%list /\ il_invoiceId l = i /\ minted (il_id l) d'.
Proof.
  intros Hi W Hp E. unfold insert_line in E. apply bind_ok in E as (id & d1 & Hm & E).
  pose proof (mint_work _ _ _ Hm) as W1. apply mint_ok in Hm as [-> ->].
  apply insert_line_with_work in E as (W2 & Hs & El & Ei & Ev & En & _).
  - split; [exact (dw_trans _ _ _ W1 W2)|]. split; [exact Hs|]. split; [exact El|]. split; [exact Ev|].
    exists (db_next d). rewrite En. cbn. split; [lia|exact Ei].
  - exact (dw_not_issued _ _ _ W1 Hi).
  - apply wf_next; [lia|exact W].
  - exact (wf_fresh_line d W).
  - cbn. lia.
  - intros p E'. destruct (Hp p E') as [Hm Hq]. split; [|exact Hq]. apply (minted_mono _ d); [cbn; lia|exact Hm].
  - intros q Hq E'. elim (wf_fresh_parent d q W Hq E').
Qed.

(** Lines with one id belong to one invoice. *)
Lemma same_id_line d l1 l2 : wf d -> In l1 (db_lines d) -> In l2 (db_lines d) -> il_id l1 = il_id l2 -> l1 = l2.
Proof.
  intros W H1 H2 E. pose proof (wf_lines _ W) as Hn. revert H1 H2 Hn. generalize (db_lines d). intros ls.
  induction ls as [|x ls IH]; [intros []|]. intros H1 H2 Hn. inversion Hn as [|? ? Hx Hr]; subst.
  destruct H1 as [->|H1], H2 as [->|H2]; [reflexivity| | |auto].
  - exfalso. apply Hx. rewrite E. apply in_map, H2.
  - exfalso. apply Hx. rewrite <- E. apply in_map, H1.
Qed.

Lemma update_line_work L v i existing d u d' :
  not_issued i d -> wf d -> In existing (db_lines d) -> il_id existing = L -> il_invoiceId existing = i ->
  lv_parentLineId v = lv_parentLineId (il_values existing) ->
  update_line L v d = Ok (u, d') -> draft_work d d'.
Proof.
  intros Hi W Hin HL Hinv Hpar E. unfold update_line in E. run_m.
  match goal with G : store_values v = Ok ?x |- _ => assert (Ep : lv_parentLineId x = lv_parentLineId (il_values existing))
    by (rewrite <- Hpar; exact (stored_parent _ _ G)) end.
  set (g := fun l => if String.eqb (il_id l) L then with_values x l else l).
  assert (Hid : forall l, il_id (g l) = il_id l /\ il_invoiceId (g l) = il_invoiceId l)
    by (intros l; unfold g; destruct (String.eqb _ _); split; reflexivity).
  assert (Hids : map il_id (map g (db_lines d)) = map il_id (db_lines d)) by (rewrite map_map; apply map_ext; apply Hid).
  assert (Hg : forall l, In l (db_lines d) -> (l = existing \/ g l = l) /\ lv_parentLineId (il_values (g l)) = lv_parentLineId (il_values l)).
  { intros l Hl. unfold g. destruct (String.eqb_spec (il_id l) L) as [F|F]; [|auto].
    rewrite (same_id_line d l existing W Hl Hin) by congruence. auto. }
  apply lines_work; fold g.
  - intros l Hl. apply in_map_iff in Hl as (l0 & <- & Hl0). rewrite (proj2 (Hid l0)). apply (wf_line_invoices _ W), Hl0.
  - intros j inv Hj Hs. rewrite filter_map_keep by (intros l _; rewrite (proj2 (Hid l)); reflexivity).
    change (List.filter _ (db_lines d)) with (lines_of j d). rewrite <- (map_id (lines_of j d)) at 2. apply map_ext_in. intros l Hl.
    unfold lines_of in Hl. apply filter_In in Hl as [Hl El]. apply String.eqb_eq in El.
    destruct (proj1 (Hg l Hl)) as [->|F]; [|exact F]. elim Hs. apply Hi. congruence.
  - intros _. rewrite Hids. split; apply W.
  - intros _ l Hl p F. apply in_map_iff in Hl as (l0 & <- & Hl0). rewrite (proj2 (Hg l0 Hl0)) in F.
    destruct (wf_parents _ W l0 Hl0 p F) as [Hm Hq]. split; [exact Hm|]. cbn. intros q Hq0 Eq.
    apply in_map_iff in Hq0 as (q0 & <- & Hq0). rewrite (proj2 (Hid q0)), (proj2 (Hid l0)). apply (Hq q0 Hq0).
    rewrite (proj1 (Hid q0)) in Eq. exact Eq.
Qed.

(** Deleting lines of drafts. *)
Lemma filter_lines_work p d :
  wf d -> (forall l inv, In l (db_lines d) -> db_invoices d !! il_invoiceId l = Some inv -> iv_status inv <> st_draft -> p l = true) ->
  draft_work d (set_lines (List.filter p (db_lines d)) d).
Proof.
  intros W Hp. apply lines_work.
  - intros l Hl. apply filter_In in Hl as [Hl _]. apply (wf_line_invoices _ W), Hl.
  - intros j inv Hj Hs. rewrite filter_filter_comm. apply filter_all. intros l Hl. apply filter_In in Hl as [Hl E].
    apply String.eqb_eq in E. apply (Hp l inv Hl); [rewrite E; exact Hj|exact Hs].
  - intros _. split; [apply NoDup_filter_map, W|].
    intros x Hx. apply in_map_iff in Hx as (y & <- & Hy). apply filter_In in Hy as [Hy _].
    apply (wf_line_ids _ W), in_map, Hy.
  - intros _ l Hl q E. apply filter_In in Hl as [Hl _]. destruct (wf_parents _ W l Hl q E) as [Hm Hq]. split; [exact Hm|].
    cbn. intros x Hx. apply filter_In in Hx as [Hx _]. exact (Hq x Hx).
Qed.

Lemma lineDevices_work rows d : draft_work d (set_lineDevices rows d).
Proof. apply dw_exact; auto. intros [A B C D F P]. constructor; [exact A|exact B|exact C|exact D|exact F|exact P]. Qed.

Lemma keep_lines_work p d :
  wf d -> (forall l inv, In l (db_lines d) -> db_invoices d !! il_invoiceId l = Some inv -> iv_status inv <> st_draft -> p l = true) ->
  draft_work d (keep_lines (List.filter p (db_lines d)) d).
Proof. intros W Hp. etransitivity; [apply (filter_lines_work p d W Hp)|apply lineDevices_work]. Qed.

(** The children of a deleted line go with it; they are on its invoice. *)
Lemma delete_line_work i L d : wf d -> not_issued i d -> draft_work d (keep_lines (delete_line i L (db_lines d)) d).
Proof.
  intros W Hi. unfold delete_line. destruct (existsb _ _) eqn:Eh.
  2: { etransitivity; [|apply lineDevices_work]. destruct d. apply dw_refl. }
  apply existsb_exists in Eh as (x & Hx & Eh). apply andb_true_iff in Eh as [E1 E2]. apply String.eqb_eq in E1, E2.
  apply keep_lines_work; [exact W|]. intros l inv Hl Hj Hs. apply negb_true_iff, orb_false_iff.
  assert (Hne : il_invoiceId l <> i) by (intros F; apply Hs, Hi; rewrite <- F; exact Hj). split.
  - apply andb_false_iff. right. apply String.eqb_neq, Hne.
  - destruct (lv_parentLineId (il_values l)) as [q|] eqn:Ep; [|reflexivity]. apply String.eqb_neq. intros ->.
    destruct (wf_parents _ W l Hl _ Ep) as [_ Hq]. apply Hne. rewrite <- E2. symmetry. exact (Hq x Hx E1).
Qed.

(** A fresh draft row under a minted id. *)
Lemma insert_invoice_work inv d id d' :
  wf d -> draft_ok inv -> insert_invoice inv d = Ok (id, d') ->
  draft_work d d' /\ not_issued id d' /\ db_invoices d' !! id = Some inv /\ db_invoices d !! id = None /\ db_lines d' = db_lines d.
Proof.
  intros W Hinv E. unfold insert_invoice in E. run_m.
  match goal with G : mint _ = _ |- _ => apply mint_ok in G as [-> ->] end.
  pose proof (wf_fresh_invoice _ W) as Hf. cbn.
  split; [|split; [|split; [apply lookup_insert_eq|split; [exact Hf|reflexivity]]]].
  - apply dw_exact; cbn; auto.
    + intros j v Hj _. rewrite lookup_insert_ne; [exact Hj|]. intros <-. congruence.
    + intros j v Hj. destruct (decide (j = uuid (db_next d))) as [->|Hne].
      * rewrite lookup_insert_eq in Hj. injection Hj as <-. auto.
      * rewrite lookup_insert_ne in Hj by congruence. auto.
    + intros _. destruct (wf_next d (S (db_next d)) ltac:(lia) W) as [A B K C D P]. cbn in *. constructor; cbn; [exact A|exact B|exact K| | |exact P].
      * intros j Hj. destruct (decide (j = uuid (db_next d))) as [->|Hne]; [exists (db_next d); cbn; split; [lia|reflexivity]|].
        rewrite lookup_insert_ne in Hj by congruence. apply C, Hj.
      * intros j v Hj Hs. destruct (decide (j = uuid (db_next d))) as [->|Hne].
        -- rewrite lookup_insert_eq in Hj. injection Hj as <-. exact Hinv.
        -- rewrite lookup_insert_ne in Hj by congruence. apply (D _ _ Hj Hs).
  - split; [|exists (db_next d); cbn; split; [lia|reflexivity]].
    intros v Hv. cbn in Hv. rewrite lookup_insert_eq in Hv. injection Hv as <-. apply Hinv.
Qed.

Lemma draft_row_ok p o s c u n t : draft_ok (draft_row p o s c u n t).
Proof. repeat split. Qed.

(** ** Totals *)

(** The header's money columns are the totals of the invoice's lines, at the
    tax rate it records. *)
Definition totals_current (i : string) (d : Db) : Prop :=
  exists inv t s x y,
    db_invoices d !! i = Some inv /\
    computeInvoiceTotals (map totals_row (lines_of i d)) (im_taxRate (iv_money inv)) (iv_currencyCode inv) = Ok t /\
    t = mkInvoiceTotals (fixed2 s) (fixed2 x) (fixed2 y) /\
    im_subtotal (iv_money inv) = fixed2 s /\ im_taxTotal (iv_money inv) = fixed2 x /\ im_total (iv_money inv) = fixed2 y /\
    im_balance (iv_money inv) = fixed2 y /\ whole_units (iv_currencyCode inv) y /\ Z.abs y < column_bound.

Lemma roundToCurrency_money a cur s : roundToCurrency a cur = Ok s -> exists c, s = fixed2 c /\ whole_units cur c.
Proof.
  unfold roundToCurrency. intros E. apply rbind_ok in E as (dd & Hd & E).
  pose proof (roundToCurrency_parses a _ cur (parsed _ _ Hd)) as R. unfold roundToCurrency in R. rewrite Hd in R. cbn [rbind] in R.
  rewrite R in E. injection E as <-. eexists. split; [reflexivity|]. eexists. reflexivity.
Qed.

Lemma invoice_totals_money lines r cur t :
  computeInvoiceTotals lines r cur = Ok t ->
  exists s x y, t = mkInvoiceTotals (fixed2 s) (fixed2 x) (fixed2 y) /\
    whole_units cur s /\ whole_units cur x /\ whole_units cur y.
Proof.
  unfold computeInvoiceTotals. destruct (sum_lines _ _) as [a b]. intros E.
  apply rbind_ok in E as (s & Hs & E). apply rbind_ok in E as (x & Hx & E). apply rbind_ok in E as (y & Hy & E).
  injection E as <-. apply roundToCurrency_money in Hs as (cs & -> & ?). apply roundToCurrency_money in Hx as (cx & -> & ?).
  apply roundToCurrency_money in Hy as (cy & -> & ?). exists cs, cx, cy. auto.
Qed.

Lemma fromCents_cents c : Z.abs c <= cents_bound -> fromCents (ofZ c) = fixed2 c.
Proof. intros E. exact (toFixed_cents c E). Qed.

Lemma cents_small c : Z.abs c < column_bound -> Z.abs c <= cents_bound.
Proof. unfold column_bound, cents_bound. lia. Qed.

(** The balance columns of a total [y] of which [p] is paid. *)
Lemma balance_cents y p :
  Z.abs y < column_bound -> Z.abs p < column_bound ->
  fromCents (js_sub (toCents (Some (Str (fixed2 y)))) (toCents (Some (Str (fixed2 p))))) = fixed2 (y - p).
Proof.
  intros Hy Hp. rewrite !toCents_money by (apply cents_small; assumption). unfold column_bound in *.
  rewrite js_sub_int by (unfold int_bound; lia). apply fromCents_cents. unfold cents_bound. lia.
Qed.

Lemma zero_text : "0.00" = fixed2 0.
Proof. reflexivity. Qed.

Lemma totals_money_ok t r m s x y :
  t = mkInvoiceTotals (fixed2 s) (fixed2 x) (fixed2 y) -> totals_money t r "0.00" = Ok m ->
  m = mkMoney (fixed2 s) r (fixed2 x) (fixed2 y) "0.00" (fixed2 y) /\ Z.abs y < column_bound.
Proof.
  intros -> E. unfold totals_money in E. cbn [it_subtotal it_taxTotal it_total] in E.
  apply rbind_ok in E as (s' & Hs & E). apply rbind_ok in E as (x' & Hx & E). apply rbind_ok in E as (y' & Hy & E).
  apply rbind_ok in E as (b & Hb & E). injection E as <-.
  apply pg_numeric_kept in Hs as [-> _], Hx as [-> _], Hy as [-> Hy].
  rewrite zero_text, balance_cents, Z.sub_0_r in Hb by (assumption || reflexivity).
  apply pg_numeric_kept in Hb as [-> _]. auto.
Qed.

Lemma locked_not_issued i d inv : wf d -> db_invoices d !! i = Some inv -> iv_status inv = st_draft -> not_issued i d.
Proof. intros W Hrow Hs. split; [intros v Hv; congruence|apply (wf_invoice_ids _ W); eauto]. Qed.

Lemma recompute_lines i o d u d' : recomputeInvoiceTotals i o d = Ok (u, d') -> db_lines d' = db_lines d.
Proof.
  intros E. unfold recomputeInvoiceTotals, assertDraft, update_invoice in E. run_m. drop_ro. reflexivity.
Qed.

Lemma recompute_work i o d u d' :
  wf d -> recomputeInvoiceTotals i o d = Ok (u, d') -> draft_work d d' /\ totals_current i d'.
Proof.
  intros W E. unfold recomputeInvoiceTotals, assertDraft, update_invoice in E. run_m. drop_ro.
  match goal with G : getOwnedInvoiceOr404 _ _ = Ok (?v, _) |- _ => apply getOwned_ok in G as [_ Hrow]; rename v into inv end.
  match goal with G : is_draft _ = true |- _ => apply is_draft_true in G; rename G into Hs end.
  destruct (wf_drafts _ W _ _ Hrow Hs) as (_ & Hn & Hv & Hp).
  match goal with G : computeInvoiceTotals _ _ _ = Ok ?t |- _ =>
    pose proof (invoice_totals_money _ _ _ _ G) as (s & x & y & Ht & Ws & Wx & Wy) end.
  match goal with G : totals_money _ _ _ = Ok _ |- _ => rewrite Hp in G; destruct (totals_money_ok _ _ _ _ _ _ Ht G) as [-> Hy] end.
  split.
  - apply update_draft_work; [|intros j (A & B & C & D); repeat split; assumption|exact W].
    exact (locked_not_issued _ _ _ W Hrow Hs).
  - eexists _, _, s, x, y. cbn. rewrite lookup_alter_eq, Hrow. split; [reflexivity|].
    split; [eassumption|]. cbn. repeat split; assumption.
Qed.

(** ** The draft operations *)

Lemma insertLineAndRecompute_work i o v d l d' :
  wf d -> not_issued i d -> parent_ok (lv_parentLineId v) i d -> insertLineAndRecompute i o v d = Ok (l, d') ->
  draft_work d d' /\ totals_current i d' /\ parent_ok (Some (il_id l)) i d'.
Proof.
  intros W Hi Hp E. unfold insertLineAndRecompute in E. run_m.
  match goal with G : insert_line _ _ _ _ _ = _ |- _ => apply insert_line_work in G as (W1 & _ & El & Ei & Hm); [|exact Hi|exact W|exact Hp] end.
  match goal with G : recomputeInvoiceTotals _ _ _ = _ |- _ => pose proof (recompute_lines _ _ _ _ _ G) as Er;
    apply recompute_work in G as [W2 Ht]; [|exact (dw_wf _ _ W1 W)] end.
  split; [exact (dw_trans _ _ _ W1 W2)|]. split; [exact Ht|].
  intros p [= <-]. split; [exact (minted_mono _ _ _ (dw_next _ _ W2) Hm)|]. intros q Hq Eq. rewrite Er in Hq.
  assert (Hl : In x1 (db_lines x2)) by (rewrite El; apply in_or_app; right; left; reflexivity).
  rewrite (same_id_line _ q x1 (dw_wf _ _ W1 W) Hq Hl Eq). exact Ei.
Qed.

(** A line without a parent. *)
Lemma insert_childless_work i o v d l d' :
  wf d -> not_issued i d -> lv_parentLineId v = None -> insertLineAndRecompute i o v d = Ok (l, d') -> draft_work d d' /\ totals_current i d'.
Proof.
  intros W Hi Hp E. apply insertLineAndRecompute_work in E as (W1 & Ht & _); [auto|exact W|exact Hi|rewrite Hp; apply parent_none].
Qed.

(** The guards of a draft writer, then its line and totals. *)
Ltac draft_prefix :=
  run_m; drop_ro; repeat match goal with
  | G : lockDraftInvoice _ _ = Ok (_, _) |- _ => apply lockDraft_ok in G as (_ & ? & ?)
  end.

Lemma addManualLine_work i input actor d l d' :
  wf d -> addManualLine i input actor d = Ok (l, d') -> draft_work d d' /\ totals_current i d'.
Proof.
  intros W E. unfold addManualLine in E. draft_prefix.
  eapply insert_childless_work; [exact W|eapply locked_not_issued; eassumption| |eassumption]; reflexivity.
Qed.

Lemma addCatalogLine_work i item q actor d l d' :
  wf d -> addCatalogLine i item q actor d = Ok (l, d') -> draft_work d d' /\ totals_current i d'.
Proof.
  intros W E. unfold addCatalogLine in E. draft_prefix.
  eapply insert_childless_work; [exact W|eapply locked_not_issued; eassumption| |eassumption]; reflexivity.
Qed.

Lemma lockContract_ok i c actor d inv ct d' :
  lockContractLineDestinationAndSource i c actor d = Ok ((inv, ct), d') ->
  d' = d /\ db_invoices d !! i = Some inv /\ iv_status inv = st_draft /\ db_contracts d !! c = Some ct /\ ct_orgId ct = iv_orgId inv.
Proof.
  intros E. unfold lockContractLineDestinationAndSource in E.
  apply bind_ok in E as (v & d1 & G & E). apply lockDraft_ok in G as (-> & Hrow & Hs).
  apply bind_ok in E as (u & d1 & G & E). pose proof (read_only _ _ _ G) as ->. run_m.
  destruct (db_contracts d !! c) as [ct'|] eqn:Ec; run_m.
  match goal with G : String.eqb _ _ = true |- _ => apply String.eqb_eq in G end. auto.
Qed.

Lemma addContractLine_work i input actor d r d' :
  wf d -> addContractLine i input actor d = Ok (r, d') -> draft_work d d' /\ totals_current i d'.
Proof.
  intros W E. unfold addContractLine in E. apply bind_ok in E as (? & ? & G & E). apply require_ok in G as [_ ->].
  apply bind_ok in E as ([inv ct] & d1 & G & E). apply lockContract_ok in G as (-> & Hrow & Hs & _ & _).
  apply bind_ok in E as (? & ? & G & E). apply require_ok in G as [_ ->].
  apply bind_ok in E as ([[[p tx] cb] pf] & d1 & G & E). pose proof (read_only _ _ _ G) as ->. run_m.
  eapply insert_childless_work; [exact W|eapply locked_not_issued; eassumption| |eassumption]; reflexivity.
Qed.

(** The children of a bundle line, under it on its invoice. *)
Lemma children_work i o inv parent comps : forall d u d',
  wf d -> not_issued i d -> parent_ok (Some (il_id parent)) i d ->
  for_each (fun c => do! _ := insert_line i o (il_sortOrder parent) (child_line inv parent c) in ret tt) comps d = Ok (u, d') ->
  draft_work d d'.
Proof.
  induction comps as [|c comps IH]; intros d u d' W Hi Hp E; cbn [for_each] in E; [run_m; reflexivity|].
  apply bind_ok in E as (? & d1 & G & E). apply bind_ok in G as (l & d2 & G & G'). run_m.
  apply insert_line_work in G as (W1 & _ & El & Ei & _); [|exact Hi|exact W|destruct c as [[b it] bc]; exact Hp].
  etransitivity; [exact W1|]. refine (IH _ _ _ (dw_wf _ _ W1 W) (dw_not_issued _ _ _ W1 Hi) _ E).
  intros p Ep. destruct (Hp p Ep) as [Hm Hq]. split; [exact (minted_mono _ _ _ (dw_next _ _ W1) Hm)|].
  intros q Hin Eq. rewrite El in Hin. apply in_app_or in Hin as [Hin|[<-|[]]]; [exact (Hq q Hin Eq)|exact Ei].
Qed.

Lemma for_each_work {A} (f : A -> M unit) i (P : A -> Prop) :
  (forall a d u d', P a -> wf d -> not_issued i d -> f a d = Ok (u, d') -> draft_work d d') ->
  forall l d u d', List.Forall P l -> wf d -> not_issued i d -> for_each f l d = Ok (u, d') -> draft_work d d'.
Proof.
  intros Hf l. induction l as [|x l IH]; intros d u d' Hp W Hi E; cbn in E; run_m; [reflexivity|].
  inversion Hp as [|? ? Hx Hr]; subst.
  match goal with G : f x d = Ok (_, ?s) |- _ => pose proof (Hf _ _ _ _ Hx W Hi G) as W1 end.
  etransitivity; [exact W1|]. eapply IH; [exact Hr|exact (dw_wf _ _ W1 W)|exact (dw_not_issued _ _ _ W1 Hi)|eassumption].
Qed.

Lemma addBundleLine_work i b q actor d l d' :
  wf d -> addBundleLine i b q actor d = Ok (l, d') -> draft_work d d' /\ totals_current i d'.
Proof.
  intros W E. unfold addBundleLine in E.
  apply bind_ok in E as (inv & d1 & G & E). apply lockDraft_ok in G as (-> & Hrow & Hs).
  apply bind_ok in E as (u & d1 & G & E). pose proof (read_only _ _ _ G) as ->. clear G.
  apply bind_ok in E as (econ & d1 & G & E). pose proof (read_only _ _ _ G) as ->. clear G.
  destruct (be_headlinePrice econ) as [price|]; [|discriminate E].
  pose proof (locked_not_issued _ _ _ W Hrow Hs) as Hi. run_m.
  match goal with G : insertLineAndRecompute _ _ _ _ = _ |- _ =>
    apply insertLineAndRecompute_work in G as (W1 & _ & Hp); [|exact W|exact Hi|apply parent_none] end.
  pose proof (dw_wf _ _ W1 W) as Wf1. pose proof (dw_not_issued _ _ _ W1 Hi) as Hi1.
  match goal with G : for_each _ _ ?s = Ok (_, ?s') |- _ => assert (W2 : draft_work s s') by exact (children_work _ _ _ _ _ _ _ _ Wf1 Hi1 Hp G) end.
  match goal with G : recomputeInvoiceTotals _ _ _ = _ |- _ =>
    apply recompute_work in G as [W3 Ht]; [|exact (dw_wf _ _ W2 Wf1)] end.
  split; [exact (dw_trans _ _ _ W1 (dw_trans _ _ _ W2 W3))|exact Ht].
Qed.

Lemma find_line i L d l : List.find (fun l => String.eqb (il_id l) L) (lines_of i d) = Some l ->
  In l (db_lines d) /\ il_id l = L /\ il_invoiceId l = i.
Proof.
  intros E. apply List.find_some in E as [Hin E]. unfold lines_of in Hin. apply filter_In in Hin as [Hin E2].
  apply String.eqb_eq in E, E2. auto.
Qed.

Lemma updateLine_work i L patch actor d r d' :
  wf d -> updateLine i L patch actor d = Ok (r, d') -> draft_work d d' /\ totals_current i d'.
Proof.
  intros W E. unfold updateLine in E.
  apply bind_ok in E as (inv & d1 & G & E). apply lockDraft_ok in G as (-> & Hrow & Hs).
  apply bind_ok in E as (u & d1 & G & E). pose proof (read_only _ _ _ G) as ->. clear G.
  apply bind_ok in E as (found & d1 & G & E). apply read_ok in G as [-> ->].
  destruct (List.find _ _) as [l|] eqn:Ef; [|run_m]. apply find_line in Ef as (Hin & HL & Hinv).
  apply bind_ok in E as (u' & d1 & G & E).
  assert (d1 = d) as -> by (revert G; destruct (lp_unitPrice patch); intros G; apply (read_only _ _ _ G)). run_m.
  match goal with G : update_line _ _ _ = _ |- _ =>
    apply (update_line_work L _ i l) in G as W1; [|eapply locked_not_issued; eassumption|exact W|exact Hin|exact HL|exact Hinv|reflexivity] end.
  match goal with G : recomputeInvoiceTotals _ _ _ = _ |- _ =>
    apply recompute_work in G as [W2 Ht]; [|exact (dw_wf _ _ W1 W)] end.
  drop_ro. split; [exact (dw_trans _ _ _ W1 W2)|exact Ht].
Qed.

Lemma removeLine_work i L actor d r d' :
  wf d -> removeLine i L actor d = Ok (r, d') -> draft_work d d' /\ totals_current i d'.
Proof.
  intros W E. unfold removeLine in E.
  apply bind_ok in E as (inv & d1 & G & E). apply lockDraft_ok in G as (-> & Hrow & Hs).
  apply bind_ok in E as (u & d1 & G & E). pose proof (read_only _ _ _ G) as ->. clear G. run_m.
  pose proof (delete_line_work i L d W (locked_not_issued _ _ _ W Hrow Hs)) as W1.
  match goal with G : recomputeInvoiceTotals _ _ _ = _ |- _ =>
    apply recompute_work in G as [W2 Ht]; [|exact (dw_wf _ _ W1 W)] end.
  drop_ro. split; [exact (dw_trans _ _ _ W1 W2)|exact Ht].
Qed.

Lemma updateInvoice_work i patch actor d r d' :
  wf d -> updateInvoice i patch actor d = Ok (r, d') -> draft_work d d'.
Proof.
  intros W E. unfold updateInvoice in E.
  apply bind_ok in E as (inv & d1 & G & E). apply lockDraft_ok in G as (-> & Hrow & Hs).
  apply bind_ok in E as (u & d1 & G & E). pose proof (read_only _ _ _ G) as ->. clear G.
  apply bind_ok in E as (u' & d1 & G & E).
  assert (d1 = d) as -> by (revert G; destruct (ip_siteId patch); intros G; apply (read_only _ _ _ G)).
  unfold update_invoice in E. run_m. drop_ro.
  apply update_draft_work; [eapply locked_not_issued; eassumption| |exact W].
  intros j (A & B & C & D). repeat split; assumption.
Qed.

Definition line_present (i : string) (d : Db) (l : InvoiceLine) : Prop :=
  exists l', In l' (db_lines d) /\ il_id l' = il_id l /\ il_invoiceId l' = i /\
    lv_parentLineId (il_values l') = lv_parentLineId (il_values l).

Lemma update_line_present L v i l d u d' :
  (forall q, In q (db_lines d) -> il_id q = L -> lv_parentLineId v = lv_parentLineId (il_values q)) ->
  update_line L v d = Ok (u, d') -> line_present i d l -> line_present i d' l.
Proof.
  intros Hv E (l' & Hin & Hid & Hinv & Hp). unfold update_line in E. run_m. cbn.
  match goal with G : store_values v = _ |- _ => apply stored_parent in G; rename G into Ep end.
  exists (if String.eqb (il_id l') L then with_values x l' else l'). split; [cbn; apply (in_map (fun l => if String.eqb (il_id l) L then with_values x l else l)), Hin|].
  destruct (String.eqb_spec (il_id l') L) as [F|F]; [|auto]. cbn. rewrite Ep, (Hv l' Hin F). auto.
Qed.

Lemma reprice_line_work i cur o actor l d u d' :
  wf d -> not_issued i d -> line_present i d l -> reprice_line cur o actor l d = Ok (u, d') ->
  draft_work d d' /\ (forall l0, line_present i d l0 -> line_present i d' l0).
Proof.
  intros W Hi (l' & Hin & Hid & Hinv & Hp) E. unfold reprice_line in E. destruct (lv_catalogItemId _) as [item|]; [|run_m; split; [reflexivity|auto]].
  apply bind_ok in E as (p & d1 & G & E). pose proof (read_only _ _ _ G) as ->. clear G.
  apply bind_ok in E as (t & d1 & G & E). apply lift_throw_ok in G as [_ ->]. split.
  - refine (update_line_work _ _ i l' _ _ _ Hi W Hin Hid Hinv _ E). symmetry. exact Hp.
  - intros l0. refine (update_line_present _ _ _ _ _ _ _ _ E). intros q Hq Eq. cbn.
    rewrite (same_id_line d q l' W Hq Hin) by congruence. symmetry. exact Hp.
Qed.

Lemma reprice_work i cur o actor ls : forall d u d',
  wf d -> not_issued i d -> List.Forall (line_present i d) ls -> for_each (reprice_line cur o actor) ls d = Ok (u, d') ->
  draft_work d d'.
Proof.
  induction ls as [|l ls IH]; intros d u d' W Hi Hf E; cbn [for_each] in E; [run_m; reflexivity|].
  inversion Hf as [|? ? Hl Hr]; subst. apply bind_ok in E as (u1 & d1 & G & E).
  apply (reprice_line_work i) in G as [W1 Hp]; [|assumption..].
  etransitivity; [exact W1|]. eapply IH; [exact (dw_wf _ _ W1 W)|exact (dw_not_issued _ _ _ W1 Hi)| |exact E].
  eapply List.Forall_impl; [|exact Hr]. exact Hp.
Qed.

Lemma lines_present i d : List.Forall (line_present i d) (lines_of i d).
Proof.
  apply List.Forall_forall. intros l Hl. unfold lines_of in Hl. apply filter_In in Hl as [Hl E]. apply String.eqb_eq in E.
  exists l. auto.
Qed.

Lemma changeInvoiceCurrency_work i cur clear reprice actor d r d' :
  wf d -> changeInvoiceCurrency i cur clear reprice actor d = Ok (r, d') -> draft_work d d'.
Proof.
  intros W E. unfold changeInvoiceCurrency in E.
  apply bind_ok in E as (inv & d1 & G & E). apply lockDraft_ok in G as (-> & Hrow & Hs).
  pose proof (locked_not_issued _ _ _ W Hrow Hs) as Hi. destruct (wf_drafts _ W _ _ Hrow Hs) as (_ & _ & _ & Hp).
  apply bind_ok in E as (u & d1 & G & E). pose proof (read_only _ _ _ G) as ->. clear G.
  destruct (String.eqb _ _); [run_m; reflexivity|].
  apply bind_ok in E as (rows & d1 & G & E). apply read_ok in G as [-> ->].
  destruct (negb _ && reprice).
  - apply bind_ok in E as (? & d1 & G & E). apply require_ok in G as [_ ->].
    apply bind_ok in E as (? & d1 & G & E). apply (reprice_work i) in G; [|assumption..|apply lines_present].
    rename G into W1. pose proof (dw_wf _ _ W1 W) as Wf1.
    apply bind_ok in E as (? & d2 & G & E). apply modify_ok in G as ->.
    match type of E with bind _ _ ?s = _ => assert (W2 : draft_work d1 s) end.
    { apply update_draft_work; [exact (dw_not_issued _ _ _ W1 Hi)| |exact Wf1]. intros v (A & B & C & D). repeat split; assumption. }
    apply bind_ok in E as (? & d3 & G & E). apply recompute_work in G as [W3 _]; [|exact (dw_wf _ _ W2 Wf1)].
    pose proof (read_only _ _ _ E) as ->. exact (dw_trans _ _ _ W1 (dw_trans _ _ _ W2 W3)).
  - apply bind_ok in E as (? & d1 & G & E). assert (W1 : draft_work d d1).
    { destruct (lines_of i d) as [|l ls]; [run_m; reflexivity|]. run_m. apply keep_lines_work; [exact W|]. intros l0 v Hl0 Hv Hvs.
      apply negb_true_iff, String.eqb_neq. intros F. apply Hvs. rewrite F in Hv. congruence. }
    pose proof (dw_wf _ _ W1 W) as Wf1. unfold update_invoice in E. run_m. drop_ro.
    match goal with G : computeInvoiceTotals _ _ _ = Ok ?t |- _ =>
      pose proof (invoice_totals_money _ _ _ _ G) as (cs & cx & cy & Ht & _ & _ & _) end.
    match goal with G : totals_money _ _ _ = Ok _ |- _ => rewrite Hp in G; destruct (totals_money_ok _ _ _ _ _ _ Ht G) as [-> _] end.
    etransitivity; [exact W1|]. apply update_draft_work; [exact (dw_not_issued _ _ _ W1 Hi)| |exact Wf1].
    intros v (A & B & C & D). repeat split; assumption.
Qed.

Lemma createManualInvoice_work o st n t c actor d id d' :
  wf d -> createManualInvoice o st n t c actor d = Ok (id, d') ->
  draft_work d d' /\ not_issued id d' /\ db_lines d' = db_lines d /\ db_invoices d !! id = None /\
  exists p cur, db_invoices d' !! id = Some (draft_row p o st cur (ac_userId actor) n t) /\
    (forall x, truthy c = Some x -> cur = x) /\ ac_partnerId actor = Some p.
Proof.
  intros W E. unfold createManualInvoice in E.
  apply bind_ok in E as (p & d1 & G & E). pose proof (read_only _ _ _ G) as ->.
  assert (Hp : ac_partnerId actor = Some p).
  { unfold requirePartner in G. destruct (ac_partnerId actor) as [q|]; [|discriminate]. destruct (String.eqb q ""); run_m; reflexivity. }
  apply bind_ok in E as (? & d1 & G' & E). pose proof (read_only _ _ _ G') as ->.
  apply bind_ok in E as (? & d1 & G'' & E). pose proof (read_only _ _ _ G'') as ->.
  apply bind_ok in E as (cur & d1 & Gc & E).
  assert (d1 = d) as -> by (revert Gc; destruct (truthy c); intros Gc; apply (read_only _ _ _ Gc)).
  apply insert_invoice_work in E as (W1 & Hn & Hrow & Hf & Hl); [|exact W|apply draft_row_ok].
  split; [exact W1|]. split; [exact Hn|]. split; [exact Hl|]. split; [exact Hf|]. exists p, cur. split; [exact Hrow|]. split; [|exact Hp].
  intros cc Hcc. rewrite Hcc in Gc. run_m. reflexivity.
Qed.

(** Payments belong to issued invoices. *)
Definition payments_issued (d : Db) : Prop :=
  forall p, In p (db_payments d) -> exists inv, db_invoices d !! py_invoiceId p = Some inv /\ iv_status inv <> st_draft.

Lemma unlinked (f : Invoice -> Invoice) i (m : gmap string Invoice) j inv :
  (forall v, same_document v (f v)) -> (f <$> delete i m) !! j = Some inv -> exists v, m !! j = Some v /\ same_document v inv.
Proof.
  intros Hf E. rewrite lookup_fmap in E. apply fmap_Some in E as (v & E & ->). apply lookup_delete_Some in E as [_ E]. eauto.
Qed.

Lemma delete_invoice_work i d : wf d -> payments_issued d -> not_issued i d -> draft_work d (delete_invoice i d).
Proof.
  intros W Hp Hi. assert (Hk : forall l inv, In l (db_lines d) -> db_invoices d !! il_invoiceId l = Some inv -> iv_status inv <> st_draft ->
    negb (String.eqb (il_invoiceId l) i) = true) by (intros l v Hl Hv Hs; apply negb_true_iff, String.eqb_neq; intros F; apply Hs, Hi; rewrite <- F; exact Hv).
  pose proof (filter_lines_work (fun l => negb (String.eqb (il_invoiceId l) i)) d W Hk) as [_ _ _ _ _ _ _ _ _ _ _ L Wl].
  specialize (Wl W). constructor; cbn; auto.
  - apply filter_all. intros p Hin. destruct (Hp p Hin) as (inv & Hrow & Hs). apply negb_true_iff, String.eqb_neq.
    intros <-. apply Hs, Hi, Hrow.
  - rewrite map_map. apply map_ext. reflexivity.
  - eexists. split; [reflexivity|]. intros r inv E Hs. apply negb_true_iff, String.eqb_neq. intros F. rewrite F in E. apply Hs, Hi, E.
  - intros j inv E Hs. rewrite lookup_fmap, lookup_delete_ne; [rewrite E; eexists; split; [reflexivity|do 2 eexists; reflexivity]|].
    intros <-. apply Hs, Hi, E.
  - intros j inv E. left. apply unlinked in E as (v & E & a & b & ->); [|intros w; do 2 eexists; reflexivity]. exists v. split; [exact E|exists a, b; reflexivity].
  - intros _. destruct Wl as [A B K C D P]. cbn in *. constructor; cbn; [exact A|exact B|exact K| | |exact P].
    + intros j [inv E]. apply unlinked in E as (v & E & _); [|intros w; do 2 eexists; reflexivity]. apply C. eauto.
    + intros j inv E Hs. apply unlinked in E as (v & E & a & b & ->); [|intros w; do 2 eexists; reflexivity]. apply (D _ _ E Hs).
Qed.

Lemma deleteDraftInvoice_work i actor d u d' :
  wf d -> payments_issued d -> deleteDraftInvoice i actor d = Ok (u, d') -> draft_work d d' /\ d' = delete_invoice i d.
Proof.
  intros W Hp E. unfold deleteDraftInvoice in E.
  apply bind_ok in E as (inv & d1 & G & E). apply lockDraft_ok in G as (-> & Hrow & Hs).
  apply bind_ok in E as (? & d1 & G & E). pose proof (read_only _ _ _ G) as ->. apply modify_ok in E as ->.
  split; [|reflexivity]. apply delete_invoice_work; [exact W|exact Hp|eapply locked_not_issued; eassumption].
Qed.

Lemma materialize_work i o specs : forall sort d u d',
  wf d -> not_issued i d -> materialize_from sort i o specs d = Ok (u, d') -> draft_work d d'.
Proof.
  induction specs as [|s specs IH]; intros sort d u d' W Hi E; cbn [materialize_from] in E; [run_m; reflexivity|].
  apply bind_ok in E as (l & d1 & G & E). apply insert_line_work in G as [W1 _]; [|assumption..|apply parent_none].
  etransitivity; [exact W1|]. eapply IH; [exact (dw_wf _ _ W1 W)|exact (dw_not_issued _ _ _ W1 Hi)|exact E].
Qed.

Lemma finishAssembly_work i o g d r d' :
  wf d -> not_issued i d -> finishAssembly i o g d = Ok (r, d') -> draft_work d d' /\ totals_current i d'.
Proof.
  intros W Hi E. unfold finishAssembly in E. apply bind_ok in E as (b & d1 & G & E). apply lift_throw_ok in G as [_ ->].
  destruct (included g) as [|s specs].
  - apply bind_ok in E as (? & d1 & _ & E). destruct b; [destruct (summarizeMissingRate _)|]; discriminate E.
  - apply bind_ok in E as (? & d1 & G & E). apply materialize_work in G as W1; [|assumption..].
    apply bind_ok in E as (? & d2 & G2 & E). apply recompute_work in G2 as [W2 Ht]; [|exact (dw_wf _ _ W1 W)].
    run_m. split; [exact (dw_trans _ _ _ W1 W2)|exact Ht].
Qed.

Lemma assembleDraftFromOrg_work o st from to c actor d r d' :
  wf d -> assembleDraftFromOrg o st from to c actor d = Ok (r, d') -> draft_work d d' /\ totals_current (fst r) d'.
Proof.
  intros W E. unfold assembleDraftFromOrg in E. cbv zeta in E.
  apply bind_ok in E as (p & d1 & G & E). pose proof (read_only _ _ _ G) as ->.
  do 3 (apply bind_ok in E as (? & d1 & ? & E); match goal with G' : _ d = Ok (_, d1) |- _ => pose proof (read_only _ _ _ G') as -> end).
  apply bind_ok in E as (id & d1 & Gi & E). apply insert_invoice_work in Gi as (W1 & Hn & _); [|exact W|apply draft_row_ok].
  run_m. match goal with G' : finishAssembly _ _ _ _ = _ |- _ =>
    apply finishAssembly_work in G' as [W2 Ht]; [|exact (dw_wf _ _ W1 W)|exact Hn] end.
  split; [exact (dw_trans _ _ _ W1 W2)|exact Ht].
Qed.

Lemma assembleDraftFromTicket_work t c actor d r d' :
  wf d -> assembleDraftFromTicket t c actor d = Ok (r, d') -> draft_work d d' /\ totals_current (fst r) d'.
Proof.
  intros W E. unfold assembleDraftFromTicket in E.
  apply bind_ok in E as (p & d1 & G & E). pose proof (read_only _ _ _ G) as ->.
  apply bind_ok in E as (tk & d1 & G' & E). apply read_ok in G' as [-> ->].
  destruct (rf_tickets (db_ref d) !! t) as [o|]; [|discriminate E]. cbv zeta in E.
  do 3 (apply bind_ok in E as (? & d1 & ? & E); match goal with G' : _ d = Ok (_, d1) |- _ => pose proof (read_only _ _ _ G') as -> end).
  apply bind_ok in E as (id & d1 & Gi & E). apply insert_invoice_work in Gi as (W1 & Hn & _); [|exact W|apply draft_row_ok].
  run_m. match goal with G' : finishAssembly _ _ _ _ = _ |- _ =>
    apply finishAssembly_work in G' as [W2 Ht]; [|exact (dw_wf _ _ W1 W)|exact Hn] end.
  split; [exact (dw_trans _ _ _ W1 W2)|exact Ht].
Qed.
End Drafts.

(** ** Line writers on a draft *)

Inductive LineOp :=
| op_manual (input : ManualLineInput)
| op_catalog (item : string) (quantity : num)
| op_bundle (bundle : string) (quantity : num)
| op_contract (input : ContractLineInput)
| op_update (line : string) (patch : LinePatch)
| op_remove (line : string).

Definition run_line_op `{Uuids} (o : LineOp) (i : string) (actor : InvoiceActor) : M unit :=
  match o with
  | op_manual input => do! _ := addManualLine i input actor in ret tt
  | op_catalog item q => do! _ := addCatalogLine i item q actor in ret tt
  | op_bundle b q => do! _ := addBundleLine i b q actor in ret tt
  | op_contract input => do! _ := addContractLine i input actor in ret tt
  | op_update l patch => do! _ := updateLine i l patch actor in ret tt
  | op_remove l => do! _ := removeLine i l actor in ret tt
  end.

Lemma line_op_work `{Uuids} o i actor d u d' :
  wf d -> run_line_op o i actor d = Ok (u, d') -> draft_work d d' /\ totals_current i d'.
Proof.
  intros W E. destruct o; cbn in E; run_m;
    eauto using addManualLine_work, addCatalogLine_work, addBundleLine_work, addContractLine_work, updateLine_work, removeLine_work.
Qed.

(** C28: After any successful line operation on a draft invoice the header's
    subtotal, tax, total and balance are the totals of the lines it now has, at
    the tax rate the header records and rounded to the currency's minor unit. Every
    issued invoice keeps exactly its lines, and its row up to the links to the
    invoices it replaces and is replaced by; payments, time entries and parts are
    untouched. *)
Theorem draft_totals_current `{Uuids} o i actor d u d' :
  wf d -> run_line_op o i actor d = Ok (u, d') ->
  totals_current i d' /\ wf d' /\
  (forall j inv, db_invoices d !! j = Some inv -> iv_status inv <> st_draft ->
     lines_of j d' = lines_of j d /\ exists inv', db_invoices d' !! j = Some inv' /\ same_document inv inv') /\
  db_payments d' = db_payments d /\ db_entries d' = db_entries d /\ db_parts d' = db_parts d.
Proof.
  intros W E. destruct (line_op_work _ _ _ _ _ _ W E) as [D Ht].
  split; [exact Ht|]. split; [exact (dw_wf _ _ D W)|]. split; [|split; [apply D|split; apply D]].
  intros j inv Hj Hs. split; [exact (dw_lines _ _ D _ _ Hj Hs)|exact (dw_kept _ _ D _ _ Hj Hs)].
Qed.

(** ** A small tenant to run the operations on *)

Definition sample_org : Organization := mkOrg "msp" "Acme" "USD" false (Some "0.0825") None no_address None true.
Definition sample_partner : Partner :=
  mkPartner "MSP" None no_address None None None None 30 "INV" None None false "en".
Definition sample_ref : Reference :=
  mkReference {["org" := sample_org]} {["msp" := sample_partner]} ∅ ∅ ∅ [] ∅ [] [] ∅ ∅ ∅ ∅ false [].
Definition empty_db (ref : Reference) : Db := mkDb ref ∅ [] [] [] [] [] ∅ [] [] [] [] ∅ [] [] 0.
Definition sample_actor : InvoiceActor := mkActor (Some "user") (Some "msp") None None.
Definition sample_line : ManualLineInput := mkManual (Some "Onsite") None (Fin (3 # 2)) (ofZ 100) true None.

Lemma empty_wf `{Uuids} ref : wf (empty_db ref).
Proof.
  constructor; cbn.
  - constructor.
  - intros x [].
  - intros l [].
  - intros j [v E]. rewrite lookup_empty in E. discriminate.
  - intros j v E. rewrite lookup_empty in E. discriminate.
  - intros l [].
Qed.

(** One draft invoice, id "0". *)
Definition one_draft : Db := commit (createManualInvoice "org" None None None None sample_actor) (empty_db sample_ref).

Lemma one_draft_wf : wf one_draft.
Proof.
  unfold one_draft, commit. destruct (createManualInvoice _ _ _ _ _ _ _) as [[x d]|e] eqn:E; [|apply empty_wf].
  apply (dw_wf _ _ (proj1 (createManualInvoice_work _ _ _ _ _ _ _ _ _ (empty_wf _) E))), empty_wf.
Qed.

(** A taxed line of 1.5 hours at 100.00 on it. *)
Lemma draft_totals_current_witness :
  exists d', run_line_op (op_manual sample_line) "0" sample_actor one_draft = Ok (tt, d') /\ totals_current "0" d' /\
    option_map (fun i => im_total (iv_money i)) (db_invoices d' !! "0") = Some "162.38".
Proof.
  destruct (run_line_op (op_manual sample_line) "0" sample_actor one_draft) as [[[] d']|e] eqn:E;
    [|exfalso; vm_compute in E; discriminate E].
  exists d'. split; [reflexivity|]. split; [exact (proj1 (draft_totals_current _ _ _ _ _ _ one_draft_wf E))|].
  assert (F : match run_line_op (op_manual sample_line) "0" sample_actor one_draft with
              | Ok (_, x) => option_map (fun i => im_total (iv_money i)) (db_invoices x !! "0")
              | Err _ => None end = Some "162.38") by (vm_compute; reflexivity).
  rewrite E in F. exact F.
Defined.

(** ** The invariant of issued invoices *)

(** Payment links the provider is still creating pin their invoice, which stays
    issued in its currency. A checkout session whose capture was decided pins its
    row, which never waits for a capture again. *)
Inductive Pin :=
| pin_invoice (invoiceId currencyCode : string)
| pin_session (stripeObjectId : string).

Class Pinned := pinned : list Pin.
#[export] Instance no_pins : Pinned | 100 := [].

Definition of_object (id : string) (r : StripeRow) : bool := String.eqb (sr_stripeObjectId r) id.

(** A row no capture is waited for: linked, or failed, refunded or disputed. *)
Definition decided (r : StripeRow) : Prop := is_linked r = true \/ sr_status r <> sp_pending.

Definition pin_ok (d : Db) (p : Pin) : Prop :=
  match p with
  | pin_invoice i cur => exists inv, db_invoices d !! i = Some inv /\ iv_status inv <> st_draft /\ iv_currencyCode inv = cur
  | pin_session id => exists r, List.find (of_object id) (db_stripe d) = Some r /\ decided r
  end.

Lemma find_map_in {A} (p : A -> bool) (g : A -> A) l :
  (forall x, In x l -> p (g x) = p x) -> List.find p (map g l) = option_map g (List.find p l).
Proof.
  induction l as [|x l IH]; intros Hg; [reflexivity|]. cbn. rewrite Hg by (left; reflexivity).
  destruct (p x); [reflexivity|]. apply IH. intros y Hy. apply Hg. right. exact Hy.
Qed.

Lemma find_map_same {A} (p : A -> bool) (g : A -> A) l :
  (forall x, p (g x) = p x) -> List.find p (map g l) = option_map g (List.find p l).
Proof. intros Hg. apply find_map_in. auto. Qed.

(** Rows rewritten one by one keep the pinned sessions if they keep their object
    and stay decided. *)
Lemma pin_ok_map g d d' p :
  db_invoices d' = db_invoices d -> db_stripe d' = map g (db_stripe d) ->
  (forall r, In r (db_stripe d) -> sr_stripeObjectId (g r) = sr_stripeObjectId r) -> (forall r, In r (db_stripe d) -> decided r -> decided (g r)) ->
  pin_ok d p -> pin_ok d' p.
Proof.
  intros Ei Es Ho Hd. destruct p as [i cur|id]; cbn [pin_ok]; [rewrite Ei; auto|]. intros (r & F & D). exists (g r).
  split; [|apply Hd; [exact (proj1 (List.find_some _ _ F))|exact D]].
  rewrite Es, find_map_in, F by (intros x Hx; unfold of_object; rewrite Ho by exact Hx; reflexivity). reflexivity.
Qed.

Section Issued.
Context `{Uuids} {pins : Pinned}.

Definition live (inv : Invoice) : Prop := iv_status inv <> st_draft /\ iv_status inv <> st_void.

(** No dispute has moved the money of a charge of the invoice. *)
Definition undisputed (i : string) (d : Db) : Prop :=
  forall r, In r (db_stripe d) -> sr_invoiceId r = i -> rv_lastDisputeEventCreated (sr_reversal r) = None.

(** The payments [ps] of an issued invoice add up to what it says is paid. Under
    [strict] those that are Breeze's own never add up to more than its total, and a
    void invoice has none at all. *)
Definition money_ok (strict : Prop) (ps : list Payment) (inv : Invoice) : Prop :=
  exists T cs,
    im_total (iv_money inv) = fixed2 T /\ Z.abs T < column_bound /\ whole_units (iv_currencyCode inv) T /\
    map py_amount ps = map fixed2 cs /\ List.Forall (fun c => 0 < c /\ whole_units (iv_currencyCode inv) c) cs /\
    zsum cs < column_bound /\ (strict -> zsum (own ps cs) <= Z.max 0 T) /\
    im_amountPaid (iv_money inv) = fixed2 (zsum cs) /\ im_balance (iv_money inv) = fixed2 (T - zsum cs) /\
    (iv_status inv = st_paid -> T <= zsum cs) /\
    (iv_status inv = st_partially_paid -> zsum cs < T) /\
    (strict -> iv_status inv = st_void -> cs = []).

Definition issued_ok (inv : Invoice) : Prop :=
  iv_invoiceNumber inv <> None /\ (mk_voidedAt (iv_marks inv) <> None <-> iv_status inv = st_void).

Definition entry_id (e : StoredEntry) : string := te_id (se_row e).
Definition part_id (p : StoredPart) : string := tp_id (sp_row p).

(** A charge that has no payment on the books. *)
Definition unlinked_ok (m : Z) (r : StripeRow) : Prop :=
  match sr_status r with
  | sp_pending => sr_reversal r = no_reversal
  | sp_failed => True
  | sp_refunded => m <= rv_refundedAmountMinor (sr_reversal r)
  | sp_disputed => rv_lastDisputeEventCreated (sr_reversal r) <> None
  | _ => False
  end.

(** A charge is in the currency of an issued invoice and in whole minor units;
    the payment it is linked to is what its reversals have left of it. *)
Definition mapping_ok (d : Db) (r : StripeRow) : Prop :=
  let units m := minor_cents m (minorUnitExponent (sr_currency r)) in
  exists inv m,
    db_invoices d !! sr_invoiceId r = Some inv /\ iv_status inv <> st_draft /\ iv_currencyCode inv = sr_currency r /\
    0 < m /\ sr_amount r = fixed2 (units m) /\ units m < column_bound /\ reversal_ok m (sr_reversal r) /\
    match sr_invoicePaymentId r with
    | Some pid => exists p, In p (db_payments d) /\ py_id p = pid /\ py_invoiceId p = sr_invoiceId r /\
        0 < targetMinor m (sr_reversal r) /\ py_amount p = fixed2 (units (targetMinor m (sr_reversal r)))
    | None => unlinked_ok m r
    end.

Record Sessions (d : Db) : Prop := {
  se_ids : List.NoDup (map sr_id (db_stripe d));
  se_below : ids_below (db_next d) (map sr_id (db_stripe d));
  se_links : forall r r' pid, In r (db_stripe d) -> In r' (db_stripe d) ->
    sr_invoicePaymentId r = Some pid -> sr_invoicePaymentId r' = Some pid -> r = r';
  se_rows : forall r, In r (db_stripe d) -> mapping_ok d r;
  se_pinned : forall p, In p pinned -> pin_ok d p;
}.

(** Issued rows, their currencies and the linked payments stay. *)
Lemma Sessions_frame d d' :
  Sessions d -> (db_next d <= db_next d')%nat -> db_stripe d' = db_stripe d ->
  (forall i inv, db_invoices d !! i = Some inv -> iv_status inv <> st_draft ->
     exists inv', db_invoices d' !! i = Some inv' /\ iv_status inv' <> st_draft /\ iv_currencyCode inv' = iv_currencyCode inv) ->
  (forall p r, In p (db_payments d) -> In r (db_stripe d) -> sr_invoicePaymentId r = Some (py_id p) -> In p (db_payments d')) ->
  Sessions d'.
Proof.
  intros [A B C D P] Hn Eq Hrow Hpay. constructor; rewrite ?Eq.
  - exact A.
  - eapply ids_below_mono; [exact Hn|exact B].
  - exact C.
  - intros r Hr. destruct (D r Hr) as (inv & m & E1 & E2 & E3 & E4 & E5 & E6 & E7 & E8).
    destruct (Hrow _ _ E1 E2) as (inv' & F1 & F2 & F3). exists inv', m. rewrite F3. repeat (split; [assumption|]).
    destruct (sr_invoicePaymentId r) as [pid|] eqn:L; [|exact E8]. destruct E8 as (p & Hp & <- & E8).
    exists p. split; [exact (Hpay p r Hp Hr L)|]. auto.
  - intros p Hp. specialize (P p Hp). destruct p as [i cur|id]; cbn [pin_ok] in *; [|rewrite Eq; exact P].
    destruct P as (inv & E1 & E2 & <-). exact (Hrow _ _ E1 E2).
Qed.

(** The rows left alone and the payments appended to. *)
Lemma Sessions_same d d' :
  Sessions d -> (db_next d <= db_next d')%nat -> db_stripe d' = db_stripe d ->
  (forall i inv, db_invoices d !! i = Some inv -> iv_status inv <> st_draft ->
     exists inv', db_invoices d' !! i = Some inv' /\ iv_status inv' <> st_draft /\ iv_currencyCode inv' = iv_currencyCode inv) ->
  (forall p, In p (db_payments d) -> In p (db_payments d')) -> Sessions d'.
Proof.
  intros S Hn E Hrow Hp. apply (Sessions_frame d); auto.
Qed.

Record Billing (d : Db) : Prop := {
  bi_wf : wf d;
  bi_pay_nodup : List.NoDup (map py_id (db_payments d));
  bi_pay_ids : ids_below (db_next d) (map py_id (db_payments d));
  bi_payments : payments_issued d;
  bi_entry_ids : List.NoDup (map entry_id (db_entries d));
  bi_part_ids : List.NoDup (map part_id (db_parts d));
  bi_sessions : Sessions d;
  bi_rows : forall i inv, db_invoices d !! i = Some inv -> iv_status inv <> st_draft ->
    issued_ok inv /\ money_ok (undisputed i d) (payments_of i d) inv;
  bi_entry_billed : forall i inv s e, db_invoices d !! i = Some inv -> live inv ->
    In s (sourceIds src_time_entry (lines_of i d)) -> In e (db_entries d) -> entry_id e = s -> se_status e = billed;
  bi_part_billed : forall i inv s p, db_invoices d !! i = Some inv -> live inv ->
    In s (sourceIds src_part (lines_of i d)) -> In p (db_parts d) -> part_id p = s -> sp_status p = billed;
  bi_once : forall i j inv inv' ty s, db_invoices d !! i = Some inv -> db_invoices d !! j = Some inv' -> live inv -> live inv' ->
    ty = src_time_entry \/ ty = src_part ->
    In s (sourceIds ty (lines_of i d)) -> In s (sourceIds ty (lines_of j d)) -> i = j;
}.

Lemma in_sourceIds ty ls s :
  In s (sourceIds ty ls) <->
  exists l, In l ls /\ source_type_eqb (lv_sourceType (il_values l)) ty = true /\ truthy (lv_sourceId (il_values l)) = Some s.
Proof.
  unfold sourceIds. rewrite <- list_elem_of_In, elem_of_remove_dups, list_elem_of_omap. split.
  - intros (l & Hl & E). apply list_elem_of_In in Hl. exists l. destruct (source_type_eqb _ _); [auto|discriminate].
  - intros (l & Hl & E & F). exists l. split; [apply list_elem_of_In, Hl|]. rewrite E. exact F.
Qed.

Lemma sourceIds_incl ty ls ls' s : (forall l, In l ls -> In l ls') -> In s (sourceIds ty ls) -> In s (sourceIds ty ls').
Proof. intros Hi Hs. apply in_sourceIds in Hs as (l & Hl & E). apply in_sourceIds. exists l. auto. Qed.

Lemma dw_lines_of d d' j inv l :
  draft_work d d' -> db_invoices d' !! j = Some inv -> iv_status inv <> st_draft -> In l (lines_of j d') -> In l (lines_of j d).
Proof.
  intros D Hj Hs Hl. destruct (dw_rows _ _ D _ _ Hj) as [(v & F & a & b & ->)|F]; [|elim Hs; apply F].
  rewrite (dw_lines _ _ D _ _ F Hs) in Hl. exact Hl.
Qed.

Lemma dw_live_row d d' j inv :
  draft_work d d' -> db_invoices d' !! j = Some inv -> iv_status inv <> st_draft ->
  exists v, db_invoices d !! j = Some v /\ same_document v inv.
Proof. intros D Hj Hs. destruct (dw_rows _ _ D _ _ Hj) as [E|[E _]]; [exact E|contradiction]. Qed.

Lemma money_ok_mono (P Q : Prop) ps inv : (Q -> P) -> money_ok P ps inv -> money_ok Q ps inv.
Proof.
  intros PQ (T & cs & H1 & H2 & H3 & H4 & H5 & H6 & H7 & H8 & H9 & H10 & H11 & H12). exists T, cs.
  repeat (split; [auto|]). auto.
Qed.

Lemma undisputed_incl i d d' :
  (forall r, In r (db_stripe d) -> sr_invoiceId r = i -> In r (db_stripe d')) -> undisputed i d' -> undisputed i d.
Proof. intros I U r Hr E. apply (U r); auto. Qed.

Lemma undisputed_same i d d' : db_stripe d' = db_stripe d -> undisputed i d' -> undisputed i d.
Proof. intros E. apply undisputed_incl. intros r Hr _. rewrite E. exact Hr. Qed.

Lemma dw_undisputed i inv d d' :
  draft_work d d' -> db_invoices d !! i = Some inv -> iv_status inv <> st_draft -> undisputed i d' -> undisputed i d.
Proof.
  intros D Hi Hs. destruct (dw_stripe _ _ D) as (p & Ep & Hp). apply undisputed_incl. intros r Hr E.
  rewrite Ep. apply filter_In. split; [exact Hr|]. apply (Hp r inv); [rewrite E; exact Hi|exact Hs].
Qed.

Lemma draft_work_Sessions d d' : Sessions d -> draft_work d d' -> Sessions d'.
Proof.
  intros S D. apply (Sessions_frame d); [exact S|apply (dw_next _ _ D)| | |].
  - destruct (dw_stripe _ _ D) as (p & -> & Hp). apply filter_all. intros r Hr.
    destruct (se_rows _ S r Hr) as (inv & m & E1 & E2 & _). exact (Hp r inv E1 E2).
  - intros i inv Hi Hs. destruct (dw_kept _ _ D _ _ Hi Hs) as (v & Hv & a & b & ->). eauto.
  - intros p r Hp _ _. rewrite (dw_payments _ _ D). exact Hp.
Qed.

Lemma draft_work_Billing d d' : Billing d -> draft_work d d' -> Billing d'.
Proof.
  intros B D. constructor.
  - apply (dw_wf _ _ D), B.
  - rewrite (dw_payments _ _ D). apply B.
  - rewrite (dw_payments _ _ D). eapply ids_below_mono; [apply (dw_next _ _ D)|apply B].
  - intros p Hp. rewrite (dw_payments _ _ D) in Hp. destruct (bi_payments _ B p Hp) as (inv & Hrow & Hs).
    destruct (dw_kept _ _ D _ _ Hrow Hs) as (v & Hv & a & b & ->). eauto.
  - rewrite (dw_entries _ _ D). apply B.
  - rewrite (dw_parts _ _ D). apply B.
  - eapply draft_work_Sessions; [apply B|exact D].
  - intros i inv Hi Hs. destruct (dw_live_row _ _ _ _ D Hi Hs) as (v & Hi0 & a & b & ->).
    unfold payments_of. rewrite (dw_payments _ _ D). destruct (bi_rows _ B _ _ Hi0 Hs) as [R1 R2]. split; [exact R1|].
    refine (money_ok_mono _ _ _ _ (dw_undisputed _ _ _ _ D Hi0 Hs) R2).
  - intros i inv s e Hi Hl Hs He. rewrite (dw_entries _ _ D) in He.
    destruct (dw_live_row _ _ _ _ D Hi (proj1 Hl)) as (v & Hi0 & a & b & ->).
    eapply (bi_entry_billed _ B); [exact Hi0|exact Hl| |exact He].
    eapply sourceIds_incl; [|exact Hs]. intros l. apply (dw_lines_of _ _ _ _ _ D Hi (proj1 Hl)).
  - intros i inv s e Hi Hl Hs He. rewrite (dw_parts _ _ D) in He.
    destruct (dw_live_row _ _ _ _ D Hi (proj1 Hl)) as (v & Hi0 & a & b & ->).
    eapply (bi_part_billed _ B); [exact Hi0|exact Hl| |exact He].
    eapply sourceIds_incl; [|exact Hs]. intros l. apply (dw_lines_of _ _ _ _ _ D Hi (proj1 Hl)).
  - intros i j inv inv' ty s Hi Hj Li Lj Hty Hsi Hsj.
    destruct (dw_live_row _ _ _ _ D Hi (proj1 Li)) as (v & Hi0 & a & b & ->), (dw_live_row _ _ _ _ D Hj (proj1 Lj)) as (w & Hj0 & a' & b' & ->).
    eapply (bi_once _ B); [exact Hi0|exact Hj0|exact Li|exact Lj|exact Hty| |].
    + eapply sourceIds_incl; [|exact Hsi]. intros l. apply (dw_lines_of _ _ _ _ _ D Hi (proj1 Li)).
    + eapply sourceIds_incl; [|exact Hsj]. intros l. apply (dw_lines_of _ _ _ _ _ D Hj (proj1 Lj)).
Qed.

(** Rewriting the row of an issued invoice, possibly with its payments. *)
Lemma Billing_update d d' i f inv :
  Billing d ->
  db_invoices d' = alter f i (db_invoices d) -> db_lines d' = db_lines d -> db_entries d' = db_entries d -> db_parts d' = db_parts d ->
  (db_next d <= db_next d')%nat ->
  (forall j, j <> i -> payments_of j d' = payments_of j d) ->
  List.NoDup (map py_id (db_payments d')) -> ids_below (db_next d') (map py_id (db_payments d')) ->
  (forall p, In p (db_payments d') -> In p (db_payments d) \/ py_invoiceId p = i) ->
  db_invoices d !! i = Some inv -> iv_status inv <> st_draft -> iv_status (f inv) <> st_draft ->
  issued_ok (f inv) -> money_ok (undisputed i d') (payments_of i d') (f inv) -> (live (f inv) -> live inv) ->
  Sessions d' -> (forall j, j <> i -> undisputed j d' -> undisputed j d) ->
  Billing d'.
Proof.
  intros B Ei El Ee Ep Hn Hpay Hnd Hib Hin Hrow Hs Hs' Hok Hm Hlive HS HU.
  assert (R : forall j v, db_invoices d' !! j = Some v -> (j = i /\ v = f inv) \/ (j <> i /\ db_invoices d !! j = Some v)).
  { intros j v Hj. rewrite Ei in Hj. destruct (decide (j = i)) as [->|Hne].
    - rewrite lookup_alter_eq, Hrow in Hj. injection Hj as <-. auto.
    - rewrite lookup_alter_ne in Hj by congruence. auto. }
  assert (Hlines : forall j, lines_of j d' = lines_of j d) by (intros j; unfold lines_of; rewrite El; reflexivity).
  assert (L : forall j v, db_invoices d' !! j = Some v -> live v -> exists v', db_invoices d !! j = Some v' /\ live v').
  { intros j v Hj Hv. destruct (R _ _ Hj) as [[-> ->]|[_ Hj']]; eauto. }
  pose proof (bi_wf _ B) as W.
  constructor; [|exact Hnd|exact Hib| |rewrite Ee; apply B|rewrite Ep; apply B|exact HS| | | |].
  - constructor; [rewrite El; apply W|rewrite El; eapply ids_below_mono; [exact Hn|apply W]|rewrite El; intros l Hl; exact (minted_mono _ _ _ Hn (wf_line_invoices _ W l Hl))| | |].
    + intros j [v Hj]. destruct (R _ _ Hj) as [[-> _]|[_ Hj']].
      * destruct (wf_invoice_ids _ W i ltac:(eauto)) as (k & Hk & E). exists k. split; [lia|exact E].
      * destruct (wf_invoice_ids _ W j ltac:(eauto)) as (k & Hk & E). exists k. split; [lia|exact E].
    + intros j v Hj Hd. destruct (R _ _ Hj) as [[-> ->]|[_ Hj']]; [contradiction|apply (wf_drafts _ W _ _ Hj' Hd)].
    + intros l Hl. rewrite El in Hl. exact (parent_ok_mono _ _ _ _ El Hn (wf_parents _ W l Hl)).
  - intros p Hp. destruct (decide (py_invoiceId p = i)) as [E|E].
    + exists (f inv). rewrite Ei, E, lookup_alter_eq, Hrow. auto.
    + destruct (Hin p Hp) as [Hp'|Hp']; [|contradiction]. destruct (bi_payments _ B p Hp') as (v & Hv & Hvs).
      exists v. rewrite Ei, lookup_alter_ne by congruence. auto.
  - intros j v Hj Hvs. destruct (R _ _ Hj) as [[-> ->]|[Hne Hj']]; [auto|]. rewrite (Hpay j Hne).
    destruct (bi_rows _ B _ _ Hj' Hvs) as [R1 R2]. split; [exact R1|]. exact (money_ok_mono _ _ _ _ (HU j Hne) R2).
  - intros j v s e Hj Hv Hs0 He. rewrite Hlines in Hs0. rewrite Ee in He. destruct (L _ _ Hj Hv) as (v' & Hj' & Hv').
    apply (bi_entry_billed _ B _ _ _ _ Hj' Hv' Hs0 He).
  - intros j v s e Hj Hv Hs0 He. rewrite Hlines in Hs0. rewrite Ep in He. destruct (L _ _ Hj Hv) as (v' & Hj' & Hv').
    apply (bi_part_billed _ B _ _ _ _ Hj' Hv' Hs0 He).
  - intros j k v w ty s Hj Hk Hv Hw Hty Hsj Hsk. rewrite Hlines in Hsj, Hsk.
    destruct (L _ _ Hj Hv) as (v' & Hj' & Hv'), (L _ _ Hk Hw) as (w' & Hk' & Hw').
    apply (bi_once _ B _ _ _ _ _ _ Hj' Hk' Hv' Hw' Hty Hsj Hsk).
Qed.
End Issued.
