(* ===== verification/InvoiceSafety.v ===== *)
(** * Issuing, paying and voiding keep the books straight

    The operations on issued invoices preserve [Billing], a step relation over
    all operations of the invoice service, and what holds in every state they
    reach. *)

From Stdlib Require Import QArith Qround Qabs Qpower Lqa.
From S2P Require Import Prelude JsString JsNumber Currency IsoDate QuoteMath QuoteSpec InvoiceMath ContractMath TimeBilling CatalogPricing ContractCoverage BillingDb InvoiceService StripeSessions StripeReversal InvoiceLifecycle StripeReconcile PaymentPull InvoiceInvariants.
From stdpp Require Import base gmap strings list pretty.

Local Open Scope string_scope.
Local Open Scope Z_scope.
Local Open Scope billing_scope.

(** ** The amount of a payment *)

Lemma whole_representable cur c : whole_units cur c -> isRepresentableInCurrency (Str (fixed2 c)) cur = true.
Proof.
  intros [m ->]. apply (representable_parses _ _ cur (parses_fixed2 _)). exists m. apply centsQ_minor.
Qed.

Lemma parse_neg s d : parse_text ("-" ++ s) = Ok d -> neg d = true.
Proof.
  change ("-" ++ s) with (String "-" s). unfold parse_text, scan_decimal. simpl scan_sign. cbv beta iota.
  destruct (scan_unsigned s) as [[[ip fp] e]|]; [|discriminate]. unfold decimal_of_groups.
  destruct (String.eqb ip "" && String.eqb fp ""); [discriminate|].
  destruct (slen fp - e <? 0); intros [= <-]; reflexivity.
Qed.

Lemma pg_numeric_neg s a : pg_numeric ("-" ++ s) = Ok a -> exists m, 0 <= m < column_bound /\ a = fixed2 (- m).
Proof.
  unfold pg_numeric. destruct (parse_text ("-" ++ s)) as [d|] eqn:Hp; [|discriminate].
  destruct (parse_text_wf _ _ Hp) as [Hu Hk]. pose proof (roundScaled_nonneg _ _ Hu Hk) as Hm.
  rewrite (parse_neg _ _ Hp). destruct (Z.ltb_spec (roundScaled (mkDecimal false (unscaled d) (scale d)) 2) (10 ^ 12)); [|discriminate].
  intros [= <-]. eauto.
Qed.

Lemma number_positive c : Z.abs c <= cents_bound -> js_gt (js_Number (fixed2 c)) (ofZ 0) = true -> 0 < c.
Proof.
  intros Hc E. rewrite js_Number_fixed2, fin_cents in E by exact Hc.
  destruct (Z_lt_le_dec 0 c) as [Hp|Hp]; [exact Hp|]. exfalso.
  unfold js_gt, js_lt, ofZ in E. apply negb_true_iff in E.
  assert (Qle_bool (Qred (rnd (centsQ c))) (inject_Z 0) = true) as F; [|congruence].
  apply Qle_bool_iff. rewrite Qred_correct. change (inject_Z 0) with 0%Q.
  destruct (Z.eq_dec c 0) as [->|Hne]; [vm_compute; discriminate|].
  assert (rnd (centsQ c) == - rnd (centsQ (- c)))%Q as -> by (rewrite centsQ_opp, rnd_opp; ring).
  pose proof (rnd_cents_pos (- c) ltac:(lia)). lra.
Qed.

Lemma toFixed_pos q n :
  (0 < q)%Q -> (q <= 100000000000000000000)%Q -> n = Qfloor (q * 100 + (1 # 2)) -> toFixed 2 (Fin q) = fixed2 n.
Proof.
  intros Hq Hb ->. unfold toFixed. assert (Ea : (Qabs q == q)%Q) by (apply Qabs_pos; lra).
  assert (Qle_bool (ten ^ 21) (Qabs q) = false) as ->.
  { destruct (Qle_bool _ _) eqn:E; [|reflexivity]. apply Qle_bool_iff in E. rewrite Ea in E.
    change (ten ^ 21)%Q with 1000000000000000000000%Q in E. lra. }
  assert (Hs : (Qnum q <? 0) = false) by (apply Z.ltb_ge; unfold Qlt in Hq; simpl in Hq; lia). rewrite Hs.
  assert (Qfloor (Qabs q * ten ^ 2 + (1 # 2)) = Qfloor (q * 100 + (1 # 2))) as ->
    by (apply Qfloor_comp; rewrite Ea; reflexivity).
  assert (Hn : 0 <= Qfloor (q * 100 + (1 # 2))) by (apply (Qfloor_resp_le 0); lra).
  rewrite fixed_digits_2 by exact Hn. unfold fixed2. rewrite (proj2 (Z.ltb_ge _ 0) Hn), Z.abs_eq by exact Hn. reflexivity.
Qed.

(** [Math.round] of a finite double that is not above [B]. *)
Lemma round_not_above q B :
  (0 < q)%Q -> Z.abs B <= 2 * column_bound -> js_gt (toCents (Some (Num (Fin q)))) (ofZ B) = false ->
  (q <= 100000000000)%Q.
Proof.
  intros Hq HB E. destruct (Qlt_le_dec 100000000000 q) as [Hbig|Hs]; [exfalso|exact Hs].
  unfold toCents in E. cbn [to_num js_mul ofZ] in E. unfold JsNumber.fin in E.
  set (y := (q * inject_Z 100)%Q) in *. assert (Hy : (10000000000000 < y)%Q) by (unfold y; change (inject_Z 100) with 100%Q; lra).
  assert (Hn : normal y).
  { right. rewrite Qabs_pos by lra. assert (two ^ (-1022) <= two ^ 0)%Q by (apply two_mono; lia).
    change (two ^ 0)%Q with 1%Q in *. lra. }
  pose proof (rnd_err y Hn) as He. rewrite (Qabs_pos y) in He by lra. pose proof u53_small as Hu.
  apply Qabs_near_bounds in He. assert (9000000000000 < rnd y)%Q by nra.
  destruct (Qle_bool (two ^ 1024) (Qabs (rnd y))).
  - assert (0 < y)%Q as G by lra. destruct (proj2 (Qnum_pos y) G) as [pn Epn]. rewrite Epn in E. discriminate E.
  - cbn [math_round] in E. unfold js_gt, js_lt, ofZ in E. apply negb_false_iff, Qle_bool_iff in E. rewrite <- Zle_Qle in E.
    assert (9000000000000 <= Qfloor (Qred (rnd y) + (1 # 2)))%Z; [|unfold column_bound in HB; lia].
    rewrite <- (Qfloor_Z 9000000000000). apply Qfloor_resp_le. rewrite Qred_correct. change (inject_Z 9000000000000) with 9000000000000%Q. lra.
Qed.

(** A positive amount whose text is a whole number of minor units is that number
    of hundredths, for [toFixed(2)] and for [toCents]. *)
Lemma representable_cents q cur :
  (1 # 200 <= q)%Q -> (q <= 100000000000)%Q -> isRepresentableInCurrency (Num (Fin q)) cur = true ->
  exists c, whole_units cur c /\ Qfloor (q * 100 + (1 # 2)) = c /\ toCents (Some (Num (Fin q))) = ofZ c.
Proof.
  intros Hlo Hhi Hr. assert (Ea : (Qabs q == q)%Q) by (apply Qabs_pos; lra).
  destruct (js_String_near q) as (ng & v & Hv & Hnear); [rewrite Ea; lra..|]. rewrite Ea in Hnear.
  apply (representable_parses _ _ cur (parses_num (Fin q) ng v eq_refl Hv)) in Hr as [m Hm].
  set (c := minor_cents m (minorUnitExponent cur)). exists c.
  assert (Hc : (Qabs (centsQ c - q) <= q * (2 * ulp_bound))%Q)
    by (unfold c; rewrite centsQ_minor, <- Hm; exact Hnear).
  assert (Hd : (Qabs (q * 100 - inject_Z c) <= 1 # 100)%Q).
  { assert (inject_Z c == centsQ c * 100)%Q as -> by (unfold centsQ; field).
    apply Qabs_near_bounds in Hc. unfold ulp_bound in Hc. apply Qabs_Qle_condition. lra. }
  split; [exists m; reflexivity|]. split.
  - apply Qfloor_near. lra.
  - unfold toCents. cbn [to_num js_mul ofZ]. change (inject_Z 100) with 100%Q.
    assert (Hn : normal (q * 100)).
    { right. rewrite Qabs_pos by lra. assert (two ^ (-1022) <= two ^ (-1))%Q by (apply two_mono; lia).
      change (two ^ (-1))%Q with (1 # 2)%Q in *. lra. }
    pose proof (rnd_err _ Hn) as He. rewrite (Qabs_pos (q * 100)) in He by lra. pose proof u53_small as Hu.
    rewrite fin_small by (apply small_two_1000; rewrite Qabs_pos by lra; lra). cbn [math_round]. unfold ofZ. do 2 f_equal.
    apply Qfloor_near. rewrite Qred_correct.
    assert (rnd (q * 100) - inject_Z c == (rnd (q * 100) - q * 100) + (q * 100 - inject_Z c))%Q as -> by ring.
    eapply Qle_lt_trans; [apply Qabs_triangle|]. assert (q * 100 * two ^ (-53) <= 1 # 100)%Q by nra. lra.
Qed.

Lemma payment_exact B x cur a d u d' :
  Z.abs B <= 2 * column_bound -> whole_units cur B ->
  check_payment_amount (ofZ B) x cur d = Ok (u, d') -> pg_numeric (toFixed 2 x) = Ok a ->
  js_gt (js_Number a) (ofZ 0) = true ->
  exists c, a = fixed2 c /\ 0 < c <= B /\ whole_units cur c.
Proof.
  intros HB WB Hchk Hpg Hpos. unfold check_payment_amount in Hchk. cbv zeta in Hchk.
  rewrite fromCents_cents in Hchk by (unfold column_bound, cents_bound in *; lia).
  rewrite (whole_representable _ _ WB) in Hchk. cbn [negb] in Hchk. run_m.
  match goal with G : negb (js_gt _ _) = true |- _ => apply negb_true_iff in G; rename G into Hle end.
  match goal with G : isRepresentableInCurrency _ _ = true |- _ => rename G into Hrep end.
  destruct x as [|s|q]; [discriminate Hrep..|]. destruct (Qnum q) as [|pn|pn] eqn:Eq.
  - exfalso. assert (E0 : (q == 0)%Q) by (unfold Qeq; rewrite Eq; reflexivity).
    assert (Et : toFixed 2 (Fin q) = fixed2 0).
    { unfold toFixed. rewrite Eq. assert (Ea : (Qabs q == 0)%Q) by (rewrite E0; reflexivity).
      assert (Qle_bool (ten ^ 21) (Qabs q) = false) as ->.
      { destruct (Qle_bool _ _) eqn:E; [|reflexivity]. apply Qle_bool_iff in E. rewrite Ea in E. vm_compute in E. exfalso. apply E. reflexivity. }
      rewrite (Qfloor_comp _ (1 # 2)) by (rewrite Ea; reflexivity). reflexivity. }
    rewrite Et in Hpg. apply pg_numeric_kept in Hpg as [-> _]. apply number_positive in Hpos; [lia|discriminate].
  - assert (Hq : (0 < q)%Q) by (apply Qnum_pos; eauto). pose proof (round_not_above q B Hq HB Hle) as Hhi.
    rewrite (toFixed_pos q _ Hq ltac:(lra) eq_refl) in Hpg. set (n := Qfloor _) in *. apply pg_numeric_kept in Hpg as [-> Hn].
    apply number_positive in Hpos; [|apply cents_small, Hn].
    assert (Hlo : (1 # 200 <= q)%Q).
    { pose proof (Qfloor_le (q * 100 + (1 # 2))) as Hf. fold n in Hf.
      assert (1 <= inject_Z n)%Q by (change 1%Q with (inject_Z 1); rewrite <- Zle_Qle; lia). lra. }
    destruct (representable_cents q cur Hlo Hhi Hrep) as (c & Wc & Ec & Et). fold n in Ec. subst n.
    exists c. rewrite Et in Hle. unfold js_gt in Hle. rewrite js_lt_int in Hle. apply Z.ltb_ge in Hle.
    rewrite Ec in Hpos |- *. auto.
  - exfalso. assert (exists s, toFixed 2 (Fin q) = "-" ++ s) as [s Es].
    { unfold toFixed. rewrite Eq. destruct (Qle_bool _ _); [|eexists; reflexivity]. unfold js_String. rewrite Eq. eexists; reflexivity. }
    rewrite Es in Hpg. apply pg_numeric_neg in Hpg as (m & Hm & ->).
    apply number_positive in Hpos; unfold cents_bound, column_bound in *; lia.
Qed.

(** ** Payments *)

Section Payments.
Context `{Uuids} {pins : Pinned}.

Lemma paid_sum_cents ps cs :
  map py_amount ps = map fixed2 cs -> List.Forall (fun c => 0 < c) cs -> forall s, 0 <= s -> s + zsum cs < 4 * column_bound ->
  fold_left (fun s p => js_add s (toCents (Some (Str (py_amount p))))) ps (ofZ s) = ofZ (s + zsum cs).
Proof.
  revert cs. induction ps as [|p ps IH]; intros cs E Hf s Hs Hb; destruct cs as [|c cs]; try discriminate.
  - simpl. rewrite Z.add_0_r. reflexivity.
  - injection E as Ea E. inversion Hf as [|? ? Hc Hr]; subst. pose proof (zsum_pos_bounds cs Hr).
    change (zsum (c :: cs)) with (c + zsum cs) in *. cbn [fold_left]. rewrite Ea, toCents_money by (unfold cents_bound, column_bound in *; lia).
    rewrite js_add_int by (unfold int_bound, column_bound in *; lia). rewrite IH with (cs := cs); [|assumption|assumption|lia..].
    f_equal. lia.
Qed.

Lemma paid_sum_eq ps cs :
  map py_amount ps = map fixed2 cs -> List.Forall (fun c => 0 < c) cs -> zsum cs < 4 * column_bound -> paid_sum ps = ofZ (zsum cs).
Proof. intros E Hf Hb. exact (paid_sum_cents ps cs E Hf 0 ltac:(lia) Hb). Qed.

Lemma amounts_length ps cs : map py_amount ps = map fixed2 cs -> List.length ps = List.length cs.
Proof. intros E. apply (f_equal (@List.length string)) in E. rewrite !List.length_map in E. exact E. Qed.

(** What the recomputation writes, from the payments of an issued invoice. *)
Lemma recompute_status_row (strict : Prop) now i d u d' inv T cs :
  db_invoices d !! i = Some inv -> iv_status inv <> st_draft -> issued_ok inv ->
  im_total (iv_money inv) = fixed2 T -> Z.abs T < column_bound -> whole_units (iv_currencyCode inv) T ->
  map py_amount (payments_of i d) = map fixed2 cs ->
  List.Forall (fun c => 0 < c /\ whole_units (iv_currencyCode inv) c) cs -> zsum cs < 4 * column_bound ->
  (strict -> zsum (own (payments_of i d) cs) <= Z.max 0 T) -> (strict -> iv_status inv = st_void -> cs = []) ->
  recomputeInvoiceStatus now i d = Ok (u, d') ->
  exists f, d' = set_invoices (alter f i (db_invoices d)) d /\
    iv_status (f inv) <> st_draft /\ issued_ok (f inv) /\ money_ok strict (payments_of i d) (f inv) /\ (live (f inv) -> live inv) /\
    iv_currencyCode (f inv) = iv_currencyCode inv.
Proof.
  intros Hrow Hs [Hnum Hvoid] HT HTb HTw Hps Hcs HP Hsum Hv E. unfold recomputeInvoiceStatus in E.
  apply bind_ok in E as (v & d1 & G & E). apply getOwned_ok in G as [-> G]. rewrite Hrow in G. injection G as <-.
  assert (Hpos : List.Forall (fun c => 0 < c) cs) by (eapply List.Forall_impl; [|exact Hcs]; intros c [? _]; assumption).
  pose proof (zsum_pos_bounds cs Hpos) as Hp0.
  unfold update_invoice in E. run_m.
  rewrite (paid_sum_eq _ _ Hps Hpos HP), fromCents_cents in * by (unfold cents_bound, column_bound in *; lia).
  match goal with G : pg_numeric (fixed2 (zsum cs)) = _ |- _ => apply pg_numeric_kept in G as [-> HP'] end.
  rewrite HT, balance_cents in * by (assumption || unfold column_bound in *; lia).
  match goal with G : pg_numeric (fixed2 (T - zsum cs)) = _ |- _ => apply pg_numeric_kept in G as [-> _] end.
  eexists. split; [reflexivity|].
  set (w := match mk_voidedAt (iv_marks inv) with Some _ => true | None => false end).
  assert (Hst : iv_status (recomputed_row (fixed2 (zsum cs)) (fixed2 (T - zsum cs)) now inv) =
    deriveInvoiceStatus w true (fixed2 T) (fixed2 (zsum cs)) (iv_dueDate inv) now).
  { cbn. rewrite HT. destruct (iv_invoiceNumber inv); [reflexivity|contradiction]. }
  assert (Hw : w = true <-> iv_status inv = st_void).
  { rewrite <- Hvoid. unfold w. destruct (mk_voidedAt _); split; (congruence || reflexivity). }
  rewrite status_of_cents in Hst by (unfold column_bound in *; lia). cbn [negb] in Hst.
  assert (Hvoid' : iv_status (recomputed_row (fixed2 (zsum cs)) (fixed2 (T - zsum cs)) now inv) = st_void <-> iv_status inv = st_void).
  { rewrite <- Hw, Hst. destruct w; [tauto|]. split; [|discriminate].
    destruct (T <=? zsum cs); [discriminate|]. destruct (iv_dueDate inv); repeat case_match; discriminate. }
  split; [|split; [|split; [|split]]].
  - rewrite Hst. destruct w; [discriminate|]. destruct (T <=? zsum cs); [discriminate|]. destruct (iv_dueDate inv); repeat case_match; discriminate.
  - split; [exact Hnum|]. rewrite Hvoid'. exact Hvoid.
  - exists T, cs. cbn [iv_money im_total im_amountPaid im_balance recomputed_row iv_currencyCode].
    split; [exact HT|]. split; [exact HTb|]. split; [exact HTw|]. split; [exact Hps|]. split; [exact Hcs|]. split; [lia|]. split; [exact Hsum|].
    split; [reflexivity|]. split; [reflexivity|]. split; [|split].
    + rewrite Hst. destruct w; [discriminate|]. destruct (Z.leb_spec T (zsum cs)); [auto|]. destruct (iv_dueDate inv); repeat case_match; discriminate.
    + rewrite Hst. destruct w; [discriminate|]. destruct (Z.leb_spec T (zsum cs)); [discriminate|auto].
    + rewrite Hvoid'. exact Hv.
  - intros [_ Hl]. split; [exact Hs|]. intros E'. apply Hl, Hvoid', E'.
  - reflexivity.
Qed.

Lemma payments_of_app i d p :
  py_invoiceId p = i -> payments_of i (set_payments (db_payments d ++ [p])%list d) = (payments_of i d ++ [p])%list.
Proof. intros E. unfold payments_of. cbn. rewrite List.filter_app. simpl. rewrite E, String.eqb_refl. reflexivity. Qed.

Lemma payments_of_app_other i j d p :
  py_invoiceId p = i -> j <> i -> payments_of j (set_payments (db_payments d ++ [p])%list d) = payments_of j d.
Proof.
  intros E Hne. unfold payments_of. cbn. rewrite List.filter_app. simpl. rewrite E.
  destruct (String.eqb_spec i j); [congruence|]. apply app_nil_r.
Qed.

(** Revocation only rewrites the revocation columns of session rows. *)
Definition resession (d d' : Db) : Prop :=
  exists g, d' = set_stripe (map g (db_stripe d)) d /\ forall r, exists k, g r = with_revocation k r.

Lemma with_revocation_same r : with_revocation (sr_revocation r) r = r.
Proof. destruct r. reflexivity. Qed.

#[export] Instance resession_preorder : PreOrder resession.
Proof.
  split.
  - intros d. exists (fun r => r). rewrite map_id. split; [destruct d; reflexivity|].
    intros r. exists (sr_revocation r). symmetry. apply with_revocation_same.
  - intros a b c (g & -> & Hg) (h & -> & Hh). exists (fun r => h (g r)). cbn. rewrite map_map. split; [reflexivity|].
    intros r. destruct (Hg r) as [k ->], (Hh (with_revocation k r)) as [k' ->]. exists k'. reflexivity.
Qed.

Lemma update_stripe_resession q f d u d' :
  (forall r, exists k, f r = with_revocation k r) -> update_stripe q f d = Ok (u, d') -> resession d d'.
Proof.
  intros Hf E. apply modify_ok in E as ->. exists (fun r => if q r then f r else r). split; [reflexivity|].
  intros r. destruct (q r); [apply Hf|]. exists (sr_revocation r). symmetry. apply with_revocation_same.
Qed.

Lemma runProviderPhase_sessions now answer rows d u d' :
  runProviderPhase now answer rows d = Ok (u, d') -> resession d d'.
Proof.
  apply (for_each_rel resession). intros row e v e' E. destruct (answer row) as [o|]; [|run_m; reflexivity].
  eapply update_stripe_resession; [|exact E]. intros r. eexists. reflexivity.
Qed.

Lemma recordRevocationIntent_sessions now i reason actor d rows d' :
  recordRevocationIntent now i reason actor d = Ok (rows, d') -> resession d d'.
Proof.
  intros G. apply bind_ok in G as (row & d2 & R & G). apply read_ok in R as [-> ->].
  destruct (db_invoices d !! i) as [inv|]; [|run_m; reflexivity].
  destruct (negb _); [run_m; reflexivity|].
  apply bind_ok in G as (os & d2 & R & G). apply read_ok in R as [-> ->].
  apply bind_ok in G as (x & d2 & R & G). apply update_stripe_resession in R; [|intros r; eexists; reflexivity]. run_m. exact R.
Qed.

Lemma revocation_sessions now answer i reason actor d u d' :
  requestInvoiceSessionRevocation now answer i reason actor d = Ok (u, d') -> resession d d'.
Proof.
  intros E. apply bind_ok in E as (rows & d1 & G & E). apply runProviderPhase_sessions in E.
  apply recordRevocationIntent_sessions in G. etransitivity; eassumption.
Qed.

Lemma resession_mapping d g r :
  (forall r, exists k, g r = with_revocation k r) -> mapping_ok d r -> mapping_ok (set_stripe (map g (db_stripe d)) d) (g r).
Proof. intros Hg M. destruct (Hg r) as [k ->]. exact M. Qed.

Lemma resession_Sessions d d' : resession d d' -> Sessions d -> Sessions d'.
Proof.
  intros (g & -> & Hg) [A B C D P].
  assert (Hid : map sr_id (map g (db_stripe d)) = map sr_id (db_stripe d))
    by (rewrite map_map; apply map_ext; intros r; destruct (Hg r) as [k ->]; reflexivity).
  constructor; cbn [db_stripe set_stripe]; [rewrite Hid; exact A|rewrite Hid; exact B| | |].
  - intros r r' pid Hr Hr'. apply in_map_iff in Hr as (x & <- & Hx), Hr' as (y & <- & Hy).
    destruct (Hg x) as [k Ex], (Hg y) as [k' Ey]. rewrite Ex, Ey. cbn. intros Lx Ly.
    rewrite <- Ex, <- Ey. f_equal. exact (C x y pid Hx Hy Lx Ly).
  - intros r Hr. apply in_map_iff in Hr as (x & <- & Hx). apply resession_mapping, D, Hx. exact Hg.
  - intros p Hp. refine (pin_ok_map g d (set_stripe (map g (db_stripe d)) d) p eq_refl eq_refl _ _ (P p Hp)); intros r; destruct (Hg r) as [k ->]; [reflexivity|intros _ K; exact K].
Qed.

Lemma resession_undisputed i d d' : resession d d' -> undisputed i d' -> undisputed i d.
Proof.
  intros (g & -> & Hg) U r Hr E. destruct (Hg r) as [k Ek].
  specialize (U (g r) (in_map g _ _ Hr)). rewrite Ek in U. exact (U E).
Qed.

Lemma resession_Billing d d' : resession d d' -> Billing d -> Billing d'.
Proof.
  intros R B. pose proof (resession_Sessions _ _ R (bi_sessions _ B)) as S. pose proof (fun i => resession_undisputed i _ _ R) as U.
  destruct R as (g & -> & Hg). destruct B as [W A B C D E S0 F G I J]. destruct W. constructor; cbn; auto; [constructor; cbn; auto|].
  intros i inv Hi Hs. destruct (F i inv Hi Hs) as [F1 F2]. split; [exact F1|exact (money_ok_mono _ _ _ _ (U i) F2)].
Qed.

Lemma alter_keeps_issued f i inv d d' :
  db_invoices d !! i = Some inv -> iv_status (f inv) <> st_draft -> iv_currencyCode (f inv) = iv_currencyCode inv ->
  db_invoices d' = alter f i (db_invoices d) ->
  forall j v, db_invoices d !! j = Some v -> iv_status v <> st_draft ->
  exists v', db_invoices d' !! j = Some v' /\ iv_status v' <> st_draft /\ iv_currencyCode v' = iv_currencyCode v.
Proof.
  intros Hrow Hs' Ec Ei j v Hj Hv. rewrite Ei. destruct (decide (j = i)) as [->|Hne].
  - rewrite lookup_alter_eq, Hj. cbn. assert (v = inv) as -> by congruence. eauto.
  - rewrite lookup_alter_ne by congruence. eauto.
Qed.

Lemma row_Sessions d i f inv :
  Sessions d -> db_invoices d !! i = Some inv -> iv_status (f inv) <> st_draft -> iv_currencyCode (f inv) = iv_currencyCode inv ->
  Sessions (set_invoices (alter f i (db_invoices d)) d).
Proof.
  intros S Hrow Hs Ec. apply (Sessions_same d); cbn; auto.
  exact (alter_keeps_issued f i inv d (set_invoices (alter f i (db_invoices d)) d) Hrow Hs Ec eq_refl).
Qed.

(** Summing up an issued invoice again after its payments, and perhaps its
    charges, changed. *)
Lemma recompute_changed now d dm i inv T cs u d' :
  Billing d ->
  db_invoices dm = db_invoices d -> db_lines dm = db_lines d -> db_entries dm = db_entries d -> db_parts dm = db_parts d ->
  (db_next d <= db_next dm)%nat -> (forall j, j <> i -> payments_of j dm = payments_of j d) ->
  List.NoDup (map py_id (db_payments dm)) -> ids_below (db_next dm) (map py_id (db_payments dm)) ->
  (forall p, In p (db_payments dm) -> In p (db_payments d) \/ py_invoiceId p = i) ->
  Sessions dm -> (forall j, j <> i -> undisputed j dm -> undisputed j d) ->
  db_invoices d !! i = Some inv -> iv_status inv <> st_draft ->
  im_total (iv_money inv) = fixed2 T -> Z.abs T < column_bound -> whole_units (iv_currencyCode inv) T ->
  map py_amount (payments_of i dm) = map fixed2 cs ->
  List.Forall (fun c => 0 < c /\ whole_units (iv_currencyCode inv) c) cs -> zsum cs < 4 * column_bound ->
  (undisputed i dm -> zsum (own (payments_of i dm) cs) <= Z.max 0 T) -> (undisputed i dm -> iv_status inv = st_void -> cs = []) ->
  recomputeInvoiceStatus now i dm = Ok (u, d') -> Billing d'.
Proof.
  intros B Ei El Ee Ep Hn Hpay Hnd Hib Hin S U Hrow Hs HT HTb HTw Hps Hcs Hsz Hsum Hvoid E.
  destruct (bi_rows _ B _ _ Hrow Hs) as [Hok _]. assert (Hrow' : db_invoices dm !! i = Some inv) by (rewrite Ei; exact Hrow).
  destruct (recompute_status_row (undisputed i dm) now i dm u d' inv T cs Hrow' Hs Hok HT HTb HTw Hps Hcs Hsz Hsum Hvoid E)
    as (f & -> & F1 & F2 & F3 & F4 & F5).
  apply (Billing_update d _ i f inv); try assumption; cbn; [rewrite Ei; reflexivity|].
  apply (row_Sessions dm i f inv); assumption.
Qed.

Lemma accepts_payment_ok inv d u d' :
  accepts_payment inv d = Ok (u, d') -> d' = d /\ iv_status inv <> st_draft /\ iv_status inv <> st_void.
Proof.
  unfold accepts_payment. intros E. apply require_ok in E as [E ->]. split; [reflexivity|].
  destruct (iv_status inv); (discriminate E || (split; discriminate)).
Qed.

Lemma fresh_payment_nodup n ps pay :
  List.NoDup (map py_id ps) -> ids_below n (map py_id ps) -> py_id pay = uuid n -> List.NoDup (map py_id (ps ++ [pay])%list).
Proof.
  intros N Hids E. rewrite map_app. apply List.NoDup_app; [exact N|repeat constructor; intros []|].
  intros y Hy [<-|[]]. destruct (Hids _ Hy) as (k & Hk & F). rewrite E in F. apply uuid_inj in F. lia.
Qed.

Lemma fresh_payment_below n ps pay : ids_below n (map py_id ps) -> py_id pay = uuid n -> ids_below (S n) (map py_id (ps ++ [pay])%list).
Proof.
  intros Hids E y Hy. rewrite map_app in Hy. apply in_app_or in Hy as [Hy|[<-|[]]].
  - destruct (Hids _ Hy) as (k & Hk & ->). exists k. split; [lia|reflexivity].
  - exists n. split; [lia|exact E].
Qed.

Lemma recordPayment_Billing now i input actor d1 p d' :
  Billing d1 -> recordPayment_tx now i input actor d1 = Ok (p, d') -> Billing d'.
Proof.
  intros B E. unfold recordPayment_tx in E.
  apply bind_ok in E as (inv & d2 & G & E). apply getOwned_ok in G as [-> Hrow].
  apply bind_ok in E as (? & d2 & G & E). pose proof (read_only _ _ _ G) as ->. clear G.
  apply bind_ok in E as (? & d2 & G & E). apply accepts_payment_ok in G as (-> & Hs & Hv).
  apply bind_ok in E as (? & d2 & G & E). pose proof (read_only _ _ _ G) as ->. clear G.
  apply bind_ok in E as (rows & d2 & G & E). apply read_ok in G as [-> ->].
  destruct (bi_rows _ B _ _ Hrow Hs) as [Hok (T & cs & HT & HTb & HTw & Hps & Hcs & Hsum & _ & Hpaid & Hbal & _ & _ & _)].
  assert (Hpos : List.Forall (fun c => 0 < c) cs) by (eapply List.Forall_impl; [|exact Hcs]; intros c [? _]; assumption).
  pose proof (zsum_pos_bounds cs Hpos) as Hp0.
  assert (HPw : whole_units (iv_currencyCode inv) (T - zsum cs)).
  { replace (T - zsum cs) with (T + - zsum cs) by lia. apply whole_units_add; [exact HTw|].
    assert (whole_units (iv_currencyCode inv) (zsum cs)) as [m Hm].
    { clear -Hcs. induction Hcs as [|c cs [_ Hc] _ IH]; [apply whole_units_0|]. apply whole_units_add; assumption. }
    exists (- m). unfold minor_cents in *. lia. }
  rewrite HT, toCents_money, (paid_sum_eq _ _ Hps Hpos), js_sub_int in E
    by (unfold cents_bound, column_bound, int_bound in *; lia).
  apply bind_ok in E as (? & d2 & Gc & E). pose proof (read_only _ _ _ Gc) as ->.
  apply bind_ok in E as (pid & d2 & Gm & E). apply mint_ok in Gm as [-> ->].
  apply bind_ok in E as (a & d2 & Ga & E). apply lift_ok in Ga as [Ga ->].
  apply bind_ok in E as (? & d2 & Gp & E). apply pg_check_ok in Gp as [Gp ->].
  assert (HB : Z.abs (T - zsum cs) <= 2 * column_bound) by (unfold column_bound in *; lia).
  destruct (payment_exact _ _ _ _ _ _ _ HB HPw Gc Ga Gp) as (c & -> & Hc & Hcw).
  apply bind_ok in E as (? & d2 & Gp2 & E). apply modify_ok in Gp2 as ->.
  apply bind_ok in E as (u3 & d3 & Gr & E). run_m.
  set (pay := mkPayment _ _ _ _ _ _ _ _ _) in *. set (dm := set_next _ _) in *.
  assert (Hp' : payments_of i (set_payments (db_payments dm ++ [pay])%list dm) = (payments_of i d1 ++ [pay])%list)
    by exact (payments_of_app i dm pay eq_refl).
  assert (Hmap : map py_amount (payments_of i (set_payments (db_payments dm ++ [pay])%list dm)) = map fixed2 (cs ++ [c])%list)
    by (rewrite Hp', !map_app, Hps; reflexivity).
  assert (Hall : List.Forall (fun c => 0 < c /\ whole_units (iv_currencyCode inv) c) (cs ++ [c])%list).
  { apply List.Forall_app. split; [exact Hcs|]. repeat constructor; (lia || assumption). }
  assert (Hsz : zsum (cs ++ [c])%list < 4 * column_bound) by (rewrite zsum_app; simpl; unfold column_bound in *; lia).
  assert (Hle : zsum (own (payments_of i d1 ++ [pay])%list (cs ++ [c])%list) <= Z.max 0 T).
  { rewrite own_app by exact (amounts_length _ _ Hps). pose proof (own_le (payments_of i d1) cs Hpos). destruct (pulled pay); lia. }
  pose proof (bi_pay_ids _ B) as Hids.
  apply (recompute_changed now d1 (set_payments (db_payments dm ++ [pay])%list dm) i inv T (cs ++ [c])%list u3); try assumption; try reflexivity; cbn; auto.
  - intros j Hj. apply (payments_of_app_other i j dm pay eq_refl Hj).
  - apply (fresh_payment_nodup (db_next d1)); [apply B|exact Hids|reflexivity].
  - apply fresh_payment_below; [exact Hids|reflexivity].
  - intros q Hq. apply in_app_or in Hq as [Hq|[<-|[]]]; [auto|right; reflexivity].
  - apply (Sessions_same d1); cbn; [apply B|lia|reflexivity|eauto|]. intros q Hq. apply in_or_app. auto.
  - intros _. change (zsum (own (payments_of i (set_payments (db_payments dm ++ [pay])%list dm)) (cs ++ [c])%list) <= Z.max 0 T). rewrite Hp'. exact Hle.
  - congruence.
Qed.

(** Removing one payment. *)
Lemma remove_amount ps cs x :
  map py_amount ps = map fixed2 cs -> List.Forall (fun c => 0 < c) cs ->
  exists cs', map py_amount (List.filter (fun p => negb (String.eqb (py_id p) x)) ps) = map fixed2 cs' /\
    (forall (P : Z -> Prop), List.Forall P cs -> List.Forall P cs') /\ zsum cs' <= zsum cs /\
    zsum (own (List.filter (fun p => negb (String.eqb (py_id p) x)) ps) cs') <= zsum (own ps cs).
Proof.
  revert cs. induction ps as [|p ps IH]; intros cs E Hf; destruct cs as [|c cs]; try discriminate.
  - exists []. auto using Z.le_refl.
  - injection E as Ea E. inversion Hf as [|? ? Hc Hr]; subst. destruct (IH cs E Hr) as (cs' & E' & HP & Hz & Ho).
    cbn [List.filter]. rewrite own_cons. destruct (String.eqb _ _); cbn [negb].
    + exists cs'. split; [exact E'|]. split; [|split; [simpl; lia|destruct (pulled p); lia]]. intros P HPc. inversion HPc; auto.
    + exists (c :: cs'). split; [simpl; congruence|]. split; [|rewrite own_cons; split; [simpl; lia|destruct (pulled p); lia]].
      intros P HPc. inversion HPc; subst. constructor; auto.
Qed.

(** Taking away a payment no charge is linked to. *)
Lemma payment_removed now pay d u d' :
  Billing d -> In pay (db_payments d) ->
  existsb (fun r => opt_eqb (sr_invoicePaymentId r) (Some (py_id pay))) (db_stripe d) = false ->
  recomputeInvoiceStatus now (py_invoiceId pay)
    (set_payments (List.filter (fun p => negb (String.eqb (py_id p) (py_id pay))) (db_payments d)) d) = Ok (u, d') -> Billing d'.
Proof.
  intros B Hin Gs Gr. destruct (bi_payments _ B pay Hin) as (inv & Hrow & Hs).
  destruct (bi_rows _ B _ _ Hrow Hs) as [Hok (T & cs & HT & HTb & HTw & Hps & Hcs & Hsz & Hsum & _ & _ & _ & _ & Hvoid)].
  assert (Hpos : List.Forall (fun c => 0 < c) cs) by (eapply List.Forall_impl; [|exact Hcs]; intros c [? _]; assumption).
  set (pid := py_id pay) in *. set (i := py_invoiceId pay) in *. set (dm := set_payments _ _) in *.
  destruct (remove_amount _ cs pid Hps Hpos) as (cs' & Hmap & HP & Hz & Ho).
  assert (Hpays : payments_of i dm = List.filter (fun p => negb (String.eqb (py_id p) pid)) (payments_of i d))
    by (unfold payments_of; cbn; apply filter_filter_comm).
  rewrite <- Hpays in Hmap, Ho.
  assert (Hv : undisputed i dm -> iv_status inv = st_void -> cs' = []).
  { intros U Ev. rewrite (Hvoid U Ev) in Hps. apply map_eq_nil in Hps. rewrite Hpays, Hps in Hmap. symmetry in Hmap. apply map_eq_nil in Hmap. exact Hmap. }
  assert (Hle : undisputed i dm -> zsum (own (payments_of i dm) cs') <= Z.max 0 T) by (intros U; specialize (Hsum U); lia).
  eapply (recompute_changed now d dm i inv T cs'); try eassumption; try reflexivity; cbn; auto.
  - intros j Hj. unfold payments_of. cbn. rewrite filter_filter_comm. apply filter_all. intros p Hp.
    apply filter_In in Hp as [Hp Ej]. apply String.eqb_eq in Ej. apply negb_true_iff, String.eqb_neq. intros Ep.
    apply Hj. rewrite <- Ej. unfold i. f_equal. apply (unique_in py_id (db_payments d)); [apply B|exact Hp|exact Hin|exact Ep].
  - apply NoDup_filter_map, B.
  - intros y Hy. apply in_map_iff in Hy as (p & <- & Hp). apply filter_In in Hp as [Hp _].
    apply (bi_pay_ids _ B), in_map, Hp.
  - intros p Hp. apply filter_In in Hp as [Hp _]. auto.
  - apply (Sessions_frame d); cbn; [apply B|lia|reflexivity|eauto|].
    intros p row Hp Hr L. apply filter_In. split; [exact Hp|]. apply negb_true_iff, String.eqb_neq. intros Ep.
    rewrite <- not_true_iff_false, existsb_exists in Gs. apply Gs. exists row. split; [exact Hr|].
    rewrite L, Ep. cbn. apply String.eqb_refl.
  - unfold column_bound in *. lia.
Qed.

Lemma voidPayment_Billing now pid actor d r d' :
  Billing d -> voidPayment now pid actor d = Ok (r, d') -> Billing d'.
Proof.
  intros B E. unfold voidPayment in E. apply bind_ok in E as (fnd & d1 & G & E). apply read_ok in G as [-> ->].
  destruct (List.find _ _) as [pay|] eqn:Hf; [|discriminate E]. apply List.find_some in Hf as [Hin Hid]. apply String.eqb_eq in Hid as <-.
  do 5 (apply bind_ok in E as (? & d1 & G & E); pose proof (read_only _ _ _ G) as ->; clear G).
  apply bind_ok in E as (linked & d1 & G & E). apply read_ok in G as [-> ->].
  apply bind_ok in E as (? & d1 & G & E). apply require_ok in G as [Gs ->].
  apply bind_ok in E as (? & d1 & G & E). apply modify_ok in G as ->.
  apply bind_ok in E as (? & d1 & Gr & E). pose proof (read_only _ _ _ E) as ->. clear E.
  exact (payment_removed now pay d _ _ B Hin (proj1 (negb_true_iff _) Gs) Gr).
Qed.

Lemma recompute_Billing now i d u d' inv :
  Billing d -> db_invoices d !! i = Some inv -> iv_status inv <> st_draft ->
  recomputeInvoiceStatus now i d = Ok (u, d') -> Billing d'.
Proof.
  intros B Hrow Hs E.
  destruct (bi_rows _ B _ _ Hrow Hs) as [Hok (T & cs & HT & HTb & HTw & Hps & Hcs & Hsz & Hsum & _ & _ & _ & _ & Hvoid)].
  apply (recompute_changed now d d i inv T cs u d'); auto; try apply B. unfold column_bound in *. lia.
Qed.

(** Rewriting issued rows without touching their money. *)
Lemma Billing_row_update d i f inv :
  Billing d -> db_invoices d !! i = Some inv -> iv_status inv <> st_draft ->
  iv_status (f inv) = iv_status inv -> iv_money (f inv) = iv_money inv -> iv_currencyCode (f inv) = iv_currencyCode inv ->
  iv_invoiceNumber (f inv) = iv_invoiceNumber inv -> mk_voidedAt (iv_marks (f inv)) = mk_voidedAt (iv_marks inv) ->
  Billing (set_invoices (alter f i (db_invoices d)) d).
Proof.
  intros B Hrow Hs E1 E2 E3 E4 E5. destruct (bi_rows _ B _ _ Hrow Hs) as [Hok Hm].
  apply (Billing_update d _ i f inv); try assumption; try reflexivity; cbn; try exact (bi_pay_nodup _ B); try exact (bi_pay_ids _ B); auto.
  - rewrite E1. exact Hs.
  - unfold issued_ok in *. rewrite E1, E4, E5. exact Hok.
  - unfold money_ok in *. rewrite E1, E2, E3. exact Hm.
  - unfold live. rewrite E1. auto.
  - apply (row_Sessions d i f inv); [apply B|exact Hrow|congruence|exact E3].
Qed.

Lemma write_due_date_Billing now i due inv d r d' :
  Billing d -> db_invoices d !! i = Some inv -> iv_status inv <> st_draft -> write_due_date now i due d = Ok (r, d') -> Billing d'.
Proof.
  intros B Hrow Hs E. unfold write_due_date in E.
  apply bind_ok in E as (? & d1 & G & E). apply modify_ok in G as ->.
  apply bind_ok in E as (? & d1 & G & E). pose proof (read_only _ _ _ E) as ->.
  refine (recompute_Billing now i _ _ _ (with_due_date due inv) _ _ Hs G); [|cbn; rewrite lookup_alter_eq, Hrow; reflexivity].
  eapply Billing_row_update; [exact B|exact Hrow|exact Hs|reflexivity..].
Qed.

Lemma updateIssuedDueDate_Billing now i due actor d r d' :
  Billing d -> updateIssuedDueDate now i due actor d = Ok (r, d') -> Billing d'.
Proof.
  intros B E. unfold updateIssuedDueDate, due_date_allowed in E. apply bind_ok in E as (? & d1 & G & E).
  apply bind_ok in G as (inv & d2 & G' & G). apply getOwned_ok in G' as [-> Hrow].
  apply bind_ok in G as (? & d2 & G' & G). pose proof (read_only _ _ _ G') as ->. clear G'. apply require_ok in G as [Hst ->].
  refine (write_due_date_Billing now i due inv d r d' B Hrow _ E). destruct (iv_status inv); discriminate.
Qed.

Lemma markViewed_Billing now i o d u d' : Billing d -> markViewed now i o d = Ok (u, d') -> Billing d'.
Proof.
  intros B E. unfold markViewed in E.
  apply bind_ok in E as (inv & d1 & G & E). apply getOwned_ok in G as [-> Hrow].
  apply bind_ok in E as (? & d1 & G & E).
  assert (d1 = d) as -> by (revert G; destruct o; intros G; apply (read_only _ _ _ G)).
  unfold update_invoice in E. apply modify_ok in E as ->.
  destruct (decide (iv_status inv = st_draft)) as [Hd|Hd].
  - apply (draft_work_Billing d); [exact B|]. apply update_draft_work; [eapply locked_not_issued; [apply B|eassumption..]| |apply B].
    intros v (A & C & D & F). repeat split; assumption.
  - eapply Billing_row_update; [exact B|exact Hrow|exact Hd|reflexivity..].
Qed.

(** Marking an issued invoice that is not void leaves its money alone. *)
Lemma mark_row_Billing asOf i inv d :
  Billing d -> db_invoices d !! i = Some inv -> live inv -> Billing (set_invoices (alter (overdue_row asOf) i (db_invoices d)) d).
Proof.
  intros B Hrow [Hs Hv]. destruct (bi_rows _ B _ _ Hrow Hs) as [[Hn Hvo] (T & cs & HT & HTb & HTw & Hps & Hcs & Hsz & Hsum & Hpaid & Hb & _ & _ & _)].
  apply (Billing_update d _ i (overdue_row asOf) inv); try assumption; try reflexivity; cbn;
    try exact (bi_pay_nodup _ B); try exact (bi_pay_ids _ B); auto; try discriminate.
  - split; [exact Hn|]. cbn. rewrite Hvo. split; [contradiction|discriminate].
  - exists T, cs. cbn. repeat (split; [assumption|]). split; [discriminate|]. split; discriminate.
  - intros _. split; assumption.
  - apply (row_Sessions d i _ inv); [apply B|exact Hrow|discriminate|reflexivity].
Qed.

(** Invoices that are issued, and not void. *)
Definition all_live (ids : list string) (d : Db) : Prop :=
  forall i inv, In i ids -> db_invoices d !! i = Some inv -> live inv.

Lemma mark_overdue_Billing asOf ids : forall d u d',
  Billing d -> all_live ids d -> mark_overdue asOf ids d = Ok (u, d') -> Billing d'.
Proof.
  unfold mark_overdue. induction ids as [|i ids IH]; intros d u d' B A E; cbn [for_each] in E; [run_m; exact B|].
  apply bind_ok in E as (? & d1 & G & E). apply modify_ok in G as ->.
  refine (IH _ _ _ _ _ E).
  - destruct (db_invoices d !! i) as [inv|] eqn:Hrow.
    + exact (mark_row_Billing asOf i inv d B Hrow (A i inv (or_introl eq_refl) Hrow)).
    + assert (alter (overdue_row asOf) i (db_invoices d) = db_invoices d) as ->
        by (apply map_eq; intros j; destruct (decide (j = i)) as [->|]; [rewrite lookup_alter_eq, Hrow; reflexivity|apply lookup_alter_ne; congruence]).
      destruct d; exact B.
  - intros j inv Hj Hr. cbn in Hr. destruct (decide (j = i)) as [->|Hne].
    + rewrite lookup_alter_eq in Hr. apply fmap_Some in Hr as (v & _ & ->). split; discriminate.
    + rewrite lookup_alter_ne in Hr by congruence. exact (A j inv (or_intror Hj) Hr).
Qed.
End Payments.

(** ** Flipping the sources of an issued invoice *)

Section Flip.
Context {R : Type} (src : R -> SourceRow) (bill : R -> R).
Hypothesis bill_id : forall r, so_id (src (bill r)) = so_id (src r).
Hypothesis bill_status : forall r, so_status (src (bill r)) = billed.

Definition flipped (ids : list string) (orgId : string) (rows : list R) : list R :=
  map (fun r => if flips ids orgId (src r) then bill r else r) rows.

Lemma flipped_ids ids o rows : map (fun r => so_id (src r)) (flipped ids o rows) = map (fun r => so_id (src r)) rows.
Proof. unfold flipped. rewrite map_map. apply map_ext. intros r. destruct (flips _ _ _); auto. Qed.

Lemma source_found ids rows p s :
  forallb (fun id => for_source id (map src rows) p) ids = true -> In s ids ->
  exists r, In r rows /\ so_id (src r) = s /\ p (src r) = true.
Proof.
  intros Hf Hs. rewrite forallb_forall in Hf. specialize (Hf s Hs). unfold for_source, find_source in Hf.
  destruct (List.find _ _) as [r|] eqn:E; [|discriminate]. apply List.find_some in E as [Hin E]. apply String.eqb_eq in E.
  apply in_map_iff in Hin as (r0 & <- & Hin). eauto.
Qed.

Lemma flipped_billed ids o rows s r' :
  List.NoDup (map (fun r => so_id (src r)) rows) ->
  forallb (fun id => for_source id (map src rows) (fun r => String.eqb (so_orgId r) o)) ids = true ->
  forallb (fun id => for_source id (map src rows) (fun r => is_not_billed (so_status r))) ids = true ->
  In s ids -> In r' (flipped ids o rows) -> so_id (src r') = s -> so_status (src r') = billed.
Proof.
  intros Hn Ho Hb Hs Hr E. unfold flipped in Hr. apply in_map_iff in Hr as (r & <- & Hr).
  assert (Hid : so_id (src r) = s) by (destruct (flips _ _ _); [rewrite bill_id in E|]; exact E).
  destruct (source_found _ _ _ _ Ho Hs) as (r1 & Hr1 & Ei1 & Eo), (source_found _ _ _ _ Hb Hs) as (r2 & Hr2 & Ei2 & Eb).
  rewrite (unique_in (fun r => so_id (src r)) rows r1 r Hn Hr1 Hr) in Eo by congruence.
  rewrite (unique_in (fun r => so_id (src r)) rows r2 r Hn Hr2 Hr) in Eb by congruence.
  assert (flips ids o (src r) = true) as ->; [|apply bill_status].
  unfold flips. rewrite Eo, Eb, Hid, (proj2 (str_mem_in _ _) Hs). reflexivity.
Qed.

Lemma flipped_keeps ids o rows s r' :
  (forall r, In r rows -> so_id (src r) = s -> so_status (src r) = billed) ->
  In r' (flipped ids o rows) -> so_id (src r') = s -> so_status (src r') = billed.
Proof.
  intros Hk Hr E. unfold flipped in Hr. apply in_map_iff in Hr as (r & <- & Hr).
  destruct (flips _ _ _); [apply bill_status|apply (Hk r Hr E)].
Qed.
End Flip.

Section Issue.
Context `{Uuids} {pins : Pinned}.

Lemma issue_money_ok t r m s x y :
  t = mkInvoiceTotals (fixed2 s) (fixed2 x) (fixed2 y) -> issue_money t r "0.00" = Ok m ->
  im_total m = fixed2 y /\ im_balance m = fixed2 y /\ im_amountPaid m = "0.00" /\ Z.abs y < column_bound.
Proof.
  intros -> E. unfold issue_money in E. cbn [it_subtotal it_taxTotal it_total] in E.
  apply rbind_ok in E as (s' & _ & E). apply rbind_ok in E as (x' & _ & E). apply rbind_ok in E as (y' & Hy & E). injection E as <-.
  apply pg_numeric_kept in Hy as [-> Hy]. auto.
Qed.

Lemma validateBillable_ok inv ids rows d u d' :
  validateBillable inv ids rows d = Ok (u, d') ->
  d' = d /\ forallb (fun id => for_source id rows (fun r => String.eqb (so_orgId r) (iv_orgId inv))) ids = true /\
  forallb (fun id => for_source id rows (fun r => is_not_billed (so_status r))) ids = true /\
  forallb (fun id => for_source id rows (fun r => opt_eqb (so_currencyCode r) (Some (iv_currencyCode inv)))) ids = true.
Proof. unfold validateBillable. intros E. run_m. auto. Qed.

(** What issuing leaves, and what it had validated. *)
Lemma issueInvoice_inv now i actor d r d' :
  wf d -> issueInvoice now i actor d = Ok (r, d') ->
  exists inv money number org partner rate seqs y,
    db_invoices d !! i = Some inv /\ draft_ok inv /\
    let tids := sourceIds src_time_entry (lines_of i d) in
    let pids := sourceIds src_part (lines_of i d) in
    let row := issued_row org partner number rate money now in
    d' = set_parts (flipped part_source (part_status billed) pids (iv_orgId inv) (db_parts d))
          (set_entries (flipped entry_source (entry_status billed) tids (iv_orgId inv) (db_entries d))
            (set_invoices (alter row i (db_invoices d)) (set_sequences seqs d))) /\
    forallb (fun id => for_source id (map entry_source (db_entries d)) (fun r => String.eqb (so_orgId r) (iv_orgId inv))) tids = true /\
    forallb (fun id => for_source id (map entry_source (db_entries d)) (fun r => is_not_billed (so_status r))) tids = true /\
    forallb (fun id => for_source id (map part_source (db_parts d)) (fun r => String.eqb (so_orgId r) (iv_orgId inv))) pids = true /\
    forallb (fun id => for_source id (map part_source (db_parts d)) (fun r => is_not_billed (so_status r))) pids = true /\
    im_total money = fixed2 y /\ im_balance money = fixed2 y /\ im_amountPaid money = "0.00" /\
    Z.abs y < column_bound /\ whole_units (iv_currencyCode inv) y.
Proof.
  intros W E. unfold issueInvoice in E. cbv zeta in E.
  apply bind_ok in E as (inv & d1 & G & E). apply lockDraft_ok in G as (-> & Hrow & Hs).
  pose proof (wf_drafts _ W _ _ Hrow Hs) as Hd.
  apply bind_ok in E as (? & d1 & G & E). pose proof (read_only _ _ _ G) as ->. clear G.
  apply bind_ok in E as (lines & d1 & G & E). apply read_ok in G as [-> ->].
  apply bind_ok in E as (? & d1 & G & E). apply require_ok in G as [_ ->].
  apply bind_ok in E as (? & d1 & G & E). pose proof (read_only _ _ _ G) as ->.
  unfold validate_sources in G. apply bind_ok in G as (d1 & d2 & G0 & G). apply read_ok in G0 as [-> ->].
  apply bind_ok in G as (? & d2 & G0 & G). pose proof (read_only _ _ _ G0) as ->. clear G0.
  apply bind_ok in G as (? & d2 & G0 & G). apply validateBillable_ok in G0 as (-> & V1 & V2 & _), G as (_ & V3 & V4 & _).
  unfold allocateInvoiceCounter, update_invoice, flip_entries, flip_parts in E. run_m.
  match goal with G : getOwnedInvoiceOr404 _ _ = _ |- _ => pose proof (read_only _ _ _ G) as Ed' end.
  match goal with G : computeInvoiceTotals _ _ _ = Ok ?t |- _ =>
    pose proof (invoice_totals_money _ _ _ _ G) as (cs & cx & cy & Ht & _ & _ & Wy) end.
  destruct Hd as (Hd1 & Hd2 & Hd3 & Hd4).
  match goal with G : issue_money _ _ _ = Ok _ |- _ => rewrite Hd4 in G; destruct (issue_money_ok _ _ _ _ _ _ Ht G) as (M1 & M2 & M3 & M4) end.
  eexists inv, _, _, _, _, _, _, cy.
  split; [exact Hrow|]. split; [split; auto|]. split; [exact Ed'|].
  split; [exact V1|]. split; [exact V2|]. split; [exact V3|]. split; [exact V4|]. auto.
Qed.

Lemma draft_no_payments i d inv : payments_issued d -> db_invoices d !! i = Some inv -> iv_status inv = st_draft -> payments_of i d = [].
Proof.
  intros Hp Hrow Hs. unfold payments_of. destruct (List.filter _ _) as [|p ps] eqn:E; [reflexivity|]. exfalso.
  assert (In p (p :: ps)) as Hin by (left; reflexivity). rewrite <- E in Hin. apply filter_In in Hin as [Hin Ei].
  apply String.eqb_eq in Ei. destruct (Hp p Hin) as (v & Hv & Hvs). apply Hvs. congruence.
Qed.

(** The row of a draft that is being issued for the amount [y]. *)
Definition issued_as (row : Invoice -> Invoice) (inv : Invoice) (y : Z) : Prop :=
  iv_status (row inv) = st_sent /\ issued_ok (row inv) /\ iv_currencyCode (row inv) = iv_currencyCode inv /\
  im_total (iv_money (row inv)) = fixed2 y /\ im_balance (iv_money (row inv)) = fixed2 y /\
  im_amountPaid (iv_money (row inv)) = "0.00" /\ Z.abs y < column_bound /\ whole_units (iv_currencyCode inv) y.

(** Issuing a draft bills its sources, all of them unbilled before. *)
Lemma issued_Billing i inv row y seqs d d' :
  let tids := sourceIds src_time_entry (lines_of i d) in
  let pids := sourceIds src_part (lines_of i d) in
  Billing d -> db_invoices d !! i = Some inv -> draft_ok inv -> issued_as row inv y ->
  d' = set_parts (flipped part_source (part_status billed) pids (iv_orgId inv) (db_parts d))
        (set_entries (flipped entry_source (entry_status billed) tids (iv_orgId inv) (db_entries d))
          (set_invoices (alter row i (db_invoices d)) (set_sequences seqs d))) ->
  forallb (fun id => for_source id (map entry_source (db_entries d)) (fun r => String.eqb (so_orgId r) (iv_orgId inv))) tids = true ->
  forallb (fun id => for_source id (map entry_source (db_entries d)) (fun r => is_not_billed (so_status r))) tids = true ->
  forallb (fun id => for_source id (map part_source (db_parts d)) (fun r => String.eqb (so_orgId r) (iv_orgId inv))) pids = true ->
  forallb (fun id => for_source id (map part_source (db_parts d)) (fun r => is_not_billed (so_status r))) pids = true ->
  Billing d'.
Proof.
  intros tids pids B Hrow Hd (N1 & N2 & N3 & M1 & M2 & M3 & M4 & M5) Ed V1 V2 V3 V4.
  pose proof (bi_wf _ B) as W. pose proof (proj1 Hd) as Hs.
  assert (R : forall j v, db_invoices d' !! j = Some v -> (j = i /\ v = row inv) \/ (j <> i /\ db_invoices d !! j = Some v)).
  { intros j v Hj. rewrite Ed in Hj. cbn in Hj. destruct (decide (j = i)) as [->|Hne].
    - rewrite lookup_alter_eq, Hrow in Hj. injection Hj as <-. auto.
    - rewrite lookup_alter_ne in Hj by congruence. auto. }
  assert (Hlines : forall j, lines_of j d' = lines_of j d) by (rewrite Ed; reflexivity).
  assert (Hpays : db_payments d' = db_payments d) by (rewrite Ed; reflexivity).
  assert (Hfree : forall j v s, db_invoices d !! j = Some v -> live v ->
    (In s (sourceIds src_time_entry (lines_of j d)) -> ~ In s tids) /\ (In s (sourceIds src_part (lines_of j d)) -> ~ In s pids)).
  { intros j v s Hj Hl. split; intros Hsj Hsi.
    - destruct (source_found entry_source _ _ _ _ V2 Hsi) as (e & He & Ei & Eb).
      assert (F : se_status e = billed) by exact (bi_entry_billed _ B _ _ _ _ Hj Hl Hsj He Ei). cbn in Eb. rewrite F in Eb. discriminate.
    - destruct (source_found part_source _ _ _ _ V4 Hsi) as (e & He & Ei & Eb).
      assert (F : sp_status e = billed) by exact (bi_part_billed _ B _ _ _ _ Hj Hl Hsj He Ei). cbn in Eb. rewrite F in Eb. discriminate. }
  constructor.
  - rewrite Ed. constructor; cbn; try apply W.
    + intros j [v Hj]. destruct (decide (j = i)) as [->|Hne]; [apply (wf_invoice_ids _ W); eauto|].
      rewrite lookup_alter_ne in Hj by congruence. apply (wf_invoice_ids _ W). eauto.
    + intros j v Hj Hvs. destruct (decide (j = i)) as [->|Hne].
      * rewrite lookup_alter_eq, Hrow in Hj. injection Hj as <-. congruence.
      * rewrite lookup_alter_ne in Hj by congruence. apply (wf_drafts _ W _ _ Hj Hvs).
  - rewrite Hpays. apply B.
  - rewrite Hpays, Ed. apply B.
  - intros p Hp. rewrite Hpays in Hp. destruct (bi_payments _ B p Hp) as (v & Hv & Hvs). exists v. split; [|exact Hvs].
    rewrite Ed. cbn. rewrite lookup_alter_ne; [exact Hv|]. intros E'. apply Hvs. rewrite <- E' in Hv. congruence.
  - rewrite Ed. cbn. rewrite (flipped_ids entry_source (entry_status billed)); [apply B|reflexivity].
  - rewrite Ed. cbn. rewrite (flipped_ids part_source (part_status billed)); [apply B|reflexivity].
  - apply (Sessions_same d); [apply B|rewrite Ed; cbn; lia|rewrite Ed; reflexivity| |rewrite Hpays; auto].
    intros j v Hj Hvs. exists v. rewrite Ed. cbn. rewrite lookup_alter_ne; [auto|]. intros E'. apply Hvs. rewrite <- E' in Hj. congruence.
  - intros j v Hj Hvs. unfold payments_of. rewrite Hpays. destruct (R _ _ Hj) as [[-> ->]|[_ Hj']].
    2: { destruct (bi_rows _ B _ _ Hj' Hvs) as [R1 R2]. split; [exact R1|]. refine (money_ok_mono _ _ _ _ _ R2).
         apply undisputed_same. rewrite Ed. reflexivity. }
    split; [exact N2|]. exists y, []. change (List.filter _ (db_payments d)) with (payments_of i d).
    rewrite (draft_no_payments i d inv (bi_payments _ B) Hrow Hs), N1, N3. cbn. rewrite Z.sub_0_r.
    repeat (split; [assumption || reflexivity || constructor|]). split; [lia|]. split; [exact M3|].
    split; [exact M2|]. split; [discriminate|]. split; discriminate.
  - intros j v s e Hj Hl Hsj He Eid. rewrite Hlines in Hsj. rewrite Ed in He. cbn in He.
    destruct (R _ _ Hj) as [[-> ->]|[Hne Hj']].
    + exact (flipped_billed entry_source (entry_status billed) (fun _ => eq_refl) (fun _ => eq_refl) _ _ _ s e (bi_entry_ids _ B) V1 V2 Hsj He Eid).
    + refine (flipped_keeps entry_source (entry_status billed) (fun _ => eq_refl) _ _ _ s e _ He Eid).
      intros e0 He0 E0. apply (bi_entry_billed _ B _ _ _ _ Hj' Hl Hsj He0 E0).
  - intros j v s e Hj Hl Hsj He Eid. rewrite Hlines in Hsj. rewrite Ed in He. cbn in He.
    destruct (R _ _ Hj) as [[-> ->]|[Hne Hj']].
    + exact (flipped_billed part_source (part_status billed) (fun _ => eq_refl) (fun _ => eq_refl) _ _ _ s e (bi_part_ids _ B) V3 V4 Hsj He Eid).
    + refine (flipped_keeps part_source (part_status billed) (fun _ => eq_refl) _ _ _ s e _ He Eid).
      intros e0 He0 E0. apply (bi_part_billed _ B _ _ _ _ Hj' Hl Hsj He0 E0).
  - intros j k v w ty s Hj Hk Hv Hw Hty Hsj Hsk. rewrite Hlines in Hsj, Hsk.
    destruct (R _ _ Hj) as [[-> ->]|[Hne Hj']], (R _ _ Hk) as [[-> ->]|[Hne2 Hk']]; [reflexivity| | |].
    + exfalso. destruct (Hfree _ _ s Hk' Hw) as [F1 F2]. destruct Hty as [-> | ->]; [apply (F1 Hsk Hsj)|apply (F2 Hsk Hsj)].
    + exfalso. destruct (Hfree _ _ s Hj' Hv) as [F1 F2]. destruct Hty as [-> | ->]; [apply (F1 Hsj Hsk)|apply (F2 Hsj Hsk)].
    + apply (bi_once _ B _ _ _ _ _ _ Hj' Hk' Hv Hw Hty Hsj Hsk).
Qed.

Lemma issueInvoice_Billing now i actor d r d' :
  Billing d -> issueInvoice now i actor d = Ok (r, d') -> Billing d'.
Proof.
  intros B E. pose proof (bi_wf _ B) as W.
  destruct (issueInvoice_inv _ _ _ _ _ _ W E) as (inv & money & number & org & partner & rate & seqs & y & Hrow & Hd & Ed & V1 & V2 & V3 & V4 & M1 & M2 & M3 & M4 & M5).
  eapply (issued_Billing i inv (issued_row org partner number rate money now) y); try eassumption.
  split; [reflexivity|]. split; [split; [discriminate|]|auto 10].
  cbn. destruct Hd as (_ & _ & Hv & _). rewrite Hv. split; [contradiction|discriminate].
Qed.
End Issue.

(** ** Voiding and reissuing *)

Section Void.
Context `{Uuids} {pins : Pinned}.

(** Releasing rows no live invoice bills. *)
Lemma release_entries_Billing ids d :
  Billing d ->
  (forall j v s, db_invoices d !! j = Some v -> live v -> In s (sourceIds src_time_entry (lines_of j d)) -> ~ In s ids) ->
  Billing (release_entries ids d).
Proof.
  intros B Hfree. pose proof (bi_sessions _ B) as Se. destruct B as [W P1 P2 P3 N1 N2 _ Rw S1 S2 On]. destruct W.
  constructor; cbn; auto; [constructor; cbn; auto| | |].
  - rewrite map_map. rewrite (map_ext _ entry_id); [exact N1|]. intros e. destruct (str_mem _ _); reflexivity.
  - apply (Sessions_same d); cbn; eauto.
  - intros j v s e Hj Hl Hs He E. apply in_map_iff in He as (e0 & <- & He0).
    assert (E0 : entry_id e0 = s) by (destruct (str_mem _ _); exact E).
    destruct (str_mem (te_id (se_row e0)) ids) eqn:Em; [|apply (S1 _ _ _ _ Hj Hl Hs He0 E0)].
    exfalso. apply str_mem_in in Em. apply (Hfree _ _ s Hj Hl Hs). rewrite <- E0. exact Em.
Qed.

Lemma release_parts_Billing ids d :
  Billing d ->
  (forall j v s, db_invoices d !! j = Some v -> live v -> In s (sourceIds src_part (lines_of j d)) -> ~ In s ids) ->
  Billing (release_parts ids d).
Proof.
  intros B Hfree. pose proof (bi_sessions _ B) as Se. destruct B as [W P1 P2 P3 N1 N2 _ Rw S1 S2 On]. destruct W.
  constructor; cbn; auto; [constructor; cbn; auto| | |].
  - rewrite map_map. rewrite (map_ext _ part_id); [exact N2|]. intros e. destruct (str_mem _ _); reflexivity.
  - apply (Sessions_same d); cbn; eauto.
  - intros j v s e Hj Hl Hs He E. apply in_map_iff in He as (e0 & <- & He0).
    assert (E0 : part_id e0 = s) by (destruct (str_mem _ _); exact E).
    destruct (str_mem (tp_id (sp_row e0)) ids) eqn:Em; [|apply (S2 _ _ _ _ Hj Hl Hs He0 E0)].
    exfalso. apply str_mem_in in Em. apply (Hfree _ _ s Hj Hl Hs). rewrite <- E0. exact Em.
Qed.

Lemma voided_Billing now reason i d inv :
  Billing d -> db_invoices d !! i = Some inv -> live inv -> js_gt (paid_sum (payments_of i d)) (ofZ 0) = false ->
  Billing (release_parts (sourceIds src_part (lines_of i d))
            (release_entries (sourceIds src_time_entry (lines_of i d))
              (set_invoices (alter (voided_row reason now) i (db_invoices d)) d))).
Proof.
  intros B Hrow [Hs Hv] Hp.
  destruct (bi_rows _ B _ _ Hrow Hs) as [[Hn _] (T & cs & HT & HTb & HTw & Hps & Hcs & Hsz & Hsum & Hpaid & Hb & _ & _ & _)].
  assert (Hpos : List.Forall (fun c => 0 < c) cs) by (eapply List.Forall_impl; [|exact Hcs]; intros c [? _]; assumption).
  assert (Hc : cs = []).
  { pose proof (zsum_pos_bounds cs Hpos). rewrite (paid_sum_eq _ _ Hps Hpos) in Hp by (unfold column_bound in *; lia).
    unfold js_gt in Hp. rewrite js_lt_int in Hp. apply Z.ltb_ge in Hp. destruct cs as [|c cs]; [reflexivity|exfalso].
    inversion Hpos as [|? ? Hc Hr]; subst. pose proof (zsum_pos_bounds cs Hr). simpl in Hp. lia. }
  subst cs.
  assert (B1 : Billing (set_invoices (alter (voided_row reason now) i (db_invoices d)) d)).
  { apply (Billing_update d _ i (voided_row reason now) inv); try assumption; try reflexivity; cbn; try exact (bi_pay_nodup _ B); try exact (bi_pay_ids _ B); auto; try discriminate.
    - split; [exact Hn|]. cbn. split; [auto|discriminate].
    - exists T, []. cbn. repeat (split; [assumption|]). split; [discriminate|]. split; [discriminate|auto].
    - intros [_ Hl]. elim Hl. reflexivity.
    - apply (row_Sessions d i _ inv); [apply B|exact Hrow|discriminate|reflexivity]. }
  assert (Hother : forall j v, alter (voided_row reason now) i (db_invoices d) !! j = Some v -> live v -> j <> i /\ db_invoices d !! j = Some v).
  { intros j v Hj Hl. destruct (decide (j = i)) as [->|Hne].
    - rewrite lookup_alter_eq, Hrow in Hj. injection Hj as <-. destruct Hl as [_ Hl]. elim Hl. reflexivity.
    - rewrite lookup_alter_ne in Hj by congruence. auto. }
  apply release_parts_Billing; [apply release_entries_Billing; [exact B1|]|]; intros j v s Hj Hl Hsj Hsi; cbn in Hj;
    destruct (Hother _ _ Hj Hl) as [Hne Hj']; apply Hne; symmetry.
  - apply (bi_once _ B i j inv v src_time_entry s Hrow Hj' (conj Hs Hv) Hl (or_introl eq_refl) Hsi Hsj).
  - apply (bi_once _ B i j inv v src_part s Hrow Hj' (conj Hs Hv) Hl (or_intror eq_refl) Hsi Hsj).
Qed.

(** *** The clone *)

Lemma mint_ids_ok ls : forall d m d',
  mint_ids ls d = Ok (m, d') ->
  d' = set_next (db_next d + List.length ls) d /\ map fst m = map il_id ls /\
  map snd m = map uuid (List.seq (db_next d) (List.length ls)).
Proof.
  induction ls as [|l ls IH]; intros d m d' E; cbn [mint_ids] in E.
  - run_m. split; [|split; reflexivity]. cbn. rewrite Nat.add_0_r. destruct d; reflexivity.
  - apply bind_ok in E as (x & d1 & G & E). apply mint_ok in G as [-> ->].
    apply bind_ok in E as (more & d2 & G & E). apply IH in G as (-> & E1 & E2). run_m. cbn in *.
    split; [unfold set_next; cbn; f_equal; lia|]. rewrite E1, E2. auto.
Qed.

Lemma newId_ok m old d x d' : newId m old d = Ok (x, d') -> d' = d /\ In (old, x) m.
Proof.
  unfold newId. destruct (List.find _ _) as [[a b]|] eqn:E; [|discriminate]. intros G. run_m. split; [reflexivity|].
  apply List.find_some in E as [Hin E]. apply String.eqb_eq in E. simpl in E. subst a. apply in_rev, Hin.
Qed.

(** The minted ids are those of the draft's lines, and of their parents, only. *)
Definition reserved (m : list (string * string)) (draft : string) (d : Db) : Prop :=
  (forall x, In x (map snd m) -> minted x d) /\
  forall q x, In q (db_lines d) -> In x (map snd m) -> il_id q = x \/ lv_parentLineId (il_values q) = Some x -> il_invoiceId q = draft.

Lemma clone_line_work m draft l d u d' :
  wf d -> not_issued draft d -> reserved m draft d ->
  (forall x, In (il_id l, x) m -> ~ In x (map il_id (db_lines d))) ->
  clone_line m draft l d = Ok (u, d') ->
  draft_work d d' /\ reserved m draft d' /\ exists x, In (il_id l, x) m /\ map il_id (db_lines d') = (map il_id (db_lines d) ++ [x])%list.
Proof.
  intros W Hn [Rm Rq] Hx E. unfold clone_line in E. apply bind_ok in E as (x & d1 & G & E). apply newId_ok in G as [-> Hin].
  pose proof (Hx x Hin) as Hfresh. pose proof (in_map snd _ _ Hin) as Hsnd. cbn in Hsnd.
  destruct (Rm x Hsnd) as (k & Hk & ->).
  apply bind_ok in E as (parent & d1 & G & E).
  assert (d1 = d /\ forall p, parent = Some p -> In p (map snd m)) as [-> Hpar].
  { destruct (lv_parentLineId _); [|run_m; split; [reflexivity|discriminate]]. apply bind_ok in G as (np & d2 & G & G').
    apply newId_ok in G as [-> Hp]. run_m. split; [reflexivity|]. intros p [= <-]. exact (in_map snd _ _ Hp). }
  apply bind_ok in E as (line & d1 & G' & E). run_m.
  apply insert_line_with_work in G' as (W1 & _ & El & Ei & Ev & En & _); [|exact Hn|exact W|exact Hfresh|exact Hk| |].
  - split; [exact W1|]. split; [split|].
    + intros y Hy. exact (minted_mono _ _ _ (dw_next _ _ W1) (Rm y Hy)).
    + intros q y Hq Hy. rewrite El in Hq. apply in_app_or in Hq as [Hq|[<-|[]]]; [exact (Rq q y Hq Hy)|intros _; exact Ev].
    + exists (uuid k). split; [exact Hin|]. rewrite El, map_app. cbn. rewrite Ei. reflexivity.
  - intros p Ep. cbn in Ep. split; [exact (Rm p (Hpar p Ep))|]. intros q Hq Eq. exact (Rq q p Hq (Hpar p Ep) (or_introl Eq)).
  - intros q Hq Eq. exact (Rq q _ Hq Hsnd (or_intror Eq)).
Qed.

Lemma pair_snd_inj {A B} (m : list (A * B)) a b x : List.NoDup (map snd m) -> In (a, x) m -> In (b, x) m -> a = b.
Proof. intros Hn Ha Hb. pose proof (unique_in snd m (a, x) (b, x) Hn Ha Hb eq_refl) as E. congruence. Qed.

Lemma clone_lines_work m draft ls : forall d u d',
  wf d -> not_issued draft d -> reserved m draft d -> List.NoDup (map il_id ls) -> List.NoDup (map snd m) ->
  (forall l x, In l ls -> In (il_id l, x) m -> ~ In x (map il_id (db_lines d))) ->
  for_each (clone_line m draft) ls d = Ok (u, d') -> draft_work d d'.
Proof.
  induction ls as [|l ls IH]; intros d u d' W Hn R Hnd Hm Hx E; cbn [for_each] in E; [run_m; reflexivity|].
  inversion Hnd as [|? ? Hl Hr]; subst. apply bind_ok in E as (u1 & d1 & G & E).
  apply clone_line_work in G as (W1 & R1 & x0 & Hin0 & Eids); [|exact W|exact Hn|exact R|intros x; apply (Hx l x); left; reflexivity].
  etransitivity; [exact W1|].
  eapply IH; [exact (dw_wf _ _ W1 W)|exact (dw_not_issued _ _ _ W1 Hn)|exact R1|exact Hr|exact Hm| |exact E].
  intros l' x Hl' Hin. rewrite Eids. intros Hi. apply in_app_or in Hi as [Hi|[Ex|[]]]; [exact (Hx l' x (or_intror Hl') Hin Hi)|].
  rewrite Ex in Hin0. apply Hl. rewrite <- (pair_snd_inj m _ _ _ Hm Hin Hin0). apply in_map, Hl'.
Qed.

Lemma clone_evidence_work m draft es : forall d u d', for_each (clone_evidence m draft) es d = Ok (u, d') -> draft_work d d'.
Proof.
  induction es as [|e es IH]; intros d u d' E; cbn [for_each] in E; [run_m; reflexivity|].
  apply bind_ok in E as (u1 & d1 & G & E). unfold clone_evidence in G. apply bind_ok in G as (x & d2 & G & G').
  apply newId_ok in G as [-> _]. apply modify_ok in G' as ->. etransitivity; [|eapply IH; exact E].
  apply lineDevices_work.
Qed.

Lemma for_each_app {A} (f : A -> M unit) a b d u d' :
  for_each f (a ++ b)%list d = Ok (u, d') <-> exists u1 d1, for_each f a d = Ok (u1, d1) /\ for_each f b d1 = Ok (u, d').
Proof.
  revert d. induction a as [|x a IH]; intros d; cbn [for_each app].
  - split; [intros E; exists tt, d; auto|]. intros (u1 & d1 & [= _ <-] & E). exact E.
  - rewrite bind_ok. split.
    + intros (y & d1 & E1 & E2). apply IH in E2 as (u1 & d2 & E2 & E3). exists u1, d2. rewrite bind_ok. eauto.
    + intros (u1 & d1 & E1 & E2). apply bind_ok in E1 as (y & d2 & E1 & E3). exists y, d2. split; [exact E1|]. apply IH. eauto.
Qed.

Lemma reissue_Billing i inv row actor d x d' :
  Billing d -> db_invoices d !! i = Some row -> iv_status row <> st_draft ->
  reissue_clone i inv (lines_of i d) actor d = Ok (x, d') -> Billing d' /\ not_issued x d'.
Proof.
  intros B Hrow Hs E. unfold reissue_clone in E.
  apply bind_ok in E as (draft & d1 & G & E).
  apply insert_invoice_work in G as (W1 & Hn1 & Hnew & Hfresh & Hl1); [|apply B|repeat split].
  pose proof (draft_work_Billing _ _ B W1) as B1. destruct (dw_kept _ _ W1 _ _ Hrow Hs) as (row1 & Hrow1 & la & lb & ->).
  assert (Hne : draft <> i) by congruence.
  apply bind_ok in E as (? & d2 & G & E). unfold update_invoice in G. apply modify_ok in G.
  assert (B2 : Billing d2) by (rewrite G; eapply Billing_row_update; [exact B1|exact Hrow1|exact Hs|reflexivity..]).
  assert (Hn2 : not_issued draft d2) by (rewrite G; split; [|apply Hn1]; intros v Hv; cbn in Hv; rewrite lookup_alter_ne in Hv by congruence; apply (proj1 Hn1 _ Hv)).
  assert (Hl2 : db_lines d2 = db_lines d) by (rewrite G; exact Hl1). clear G.
  apply bind_ok in E as (m & d3 & G & E). apply mint_ids_ok in G as (-> & Em1 & Em2).
  set (d3 := set_next _ d2) in *.
  assert (W3 : draft_work d2 d3) by (apply dw_exact; cbn; auto; [lia|apply wf_next; lia]).
  pose proof (dw_wf _ _ W3 (bi_wf _ B2)) as Wf3.
  apply bind_ok in E as (? & d4 & G1 & E). apply bind_ok in E as (? & d5 & G2 & E).
  assert (Hm : List.NoDup (map snd m)).
  { rewrite Em2. apply Finite.Injective_map_NoDup; [intros a b Hab; apply uuid_inj, Hab|apply List.seq_NoDup]. }
  set (parents := List.filter (fun l => negb (is_child l)) (lines_of i d)) in *. set (children := List.filter is_child (lines_of i d)) in *.
  assert (Hnd : List.NoDup (map il_id (parents ++ children)%list)).
  { eapply Permutation_NoDup; [apply Permutation_map, filter_split_perm|]. unfold lines_of. apply NoDup_filter_map.
    apply (bi_wf _ B). }
  assert (W5 : draft_work d3 d5).
  { assert (Hids : forall y, In y (map snd m) -> exists k, (db_next d2 <= k < db_next d3)%nat /\ y = uuid k).
    { intros y Hy. rewrite Em2 in Hy. apply in_map_iff in Hy as (k & <- & Hk). apply List.in_seq in Hk. exists k. cbn. split; [lia|reflexivity]. }
    assert (Hno : forall y, In y (map snd m) -> ~ minted y d2) by (intros y Hy (k & Hk & ->); destruct (Hids _ Hy) as (k' & Hk' & F); apply uuid_inj in F; lia).
    apply (clone_lines_work m draft (parents ++ children)%list d3 x2); [exact Wf3|exact (dw_not_issued _ _ _ W3 Hn2)| |exact Hnd|exact Hm| |apply for_each_app; eexists _, _; split; [exact G1|exact G2]].
    - split; [intros y Hy; destruct (Hids y Hy) as (k & Hk & ->); exists k; split; [lia|reflexivity]|].
      intros q y Hq Hy [F|F]; elim (Hno y Hy); [rewrite <- F; apply (wf_line_ids _ (bi_wf _ B2)), in_map, Hq|].
      exact (proj1 (wf_parents _ (bi_wf _ B2) q Hq y F)).
    - intros l y _ Hin Hin'. exact (Hno y (in_map snd _ _ Hin) (wf_line_ids _ (bi_wf _ B2) y Hin')). }
  apply bind_ok in E as (es & d6 & G & E). apply read_ok in G as [-> ->].
  apply bind_ok in E as (? & d6 & G & E). apply clone_evidence_work in G. run_m.
  assert (W : draft_work d2 d6) by (etransitivity; [exact W3|etransitivity; [exact W5|exact G]]).
  split; [exact (draft_work_Billing _ _ B2 W)|exact (dw_not_issued _ _ _ W Hn2)].
Qed.

Lemma voidInvoice_Billing now i reason reissue actor d1 r d' :
  Billing d1 -> voidInvoice_tx now i reason reissue actor d1 = Ok (r, d') -> Billing d'.
Proof.
  intros B E. unfold voidInvoice_tx in E.
  apply bind_ok in E as (inv & d2 & G & E). apply getOwned_ok in G as [-> Hrow].
  apply bind_ok in E as (? & d2 & G & E). pose proof (read_only _ _ _ G) as ->. clear G.
  apply bind_ok in E as (? & d2 & G & E). apply accepts_payment_ok in G as (-> & Hs & Hv).
  apply bind_ok in E as (applied & d2 & G & E). apply read_ok in G as [-> ->].
  apply bind_ok in E as (? & d2 & G & E). apply require_ok in G as [Hp ->]. apply negb_true_iff in Hp.
  apply bind_ok in E as (? & d2 & G & E). pose proof (read_only _ _ _ G) as ->. clear G.
  apply bind_ok in E as (src & d2 & G & E). apply read_ok in G as [-> ->].
  apply bind_ok in E as (dr & d2 & G & E). apply read_ok in G as [-> ->].
  apply bind_ok in E as (? & d2 & G & E). apply require_ok in G as [_ ->].
  do 3 (apply bind_ok in E as (? & d2 & G & E); apply modify_ok in G; subst d2).
  pose proof (voided_Billing now reason i d1 inv B Hrow (conj Hs Hv) Hp) as B2. set (dv := release_parts _ _) in *.
  destruct (negb reissue); [run_m; exact B2|]. apply bind_ok in E as (dft & d2 & G & E). run_m.
  assert (Hrow2 : db_invoices dv !! i = Some (voided_row reason now inv)) by (cbn; rewrite lookup_alter_eq, Hrow; reflexivity).
  apply (reissue_Billing i inv _ actor dv dft d2 B2 Hrow2 ltac:(discriminate) G).
Qed.
End Void.
