(* ===== verification/StripeSafety.v ===== *)
(** * Reconciliation keeps the books

    Payment links, captures, refunds and disputes against the invariant
    [Billing]: the payment of a charge is always what its reversals have left of
    it, and the header of the invoice follows. *)

From Stdlib Require Import QArith Qround.
From S2P Require Import Prelude JsString JsNumber Currency QuoteMath QuoteSpec IsoDate ContractCoverage InvoiceMath BillingDb InvoiceService StripeSessions StripeReversal InvoiceLifecycle StripeReconcile PaymentPull InvoiceInvariants InvoiceSafety.
From stdpp Require Import base gmap strings list.

Local Open Scope string_scope.
Local Open Scope Z_scope.
Local Open Scope billing_scope.

(** ** Amounts *)

Lemma capture_cents_money c : Z.abs c <= cents_bound -> capture_cents (fixed2 c) = ofZ c.
Proof. intros H. unfold capture_cents. rewrite js_Number_fixed2. apply (round_cents c H). Qed.

Lemma whole_number_int n : whole_number (ofZ n) = Ok n.
Proof.
  unfold whole_number, ofZ. rewrite Qfloor_Z. assert (Qeq_bool (inject_Z n) (inject_Z n) = true) as ->; [|reflexivity].
  apply Qeq_bool_iff. reflexivity.
Qed.

Lemma minor_small m cur : 0 < m -> minor_cents m (minorUnitExponent cur) < column_bound -> Z.abs m <= 10 ^ 13.
Proof.
  intros Hm. unfold minor_cents, column_bound. destruct (minorUnitExponent_cases cur) as [-> | ->]; cbn; lia.
Qed.

Lemma minor_amount_money m cur d :
  0 < m -> minor_cents m (minorUnitExponent cur) < column_bound ->
  minor_amount (fixed2 (minor_cents m (minorUnitExponent cur))) cur d = Ok (m, d).
Proof.
  intros Hm Hb. unfold minor_amount. apply bind_ok. exists (ofZ m), d. unfold lift_throw.
  rewrite toMinorUnits_money, whole_number_int by (eapply minor_small; eassumption). auto.
Qed.

Lemma minor_cents_mono a b cur : a <= b -> minor_cents a (minorUnitExponent cur) <= minor_cents b (minorUnitExponent cur).
Proof. unfold minor_cents. destruct (minorUnitExponent_cases cur) as [-> | ->]; cbn; lia. Qed.

Lemma minor_cents_pos m cur : 0 < m -> 0 < minor_cents m (minorUnitExponent cur).
Proof. unfold minor_cents. destruct (minorUnitExponent_cases cur) as [-> | ->]; cbn; lia. Qed.

Lemma minor_amount_ro a cur d m d' : minor_amount a cur d = Ok (m, d') -> d' = d.
Proof. intros E. unfold minor_amount in E. run_m. reflexivity. Qed.

Lemma payment_amount_money m cur d s d' :
  0 < m -> minor_cents m (minorUnitExponent cur) < column_bound -> payment_amount m cur d = Ok (s, d') ->
  s = fixed2 (minor_cents m (minorUnitExponent cur)) /\ d' = d.
Proof.
  intros Hm Hb E. unfold payment_amount in E. run_m.
  match goal with G : fromMinorUnits _ _ = _ |- _ => rewrite fromMinorUnits_money in G by (eapply minor_small; eassumption); injection G as <- end.
  match goal with G : pg_numeric _ = _ |- _ => apply pg_numeric_kept in G as [-> _] end. auto.
Qed.

(** ** One charge at a time *)

Section Charges.
Context `{Uuids} {pins : Pinned}.

Lemma stripe_rows_Billing d rows :
  Billing d -> Sessions (set_stripe rows d) -> (forall j, undisputed j (set_stripe rows d) -> undisputed j d) -> Billing (set_stripe rows d).
Proof.
  intros B S U. destruct B as [W A B C D E _ F G I J]. destruct W. constructor; cbn; auto; [constructor; cbn; auto|].
  intros i inv Hi Hs. destruct (F i inv Hi Hs) as [F1 F2]. split; [exact F1|exact (money_ok_mono _ _ _ _ (U i) F2)].
Qed.

(** Replacing one charge, with its payment. *)
Lemma Sessions_replace d dm mapping mapping' :
  Sessions d -> In mapping (db_stripe d) -> sr_id mapping' = sr_id mapping ->
  sr_stripeObjectId mapping' = sr_stripeObjectId mapping -> decided mapping' ->
  db_stripe dm = map (fun r => if by_id (sr_id mapping) r then mapping' else r) (db_stripe d) ->
  db_invoices dm = db_invoices d -> (db_next d <= db_next dm)%nat ->
  (forall p r, In p (db_payments d) -> In r (db_stripe d) -> sr_id r <> sr_id mapping -> sr_invoicePaymentId r = Some (py_id p) -> In p (db_payments dm)) ->
  (forall pid r, sr_invoicePaymentId mapping' = Some pid -> In r (db_stripe d) -> sr_id r <> sr_id mapping -> sr_invoicePaymentId r <> Some pid) ->
  mapping_ok dm mapping' -> Sessions dm.
Proof.
  intros [A B C D P] Hin Hid Hob Hd Es Ei Hn Hpay Hlink Hm.
  assert (Hids : map sr_id (db_stripe dm) = map sr_id (db_stripe d)).
  { rewrite Es, map_map. apply map_ext. intros r. unfold by_id. destruct (String.eqb_spec (sr_id r) (sr_id mapping)); congruence. }
  assert (Cases : forall r, In r (db_stripe dm) -> r = mapping' \/ (In r (db_stripe d) /\ sr_id r <> sr_id mapping)).
  { intros r Hr. rewrite Es in Hr. apply in_map_iff in Hr as (x & <- & Hx). unfold by_id.
    destruct (String.eqb_spec (sr_id x) (sr_id mapping)); auto. }
  constructor.
  - rewrite Hids. exact A.
  - rewrite Hids. eapply ids_below_mono; eassumption.
  - intros r r' pid Hr Hr' L L'. destruct (Cases r Hr) as [->|[I N]], (Cases r' Hr') as [->|[I' N']].
    + reflexivity.
    + elim (Hlink pid r' L I' N' L').
    + elim (Hlink pid r L' I N L).
    + exact (C r r' pid I I' L L').
  - intros r Hr. destruct (Cases r Hr) as [->|[I N]]; [exact Hm|].
    destruct (D r I) as (inv & m & E1 & E2 & E3 & E4 & E5 & E6 & E7 & E8). exists inv, m. rewrite Ei. repeat (split; [assumption|]).
    destruct (sr_invoicePaymentId r) as [pid|] eqn:L; [|exact E8]. destruct E8 as (p & Hp & <- & E8). exists p.
    split; [exact (Hpay p r Hp I N L)|]. auto.
  - intros p Hp. refine (pin_ok_map _ d dm p Ei Es _ _ (P p Hp)); intros r Hr; unfold by_id; destruct (String.eqb_spec (sr_id r) (sr_id mapping)) as [F|F]; auto.
    rewrite (unique_in sr_id _ r mapping A Hr Hin F). exact Hob.
Qed.

Lemma unique_mapping d r r' : Sessions d -> In r (db_stripe d) -> In r' (db_stripe d) -> sr_id r = sr_id r' -> r = r'.
Proof. intros S. apply (unique_in sr_id). apply S. Qed.

(** Writing the row a mapping has. *)
Lemma by_id_rows d mapping f :
  Sessions d -> In mapping (db_stripe d) ->
  map (fun r => if by_id (sr_id mapping) r then f r else r) (db_stripe d) =
  map (fun r => if by_id (sr_id mapping) r then f mapping else r) (db_stripe d).
Proof.
  intros S Hin. apply map_ext_in. intros r Hr. unfold by_id.
  destruct (String.eqb_spec (sr_id r) (sr_id mapping)) as [E|E]; [|reflexivity].
  rewrite (unique_mapping d r mapping S Hr Hin E). reflexivity.
Qed.

Lemma replace_undisputed d dm mapping mapping' :
  Sessions d -> In mapping (db_stripe d) -> sr_invoiceId mapping' = sr_invoiceId mapping ->
  db_stripe dm = map (fun r => if by_id (sr_id mapping) r then mapping' else r) (db_stripe d) ->
  (rv_lastDisputeEventCreated (sr_reversal mapping') = None -> rv_lastDisputeEventCreated (sr_reversal mapping) = None) ->
  forall j, undisputed j dm -> undisputed j d /\ (j = sr_invoiceId mapping -> rv_lastDisputeEventCreated (sr_reversal mapping') = None).
Proof.
  intros S Hin Hi Es Hr j U.
  assert (Hm : j = sr_invoiceId mapping -> rv_lastDisputeEventCreated (sr_reversal mapping') = None).
  { intros ->. apply U; [|exact Hi]. rewrite Es. apply in_map_iff. exists mapping. unfold by_id. rewrite String.eqb_refl. auto. }
  split; [|exact Hm]. intros r Hr' E.
  destruct (String.eqb_spec (sr_id r) (sr_id mapping)) as [F|F].
  - rewrite (unique_mapping d r mapping S Hr' Hin F) in *. auto.
  - apply (U r); [|exact E]. rewrite Es. apply in_map_iff. exists r. unfold by_id.
    destruct (String.eqb_spec (sr_id r) (sr_id mapping)); [contradiction|auto].
Qed.

Lemma checked_stripe_ok d u d' : checked_stripe d = Ok (u, d') -> d' = d.
Proof. unfold checked_stripe. intros E. run_m. reflexivity. Qed.

(** A charge that fails keeps whatever it is linked to. *)
Lemma markMapping_Billing mapping d u d' :
  Billing d -> In mapping (db_stripe d) -> markMapping (sr_id mapping) sp_failed d = Ok (u, d') -> Billing d'.
Proof.
  intros B Hin E. pose proof (bi_sessions _ B) as S. apply modify_ok in E as ->.
  rewrite (by_id_rows d mapping _ S Hin). set (rows := map _ _).
  apply stripe_rows_Billing; [exact B| |].
  - apply (Sessions_replace d _ mapping (with_status sp_failed mapping)); try reflexivity; cbn; auto; [right; discriminate| |].
    + intros pid r L Hr N L'. apply N. f_equal. exact (se_links _ S r mapping pid Hr Hin L' L).
    + destruct (se_rows _ S mapping Hin) as (inv & m & E1 & E2 & E3 & E4 & E5 & E6 & E7 & E8). exists inv, m. cbn.
      repeat (split; [assumption|]). destruct (sr_invoicePaymentId mapping); [exact E8|exact I].
  - intros j U. eapply (replace_undisputed d _ mapping (with_status sp_failed mapping)); eauto; reflexivity.
Qed.

Lemma fresh_link d r : Billing d -> In r (db_stripe d) -> sr_invoicePaymentId r <> Some (uuid (db_next d)).
Proof.
  intros B Hr E. destruct (se_rows _ (bi_sessions _ B) r Hr) as (inv & m & _ & _ & _ & _ & _ & _ & _ & L).
  rewrite E in L. destruct L as (p & Hp & Ep & _). destruct (bi_pay_ids _ B (py_id p) (in_map _ _ _ Hp)) as (k & Hk & F).
  rewrite Ep in F. apply uuid_inj in F. lia.
Qed.

(** ** Captures *)

Lemma terminal_none inv mapping input :
  terminal_reason inv mapping input = None ->
  iv_status inv <> st_draft /\ iv_status inv <> st_void /\
  js_eq (capture_cents (ci_amount input)) (capture_cents (sr_amount mapping)) = true /\
  js_gt (capture_cents (ci_amount input)) (capture_cents (im_balance (iv_money inv))) = false.
Proof.
  unfold terminal_reason. set (x := js_eq _ _). set (y := js_gt _ _). intros E.
  assert (iv_status inv <> st_draft /\ iv_status inv <> st_void) as [A B] by (destruct (iv_status inv); split; discriminate).
  split; [exact A|]. split; [exact B|]. destruct (iv_status inv); try contradiction;
    repeat match type of E with (if ?b then _ else _) = None => destruct b eqn:?; [discriminate E|] end;
    (split; [apply negb_false_iff; assumption|reflexivity]).
Qed.

Lemma captured_rows d mapping x y z :
  Sessions d -> In mapping (db_stripe d) -> sr_invoicePaymentId mapping = None ->
  map (fun r => if unlinked_by_id (sr_id mapping) r then captured x y z r else r) (db_stripe d) =
  map (fun r => if by_id (sr_id mapping) r then captured x y z mapping else r) (db_stripe d).
Proof.
  intros S Hin L. rewrite <- (by_id_rows d mapping _ S Hin). apply map_ext_in. intros r Hr. unfold unlinked_by_id, by_id.
  destruct (String.eqb_spec (sr_id r) (sr_id mapping)) as [E|E]; [|reflexivity].
  rewrite (unique_mapping d r mapping S Hr Hin E). unfold is_linked. rewrite L. reflexivity.
Qed.

(** Appending a payment under the next id to an issued invoice, with the charge
    it stands for. *)
Lemma payment_appended now d dm i inv T cs pay c u d' :
  Billing d -> db_invoices d !! i = Some inv -> iv_status inv <> st_draft ->
  im_total (iv_money inv) = fixed2 T -> Z.abs T < column_bound -> whole_units (iv_currencyCode inv) T ->
  map py_amount (payments_of i d) = map fixed2 cs -> List.Forall (fun c => 0 < c /\ whole_units (iv_currencyCode inv) c) cs ->
  zsum cs < column_bound -> 0 < c < column_bound -> whole_units (iv_currencyCode inv) c ->
  py_id pay = uuid (db_next d) -> py_invoiceId pay = i -> py_amount pay = fixed2 c ->
  db_payments dm = (db_payments d ++ [pay])%list -> db_next dm = S (db_next d) ->
  db_invoices dm = db_invoices d -> db_lines dm = db_lines d -> db_entries dm = db_entries d -> db_parts dm = db_parts d ->
  Sessions dm -> (forall j, j <> i -> undisputed j dm -> undisputed j d) ->
  (undisputed i dm -> zsum (own (payments_of i d) cs) + (if pulled pay then 0 else c) <= Z.max 0 T /\ iv_status inv <> st_void) ->
  recomputeInvoiceStatus now i dm = Ok (u, d') -> Billing d'.
Proof.
  intros B Hrow Hs HT HTb HTw Hps Hcs Hsz Hc Hcw Pi Pv Pa Epay En Ei El Ee Ep S U Hst E.
  pose proof (bi_pay_ids _ B) as Hids.
  assert (Hpays : payments_of i dm = (payments_of i d ++ [pay])%list).
  { rewrite <- (payments_of_app i d pay Pv). unfold payments_of. rewrite Epay. reflexivity. }
  assert (Hother : forall j, j <> i -> payments_of j dm = payments_of j d).
  { intros j Hj. rewrite <- (payments_of_app_other i j d pay Pv Hj). unfold payments_of. rewrite Epay. reflexivity. }
  apply (recompute_changed now d dm i inv T (cs ++ [c])%list u d'); auto.
  - lia.
  - rewrite Epay. apply (fresh_payment_nodup (db_next d)); [apply B|exact Hids|exact Pi].
  - rewrite Epay, En. apply fresh_payment_below; assumption.
  - rewrite Epay. intros q Hq. apply in_app_or in Hq as [Hq|[<-|[]]]; auto.
  - rewrite Hpays, !map_app, Hps. cbn. rewrite Pa. reflexivity.
  - apply List.Forall_app. split; [exact Hcs|]. constructor; [split; [lia|exact Hcw]|constructor].
  - rewrite zsum_app. cbn. unfold column_bound in *. lia.
  - intros Ud. destruct (Hst Ud). rewrite Hpays, own_app by exact (amounts_length _ _ Hps). lia.
  - intros Ud Ev. destruct (Hst Ud). contradiction.
Qed.

Lemma toFixed_money c s : Z.abs c <= cents_bound -> pg_numeric (toFixed 2 (js_Number (fixed2 c))) = Ok s -> s = fixed2 c /\ Z.abs c < column_bound.
Proof. intros Hc. rewrite js_Number_fixed2, toFixed_cents by exact Hc. apply pg_numeric_kept. Qed.

Lemma capture_Billing now input inv mapping c d r d' :
  Billing d -> In mapping (db_stripe d) -> sr_invoicePaymentId mapping = None -> sr_status mapping = sp_pending ->
  db_invoices d !! sr_invoiceId mapping = Some inv -> terminal_reason inv mapping input = None ->
  ci_amount input = fixed2 c -> Z.abs c <= cents_bound -> capture now input inv mapping d = Ok (r, d') -> Billing d'.
Proof.
  intros B Hin L Hst Hrow Ht Ha Hcb E. pose proof (bi_sessions _ B) as S.
  destruct (terminal_none _ _ _ Ht) as (Hs & Hv & Heq & Hle).
  destruct (se_rows _ S mapping Hin) as (inv' & m & E1 & _ & E3 & Hm & E5 & E6 & E7 & E8). rewrite Hrow in E1. injection E1 as <-.
  rewrite L in E8. unfold unlinked_ok in E8. rewrite Hst in E8.
  destruct (bi_rows _ B _ _ Hrow Hs) as [_ (T & cs & HT & HTb & HTw & Hps & Hcs & Hsz & _ & _ & Hbal & _ & _ & _)].
  pose proof (zsum_pos_bounds cs ltac:(eapply List.Forall_impl; [|exact Hcs]; intros x [? _]; assumption)) as Hz.
  set (units := minor_cents m (minorUnitExponent (sr_currency mapping))) in *.
  pose proof (minor_cents_pos m (sr_currency mapping) Hm) as Hu. fold units in Hu.
  rewrite Ha, E5, Hbal in *. rewrite !capture_cents_money in Heq, Hle by (unfold cents_bound, column_bound in *; lia).
  rewrite js_eq_int in Heq. apply Z.eqb_eq in Heq as ->. unfold js_gt in Hle. rewrite js_lt_int in Hle. apply Z.ltb_ge in Hle.
  unfold capture in E. rewrite Ha in E.
  apply bind_ok in E as (id & d1 & G & E). apply mint_ok in G as [-> ->].
  apply bind_ok in E as (s & d1 & G & E). apply lift_ok in G as [G ->]. apply toFixed_money in G as [-> _]; [|exact Hcb].
  apply bind_ok in E as (? & d1 & G & E). apply pg_check_ok in G as [_ ->].
  apply bind_ok in E as (? & d1 & G & E). apply modify_ok in G.
  apply bind_ok in E as (n & d1' & G' & E). apply read_ok in G' as [-> ->].
  apply bind_ok in E as (? & d1' & G' & E). assert (d1' = d1) as -> by (revert G'; destruct (_ =? 1)%nat; intros G'; [run_m; reflexivity|discriminate G']). clear G'.
  apply bind_ok in E as (? & d2 & G2 & E). apply modify_ok in G2.
  apply bind_ok in E as (? & d2' & G' & E). apply checked_stripe_ok in G' as ->.
  apply bind_ok in E as (? & d3 & G3 & E). apply update_stripe_resession in G3; [|intros row0; eexists; reflexivity].
  apply bind_ok in E as (u & d4 & G4 & E). run_m.
  set (pay := mkPayment _ _ _ _ _ _ _ _ _) in G. set (row := captured (uuid (db_next d)) (ci_stripePaymentIntentId input) _) in G2.
  assert (Es : db_stripe d2 = map (fun r => if by_id (sr_id mapping) r then row mapping else r) (db_stripe d)).
  { rewrite G2, G. cbn. exact (captured_rows d mapping _ _ _ S Hin L). }
  assert (S2 : Sessions d2).
  { apply (Sessions_replace d d2 mapping (row mapping)); auto; try (rewrite G2, G; cbn; (reflexivity || lia)); [left; reflexivity|..].
    - intros p row0 Hp _ _ _. rewrite G2, G. cbn. apply in_or_app. auto.
    - intros pid row0 [= <-] Hx _. exact (fresh_link d row0 B Hx).
    - exists inv, m. rewrite G2, G. cbn. rewrite E8, target_full by lia. rewrite <- E8. repeat (split; [assumption|]).
      exists pay. repeat split; auto. apply in_or_app. right. left. reflexivity. }
  assert (U2 : forall j, undisputed j d2 -> undisputed j d).
  { intros j Ud. apply (replace_undisputed d d2 mapping (row mapping) S Hin eq_refl Es (fun x => x) j Ud). }
  pose proof (fun j => resession_undisputed j _ _ G3) as U3. pose proof (resession_Sessions _ _ G3 S2) as S3.
  destruct G3 as (g & -> & _).
  apply (payment_appended now d (set_stripe (map g (db_stripe d2)) d2) (sr_invoiceId mapping) inv T cs pay units u d4); auto; try (rewrite G2, G; reflexivity); try lia.
  - rewrite E3. exists m. reflexivity.
  - intros _. split; [|exact Hv]. pose proof (own_le (payments_of (sr_invoiceId mapping) d) cs ltac:(eapply List.Forall_impl; [|exact Hcs]; intros c0 [? _]; assumption)).
    destruct (pulled pay); lia.
Qed.

Lemma recordStripePayment_Billing now input c d r d' :
  Billing d -> ci_amount input = fixed2 c -> Z.abs c <= cents_bound ->
  recordStripePayment_tx now input d = Ok (r, d') -> Billing d'.
Proof.
  intros B Ha Hc E. apply bind_ok in E as (found & d1 & G & E). apply read_ok in G as [-> ->].
  destruct (List.find _ _) as [mapping|] eqn:Hf; [|discriminate E]. apply List.find_some in Hf as [Hin _].
  destruct (is_linked mapping) eqn:L; [run_m; exact B|].
  assert (L' : sr_invoicePaymentId mapping = None) by (unfold is_linked in L; destruct (sr_invoicePaymentId mapping); congruence).
  apply bind_ok in E as (row & d1 & G & E). apply read_ok in G as [-> ->].
  destruct (db_invoices d !! sr_invoiceId mapping) as [inv|] eqn:Hrow; [|discriminate E].
  pose proof (se_rows _ (bi_sessions _ B) mapping Hin) as (inv' & m & _ & _ & _ & _ & _ & _ & _ & Hu).
  rewrite L' in Hu. unfold unlinked_ok in Hu.
  destruct (sr_status mapping) eqn:Hst; try (run_m; exact B); try discriminate E; [|contradiction].
  destruct (terminal_reason inv mapping input) as [reason|] eqn:Ht.
  - apply bind_ok in E as (? & d1 & G & E). run_m. eapply markMapping_Billing; eassumption.
  - eapply capture_Billing; eassumption.
Qed.

(** ** Reversals *)

Lemma events_Billing evs d : Billing d -> Billing (set_stripeEvents evs d).
Proof.
  intros B. pose proof (bi_sessions _ B) as S. destruct B as [W A B C D E _ F G I J]. destruct W.
  constructor; cbn; auto; [constructor; cbn; auto|]. destruct S. constructor; auto.
Qed.

Lemma update_event_Billing id f d u d' : Billing d -> update_event id f d = Ok (u, d') -> Billing d'.
Proof. intros B E. apply modify_ok in E as ->. apply events_Billing, B. Qed.

Lemma settle_event_Billing id st err x d r d' : Billing d -> settle_event id st err x d = Ok (r, d') -> Billing d'.
Proof. intros B E. apply bind_ok in E as (? & d1 & G & E). run_m. eapply update_event_Billing; eassumption. Qed.

Lemma retry_event_Billing now id reason d r d' : Billing d -> retry_event now id reason d = Ok (r, d') -> Billing d'.
Proof. intros B E. apply bind_ok in E as (? & d1 & G & E). run_m. eapply update_event_Billing; eassumption. Qed.

(** Rewriting one payment. *)
Definition repaid (pid : string) (g : Payment -> Payment) (p : Payment) : Payment := if String.eqb (py_id p) pid then g p else p.

Lemma payments_of_map i g d :
  (forall p, py_invoiceId (g p) = py_invoiceId p) -> payments_of i (set_payments (map g (db_payments d)) d) = map g (payments_of i d).
Proof.
  intros Hg. unfold payments_of. cbn. induction (db_payments d) as [|p ps IH]; [reflexivity|]. simpl. rewrite Hg, IH.
  destruct (String.eqb _ _); reflexivity.
Qed.

Lemma repaid_id pid g ps : (forall p, py_id (g p) = py_id p) -> map py_id (map (repaid pid g) ps) = map py_id ps.
Proof. intros Hg. rewrite map_map. apply map_ext. intros p. unfold repaid. destruct (String.eqb _ _); auto. Qed.

Lemma repaid_none pid g ps : ~ In pid (map py_id ps) -> map (repaid pid g) ps = ps.
Proof.
  induction ps as [|p ps IH]; [reflexivity|]. intros N. simpl. rewrite IH by (intros F; apply N; right; exact F).
  unfold repaid. destruct (String.eqb_spec (py_id p) pid) as [E|E]; [|reflexivity]. elim N. left. exact E.
Qed.

Lemma repaid_sum pid g c' ps p : forall cs,
  (forall q, py_amount (g q) = fixed2 c' /\ pulled (g q) = pulled q) ->
  map py_amount ps = map fixed2 cs -> List.NoDup (map py_id ps) -> In p ps -> py_id p = pid ->
  exists c cs', In c cs /\ py_amount p = fixed2 c /\ map py_amount (map (repaid pid g) ps) = map fixed2 cs' /\
    (forall P : Z -> Prop, List.Forall P cs -> P c' -> List.Forall P cs') /\ zsum cs' = zsum cs - c + c' /\
    zsum (own (map (repaid pid g) ps) cs') = zsum (own ps cs) + (if pulled p then 0 else c' - c).
Proof.
  induction ps as [|q ps IH]; intros cs Hg E N Hin Hid; [destruct Hin|]. destruct cs as [|c cs]; [discriminate E|].
  injection E as Ea E. inversion N as [|? ? Nq Nr]; subst. destruct (String.eqb_spec (py_id q) (py_id p)) as [Eq|Eq].
  - assert (p = q) as ->.
    { destruct Hin as [->|Hin]; [reflexivity|]. elim Nq. rewrite Eq. apply in_map, Hin. }
    exists c, (c' :: cs). split; [left; reflexivity|]. split; [exact Ea|]. cbn [map]. rewrite repaid_none by exact Nq.
    unfold repaid. rewrite String.eqb_refl, !own_cons, (proj2 (Hg q)). cbn [map]. rewrite (proj1 (Hg q)).
    split; [congruence|]. split; [|split; [simpl; lia|destruct (pulled q); lia]]. intros P HP HPc. inversion HP; subst. constructor; assumption.
  - destruct Hin as [->|Hin]; [contradiction|]. destruct (IH cs Hg E Nr Hin eq_refl) as (x & cs' & Hx & Hpx & Hm & HP & Hz & Ho).
    exists x, (c :: cs'). split; [right; exact Hx|]. split; [exact Hpx|]. cbn [map]. rewrite !own_cons, Ho. unfold repaid at 1 3.
    destruct (String.eqb_spec (py_id q) (py_id p)); [contradiction|]. split; [cbn [map]; congruence|].
    split; [|split; [simpl; lia|destruct (pulled q); lia]]. intros P HPc HPx. inversion HPc; subst. constructor; auto.
Qed.

Lemma zsum_member c cs : List.Forall (fun x => 0 < x) cs -> In c cs -> c <= zsum cs.
Proof.
  induction 1 as [|x cs Hx Hr IH]; intros Hin; [destruct Hin|]. pose proof (zsum_pos_bounds cs Hr). simpl.
  destruct Hin as [->|Hin]; [lia|]. specialize (IH Hin). lia.
Qed.

Lemma fixed2_inj a b : Z.abs a <= cents_bound -> Z.abs b <= cents_bound -> fixed2 a = fixed2 b -> a = b.
Proof.
  intros Ha Hb E. pose proof (toCents_money a Ha) as F. rewrite E, toCents_money in F by exact Hb.
  pose proof (js_eq_int b a) as G. rewrite F, js_eq_int, Z.eqb_refl in G. symmetry in G. apply Z.eqb_eq in G. auto.
Qed.

(** A charge and the books of its invoice. *)
Record charge_at (d : Db) (mapping : StripeRow) (inv : Invoice) (m T : Z) (cs : list Z) : Prop := {
  ca_billing : Billing d;
  ca_in : In mapping (db_stripe d);
  ca_row : db_invoices d !! sr_invoiceId mapping = Some inv;
  ca_issued : iv_status inv <> st_draft;
  ca_currency : iv_currencyCode inv = sr_currency mapping;
  ca_pos : 0 < m;
  ca_amount : sr_amount mapping = fixed2 (minor_cents m (minorUnitExponent (sr_currency mapping)));
  ca_bound : minor_cents m (minorUnitExponent (sr_currency mapping)) < column_bound;
  ca_reversal : reversal_ok m (sr_reversal mapping);
  ca_link : match sr_invoicePaymentId mapping with
            | Some pid => exists p, In p (db_payments d) /\ py_id p = pid /\ py_invoiceId p = sr_invoiceId mapping /\
                0 < targetMinor m (sr_reversal mapping) /\
                py_amount p = fixed2 (minor_cents (targetMinor m (sr_reversal mapping)) (minorUnitExponent (sr_currency mapping)))
            | None => unlinked_ok m mapping
            end;
  ca_total : im_total (iv_money inv) = fixed2 T /\ Z.abs T < column_bound /\ whole_units (iv_currencyCode inv) T;
  ca_cents : map py_amount (payments_of (sr_invoiceId mapping) d) = map fixed2 cs;
  ca_whole : List.Forall (fun c => 0 < c /\ whole_units (iv_currencyCode inv) c) cs;
  ca_sum : 0 <= zsum cs < column_bound;
  ca_strict : undisputed (sr_invoiceId mapping) d -> zsum (own (payments_of (sr_invoiceId mapping) d) cs) <= Z.max 0 T /\ (iv_status inv = st_void -> cs = []);
}.

Lemma charge_at_intro d mapping : Billing d -> In mapping (db_stripe d) -> exists inv m T cs, charge_at d mapping inv m T cs.
Proof.
  intros B Hin. destruct (se_rows _ (bi_sessions _ B) mapping Hin) as (inv & m & E1 & E2 & E3 & E4 & E5 & E6 & E7 & E8).
  destruct (bi_rows _ B _ _ E1 E2) as [_ (T & cs & HT & HTb & HTw & Hps & Hcs & Hsz & Hsum & _ & _ & _ & _ & Hvoid)].
  pose proof (zsum_pos_bounds cs ltac:(eapply List.Forall_impl; [|exact Hcs]; intros x [? _]; assumption)) as Hz.
  exists inv, m, T, cs. constructor; auto.
Qed.

Section Reversal.
Context (now : Z) (d dm : Db) (mapping : StripeRow) (inv : Invoice) (m T : Z) (cs : list Z) (facts : FinancialFacts) (reversal : Reversal) (u : unit) (d' : Db).
Hypothesis C : charge_at d mapping inv m T cs.
Hypothesis O : observe m (sr_reversal mapping) facts = Ok reversal.
Let i := sr_invoiceId mapping.
Let target := targetMinor m reversal.
Let units n := minor_cents n (minorUnitExponent (sr_currency mapping)).
Hypothesis Einv : db_invoices dm = db_invoices d.
Hypothesis Elines : db_lines dm = db_lines d.
Hypothesis Eentries : db_entries dm = db_entries d.
Hypothesis Eparts : db_parts dm = db_parts d.
Hypothesis E : recomputeInvoiceStatus now i dm = Ok (u, d').

Lemma reversal_kept : reversal_ok m reversal.
Proof. apply (observe_ok _ _ _ _ (ca_reversal _ _ _ _ _ _ C) O). Qed.

Lemma target_units : 0 < target -> 0 < units target < column_bound /\ whole_units (iv_currencyCode inv) (units target).
Proof.
  intros Ht. pose proof (ca_pos _ _ _ _ _ _ C). pose proof (target_bounds m reversal reversal_kept) as Hb. split.
  - pose proof (minor_cents_pos target (sr_currency mapping) Ht). pose proof (ca_bound _ _ _ _ _ _ C).
    pose proof (minor_cents_mono target m (sr_currency mapping) ltac:(fold target in Hb; lia)). unfold units. lia.
  - rewrite (ca_currency _ _ _ _ _ _ C). exists target. reflexivity.
Qed.

(** The row the event leaves. *)
Definition after_event (link : option string) : StripeRow := with_charge (nextStatus m reversal) link reversal mapping.

Definition rows_after (link : option string) : list StripeRow :=
  map (fun r => if by_id (sr_id mapping) r then after_event link else r) (db_stripe d).

Lemma after_decided link : decided (after_event link).
Proof. right. cbn. unfold nextStatus. repeat case_match; discriminate. Qed.

Lemma after_undisputed link : db_stripe dm = rows_after link ->
  forall j, undisputed j dm -> undisputed j d /\ (j = i -> rv_lastDisputeEventCreated reversal = None).
Proof.
  intros Es. apply (replace_undisputed d dm mapping (after_event link)); auto; [apply C|apply C|].
  cbn. intros N. apply (observe_ok _ _ _ _ (ca_reversal _ _ _ _ _ _ C) O) in N. apply N.
Qed.

Lemma after_unlinked : target = 0 -> unlinked_ok m (after_event None).
Proof.
  intros Ht. unfold unlinked_ok, after_event. cbn. pose proof reversal_kept as (_ & _ & K).
  destruct (nothing_left m reversal (ca_pos _ _ _ _ _ _ C) Ht) as [[-> Hr]|[-> Hw]]; [exact Hr|]. intros N. specialize (K N). congruence.
Qed.

Lemma after_ok link :
  match link with
  | Some pid => exists p, In p (db_payments dm) /\ py_id p = pid /\ py_invoiceId p = i /\ 0 < target /\ py_amount p = fixed2 (units target)
  | None => target = 0
  end -> mapping_ok dm (after_event link).
Proof.
  intros L. pose proof reversal_kept as K. destruct C. exists inv, m. cbn. rewrite Einv. repeat (split; [assumption|]).
  destruct link; [exact L|apply after_unlinked, L].
Qed.

Lemma unlinked_settled :
  sr_invoicePaymentId mapping = None -> target = 0 -> db_stripe dm = rows_after None -> db_payments dm = db_payments d ->
  db_next dm = db_next d -> Billing d'.
Proof.
  intros L Ht Es Ep En. pose proof (after_undisputed None Es) as U. destruct C as [B Hin Hrow Hs Hcur Hm Ham Hb Hr Hl (HT & HTb & HTw) Hcs Hw Hsz Hst].
  apply (recompute_changed now d dm i inv T cs u d'); auto; try (rewrite ?Ep, ?En; apply B); try (unfold column_bound in *; lia).
  - intros j _. unfold payments_of. rewrite Ep. reflexivity.
  - rewrite Ep. auto.
  - apply (Sessions_replace d dm mapping (after_event None)); auto; [apply B|apply after_decided|lia|rewrite Ep; auto|apply after_ok, Ht].
  - intros j _ Uj. apply (U j Uj).
  - rewrite <- Hcs. unfold payments_of. rewrite Ep. reflexivity.
  - intros Ui. unfold payments_of. rewrite Ep. apply Hst, (U i Ui).
  - intros Ui. apply Hst, (U i Ui).
Qed.

(** A payment comes back only after a dispute. *)
Lemma unlinked_restored pay :
  sr_invoicePaymentId mapping = None -> sr_status mapping <> sp_pending -> sr_status mapping <> sp_failed -> 0 < target ->
  py_id pay = uuid (db_next d) -> py_invoiceId pay = i -> py_amount pay = fixed2 (units target) ->
  db_stripe dm = rows_after (Some (py_id pay)) -> db_payments dm = (db_payments d ++ [pay])%list -> db_next dm = S (db_next d) -> Billing d'.
Proof.
  intros L Np Nf Ht Pi Pv Pa Es Ep En. pose proof (after_undisputed _ Es) as U. pose proof (target_units Ht) as [Hc Hcw].
  pose proof reversal_kept as K. destruct (observe_ok _ _ _ _ (ca_reversal _ _ _ _ _ _ C) O) as (_ & Hmono & Hnd).
  assert (Disputed : rv_lastDisputeEventCreated reversal <> None).
  { intros N. destruct (Hnd N) as [N0 _]. pose proof (ca_link _ _ _ _ _ _ C) as Hu. rewrite L in Hu. unfold unlinked_ok in Hu.
    destruct (sr_status mapping); try congruence; try contradiction. pose proof (ca_pos _ _ _ _ _ _ C).
    unfold target, targetMinor in Ht. destruct (rv_disputeFundsWithdrawn reversal), K as (_ & K2 & _); lia. }
  destruct C as [B Hin Hrow Hs Hcur Hm Ham Hb Hr Hl (HT & HTb & HTw) Hcs Hw Hsz Hst].
  apply (payment_appended now d dm i inv T cs pay (units target) u d'); auto; [lia| | |].
  - apply (Sessions_replace d dm mapping (after_event (Some (py_id pay)))); auto; [apply B|apply after_decided|lia| | |].
    + intros p r Hp _ _ _. rewrite Ep. apply in_or_app. auto.
    + intros pid r [= <-] Hr' _. rewrite Pi. exact (fresh_link d r B Hr').
    + apply after_ok. exists pay. repeat split; auto. rewrite Ep. apply in_or_app. right. left. reflexivity.
  - intros j _ Uj. apply (U j Uj).
  - intros Ui. elim Disputed. exact (proj2 (U i Ui) eq_refl).
Qed.

Lemma linked_removed pid :
  sr_invoicePaymentId mapping = Some pid -> target = 0 -> db_stripe dm = rows_after None ->
  db_payments dm = List.filter (fun p => negb (String.eqb (py_id p) pid)) (db_payments d) -> db_next dm = db_next d -> Billing d'.
Proof.
  intros L Ht Es Ep En. pose proof (after_undisputed _ Es) as U. pose proof (after_ok None Ht) as Hok.
  destruct C as [B Hin Hrow Hs Hcur Hm Ham Hb Hr Hl (HT & HTb & HTw) Hcs Hw Hsz Hst]. rewrite L in Hl. destruct Hl as (p & Hp & Hid & Hpi & _).
  assert (Hpos : List.Forall (fun c => 0 < c) cs) by (eapply List.Forall_impl; [|exact Hw]; intros c [? _]; assumption).
  destruct (remove_amount _ cs pid Hcs Hpos) as (cs' & Hmap & HP & Hz & Ho).
  assert (Hpays : forall j, payments_of j dm = List.filter (fun p => negb (String.eqb (py_id p) pid)) (payments_of j d))
    by (intros j; unfold payments_of; rewrite Ep; apply filter_filter_comm).
  apply (recompute_changed now d dm i inv T cs' u d'); auto; try lia.
  - intros j Hj. rewrite Hpays. apply filter_all. intros q Hq. apply filter_In in Hq as [Hq Eq]. apply String.eqb_eq in Eq.
    apply negb_true_iff, String.eqb_neq. intros F. apply Hj. rewrite <- Eq. unfold i. rewrite <- Hpi. f_equal.
    apply (unique_in py_id (db_payments d)); [apply B|exact Hq|exact Hp|congruence].
  - rewrite Ep. apply NoDup_filter_map, B.
  - rewrite Ep, En. intros y Hy. apply in_map_iff in Hy as (q & <- & Hq). apply filter_In in Hq as [Hq _]. apply (bi_pay_ids _ B), in_map, Hq.
  - rewrite Ep. intros q Hq. apply filter_In in Hq as [Hq _]. auto.
  - apply (Sessions_replace d dm mapping (after_event None)); auto; [apply B|apply after_decided|lia|].
    intros q r Hq Hr' Nr Lr. rewrite Ep. apply filter_In. split; [exact Hq|]. apply negb_true_iff, String.eqb_neq. intros F.
    apply Nr. f_equal. apply (se_links _ (bi_sessions _ B) r mapping pid); auto. congruence.
  - intros j _ Uj. apply (U j Uj).
  - rewrite Hpays. exact Hmap.
  - intros Ui. rewrite Hpays. destruct (Hst (proj1 (U i Ui))). unfold i in *. lia.
  - intros Ui Ev. destruct (Hst (proj1 (U i Ui))) as [_ Hv]. rewrite (Hv Ev) in Hcs. apply map_eq_nil in Hcs.
    unfold i in *. rewrite Hcs in Hmap. symmetry in Hmap. apply map_eq_nil in Hmap. exact Hmap.
Qed.

Lemma linked_rewritten pid :
  sr_invoicePaymentId mapping = Some pid -> 0 < target -> db_stripe dm = rows_after (Some pid) ->
  db_payments dm = map (repaid pid (with_amount (fixed2 (units target)))) (db_payments d) -> db_next dm = db_next d -> Billing d'.
Proof.
  intros L Ht Es Ep En. pose proof (after_undisputed _ Es) as U. pose proof (target_units Ht) as [Hc Hcw].
  pose proof (observe_undisputed m _ _ _ (ca_reversal _ _ _ _ _ _ C) O) as Hdec.
  pose proof (target_bounds m _ (ca_reversal _ _ _ _ _ _ C)) as Hold. pose proof (after_ok (Some pid)) as Hok.
  destruct C as [B Hin Hrow Hs Hcur Hm Ham Hb Hr Hl (HT & HTb & HTw) Hcs Hw Hsz Hst]. rewrite L in Hl.
  destruct Hl as (p & Hp & Hid & Hpi & Hpos0 & Hpa).
  set (old := minor_cents _ _) in Hpa.
  assert (Hold' : 0 < old < column_bound).
  { unfold old. pose proof (minor_cents_pos _ (sr_currency mapping) Hpos0).
    pose proof (minor_cents_mono _ m (sr_currency mapping) (ltac:(lia) : targetMinor m (sr_reversal mapping) <= m)). lia. }
  assert (Hpos : List.Forall (fun c => 0 < c) cs) by (eapply List.Forall_impl; [|exact Hw]; intros c [? _]; assumption).
  assert (Hpin : In p (payments_of i d)) by (apply filter_In; split; [exact Hp|apply String.eqb_eq; exact Hpi]).
  destruct (repaid_sum pid (with_amount (fixed2 (units target))) (units target) (payments_of i d) p cs (fun q => conj eq_refl eq_refl) Hcs ltac:(apply NoDup_filter_map, B) Hpin Hid)
    as (c & cs' & Hcin & Hpc & Hmap & HP & Hz & Ho).
  pose proof (zsum_member c cs Hpos Hcin) as Hcle. pose proof (proj1 (List.Forall_forall _ _) Hpos c Hcin) as Hc0. cbn in Hc0.
  assert (c = old) as -> by (apply fixed2_inj; [unfold cents_bound, column_bound in *; lia..|congruence]).
  assert (Hg : forall q, py_invoiceId (repaid pid (with_amount (fixed2 (units target))) q) = py_invoiceId q)
    by (intros q; unfold repaid; destruct (String.eqb _ _); reflexivity).
  assert (Hpays : forall j, payments_of j dm = map (repaid pid (with_amount (fixed2 (units target)))) (payments_of j d))
    by (intros j; rewrite <- (payments_of_map j _ d Hg); unfold payments_of; rewrite Ep; reflexivity).
  apply (recompute_changed now d dm i inv T cs' u d'); auto; try lia.
  - intros j Hj. rewrite Hpays. apply repaid_none. intros F. apply in_map_iff in F as (q & Eq & Hq).
    apply filter_In in Hq as [Hq Eqi]. apply String.eqb_eq in Eqi. apply Hj. rewrite <- Eqi. unfold i. rewrite <- Hpi. f_equal.
    apply (unique_in py_id (db_payments d)); [apply B|exact Hq|exact Hp|congruence].
  - rewrite Ep, repaid_id by reflexivity. apply B.
  - rewrite Ep, repaid_id, En by reflexivity. apply B.
  - rewrite Ep. intros q Hq. apply in_map_iff in Hq as (q0 & <- & Hq0). unfold repaid.
    destruct (String.eqb_spec (py_id q0) pid) as [F|F]; [|auto]. right. cbn. unfold i. rewrite <- Hpi. f_equal.
    apply (unique_in py_id (db_payments d)); [apply B|exact Hq0|exact Hp|congruence].
  - assert (In (repaid pid (with_amount (fixed2 (units target))) p) (db_payments dm)) as Hnew by (rewrite Ep; apply in_map, Hp).
    apply (Sessions_replace d dm mapping (after_event (Some pid))); auto; [apply B|apply after_decided|lia| | |].
    + intros q r Hq Hr' Nr Lr. rewrite Ep. apply in_map_iff. exists q. split; [|exact Hq]. unfold repaid.
      destruct (String.eqb_spec (py_id q) pid) as [F|F]; [|reflexivity]. elim Nr. f_equal.
      apply (se_links _ (bi_sessions _ B) r mapping pid); auto. congruence.
    + intros pid' r [= <-] Hr' Nr Lr. apply Nr. f_equal. exact (se_links _ (bi_sessions _ B) r mapping pid Hr' Hin Lr L).
    + apply Hok. eexists. split; [exact Hnew|]. unfold repaid. rewrite Hid, String.eqb_refl. repeat split; auto.
  - intros j _ Uj. apply (U j Uj).
  - rewrite Hpays. exact Hmap.
  - apply (HP _ Hw). split; [lia|exact Hcw].
  - intros Ui. destruct (Hst (proj1 (U i Ui))) as [Hle _]. specialize (Hdec (proj2 (U i Ui) eq_refl)).
    pose proof (minor_cents_mono _ _ (sr_currency mapping) Hdec). rewrite Hpays, Ho. unfold i, old, units, target in *. destruct (pulled p); lia.
  - intros Ui Ev. destruct (Hst (proj1 (U i Ui))) as [_ Hv]. rewrite (Hv Ev) in Hcin. destruct Hcin.
Qed.
End Reversal.

(** *** The whole event *)

Lemma linked_Some mapping : is_linked mapping = true -> exists pid, sr_invoicePaymentId mapping = Some pid.
Proof. unfold is_linked. destruct (sr_invoicePaymentId mapping); [eauto|discriminate]. Qed.

Lemma reverse_Billing now mapping inv m T cs facts reversal d written d1 u1 d2 u d' :
  charge_at d mapping inv m T cs -> observe m (sr_reversal mapping) facts = Ok reversal ->
  negb (is_linked mapping) && match sr_status mapping with sp_pending | sp_failed => true | _ => false end = false ->
  write_payment mapping (nextStatus m reversal) reversal (targetMinor m reversal) d = Ok (written, d1) ->
  (if is_linked mapping && (targetMinor m reversal =? 0) then ret tt
   else do! _ := update_stripe (by_id (sr_id mapping)) (with_charge (nextStatus m reversal) (fst written) reversal) in checked_stripe) d1 = Ok (u1, d2) ->
  recomputeInvoiceStatus now (sr_invoiceId mapping) d2 = Ok (u, d') -> Billing d'.
Proof.
  intros C O Hpend W E2 E3. pose proof (bi_sessions _ (ca_billing _ _ _ _ _ _ C)) as S. pose proof (ca_in _ _ _ _ _ _ C) as Hin.
  pose proof (target_bounds m reversal (proj1 (observe_ok _ _ _ _ (ca_reversal _ _ _ _ _ _ C) O))) as Htb.
  unfold write_payment in W. destruct (sr_invoicePaymentId mapping) as [pid|] eqn:L.
  - assert (Hl : is_linked mapping = true) by (unfold is_linked; rewrite L; reflexivity). rewrite Hl in E2. cbn [andb] in E2.
    apply bind_ok in W as (found & e & G & W). apply read_ok in G as [-> ->]. destruct (List.find _ _) as [pay|]; [|discriminate W].
    apply bind_ok in W as (prev & e & G & W). apply minor_amount_ro in G as ->.
    destruct (Z.eqb_spec (targetMinor m reversal) 0) as [Ht|Ht].
    + apply bind_ok in W as (? & e & G & W). apply modify_ok in G as ->. apply bind_ok in W as (? & e & G & W). apply checked_stripe_ok in G as ->.
      apply bind_ok in W as (? & e & G & W). apply modify_ok in G as ->. run_m.
      eapply (linked_removed now d _ mapping inv m T cs facts reversal _ _ C O); try exact E3; try reflexivity; try eassumption.
      cbn. exact (by_id_rows d mapping _ S Hin).
    + apply bind_ok in W as (a & e & G & W). apply payment_amount_money in G as [-> ->]; [|lia|].
      2: { pose proof (minor_cents_mono (targetMinor m reversal) m (sr_currency mapping) ltac:(pose proof (ca_pos _ _ _ _ _ _ C); lia)).
           pose proof (ca_bound _ _ _ _ _ _ C). lia. }
      apply bind_ok in W as (? & e & G & W). apply modify_ok in G as ->. run_m. cbn [fst] in *.
      match goal with G : checked_stripe _ = _ |- _ => apply checked_stripe_ok in G as -> end.
      match goal with G : update_stripe _ _ _ = _ |- _ => apply modify_ok in G as -> end.
      eapply (linked_rewritten now d _ mapping inv m T cs facts reversal _ _ C O); try exact E3; try reflexivity; [exact L|lia|].
      cbn. exact (by_id_rows d mapping _ S Hin).
  - assert (Hl : is_linked mapping = false) by (unfold is_linked; rewrite L; reflexivity). rewrite Hl in E2, Hpend. cbn [andb negb] in E2, Hpend.
    destruct (Z.ltb_spec 0 (targetMinor m reversal)) as [Ht|Ht].
    + apply bind_ok in W as (id & e & G & W). apply mint_ok in G as [-> ->].
      apply bind_ok in W as (a & e & G & W). apply payment_amount_money in G as [-> ->]; [|lia|].
      2: { pose proof (minor_cents_mono (targetMinor m reversal) m (sr_currency mapping) ltac:(pose proof (ca_pos _ _ _ _ _ _ C); lia)).
           pose proof (ca_bound _ _ _ _ _ _ C). lia. }
      apply bind_ok in W as (? & e & G & W). apply modify_ok in G as ->. run_m. cbn [fst] in *.
      match goal with G : checked_stripe _ = _ |- _ => apply checked_stripe_ok in G as -> end.
      match goal with G : update_stripe _ _ _ = _ |- _ => apply modify_ok in G as -> end.
      set (pay := mkPayment _ _ _ _ _ _ _ _ _) in E3.
      refine (unlinked_restored now d _ mapping inv m T cs facts reversal _ _ C O _ _ _ _ E3 pay L _ _ Ht _ _ _ _ _ _); try reflexivity;
        try (intros F; rewrite F in Hpend; discriminate Hpend).
      cbn. exact (by_id_rows d mapping _ S Hin).
    + run_m. cbn [fst] in *.
      match goal with G : checked_stripe _ = _ |- _ => apply checked_stripe_ok in G as -> end.
      match goal with G : update_stripe _ _ _ = _ |- _ => apply modify_ok in G as -> end.
      eapply (unlinked_settled now d _ mapping inv m T cs facts reversal _ _ C O); try exact E3; try reflexivity; [exact L|lia|].
      cbn. exact (by_id_rows d mapping _ S Hin).
Qed.

Lemma apply_to_mapping_Billing now event mapping d r d' :
  Billing d -> In mapping (db_stripe d) -> apply_to_mapping now event mapping d = Ok (r, d') -> Billing d'.
Proof.
  intros B Hin E. destruct (charge_at_intro d mapping B Hin) as (inv & m & T & cs & C).
  unfold apply_to_mapping in E. apply bind_ok in E as (row & d1 & G & E). apply read_ok in G as [-> ->].
  rewrite (ca_row _ _ _ _ _ _ C) in E. apply bind_ok in E as (cur & d1 & G & E). apply read_ok in G as [-> ->].
  destruct (negb (existsb _ _)); [eapply settle_event_Billing; eassumption|].
  destruct (negb _); [eapply settle_event_Billing; eassumption|].
  destruct (negb _); [eapply settle_event_Billing; eassumption|].
  apply bind_ok in E as (orig & d1 & G & E). rewrite (ca_amount _ _ _ _ _ _ C), minor_amount_money in G by apply C. injection G as <- <-.
  destruct (match ff_chargeAmountMinor (fe_facts event) with Some n => negb (n =? m) | None => false end); [eapply settle_event_Billing; eassumption|].
  destruct (negb (is_linked mapping) && _) eqn:Hp; [eapply retry_event_Billing; eassumption|].
  destruct (observe m (sr_reversal mapping) (fe_facts event)) as [reversal|reason] eqn:O; [|eapply settle_event_Billing; eassumption].
  apply bind_ok in E as (written & d1 & G1 & E). apply bind_ok in E as (u1 & d2 & G2 & E). apply bind_ok in E as (u & d3 & G3 & E).
  eapply settle_event_Billing; [|exact E]. exact (reverse_Billing now mapping inv m T cs _ reversal d written d1 u1 d2 u d3 C O Hp G1 G2 G3).
Qed.

Lemma apply_open_Billing now event d r d' : Billing d -> apply_open now event d = Ok (r, d') -> Billing d'.
Proof.
  intros B E. unfold apply_open in E. cbv zeta in E. destruct (isNone _ && _); [eapply settle_event_Billing; eassumption|].
  destruct (ff_paymentIntentId _); [|eapply settle_event_Billing; eassumption].
  apply bind_ok in E as (ms & d1 & G & E). apply read_ok in G as [-> ->].
  destruct (List.filter _ _) as [|x [|y l]] eqn:F; cbn [firstn] in E;
    [eapply retry_event_Billing; eassumption| |eapply settle_event_Billing; eassumption].
  eapply apply_to_mapping_Billing; [exact B| |exact E].
  assert (In x [x]) as Hx by (left; reflexivity). rewrite <- F in Hx. apply filter_In in Hx. apply Hx.
Qed.

Lemma apply_Billing now id d r d' : Billing d -> applyStripeFinancialEvent now id d = Ok (r, d') -> Billing d'.
Proof.
  intros B E. apply bind_ok in E as (found & d1 & G & E). apply read_ok in G as [-> ->].
  destruct (find_event id d) as [event|]; [|discriminate E].
  destruct (fe_status event); try (eapply apply_open_Billing; eassumption); run_m; exact B.
Qed.

(** ** Payment links *)

(** What an offer charges: a positive amount in whole minor units. *)
Definition offer_ok (o : PayLinkOffer) : Prop :=
  let currency := iv_currencyCode (of_invoice o) in
  exists m n, of_amount o = fixed2 (minor_cents m (minorUnitExponent currency)) /\
    toMinorUnits (Str (of_amount o)) currency = Ok n /\ js_le n (ofZ 0) = false.

Lemma offer_amount o s :
  offer_ok o -> pg_numeric (of_amount o) = Ok s ->
  exists m, 0 < m /\ s = fixed2 (minor_cents m (minorUnitExponent (iv_currencyCode (of_invoice o)))) /\
    minor_cents m (minorUnitExponent (iv_currencyCode (of_invoice o))) < column_bound.
Proof.
  intros (m & n & Ha & Hn & Hp) E. rewrite Ha in *. apply pg_numeric_kept in E as [-> Hb]. exists m.
  assert (Hm : Z.abs m <= 10 ^ 13) by (unfold minor_cents, column_bound in Hb; destruct (minorUnitExponent_cases (iv_currencyCode (of_invoice o))) as [F|F]; rewrite F in Hb; cbn in Hb; lia).
  rewrite toMinorUnits_money in Hn by exact Hm. injection Hn as <-. rewrite js_le_int in Hp. apply Z.leb_gt in Hp.
  split; [exact Hp|]. split; [reflexivity|]. lia.
Qed.

Lemma round_shape a cur s : roundToCurrency a cur = Ok s -> exists m, s = fixed2 (minor_cents m (minorUnitExponent cur)).
Proof.
  unfold roundToCurrency. destruct (parseDecimal a) as [x|]; cbn; [|discriminate]. intros [= <-]. eexists.
  apply formatMinor_fixed2, minorUnitExponent_cases.
Qed.

Lemma charge_shape inv cur a dep : computeChargeNow inv cur = Ok (a, dep) -> exists m, a = fixed2 (minor_cents m (minorUnitExponent cur)).
Proof.
  unfold computeChargeNow, round_cents_to. destruct (_ && _); match goal with |- context [roundToCurrency ?x cur] => destruct (roundToCurrency x cur) as [s|] eqn:E end;
    cbn; try discriminate; intros [= <- _]; exact (round_shape _ _ _ E).
Qed.

Lemma find_grows {A} (p : A -> bool) l more x : List.find p l = Some x -> List.find p (l ++ more)%list = Some x.
Proof. induction l as [|y l IH]; [discriminate|]. cbn. destruct (p y); auto. Qed.

Lemma commitPayLink_Billing now o session d r d' :
  Billing d -> offer_ok o -> In (pin_invoice (of_invoiceId o) (iv_currencyCode (of_invoice o))) pinned ->
  commitPayLink now o session d = Ok (r, d') -> Billing d'.
Proof.
  intros B Ho Hpin E. pose proof (bi_sessions _ B) as Se. unfold commitPayLink in E. cbv zeta in E.
  do 5 (apply bind_ok in E as (? & d1 & G & E); pose proof (read_only _ _ _ G) as ->; clear G).
  apply bind_ok in E as (id & d1 & G & E). apply mint_ok in G as [-> ->].
  apply bind_ok in E as (a & d1 & G & E). apply lift_ok in G as [G ->].
  apply (offer_amount o _ Ho) in G as (m & Hm & -> & Hb).
  apply bind_ok in E as (? & d1 & G & E). apply modify_ok in G. apply bind_ok in E as (? & d2 & G2 & E). apply checked_stripe_ok in G2 as ->.
  apply bind_ok in E as (? & d2 & G2 & E). run_m.
  assert (R : resession d1 d2).
  { revert G2. destruct x1; intros G2; [|run_m; reflexivity]. eapply update_stripe_resession; [|exact G2]. intros r. eexists. reflexivity. }
  apply (resession_Billing _ _ R). clear R G2. set (row := mkStripe _ _ _ _ _ _ _ _ _ _ _ _ _ _ _) in G. rewrite G. cbn.
  assert (B1 : Billing (set_next (S (db_next d)) d)).
  { apply (draft_work_Billing d); [exact B|]. apply (mint_work d (uuid (db_next d))). reflexivity. }
  apply (stripe_rows_Billing (set_next (S (db_next d)) d)); [exact B1| |].
  - assert (Fresh : ~ In (uuid (db_next d)) (map sr_id (db_stripe d))).
    { intros F. destruct (se_below _ Se _ F) as (k & Hk & F'). apply uuid_inj in F'. lia. }
    destruct (se_pinned _ Se _ Hpin) as (inv & P1 & P2 & P3).
    constructor; cbn.
    + rewrite map_app. apply List.NoDup_app; [apply Se|repeat constructor; intros []|]. intros y Hy [<-|[]]. exact (Fresh Hy).
    + intros y Hy. rewrite map_app in Hy. apply in_app_or in Hy as [Hy|[<-|[]]].
      * destruct (se_below _ Se _ Hy) as (k & Hk & ->). exists k. split; [lia|reflexivity].
      * exists (db_next d). split; [lia|reflexivity].
    + intros r r' pid Hr Hr' L L'. apply in_app_or in Hr as [Hr|[<-|[]]]; [|discriminate L].
      apply in_app_or in Hr' as [Hr'|[<-|[]]]; [|discriminate L']. exact (se_links _ Se r r' pid Hr Hr' L L').
    + intros r Hr. apply in_app_or in Hr as [Hr|[<-|[]]]; [exact (se_rows _ Se r Hr)|].
      exists inv, m. cbn. repeat (split; [assumption || reflexivity|]). split; [|reflexivity].
      unfold reversal_ok, no_reversal. cbn. repeat split; lia.
    + intros p Hp. pose proof (se_pinned _ Se p Hp) as K. destruct p as [j cur|oid]; [exact K|]. destruct K as (r & F & D).
      exists r. split; [|exact D]. exact (find_grows _ _ _ _ F).
  - intros j U r Hr. apply (U r). cbn. apply in_or_app. auto.
Qed.
End Charges.

(** Making an offer pins its invoice. *)
Lemma offer_made `{Uuids} {pins : Pinned} i actor d o d' :
  Billing d -> offerPayLink i actor d = Ok (o, d') ->
  d' = d /\ offer_ok o /\ of_invoiceId o = i /\ db_invoices d !! i = Some (of_invoice o) /\ iv_status (of_invoice o) <> st_draft.
Proof.
  intros B E. unfold offerPayLink in E. apply bind_ok in E as (inv & d1 & G & E). apply getOwned_ok in G as [-> Hrow].
  do 2 (apply bind_ok in E as (? & d1 & G & E); pose proof (read_only _ _ _ G) as ->; clear G).
  apply bind_ok in E as (? & d1 & G & E). apply require_ok in G as [Hp ->].
  assert (Hs : iv_status inv <> st_draft) by (intros F; rewrite F in Hp; discriminate Hp).
  apply bind_ok in E as (? & d1 & G & E). assert (d1 = d) as -> by (unfold assertNoPendingRevocation in G; run_m; reflexivity). clear G.
  apply bind_ok in E as ([a dep] & d1 & Gc & E). apply lift_throw_ok in Gc as [Gc ->].
  apply bind_ok in E as (n & d1 & Gm & E). apply lift_throw_ok in Gm as [Gm ->].
  apply bind_ok in E as (? & d1 & Gn & E). apply require_ok in Gn as [Gn ->].
  apply bind_ok in E as (acc & d1 & G & E). apply read_ok in G as [-> ->].
  destruct (getPartnerStripeClient _ _); [|discriminate E]. run_m. split; [reflexivity|]. cbn [of_invoiceId of_invoice].
  split; [|auto]. cbn [fst] in *. destruct (charge_shape _ _ _ _ Gc) as [m Ha].
  exists m, n. cbn [of_amount of_invoice]. split; [exact Ha|]. split; [exact Gm|]. apply negb_true_iff, Gn.
Qed.
