(* ===== verification/PullSafety.v ===== *)
(** * Pulled payments keep the books

    A payment pulled from the accounting service, edited or taken back, against
    the invariant [Billing]: the header follows, whatever was owed. *)

From Stdlib Require Import QArith Qround Qabs Qpower Lqa.
From S2P Require Import Prelude JsString JsNumber Currency QuoteMath QuoteSpec IsoDate ContractCoverage InvoiceMath BillingDb InvoiceService StripeSessions StripeReversal InvoiceLifecycle StripeReconcile PaymentPull InvoiceInvariants InvoiceSafety StripeSafety.
From stdpp Require Import base gmap strings list.

Local Open Scope string_scope.
Local Open Scope Z_scope.
Local Open Scope billing_scope.

(** ** Amounts *)

(** A reported amount beyond the column is refused by it. *)
Lemma wide_amount m cur s :
  0 < m <= MAX_SAFE_INTEGER -> column_bound <= minor_cents m (minorUnitExponent cur) ->
  fromMinorUnits (Num (ofZ m)) cur = Ok s -> forall a, pg_numeric s <> Ok a.
Proof.
  intros Hm Hb E a Ha. unfold MAX_SAFE_INTEGER in Hm. unfold fromMinorUnits in E. cbn [to_num isFinite ofZ negb] in E.
  match type of E with Ok ?x = _ => assert (Es : s = x) by congruence end. subst s. clear E.
  unfold minorUnitExponent, minor_cents in Hb. destruct (isZeroDecimal cur).
  - change (10 ^ (2 - 0)) with 100 in Hb. change (Fin (inject_Z m)) with (ofZ m) in Ha. unfold ofZ in Ha.
    assert (H0 : (0 < inject_Z m)%Q) by (change 0%Q with (inject_Z 0); rewrite <- Zlt_Qlt; lia).
    assert (H1 : (inject_Z m <= inject_Z (2 ^ 53))%Q) by (rewrite <- Zle_Qle; lia). change (inject_Z (2 ^ 53)) with 9007199254740992%Q in H1.
    rewrite (toFixed_pos _ (m * 100) H0) in Ha; [|lra|].
    + apply pg_numeric_kept in Ha as [_ Ha]. lia.
    + symmetry. apply Qfloor_near. rewrite inject_Z_mult. change (inject_Z 100) with 100%Q.
      assert (inject_Z m * 100 - inject_Z m * 100 == 0)%Q as -> by ring. reflexivity.
  - change (10 ^ (2 - 2)) with 1 in Hb. unfold column_bound in Hb. cbn [js_div ofZ] in Ha.
    change (isZero (ofZ 100)) with false in Ha. cbv beta iota in Ha.
    set (y := (inject_Z m / inject_Z 100)%Q) in *.
    assert (Ey : (y * 100 == inject_Z m)%Q) by (unfold y; change (inject_Z 100) with 100%Q; field).
    assert (H0 : (inject_Z (10 ^ 12) <= inject_Z m)%Q) by (rewrite <- Zle_Qle; lia). change (inject_Z (10 ^ 12)) with 1000000000000%Q in H0.
    assert (H1 : (inject_Z m <= inject_Z (2 ^ 53))%Q) by (rewrite <- Zle_Qle; lia). change (inject_Z (2 ^ 53)) with 9007199254740992%Q in H1.
    assert (Hy : (0 < y)%Q) by lra.
    assert (Hn : normal y).
    { right. rewrite Qabs_pos by lra. assert (two ^ (-1022) <= two ^ 0)%Q by (apply two_mono; lia).
      change (two ^ 0)%Q with 1%Q in *. lra. }
    pose proof (rnd_err y Hn) as He. rewrite (Qabs_pos y) in He by lra. pose proof u53_small as Hu.
    apply Qabs_near_bounds in He.
    rewrite fin_small in Ha by (apply small_two_1000; rewrite Qabs_pos by lra; lra).
    set (z := rnd y) in *. clearbody z y.
    assert (Hz : (10000000000 - (1 # 1000) <= z)%Q) by nra. assert (Hz1 : (z <= 100000000000000)%Q) by nra.
    rewrite (toFixed_pos _ (Qfloor (z * 100 + (1 # 2)))) in Ha; [|rewrite Qred_correct; lra..|apply Qfloor_comp; rewrite Qred_correct; reflexivity].
    apply pg_numeric_kept in Ha as [_ Ha].
    assert (10 ^ 12 <= Qfloor (z * 100 + (1 # 2))); [|unfold column_bound in Ha; lia].
    rewrite <- (Qfloor_Z (10 ^ 12)). apply Qfloor_resp_le. change (inject_Z (10 ^ 12)) with 1000000000000%Q. lra.
Qed.

Lemma pulled_amount m cur d s d' :
  0 < m <= MAX_SAFE_INTEGER -> payment_amount m cur d = Ok (s, d') ->
  s = fixed2 (minor_cents m (minorUnitExponent cur)) /\ minor_cents m (minorUnitExponent cur) < column_bound /\ d' = d.
Proof.
  intros Hm E. destruct (Z_lt_le_dec (minor_cents m (minorUnitExponent cur)) column_bound) as [Hb|Hb].
  - apply payment_amount_money in E as [-> ->]; [auto|lia|exact Hb].
  - exfalso. unfold payment_amount in E. run_m.
    match goal with G : fromMinorUnits _ _ = Ok _, G' : pg_numeric _ = Ok _ |- _ => exact (wide_amount m cur _ Hm Hb G _ G') end.
Qed.

(** The normalized code has at most the minor units of the code. *)
Lemma normalized_units cur code m :
  normalizeCurrencyCode cur = Some code -> whole_units cur (minor_cents m (minorUnitExponent code)).
Proof.
  intros E. assert (Ec : code = toUpperCase (trim cur)).
  { unfold normalizeCurrencyCode in E. destruct (toUpperCase (trim cur)); [discriminate|]. injection E as <-. reflexivity. }
  destruct (isZeroDecimal cur) eqn:Z0.
  - assert (Hz : isZeroDecimal code = true).
    { unfold isZeroDecimal, str_in in Z0. rewrite <- Ec in Z0. apply existsb_exists in Z0 as (x & Hx & E'). apply String.eqb_eq in E'. subst x.
      clear -Hx. cbn in Hx. repeat (destruct Hx as [<-|Hx]; [vm_compute; reflexivity|]). destruct Hx. }
    exists m. unfold minorUnitExponent. rewrite Hz, Z0. reflexivity.
  - apply whole_units_usd. unfold minorUnitExponent. rewrite Z0. reflexivity.
Qed.

Lemma normalized_payment line cur code m :
  normalizeAccountingPayment line cur = Some (code, m) ->
  0 < m <= MAX_SAFE_INTEGER /\ whole_units cur (minor_cents m (minorUnitExponent code)).
Proof.
  unfold normalizeAccountingPayment. destruct (normalizeCurrencyCode (pl_currency line)) as [p|] eqn:Ep; [|discriminate].
  destruct (normalizeCurrencyCode cur) as [i|] eqn:Ei; [|discriminate]. destruct (_ && _) eqn:G; [|discriminate]. intros [= <- <-].
  apply andb_true_iff in G as [G G3]. apply andb_true_iff in G as [G1 G2]. apply String.eqb_eq in G1. subst p.
  apply Z.ltb_lt in G2. apply Z.leb_le in G3. split; [lia|exact (normalized_units cur i _ Ei)].
Qed.

(** ** The writes *)

Section Pull.
Context `{Uuids} {pins : Pinned}.

Lemma pull_claim_ok i pid d :
  pull_claim i pid d = true ->
  (exists p, In p (db_payments d) /\ py_id p = pid /\ py_invoiceId p = i /\ pulled p = true) /\
  existsb (fun r => opt_eqb (sr_invoicePaymentId r) (Some pid)) (db_stripe d) = false.
Proof.
  intros E. apply andb_true_iff in E as [E E2]. apply negb_true_iff in E2. split; [|exact E2].
  apply existsb_exists in E as (p & Hp & E). apply andb_true_iff in E as [E E3]. apply andb_true_iff in E as [E1 E].
  apply String.eqb_eq in E1, E. exists p. auto.
Qed.

(** Rewriting a pulled payment. *)
Lemma pulled_rewritten now i inv d line c pid u d' :
  Billing d -> db_invoices d !! i = Some inv -> iv_status inv <> st_draft -> iv_status inv <> st_void -> pull_claim i pid d = true ->
  0 < c < column_bound -> whole_units (iv_currencyCode inv) c ->
  recomputeInvoiceStatus now i (set_payments (map (repaid pid (pulled_as (fixed2 c) line)) (db_payments d)) d) = Ok (u, d') -> Billing d'.
Proof.
  intros B Hrow Hs Hnv Hclaim Hc Hcw E. destruct (pull_claim_ok _ _ _ Hclaim) as ((p & Hp & Hid & Hpi & Hpu) & Hl).
  destruct (bi_rows _ B _ _ Hrow Hs) as [_ (T & cs & HT & HTb & HTw & Hps & Hcs & Hsz & Hsum & _ & _ & _ & _ & Hvoid)].
  assert (Hpos : List.Forall (fun c => 0 < c) cs) by (eapply List.Forall_impl; [|exact Hcs]; intros x [? _]; assumption).
  set (g := pulled_as (fixed2 c) line) in *. set (dm := set_payments _ d) in *.
  assert (Hpin : In p (payments_of i d)) by (apply filter_In; split; [exact Hp|apply String.eqb_eq; exact Hpi]).
  destruct (repaid_sum pid g c (payments_of i d) p cs (fun q => conj eq_refl eq_refl) Hps ltac:(apply NoDup_filter_map, B) Hpin Hid)
    as (c0 & cs' & Hcin & _ & Hmap & HP & Hz & Ho). rewrite Hpu, Z.add_0_r in Ho.
  pose proof (zsum_member c0 cs Hpos Hcin) as Hcle. pose proof (proj1 (List.Forall_forall _ _) Hpos c0 Hcin) as Hc0. cbn in Hc0.
  assert (Hg : forall q, py_invoiceId (repaid pid g q) = py_invoiceId q) by (intros q; unfold repaid; destruct (String.eqb _ _); reflexivity).
  assert (Hpays : forall j, payments_of j dm = map (repaid pid g) (payments_of j d)) by (intros j; exact (payments_of_map j _ d Hg)).
  assert (Hone : forall q, In q (db_payments d) -> py_id q = pid -> q = p)
    by (intros q Hq Eq; apply (unique_in py_id (db_payments d)); [apply B|exact Hq|exact Hp|congruence]).
  apply (recompute_changed now d dm i inv T cs' u d'); auto; try (cbn; lia); try reflexivity.
  - intros j Hj. rewrite Hpays. apply repaid_none. intros F. apply in_map_iff in F as (q & Eq & Hq).
    apply filter_In in Hq as [Hq Eqi]. apply String.eqb_eq in Eqi. apply Hj. rewrite <- Eqi, (Hone q Hq Eq). exact Hpi.
  - cbn. rewrite repaid_id by reflexivity. apply B.
  - cbn. rewrite repaid_id by reflexivity. apply B.
  - cbn. intros q Hq. apply in_map_iff in Hq as (q0 & <- & Hq0). unfold repaid.
    destruct (String.eqb_spec (py_id q0) pid) as [F|F]; [|auto]. right. cbn. rewrite (Hone q0 Hq0 F). exact Hpi.
  - apply (Sessions_frame d); cbn; [apply B|lia|reflexivity|eauto|].
    intros q row Hq Hr L. apply in_map_iff. exists q. split; [|exact Hq]. unfold repaid. destruct (String.eqb_spec (py_id q) pid) as [F|F]; [|reflexivity].
    rewrite <- not_true_iff_false, existsb_exists in Hl. elim Hl. exists row. split; [exact Hr|]. rewrite L, F. cbn. apply String.eqb_refl.
  - rewrite Hpays. exact Hmap.
  - apply (HP _ Hcs). split; [lia|exact Hcw].
  - intros U. rewrite Hpays, Ho. apply Hsum, U.
  - intros _ Ev. contradiction.
Qed.

Lemma pull_Billing now partnerId i existing line d r d' :
  Billing d -> pull_target i existing d = true -> applyAccountingPayment now partnerId i existing line d = Ok (r, d') -> Billing d'.
Proof.
  intros B Ht E. unfold pull_target in Ht. apply andb_true_iff in Ht as [Hd Hcl].
  unfold applyAccountingPayment in E. apply bind_ok in E as (row & d1 & G & E). apply read_ok in G as [-> ->].
  destruct (db_invoices d !! i) as [inv|] eqn:Hrow; [|run_m; exact B].
  destruct (negb _); [run_m; exact B|].
  assert (Hs : iv_status inv <> st_draft) by (destruct (iv_status inv); discriminate).
  assert (Hv : iv_status inv = st_void \/ iv_status inv <> st_void) by (destruct (iv_status inv); (right; discriminate) || (left; reflexivity)).
  destruct Hv as [Hv|Hv]; [rewrite Hv in E; run_m; exact B|].
  destruct (String.eqb (trim _) _); [destruct (iv_status inv); discriminate || contradiction|].
  destruct (normalizeAccountingPayment line (iv_currencyCode inv)) as [[cur m]|] eqn:Hn;
    [|destruct (iv_status inv); try contradiction; run_m; exact B].
  destruct (normalized_payment _ _ _ _ Hn) as [Hm Hw].
  pose proof (minor_cents_pos m cur ltac:(lia)) as Hc0.
  destruct existing as [pid|].
  - assert (E' : (do! amount := payment_amount m cur in
                  do! found := read (fun d => List.find (fun p => String.eqb (py_id p) pid) (db_payments d)) in
                  match found with
                  | None => throw "payment mapping points at no invoice_payments row"
                  | Some _ =>
                      do! _ := modify (fun d => set_payments (map (fun p => if String.eqb (py_id p) pid then pulled_as amount line p else p) (db_payments d)) d) in
                      do! _ := recomputeInvoiceStatus now i in ret pu_updated
                  end) d = Ok (r, d')) by (destruct (iv_status inv); (exact E || contradiction)).
    clear E. apply bind_ok in E' as (a & d1 & G & E). apply pulled_amount in G as (-> & Hb & ->); [|exact Hm].
    apply bind_ok in E as (f & d1 & G & E). apply read_ok in G as [-> ->]. destruct (List.find _ _); [|discriminate E].
    apply bind_ok in E as (? & d1 & G & E). apply modify_ok in G as ->. apply bind_ok in E as (u & d1 & G & E). run_m.
    exact (pulled_rewritten now i inv d line _ pid u _ B Hrow Hs Hv Hcl (conj Hc0 Hb) Hw G).
  - set (new := fun id amount => pulled_as amount line (mkPayment id i (iv_orgId inv) "" "" None "" None (Some PULLED_NOTE))) in *.
    assert (E' : (do! id := mint in do! amount := payment_amount m cur in
                  do! _ := modify (fun d => set_payments (db_payments d ++ [new id amount])%list d) in
                  do! _ := recomputeInvoiceStatus now i in ret pu_applied) d = Ok (r, d')) by (destruct (iv_status inv); (exact E || contradiction)).
    clear E. apply bind_ok in E' as (id & d1 & G & E). apply mint_ok in G as [-> ->].
    apply bind_ok in E as (a & d1 & G & E). apply pulled_amount in G as (-> & Hb & ->); [|exact Hm].
    apply bind_ok in E as (? & d1 & G & E). apply modify_ok in G as ->. apply bind_ok in E as (u & d1 & G & E). run_m.
    destruct (bi_rows _ B _ _ Hrow Hs) as [_ (T & cs & HT & HTb & HTw & Hps & Hcs & Hsz & Hsum & _ & _ & _ & _ & Hvoid)].
    set (pay := new (uuid (db_next d)) _) in G.
    eapply (payment_appended now d _ i inv T cs pay (minor_cents m (minorUnitExponent cur))); try exact G; try reflexivity; auto.
    + apply (Sessions_same d); cbn; [apply B|lia|reflexivity|eauto|]. intros q Hq. apply in_or_app. auto.
    + intros U. split; [|exact Hv]. assert (pulled pay = true) as -> by reflexivity. specialize (Hsum U). lia.
Qed.

Lemma pull_reverse_Billing now partnerId pid d r d' :
  Billing d -> existsb (fun r => opt_eqb (sr_invoicePaymentId r) (Some pid)) (db_stripe d) = false ->
  reverseAccountingPayment now partnerId pid d = Ok (r, d') -> Billing d'.
Proof.
  intros B Hl E. unfold reverseAccountingPayment in E. apply bind_ok in E as (f & d1 & G & E). apply read_ok in G as [-> ->].
  destruct (List.find _ _) as [pay|] eqn:Hf; [|run_m; exact B]. apply List.find_some in Hf as [Hin Hid]. apply String.eqb_eq in Hid as <-.
  apply bind_ok in E as (row & d1 & G & E). apply read_ok in G as [-> ->]. destruct (db_invoices d !! _); [|run_m; exact B].
  destruct (negb _); [run_m; exact B|]. apply bind_ok in E as (? & d1 & G & E). apply modify_ok in G as ->.
  apply bind_ok in E as (u & d1 & G & E). run_m. exact (payment_removed now pay d _ _ B Hin Hl G).
Qed.
End Pull.
