(* ===== verification/ContractService.v ===== *)
(** * Recurring contracts ([apps/api/src/services/contractService.ts], lines
      56-163, 300-317, 500-905, 971-981 and 1805-2203)

    Contract access, the estimate, the lifecycle of a contract, and the
    generation of a period's invoice: draft, lines with their overage, the
    ledger claim that makes a period billable once, device evidence, the outcome
    row and the billing pointer. A call is one transaction of [BillingDb]; events
    are not modelled, and the members of a dynamic device group come from the
    group resolver, a parameter. *)

From Stdlib Require Import QArith.
From S2P Require Import Prelude JsString JsNumber Currency IsoDate InvoiceMath ContractMath TimeBilling CatalogPricing ContractCoverage BillingDb InvoiceService InvoiceLifecycle.
From stdpp Require Import base gmap strings list pretty.

Local Open Scope string_scope.
Local Open Scope Z_scope.
Local Open Scope billing_scope.

(** ** Access *)

Definition contractLineSiteDenied (actor : InvoiceActor) (siteId : option string) : bool :=
  match ac_allowedSiteIds actor with
  | None => false
  | Some allowed => match siteId with
                    | Some s => String.eqb s "" || negb (str_mem s allowed)
                    | None => true
                    end
  end.

Definition contract_lines (contractId : string) (d : Db) : list ContractLine :=
  List.filter (fun l => String.eqb (cn_contractId l) contractId) (db_contractLines d).

Definition requireWholeContractSiteAccess (actor : InvoiceActor) (contractId : string) : M unit :=
  match ac_allowedSiteIds actor with
  | None => ret tt
  | Some _ =>
      do! rows := read (contract_lines contractId) in
      do! _ := require (negb (match rows with [] => true | _ => false end)) SITE_DENIED in
      require (negb (existsb (fun r => contractLineSiteDenied actor (cl_siteId (cn_coverage r))) rows)) SITE_DENIED
  end.

Definition lockContractRow (contractId : string) : M Contract :=
  do! row := read (fun d => db_contracts d !! contractId) in
  match row with Some c => ret c | None => fail CONTRACT_NOT_FOUND end.

Definition lockContract (contractId : string) (actor : InvoiceActor) : M Contract :=
  do! c := lockContractRow contractId in
  do! _ := requireOrgAccess actor (ct_orgId c) in
  ret c.

Definition getOwnedContractOr404 (contractId : string) (actor : InvoiceActor) : M Contract :=
  do! row := read (fun d => db_contracts d !! contractId) in
  match row with
  | None => fail CONTRACT_NOT_FOUND
  | Some c => do! _ := requireOrgAccess actor (ct_orgId c) in ret c
  end.

(** ** Lifecycle *)

Definition with_billing (status : ContractStatus) (nextBillingAt : option string) (c : Contract) : Contract :=
  mkContract (ct_partnerId c) (ct_orgId c) (ct_name c) status (ct_billingTiming c) (ct_intervalMonths c) (ct_startDate c)
    (ct_endDate c) nextBillingAt (ct_autoIssue c) (ct_autoRenew c) (ct_renewalTermMonths c) (ct_renewalNoticeDays c)
    (ct_currencyCode c) (ct_notes c) (ct_terms c) (ct_createdBy c).

Definition update_contract (contractId : string) (f : Contract -> Contract) : M unit :=
  modify (fun d => set_contracts (alter f contractId (db_contracts d)) d).

Definition todayISO (asOf : Z) : string := utc_day_string asOf.

(** The billing date of the period that contains a day. *)
Definition pointer_on (c : Contract) (day : string) : string :=
  nextBillingDate (ct_startDate c) (ct_intervalMonths c) (ct_billingTiming c)
    (periodIndexFor (ct_startDate c) (ct_intervalMonths c) day).

Definition activateContract (asOf : Z) (contractId : string) (actor : InvoiceActor) : M unit :=
  do! c := lockContract contractId actor in
  do! _ := requireWholeContractSiteAccess actor contractId in
  do! _ := require (match ct_status c with cs_draft | cs_paused => true | _ => false end) INVALID_STATE in
  do! lineRows := read (contract_lines contractId) in
  do! _ := require (negb (match lineRows with [] => true | _ => false end)) NO_LINES in
  update_contract contractId (with_billing cs_active (Some (pointer_on c (todayISO asOf)))).

(** Pausing, resuming and cancelling lock nothing: the reads and checks decide
    the columns ([None]: nothing to write), and a later update by id writes them. *)
Definition pause_plan (contractId : string) (actor : InvoiceActor) : M (option (Contract -> Contract)) :=
  do! c := getOwnedContractOr404 contractId actor in
  do! _ := requireWholeContractSiteAccess actor contractId in
  do! _ := require (match ct_status c with cs_active => true | _ => false end) INVALID_STATE in
  ret (Some (with_billing cs_paused None)).

Definition resume_plan (asOfISO : string) (contractId : string) (actor : InvoiceActor) : M (option (Contract -> Contract)) :=
  do! c := getOwnedContractOr404 contractId actor in
  do! _ := requireWholeContractSiteAccess actor contractId in
  do! _ := require (match ct_status c with cs_paused => true | _ => false end) INVALID_STATE in
  ret (Some (with_billing cs_active (Some (pointer_on c asOfISO)))).

Definition cancel_plan (contractId : string) (actor : InvoiceActor) : M (option (Contract -> Contract)) :=
  do! c := getOwnedContractOr404 contractId actor in
  do! _ := requireWholeContractSiteAccess actor contractId in
  ret (match ct_status c with cs_cancelled => None | _ => Some (with_billing cs_cancelled None) end).

Definition write_plan (contractId : string) (set : option (Contract -> Contract)) : M unit :=
  match set with Some f => update_contract contractId f | None => ret tt end.

(** The calls with nothing written in between. *)
Definition pauseContract (contractId : string) (actor : InvoiceActor) : M unit :=
  do! set := pause_plan contractId actor in write_plan contractId set.
Definition resumeContract (asOfISO : string) (contractId : string) (actor : InvoiceActor) : M unit :=
  do! set := resume_plan asOfISO contractId actor in write_plan contractId set.
Definition cancelContract (contractId : string) (actor : InvoiceActor) : M unit :=
  do! set := cancel_plan contractId actor in write_plan contractId set.

(** ** Line rows *)

(** [packages/shared/src/validators/contracts.ts]: a site-scopable line whose
    site is gone keeps its stamped name. *)
Definition isSiteDeletedLine (l : ContractLine) : bool :=
  match cl_lineType (cn_coverage l) with
  | lt_per_device | lt_per_device_role =>
      match cl_siteId (cn_coverage l), cn_siteName l with None, Some _ => true | _, _ => false end
  | _ => false
  end.

(** The role set, when given, bounds what the line may name. *)
Definition roleLineIsInvalid (line : CoverageLine) (allowedRoles : option (list string)) : bool :=
  match cl_lineType line with
  | lt_per_device_role =>
      match cl_deviceRoles line with
      | None | Some [] => true
      | Some roles => match allowedRoles with
                      | Some allowed => existsb (fun role => negb (str_mem role allowed)) roles
                      | None => false
                      end
      end
  | _ => false
  end.

Definition assertRoleLineHasRoles (l : ContractLine) : M unit :=
  require (negb (roleLineIsInvalid (cn_coverage l) None)) INVALID_STATE.

Definition carries_allowance (t : ContractLineType) : bool :=
  match t with lt_per_device | lt_per_device_role | lt_per_device_group | lt_per_seat => true | _ => false end.

Definition allowanceColumnsFor (t : ContractLineType) (input : AllowanceSpec) : AllowanceSpec :=
  if carries_allowance t then input else mkAllowance None None None.

Definition BILLABLE_DEVICE_ROLES : list string :=
  ["workstation"; "server"; "printer"; "router"; "switch"; "firewall"; "access_point"; "phone"; "iot"; "camera"; "nas"].

Definition assertSpecDeviceSetLine (l : ContractLine) : M unit :=
  do! _ := require (negb (roleLineIsInvalid (cn_coverage l) (Some BILLABLE_DEVICE_ROLES))) INVALID_STATE in
  do! _ := require (match cl_lineType (cn_coverage l) with
                    | lt_per_device_group => match truthy (cl_deviceGroupId (cn_coverage l)) with Some _ => true | None => false end
                    | _ => true
                    end) INVALID_STATE in
  require (negb (isSiteDeletedLine l)) INVALID_STATE.

(** [ORDER BY sort_order, created_at, id]: the table's order is creation order. *)
Fixpoint insert_sorted (l : ContractLine) (ls : list ContractLine) : list ContractLine :=
  match ls with
  | [] => [l]
  | x :: r => if cn_sortOrder l <=? cn_sortOrder x then l :: ls else x :: insert_sorted l r
  end.

Definition ordered_lines (contractId : string) (d : Db) : list ContractLine :=
  fold_right insert_sorted [] (contract_lines contractId d).

(** ** Quantities *)

Definition UNRESOLVED_QTY : ResolvedQuantity := mkResolved (ofZ 0) (ofZ 0) None (ofZ 0) None.

Definition emptySnapshot : OrgDeviceSnapshot := mkSnapshot [] ∅.

Definition groupIdsOf (lines : list ContractLine) : list string :=
  remove_dups (omap (fun l => match cl_lineType (cn_coverage l) with
                              | lt_per_device_group => truthy (cl_deviceGroupId (cn_coverage l))
                              | _ => None
                              end) lines).

Definition group_present (snapshot : OrgDeviceSnapshot) (l : ContractLine) : bool :=
  match cl_deviceGroupId (cn_coverage l) with
  | Some g => match sn_groups snapshot !! g with Some _ => true | None => false end
  | None => false
  end.

Definition resolvableLines (lines : list ContractLine) (snapshot : OrgDeviceSnapshot) : list ContractLine :=
  List.filter (fun l =>
    match cl_lineType (cn_coverage l) with lt_per_device_group => group_present snapshot l | _ => true end
    && negb (isSiteDeletedLine l)) lines.

(** The helpers of [contractCoverage.ts] throw plain errors. *)
Definition lift_coverage {A} (r : result CoverageError A) : M A :=
  fun d => match r with Ok a => Ok (a, d) | Err _ => Err (Thrown "contract coverage") end.

Definition countContractSeats (orgId : string) : M Z :=
  read (fun d => match rf_seats (db_ref d) !! orgId with Some n => n | None => 0 end).

Inductive Unresolved := group_deleted | site_deleted.

Record LineQuantity := mkLineQuantity { lq_resolved : ResolvedQuantity; lq_live : bool; lq_unresolved : option Unresolved }.

Record PendingEvidence := mkEvidence {
  ev_invoiceLineId : string; ev_device : DeviceSnapshotRow; ev_countedAs : CountedAs }.

Record MaterializedContractLine := mkMaterialized {
  mz_baseLine : InvoiceLine; mz_overageLine : option InvoiceLine; mz_overage : option OverageSummary;
  mz_pricedFrom : ContractLinePricedFrom }.

Record PriceBookGap := mkGap {
  pg_contractLineId : string; pg_catalogItemId : string; pg_itemName : string; pg_currencyCode : string }.

Inductive Skipped := already_billed | expired | not_due.

Record GenerateResult := mkGenerate {
  gr_invoiceId : option string; gr_skipped : option Skipped; gr_autoIssue : bool; gr_actor : option InvoiceActor;
  gr_priceBookGaps : list PriceBookGap; gr_uncoveredDevices : option UncoveredDevices; gr_overages : list OverageSummary }.

Definition skip (why : Skipped) : GenerateResult := mkGenerate None (Some why) false None [] None [].

Record EstimateLine := mkEstimateLine {
  el_lineId : string; el_lineType : ContractLineType; el_resolved : LineQuantity; el_value : string; el_overageValue : string }.

Record ContractEstimate := mkEstimate {
  ce_currencyCode : string; ce_periodTotal : string; ce_lines : list EstimateLine;
  ce_uncoveredDevices : option UncoveredDevices; ce_overages : list OverageSummary }.

Section Contracts.
Context `{Uuids}.
Variable resolveEffectiveGroupMembers : DeviceGroup -> result string (list string * list string).

(** One snapshot per calculation: later reads of the same calculation find it
    in the cache. *)
Definition orgSnapshot (orgId : string) (groupIds : list string) : M OrgDeviceSnapshot :=
  do! r := read (fun d => buildOrgDeviceSnapshot resolveEffectiveGroupMembers (rf_devices (db_ref d))
                            (rf_deviceGroups (db_ref d)) orgId groupIds None) in
  do! _ := require (forallb (fun id => match sr_groupErrors r !! id with Some _ => false | None => true end) groupIds)
             GROUP_EVALUATION_FAILED in
  ret (sr_snapshot r).

(** ** The estimate *)

Definition resolveLineQty (snapshot : OrgDeviceSnapshot) (orgId : string) (l : ContractLine) : M LineQuantity :=
  let counted (n : num) (live : bool) := mkLineQuantity (applyAllowance n (cn_allowance l) included_units) live None in
  match cl_lineType (cn_coverage l) with
  | lt_flat => ret (counted (ofZ 1) false)
  | lt_manual => ret (counted (js_Number (from_option_default (cn_manualQuantity l) "0")) false)
  | lt_per_device | lt_per_device_role =>
      if isSiteDeletedLine l then ret (mkLineQuantity UNRESOLVED_QTY true (Some site_deleted))
      else
        do! _ := assertRoleLineHasRoles l in
        do! n := lift_coverage (quantityFor snapshot (cn_coverage l)) in
        ret (counted (ofZ n) true)
  | lt_per_device_group =>
      if negb (group_present snapshot l) then ret (mkLineQuantity UNRESOLVED_QTY true (Some group_deleted))
      else
        do! n := lift_coverage (quantityFor snapshot (cn_coverage l)) in
        ret (counted (ofZ n) true)
  | lt_per_seat =>
      do! n := countContractSeats orgId in
      ret (counted (ofZ n) true)
  end.

(** Either mode: an allowance line that is over. *)
Definition over_summary (l : ContractLine) (r : ResolvedQuantity) (invoiceLineId : option string) : option OverageSummary :=
  match rq_overageMode r with
  | Some mode =>
      if js_gt (rq_overage r) (ofZ 0)
      then Some (mkOverage (cn_id l) invoiceLineId (cn_description l) (rq_counted r) (from_option_default (rq_included r) (ofZ 0))
                   (rq_overage r) mode)
      else None
  | None => None
  end.

Definition lineCents (r : ResolvedQuantity) (unitPrice : string) (l : ContractLine) (currencyCode : string) : result string num :=
  let! base := multiplyToCurrency (Num (rq_billed r)) (Str unitPrice) currencyCode in
  let! over := overageValue r (overageUnitPrice (cn_allowance l)) currencyCode in
  Ok (js_add (toCents (Some (Str base))) (toCents (Some (Str over)))).

Definition estimate_line (snapshot : OrgDeviceSnapshot) (c : Contract) (l : ContractLine) : M EstimateLine :=
  do! q := resolveLineQty snapshot (ct_orgId c) l in
  do! value := lift_throw (multiplyToCurrency (Num (rq_billed (lq_resolved q))) (Str (cn_unitPrice l)) (ct_currencyCode c)) in
  do! over := lift_throw (overageValue (lq_resolved q) (overageUnitPrice (cn_allowance l)) (ct_currencyCode c)) in
  ret (mkEstimateLine (cn_id l) (cl_lineType (cn_coverage l)) q value over).

Fixpoint estimate_lines (snapshot : OrgDeviceSnapshot) (c : Contract) (lines : list ContractLine) (cents : num)
  : M (num * list EstimateLine * list OverageSummary) :=
  match lines with
  | [] => ret (cents, [], [])
  | l :: rest =>
      do! e := estimate_line snapshot c l in
      do! r := estimate_lines snapshot c rest
                 (js_add cents (js_add (toCents (Some (Str (el_value e)))) (toCents (Some (Str (el_overageValue e)))))) in
      let '(total, out, overs) := r in
      ret (total, e :: out,
           match over_summary l (lq_resolved (el_resolved e)) None with Some o => o :: overs | None => overs end)
  end.

Definition has_device_line (lines : list ContractLine) : bool := existsb (fun l => isDeviceLine (cn_coverage l)) lines.

Definition uncovered_for (lines : list ContractLine) (snapshot : OrgDeviceSnapshot) : M (option UncoveredDevices) :=
  if has_device_line lines
  then do! u := lift_coverage (uncoveredByRole snapshot (map cn_coverage (resolvableLines lines snapshot))) in ret (Some u)
  else ret None.

Definition computeContractEstimate (contractId : string) (actor : InvoiceActor) : M ContractEstimate :=
  do! c := getOwnedContractOr404 contractId actor in
  do! _ := requireWholeContractSiteAccess actor contractId in
  do! lines := read (ordered_lines contractId) in
  do! snapshot := orgSnapshot (ct_orgId c) (groupIdsOf lines) in
  do! r := estimate_lines snapshot c lines (ofZ 0) in
  let '(cents, out, overs) := r in
  do! uncovered := uncovered_for lines snapshot in
  ret (mkEstimate (ct_currencyCode c) (fromCents cents) out uncovered overs).

Definition isPastEndForReporting (c : Contract) (asOfISO : string) : bool :=
  match ct_endDate c with
  | None => false
  | Some _ =>
      let periodStart := match truthy (ct_nextBillingAt c) with
                         | Some at_ => duePeriodStartFor (ct_billingTiming c) at_ (if 0 <? ct_intervalMonths c then ct_intervalMonths c else 1)
                         | None => asOfISO
                         end in
      isExpired (ct_endDate c) periodStart
  end.

(** ** Materializing a line *)

Fixpoint evidence_from (i : Z) (cut : num) (mode : option OverageMode) (m : MaterializedContractLine) (rows : list DeviceSnapshotRow)
  : M (list PendingEvidence) :=
  match rows with
  | [] => ret []
  | row :: rest =>
      let countedAs := if js_lt (ofZ i) cut then ca_included
                       else match mode with Some om_bill => ca_overage | _ => ca_flagged end in
      do! lineId := match countedAs, mz_overageLine m with
                    | ca_overage, Some o => ret (il_id o)
                    | ca_overage, None => fail INVALID_STATE
                    | _, _ => ret (il_id (mz_baseLine m))
                    end in
      do! more := evidence_from (i + 1) cut mode m rest in
      ret (mkEvidence lineId row countedAs :: more)
  end.

Definition evidenceForLine (devices : list DeviceSnapshotRow) (resolved : ResolvedQuantity) (m : MaterializedContractLine)
  : M (list PendingEvidence) :=
  let ordered := orderDevicesForEvidence devices in
  let n := ofZ (Z.of_nat (List.length ordered)) in
  let cut := match rq_included resolved with None => n | Some i => math_min i n end in
  evidence_from 0 cut (rq_overageMode resolved) m ordered.

(** [chunksOf(items, 500)] inserts its slices in order. *)
Fixpoint chunksOf {A} (fuel : nat) (items : list A) (size : nat) : list (list A) :=
  match fuel, items with
  | S k, _ :: _ => firstn size items :: chunksOf k (skipn size items) size
  | _, _ => []
  end.

Definition evidence_row (invoiceId orgId : string) (e : PendingEvidence) : LineDevice :=
  let r := ev_device e in
  mkLineDevice (ev_invoiceLineId e) invoiceId orgId (Some (row_id r)) (row_hostname r) (row_role r) (row_siteId r) (ev_countedAs e).

Definition insert_evidence (invoiceId orgId : string) (evidence : list PendingEvidence) : M unit :=
  for_each (fun chunk => modify (fun d => set_lineDevices (db_lineDevices d ++ map (evidence_row invoiceId orgId) chunk)%list d))
    (chunksOf (List.length evidence) evidence 500).

Definition with_evidence (i : Invoice) : Invoice :=
  mkInvoice (iv_partnerId i) (iv_orgId i) (iv_siteId i) (iv_currencyCode i) (iv_createdBy i) (iv_status i) (iv_invoiceNumber i)
    (iv_issueDate i) (iv_dueDate i) (iv_money i) (iv_marks i) (iv_parties i) (iv_notes i) (iv_termsAndConditions i)
    (iv_replacesInvoiceId i) (iv_replacedByInvoiceId i) (Some 1) (iv_depositDue i).

Definition overage_description (r : ResolvedQuantity) (description : string) : string :=
  "Overage: " ++ js_String (rq_overage r) ++ " above " ++ match rq_included r with Some i => js_String i | None => "null" end
  ++ " included — " ++ description.

(** The second invoice line of a bill-mode overage. *)
Definition materialize_overage (actor : InvoiceActor) (invoiceId contractId currencyCode : string) (l : ContractLine)
    (r : ResolvedQuantity) (baseLine : InvoiceLine) : M (option InvoiceLine) :=
  if billsOverage r then
    match overageUnitPrice (cn_allowance l) with
    | None => lift (Err (Thrown "Invalid decimal amount"))
    | Some price =>
        do! expected := lift_throw (multiplyToCurrency (Num (rq_overage r)) (Str price) currencyCode) in
        do! m := addContractLine invoiceId
          (mkContractInput (overage_description r (cn_description l)) (toFixed 2 (rq_overage r)) price
             (lv_taxable (il_values baseLine)) None (Some (cn_id l)) (lv_costBasis (il_values baseLine)) contractId) actor in
        do! _ := require (String.eqb (lv_lineTotal (il_values (fst m))) expected) INVALID_STATE in
        ret (Some (fst m))
    end
  else ret None.

Definition materializeContractLineOntoInvoice (actor : InvoiceActor) (invoiceId contractId : string) (contract : Contract)
    (l : ContractLine) (resolved : ResolvedQuantity) (deviceEvidence : option (list DeviceSnapshotRow)) (currencyCode : string)
  : M MaterializedContractLine :=
  do! _ := require (String.eqb currencyCode (ct_currencyCode contract)) INVALID_STATE in
  let quantity := match rq_included resolved with
                  | None => js_String (rq_billed resolved)
                  | Some _ => toFixed 2 (rq_billed resolved)
                  end in
  do! base := addContractLine invoiceId
    (mkContractInput (cn_description l) quantity (cn_unitPrice l) (cn_taxable l) (cn_catalogItemId l) (Some (cn_id l)) None contractId)
    actor in
  do! overageLine := materialize_overage actor invoiceId contractId currencyCode l resolved (fst base) in
  let m := mkMaterialized (fst base) overageLine (over_summary l resolved (option_map il_id overageLine)) (snd base) in
  do! _ := match deviceEvidence with
           | None => ret tt
           | Some devices =>
               do! _ := require (js_eq (ofZ (Z.of_nat (List.length devices))) (rq_counted resolved)) INVALID_STATE in
               do! evidence := evidenceForLine devices resolved m in
               do! _ := insert_evidence invoiceId (ct_orgId contract) evidence in
               update_invoice invoiceId with_evidence
           end in
  ret m.

(** ** Generating the due invoice *)

(** Advance bills the period that starts at the pointer, arrears the one that
    ends there. *)
Definition due_index (c : Contract) (nextBillingAt : string) : Z :=
  let idxAt := periodIndexFor (ct_startDate c) (ct_intervalMonths c) nextBillingAt in
  Z.max 0 (match ct_billingTiming c with advance => idxAt | arrears => idxAt - 1 end).

Definition invoice_actor (c : Contract) : InvoiceActor :=
  mkActor (ct_createdBy c) (Some (ct_partnerId c)) (Some [ct_orgId c]) None.

Definition crlf2 : string := String (Ascii.ascii_of_N 10) (String (Ascii.ascii_of_N 10) EmptyString).

Definition contract_notes (c : Contract) : option string :=
  match non_empty [ct_notes c; ct_terms c] with
  | [] => None
  | parts => Some (String.concat crlf2 parts)
  end.

(** The quantity of a line and, for a device-counted line, the devices it is
    the length of. *)
Definition line_quantity (snapshot : OrgDeviceSnapshot) (orgId : string) (l : ContractLine)
  : M (string * option (list DeviceSnapshotRow)) :=
  match cl_lineType (cn_coverage l) with
  | lt_flat => ret ("1", None)
  | lt_manual => ret (from_option_default (cn_manualQuantity l) "0", None)
  | lt_per_device | lt_per_device_role | lt_per_device_group =>
      do! _ := assertRoleLineHasRoles l in
      do! matched := lift_coverage (matchingDevicesForLine snapshot (cn_coverage l)) in
      let ordered := orderDevicesForEvidence matched in
      ret (print_int (Z.of_nat (List.length ordered)), Some ordered)
  | lt_per_seat =>
      do! n := countContractSeats orgId in
      ret (print_int n, None)
  end.

Definition bill_line (actor : InvoiceActor) (invoiceId contractId : string) (c : Contract) (snapshot : OrgDeviceSnapshot) (l : ContractLine)
  : M (list PriceBookGap * list OverageSummary * list PendingEvidence) :=
  do! q := line_quantity snapshot (ct_orgId c) l in
  let '(quantity, ordered) := q in
  let r := applyAllowance (js_Number quantity) (cn_allowance l) included_units in
  do! m := materializeContractLineOntoInvoice actor invoiceId contractId c l r None (ct_currencyCode c) in
  let gaps := match truthy (cn_catalogItemId l), mz_pricedFrom m with
              | Some item, pf_contract_snapshot => [mkGap (cn_id l) item (cn_description l) (ct_currencyCode c)]
              | _, _ => []
              end in
  do! evidence := match ordered with Some rows => evidenceForLine rows r m | None => ret [] end in
  ret (gaps, match mz_overage m with Some o => [o] | None => [] end, evidence).

Fixpoint bill_lines (actor : InvoiceActor) (invoiceId contractId : string) (c : Contract) (snapshot : OrgDeviceSnapshot) (lines : list ContractLine)
  : M (list PriceBookGap * list OverageSummary * list PendingEvidence) :=
  match lines with
  | [] => ret ([], [], [])
  | l :: rest =>
      do! a := bill_line actor invoiceId contractId c snapshot l in
      do! b := bill_lines actor invoiceId contractId c snapshot rest in
      let '(g1, o1, e1) := a in
      let '(g2, o2, e2) := b in
      ret ((g1 ++ g2)%list, (o1 ++ o2)%list, (e1 ++ e2)%list)
  end.

(** [INSERT ... ON CONFLICT (contract_id, period_start) DO NOTHING RETURNING id]. *)
Definition claim_period (contractId orgId : string) (period : Period) (invoiceId : string) : M (option string) :=
  do! taken := read (fun d => existsb (fun p => String.eqb (bp_contractId p) contractId &&
                                                String.eqb (bp_periodStart p) (periodStart period)) (db_periods d)) in
  if taken then ret None
  else
    do! id := mint in
    do! _ := modify (fun d => set_periods (db_periods d ++
               [BillingDb.mkPeriod id contractId orgId (periodStart period) (periodEnd period) (Some invoiceId)])%list d) in
    ret (Some id).

Definition sum_overage (mode : OverageMode) (overages : list OverageSummary) : num :=
  fold_left (fun n o => js_add n (ov_overage o))
    (List.filter (fun o => match ov_mode o, mode with om_bill, om_bill | om_flag, om_flag => true | _, _ => false end) overages) (ofZ 0).

Definition insert_outcome (periodId orgId contractId invoiceId : string) (deviceTotal : Z) (uncovered : option UncoveredDevices)
    (overages : list OverageSummary) : M unit :=
  modify (fun d => set_outcomes (db_outcomes d ++
    [mkOutcome periodId orgId contractId (Some invoiceId) deviceTotal
       (match uncovered with Some u => uc_total u | None => 0 end)
       (match uncovered with Some u => uc_byRole u | None => ∅ end)
       (sum_overage om_flag overages) (sum_overage om_bill overages) overages])%list d).

(** Status and pointer after period [idx] was billed: expired when the next
    period starts at or after the end date. *)
Definition next_billing_state (c : Contract) (idx : Z) : ContractStatus * option string :=
  let nextPeriod := computePeriod (ct_startDate c) (ct_intervalMonths c) (idx + 1) in
  if isExpired (ct_endDate c) (periodStart nextPeriod) then (cs_expired, None)
  else (ct_status c, Some (match ct_billingTiming c with advance => periodStart nextPeriod | arrears => periodEnd nextPeriod end)).

Definition advance_pointer (contractId : string) (c : Contract) (idx : Z) : M unit :=
  update_contract contractId (with_billing (fst (next_billing_state c idx)) (snd (next_billing_state c idx))).

(** Draft, lines, claim, evidence, outcome and pointer of a billable period. *)
Definition bill_period (contractId : string) (c : Contract) (idx : Z) (lines : list ContractLine) : M GenerateResult :=
  let period := computePeriod (ct_startDate c) (ct_intervalMonths c) idx in
  let actor := invoice_actor c in
  do! _ := require (negb (existsb isSiteDeletedLine lines)) SITE_DELETED in
  do! snapshot := if has_device_line lines then orgSnapshot (ct_orgId c) (groupIdsOf lines) else ret emptySnapshot in
  do! _ := require (forallb (fun l => match cl_lineType (cn_coverage l) with
                                      | lt_per_device_group => group_present snapshot l
                                      | _ => true
                                      end) lines) GROUP_DELETED in
  do! invoiceId := createManualInvoice (ct_orgId c) None (contract_notes c) None (Some (ct_currencyCode c)) actor in
  do! r := bill_lines actor invoiceId contractId c snapshot lines in
  let '(gaps, overages, evidence) := r in
  do! claimed := claim_period contractId (ct_orgId c) period invoiceId in
  match claimed with
  | None =>
      do! _ := deleteDraftInvoice invoiceId actor in
      ret (skip already_billed)
  | Some periodId =>
      do! _ := insert_evidence invoiceId (ct_orgId c) evidence in
      do! _ := update_invoice invoiceId with_evidence in
      do! uncovered := uncovered_for lines snapshot in
      do! _ := insert_outcome periodId (ct_orgId c) contractId invoiceId
                 (if has_device_line lines then Z.of_nat (List.length (sn_devices snapshot)) else 0) uncovered overages in
      do! _ := advance_pointer contractId c idx in
      ret (mkGenerate (Some invoiceId) None (ct_autoIssue c) (Some actor) gaps uncovered overages)
  end.

Definition generateDueInvoice (asOf : Z) (contractId : string) : M GenerateResult :=
  do! c := lockContractRow contractId in
  match ct_status c, ct_nextBillingAt c with
  | cs_active, Some at_ =>
      if str_ltb (todayISO asOf) at_ then ret (skip not_due)
      else
        let idx := due_index c at_ in
        if isExpired (ct_endDate c) (periodStart (computePeriod (ct_startDate c) (ct_intervalMonths c) idx)) then
          do! _ := update_contract contractId (with_billing cs_expired None) in
          ret (skip expired)
        else
          do! lines := read (ordered_lines contractId) in
          match lines with
          | [] => ret (skip not_due)
          | _ => bill_period contractId c idx lines
          end
  | _, _ => ret (skip not_due)
  end.
End Contracts.
