(* ===== verification/QuoteDb.v ===== *)
(** * The quote tables ([apps/api/src/db/schema/quotes.ts])

    Quotes, their blocks, lines and acceptances, and the transactions over them
    and the billing tables they share. The text and picture columns that no
    operation computes with (cover page, block contents, presentation, sku and
    vendor labels, line images) are left out. *)

From Stdlib Require Import QArith Qround.
From S2P Require Import Prelude JsString JsNumber Currency IsoDate QuoteMath InvoiceMath ContractMath TimeBilling CatalogPricing ContractCoverage BillingDb InvoiceService ContractService.
From stdpp Require Import base gmap strings list.

Local Open Scope string_scope.
Local Open Scope Z_scope.
Local Open Scope billing_scope.

(** ** Quotes *)

Inductive QuoteStatus :=
| qs_draft | qs_sent | qs_viewed | qs_accepted | qs_declined | qs_expired | qs_converted | qs_superseded.

#[export] Instance quote_status_eq_dec : EqDecision QuoteStatus.
Proof. solve_decision. Defined.

(** The header's totals. *)
Record QuoteMoney := mkQuoteMoney {
  qh_subtotal : string; qh_taxTotal : string; qh_total : string; qh_oneTimeTotal : string;
  qh_monthlyRecurringTotal : string; qh_annualRecurringTotal : string }.

(** The deposit asked for, and the amount it came to at the last edit. *)
Record QuoteDeposit := mkQuoteDeposit {
  dp_type : QuoteDepositType; dp_percent : option string; dp_amount : option string }.

(** The columns frozen when the quote is sent. *)
Record QuoteParties := mkQuoteParties {
  qp_billToName : option string; qp_billToAddress : option Address; qp_billToTaxId : option string;
  qp_sellerSnapshot : option SellerSnapshot; qp_documentLocale : option string;
  qp_termsAndConditions : option string; qp_terms : option string }.

Record QuoteMarks := mkQuoteMarks {
  qm_sentAt : option Z; qm_firstViewedAt : option Z; qm_viewedAt : option Z; qm_acceptedAt : option Z;
  qm_declinedAt : option Z; qm_convertedAt : option Z; qm_declineReason : option string }.

(** The public response link: the token it was sent with, the response it was
    used for, and its revocation. *)
Record QuoteLink := mkQuoteLink {
  qk_acceptTokenJti : option string; qk_publicTokenVersion : Z; qk_publicResponseJti : option string;
  qk_publicResponseConsumedAt : option Z; qk_publicResponseOutcome : option string; qk_publicLinkRevokedAt : option Z }.

Record Quote := mkQuote {
  qt_partnerId : string; qt_orgId : string; qt_siteId : option string; qt_quoteNumber : option string;
  qt_title : option string; qt_introNotes : option string; qt_status : QuoteStatus; qt_currencyCode : string;
  qt_issueDate : option string; qt_expiryDate : option string; qt_taxRate : option string; qt_money : QuoteMoney;
  qt_deposit : QuoteDeposit; qt_parties : QuoteParties; qt_marks : QuoteMarks; qt_link : QuoteLink;
  qt_convertedInvoiceId : option string; qt_revisionOfQuoteId : option string; qt_revisionNumber : Z;
  qt_createdBy : option string }.

(** ** Blocks and lines *)

Inductive QuoteBlockType := bt_heading | bt_rich_text | bt_image | bt_line_items | bt_contract | bt_table | bt_callout.

#[export] Instance block_type_eq_dec : EqDecision QuoteBlockType.
Proof. solve_decision. Defined.

(** A block; a contract block names a template and a version of it. *)
Record QuoteBlock := mkBlock {
  qb_id : string; qb_quoteId : string; qb_orgId : string; qb_blockType : QuoteBlockType;
  qb_contract : option (string * string); qb_sortOrder : Z }.

Inductive QuoteLineSource := qsrc_catalog | qsrc_bundle | qsrc_manual.

(** The device set a line prices, with the names stamped when it was chosen. *)
Record DeviceSet := mkDeviceSet {
  ds_contractLineType : option ContractLineType; ds_deviceRoles : option (list string);
  ds_deviceGroupId : option string; ds_deviceGroupName : option string; ds_siteId : option string;
  ds_siteName : option string; ds_allowance : AllowanceSpec }.

Record QuoteLine := mkQuoteLine {
  ql_id : string; ql_quoteId : string; ql_orgId : string; ql_blockId : option string; ql_sourceType : QuoteLineSource;
  ql_catalogItemId : option string; ql_parentLineId : option string; ql_name : option string;
  ql_description : option string; ql_math : QuoteLineForMath; ql_lineTotal : string; ql_termMonths : option Z;
  ql_billingFrequency : option string; ql_set : DeviceSet; ql_sortOrder : Z }.

Definition ql_contractLineType (l : QuoteLine) := ds_contractLineType (ql_set l).

Definition no_device_set : DeviceSet := mkDeviceSet None None None None None None (mkAllowance None None None).

(** ** Acceptances and contract templates *)

Inductive AcceptOrigin := or_customer | or_on_behalf.

Record QuoteAcceptance := mkAcceptance {
  qa_id : string; qa_quoteId : string; qa_orgId : string; qa_signerName : string; qa_signerEmail : option string;
  qa_acceptanceTokenJti : option string; qa_renderLocale : string; qa_origin : AcceptOrigin; qa_method : string;
  qa_reference : option string; qa_recordedByUserId : option string }.

Record TemplateVersion := mkTemplateVersion { tv_templateId : string; tv_published : bool }.
Record ContractTemplate := mkTemplate { tm_archived : bool; tm_orgId : option string; tm_partnerId : option string }.

(** ** The tables *)

Record QuoteDb := mkQuoteDb {
  qd_billing : Db;
  qd_quotes : gmap string Quote;
  qd_blocks : list QuoteBlock;
  qd_lines : list QuoteLine;
  qd_acceptances : list QuoteAcceptance;
  qd_recipients : list (string * string);
  qd_counters : gmap (string * Z) Z;
  qd_templates : gmap string ContractTemplate;
  qd_versions : gmap string TemplateVersion;
  qd_next : nat;
}.

Definition set_billing x (d : QuoteDb) : QuoteDb :=
  mkQuoteDb x (qd_quotes d) (qd_blocks d) (qd_lines d) (qd_acceptances d) (qd_recipients d) (qd_counters d) (qd_templates d) (qd_versions d) (qd_next d).
Definition set_quotes x (d : QuoteDb) : QuoteDb :=
  mkQuoteDb (qd_billing d) x (qd_blocks d) (qd_lines d) (qd_acceptances d) (qd_recipients d) (qd_counters d) (qd_templates d) (qd_versions d) (qd_next d).
Definition set_blocks x (d : QuoteDb) : QuoteDb :=
  mkQuoteDb (qd_billing d) (qd_quotes d) x (qd_lines d) (qd_acceptances d) (qd_recipients d) (qd_counters d) (qd_templates d) (qd_versions d) (qd_next d).
Definition set_quoteLines x (d : QuoteDb) : QuoteDb :=
  mkQuoteDb (qd_billing d) (qd_quotes d) (qd_blocks d) x (qd_acceptances d) (qd_recipients d) (qd_counters d) (qd_templates d) (qd_versions d) (qd_next d).
Definition set_acceptances x (d : QuoteDb) : QuoteDb :=
  mkQuoteDb (qd_billing d) (qd_quotes d) (qd_blocks d) (qd_lines d) x (qd_recipients d) (qd_counters d) (qd_templates d) (qd_versions d) (qd_next d).
Definition set_recipients x (d : QuoteDb) : QuoteDb :=
  mkQuoteDb (qd_billing d) (qd_quotes d) (qd_blocks d) (qd_lines d) (qd_acceptances d) x (qd_counters d) (qd_templates d) (qd_versions d) (qd_next d).
Definition set_counters x (d : QuoteDb) : QuoteDb :=
  mkQuoteDb (qd_billing d) (qd_quotes d) (qd_blocks d) (qd_lines d) (qd_acceptances d) (qd_recipients d) x (qd_templates d) (qd_versions d) (qd_next d).
Definition set_ids x (d : QuoteDb) : QuoteDb :=
  mkQuoteDb (qd_billing d) (qd_quotes d) (qd_blocks d) (qd_lines d) (qd_acceptances d) (qd_recipients d) (qd_counters d) (qd_templates d) (qd_versions d) x.

(** Transactions over all the tables, and one over the billing tables in one. *)
Abbreviation QM := (St QuoteDb).
Abbreviation QRun := (RunOf QuoteDb).

Definition in_billing {A} (x : M A) : QM A :=
  fun d => match x (qd_billing d) with Ok (a, b) => Ok (a, set_billing b d) | Err e => Err e end.

Definition q_mint `{Uuids} : QM string := fun d => Ok (uuid (qd_next d), set_ids (S (qd_next d)) d).

(** ** Row writes *)

Definition with_quote_status s (q : Quote) : Quote :=
  mkQuote (qt_partnerId q) (qt_orgId q) (qt_siteId q) (qt_quoteNumber q) (qt_title q) (qt_introNotes q) s (qt_currencyCode q) (qt_issueDate q)
    (qt_expiryDate q) (qt_taxRate q) (qt_money q) (qt_deposit q) (qt_parties q) (qt_marks q) (qt_link q) (qt_convertedInvoiceId q)
    (qt_revisionOfQuoteId q) (qt_revisionNumber q) (qt_createdBy q).
Definition with_totals m dep (q : Quote) : Quote :=
  mkQuote (qt_partnerId q) (qt_orgId q) (qt_siteId q) (qt_quoteNumber q) (qt_title q) (qt_introNotes q) (qt_status q) (qt_currencyCode q) (qt_issueDate q)
    (qt_expiryDate q) (qt_taxRate q) m dep (qt_parties q) (qt_marks q) (qt_link q) (qt_convertedInvoiceId q)
    (qt_revisionOfQuoteId q) (qt_revisionNumber q) (qt_createdBy q).
Definition with_quote_currency c (q : Quote) : Quote :=
  mkQuote (qt_partnerId q) (qt_orgId q) (qt_siteId q) (qt_quoteNumber q) (qt_title q) (qt_introNotes q) (qt_status q) c (qt_issueDate q)
    (qt_expiryDate q) (qt_taxRate q) (qt_money q) (qt_deposit q) (qt_parties q) (qt_marks q) (qt_link q) (qt_convertedInvoiceId q)
    (qt_revisionOfQuoteId q) (qt_revisionNumber q) (qt_createdBy q).
Definition with_marks m (q : Quote) : Quote :=
  mkQuote (qt_partnerId q) (qt_orgId q) (qt_siteId q) (qt_quoteNumber q) (qt_title q) (qt_introNotes q) (qt_status q) (qt_currencyCode q) (qt_issueDate q)
    (qt_expiryDate q) (qt_taxRate q) (qt_money q) (qt_deposit q) (qt_parties q) m (qt_link q) (qt_convertedInvoiceId q)
    (qt_revisionOfQuoteId q) (qt_revisionNumber q) (qt_createdBy q).
Definition with_link k (q : Quote) : Quote :=
  mkQuote (qt_partnerId q) (qt_orgId q) (qt_siteId q) (qt_quoteNumber q) (qt_title q) (qt_introNotes q) (qt_status q) (qt_currencyCode q) (qt_issueDate q)
    (qt_expiryDate q) (qt_taxRate q) (qt_money q) (qt_deposit q) (qt_parties q) (qt_marks q) k (qt_convertedInvoiceId q)
    (qt_revisionOfQuoteId q) (qt_revisionNumber q) (qt_createdBy q).
Definition with_converted i (q : Quote) : Quote :=
  mkQuote (qt_partnerId q) (qt_orgId q) (qt_siteId q) (qt_quoteNumber q) (qt_title q) (qt_introNotes q) (qt_status q) (qt_currencyCode q) (qt_issueDate q)
    (qt_expiryDate q) (qt_taxRate q) (qt_money q) (qt_deposit q) (qt_parties q) (qt_marks q) (qt_link q) (Some i)
    (qt_revisionOfQuoteId q) (qt_revisionNumber q) (qt_createdBy q).

Definition update_quote (id : string) (f : Quote -> Quote) : QM unit :=
  modify (fun d => set_quotes (alter f id (qd_quotes d)) d).

Definition quote_lines_of (id : string) (d : QuoteDb) : list QuoteLine :=
  List.filter (fun l => String.eqb (ql_quoteId l) id) (qd_lines d).
Definition quote_blocks_of (id : string) (d : QuoteDb) : list QuoteBlock :=
  List.filter (fun b => String.eqb (qb_quoteId b) id) (qd_blocks d).

(** Rows in the order of [before], ties in the order they were stored. *)
Fixpoint insert_by {A} (before : A -> A -> bool) (x : A) (l : list A) : list A :=
  match l with [] => [x] | y :: r => if before x y then x :: l else y :: insert_by before x r end.
Definition order_by {A} (before : A -> A -> bool) (l : list A) : list A := fold_left (fun acc x => insert_by before x acc) l [].

(** The blocks and lines of a quote by their sort column. *)
Definition blocks_in_order (id : string) (d : QuoteDb) : list QuoteBlock :=
  order_by (fun a b => qb_sortOrder a <? qb_sortOrder b) (quote_blocks_of id d).
Definition lines_in_order (id : string) (d : QuoteDb) : list QuoteLine :=
  order_by (fun a b => ql_sortOrder a <? ql_sortOrder b) (quote_lines_of id d).

(** ** What the tables refuse *)

(** A primary key or a unique index. *)
Definition pg_unique (index : string) (free : bool) : QM unit := if free then ret tt else lift (Err (Thrown index)).

(** A foreign key. *)
Definition pg_reference (there : bool) : QM unit := if there then ret tt else lift (Err (Thrown "foreign key violation")).

(** The column of type numeric(8,5) of a tax rate. *)
Definition pg_rate (s : string) : result Failure string :=
  match parse_text s with
  | Err _ => Err (Thrown "invalid input syntax for type numeric")
  | Ok d =>
      let m := roundScaled (mkDecimal false (unscaled d) (scale d)) 5 in
      if m <? 10 ^ 8 then Ok ((if neg d && (0 <? m) then "-" else "") ++ fixed_digits 5 m)
      else Err (Thrown "numeric field overflow")
  end.

Definition pg_rate_opt (s : option string) : result Failure (option string) :=
  match s with None => Ok None | Some x => let! y := pg_rate x in Ok (Some y) end.

(** [quote_lines_device_set_chk]: what a stored line's device set may be. *)
Definition site_scopable (t : ContractLineType) : bool := match t with lt_per_device | lt_per_device_role => true | _ => false end.

Definition present {A} (x : option A) : bool := match x with Some _ => true | None => false end.
Definition js_isInteger (n : num) : bool := match n with Fin q => Qeq_bool q (inject_Z (Qfloor q)) | _ => false end.

Definition device_set_ok (l : QuoteLine) : bool :=
  let s := ql_set l in
  let a := ds_allowance s in
  match ds_contractLineType s with
  | None =>
      negb (present (ds_deviceRoles s) || present (ds_deviceGroupId s) || present (ds_deviceGroupName s) || present (ds_siteId s)
            || present (ds_siteName s) || present (includedQuantity a) || present (overageMode a) || present (overageUnitPrice a))
  | Some t =>
      carries_allowance t
      && match recurrence (ql_math l) with one_time => false | _ => true end
      && negb (present (ql_parentLineId l))
      && Bool.eqb (present (ds_deviceRoles s)) (bool_decide (t = lt_per_device_role))
      && match ds_deviceRoles s with
         | Some roles => match roles with [] => false | _ => forallb (fun r => str_mem r BILLABLE_DEVICE_ROLES) roles end
         | None => true
         end
      && Bool.eqb (present (ds_deviceGroupName s)) (bool_decide (t = lt_per_device_group))
      && (negb (present (ds_deviceGroupId s)) || bool_decide (t = lt_per_device_group))
      && (negb (present (ds_siteId s)) || site_scopable t)
      && (negb (present (ds_siteName s)) || site_scopable t)
      && (negb (present (ds_siteId s)) || present (ds_siteName s))
      && Bool.eqb (present (includedQuantity a)) (present (overageMode a))
      && match includedQuantity a with
         | Some q => js_gt (js_Number q) (ofZ 0) && js_isInteger (js_Number q)
         | None => true
         end
      && Bool.eqb (present (overageUnitPrice a)) (match overageMode a with Some om_bill => true | _ => false end)
      && match overageUnitPrice a with Some x => js_ge (js_Number x) (ofZ 0) | None => true end
  end.

(** The row as its numeric columns keep it. *)
Definition store_math (m : QuoteLineForMath) : result Failure QuoteLineForMath :=
  let! q := pg_numeric (quantity m) in
  let! u := pg_numeric (unitPrice m) in
  let! c := pg_numeric_opt (unitCost m) in
  Ok {| quantity := q; unitPrice := u; unitCost := c; taxable := taxable m; customerVisible := customerVisible m;
        recurrence := recurrence m; depositEligible := depositEligible m; itemType := itemType m |}.

Definition store_line (l : QuoteLine) : result Failure QuoteLine :=
  let! m := store_math (ql_math l) in
  let! t := pg_numeric (ql_lineTotal l) in
  let! q := pg_numeric_opt (includedQuantity (ds_allowance (ql_set l))) in
  let! p := pg_numeric_opt (overageUnitPrice (ds_allowance (ql_set l))) in
  let s := ql_set l in
  Ok (mkQuoteLine (ql_id l) (ql_quoteId l) (ql_orgId l) (ql_blockId l) (ql_sourceType l) (ql_catalogItemId l) (ql_parentLineId l)
        (ql_name l) (ql_description l) m t (ql_termMonths l) (ql_billingFrequency l)
        (mkDeviceSet (ds_contractLineType s) (ds_deviceRoles s) (ds_deviceGroupId s) (ds_deviceGroupName s) (ds_siteId s) (ds_siteName s)
           (mkAllowance q (overageMode (ds_allowance s)) p))
        (ql_sortOrder l)).
