(* ===== verification/TimeEntries.v ===== *)
(** * Time entries and ticket parts ([apps/api/src/services/timeEntryService.ts],
      lines 240-1391, [loadCardsForOrg] of [billingProfileService.ts] and the
      tables of [db/schema/timeTracking.ts])

    Logging time, running and stopping timers, editing, deleting and approving
    entries, and the parts of a ticket. A row stamps the terms it will be billed
    under (rate, minimum, rounding, coverage) and its currency; an invoice that is
    issued marks it billed. A call is one transaction over the tables of this
    service; feed comments, audit records and events are not modelled. *)

From Stdlib Require Import QArith Qround.
From S2P Require Import Prelude JsString JsNumber Currency IsoDate InvoiceMath TimeBilling CatalogPricing ContractCoverage BillingDb InvoiceService QuoteDb.
From stdpp Require Import base gmap strings list.

Local Open Scope string_scope.
Local Open Scope Z_scope.
Local Open Scope billing_scope.

#[export] Instance coverage_eq_dec : EqDecision BillCoverage.
Proof. solve_decision. Defined.

(** ** Tables *)

Inductive TimeEntrySource := so_manual | so_timer | so_location | so_remote_session | so_support_session | so_ai_suggested.

(** The terms a row is billed under; [coverage] is null on rows older than the
    column. *)
Record EntryTerms := mkTerms {
  tm_billingProfileId : option string; tm_coverage : option BillCoverage; tm_hourlyRate : option string;
  tm_minimumMinutes : option Z; tm_roundingIncrementMinutes : option Z; tm_isBillable : bool;
  tm_billingStatus : TimeBillingStatus; tm_billingOverridden : bool }.

Record Approval := mkApproval { ap_isApproved : bool; ap_approvedBy : option string; ap_approvedAt : option Z }.

Definition unapproved : Approval := mkApproval false None None.

(** A row of [time_entries]; moments are milliseconds. *)
Record TimeEntry := mkTimeEntry {
  en_id : string; en_partnerId : string; en_orgId : option string; en_ticketId : option string; en_workTypeId : option string;
  en_userId : string; en_startedAt : Z; en_endedAt : option Z; en_durationMinutes : option Z; en_billableMinutes : option Z;
  en_description : option string; en_terms : EntryTerms; en_currencyCode : option string; en_source : TimeEntrySource;
  en_approval : Approval }.

(** A row of [ticket_parts]. *)
Record TicketPart := mkTicketPart {
  tk_id : string; tk_ticketId : string; tk_orgId : string; tk_currencyCode : string; tk_description : string;
  tk_partNumber : option string; tk_vendor : option string; tk_catalogItemId : option string; tk_quantity : string;
  tk_unitPrice : string; tk_costBasis : option string; tk_isBillable : bool; tk_billingStatus : TimeBillingStatus;
  tk_addedBy : option string; tk_notes : option string; tk_createdAt : Z }.

Record Ticket := mkTicket { ti_partnerId : option string; ti_orgId : string; ti_categoryId : option string }.

Record Profile := mkProfile { pf_partnerId : string; pf_isActive : bool; pf_isDefault : bool; pf_card : ResolvedCard }.

(** What the service only reads. *)
Record TimeRef := mkTimeRef {
  tr_tickets : gmap string Ticket;
  tr_organizations : gmap string (string * string);
  tr_categories : gmap string (option string);
  tr_partnerCurrency : gmap string string;
  tr_workTypes : gmap string (string * bool);
  tr_profiles : list Profile;
  tr_assignments : gmap (string * string) string;
}.

Record TimeDb := mkTimeDb { td_ref : TimeRef; td_entries : list TimeEntry; td_parts : list TicketPart; td_next : nat }.

Definition set_time_entries x (t : TimeDb) : TimeDb := mkTimeDb (td_ref t) x (td_parts t) (td_next t).
Definition set_time_parts x (t : TimeDb) : TimeDb := mkTimeDb (td_ref t) (td_entries t) x (td_next t).

Abbreviation TimeM := (St TimeDb).

(** The columns of type numeric(10,2), and of type integer. *)
Definition pg_numeric10 (s : string) : result Failure string :=
  let! t := pg_numeric s in
  match parse_text t with
  | Ok d => if unscaled d <? 10 ^ 10 then Ok t else Err (Thrown "numeric field overflow")
  | Err _ => Err (Thrown "numeric field overflow")
  end.

Definition int4 (z : Z) : bool := (- 2 ^ 31 <=? z) && (z <? 2 ^ 31).

Definition pg_numeric10_opt (s : option string) : result Failure (option string) :=
  match s with
  | None => Ok None
  | Some x => let! y := pg_numeric10 x in Ok (Some y)
  end.

(** ** Actors *)

Record TimeEntryActor := mkTimeActor {
  ta_userId : string; ta_partnerId : option string; ta_manageAll : bool; ta_manageBilling : bool;
  ta_accessibleOrgIds : option (list string) }.

(** The partner axis of the table's row-level policy; a system actor sees every
    row. *)
Definition partner_axis (actor : TimeEntryActor) (e : TimeEntry) : bool :=
  match ta_partnerId actor with Some p => String.eqb (en_partnerId e) p | None => true end.

Definition entryOrgAllowed (orgId : option string) (accessibleOrgIds : option (list string)) : bool :=
  match accessibleOrgIds, orgId with
  | Some ids, Some o => str_mem o ids
  | _, _ => true
  end.

(** ** Arithmetic and guards *)

Definition computeDurationMinutes (startedAt endedAt : Z) : Z := (endedAt - startedAt) / 60000.

Definition toRate (rate : option num) : option string := option_map (toFixed 2) rate.

(** The integer a double holds. *)
Definition int_of (x : num) : option Z := match x with Fin q => Some (Qfloor q) | _ => None end.

Definition billable_minutes (duration minimum increment : option Z) : option Z :=
  match computeBillableMinutes (option_map ofZ duration) (option_map ofZ minimum) (option_map ofZ increment) with
  | Some x => int_of x
  | None => None
  end.

(** [time_entries_billable_minutes_chk]: the same expression on the columns, with
    the error of its cast. *)
Definition billable_minutes_chk (duration minimum increment billable : option Z) : result string bool :=
  match billable, duration with
  | None, _ => Ok true
  | Some _, None => Ok false
  | Some b, Some d => match billableMinutesSql (Some d) minimum increment with Ok v => Ok (b =? v) | Err m => Err m end
  end.

Definition entry_minutes_chk (e : TimeEntry) : result string bool :=
  billable_minutes_chk (en_durationMinutes e) (tm_minimumMinutes (en_terms e)) (tm_roundingIncrementMinutes (en_terms e)) (en_billableMinutes e).
Definition entry_chk (e : TimeEntry) : bool := match entry_minutes_chk e with Ok b => b | Err _ => false end.

(** A write the check constraint rejects becomes a refusal of its own. *)
Definition refuseBillableMinutesDrift (e : TimeEntry) : TimeM unit :=
  do! kept := lift_throw (entry_minutes_chk e) in
  require kept BILLABLE_MINUTES_DRIFT.

(** The other checks of the table. *)
Definition currency_chk (e : TimeEntry) : bool :=
  (negb (present (en_orgId e)) || present (en_currencyCode e)) &&
  (negb (present (tm_hourlyRate (en_terms e))) || present (en_currencyCode e)).

Definition assertRateRepresentable (value currencyCode : option string) : TimeM unit :=
  match value, currencyCode with
  | Some v, Some c => require (isRepresentableInCurrency (Str v) c) NOT_REPRESENTABLE
  | _, _ => ret tt
  end.

Definition assertRoutineBillingStatus (status : option TimeBillingStatus) : TimeM unit :=
  require (match status with Some billed => false | _ => true end) BILLING_STATUS_RESERVED.

(** ** Rate cards *)

Definition loadCardsForOrg (r : TimeRef) (orgId partnerId orgCurrency : string) : option ResolvedCard * option ResolvedCard :=
  let assigned := match tr_assignments r !! (orgId, partnerId) with
                  | Some profileId => List.find (fun p => String.eqb (card_id (pf_card p)) profileId && String.eqb (pf_partnerId p) partnerId && pf_isActive p) (tr_profiles r)
                  | None => None
                  end in
  let fallback := List.find (fun p => String.eqb (pf_partnerId p) partnerId && String.eqb (card_currencyCode (pf_card p)) orgCurrency && pf_isDefault p && pf_isActive p) (tr_profiles r) in
  (option_map pf_card assigned, option_map pf_card fallback).

(** The terms being stamped. *)
Record BillingStamp := mkStamp {
  sm_billingProfileId : option string; sm_coverage : BillCoverage; sm_hourlyRate : option string; sm_minimumMinutes : option Z;
  sm_roundingIncrementMinutes : option Z; sm_isBillable : bool; sm_billingStatus : TimeBillingStatus }.

Definition billingStampFromEntry (e : TimeEntry) : BillingStamp :=
  let t := en_terms e in
  mkStamp (tm_billingProfileId t)
    (from_option_default (tm_coverage t) (if tm_isBillable t then cov_billable else cov_non_billable)) (tm_hourlyRate t)
    (tm_minimumMinutes t) (tm_roundingIncrementMinutes t) (tm_isBillable t) (tm_billingStatus t).

Definition rule_stamp (r : BillingRule) : BillingStamp :=
  mkStamp (billingProfileId r) (coverage r) (hourlyRate r) (minimumMinutes r) (roundingIncrementMinutes r) (isBillable r) (billingStatus r).

(** Work without an organization stays unpriced and not billable. *)
Definition resolveEntryBilling (r : TimeRef) (orgId : option string) (partnerId : string) (currencyCode workTypeId : option string) : BillingStamp :=
  match truthy orgId with
  | Some o =>
      let cards := match truthy currencyCode with Some c => loadCardsForOrg r o partnerId c | None => (None, None) end in
      rule_stamp (resolveBillingRule currencyCode (fst cards) (snd cards) workTypeId)
  | None =>
      let s := rule_stamp (resolveBillingRule None None None workTypeId) in
      mkStamp (sm_billingProfileId s) cov_non_billable (sm_hourlyRate s) (sm_minimumMinutes s) (sm_roundingIncrementMinutes s) false (sm_billingStatus s)
  end.

Definition assertManageBilling (actor : TimeEntryActor) : TimeM unit := require (ta_manageBilling actor) MANAGE_BILLING_REQUIRED.

(** *** A request's billing fields over a stamp *)

(** An absent key is [None]; a nullable key is present as [Some None]. *)
Record BillingInput := mkBillingInput {
  bin_hourlyRate : option (option num); bin_billingStatus : option TimeBillingStatus; bin_isBillable : option bool;
  bin_minimumMinutes : option (option Z) }.

Definition no_billing_input : BillingInput := mkBillingInput None None None None.

Definition given_rate (input : BillingInput) : option num := match bin_hourlyRate input with Some r => r | None => None end.

Definition rate_differs (base : BillingStamp) (input : BillingInput) : bool :=
  match bin_hourlyRate input with
  | None => false
  | Some r => match toRate r, sm_hourlyRate base with
              | Some a, Some b => negb (js_eq (js_Number a) (js_Number b))
              | None, None => false
              | _, _ => true
              end
  end.

Definition opt_Z_eqb (a b : option Z) : bool := bool_decide (a = b).

Definition prices_non_billable (base : BillingStamp) (input : BillingInput) : bool := present (given_rate input) && negb (sm_isBillable base).

Definition deviates (base : BillingStamp) (input : BillingInput) : bool :=
  rate_differs base input ||
  match bin_billingStatus input with Some s => negb (bool_decide (s = sm_billingStatus base)) | None => false end ||
  match bin_minimumMinutes input with Some m => negb (opt_Z_eqb m (sm_minimumMinutes base)) | None => false end ||
  (match bin_isBillable input with Some b => negb (Bool.eqb b (sm_isBillable base)) | None => false end || prices_non_billable base input).

(** The four adjustments, in their order. *)
Definition out_of_scope (base : BillingStamp) (input : BillingInput) (rate : option string) (s : BillingStamp) : BillingStamp :=
  if bool_decide (sm_coverage base = cov_included) &&
     ((rate_differs base input && present rate) || match bin_billingStatus input with Some bs_contract => false | Some _ => true | None => false end)
  then mkStamp (sm_billingProfileId s) cov_billable (sm_hourlyRate s) (sm_minimumMinutes s) (sm_roundingIncrementMinutes s) (sm_isBillable s)
         (from_option_default (bin_billingStatus input) not_billed)
  else s.

Definition becomes_billable (input : BillingInput) (s : BillingStamp) : BillingStamp :=
  if sm_isBillable s && bool_decide (sm_coverage s = cov_non_billable)
  then mkStamp (sm_billingProfileId s) cov_billable (sm_hourlyRate s) (sm_minimumMinutes s) (sm_roundingIncrementMinutes s) (sm_isBillable s)
         (from_option_default (bin_billingStatus input) not_billed)
  else s.

Definition strip_non_billable (s : BillingStamp) : BillingStamp :=
  if sm_isBillable s then s
  else mkStamp (sm_billingProfileId s) cov_non_billable None None (sm_roundingIncrementMinutes s) false not_billed.

Definition strip_included (s : BillingStamp) : BillingStamp :=
  let cov := match sm_billingStatus s with bs_contract => cov_included | _ => sm_coverage s end in
  match cov with
  | cov_included => mkStamp (sm_billingProfileId s) cov_included None None (sm_roundingIncrementMinutes s) (sm_isBillable s) (sm_billingStatus s)
  | _ => mkStamp (sm_billingProfileId s) cov (sm_hourlyRate s) (sm_minimumMinutes s) (sm_roundingIncrementMinutes s) (sm_isBillable s) (sm_billingStatus s)
  end.

Definition applyBillingInput (base : BillingStamp) (input : BillingInput) (actor : TimeEntryActor) (alreadyOverridden : bool)
    : TimeM (BillingStamp * bool) :=
  let rate := match bin_hourlyRate input with Some r => toRate r | None => sm_hourlyRate base end in
  do! _ := if deviates base input then assertManageBilling actor else ret tt in
  do! _ := require (negb (present (given_rate input) && match bin_isBillable input with Some false => true | _ => false end)) RATE_REQUIRES_BILLABLE in
  let stamp := mkStamp (sm_billingProfileId base) (sm_coverage base) rate (from_option_default (bin_minimumMinutes input) (sm_minimumMinutes base))
                 (sm_roundingIncrementMinutes base)
                 (from_option_default (bin_isBillable input) (if prices_non_billable base input then true else sm_isBillable base))
                 (from_option_default (bin_billingStatus input) (sm_billingStatus base)) in
  ret (strip_included (strip_non_billable (becomes_billable input (out_of_scope base input rate stamp))), alreadyOverridden || deviates base input).

Definition stamp_terms (s : BillingStamp) (overridden : bool) : EntryTerms :=
  mkTerms (sm_billingProfileId s) (Some (sm_coverage s)) (sm_hourlyRate s) (sm_minimumMinutes s) (sm_roundingIncrementMinutes s) (sm_isBillable s)
    (sm_billingStatus s) overridden.

(** ** Links to a ticket or an organization *)

(** An absent work type asks for the default, a null one for none. *)
Definition assertWorkTypeUsable (workTypeId : option (option string)) (partnerId : string) : TimeM unit :=
  match workTypeId with
  | Some (Some w) => do! r := read td_ref in
      require (match tr_workTypes r !! w with Some (p, active) => String.eqb p partnerId && active | None => false end) WORK_TYPE_NOT_FOUND
  | _ => ret tt
  end.

Record TicketLink := mkLink {
  ln_orgId : string; ln_partnerId : string; ln_currencyCode : string; ln_workTypeId : option string; ln_billing : BillingStamp }.

Definition getTicketForTimeTracking (r : TimeRef) (ticketId : string) : result Failure Ticket :=
  match tr_tickets r !! ticketId with Some t => Ok t | None => Err (Refused TICKET_NOT_FOUND) end.

(** A ticket without a partner falls back to its organization's. *)
Definition resolveTicketOrg (r : TimeRef) (t : Ticket) : option (string * string) :=
  match tr_organizations r !! ti_orgId t with
  | Some (orgPartner, currency) => Some (from_option_default (ti_partnerId t) orgPartner, currency)
  | None => None
  end.

Definition getCategoryDefaults (r : TimeRef) (categoryId : string) : option (option string) := tr_categories r !! categoryId.

Definition resolveTicketLink (r : TimeRef) (ticketId : string) (actor : TimeEntryActor) (requested : option (option string))
    : result Failure TicketLink :=
  let! t := getTicketForTimeTracking r ticketId in
  match resolveTicketOrg r t with
  | None => Err (Refused PARTNER_UNRESOLVABLE)
  | Some (partner, currency) =>
      let! _ := Prelude.guard (negb (String.eqb partner "")) (Refused PARTNER_UNRESOLVABLE) in
      let! _ := Prelude.guard (match truthy (ta_partnerId actor) with Some p => String.eqb partner p | None => true end) (Refused TICKET_WRONG_PARTNER) in
      let! _ := Prelude.guard (match ta_accessibleOrgIds actor with Some ids => str_mem (ti_orgId t) ids | None => true end) (Refused TICKET_ORG_DENIED) in
      let category := match truthy (ti_categoryId t) with Some c => getCategoryDefaults r c | None => None end in
      let workTypeId := match requested with Some w => w | None => match category with Some w => w | None => None end end in
      Ok (mkLink (ti_orgId t) partner currency workTypeId (resolveEntryBilling r (Some (ti_orgId t)) partner (Some currency) workTypeId))
  end.

(** [lockTicketRow]: the organization the locked ticket is in. *)
Definition lockTicketRow (ticketId : string) : TimeM string :=
  do! r := read td_ref in
  match tr_tickets r !! ticketId with Some t => ret (ti_orgId t) | None => fail TICKET_NOT_FOUND end.

Definition readOrgStampingDefaults (orgId : string) : TimeM string :=
  do! r := read td_ref in
  match tr_organizations r !! orgId with Some (_, currency) => ret currency | None => fail ORG_NOT_FOUND end.

(** The access gates are checked on unlocked reads, which may be older than the
    locked ones: [seen] is what they read. *)
Definition resolveAndLockTicketLink (seen : TimeRef) (ticketId : string) (actor : TimeEntryActor) (workTypeId : option (option string)) : TimeM TicketLink :=
  do! link := lift (resolveTicketLink seen ticketId actor workTypeId) in
  do! org := readOrgStampingDefaults (ln_orgId link) in
  do! locked := lockTicketRow ticketId in
  do! r := read td_ref in
  do! (org, link) := if String.eqb locked (ln_orgId link) then ret (org, link)
                      else do! o := readOrgStampingDefaults locked in
                           do! l := lift (resolveTicketLink r ticketId actor workTypeId) in ret (o, l) in
  if String.eqb org (ln_currencyCode link) then ret link
  else lift (resolveTicketLink r ticketId actor workTypeId).

Definition getPartnerCurrency (partnerId : string) : TimeM string :=
  do! r := read td_ref in
  match truthy (tr_partnerCurrency r !! partnerId) with Some c => ret c | None => fail PARTNER_UNRESOLVABLE end.

Definition resolveAndLockOrgLink (orgId : string) (actor : TimeEntryActor) : TimeM (string * string) :=
  do! _ := require (entryOrgAllowed (Some orgId) (ta_accessibleOrgIds actor)) ORG_DENIED in
  do! r := read td_ref in
  do! _ := require (match tr_organizations r !! orgId with
                    | Some (p, _) => match truthy (ta_partnerId actor) with Some q => String.eqb p q | None => true end
                    | None => false
                    end) ORG_DENIED in
  do! currency := readOrgStampingDefaults orgId in
  ret (orgId, currency).

(** ** Writing a row *)

Definition set_rate (rate : option string) (t : EntryTerms) : EntryTerms :=
  mkTerms (tm_billingProfileId t) (tm_coverage t) rate (tm_minimumMinutes t) (tm_roundingIncrementMinutes t) (tm_isBillable t)
    (tm_billingStatus t) (tm_billingOverridden t).

Definition set_terms (t : EntryTerms) (e : TimeEntry) : TimeEntry :=
  mkTimeEntry (en_id e) (en_partnerId e) (en_orgId e) (en_ticketId e) (en_workTypeId e) (en_userId e) (en_startedAt e) (en_endedAt e)
    (en_durationMinutes e) (en_billableMinutes e) (en_description e) t (en_currencyCode e) (en_source e) (en_approval e).

Definition set_approval (a : Approval) (e : TimeEntry) : TimeEntry :=
  mkTimeEntry (en_id e) (en_partnerId e) (en_orgId e) (en_ticketId e) (en_workTypeId e) (en_userId e) (en_startedAt e) (en_endedAt e)
    (en_durationMinutes e) (en_billableMinutes e) (en_description e) (en_terms e) (en_currencyCode e) (en_source e) a.

Definition pg_int4 (xs : list (option Z)) : result Failure unit :=
  if forallb (fun x => match x with Some z => int4 z | None => true end) xs then Ok tt else Err (Thrown "integer out of range").

(** The row as the columns hold it: the column types first, then the checks of
    the table in the order of their names. *)
Definition accept_entry (e : TimeEntry) : TimeM TimeEntry :=
  do! rate := lift (pg_numeric10_opt (tm_hourlyRate (en_terms e))) in
  do! _ := lift (pg_int4 [en_durationMinutes e; en_billableMinutes e; tm_minimumMinutes (en_terms e); tm_roundingIncrementMinutes (en_terms e)]) in
  let e := set_terms (set_rate rate (en_terms e)) e in
  do! _ := refuseBillableMinutesDrift e in
  do! _ := pg_check (currency_chk e) in
  ret e.

Definition insert_entry (e : TimeEntry) : TimeM TimeEntry :=
  do! e := accept_entry e in
  do! _ := modify (fun t => set_time_entries (td_entries t ++ [e])%list t) in
  ret e.

Definition update_entry (e : TimeEntry) : TimeM TimeEntry :=
  do! e := accept_entry e in
  do! _ := modify (fun t => set_time_entries (map (fun x => if String.eqb (en_id x) (en_id e) then e else x) (td_entries t)) t) in
  ret e.

(** ** Logging time *)

Record CreateTimeEntryInput := mkCreateEntry {
  ce_workTypeId : option (option string); ce_ticketId : option string; ce_startedAt : Z; ce_endedAt : Z; ce_description : option string;
  ce_billing : BillingInput }.

(** Where an entry without a ticket comes from: the organization and its locked
    currency. *)
Record TimeEntryProvenance := mkProvenance { pv_source : TimeEntrySource; pv_orgLink : option (string * string) }.

Definition manual_entry : TimeEntryProvenance := mkProvenance so_manual None.

Section TimeEntries.
Context `{Uuids}.

Definition mint_row : TimeM string := fun t => Ok (uuid (td_next t), mkTimeDb (td_ref t) (td_entries t) (td_parts t) (S (td_next t))).

(** What a new entry is linked to: partner, organization, currency, work type,
    and the terms when a ticket gave them. *)
Definition entry_link (seen : TimeRef) (ticketId : option string) (workTypeId : option (option string)) (orgLink : option (string * string)) (actor : TimeEntryActor)
    : TimeM (string * option string * option string * option string * option BillingStamp) :=
  do! (partner, org, currency, work, billing) :=
    match truthy ticketId with
    | Some tk => do! l := resolveAndLockTicketLink seen tk actor workTypeId in
        ret (Some (ln_partnerId l), Some (ln_orgId l), Some (ln_currencyCode l), ln_workTypeId l, Some (ln_billing l))
    | None => ret (ta_partnerId actor, option_map fst orgLink, option_map snd orgLink, match workTypeId with Some w => w | None => None end, None)
    end in
  match truthy partner with
  | None => fail PARTNER_UNRESOLVABLE
  | Some p => ret (p, org, currency, work, billing)
  end.

(** The terms the ticket gave, or those of the organization's card. *)
Definition or_resolved (billing : option BillingStamp) (r : TimeRef) (org : option string) (partner : string) (currency work : option string) : BillingStamp :=
  match billing with Some b => b | None => resolveEntryBilling r org partner currency work end.

Definition createTimeEntry (seen : TimeRef) (input : CreateTimeEntryInput) (actor : TimeEntryActor) (provenance : TimeEntryProvenance) : TimeM TimeEntry :=
  do! _ := assertRoutineBillingStatus (bin_billingStatus (ce_billing input)) in
  do! (partner, org, currency, work, billing) := entry_link seen (ce_ticketId input) (ce_workTypeId input) (pv_orgLink provenance) actor in
  do! _ := require (ce_startedAt input <? ce_endedAt input) INVALID_RANGE in
  do! currency := if negb (present (truthy (ce_ticketId input))) && negb (present currency) && present (given_rate (ce_billing input))
                  then do! c := getPartnerCurrency partner in ret (Some c) else ret currency in
  do! _ := assertWorkTypeUsable (ce_workTypeId input) partner in
  do! r := read td_ref in
  do! (stamp, overridden) := applyBillingInput (or_resolved billing r org partner currency work) (ce_billing input) actor false in
  do! _ := assertRateRepresentable (sm_hourlyRate stamp) currency in
  do! id := mint_row in
  let duration := computeDurationMinutes (ce_startedAt input) (ce_endedAt input) in
  insert_entry (mkTimeEntry id partner org (ce_ticketId input) work (ta_userId actor) (ce_startedAt input) (Some (ce_endedAt input)) (Some duration)
    (billable_minutes (Some duration) (sm_minimumMinutes stamp) (sm_roundingIncrementMinutes stamp)) (ce_description input)
    (stamp_terms stamp overridden) currency (pv_source provenance) unapproved).

(** ** Timers *)

(** The running timer of the actor that the row-level policy lets the request see. *)
Definition runs_for (actor : TimeEntryActor) (e : TimeEntry) : bool :=
  String.eqb (en_userId e) (ta_userId actor) && negb (present (en_endedAt e)) && partner_axis actor e.

Definition stopped_entry (now : Z) (description : option string) (terms : EntryTerms) (billable : Z) (e : TimeEntry) : TimeEntry :=
  let duration := computeDurationMinutes (en_startedAt e) now in
  mkTimeEntry (en_id e) (en_partnerId e) (en_orgId e) (en_ticketId e) (en_workTypeId e) (en_userId e) (en_startedAt e) (Some now) (Some duration)
    (Some billable)
    (match description with Some x => Some x | None => en_description e end) terms (en_currencyCode e) (en_source e) (en_approval e).

(** The partial unique index leaves a user at most one running entry, so the
    update of the actor's running rows is an update of one row. *)
Definition stopRunningEntry (now : Z) (description : option string) (isBillable : option bool) (actor : TimeEntryActor) : TimeM (option TimeEntry) :=
  do! es := read td_entries in
  match List.find (runs_for actor) es with
  | None => ret None
  | Some e =>
      do! override := match isBillable with
                      | None => ret None
                      | Some b =>
                          do! (stamp, overridden) := applyBillingInput (billingStampFromEntry e) (mkBillingInput None None (Some b) None) actor
                                                       (tm_billingOverridden (en_terms e)) in
                          ret (Some (stamp_terms stamp overridden))
                      end in
      let terms := from_option_default override (en_terms e) in
      do! duration := lift_throw (cast_int (computeDurationMinutes (en_startedAt e) now)) in
      do! billable := lift_throw (billableMinutesSql (Some duration) (tm_minimumMinutes terms) (tm_roundingIncrementMinutes terms)) in
      do! stopped := update_entry (stopped_entry now description terms billable e) in
      ret (Some stopped)
  end.

Definition running_entry (userId : string) (e : TimeEntry) : bool := String.eqb (en_userId e) userId && negb (present (en_endedAt e)).

(** The insertion does nothing when the user has a running entry, even one the
    request cannot see. *)
Definition start_attempt (now : Z) (e : string -> TimeEntry) (actor : TimeEntryActor) : TimeM (option TimeEntry) :=
  do! _ := stopRunningEntry now None None actor in
  do! es := read td_entries in
  if existsb (running_entry (ta_userId actor)) es then ret None
  else do! id := mint_row in do! x := insert_entry (e id) in ret (Some x).

Definition startTimer (now : Z) (seen : TimeRef) (ticketId description : option string) (workTypeId : option (option string)) (actor : TimeEntryActor) : TimeM TimeEntry :=
  do! (partner, org, currency, work, billing) := entry_link seen ticketId workTypeId None actor in
  do! _ := assertWorkTypeUsable workTypeId partner in
  do! r := read td_ref in
  let stamp := or_resolved billing r org partner currency work in
  do! _ := assertRateRepresentable (sm_hourlyRate stamp) currency in
  let entry id := mkTimeEntry id partner org ticketId work (ta_userId actor) now None None None description (stamp_terms stamp false) currency so_timer unapproved in
  do! first := start_attempt now entry actor in
  match first with
  | Some e => ret e
  | None => do! second := start_attempt now entry actor in
            match second with Some e => ret e | None => fail ENTRY_RUNNING end
  end.

Definition stopTimer (now : Z) (description : option string) (isBillable : option bool) (actor : TimeEntryActor) : TimeM TimeEntry :=
  do! stopped := stopRunningEntry now description isBillable actor in
  match stopped with Some e => ret e | None => fail NO_RUNNING_TIMER end.

(** ** Editing, deleting and approving *)

Definition getEntryOr404 (id : string) (actor : TimeEntryActor) : TimeM TimeEntry :=
  do! es := read td_entries in
  match List.find (fun e => String.eqb (en_id e) id && partner_axis actor e) es with
  | Some e => do! _ := require (entryOrgAllowed (en_orgId e) (ta_accessibleOrgIds actor)) ENTRY_NOT_FOUND in ret e
  | None => fail ENTRY_NOT_FOUND
  end.

Definition assertCanMutate (e : TimeEntry) (actor : TimeEntryActor) : TimeM unit :=
  do! _ := require (String.eqb (en_userId e) (ta_userId actor) || ta_manageAll actor) NOT_OWN_ENTRY in
  require (negb (ap_isApproved (en_approval e)) || ta_manageAll actor) APPROVED_IMMUTABLE.

Record UpdateTimeEntryInput := mkUpdateEntry {
  ue_resetBilling : option bool; ue_workTypeId : option (option string); ue_ticketId : option (option string); ue_startedAt : option Z;
  ue_endedAt : option Z; ue_description : option (option string); ue_billing : BillingInput }.

Definition billing_keys (b : BillingInput) : bool :=
  present (bin_hourlyRate b) || present (bin_minimumMinutes b) || present (bin_billingStatus b) || present (bin_isBillable b).

Definition BILLED_LOCKED_ENTRY_FIELDS (input : UpdateTimeEntryInput) : bool :=
  present (ue_startedAt input) || present (ue_endedAt input) || billing_keys (ue_billing input) || present (ue_ticketId input) ||
  present (ue_workTypeId input) || present (ue_resetBilling input).

(** The organization and currency after the edit: a first attachment stamps the
    currency, a later one must match it, and detaching leaves it. *)
Definition relinked_to (input : UpdateTimeEntryInput) (link : option TicketLink) (e : TimeEntry) : TimeM (option string * option string) :=
  match ue_ticketId input, link with
  | Some None, _ => ret (None, en_currencyCode e)
  | Some (Some _), Some l =>
      do! _ := require (String.eqb (ln_partnerId l) (en_partnerId e)) TICKET_WRONG_PARTNER in
      match en_currencyCode e with
      | None => ret (Some (ln_orgId l), Some (ln_currencyCode l))
      | Some c => do! _ := require (String.eqb c (ln_currencyCode l)) CURRENCY_MISMATCH in ret (Some (ln_orgId l), Some c)
      end
  | _, _ => ret (en_orgId e, en_currencyCode e)
  end.

Definition changed {A} `{EqDecision A} (new : option A) (old : A) : bool :=
  match new with Some x => negb (bool_decide (x = old)) | None => false end.

Definition relinks (input : UpdateTimeEntryInput) (e : TimeEntry) : bool := changed (ue_ticketId input) (en_ticketId e).

Definition resets (input : UpdateTimeEntryInput) : bool := match ue_resetBilling input with Some b => b | None => false end.

Definition reprices (input : UpdateTimeEntryInput) (e : TimeEntry) : bool :=
  resets input || (negb (tm_billingOverridden (en_terms e)) && (relinks input e || changed (ue_workTypeId input) (en_workTypeId e))).

(** The link the entry is moved to, if it is moved to another ticket. *)
Definition new_link (input : UpdateTimeEntryInput) (link : option TicketLink) (e : TimeEntry) : option TicketLink :=
  if relinks input e then link else None.

Definition next_work_type (input : UpdateTimeEntryInput) (link : option TicketLink) (e : TimeEntry) : option string :=
  match ue_workTypeId input with
  | Some w => w
  | None => match new_link input link e with Some l => ln_workTypeId l | None => en_workTypeId e end
  end.

(** The stamp the edit starts from. *)
Definition edit_base (r : TimeRef) (input : UpdateTimeEntryInput) (link : option TicketLink) (e : TimeEntry) : BillingStamp :=
  if reprices input e then
    match new_link input link e with
    | Some l => ln_billing l
    | None => resolveEntryBilling r (match ue_ticketId input with Some None => None | _ => en_orgId e end) (en_partnerId e) (en_currencyCode e)
                (next_work_type input link e)
    end
  else billingStampFromEntry e.

(** A routine edit leaves the profile and the rounding of the row. *)
Definition edited_terms (repriced : bool) (base stamp : BillingStamp) (overridden : bool) (t : EntryTerms) : EntryTerms :=
  mkTerms (if repriced then sm_billingProfileId base else tm_billingProfileId t) (Some (sm_coverage stamp)) (sm_hourlyRate stamp) (sm_minimumMinutes stamp)
    (if repriced then sm_roundingIncrementMinutes base else tm_roundingIncrementMinutes t) (sm_isBillable stamp) (sm_billingStatus stamp) overridden.

(** The billed quantity is computed again when the duration or a term moved in
    value, not when a key is merely present. *)
Definition next_billable (redated : bool) (duration : option Z) (terms : EntryTerms) (e : TimeEntry) : option Z :=
  if redated || negb (bool_decide (tm_minimumMinutes terms = tm_minimumMinutes (en_terms e)))
     || negb (bool_decide (tm_roundingIncrementMinutes terms = tm_roundingIncrementMinutes (en_terms e)))
  then billable_minutes duration (tm_minimumMinutes terms) (tm_roundingIncrementMinutes terms)
  else en_billableMinutes e.

Definition next_start (input : UpdateTimeEntryInput) (e : TimeEntry) : Z := from_option_default (ue_startedAt input) (en_startedAt e).
Definition next_end (input : UpdateTimeEntryInput) (e : TimeEntry) : option Z := match ue_endedAt input with Some x => Some x | None => en_endedAt e end.

Definition redated (input : UpdateTimeEntryInput) (e : TimeEntry) : bool :=
  (present (ue_startedAt input) || present (ue_endedAt input)) && present (next_end input e).

Definition next_duration (input : UpdateTimeEntryInput) (e : TimeEntry) : option Z :=
  match next_end input e with
  | Some x => if redated input e then Some (computeDurationMinutes (next_start input e) x) else en_durationMinutes e
  | None => en_durationMinutes e
  end.

(** The row after the edit; any edit clears the approval. *)
Definition edited_row (input : UpdateTimeEntryInput) (link : option TicketLink) (e : TimeEntry) (org currency : option string) (terms : EntryTerms) : TimeEntry :=
  mkTimeEntry (en_id e) (en_partnerId e) org (from_option_default (ue_ticketId input) (en_ticketId e))
    (if reprices input e then next_work_type input link e else from_option_default (ue_workTypeId input) (en_workTypeId e)) (en_userId e)
    (next_start input e) (next_end input e) (next_duration input e) (next_billable (redated input e) (next_duration input e) terms e)
    (from_option_default (ue_description input) (en_description e)) terms currency (en_source e) unapproved.

Definition updateTimeEntry (seen : TimeRef) (id : string) (input : UpdateTimeEntryInput) (actor : TimeEntryActor) : TimeM TimeEntry :=
  do! _ := assertRoutineBillingStatus (bin_billingStatus (ue_billing input)) in
  do! link := match ue_ticketId input with
              | Some (Some tk) => do! l := resolveAndLockTicketLink seen tk actor (ue_workTypeId input) in ret (Some l)
              | _ => ret None
              end in
  do! e := getEntryOr404 id actor in
  do! _ := assertCanMutate e actor in
  do! _ := assertWorkTypeUsable (ue_workTypeId input) (en_partnerId e) in
  do! _ := require (negb (is_billed (tm_billingStatus (en_terms e)) && BILLED_LOCKED_ENTRY_FIELDS input)) ENTRY_BILLED in
  do! _ := require (match next_end input e with Some x => next_start input e <? x | None => true end) INVALID_RANGE in
  do! (org, currency) := relinked_to input link e in
  do! _ := if resets input then assertManageBilling actor else ret tt in
  do! r := read td_ref in
  let repriced := reprices input e in
  let base := edit_base r input link e in
  let restamped := repriced || billing_keys (ue_billing input) in
  do! terms := if restamped
               then do! (stamp, overridden) := applyBillingInput base (ue_billing input) actor (if repriced then false else tm_billingOverridden (en_terms e)) in
                    ret (edited_terms repriced base stamp overridden (en_terms e))
               else ret (en_terms e) in
  let standalone := match ue_ticketId input with Some None => true | Some (Some _) => false | None => negb (present (en_ticketId e)) end in
  do! currency := if present (given_rate (ue_billing input)) && standalone && negb (present (en_currencyCode e))
                  then do! c := getPartnerCurrency (en_partnerId e) in ret (Some c) else ret currency in
  do! _ := if restamped then assertRateRepresentable (tm_hourlyRate terms) currency else ret tt in
  update_entry (edited_row input link e org currency terms).

Definition deleteTimeEntry (id : string) (actor : TimeEntryActor) : TimeM unit :=
  do! e := getEntryOr404 id actor in
  do! _ := assertCanMutate e actor in
  do! _ := require (negb (is_billed (tm_billingStatus (en_terms e)))) ENTRY_BILLED in
  modify (fun t => set_time_entries (List.filter (fun x => negb (String.eqb (en_id x) id)) (td_entries t)) t).

Record BulkApproveResult := mkBulkApprove { ba_updated : nat; ba_skipped : Z; ba_notFound : nat; ba_running : nat }.

Definition candidate (actor : TimeEntryActor) (id : string) (e : TimeEntry) : bool :=
  String.eqb (en_id e) id && partner_axis actor e && entryOrgAllowed (en_orgId e) (ta_accessibleOrgIds actor).

Definition approveTimeEntries (now : Z) (ids : list string) (approve : bool) (actor : TimeEntryActor) : TimeM BulkApproveResult :=
  do! _ := require (ta_manageAll actor) ADMIN_REQUIRED in
  do! es := read td_entries in
  let row id := List.find (candidate actor id) es in
  let missing := List.filter (fun id => negb (present (row id))) ids in
  let running := List.filter (fun id => match row id with Some e => negb (present (en_endedAt e)) | None => false end) ids in
  let eligible := List.filter (fun id => match row id with Some e => present (en_endedAt e) | None => false end) ids in
  let a := if approve then mkApproval true (Some (ta_userId actor)) (Some now) else unapproved in
  let hit e := str_mem (en_id e) eligible && partner_axis actor e in
  let updated := List.length (List.filter hit es) in
  do! _ := modify (fun t => set_time_entries (map (fun e => if hit e then set_approval a e else e) (td_entries t)) t) in
  ret (mkBulkApprove updated (Z.of_nat (List.length ids) - Z.of_nat updated) (List.length missing) (List.length running)).

(** ** Parts *)

(** An absent key is [None]; [costBasis] and [catalogItemId] may be null. *)
Record TicketPartInput := mkPartInput {
  pa_description : string; pa_partNumber : option string; pa_vendor : option string; pa_catalogItemId : option (option string); pa_quantity : num;
  pa_unitPrice : option num; pa_costBasis : option (option num); pa_isBillable : option bool; pa_billingStatus : option TimeBillingStatus;
  pa_notes : option string }.

Definition flat {A} (x : option (option A)) : option A := match x with Some y => y | None => None end.

Definition accept_part (p : TicketPart) : TimeM TicketPart :=
  do! quantity := lift (pg_numeric10 (tk_quantity p)) in
  do! unitPrice := lift (pg_numeric10 (tk_unitPrice p)) in
  do! costBasis := lift (pg_numeric10_opt (tk_costBasis p)) in
  ret (mkTicketPart (tk_id p) (tk_ticketId p) (tk_orgId p) (tk_currencyCode p) (tk_description p) (tk_partNumber p) (tk_vendor p) (tk_catalogItemId p)
    quantity unitPrice costBasis (tk_isBillable p) (tk_billingStatus p) (tk_addedBy p) (tk_notes p) (tk_createdAt p)).

Definition addTicketPart (now : Z) (seen : TimeRef) (ticketId : string) (input : TicketPartInput) (actor : TimeEntryActor) : TimeM TicketPart :=
  do! _ := assertRoutineBillingStatus (pa_billingStatus input) in
  do! link := resolveAndLockTicketLink seen ticketId actor None in
  let unitPrice := toFixed 2 (from_option_default (pa_unitPrice input) (ofZ 0)) in
  let costBasis := option_map (toFixed 2) (flat (pa_costBasis input)) in
  do! _ := assertRateRepresentable (Some unitPrice) (Some (ln_currencyCode link)) in
  do! _ := assertRateRepresentable costBasis (Some (ln_currencyCode link)) in
  do! id := mint_row in
  do! p := accept_part (mkTicketPart id ticketId (ln_orgId link) (ln_currencyCode link) (pa_description input) (pa_partNumber input) (pa_vendor input)
             (flat (pa_catalogItemId input)) (toFixed 2 (pa_quantity input)) unitPrice costBasis
             (from_option_default (pa_isBillable input) (sm_isBillable (ln_billing link)))
             (from_option_default (pa_billingStatus input) not_billed) (Some (ta_userId actor)) (pa_notes input) now) in
  do! _ := modify (fun t => set_time_parts (td_parts t ++ [p])%list t) in
  ret p.

(** The organization axis of the table's row-level policy. *)
Definition org_axis (actor : TimeEntryActor) (p : TicketPart) : bool :=
  match ta_accessibleOrgIds actor with Some ids => str_mem (tk_orgId p) ids | None => true end.

Definition getPartOr404 (id : string) (actor : TimeEntryActor) : TimeM TicketPart :=
  do! ps := read td_parts in
  match List.find (fun p => String.eqb (tk_id p) id && org_axis actor p) ps with
  | Some p => ret p
  | None => fail PART_NOT_FOUND
  end.

Record TicketPartPatch := mkPartPatch {
  pp_description : option string; pp_partNumber : option string; pp_vendor : option string; pp_catalogItemId : option (option string); pp_quantity : option num;
  pp_unitPrice : option num; pp_costBasis : option (option num); pp_isBillable : option bool; pp_billingStatus : option TimeBillingStatus;
  pp_notes : option string }.

Definition BILLED_LOCKED_PART_FIELDS (input : TicketPartPatch) : bool :=
  present (pp_quantity input) || present (pp_unitPrice input) || present (pp_costBasis input) || present (pp_isBillable input) ||
  present (pp_billingStatus input) || present (pp_catalogItemId input).

(** An update that sets no column is refused by the query builder. *)
Definition empty_part_patch (input : TicketPartPatch) : bool :=
  negb (BILLED_LOCKED_PART_FIELDS input || present (pp_description input) || present (pp_partNumber input) || present (pp_vendor input) || present (pp_notes input)).

Definition or_keep {A} (x y : option A) : option A := match x with Some _ => x | None => y end.

Definition updateTicketPart (id : string) (input : TicketPartPatch) (actor : TimeEntryActor) : TimeM TicketPart :=
  do! _ := assertRoutineBillingStatus (pp_billingStatus input) in
  do! p := getPartOr404 id actor in
  do! _ := require (negb (is_billed (tk_billingStatus p) && BILLED_LOCKED_PART_FIELDS input)) PART_BILLED in
  let unitPrice := option_map (toFixed 2) (pp_unitPrice input) in
  let costBasis := option_map (option_map (toFixed 2)) (pp_costBasis input) in
  do! _ := assertRateRepresentable unitPrice (Some (tk_currencyCode p)) in
  do! _ := assertRateRepresentable (flat costBasis) (Some (tk_currencyCode p)) in
  do! _ := lift (if empty_part_patch input then Err (Thrown "No values to set") else Ok tt) in
  do! q := accept_part (mkTicketPart (tk_id p) (tk_ticketId p) (tk_orgId p) (tk_currencyCode p) (from_option_default (pp_description input) (tk_description p))
             (or_keep (pp_partNumber input) (tk_partNumber p)) (or_keep (pp_vendor input) (tk_vendor p))
             (from_option_default (pp_catalogItemId input) (tk_catalogItemId p)) (from_option_default (option_map (toFixed 2) (pp_quantity input)) (tk_quantity p))
             (from_option_default unitPrice (tk_unitPrice p)) (from_option_default costBasis (tk_costBasis p))
             (from_option_default (pp_isBillable input) (tk_isBillable p)) (from_option_default (pp_billingStatus input) (tk_billingStatus p))
             (tk_addedBy p) (or_keep (pp_notes input) (tk_notes p)) (tk_createdAt p)) in
  do! _ := modify (fun t => set_time_parts (map (fun x => if String.eqb (tk_id x) (tk_id q) then q else x) (td_parts t)) t) in
  ret q.

Definition deleteTicketPart (id : string) (actor : TimeEntryActor) : TimeM unit :=
  do! p := getPartOr404 id actor in
  do! _ := require (negb (is_billed (tk_billingStatus p))) PART_BILLED in
  modify (fun t => set_time_parts (List.filter (fun x => negb (String.eqb (tk_id x) id)) (td_parts t)) t).

End TimeEntries.

(** ** What billing sees of the rows *)

Definition billing_entry (e : TimeEntry) : StoredEntry :=
  let t := en_terms e in
  mkStoredEntry (mkEntry (en_id e) (en_ticketId e) (en_description e) (en_durationMinutes e) (en_billableMinutes e) (tm_hourlyRate t)
                   (ap_isApproved (en_approval e)) (en_currencyCode e))
    (from_option_default (en_orgId e) "") (tm_isBillable t) (tm_billingStatus t) (en_endedAt e).

Definition billing_part (p : TicketPart) : StoredPart :=
  mkStoredPart (mkPart (tk_id p) (Some (tk_ticketId p)) (tk_catalogItemId p) (tk_description p) (tk_quantity p) (tk_unitPrice p) (tk_costBasis p)
                  (Some (tk_currencyCode p)))
    (tk_orgId p) (tk_isBillable p) (tk_billingStatus p) (tk_createdAt p).

(** ** The service as a sequence of calls *)

Inductive TimeOp :=
| t_create (seen : TimeRef) (input : CreateTimeEntryInput) (actor : TimeEntryActor) (provenance : TimeEntryProvenance)
| t_start (now : Z) (seen : TimeRef) (ticketId description : option string) (workTypeId : option (option string)) (actor : TimeEntryActor)
| t_stop (now : Z) (description : option string) (isBillable : option bool) (actor : TimeEntryActor)
| t_update (seen : TimeRef) (id : string) (input : UpdateTimeEntryInput) (actor : TimeEntryActor)
| t_delete (id : string) (actor : TimeEntryActor)
| t_approve (now : Z) (ids : list string) (approve : bool) (actor : TimeEntryActor)
| t_part_add (now : Z) (seen : TimeRef) (ticketId : string) (input : TicketPartInput) (actor : TimeEntryActor)
| t_part_update (id : string) (input : TicketPartPatch) (actor : TimeEntryActor)
| t_part_delete (id : string) (actor : TimeEntryActor).

Definition discard {T A} (x : St T A) : St T unit := bind x (fun _ => ret tt).

Definition time_call `{Uuids} (o : TimeOp) : TimeM unit :=
  match o with
  | t_create seen input actor provenance => discard (createTimeEntry seen input actor provenance)
  | t_start now seen ticketId description workTypeId actor => discard (startTimer now seen ticketId description workTypeId actor)
  | t_stop now description isBillable actor => discard (stopTimer now description isBillable actor)
  | t_update seen id input actor => discard (updateTimeEntry seen id input actor)
  | t_delete id actor => deleteTimeEntry id actor
  | t_approve now ids approve actor => discard (approveTimeEntries now ids approve actor)
  | t_part_add now seen ticketId input actor => discard (addTicketPart now seen ticketId input actor)
  | t_part_update id input actor => discard (updateTicketPart id input actor)
  | t_part_delete id actor => deleteTicketPart id actor
  end.
