(* ===== verification/TimeEntrySafety.v ===== *)
(** * What the time entry service keeps

    Every call of the service as a few changes of its tables ([Change]): a row
    inserted, edited, deleted, approved. From the changes: the invariant of the
    rows, what of a billed row can still change, that a currency snapshot stays,
    who may change a row, and that the billed minutes a call writes satisfy the
    check of the table. *)

From Stdlib Require Import QArith Qround.
From S2P Require Import Prelude JsString JsNumber Currency IsoDate InvoiceMath TimeBilling CatalogPricing ContractCoverage BillingDb InvoiceService QuoteDb InvoiceInvariants TimeEntries.
From stdpp Require Import base gmap strings list relations.

Local Open Scope string_scope.
Local Open Scope Z_scope.
Local Open Scope billing_scope.

(** ** Rows *)

(** Only billable work carries a rate or a minimum, contract work is included
    work, and work is billable unless its coverage says otherwise. *)
Definition terms_ok (t : EntryTerms) : Prop :=
  match tm_coverage t with
  | Some c => (c <> cov_billable -> tm_hourlyRate t = None /\ tm_minimumMinutes t = None) /\
              (tm_billingStatus t = bs_contract -> c = cov_included) /\ (tm_isBillable t = false <-> c = cov_non_billable)
  | None => True
  end.

Definition stamp_ok (s : BillingStamp) : Prop := terms_ok (stamp_terms s false).

(** A rate is in the row's currency, and representable in it. *)
Definition rate_ok (rate currency : option string) : Prop :=
  forall r, rate = Some r -> exists c, currency = Some c /\ representable r c.

Record row_ok (e : TimeEntry) : Prop := {
  ro_minutes : entry_chk e = true;
  ro_currency : currency_chk e = true;
  ro_terms : terms_ok (en_terms e);
  ro_rate : rate_ok (tm_hourlyRate (en_terms e)) (en_currencyCode e);
  ro_stored : pg_numeric10_opt (tm_hourlyRate (en_terms e)) = Ok (tm_hourlyRate (en_terms e));
  ro_running : en_endedAt e = None -> ap_isApproved (en_approval e) = false /\ tm_billingStatus (en_terms e) <> billed;
}.

Record part_ok (p : TicketPart) : Prop := {
  po_price : representable (tk_unitPrice p) (tk_currencyCode p);
  po_stored : pg_numeric10 (tk_quantity p) = Ok (tk_quantity p) /\ pg_numeric10 (tk_unitPrice p) = Ok (tk_unitPrice p) /\
    pg_numeric10_opt (tk_costBasis p) = Ok (tk_costBasis p);
  po_cost : forall x, tk_costBasis p = Some x -> representable x (tk_currencyCode p);
}.

(** ** Stamps *)

Lemma rule_stamp_ok c a f w : stamp_ok (rule_stamp (resolveBillingRule c a f w)).
Proof.
  unfold resolveBillingRule. destruct (chosen_card c a f) as [card|].
  - destruct (match List.find _ _ with Some r => _ | None => _ end) as [[cov rate] m].
    unfold stamp_ok, terms_ok. destruct cov; cbn; intuition congruence.
  - unfold stamp_ok, terms_ok. cbn. intuition congruence.
Qed.

Lemma rule_stamp_status c a f w : sm_billingStatus (rule_stamp (resolveBillingRule c a f w)) <> billed.
Proof.
  unfold resolveBillingRule. destruct (chosen_card c a f) as [card|]; [|discriminate].
  destruct (match List.find _ _ with Some r => _ | None => _ end) as [[cov rate] m]. destruct cov; discriminate.
Qed.

Lemma resolveEntryBilling_ok r org p c w :
  stamp_ok (resolveEntryBilling r org p c w) /\ sm_billingStatus (resolveEntryBilling r org p c w) <> billed.
Proof.
  unfold resolveEntryBilling. destruct (truthy org); [split; [apply rule_stamp_ok|apply rule_stamp_status]|].
  split; [|discriminate]. unfold stamp_ok, terms_ok. cbn. intuition congruence.
Qed.

(** The adjustments leave coherent terms whatever the stamp they start from. *)
Lemma strip_ok input s : stamp_ok (strip_included (strip_non_billable (becomes_billable input s))).
Proof.
  destruct s as [pid cov rate m inc b st]. unfold becomes_billable, strip_non_billable, strip_included, stamp_ok, terms_ok.
  cbn [sm_isBillable sm_coverage]. case_bool_decide; destruct b, cov, st; try congruence; try destruct (bin_billingStatus input) as [[]|]; cbn; intuition congruence.
Qed.

Lemma strip_status input base rate s :
  bin_billingStatus input <> Some billed -> sm_billingStatus s <> billed ->
  sm_billingStatus (strip_included (strip_non_billable (becomes_billable input (out_of_scope base input rate s)))) <> billed.
Proof.
  intros Hi Hs. assert (Hd : from_option_default (bin_billingStatus input) not_billed <> billed).
  { destruct (bin_billingStatus input) as [[]|]; cbn; congruence. }
  unfold out_of_scope. destruct (_ && _); [clear Hs; rename Hd into Hs; pose proof Hs as Hd|]; destruct s as [pid cov r' m inc b st];
    unfold becomes_billable, strip_non_billable, strip_included; cbn [sm_billingStatus sm_isBillable sm_coverage] in *;
    case_bool_decide; destruct b, cov; try congruence; cbn; try (destruct st; cbn; congruence); try (destruct (from_option_default _ _); cbn; congruence).
Qed.

(** They only ever drop the rate and the minimum. *)
Definition drops (s s' : BillingStamp) : Prop :=
  (forall r, sm_hourlyRate s' = Some r -> sm_hourlyRate s = Some r) /\ (forall m, sm_minimumMinutes s' = Some m -> sm_minimumMinutes s = Some m) /\
  sm_roundingIncrementMinutes s' = sm_roundingIncrementMinutes s.

Lemma drops_trans s1 s2 s3 : drops s1 s2 -> drops s2 s3 -> drops s1 s3.
Proof. intros (A & B & C) (A' & B' & C'). split; [auto|split; [auto|congruence]]. Qed.

Lemma strip_drops input base rate s : drops s (strip_included (strip_non_billable (becomes_billable input (out_of_scope base input rate s)))).
Proof.
  apply (drops_trans _ (out_of_scope base input rate s)).
  { unfold drops, out_of_scope. destruct (_ && _); cbn; auto. }
  apply (drops_trans _ (becomes_billable input (out_of_scope base input rate s))).
  { generalize (out_of_scope base input rate s). intros x. unfold drops, becomes_billable. destruct (_ && _); cbn; auto. }
  generalize (becomes_billable input (out_of_scope base input rate s)). intros x. apply (drops_trans _ (strip_non_billable x)).
  - unfold drops, strip_non_billable. destruct (sm_isBillable x); cbn; intuition congruence.
  - generalize (strip_non_billable x). intros y. unfold drops, strip_included. destruct (sm_billingStatus y), (sm_coverage y); cbn; intuition congruence.
Qed.

Lemma applyBillingInput_ok base input actor ov t s o t' :
  applyBillingInput base input actor ov t = Ok ((s, o), t') ->
  t' = t /\ stamp_ok s /\
  (bin_billingStatus input <> Some billed -> sm_billingStatus base <> billed -> sm_billingStatus s <> billed) /\
  (bin_hourlyRate input = None -> forall r, sm_hourlyRate s = Some r -> sm_hourlyRate base = Some r) /\
  (forall m, sm_minimumMinutes s = Some m -> bin_minimumMinutes input = Some (Some m) \/ sm_minimumMinutes base = Some m) /\
  sm_roundingIncrementMinutes s = sm_roundingIncrementMinutes base.
Proof.
  unfold applyBillingInput. intros E. run_m. drop_ro.
  match goal with |- context [becomes_billable _ (out_of_scope _ _ ?r ?x)] => destruct (strip_drops input base r x) as (Hr & Hm & Hi) end.
  split; [reflexivity|]. split; [apply strip_ok|]. split; [|split; [|split; [|exact Hi]]].
  - intros Hn Hb. apply strip_status; [exact Hn|]. cbn. destruct (bin_billingStatus input); cbn; congruence.
  - intros Hn r F. apply Hr in F. cbn in F. rewrite Hn in F. exact F.
  - intros m F. apply Hm in F. cbn in F. destruct (bin_minimumMinutes input); [left; cbn in F; congruence|right; exact F].
Qed.

Lemma resolveTicketLink_billing r tk actor w l :
  resolveTicketLink r tk actor w = Ok l -> stamp_ok (ln_billing l) /\ sm_billingStatus (ln_billing l) <> billed.
Proof.
  unfold resolveTicketLink, getTicketForTimeTracking. destruct (tr_tickets r !! tk) as [t|]; [|discriminate]. cbn [rbind].
  destruct (resolveTicketOrg r t) as [[p c]|]; [|discriminate].
  intros E. apply rbind_ok in E as (? & _ & E). apply rbind_ok in E as (? & _ & E). apply rbind_ok in E as (? & _ & E). injection E as <-.
  apply resolveEntryBilling_ok.
Qed.

#[export] Instance resolveAndLock_ro seen tk actor w : ReadOnly (resolveAndLockTicketLink seen tk actor w).
Proof. unfold resolveAndLockTicketLink, readOrgStampingDefaults, lockTicketRow. solve_ro. Qed.

Lemma locked_link_billing seen tk actor w t l t' :
  resolveAndLockTicketLink seen tk actor w t = Ok (l, t') -> stamp_ok (ln_billing l) /\ sm_billingStatus (ln_billing l) <> billed.
Proof.
  unfold resolveAndLockTicketLink. intros E. run_m.
  match goal with F : (if String.eqb _ _ then _ else _) _ = Ok (?p, _) |- _ => destruct p as [org' link']; assert (L : exists r, resolveTicketLink r tk actor w = Ok link') end.
  { destruct (String.eqb _ (ln_orgId _)); run_m; eauto. }
  destruct (String.eqb org' _); run_m; [destruct L as [r L]|]; eapply resolveTicketLink_billing; eassumption.
Qed.

(** ** The changes a call makes *)

Definition owns_or_manages (actor : TimeEntryActor) (e : TimeEntry) : Prop := en_userId e = ta_userId actor \/ ta_manageAll actor = true.

(** Who may edit, delete or approve a row: an actor whose partner, when the actor
    has one, is the row's, whose organizations, when they are limited, include the
    row's, who owns the entry or manages all, and manages all when it is approved. *)
Definition authorized (actor : TimeEntryActor) (e : TimeEntry) : Prop :=
  partner_axis actor e = true /\ owns_or_manages actor e /\ entryOrgAllowed (en_orgId e) (ta_accessibleOrgIds actor) = true /\
  (ap_isApproved (en_approval e) = true -> ta_manageAll actor = true).

(** A running row stopped: an end, the minutes, a description and billing terms. *)
Definition stop_of (e e' : TimeEntry) : Prop :=
  exists ended duration billable description terms,
    e' = mkTimeEntry (en_id e) (en_partnerId e) (en_orgId e) (en_ticketId e) (en_workTypeId e) (en_userId e) (en_startedAt e) (Some ended) (Some duration)
           (Some billable) description terms (en_currencyCode e) (en_source e) (en_approval e).

(** A row with another description or approval. *)
Definition redescribed (description : option string) (a : Approval) (e : TimeEntry) : TimeEntry :=
  mkTimeEntry (en_id e) (en_partnerId e) (en_orgId e) (en_ticketId e) (en_workTypeId e) (en_userId e) (en_startedAt e) (en_endedAt e)
    (en_durationMinutes e) (en_billableMinutes e) description (en_terms e) (en_currencyCode e) (en_source e) a.

Definition billed_entry (e : TimeEntry) : Prop := tm_billingStatus (en_terms e) = billed.

(** What an edit keeps of a row. *)
Record kept (e e' : TimeEntry) : Prop := {
  kp_id : en_id e' = en_id e; kp_partner : en_partnerId e' = en_partnerId e; kp_user : en_userId e' = en_userId e; kp_source : en_source e' = en_source e;
  kp_currency : forall c, en_currencyCode e = Some c -> en_currencyCode e' = Some c;
  kp_ended : en_endedAt e <> None -> en_endedAt e' <> None;
  kp_billed : billed_entry e -> row_ok e -> exists d a, e' = redescribed d a e;
  kp_routine : ~ billed_entry e -> ~ billed_entry e';
}.

(** A part with another description, part number, vendor or notes. *)
Definition relabelled (description : string) (partNumber vendor notes : option string) (p : TicketPart) : TicketPart :=
  mkTicketPart (tk_id p) (tk_ticketId p) (tk_orgId p) (tk_currencyCode p) description partNumber vendor (tk_catalogItemId p) (tk_quantity p) (tk_unitPrice p)
    (tk_costBasis p) (tk_isBillable p) (tk_billingStatus p) (tk_addedBy p) notes (tk_createdAt p).

Record part_kept (p q : TicketPart) : Prop := {
  pk_id : tk_id q = tk_id p; pk_ticket : tk_ticketId q = tk_ticketId p; pk_org : tk_orgId q = tk_orgId p; pk_currency : tk_currencyCode q = tk_currencyCode p;
  pk_billed : tk_billingStatus p = billed -> part_ok p -> exists d n v o, q = relabelled d n v o p;
  pk_routine : tk_billingStatus p <> billed -> tk_billingStatus q <> billed;
}.

Section Changes.
Context `{Uuids}.

Definition no_other_running (e : TimeEntry) (es : list TimeEntry) : Prop :=
  en_endedAt e = None -> existsb (running_entry (en_userId e)) es = false.

Definition bumped (es : list TimeEntry) (ps : list TicketPart) (t : TimeDb) : TimeDb := mkTimeDb (td_ref t) es ps (S (td_next t)).

Definition put_entry (e : TimeEntry) (es : list TimeEntry) : list TimeEntry := map (fun x => if String.eqb (en_id x) (en_id e) then e else x) es.
Definition put_part (p : TicketPart) (ps : list TicketPart) : list TicketPart := map (fun x => if String.eqb (tk_id x) (tk_id p) then p else x) ps.

Inductive Change (actor : TimeEntryActor) (t : TimeDb) : TimeDb -> Prop :=
| ch_insert e : en_id e = uuid (td_next t) -> row_ok e -> ~ billed_entry e -> no_other_running e (td_entries t) ->
    Change actor t (bumped (td_entries t ++ [e])%list (td_parts t) t)
| ch_edit e e' : In e (td_entries t) -> authorized actor e -> kept e e' -> (row_ok e -> row_ok e') ->
    Change actor t (set_time_entries (put_entry e' (td_entries t)) t)
| ch_stop e e' : In e (td_entries t) -> runs_for actor e = true -> stop_of e e' -> kept e e' -> (row_ok e -> row_ok e') ->
    Change actor t (set_time_entries (put_entry e' (td_entries t)) t)
| ch_remove e : In e (td_entries t) -> authorized actor e -> ~ billed_entry e ->
    Change actor t (set_time_entries (List.filter (fun x => negb (String.eqb (en_id x) (en_id e))) (td_entries t)) t)
| ch_approve hit a : ta_manageAll actor = true ->
    (forall e, In e (td_entries t) -> hit e = true -> partner_axis actor e = true /\
       exists x, In x (td_entries t) /\ en_id x = en_id e /\ en_endedAt x <> None /\ entryOrgAllowed (en_orgId x) (ta_accessibleOrgIds actor) = true) ->
    Change actor t (set_time_entries (map (fun e => if hit e then set_approval a e else e) (td_entries t)) t)
| ch_part_insert p : tk_id p = uuid (td_next t) -> part_ok p -> tk_billingStatus p <> billed ->
    Change actor t (bumped (td_entries t) (td_parts t ++ [p])%list t)
| ch_part_edit p q : In p (td_parts t) -> org_axis actor p = true -> part_kept p q -> (part_ok p -> part_ok q) ->
    Change actor t (set_time_parts (put_part q (td_parts t)) t)
| ch_part_remove p : In p (td_parts t) -> org_axis actor p = true -> tk_billingStatus p <> billed ->
    Change actor t (set_time_parts (List.filter (fun x => negb (String.eqb (tk_id x) (tk_id p))) (td_parts t)) t).

(** ** Accepting a row *)

Lemma pg_numeric10_ok s x : pg_numeric10 s = Ok x -> pg_numeric s = Ok x.
Proof. unfold pg_numeric10. destruct (pg_numeric s) as [y|]; [|discriminate]. cbn. destruct (parse_text y); [destruct (_ <? _)|]; congruence. Qed.

Lemma pg_numeric10_idem s x : pg_numeric10 s = Ok x -> pg_numeric10 x = Ok x.
Proof.
  intros E. pose proof (pg_numeric10_ok _ _ E) as En. destruct (pg_numeric_money _ _ En) as (c & -> & Hc).
  assert (E2 : pg_numeric (fixed2 c) = Ok (fixed2 c)).
  { rewrite pg_numeric_cents. unfold column_bound in Hc. destruct (Z.ltb_spec (Z.abs c) (10 ^ 12)); [reflexivity|lia]. }
  revert E. unfold pg_numeric10. rewrite En, E2. exact (fun E => E).
Qed.

Lemma pg_numeric10_opt_idem s x : pg_numeric10_opt s = Ok x -> pg_numeric10_opt x = Ok x.
Proof.
  destruct s as [v|]; cbn; [|intros [= <-]; reflexivity]. destruct (pg_numeric10 v) as [y|] eqn:E; [|discriminate].
  intros [= <-]. cbn. rewrite (pg_numeric10_idem _ _ E). reflexivity.
Qed.

Lemma pg_numeric10_rate rate x cur : pg_numeric10_opt rate = Ok x -> (forall r, rate = Some r -> representable r cur) ->
  forall r, x = Some r -> representable r cur.
Proof.
  destruct rate as [v|]; cbn; [|intros [= <-] _ r [=]]. destruct (pg_numeric10 v) as [y|] eqn:Ev; [|discriminate].
  intros [= <-] Hr r [= ->]. exact (pg_numeric_representable _ _ _ (Hr v eq_refl) (pg_numeric10_ok _ _ Ev)).
Qed.

Lemma accept_entry_ok e t e' t' :
  accept_entry e t = Ok (e', t') ->
  t' = t /\ exists rate, pg_numeric10_opt (tm_hourlyRate (en_terms e)) = Ok rate /\ e' = set_terms (set_rate rate (en_terms e)) e /\
    entry_chk e' = true /\ currency_chk e' = true.
Proof.
  unfold accept_entry, refuseBillableMinutesDrift. intros E. run_m. split; [reflexivity|]. eexists. split; [eassumption|]. split; [reflexivity|].
  split; [|assumption]. unfold entry_chk. match goal with G : entry_minutes_chk _ = Ok _ |- _ => rewrite G end. assumption.
Qed.

Lemma terms_ok_rate rate t x : terms_ok t -> pg_numeric10_opt (tm_hourlyRate t) = Ok rate -> x = set_rate rate t -> terms_ok x.
Proof.
  unfold terms_ok. intros T E ->. cbn. destruct (tm_coverage t); [|exact I]. destruct T as (A & B & C). repeat split; try tauto.
  destruct (A ltac:(assumption)) as [Er _]. rewrite Er in E. injection E as <-. reflexivity.
Qed.

(** A row accepted with coherent terms and a representable rate is in order. *)
Lemma accepted_row e t e' t' :
  accept_entry e t = Ok (e', t') -> terms_ok (en_terms e) ->
  (forall c, en_currencyCode e = Some c -> forall r, tm_hourlyRate (en_terms e) = Some r -> representable r c) ->
  (en_endedAt e = None -> ap_isApproved (en_approval e) = false /\ tm_billingStatus (en_terms e) <> billed) -> row_ok e'.
Proof.
  intros E T R W. apply accept_entry_ok in E as (_ & rate & Er & -> & C1 & C2). constructor; [exact C1|exact C2| | |exact (pg_numeric10_opt_idem _ _ Er)|exact W].
  - exact (terms_ok_rate _ _ _ T Er eq_refl).
  - intros r Hr. cbn in Hr |- *. unfold currency_chk in C2. cbn in C2. subst rate. destruct (en_currencyCode e) as [c|] eqn:Ec.
    + exists c. split; [reflexivity|]. exact (pg_numeric10_rate _ _ c Er (R c eq_refl) r eq_refl).
    + rewrite andb_false_r in C2. discriminate.
Qed.

Lemma assertRate_ok rate cur t u t' :
  assertRateRepresentable rate cur t = Ok (u, t') -> t' = t /\ forall c, cur = Some c -> forall r, rate = Some r -> representable r c.
Proof.
  unfold assertRateRepresentable. destruct rate as [r|], cur as [c|]; intros E; run_m; split; try reflexivity; try congruence.
Qed.

(** ** Each call is a few changes *)

Lemma insert_entry_ok e t x t' :
  insert_entry e t = Ok (x, t') -> accept_entry e t = Ok (x, t) /\ t' = set_time_entries (td_entries t ++ [x])%list t.
Proof. unfold insert_entry. intros E. run_m. match goal with G : accept_entry _ _ = _ |- _ => pose proof (accept_entry_ok _ _ _ _ G) as [-> _] end. auto. Qed.

Lemma update_entry_ok e t x t' :
  update_entry e t = Ok (x, t') -> accept_entry e t = Ok (x, t) /\ t' = set_time_entries (put_entry x (td_entries t)) t.
Proof. unfold update_entry. intros E. run_m. match goal with G : accept_entry _ _ = _ |- _ => pose proof (accept_entry_ok _ _ _ _ G) as [-> _] end. auto. Qed.

Lemma mint_row_ok t id t' : mint_row t = Ok (id, t') -> id = uuid (td_next t) /\ t' = bumped (td_entries t) (td_parts t) t.
Proof. intros [= <- <-]. auto. Qed.

#[export] Instance assertRate_ro rate cur : ReadOnly (assertRateRepresentable rate cur).
Proof. unfold assertRateRepresentable. solve_ro. Qed.
#[export] Instance assertStatus_ro st : ReadOnly (assertRoutineBillingStatus st).
Proof. unfold assertRoutineBillingStatus. solve_ro. Qed.
#[export] Instance applyBilling_ro base input actor ov : ReadOnly (applyBillingInput base input actor ov).
Proof. unfold applyBillingInput, assertManageBilling. solve_ro. Qed.
#[export] Instance workType_ro w p : ReadOnly (assertWorkTypeUsable w p).
Proof. unfold assertWorkTypeUsable. solve_ro. Qed.
#[export] Instance partnerCurrency_ro p : ReadOnly (getPartnerCurrency p).
Proof. unfold getPartnerCurrency. solve_ro. Qed.
#[export] Instance entry_link_ro seen tk w o actor : ReadOnly (entry_link seen tk w o actor).
Proof. unfold entry_link. apply bind_ro; [destruct (truthy tk); solve_ro|]. intros [[[[p org] cur] work] b]. solve_ro. Qed.
#[export] Instance getEntry_ro id actor : ReadOnly (getEntryOr404 id actor).
Proof. unfold getEntryOr404. solve_ro. Qed.
#[export] Instance canMutate_ro e actor : ReadOnly (assertCanMutate e actor).
Proof. unfold assertCanMutate. solve_ro. Qed.
#[export] Instance accept_part_ro p : ReadOnly (accept_part p).
Proof. unfold accept_part. solve_ro. Qed.
#[export] Instance getPart_ro id actor : ReadOnly (getPartOr404 id actor).
Proof. unfold getPartOr404. solve_ro. Qed.

Lemma routine_status st t u t' : assertRoutineBillingStatus st t = Ok (u, t') -> st <> Some billed.
Proof. unfold assertRoutineBillingStatus. intros E ->. discriminate E. Qed.

Lemma entry_link_billing seen tk w o actor t p org cur work b t' :
  entry_link seen tk w o actor t = Ok ((p, org, cur, work, b), t') ->
  forall r o' p' c' w', stamp_ok (or_resolved b r o' p' c' w') /\ sm_billingStatus (or_resolved b r o' p' c' w') <> billed.
Proof.
  unfold entry_link. intros E r o1 p1 c1 w1. apply bind_ok in E as ([[[[p' org'] cur'] work'] b'] & t1 & G & E).
  destruct (truthy p') as [q|]; [|discriminate E]. injection E as <- <- <- <- <- _.
  destruct b' as [s|]; [|apply resolveEntryBilling_ok]. cbn. destruct (truthy tk) as [x|]; [|discriminate G].
  apply bind_ok in G as (l & t2 & G & F). injection F as _ _ _ _ <- _. exact (locked_link_billing _ _ _ _ _ _ _ G).
Qed.

(** A new row. *)
Lemma inserted_change actor e t t1 x t' :
  t1 = bumped (td_entries t) (td_parts t) t -> insert_entry e t1 = Ok (x, t') -> en_id e = uuid (td_next t) ->
  terms_ok (en_terms e) -> (forall c, en_currencyCode e = Some c -> forall r, tm_hourlyRate (en_terms e) = Some r -> representable r c) ->
  en_approval e = unapproved -> ~ billed_entry e -> no_other_running e (td_entries t) -> Change actor t t'.
Proof.
  intros -> E Hid T R A B N. apply insert_entry_ok in E as [E ->]. pose proof (accept_entry_ok _ _ _ _ E) as (_ & rate & _ & Ex & _).
  subst x. apply (ch_insert actor t); [exact Hid| |exact B|exact N]. eapply accepted_row; [exact E|exact T|exact R|]. intros _. rewrite A. auto.
Qed.

Lemma createTimeEntry_change seen input actor pv t x t' :
  createTimeEntry seen input actor pv t = Ok (x, t') -> Change actor t t'.
Proof.
  unfold createTimeEntry. intros E. apply bind_ok in E as (u & t1 & G0 & E). pose proof (routine_status _ _ _ _ G0) as Hst.
  pose proof (read_only _ _ _ G0) as ->. apply bind_ok in E as ([[[[p org] cur] work] b] & t1 & G1 & E).
  pose proof (read_only _ _ _ G1) as ->. pose proof (entry_link_billing _ _ _ _ _ _ _ _ _ _ _ _ G1) as Hb.
  apply bind_ok in E as (u1 & t1 & G2 & E). apply require_ok in G2 as [_ ->].
  apply bind_ok in E as (cur' & t1 & G3 & E).
  assert (t1 = t) as -> by (revert G3; destruct (_ && _); intros G3; [run_m; drop_ro; reflexivity|apply (read_only _ _ _ G3)]).
  clear G3. apply bind_ok in E as (u2 & t1 & G4 & E). pose proof (read_only _ _ _ G4) as ->.
  apply bind_ok in E as (r & t1 & G5 & E). apply read_ok in G5 as [-> ->].
  apply bind_ok in E as ([stamp ov] & t1 & G6 & E). apply applyBillingInput_ok in G6 as (-> & Hs & Hr & _).
  apply bind_ok in E as (u3 & t1 & G7 & E). apply assertRate_ok in G7 as [-> Hrate].
  apply bind_ok in E as (id & t1 & G8 & E). apply mint_row_ok in G8 as [-> ->].
  eapply inserted_change; [reflexivity|exact E|reflexivity|exact Hs|exact Hrate|reflexivity| |intros [=]].
  apply Hr; [exact Hst|apply Hb].
Qed.

(** A row as the columns hold it after an edit. *)
Lemma accepted_kept e t n x t' :
  accept_entry n t = Ok (x, t') -> kept e n -> (billed_entry e -> row_ok e -> tm_hourlyRate (en_terms n) = tm_hourlyRate (en_terms e)) -> kept e x.
Proof.
  intros E [k1 k2 k3 k4 k5 k6 k7 k8] Hr. pose proof (accept_entry_ok _ _ _ _ E) as (_ & rate & Er & Ex & _). subst x. constructor; cbn; try assumption.
  intros B R. destruct (k7 B R) as (d & a & En). exists d, a. rewrite (Hr B R), (ro_stored _ R) in Er. injection Er as <-.
  subst n. unfold set_terms, set_rate, redescribed. cbn. destruct e as [? ? ? ? ? ? ? ? ? ? ? tm ? ? ?]. destruct tm. reflexivity.
Qed.

(** What an edit must show of the row it writes. *)
Definition edit_ok (e n : TimeEntry) : Prop :=
  row_ok e -> terms_ok (en_terms n) /\
    (forall c, en_currencyCode n = Some c -> forall r, tm_hourlyRate (en_terms n) = Some r -> representable r c) /\
    (en_endedAt n = None -> ap_isApproved (en_approval n) = false /\ ~ billed_entry n).

Lemma edited_change actor e t n x t' :
  update_entry n t = Ok (x, t') -> In e (td_entries t) -> authorized actor e -> kept e n ->
  (billed_entry e -> row_ok e -> tm_hourlyRate (en_terms n) = tm_hourlyRate (en_terms e)) -> edit_ok e n -> Change actor t t'.
Proof.
  intros E Hin A K Hr Hrow. apply update_entry_ok in E as [E ->].
  apply (ch_edit actor t e); [exact Hin|exact A|exact (accepted_kept _ _ _ _ _ E K Hr)|].
  intros R. destruct (Hrow R) as (T & P & W). eapply accepted_row; eassumption.
Qed.

Lemma runs_for_spec actor e : runs_for actor e = true <-> en_userId e = ta_userId actor /\ en_endedAt e = None /\ partner_axis actor e = true.
Proof.
  unfold runs_for. rewrite !andb_true_iff, String.eqb_eq, negb_true_iff. destruct (en_endedAt e); cbn; intuition congruence.
Qed.

Lemma stop_change now d b actor t r t' :
  stopRunningEntry now d b actor t = Ok (r, t') -> (r = None /\ t' = t) \/ (r <> None /\ Change actor t t').
Proof.
  unfold stopRunningEntry. intros E. apply bind_ok in E as (es & t1 & G & E). apply read_ok in G as [-> ->].
  destruct (List.find _ _) as [e|] eqn:Ef; [|left; injection E as <- <-; auto]. right.
  apply find_some in Ef as [Hin Hrun]. pose proof (proj1 (runs_for_spec _ _) Hrun) as (_ & Hend & Hp).
  apply bind_ok in E as (ov & t1 & G & E).
  assert (Hov : t1 = t /\ (forall x, ov = Some x -> terms_ok x /\ (~ billed_entry e -> tm_billingStatus x <> billed) /\
                  (forall r, tm_hourlyRate x = Some r -> tm_hourlyRate (en_terms e) = Some r))).
  { destruct b as [b|]; [|injection G as <- <-; split; [reflexivity|discriminate]].
    apply bind_ok in G as ([stamp o] & t2 & G & F). injection F as <- <-. apply applyBillingInput_ok in G as (-> & Hs & Hst & Hr & _).
    split; [reflexivity|]. intros x [= <-]. split; [exact Hs|]. split; [apply Hst; discriminate|]. apply (Hr eq_refl). }
  destruct Hov as [-> Hov]. apply bind_ok in E as (du & t1 & G1 & E). apply lift_throw_ok in G1 as [_ ->].
  apply bind_ok in E as (bm & t1 & G1 & E). apply lift_throw_ok in G1 as [_ ->].
  apply bind_ok in E as (x & t1 & G' & E). injection E as <- <-. split; [discriminate|].
  assert (Hb : row_ok e -> ~ billed_entry e) by (intros R; apply (ro_running _ R Hend)).
  apply update_entry_ok in G' as [G' ->]. apply (ch_stop actor t e); [exact Hin|exact Hrun| | |].
  - apply accept_entry_ok in G' as (_ & rate & _ & -> & _). do 5 eexists. reflexivity.
  - apply (accepted_kept _ _ _ _ _ G'); [|intros B R; elim (Hb R B)].
    constructor; try reflexivity; cbn; try discriminate; [auto|intros B R; elim (Hb R B)|].
    intros B. unfold billed_entry. cbn. destruct ov as [y|]; cbn; [apply (Hov y eq_refl), B|exact B].
  - intros R. match type of G' with accept_entry ?n _ = _ => enough (X : edit_ok e n) by (destruct (X R) as (T & P & W); eapply accepted_row; eassumption) end.
    intros _. split; [|split; [|discriminate]]; cbn.
    + destruct ov as [y|]; cbn; [apply (Hov y eq_refl)|apply R].
    + intros c Hc r Hr. assert (Hr' : tm_hourlyRate (en_terms e) = Some r) by (destruct ov as [y|]; cbn in Hr; [apply (Hov y eq_refl), Hr|exact Hr]).
      destruct (ro_rate _ R r Hr') as (c' & Ec & Rc). congruence.
Qed.

Definition Changes (actor : TimeEntryActor) : TimeDb -> TimeDb -> Prop := rtc (Change actor).

Lemma stop_changes now d b actor t r t' : stopRunningEntry now d b actor t = Ok (r, t') -> Changes actor t t'.
Proof. intros E. apply stop_change in E as [[_ ->]|[_ C]]; [reflexivity|apply rtc_once, C]. Qed.

Lemma start_attempt_changes now entry actor t r t' :
  start_attempt now entry actor t = Ok (r, t') ->
  (forall id, en_id (entry id) = id /\ en_userId (entry id) = ta_userId actor /\ en_approval (entry id) = unapproved /\ terms_ok (en_terms (entry id)) /\
     ~ billed_entry (entry id) /\ forall c, en_currencyCode (entry id) = Some c -> forall r, tm_hourlyRate (en_terms (entry id)) = Some r -> representable r c) ->
  Changes actor t t'.
Proof.
  unfold start_attempt. intros E He. apply bind_ok in E as (o & t1 & G & E). apply stop_changes in G.
  apply bind_ok in E as (es & t2 & G2 & E). apply read_ok in G2 as [-> ->].
  destruct (existsb _ _) eqn:Ex; [injection E as <- <-; exact G|].
  apply bind_ok in E as (id & t2 & G2 & E). apply mint_row_ok in G2 as [-> ->]. apply bind_ok in E as (x & t2 & G2 & E). injection E as <- <-.
  etransitivity; [exact G|]. apply rtc_once. destruct (He (uuid (td_next t1))) as (E1 & E2 & E3 & E4 & E5 & E6).
  eapply inserted_change; [reflexivity|exact G2|exact E1|exact E4|exact E6|exact E3|exact E5|]. intros _. rewrite E2. exact Ex.
Qed.

Lemma startTimer_changes now seen tk d w actor t x t' : startTimer now seen tk d w actor t = Ok (x, t') -> Changes actor t t'.
Proof.
  unfold startTimer. intros E. apply bind_ok in E as ([[[[p org] cur] work] b] & t1 & G1 & E).
  pose proof (entry_link_billing _ _ _ _ _ _ _ _ _ _ _ _ G1) as Hb. pose proof (read_only _ _ _ G1) as ->.
  apply bind_ok in E as (u & t1 & G2 & E). pose proof (read_only _ _ _ G2) as ->.
  apply bind_ok in E as (r & t1 & G3 & E). apply read_ok in G3 as [-> ->].
  apply bind_ok in E as (u' & t1 & G4 & E). apply assertRate_ok in G4 as [-> Hrate].
  apply bind_ok in E as (o & t1 & G5 & E).
  assert (Hrow : forall s, stamp_ok s /\ sm_billingStatus s <> billed -> (forall c, cur = Some c -> forall r, sm_hourlyRate s = Some r -> representable r c) ->
    forall t1 o t2, start_attempt now (fun id => mkTimeEntry id p org tk work (ta_userId actor) now None None None d (stamp_terms s false) cur so_timer unapproved) actor t1
      = Ok (o, t2) -> Changes actor t1 t2).
  { intros s [Hs Hn] Hr' t2 o' t3 F. eapply start_attempt_changes; [exact F|]. intros id. do 3 (split; [reflexivity|]). split; [exact Hs|split; [exact Hn|exact Hr']]. }
  pose proof (Hrow _ (Hb _ _ _ _ _) Hrate _ _ _ G5) as C1. destruct o as [e|]; [injection E as <- <-; exact C1|].
  apply bind_ok in E as (o & t2 & G6 & E). pose proof (Hrow _ (Hb _ _ _ _ _) Hrate _ _ _ G6) as C2.
  destruct o as [e|]; [|discriminate E]. injection E as <- <-. etransitivity; eassumption.
Qed.

Lemma stopTimer_changes now d b actor t x t' : stopTimer now d b actor t = Ok (x, t') -> Changes actor t t'.
Proof.
  unfold stopTimer. intros E. apply bind_ok in E as (o & t1 & G & E). apply stop_changes in G. destruct o; [|discriminate E].
  injection E as _ <-. exact G.
Qed.

Lemma getEntry_spec id actor t e t' :
  getEntryOr404 id actor t = Ok (e, t') ->
  t' = t /\ In e (td_entries t) /\ en_id e = id /\ partner_axis actor e = true /\ entryOrgAllowed (en_orgId e) (ta_accessibleOrgIds actor) = true.
Proof.
  unfold getEntryOr404. intros E. apply bind_ok in E as (es & t1 & G & E). apply read_ok in G as [-> ->].
  destruct (List.find _ _) as [x|] eqn:Ef; [|discriminate E]. apply find_some in Ef as [Hin Hx]. apply andb_true_iff in Hx as [Hid Hp].
  apply String.eqb_eq in Hid. run_m. auto.
Qed.

Lemma can_mutate_authorized e actor t u t' :
  assertCanMutate e actor t = Ok (u, t') -> partner_axis actor e = true -> entryOrgAllowed (en_orgId e) (ta_accessibleOrgIds actor) = true ->
  authorized actor e.
Proof.
  unfold assertCanMutate. intros E Hp Ho. run_m. split; [exact Hp|].
  repeat match goal with G : _ || _ = true |- _ => apply orb_true_iff in G end. rewrite String.eqb_eq in *. rewrite negb_true_iff in *.
  unfold owns_or_manages. intuition congruence.
Qed.

Lemma deleteTimeEntry_changes id actor t u t' : deleteTimeEntry id actor t = Ok (u, t') -> Changes actor t t'.
Proof.
  unfold deleteTimeEntry. intros E. apply bind_ok in E as (e & t1 & G & E). apply getEntry_spec in G as (-> & Hin & <- & Hp & Ho).
  apply bind_ok in E as (u1 & t1 & G & E). pose proof (read_only _ _ _ G) as ->. pose proof (can_mutate_authorized _ _ _ _ _ G Hp Ho) as A.
  apply bind_ok in E as (u2 & t1 & G2 & E). apply require_ok in G2 as [Hb ->]. injection E as _ <-. apply rtc_once.
  apply (ch_remove actor t e); [exact Hin|exact A|]. intros B. rewrite B in Hb. discriminate.
Qed.

(** *** Editing an entry *)

Lemma relinked_to_ok input link e t org cur t' :
  relinked_to input link e t = Ok ((org, cur), t') ->
  t' = t /\ (forall c, en_currencyCode e = Some c -> cur = Some c) /\ (ue_ticketId input = None -> org = en_orgId e /\ cur = en_currencyCode e).
Proof.
  unfold relinked_to. intros E. destruct (ue_ticketId input) as [[tk|]|]; [destruct link as [l|]|..]; [|injection E as <- <- <-; split; [reflexivity|split; [auto|auto || discriminate]]..].
  apply bind_ok in E as (u & t1 & G & E). apply require_ok in G as [_ ->].
  destruct (en_currencyCode e) as [c|] eqn:Ec; [apply bind_ok in E as (u1 & t1 & G & E); apply require_ok in G as [_ ->]|];
    injection E as <- <- <-; split; auto; split; congruence.
Qed.

Lemma edit_base_ok r input link e :
  (forall l, link = Some l -> sm_billingStatus (ln_billing l) <> billed) -> ~ billed_entry e -> sm_billingStatus (edit_base r input link e) <> billed.
Proof.
  intros Hl Hb. unfold edit_base. destruct (reprices input e); [|exact Hb].
  unfold new_link. destruct (relinks input e); [destruct link as [l|]; [apply Hl; reflexivity|]|]; apply resolveEntryBilling_ok.
Qed.

(** Without a locked field in the request a row is not repriced or stamped again. *)
Lemma unlocked_request input e :
  BILLED_LOCKED_ENTRY_FIELDS input = false ->
  ue_startedAt input = None /\ ue_endedAt input = None /\ ue_ticketId input = None /\ ue_workTypeId input = None /\
  billing_keys (ue_billing input) = false /\ reprices input e = false.
Proof.
  unfold BILLED_LOCKED_ENTRY_FIELDS. rewrite !orb_false_iff. intros (((((A & B) & C) & D) & E) & F).
  destruct (ue_startedAt input), (ue_endedAt input), (ue_ticketId input) eqn:Et, (ue_workTypeId input) eqn:Ew, (ue_resetBilling input) eqn:Er; try discriminate.
  do 5 (split; [auto|]). unfold reprices, resets, relinks. rewrite Er, Et, Ew. cbn. apply andb_false_r.
Qed.

(** The terms of an edited row. *)
Lemma edit_terms_ok r input link e actor t terms t' :
  (if reprices input e || billing_keys (ue_billing input)
   then do! (stamp, overridden) := applyBillingInput (edit_base r input link e) (ue_billing input) actor
                                     (if reprices input e then false else tm_billingOverridden (en_terms e)) in
        ret (edited_terms (reprices input e) (edit_base r input link e) stamp overridden (en_terms e))
   else ret (en_terms e)) t = Ok (terms, t') ->
  bin_billingStatus (ue_billing input) <> Some billed -> (forall l, link = Some l -> sm_billingStatus (ln_billing l) <> billed) ->
  t' = t /\ (terms_ok (en_terms e) -> terms_ok terms) /\ (~ billed_entry e -> tm_billingStatus terms <> billed) /\
  (reprices input e || billing_keys (ue_billing input) = false -> terms = en_terms e).
Proof.
  intros E Hn Hl. destruct (_ || _).
  - apply bind_ok in E as ([s o] & t1 & G & E). injection E as <- <-. apply applyBillingInput_ok in G as (-> & Hs & Hst & _).
    split; [reflexivity|]. split; [intros _; exact Hs|]. split; [|discriminate]. intros Hb. apply Hst; [exact Hn|]. apply edit_base_ok; assumption.
  - injection E as <- <-. auto.
Qed.

Lemma updateTimeEntry_ok seen id input actor t x t' :
  updateTimeEntry seen id input actor t = Ok (x, t') ->
  exists link e org cur terms, In e (td_entries t) /\ en_id e = id /\ authorized actor e /\
    is_billed (tm_billingStatus (en_terms e)) && BILLED_LOCKED_ENTRY_FIELDS input = false /\
    (forall c, en_currencyCode e = Some c -> cur = Some c) /\
    (ue_ticketId input = None -> billing_keys (ue_billing input) = false -> org = en_orgId e /\ cur = en_currencyCode e) /\
    (terms_ok (en_terms e) -> terms_ok terms) /\ (~ billed_entry e -> tm_billingStatus terms <> billed) /\
    (reprices input e || billing_keys (ue_billing input) = false -> terms = en_terms e) /\
    (reprices input e || billing_keys (ue_billing input) = true -> forall c, cur = Some c -> forall r, tm_hourlyRate terms = Some r -> representable r c) /\
    update_entry (edited_row input link e org cur terms) t = Ok (x, t').
Proof.
  unfold updateTimeEntry. intros E. apply bind_ok in E as (u & t1 & G0 & E). pose proof (routine_status _ _ _ _ G0) as Hst.
  pose proof (read_only _ _ _ G0) as ->. clear G0. apply bind_ok in E as (link & t1 & G1 & E).
  assert (Hlink : t1 = t /\ forall l, link = Some l -> sm_billingStatus (ln_billing l) <> billed).
  { destruct (ue_ticketId input) as [[tk|]|]; [|injection G1 as <- <-; split; [reflexivity|discriminate]..].
    apply bind_ok in G1 as (l & t2 & G1 & F). injection F as <- <-. pose proof (read_only _ _ _ G1) as ->. split; [reflexivity|].
    intros l' [= <-]. apply (locked_link_billing _ _ _ _ _ _ _ G1). }
  destruct Hlink as [-> Hlink]. clear G1. apply bind_ok in E as (e & t1 & G1 & E). apply getEntry_spec in G1 as (-> & Hin & <- & Hp & Ho).
  apply bind_ok in E as (u1 & t1 & G1 & E). pose proof (read_only _ _ _ G1) as ->. pose proof (can_mutate_authorized _ _ _ _ _ G1 Hp Ho) as A. clear G1.
  apply bind_ok in E as (u2 & t1 & G1 & E). pose proof (read_only _ _ _ G1) as ->. clear G1.
  apply bind_ok in E as (u3 & t1 & G1 & E). apply require_ok in G1 as [Hlock ->]. apply negb_true_iff in Hlock.
  apply bind_ok in E as (u4 & t1 & G1 & E). apply require_ok in G1 as [_ ->].
  apply bind_ok in E as ([org cur] & t1 & G1 & E). apply relinked_to_ok in G1 as (-> & Hcur & Hunlinked).
  apply bind_ok in E as (u5 & t1 & G1 & E). assert (t1 = t) as -> by (revert G1; unfold assertManageBilling; destruct (resets input); intros G1; apply (read_only _ _ _ G1)).
  apply bind_ok in E as (r & t1 & G2 & E). apply read_ok in G2 as [-> ->]. cbv zeta in E.
  apply bind_ok in E as (terms & t1 & G2 & E). apply edit_terms_ok in G2 as (-> & Hterms & Hstat & Hsame); [|exact Hst|exact Hlink].
  apply bind_ok in E as (cur' & t1 & G3 & E).
  assert (Hcur' : t1 = t /\ (forall c, en_currencyCode e = Some c -> cur' = Some c) /\ (billing_keys (ue_billing input) = false -> cur' = cur)).
  { destruct (_ && negb (present (en_currencyCode e))) eqn:Ec; [|injection G3 as <- <-; auto].
    apply andb_true_iff in Ec as [Ec En]. apply andb_true_iff in Ec as [Eg _]. run_m. drop_ro. split; [reflexivity|]. split.
    - intros c Hc. rewrite Hc in En. discriminate.
    - unfold given_rate, billing_keys in *. destruct (bin_hourlyRate (ue_billing input)); discriminate. }
  destruct Hcur' as (-> & Hcur' & Hkeep). clear G3. apply bind_ok in E as (u6 & t1 & G3 & E).
  exists link, e, org, cur', terms. do 5 (split; [eassumption || reflexivity|]). split; [intros Ht Hk; rewrite (Hkeep Hk); exact (Hunlinked Ht)|].
  do 3 (split; [assumption|]).
  destruct (reprices input e || billing_keys _); [apply assertRate_ok in G3 as [-> Hr]; auto|injection G3 as _ <-; split; [discriminate|exact E]].
Qed.

Lemma described_row input link e terms :
  BILLED_LOCKED_ENTRY_FIELDS input = false -> terms = en_terms e ->
  edited_row input link e (en_orgId e) (en_currencyCode e) terms = redescribed (from_option_default (ue_description input) (en_description e)) unapproved e.
Proof.
  intros Hf ->. destruct (unlocked_request input e Hf) as (E1 & E2 & E3 & E4 & _ & E6).
  unfold edited_row, redescribed, next_duration, next_billable, redated, next_end, next_start. rewrite E1, E2, E3, E4, E6. cbn.
  rewrite !bool_decide_true by reflexivity. cbn. destruct (en_endedAt e); reflexivity.
Qed.

Lemma updateTimeEntry_changes seen id input actor t x t' : updateTimeEntry seen id input actor t = Ok (x, t') -> Changes actor t t'.
Proof.
  intros E. apply updateTimeEntry_ok in E as (link & e & org & cur & terms & Hin & _ & A & Hlock & Hcur & Hun & Hterms & Hstat & Hsame & Hrate & E).
  assert (Hb : billed_entry e -> edited_row input link e org cur terms = redescribed (from_option_default (ue_description input) (en_description e)) unapproved e).
  { intros B. unfold billed_entry in B. rewrite B in Hlock. cbn in Hlock. destruct (unlocked_request input e Hlock) as (_ & _ & E3 & _ & E5 & E6).
    destruct (Hun E3 E5) as [-> ->]. apply described_row; [exact Hlock|]. apply Hsame. rewrite E5, E6. reflexivity. }
  apply rtc_once. eapply (edited_change actor e); [exact E|exact Hin|exact A| | |].
  - constructor; try reflexivity; [exact Hcur| | |exact Hstat].
    + cbn. unfold next_end. destruct (ue_endedAt input); [discriminate|auto].
    + intros B _. rewrite (Hb B). eauto.
  - intros B _. rewrite (Hb B). reflexivity.
  - intros R. split; [exact (Hterms (ro_terms _ R))|]. split.
    + destruct (reprices input e || billing_keys _); [exact (Hrate eq_refl)|]. cbn. rewrite (Hsame eq_refl).
      intros c Hc r Hr. destruct (ro_rate _ R r Hr) as (c' & Ec & Rc). rewrite (Hcur _ Ec) in Hc. congruence.
    + cbn. unfold next_end. destruct (ue_endedAt input); [discriminate|]. intros He. split; [reflexivity|]. apply Hstat, (ro_running _ R He).
Qed.

Lemma approve_changes now ids approve actor t r t' : approveTimeEntries now ids approve actor t = Ok (r, t') -> Changes actor t t'.
Proof.
  unfold approveTimeEntries. intros E. apply bind_ok in E as (u & t1 & G & E). apply require_ok in G as [Hm ->].
  apply bind_ok in E as (es & t1 & G & E). apply read_ok in G as [-> ->]. cbv zeta in E. apply bind_ok in E as (u1 & t1 & G & E).
  injection E as _ <-. injection G as _ <-. apply rtc_once. apply ch_approve; [exact Hm|]. intros e He Hh.
  apply andb_true_iff in Hh as [Hh Hp]. split; [exact Hp|]. apply str_mem_in, filter_In in Hh as [_ Hh].
  destruct (List.find _ _) as [x|] eqn:Ef; [|discriminate]. apply find_some in Ef as [Hx Hc]. unfold candidate in Hc.
  rewrite !andb_true_iff, String.eqb_eq in Hc. exists x. destruct (en_endedAt x); [|discriminate]. intuition congruence.
Qed.

(** *** Parts *)

Lemma accept_part_ok p t q t' :
  accept_part p t = Ok (q, t') ->
  exists quantity unitPrice costBasis, pg_numeric10 (tk_quantity p) = Ok quantity /\ pg_numeric10 (tk_unitPrice p) = Ok unitPrice /\
    pg_numeric10_opt (tk_costBasis p) = Ok costBasis /\
    q = mkTicketPart (tk_id p) (tk_ticketId p) (tk_orgId p) (tk_currencyCode p) (tk_description p) (tk_partNumber p) (tk_vendor p) (tk_catalogItemId p)
          quantity unitPrice costBasis (tk_isBillable p) (tk_billingStatus p) (tk_addedBy p) (tk_notes p) (tk_createdAt p).
Proof. unfold accept_part. intros E. run_m. eauto 10. Qed.

Lemma accepted_part p t q t' :
  accept_part p t = Ok (q, t') -> representable (tk_unitPrice p) (tk_currencyCode p) ->
  (forall x, tk_costBasis p = Some x -> representable x (tk_currencyCode p)) -> part_ok q.
Proof.
  intros E Hu Hc. apply accept_part_ok in E as (a & b & c & Ea & Eb & Ec & ->). constructor; cbn.
  - exact (pg_numeric_representable _ _ _ Hu (pg_numeric10_ok _ _ Eb)).
  - split; [exact (pg_numeric10_idem _ _ Ea)|]. split; [exact (pg_numeric10_idem _ _ Eb)|exact (pg_numeric10_opt_idem _ _ Ec)].
  - exact (pg_numeric10_rate _ _ _ Ec Hc).
Qed.

Lemma addTicketPart_changes now seen tk input actor t x t' : addTicketPart now seen tk input actor t = Ok (x, t') -> Changes actor t t'.
Proof.
  unfold addTicketPart. intros E. apply bind_ok in E as (u & t1 & G0 & E). pose proof (routine_status _ _ _ _ G0) as Hst.
  pose proof (read_only _ _ _ G0) as ->. apply bind_ok in E as (l & t1 & G1 & E). pose proof (read_only _ _ _ G1) as ->. cbv zeta in E.
  apply bind_ok in E as (u1 & t1 & G2 & E). apply assertRate_ok in G2 as [-> Hu].
  apply bind_ok in E as (u2 & t1 & G3 & E). apply assertRate_ok in G3 as [-> Hc].
  apply bind_ok in E as (id & t1 & G4 & E). apply mint_row_ok in G4 as [-> ->].
  apply bind_ok in E as (p & t1 & G5 & E). pose proof (read_only _ _ _ G5) as ->.
  pose proof (accepted_part _ _ _ _ G5 (Hu _ eq_refl _ eq_refl) (Hc _ eq_refl)) as Hok.
  apply accept_part_ok in G5 as (a & b & c & _ & _ & _ & ->). run_m. apply rtc_once.
  apply (ch_part_insert actor t); [reflexivity|exact Hok|]. cbn. destruct (pa_billingStatus input) as [[]|]; cbn; congruence.
Qed.

Lemma getPart_spec id actor t p t' :
  getPartOr404 id actor t = Ok (p, t') -> t' = t /\ In p (td_parts t) /\ tk_id p = id /\ org_axis actor p = true.
Proof.
  unfold getPartOr404. intros E. apply bind_ok in E as (ps & t1 & G & E). apply read_ok in G as [-> ->].
  destruct (List.find _ _) as [x|] eqn:Ef; [|discriminate E]. apply find_some in Ef as [Hin Hx]. apply andb_true_iff in Hx as [Hid Hp].
  apply String.eqb_eq in Hid. injection E as <- <-. auto.
Qed.

Lemma deleteTicketPart_changes id actor t u t' : deleteTicketPart id actor t = Ok (u, t') -> Changes actor t t'.
Proof.
  unfold deleteTicketPart. intros E. apply bind_ok in E as (p & t1 & G & E). apply getPart_spec in G as (-> & Hin & <- & Hp).
  apply bind_ok in E as (u2 & t1 & G2 & E). apply require_ok in G2 as [Hb ->]. injection E as _ <-. apply rtc_once.
  apply (ch_part_remove actor t p); [exact Hin|exact Hp|]. intros B. rewrite B in Hb. discriminate.
Qed.

(** The fields a billed part may still change. *)
Lemma relabelled_part input p :
  BILLED_LOCKED_PART_FIELDS input = false ->
  pp_quantity input = None /\ pp_unitPrice input = None /\ pp_costBasis input = None /\ pp_isBillable input = None /\ pp_billingStatus input = None /\
  from_option_default (pp_catalogItemId input) (tk_catalogItemId p) = tk_catalogItemId p.
Proof.
  unfold BILLED_LOCKED_PART_FIELDS. rewrite !orb_false_iff. intros (((((A & B) & C) & D) & E) & F).
  destruct (pp_quantity input), (pp_unitPrice input), (pp_costBasis input), (pp_isBillable input), (pp_billingStatus input), (pp_catalogItemId input); try discriminate.
  auto 10.
Qed.

Lemma updateTicketPart_changes id input actor t x t' : updateTicketPart id input actor t = Ok (x, t') -> Changes actor t t'.
Proof.
  unfold updateTicketPart. intros E. apply bind_ok in E as (u & t1 & G0 & E). pose proof (routine_status _ _ _ _ G0) as Hst.
  pose proof (read_only _ _ _ G0) as ->. apply bind_ok in E as (p & t1 & G & E). apply getPart_spec in G as (-> & Hin & <- & Hp).
  apply bind_ok in E as (u1 & t1 & G & E). apply require_ok in G as [Hlock ->]. apply negb_true_iff in Hlock. cbv zeta in E.
  apply bind_ok in E as (u2 & t1 & G & E). apply assertRate_ok in G as [-> Hu].
  apply bind_ok in E as (u3 & t1 & G & E). apply assertRate_ok in G as [-> Hc].
  apply bind_ok in E as (u4 & t1 & G & E). apply lift_ok in G as [_ ->].
  apply bind_ok in E as (q & t1 & G & E). pose proof (read_only _ _ _ G) as ->. run_m. apply rtc_once.
  apply (ch_part_edit actor t p q); [exact Hin|exact Hp| |].
  - apply accept_part_ok in G as (a & b & c & Ea & Eb & Ec & ->). constructor; try reflexivity.
    + intros B R. rewrite B in Hlock. destruct (relabelled_part input p Hlock) as (E1 & E2 & E3 & E4 & E5 & E6).
      cbn in Ea, Eb, Ec. rewrite E1 in Ea. rewrite E2 in Eb. rewrite E3 in Ec. cbn in Ea, Eb, Ec. destruct (po_stored _ R) as (S1 & S2 & S3).
      rewrite S1 in Ea. rewrite S2 in Eb. rewrite S3 in Ec. injection Ea as <-. injection Eb as <-. injection Ec as <-.
      cbn. rewrite E4, E5, E6. repeat eexists.
    + intros B. cbn. destruct (pp_billingStatus input) as [[]|]; cbn; congruence.
  - intros R. eapply accepted_part; [exact G| |].
    + cbn. destruct (pp_unitPrice input); cbn in *; [apply (Hu _ eq_refl _ eq_refl)|apply R].
    + cbn. destruct (pp_costBasis input) as [x'|]; cbn in *; [apply (Hc _ eq_refl)|apply R].
Qed.

Definition actor_of (o : TimeOp) : TimeEntryActor :=
  match o with
  | t_create _ _ a _ | t_start _ _ _ _ _ a | t_stop _ _ _ a | t_update _ _ _ a | t_delete _ a | t_approve _ _ _ a
  | t_part_add _ _ _ _ a | t_part_update _ _ a | t_part_delete _ a => a
  end.

Lemma time_call_changes o t t' : time_call o t = Ok (tt, t') -> Changes (actor_of o) t t'.
Proof.
  unfold time_call, discard. intros E. destruct o; cbn [actor_of];
    try (apply bind_ok in E as (x & t1 & G & E); injection E as <-).
  - apply rtc_once. exact (createTimeEntry_change _ _ _ _ _ _ _ G).
  - exact (startTimer_changes _ _ _ _ _ _ _ _ _ G).
  - exact (stopTimer_changes _ _ _ _ _ _ _ G).
  - exact (updateTimeEntry_changes _ _ _ _ _ _ _ G).
  - exact (deleteTimeEntry_changes _ _ _ _ _ E).
  - exact (approve_changes _ _ _ _ _ _ _ G).
  - exact (addTicketPart_changes _ _ _ _ _ _ _ _ G).
  - exact (updateTicketPart_changes _ _ _ _ _ _ G).
  - exact (deleteTicketPart_changes _ _ _ _ _ E).
Qed.

(** ** The invariant of the tables *)

Record Time (t : TimeDb) : Prop := {
  tv_ids : List.NoDup (map en_id (td_entries t)); tv_part_ids : List.NoDup (map tk_id (td_parts t));
  tv_below : ids_below (td_next t) (map en_id (td_entries t)); tv_part_below : ids_below (td_next t) (map tk_id (td_parts t));
  tv_rows : forall e, In e (td_entries t) -> row_ok e;
  tv_parts : forall p, In p (td_parts t) -> part_ok p;
  tv_running : forall e x, In e (td_entries t) -> In x (td_entries t) -> en_endedAt e = None -> en_endedAt x = None -> en_userId e = en_userId x -> e = x;
}.

Lemma put_keys {A} (f : A -> string) (n : A) l : map f (map (fun x => if String.eqb (f x) (f n) then n else x) l) = map f l.
Proof. rewrite map_map. apply map_ext. intros x. destruct (String.eqb_spec (f x) (f n)); congruence. Qed.

Lemma in_put {A} (f : A -> string) (n : A) l x :
  In x (map (fun x => if String.eqb (f x) (f n) then n else x) l) -> x = n \/ (In x l /\ f x <> f n).
Proof. intros Hx. apply in_map_iff in Hx as (y & E & Hy). destruct (String.eqb_spec (f y) (f n)); subst; auto. Qed.

Lemma below_fresh n ids : ids_below n ids -> ~ In (uuid n) ids.
Proof. intros B Hin. destruct (B _ Hin) as (k & Hk & E). apply uuid_inj in E. lia. Qed.

Lemma below_snoc n ids : ids_below n ids -> ids_below (S n) (ids ++ [uuid n])%list.
Proof. intros B x Hx. apply in_app_or in Hx as [Hx|[<-|[]]]; [destruct (B x Hx) as (k & Hk & E); exists k; split; [lia|exact E]|exists n; split; [lia|reflexivity]]. Qed.

Lemma below_incl n ids ids' : ids_below n ids -> (forall x, In x ids' -> In x ids) -> ids_below n ids'.
Proof. intros B I x Hx. apply B, I, Hx. Qed.

Lemma filter_keys {A} (f : A -> string) (p : A -> bool) l x : In x (map f (List.filter p l)) -> In x (map f l).
Proof. intros Hx. apply in_map_iff in Hx as (y & <- & Hy). apply filter_In in Hy as [Hy _]. apply in_map, Hy. Qed.

Lemma not_running u es x : existsb (running_entry u) es = false -> In x es -> en_endedAt x = None -> en_userId x <> u.
Proof.
  intros E Hx He Hu. assert (F : existsb (running_entry u) es = true); [|congruence]. apply existsb_exists. exists x. split; [exact Hx|].
  unfold running_entry. rewrite He, Hu, String.eqb_refl. reflexivity.
Qed.

Lemma insert_Time e t : Time t -> en_id e = uuid (td_next t) -> row_ok e -> no_other_running e (td_entries t) ->
  Time (bumped (td_entries t ++ [e])%list (td_parts t) t).
Proof.
  intros [I P B C R Q U] Hid Hr Hn. constructor; cbn; try assumption.
  - rewrite map_app. apply NoDup_end; [exact I|]. rewrite Hid. apply below_fresh, B.
  - rewrite map_app. cbn. rewrite Hid. apply below_snoc, B.
  - apply (ids_below_mono (td_next t)); [lia|exact C].
  - intros x Hx. apply in_app_or in Hx as [Hx|[<-|[]]]; auto.
  - intros x y Hx Hy Ex Ey Eu. apply in_app_or in Hx as [Hx|[<-|[]]], Hy as [Hy|[<-|[]]]; auto.
    + elim (not_running _ _ _ (Hn Ey) Hx Ex). exact Eu.
    + elim (not_running _ _ _ (Hn Ex) Hy Ey). auto.
Qed.

Lemma edit_Time e e' t : Time t -> In e (td_entries t) -> kept e e' -> row_ok e' -> Time (set_time_entries (put_entry e' (td_entries t)) t).
Proof.
  intros [I P B C R Q U] Hin K Hr. constructor; cbn; try assumption; unfold put_entry.
  - rewrite put_keys. exact I.
  - rewrite put_keys. exact B.
  - intros x Hx. apply in_put in Hx as [->|[Hx _]]; auto.
  - assert (He : en_endedAt e' = None -> en_endedAt e = None).
    { intros E. destruct (en_endedAt e) eqn:F; [|reflexivity]. elim (kp_ended _ _ K); congruence. }
    intros x y Hx Hy Ex Ey Eu. apply in_put in Hx as [->|[Hx Nx]], Hy as [->|[Hy Ny]]; auto.
    + elim Ny. rewrite (kp_id _ _ K). f_equal. symmetry. apply U; auto. rewrite <- (kp_user _ _ K). exact Eu.
    + elim Nx. rewrite (kp_id _ _ K). f_equal. apply U; auto. rewrite <- (kp_user _ _ K). exact Eu.
Qed.

Lemma filter_Time p t : Time t -> Time (set_time_entries (List.filter p (td_entries t)) t).
Proof.
  intros [I P B C R Q U]. constructor; cbn; try assumption.
  - apply NoDup_filter_map, I.
  - apply (below_incl _ _ _ B). intros x. apply filter_keys.
  - intros x Hx. apply R. apply filter_In in Hx as [Hx _]. exact Hx.
  - intros x y Hx Hy. apply filter_In in Hx as [Hx _], Hy as [Hy _]. auto.
Qed.

(** Rows rewritten in place, without reopening one. *)
Lemma map_Time f t : Time t -> (forall e, In e (td_entries t) -> en_id (f e) = en_id e /\ en_userId (f e) = en_userId e /\
    (en_endedAt (f e) = None -> en_endedAt e = None) /\ (row_ok e -> row_ok (f e))) ->
  Time (set_time_entries (map f (td_entries t)) t).
Proof.
  intros [I P B C R Q U] Hf. assert (Hid : map en_id (map f (td_entries t)) = map en_id (td_entries t)).
  { rewrite map_map. apply map_ext_in. intros e He. apply Hf, He. }
  constructor; cbn; try assumption; [rewrite Hid; exact I|rewrite Hid; exact B| |].
  - intros x Hx. apply in_map_iff in Hx as (e & <- & He). apply Hf; auto.
  - intros x y Hx Hy Ex Ey Eu. apply in_map_iff in Hx as (a & <- & Ha), Hy as (b & <- & Hb).
    destruct (Hf _ Ha) as (_ & Ua & Ea & _), (Hf _ Hb) as (_ & Ub & Eb & _). f_equal. apply U; auto. congruence.
Qed.

Lemma set_parts_Time ps n t : Time t -> List.NoDup (map tk_id ps) -> ids_below n (map tk_id ps) -> (td_next t <= n)%nat ->
  (forall p, In p ps -> part_ok p) -> Time (mkTimeDb (td_ref t) (td_entries t) ps n).
Proof.
  intros [I P B C R Q U] Hn Hb Hle Hp. constructor; cbn; try assumption. apply (ids_below_mono (td_next t)); assumption.
Qed.

Lemma approval_row_ok a e : en_endedAt e <> None -> row_ok e -> row_ok (set_approval a e).
Proof. intros He [A B C D E F]. constructor; try assumption. cbn. congruence. Qed.

Lemma Change_Time actor t t' : Change actor t t' -> Time t -> Time t'.
Proof.
  intros C T. destruct C as [e Hid Hr _ Hn|e e' Hin _ K Hr|e e' Hin _ _ K Hr|e Hin _ _|hit a _ Hh|p Hid Hp _|p q Hin _ K Hp|p Hin _ _].
  - apply insert_Time; assumption.
  - apply (edit_Time e); auto. apply Hr, (tv_rows _ T), Hin.
  - apply (edit_Time e); auto. apply Hr, (tv_rows _ T), Hin.
  - apply filter_Time, T.
  - apply map_Time; [exact T|]. intros e He. destruct (hit e) eqn:Eh; [|auto]. split; [reflexivity|]. split; [reflexivity|]. split; [auto|].
    apply approval_row_ok. destruct (Hh e He Eh) as (_ & x & Hx & Ex & Ho & _). rewrite <- (unique_in en_id _ x e (tv_ids _ T) Hx He Ex). exact Ho.
  - apply set_parts_Time; [exact T| | |lia|].
    + rewrite map_app. apply NoDup_end; [apply T|]. cbn. rewrite Hid. apply below_fresh, T.
    + rewrite map_app. cbn. rewrite Hid. apply below_snoc, T.
    + intros x Hx. apply in_app_or in Hx as [Hx|[<-|[]]]; [apply T, Hx|exact Hp].
  - unfold put_part. apply set_parts_Time; [exact T|rewrite put_keys; apply T|rewrite put_keys; apply T|lia|].
    intros x Hx. apply in_put in Hx as [->|[Hx _]]; [apply Hp|]; apply T; assumption.
  - apply set_parts_Time; [exact T|apply NoDup_filter_map, T| |lia|].
    + apply (below_incl _ _ _ (tv_part_below _ T)). intros x. apply filter_keys.
    + intros x Hx. apply filter_In in Hx as [Hx _]. apply T, Hx.
Qed.

Lemma Changes_Time actor t t' : Changes actor t t' -> Time t -> Time t'.
Proof. induction 1 as [|x y z Hc _ IH]; [auto|]. intros T. apply IH, (Change_Time _ _ _ Hc T). Qed.

(** ** How rows evolve *)

Lemma kept_refl e : kept e e.
Proof. constructor; auto. intros _ _. exists (en_description e), (en_approval e). destruct e; reflexivity. Qed.

Lemma kept_trans a b c : kept a b -> kept b c -> row_ok b -> kept a c.
Proof.
  intros [A1 A2 A3 A4 A5 A6 A7 A8] [B1 B2 B3 B4 B5 B6 B7 B8] R. constructor; try congruence; auto.
  intros Hb Ra. destruct (A7 Hb Ra) as (d & x & ->). destruct (B7 Hb R) as (d' & x' & ->). exists d', x'. reflexivity.
Qed.

Lemma kept_approval a e : kept e (set_approval a e).
Proof. constructor; auto. intros _ _. exists (en_description e), a. reflexivity. Qed.

Lemma part_kept_refl p : part_kept p p.
Proof. constructor; auto. intros _ _. exists (tk_description p), (tk_partNumber p), (tk_vendor p), (tk_notes p). destruct p; reflexivity. Qed.

Lemma part_kept_trans a b c : part_kept a b -> part_kept b c -> part_ok b -> part_kept a c.
Proof.
  intros [A1 A2 A3 A4 A5 A6] [B1 B2 B3 B4 B5 B6] R. constructor; try congruence; auto.
  intros Hb Ra. destruct (A5 Hb Ra) as (d & n & v & o & ->). destruct (B5 Hb R) as (d' & n' & v' & o' & ->). exists d', n', v', o'. reflexivity.
Qed.

(** Every row is kept or, when it was not billed, removed; every other row is new
    and not billed. *)
Definition evolves {A} (key : A -> string) (is_billed : A -> Prop) (keeps : A -> A -> Prop) (n n' : nat) (l l' : list A) : Prop :=
  (forall x, In x l -> (exists y, In y l' /\ key y = key x /\ keeps x y) \/ (~ is_billed x /\ ~ In (key x) (map key l'))) /\
  (forall y, In y l' -> (exists x, In x l /\ key x = key y /\ keeps x y) \/ (~ is_billed y /\ exists k, (n <= k < n')%nat /\ key y = uuid k)).

Section Evolves.
Context {A : Type} (key : A -> string) (is_billed : A -> Prop) (keeps : A -> A -> Prop).

Lemma evolves_refl n n' l : (forall x, keeps x x) -> evolves key is_billed keeps n n' l l.
Proof. intros K. split; intros x Hx; left; eauto. Qed.

Lemma evolves_snoc n l x : (forall x, keeps x x) -> key x = uuid n -> ~ is_billed x -> evolves key is_billed keeps n (S n) l (l ++ [x])%list.
Proof.
  intros K E B. split.
  - intros y Hy. left. exists y. split; [apply in_or_app; auto|auto].
  - intros y Hy. apply in_app_or in Hy as [Hy|[<-|[]]]; [left; eauto|right]. split; [exact B|]. exists n. split; [lia|exact E].
Qed.

Lemma evolves_map n l (f : A -> A) : (forall x, In x l -> key (f x) = key x /\ keeps x (f x)) -> evolves key is_billed keeps n n l (map f l).
Proof.
  intros Hf. split.
  - intros x Hx. left. exists (f x). split; [apply in_map, Hx|apply Hf, Hx].
  - intros y Hy. apply in_map_iff in Hy as (x & <- & Hx). left. exists x. destruct (Hf x Hx). auto.
Qed.

Lemma evolves_drop n l x : (forall x, keeps x x) -> List.NoDup (map key l) -> In x l -> ~ is_billed x ->
  evolves key is_billed keeps n n l (List.filter (fun y => negb (String.eqb (key y) (key x))) l).
Proof.
  intros K N Hx B. split.
  - intros y Hy. destruct (String.eqb_spec (key y) (key x)) as [E|E].
    + right. rewrite (unique_in key _ _ _ N Hy Hx E). split; [exact B|]. intros Hin. apply in_map_iff in Hin as (z & Ez & Hz).
      apply filter_In in Hz as [_ Hz]. rewrite Ez, String.eqb_refl in Hz. discriminate.
    + left. exists y. split; [apply filter_In; split; [exact Hy|]; apply String.eqb_neq in E; rewrite E; reflexivity|auto].
  - intros y Hy. apply filter_In in Hy as [Hy _]. left. eauto.
Qed.

Lemma evolves_trans n1 n2 n3 l1 l2 l3 :
  (forall x y z, In y l2 -> keeps x y -> keeps y z -> keeps x z) -> (forall x y, In x l1 -> keeps x y -> is_billed x -> is_billed y) ->
  (forall x y, keeps x y -> ~ is_billed x -> ~ is_billed y) -> (n1 <= n2 <= n3)%nat -> ids_below n1 (map key l1) ->
  evolves key is_billed keeps n1 n2 l1 l2 -> evolves key is_billed keeps n2 n3 l2 l3 -> evolves key is_billed keeps n1 n3 l1 l3.
Proof.
  intros K Kb Kr Hn Hb [F1 G1] [F2 G2]. split.
  - intros x Hx. destruct (F1 x Hx) as [(y & Hy & Ey & Ky)|[B N]].
    + destruct (F2 y Hy) as [(z & Hz & Ez & Kz)|[B N]]; [left; exists z; split; [exact Hz|split; [congruence|eauto]]|].
      right. rewrite <- Ey. split; [|exact N]. intros Bx. apply B. eauto.
    + right. split; [exact B|]. intros Hin. apply in_map_iff in Hin as (z & Ez & Hz). destruct (G2 z Hz) as [(y & Hy & Ey & _)|[_ (k & Hk & Ek)]].
      * apply N. rewrite <- Ez, <- Ey. apply in_map, Hy.
      * destruct (Hb (key x)) as (k' & Hk' & Ek'); [apply in_map, Hx|]. rewrite <- Ez, Ek in Ek'. apply uuid_inj in Ek'. lia.
  - intros z Hz. destruct (G2 z Hz) as [(y & Hy & Ey & Ky)|[B (k & Hk & Ek)]]; [|right; split; [exact B|exists k; split; [lia|exact Ek]]].
    destruct (G1 y Hy) as [(x & Hx & Ex & Kx)|[B (k & Hk & Ek)]]; [left; exists x; split; [exact Hx|split; [congruence|eauto]]|].
    right. split; [eapply Kr; eassumption|]. exists k. split; [lia|congruence].
Qed.
End Evolves.

Record Evolves (t t' : TimeDb) : Prop := {
  evo_ref : td_ref t' = td_ref t; evo_next : (td_next t <= td_next t')%nat;
  evo_entries : evolves en_id billed_entry kept (td_next t) (td_next t') (td_entries t) (td_entries t');
  evo_parts : evolves tk_id (fun p => tk_billingStatus p = billed) part_kept (td_next t) (td_next t') (td_parts t) (td_parts t');
}.

Lemma put_evolves {A} (key : A -> string) B (keeps : A -> A -> Prop) n l x y :
  (forall x, keeps x x) -> List.NoDup (map key l) -> In x l -> key y = key x -> keeps x y ->
  evolves key B keeps n n l (map (fun z => if String.eqb (key z) (key y) then y else z) l).
Proof.
  intros K N Hx Ey Ky. apply evolves_map. intros z Hz. destruct (String.eqb_spec (key z) (key y)) as [E|E]; [|auto].
  rewrite Ey in E. rewrite (unique_in key _ _ _ N Hz Hx E). auto.
Qed.

Lemma Change_Evolves actor t t' : Time t -> Change actor t t' -> Evolves t t'.
Proof.
  intros T C. pose proof (fun n n' => evolves_refl en_id billed_entry kept n n' (td_entries t) kept_refl) as RE.
  pose proof (fun n n' => evolves_refl tk_id (fun p => tk_billingStatus p = billed) part_kept n n' (td_parts t) part_kept_refl) as RP.
  destruct C as [e Hid Hr Hb Hn|e e' Hin _ K Hr|e e' Hin _ _ K Hr|e Hin _ Hb|hit a _ Hh|p Hid Hp Hb|p q Hin _ K Hp|p Hin _ Hb]; constructor; cbn; auto.
  - apply evolves_snoc; [apply kept_refl|assumption..].
  - apply (put_evolves en_id billed_entry kept _ _ e e'); [apply kept_refl|apply T|exact Hin|apply K|exact K].
  - apply (put_evolves en_id billed_entry kept _ _ e e'); [apply kept_refl|apply T|exact Hin|apply K|exact K].
  - apply evolves_drop; [apply kept_refl|apply T|assumption..].
  - apply evolves_map. intros e He. destruct (hit e); split; try reflexivity; [apply kept_approval|apply kept_refl].
  - apply evolves_snoc; [apply part_kept_refl|assumption..].
  - apply (put_evolves tk_id _ part_kept _ _ p q); [apply part_kept_refl|apply T|exact Hin|apply K|exact K].
  - apply evolves_drop; [apply part_kept_refl|apply T|assumption..].
Qed.

Lemma kept_billed e e' : row_ok e -> kept e e' -> billed_entry e -> billed_entry e'.
Proof. intros R K B. destruct (kp_billed _ _ K B R) as (d & a & ->). exact B. Qed.

Lemma part_kept_billed p q : part_ok p -> part_kept p q -> tk_billingStatus p = billed -> tk_billingStatus q = billed.
Proof. intros R K B. destruct (pk_billed _ _ K B R) as (d & n & v & o & ->). exact B. Qed.

Lemma Evolves_trans t1 t2 t3 : Time t1 -> Time t2 -> Evolves t1 t2 -> Evolves t2 t3 -> Evolves t1 t3.
Proof.
  intros T1 T2 [A1 A2 A3 A4] [B1 B2 B3 B4]. constructor; [congruence|lia| |].
  - eapply evolves_trans; [..|exact A3|exact B3]; [| | |lia|apply T1].
    + intros x y z Hy Kx Ky. apply (kept_trans x y z Kx Ky). apply T2, Hy.
    + intros x y Hx. apply kept_billed, (tv_rows _ T1), Hx.
    + intros x y K. apply K.
  - eapply evolves_trans; [..|exact A4|exact B4]; [| | |lia|apply T1].
    + intros x y z Hy Kx Ky. apply (part_kept_trans x y z Kx Ky). apply T2, Hy.
    + intros x y Hx. apply part_kept_billed, (tv_parts _ T1), Hx.
    + intros x y K. apply K.
Qed.

Lemma Changes_Evolves actor t t' : Changes actor t t' -> Time t -> Evolves t t'.
Proof.
  induction 1 as [t|x y z Hc _ IH]; intros T.
  - constructor; auto; apply evolves_refl; [apply kept_refl|apply part_kept_refl].
  - pose proof (Change_Time _ _ _ Hc T) as Ty. exact (Evolves_trans _ _ _ T Ty (Change_Evolves _ _ _ T Hc) (IH Ty)).
Qed.

Lemma call_Time o t t' : time_call o t = Ok (tt, t') -> Time t -> Time t'.
Proof. intros E. apply (Changes_Time _ _ _ (time_call_changes _ _ _ E)). Qed.

Lemma call_Evolves o t t' : time_call o t = Ok (tt, t') -> Time t -> Evolves t t'.
Proof. intros E. apply (Changes_Evolves _ _ _ (time_call_changes _ _ _ E)). Qed.

End Changes.
