(* ===== verification/TimeProperties.v ===== *)
(** * Properties of the time entry service

    What the calls of [timeEntryService.ts] guarantee to the people who log time
    and to billing: the rows are always in order, billed work is frozen, the
    currency of a row is a snapshot, changes are authorized, a ticket's stamp is
    the one under lock, and no write is refused for disagreeing with the check on
    billed minutes. *)

From Stdlib Require Import QArith Qround.
From S2P Require Import Prelude JsString JsNumber Currency IsoDate InvoiceMath TimeBilling CatalogPricing ContractCoverage BillingDb InvoiceService QuoteDb InvoiceInvariants TimeEntries TimeEntrySafety.
From stdpp Require Import base gmap strings list relations.

Local Open Scope string_scope.
Local Open Scope Z_scope.
Local Open Scope billing_scope.

(** ** Calls that cannot fail with a given code *)

Definition safe {T A} (c : ErrorCode) (x : St T A) (t : T) : Prop := x t <> Err (Refused c).

Class Never {T A} (c : ErrorCode) (x : St T A) : Prop := never : forall t, safe c x t.

Lemma safe_bind {T A B} c (x : St T A) (k : A -> St T B) t :
  safe c x t -> (forall a t', x t = Ok (a, t') -> safe c (k a) t') -> safe c (bind x k) t.
Proof. unfold safe, bind. intros Hx Hk. destruct (x t) as [[a t']|e] eqn:E; [apply Hk; reflexivity|congruence]. Qed.

#[export] Instance ret_never {T A} c (a : A) : Never c (ret (T := T) a).
Proof. intros t [=]. Qed.
#[export] Instance read_never {T A} c (f : T -> A) : Never c (read f).
Proof. intros t [=]. Qed.
#[export] Instance modify_never {T} c (f : T -> T) : Never c (modify f).
Proof. intros t [=]. Qed.
#[export] Instance pg_check_never {T} c b : Never c (pg_check (T := T) b).
Proof. intros t. unfold safe, pg_check. destruct b; discriminate. Qed.
#[export] Instance bind_never {T A B} c (x : St T A) (k : A -> St T B) : Never c x -> (forall a, Never c (k a)) -> Never c (bind x k).
Proof. intros Hx Hk t. apply safe_bind; [apply Hx|]. intros a t' _. apply Hk. Qed.

Lemma fail_never {T A} c c' : c' <> c -> Never c (fail (T := T) (A := A) c').
Proof. intros N t [=]. congruence. Qed.
Lemma require_never {T} c c' b : c' <> c -> Never c (require (T := T) b c').
Proof. intros N t. unfold safe, require. destruct b; [discriminate|intros [=]; congruence]. Qed.
Lemma lift_throw_never {T A} c (r : result string A) : Never c (lift_throw (T := T) r).
Proof. intros t. unfold safe, lift_throw. destruct r; discriminate. Qed.
Lemma lift_never {T A} c (r : result Failure A) : r <> Err (Refused c) -> Never c (lift (T := T) r).
Proof. intros N t. unfold safe, lift. destruct r; cbn; congruence. Qed.

#[export] Hint Extern 1 (Never _ (fail _)) => apply fail_never; discriminate : typeclass_instances.
#[export] Hint Extern 1 (Never _ (require _ _)) => apply require_never; discriminate : typeclass_instances.

Ltac solve_never :=
  repeat match goal with
  | |- Never _ (match ?x with _ => _ end) => destruct x
  | |- Never _ (bind _ _) => apply bind_never; [|intros ?]
  | |- Never _ _ => apply _
  end.

Section Drift.
Context `{Uuids}.

Abbreviation drift := BILLABLE_MINUTES_DRIFT.

#[local] Instance rate_never rate cur : Never drift (assertRateRepresentable rate cur).
Proof. unfold assertRateRepresentable. solve_never. Qed.
#[local] Instance status_never st : Never drift (assertRoutineBillingStatus st).
Proof. unfold assertRoutineBillingStatus. solve_never. Qed.
#[local] Instance apply_never base input actor ov : Never drift (applyBillingInput base input actor ov).
Proof. unfold applyBillingInput, assertManageBilling. solve_never. Qed.
#[local] Instance work_never w p : Never drift (assertWorkTypeUsable w p).
Proof. unfold assertWorkTypeUsable. solve_never. Qed.
#[local] Instance partner_never p : Never drift (getPartnerCurrency p).
Proof. unfold getPartnerCurrency. solve_never. Qed.
#[local] Instance entry_never id actor : Never drift (getEntryOr404 id actor).
Proof. unfold getEntryOr404. solve_never. Qed.
#[local] Instance mutate_never e actor : Never drift (assertCanMutate e actor).
Proof. unfold assertCanMutate. solve_never. Qed.
#[local] Instance part_never id actor : Never drift (getPartOr404 id actor).
Proof. unfold getPartOr404. solve_never. Qed.
#[local] Instance relinked_never input link e : Never drift (relinked_to input link e).
Proof. unfold relinked_to. solve_never. Qed.
#[local] Instance mint_row_never : Never drift mint_row.
Proof. intros t [=]. Qed.

Lemma resolveTicketLink_never r tk actor w : resolveTicketLink r tk actor w <> Err (Refused drift).
Proof.
  unfold resolveTicketLink, getTicketForTimeTracking, Prelude.guard. destruct (tr_tickets r !! tk) as [t|]; cbn; [|discriminate].
  destruct (resolveTicketOrg r t) as [[p c]|]; [|discriminate]. destruct (negb _); cbn; [|discriminate].
  destruct (match truthy (ta_partnerId actor) with Some _ => _ | None => _ end); cbn; [|discriminate].
  destruct (match ta_accessibleOrgIds actor with Some _ => _ | None => _ end); cbn; discriminate.
Qed.

#[local] Instance link_never seen tk actor w : Never drift (resolveAndLockTicketLink seen tk actor w).
Proof.
  unfold resolveAndLockTicketLink, readOrgStampingDefaults, lockTicketRow.
  repeat match goal with
  | |- Never _ (lift (resolveTicketLink _ _ _ _)) => apply lift_never, resolveTicketLink_never
  | _ => progress solve_never
  end.
Qed.

#[local] Instance entry_link_never seen tk w o actor : Never drift (entry_link seen tk w o actor).
Proof. unfold entry_link. solve_never. Qed.

Lemma pg10_never s : pg_numeric10 s <> Err (Refused drift).
Proof.
  unfold pg_numeric10, pg_numeric. destruct (parse_text s) as [d|]; cbn; [|discriminate]. destruct (_ <? _); cbn; [|discriminate].
  destruct (parse_text _); [destruct (_ <? _)|]; discriminate.
Qed.

Lemma pg10_opt_never s : pg_numeric10_opt s <> Err (Refused drift).
Proof. destruct s as [s|]; cbn; [|discriminate]. pose proof (pg10_never s). destruct (pg_numeric10 s); cbn; congruence. Qed.

#[local] Instance accept_part_never p : Never drift (accept_part p).
Proof.
  unfold accept_part. repeat match goal with
  | |- Never _ (lift (pg_numeric10 _)) => apply lift_never, pg10_never
  | |- Never _ (lift (pg_numeric10_opt _)) => apply lift_never, pg10_opt_never
  | _ => progress solve_never
  end.
Qed.

(** ** Billed minutes *)

(** A card's rounding increment, as the check of its table has it. *)
Definition increment_ok (x : option Z) : Prop := forall i, x = Some i -> 1 <= i <= 480.

Definition cards_ok (r : TimeRef) : Prop := forall p, In p (tr_profiles r) -> increment_ok (card_roundingIncrementMinutes (pf_card p)).

Lemma int_of_ofZ z : int_of (ofZ z) = Some z.
Proof. unfold int_of, ofZ. f_equal. apply Qfloor_Z. Qed.

(** The minutes the service computes are those of the check, when the check can
    be evaluated. *)
Lemma billable_minutes_chk_ok d mn inc :
  0 <= d < 2 ^ 31 -> increment_ok inc -> billable_minutes_chk (Some d) mn inc (billable_minutes (Some d) mn inc) <> Ok false.
Proof.
  intros Hd Hi. assert (Hi' : forall i, inc = Some i -> 0 <= i < 2 ^ 31) by (intros i E; specialize (Hi i E); lia).
  unfold billable_minutes. change (option_map ofZ (Some d)) with (Some (ofZ d)). rewrite computeBillableMinutes_exact by assumption. rewrite int_of_ofZ.
  destruct (cast_term mn) as [z|m] eqn:Em; [|unfold billable_minutes_chk, billableMinutesSql; rewrite Em; discriminate].
  assert (Hm : forall m, mn = Some m -> - 2 ^ 31 <= m < 2 ^ 31).
  { intros m ->. cbn in Em. unfold cast_int in Em. destruct (_ && _) eqn:E; [|discriminate]. lia. }
  unfold billable_minutes_chk. rewrite billableMinutesSql_value by assumption. destruct (_ <? _); [|discriminate]. rewrite Z.eqb_refl. discriminate.
Qed.

Lemma chosen_card_in c a f k : chosen_card c a f = Some k -> a = Some k \/ f = Some k.
Proof. unfold chosen_card. destruct c as [c|]; [|discriminate]. repeat destruct (match _ with Some _ => _ | None => _ end); auto; discriminate. Qed.

Lemma resolveEntryBilling_rounding r org p c w : cards_ok r -> increment_ok (sm_roundingIncrementMinutes (resolveEntryBilling r org p c w)).
Proof.
  intros Hr. assert (Hrule : forall cards, (forall k, fst cards = Some k \/ snd cards = Some k -> increment_ok (card_roundingIncrementMinutes k)) ->
    increment_ok (sm_roundingIncrementMinutes (rule_stamp (resolveBillingRule c (fst cards) (snd cards) w)))).
  { intros cards Hk. unfold resolveBillingRule. destruct (chosen_card _ _ _) as [k|] eqn:Ek; [|intros i [=]].
    destruct (match List.find _ _ with Some x => _ | None => _ end) as [[cov rate] m]. cbn. apply Hk, (chosen_card_in _ _ _ _ Ek). }
  unfold resolveEntryBilling. destruct (truthy org) as [o|]; [|intros i [=]].
  apply Hrule. intros k Hk. destruct (truthy c) as [cur|]; [|cbn in Hk; intuition congruence]. unfold loadCardsForOrg in Hk. cbn in Hk.
  assert (Hfind : forall q, option_map pf_card (List.find q (tr_profiles r)) = Some k -> increment_ok (card_roundingIncrementMinutes k)).
  { intros q E. destruct (List.find q _) as [x|] eqn:Ef; [|discriminate]. injection E as <-. apply find_some in Ef as [Hx _]. exact (Hr x Hx). }
  destruct Hk as [Hk|Hk]; [destruct (tr_assignments r !! _); [|discriminate]|]; exact (Hfind _ Hk).
Qed.

Lemma resolveTicketLink_rounding r tk actor w l :
  cards_ok r -> resolveTicketLink r tk actor w = Ok l -> increment_ok (sm_roundingIncrementMinutes (ln_billing l)).
Proof.
  intros Hr. unfold resolveTicketLink, getTicketForTimeTracking. destruct (tr_tickets r !! tk) as [t|]; [|discriminate]. cbn [rbind].
  destruct (resolveTicketOrg r t) as [[p c]|]; [|discriminate]. intros E. do 3 (apply rbind_ok in E as (? & _ & E)). injection E as <-.
  apply resolveEntryBilling_rounding, Hr.
Qed.

Lemma locked_link_rounding seen tk actor w t l t' :
  cards_ok seen -> cards_ok (td_ref t) -> resolveAndLockTicketLink seen tk actor w t = Ok (l, t') -> increment_ok (sm_roundingIncrementMinutes (ln_billing l)).
Proof.
  intros Hs Ht E. unfold resolveAndLockTicketLink, readOrgStampingDefaults, lockTicketRow in E. run_m. drop_ro.
  match goal with F : (if String.eqb _ _ then _ else _) _ = Ok (?p, _) |- _ =>
    destruct p as [org' link']; assert (L : increment_ok (sm_roundingIncrementMinutes (ln_billing link'))) end.
  { destruct (String.eqb _ (ln_orgId _)); run_m; (eapply resolveTicketLink_rounding; [|eassumption]; assumption). }
  drop_ro. destruct (String.eqb org' _); run_m; [exact L|]. eapply resolveTicketLink_rounding; [|eassumption]. exact Ht.
Qed.

(** A row is accepted or refused for another reason when its minutes, within the
    columns, satisfy the check. *)
Lemma accept_safe e t :
  (forall d, en_durationMinutes e = Some d -> int4 d = true -> en_billableMinutes e <> None ->
     billable_minutes_chk (Some d) (tm_minimumMinutes (en_terms e)) (tm_roundingIncrementMinutes (en_terms e)) (en_billableMinutes e) <> Ok false) ->
  (en_durationMinutes e = None -> en_billableMinutes e = None) -> safe drift (accept_entry e) t.
Proof.
  intros Hd Hn. unfold accept_entry. apply safe_bind; [apply lift_never, pg10_opt_never|]. intros rate t1 _.
  apply safe_bind; [apply lift_never; unfold pg_int4; destruct (forallb _ _); discriminate|]. intros u t2 G. apply lift_ok in G as [Hi _].
  apply safe_bind.
  { unfold refuseBillableMinutesDrift. apply safe_bind; [apply lift_throw_never|]. intros k t3 G. apply lift_throw_ok in G as [G _].
    destruct k; [exact (never _)|]. exfalso. revert G. unfold entry_minutes_chk. cbn. destruct (en_billableMinutes e) as [b|] eqn:Eb; [|discriminate].
    destruct (en_durationMinutes e) as [d|] eqn:Ed; [|specialize (Hn eq_refl); discriminate]. apply Hd; [reflexivity| |discriminate].
    unfold pg_int4 in Hi. cbn in Hi. destruct (int4 d); [reflexivity|discriminate]. }
  intros u1 t3 _. apply (never (Never := bind_never _ _ _ _ (fun a => ret_never _ _)) t3).
Qed.

Lemma insert_safe e t : safe drift (accept_entry e) t -> safe drift (insert_entry e) t.
Proof. intros S0. apply safe_bind; [exact S0|]. intros x t1 _. apply (never (Never := bind_never _ _ _ _ (fun a => ret_never _ _)) t1). Qed.

Lemma update_safe e t : safe drift (accept_entry e) t -> safe drift (update_entry e) t.
Proof. intros S0. apply safe_bind; [exact S0|]. intros x t1 _. apply (never (Never := bind_never _ _ _ _ (fun a => ret_never _ _)) t1). Qed.

(** Minutes computed from a duration that is not negative. *)
Lemma computed_chk d mn inc : 0 <= d -> increment_ok inc -> int4 d = true -> billable_minutes_chk (Some d) mn inc (billable_minutes (Some d) mn inc) <> Ok false.
Proof. intros Hd Hi Hw. apply billable_minutes_chk_ok; [|exact Hi]. unfold int4 in Hw. lia. Qed.

Ltac step := apply safe_bind; [first [exact (never _)|idtac]|].

Lemma createTimeEntry_safe seen input actor pv t : cards_ok seen -> cards_ok (td_ref t) -> safe drift (createTimeEntry seen input actor pv) t.
Proof.
  intros Hs Ht. unfold createTimeEntry. step. intros u t1 G. pose proof (read_only _ _ _ G) as ->. clear G. step.
  intros [[[[p org] cur] work] b] t1 G1. pose proof (read_only _ _ _ G1) as ->. step.
  intros u1 t1 G2. apply require_ok in G2 as [Hrange ->]. apply Z.ltb_lt in Hrange.
  step; [destruct (_ && _); exact (never _)|]. intros cur' t1 G3.
  assert (t1 = t) as -> by (revert G3; destruct (_ && _); intros G3; [run_m; drop_ro; reflexivity|apply (read_only _ _ _ G3)]).
  step. intros u2 t1 G4. pose proof (read_only _ _ _ G4) as ->. step. intros r t1 G5. apply read_ok in G5 as [-> ->].
  step. intros [stamp ov] t1 G6. apply applyBillingInput_ok in G6 as (-> & _ & _ & _ & _ & Hinc).
  step. intros u3 t1 G7. step. intros id t2 _. cbv zeta. apply insert_safe, accept_safe; [|discriminate].
  intros d [= <-] Hw _. apply computed_chk; [|cbn|exact Hw].
  - unfold computeDurationMinutes. apply Z.div_pos; lia.
  - rewrite Hinc. destruct b as [s|]; [|apply resolveEntryBilling_rounding, Ht]. cbn. unfold entry_link in G1.
    apply bind_ok in G1 as ([[[[p' org'] cur1] work'] b'] & t3 & G & E). destruct (truthy p'); [|discriminate E]. injection E as _ _ _ _ -> _.
    destruct (truthy (ce_ticketId input)) as [tk|]; [|discriminate G]. apply bind_ok in G as (l & t4 & G & F). injection F as _ _ _ _ <- _.
    exact (locked_link_rounding _ _ _ _ _ _ _ Hs Ht G).
Qed.

Lemma stop_safe now d b actor t : safe drift (stopRunningEntry now d b actor) t.
Proof.
  unfold stopRunningEntry. step. intros es t1 _. destruct (List.find _ _) as [e|]; [|exact (never _)]. step.
  { destruct b; [|exact (never _)]. step. intros [s o] t2 _. exact (never _). }
  intros ov t2 _. step; [apply lift_throw_never|]. intros du t3 G. apply lift_throw_ok in G as [G _]. unfold cast_int in G.
  destruct (_ && _); [injection G as <-|discriminate G]. step; [apply lift_throw_never|]. intros bm t4 G. apply lift_throw_ok in G as [G _].
  step; [apply update_safe, accept_safe; [|discriminate]|intros x t5 _; exact (never _)].
  intros z [= <-] _ _. cbn. unfold billable_minutes_chk. cbn in G. rewrite G, Z.eqb_refl. discriminate.
Qed.

Lemma start_safe now entry actor t : (forall id, en_billableMinutes (entry id) = None) -> safe drift (start_attempt now entry actor) t.
Proof.
  intros Hn. unfold start_attempt. step; [apply stop_safe|]. intros o t1 _. step. intros es t2 _. destruct (existsb _ _); [exact (never _)|].
  step. intros id t3 _. step; [|intros x t4 _; exact (never _)]. apply insert_safe, accept_safe; [|intros _; apply Hn]. intros d _ _ N. elim N. apply Hn.
Qed.

Lemma startTimer_safe now seen tk d w actor t : safe drift (startTimer now seen tk d w actor) t.
Proof.
  unfold startTimer. step. intros [[[[p org] cur] work] b] t1 _. step. intros u t2 _. step. intros r t3 _. cbv zeta. step. intros u1 t4 _.
  step; [apply start_safe; reflexivity|]. intros o t5 _. destruct o; [exact (never _)|]. step; [apply start_safe; reflexivity|].
  intros o t6 _. destruct o; [exact (never _)|apply fail_never; discriminate].
Qed.

(** The rows hold durations that are not negative and the increments of cards. *)
Definition minutes_ok (t : TimeDb) : Prop :=
  forall e, In e (td_entries t) -> (forall d, en_durationMinutes e = Some d -> 0 <= d) /\ increment_ok (tm_roundingIncrementMinutes (en_terms e)).

Lemma edited_row_safe input link e org cur terms t :
  row_ok e -> (forall d, en_durationMinutes e = Some d -> 0 <= d) -> increment_ok (tm_roundingIncrementMinutes terms) ->
  (match next_end input e with Some x => next_start input e <? x | None => true end) = true ->
  safe drift (accept_entry (edited_row input link e org cur terms)) t.
Proof.
  intros R Hd Hi Hr.
  assert (Hnext : forall d, next_duration input e = Some d -> 0 <= d).
  { unfold next_duration. destruct (next_end input e) as [x|]; [|exact Hd]. destruct (redated input e); [|exact Hd]. intros d [= <-].
    apply Z.ltb_lt in Hr. unfold computeDurationMinutes. apply Z.div_pos; lia. }
  assert (Hsame : redated input e = false -> next_duration input e = en_durationMinutes e) by (intros F; unfold next_duration; rewrite F; destruct (next_end input e); reflexivity).
  pose proof (ro_minutes _ R) as C. unfold entry_chk, entry_minutes_chk in C. apply accept_safe; cbn; unfold next_billable.
  - intros d Ed Hw _. destruct (_ || _) eqn:Ec; [rewrite Ed; apply computed_chk; auto|].
    apply orb_false_iff in Ec as [Ec E3]. apply orb_false_iff in Ec as [E1 E2]. apply negb_false_iff, bool_decide_eq_true in E2, E3.
    rewrite (Hsame E1) in Ed. rewrite Ed, <- E2, <- E3 in C. intros F. rewrite F in C. discriminate.
  - intros En. destruct (_ || _) eqn:Ec; [rewrite En; reflexivity|]. apply orb_false_iff in Ec as [Ec _]. apply orb_false_iff in Ec as [E1 _].
    rewrite (Hsame E1) in En. rewrite En in C. destruct (en_billableMinutes e); [discriminate C|reflexivity].
Qed.

Lemma edit_terms_rounding r input link e actor t terms t' :
  (if reprices input e || billing_keys (ue_billing input)
   then do! (stamp, overridden) := applyBillingInput (edit_base r input link e) (ue_billing input) actor
                                     (if reprices input e then false else tm_billingOverridden (en_terms e)) in
        ret (edited_terms (reprices input e) (edit_base r input link e) stamp overridden (en_terms e))
   else ret (en_terms e)) t = Ok (terms, t') ->
  cards_ok r -> (forall l, link = Some l -> increment_ok (sm_roundingIncrementMinutes (ln_billing l))) ->
  increment_ok (tm_roundingIncrementMinutes (en_terms e)) -> increment_ok (tm_roundingIncrementMinutes terms).
Proof.
  intros E Hr Hl Hi. destruct (_ || _); [|injection E as <- _; exact Hi]. apply bind_ok in E as ([s o] & t1 & _ & E). injection E as <- _.
  cbn. destruct (reprices input e) eqn:Er; [|exact Hi]. unfold edit_base, new_link. rewrite Er.
  destruct (relinks input e); [destruct link as [l|]; [exact (Hl l eq_refl)|]|]; apply resolveEntryBilling_rounding, Hr.
Qed.

Lemma updateTimeEntry_safe seen id input actor t :
  Time t -> minutes_ok t -> cards_ok seen -> cards_ok (td_ref t) -> safe drift (updateTimeEntry seen id input actor) t.
Proof.
  intros Tm Hm Hs Ht. unfold updateTimeEntry. step. intros u t1 G. pose proof (read_only _ _ _ G) as ->. clear G.
  step; [destruct (ue_ticketId input) as [[tk|]|]; exact (never _)|]. intros link t1 G.
  assert (Hl : t1 = t /\ forall l, link = Some l -> increment_ok (sm_roundingIncrementMinutes (ln_billing l))).
  { destruct (ue_ticketId input) as [[tk|]|]; [|injection G as <- <-; split; [reflexivity|discriminate]..].
    apply bind_ok in G as (l & t2 & G & F). injection F as <- <-. pose proof (read_only _ _ _ G) as ->. split; [reflexivity|].
    intros l' [= <-]. exact (locked_link_rounding _ _ _ _ _ _ _ Hs Ht G). }
  destruct Hl as [-> Hl]. clear G. step. intros e t1 G. apply getEntry_spec in G as (-> & Hin & _). step. intros u1 t1 G. pose proof (read_only _ _ _ G) as ->.
  clear G. step. intros u2 t1 G. pose proof (read_only _ _ _ G) as ->. clear G. step.
  intros u3 t1 G. apply require_ok in G as [_ ->]. step. intros u4 t1 G. apply require_ok in G as [Hrange ->].
  step. intros [org cur] t1 G. apply relinked_to_ok in G as (-> & _). step; [unfold assertManageBilling; destruct (resets input); [apply require_never; discriminate|exact (never _)]|].
  intros u5 t1 G. assert (t1 = t) as -> by (revert G; unfold assertManageBilling; destruct (resets input); intros G; apply (read_only _ _ _ G)). clear G.
  step. intros r t1 G. apply read_ok in G as [-> ->]. cbv zeta.
  step; [destruct (_ || _); [step; intros [s o] t2 _; exact (never _)|exact (never _)]|]. intros terms t1 G.
  pose proof (edit_terms_rounding _ _ _ _ _ _ _ _ G Ht Hl (proj2 (Hm e Hin))) as Hinc.
  step; [destruct (_ && _); exact (never _)|]. intros cur' t2 _. step; [destruct (_ || _); exact (never _)|]. intros u6 t3 _.
  apply update_safe, edited_row_safe; [apply Tm, Hin|apply Hm, Hin|exact Hinc|exact Hrange].
Qed.

Lemma delete_never id actor : Never drift (deleteTimeEntry id actor).
Proof. unfold deleteTimeEntry. solve_never. Qed.
Lemma approve_never now ids approve actor : Never drift (approveTimeEntries now ids approve actor).
Proof. unfold approveTimeEntries. solve_never. Qed.
Lemma addPart_never now seen tk input actor : Never drift (addTicketPart now seen tk input actor).
Proof. unfold addTicketPart. solve_never. Qed.
Lemma updatePart_never id input actor : Never drift (updateTicketPart id input actor).
Proof. unfold updateTicketPart. solve_never. apply lift_never. destruct (empty_part_patch input); discriminate. Qed.
Lemma deletePart_never id actor : Never drift (deleteTicketPart id actor).
Proof. unfold deleteTicketPart. solve_never. Qed.

Definition seen_by (o : TimeOp) : option TimeRef :=
  match o with
  | t_create seen _ _ _ | t_start _ seen _ _ _ _ | t_update seen _ _ _ | t_part_add _ seen _ _ _ => Some seen
  | _ => None
  end.

Lemma safe_discard {T A} c (x : St T A) t : safe c x t -> safe c (discard x) t.
Proof. intros Hx. apply safe_bind; [exact Hx|]. intros a t1 _. exact (never _). Qed.

(** C17: No call is refused because the billed minutes it computes disagree with
    the check of the table: over rows in order, with rounding increments the card
    table allows and durations that are not negative, no call of the service ends
    in BILLABLE_MINUTES_DRIFT, whichever of the two computations (doubles in the
    service, SQL in a timer's stop) wrote the minutes, and whatever an earlier
    read of the rate cards saw. *)
Theorem billed_minutes_never_drift o t :
  Time t -> minutes_ok t -> cards_ok (td_ref t) -> (forall r, seen_by o = Some r -> cards_ok r) ->
  time_call o t <> Err (Refused BILLABLE_MINUTES_DRIFT).
Proof.
  intros Tm Hm Hr Hs. change (safe drift (time_call o) t). destruct o; cbn [time_call seen_by] in *; try apply safe_discard.
  - apply createTimeEntry_safe; auto.
  - apply startTimer_safe.
  - apply safe_bind; [apply stop_safe|]. intros [e|] t1 _; [exact (never _)|apply fail_never; discriminate].
  - apply updateTimeEntry_safe; auto.
  - apply delete_never.
  - apply approve_never.
  - apply addPart_never.
  - apply updatePart_never.
  - apply deletePart_never.
Qed.

End Drift.

(** ** The service over time *)

Definition with_status (s : TimeBillingStatus) (e : TimeEntry) : TimeEntry :=
  let t := en_terms e in
  set_terms (mkTerms (tm_billingProfileId t) (tm_coverage t) (tm_hourlyRate t) (tm_minimumMinutes t) (tm_roundingIncrementMinutes t) (tm_isBillable t) s
               (tm_billingOverridden t)) e.

Definition part_with_status (s : TimeBillingStatus) (p : TicketPart) : TicketPart :=
  mkTicketPart (tk_id p) (tk_ticketId p) (tk_orgId p) (tk_currencyCode p) (tk_description p) (tk_partNumber p) (tk_vendor p) (tk_catalogItemId p)
    (tk_quantity p) (tk_unitPrice p) (tk_costBasis p) (tk_isBillable p) s (tk_addedBy p) (tk_notes p) (tk_createdAt p).

(** What an invoice does to the rows it bills: stopped work not billed yet becomes
    billed when it is issued, and is released when it is voided. *)
Definition issue_entry (ids : list string) (e : TimeEntry) : TimeEntry :=
  if str_mem (en_id e) ids && is_not_billed (tm_billingStatus (en_terms e)) && present (en_endedAt e) then with_status billed e else e.
Definition issue_part (ids : list string) (p : TicketPart) : TicketPart :=
  if str_mem (tk_id p) ids && is_not_billed (tk_billingStatus p) then part_with_status billed p else p.
Definition release_entry (ids : list string) (e : TimeEntry) : TimeEntry := if str_mem (en_id e) ids then with_status not_billed e else e.
Definition release_part (ids : list string) (p : TicketPart) : TicketPart := if str_mem (tk_id p) ids then part_with_status not_billed p else p.

Inductive TimeEvent :=
| ev_call (o : TimeOp)
| ev_reference (r : TimeRef)
| ev_issued (entries parts : list string)
| ev_voided (entries parts : list string).

Definition time_event `{Uuids} (t : TimeDb) (v : TimeEvent) : TimeDb :=
  match v with
  | ev_call o => commit (time_call o) t
  | ev_reference r => mkTimeDb r (td_entries t) (td_parts t) (td_next t)
  | ev_issued es ps => set_time_parts (map (issue_part ps) (td_parts t)) (set_time_entries (map (issue_entry es) (td_entries t)) t)
  | ev_voided es ps => set_time_parts (map (release_part ps) (td_parts t)) (set_time_entries (map (release_entry es) (td_entries t)) t)
  end.

Section Service.
Context `{Uuids}.

Lemma with_status_row s e : row_ok e -> s <> bs_contract -> (s = billed -> en_endedAt e <> None) -> row_ok (with_status s e).
Proof.
  intros [A B C D E F] Hs He. constructor; try assumption.
  - unfold terms_ok in *. cbn. destruct (tm_coverage (en_terms e)); [|exact I]. destruct C as (C1 & _ & C3). split; [exact C1|split; [intros Hc; elim (Hs Hc)|exact C3]].
  - cbn. intros Hn. split; [apply F, Hn|]. intros Hb. exact (He Hb Hn).
Qed.

Lemma map_parts_Time f t : Time t -> (forall p, tk_id (f p) = tk_id p) -> (forall p, part_ok p -> part_ok (f p)) -> Time (set_time_parts (map f (td_parts t)) t).
Proof.
  intros T Hid Hf. assert (E : map tk_id (map f (td_parts t)) = map tk_id (td_parts t)) by (rewrite map_map; apply map_ext, Hid).
  apply set_parts_Time; [exact T|rewrite E; apply T|rewrite E; apply T|lia|]. intros p Hp. apply in_map_iff in Hp as (q & <- & Hq). apply Hf, T, Hq.
Qed.

Lemma part_status_ok s p : part_ok p -> part_ok (part_with_status s p).
Proof. intros [A B C]. constructor; assumption. Qed.

Lemma events_Time evs t : Time t -> Time (fold_left time_event evs t).
Proof.
  revert t. induction evs as [|v evs IH]; intros t T; [exact T|]. cbn. apply IH. destruct v as [o|r|es ps|es ps]; cbn.
  - unfold commit. destruct (time_call o t) as [[[] t']|] eqn:E; [exact (call_Time _ _ _ E T)|exact T].
  - destruct T. constructor; assumption.
  - apply (map_parts_Time (issue_part ps) (set_time_entries _ t)).
    + apply map_Time; [exact T|]. intros e _. unfold issue_entry. destruct (_ && _) eqn:E; [|auto]. do 3 (split; [auto|]).
      intros R. apply with_status_row; [exact R|discriminate|]. apply andb_true_iff in E as [_ E]. destruct (en_endedAt e); [|discriminate]. discriminate.
    + intros p. unfold issue_part. destruct (_ && _); reflexivity.
    + intros p. unfold issue_part. destruct (_ && _); [apply part_status_ok|auto].
  - apply (map_parts_Time (release_part ps) (set_time_entries _ t)).
    + apply map_Time; [exact T|]. intros e _. unfold release_entry. destruct (str_mem _ _); [|auto]. do 3 (split; [auto|]).
      intros R. apply with_status_row; [exact R|discriminate|discriminate].
    + intros p. unfold release_part. destruct (str_mem _ _); reflexivity.
    + intros p. unfold release_part. destruct (str_mem _ _); [apply part_status_ok|auto].
Qed.

(** C8: The tables of logged work stay in order: from tables in order, whatever
    sequence of calls, edits of the reference data and invoices issued or voided,
    ids stay distinct, no user has two running timers, a running timer is neither
    approved nor billed, the billed minutes satisfy the table's check, money has a
    currency it is representable in, an organization implies a currency, included
    and non-billable work carries no rate and no minimum, and contract work is
    included work. *)
Theorem time_tables_in_order evs t : Time t -> Time (fold_left time_event evs t).
Proof. apply events_Time. Qed.

(** C7: Billed work is frozen: over tables in order, a call that succeeds leaves
    every billed entry in place with at most another description and approval, and
    every billed part with at most another description, part number, vendor and
    notes, and no call makes a row billed: a billed row afterwards was that row,
    billed, before. *)
Theorem billed_work_frozen o t t' :
  Time t -> time_call o t = Ok (tt, t') ->
  (forall e, In e (td_entries t) -> billed_entry e -> exists description approval, In (redescribed description approval e) (td_entries t')) /\
  (forall p, In p (td_parts t) -> tk_billingStatus p = billed -> exists d n v o, In (relabelled d n v o p) (td_parts t')) /\
  (forall e', In e' (td_entries t') -> billed_entry e' -> exists e, In e (td_entries t) /\ en_id e = en_id e' /\ billed_entry e) /\
  (forall q, In q (td_parts t') -> tk_billingStatus q = billed -> exists p, In p (td_parts t) /\ tk_id p = tk_id q /\ tk_billingStatus p = billed).
Proof.
  intros T E. destruct (call_Evolves _ _ _ E T) as [_ _ [F1 G1] [F2 G2]]. split; [|split; [|split]].
  - intros e He B. destruct (F1 e He) as [(y & Hy & _ & K)|[N _]]; [|elim (N B)]. destruct (kp_billed _ _ K B (tv_rows _ T e He)) as (d & a & ->). eauto.
  - intros p Hp B. destruct (F2 p Hp) as [(y & Hy & _ & K)|[N _]]; [|elim (N B)]. destruct (pk_billed _ _ K B (tv_parts _ T p Hp)) as (d & n & v & x & ->). eauto 6.
  - intros e' He B. destruct (G1 e' He) as [(x & Hx & Ex & K)|[N _]]; [|elim (N B)]. exists x. split; [exact Hx|split; [exact Ex|]].
    destruct (decide (tm_billingStatus (en_terms x) = billed)) as [Y|N]; [exact Y|elim (kp_routine _ _ K N B)].
  - intros q Hq B. destruct (G2 q Hq) as [(x & Hx & Ex & K)|[N _]]; [|elim (N B)]. exists x. split; [exact Hx|split; [exact Ex|]].
    destruct (decide (tk_billingStatus x = billed)) as [Y|N]; [exact Y|elim (pk_routine _ _ K N B)].
Qed.

(** A currency is a snapshot: over tables in order, a call that succeeds
    leaves an entry that has a currency with that currency (or removes it), and a
    part with its currency, organization and ticket; an entry's owner, partner and
    provenance do not change either. *)
Theorem currency_never_restamped o t t' :
  Time t -> time_call o t = Ok (tt, t') ->
  (forall e e', In e (td_entries t) -> In e' (td_entries t') -> en_id e' = en_id e ->
     en_partnerId e' = en_partnerId e /\ en_userId e' = en_userId e /\ en_source e' = en_source e /\
     forall c, en_currencyCode e = Some c -> en_currencyCode e' = Some c) /\
  (forall p q, In p (td_parts t) -> In q (td_parts t') -> tk_id q = tk_id p ->
     tk_currencyCode q = tk_currencyCode p /\ tk_orgId q = tk_orgId p /\ tk_ticketId q = tk_ticketId p).
Proof.
  intros T E. pose proof (call_Time _ _ _ E T) as T'. destruct (call_Evolves _ _ _ E T) as [_ _ [F1 _] [F2 _]]. split.
  - intros e e' He He' Ei. destruct (F1 e He) as [(y & Hy & Ey & K)|[_ N]]; [|elim N; rewrite <- Ei; apply in_map, He'].
    rewrite (unique_in en_id _ e' y (tv_ids _ T') He' Hy ltac:(congruence)). repeat split; apply K.
  - intros p q Hp Hq Ei. destruct (F2 p Hp) as [(y & Hy & Ey & K)|[_ N]]; [|elim N; rewrite <- Ei; apply in_map, Hq].
    rewrite (unique_in tk_id _ q y (tv_part_ids _ T') Hq Hy ltac:(congruence)). repeat split; apply K.
Qed.

Lemma put_or {A} (key : A -> string) l x y e : List.NoDup (map key l) -> In x l -> key y = key x -> In e l ->
  In e (map (fun z => if String.eqb (key z) (key y) then y else z) l) \/ e = x.
Proof.
  intros N Hx Ey He. destruct (String.eqb_spec (key e) (key y)) as [E|E].
  - right. apply (unique_in key l); congruence.
  - left. apply in_map_iff. exists e. apply String.eqb_neq in E. rewrite E. auto.
Qed.

Lemma filter_or {A} (key : A -> string) l x e : List.NoDup (map key l) -> In x l -> In e l ->
  In e (List.filter (fun y => negb (String.eqb (key y) (key x))) l) \/ e = x.
Proof.
  intros N Hx He. destruct (String.eqb_spec (key e) (key x)) as [E|E].
  - right. apply (unique_in key l); assumption.
  - left. apply filter_In. apply String.eqb_neq in E. rewrite E. auto.
Qed.

(** The actor stopped a running timer of their own. *)
Definition own_stop (actor : TimeEntryActor) (e : TimeEntry) (t' : TimeDb) : Prop :=
  runs_for actor e = true /\ exists e', In e' (td_entries t') /\ stop_of e e'.

Lemma in_put_entry e e' es : In e es -> en_id e' = en_id e -> In e' (put_entry e' es).
Proof. intros He Ei. apply in_map_iff. exists e. rewrite Ei, String.eqb_refl. auto. Qed.

Lemma Change_authorized actor t t' e :
  Time t -> Change actor t t' -> In e (td_entries t) -> In e (td_entries t') \/ authorized actor e \/ own_stop actor e t'.
Proof.
  intros T C He.
  destruct C as [x Hid Hr Hb Hn|x y Hin A K Hr|x y Hin Hrun St K Hr|x Hin A Hb|hit a Hm Hh|p Hid Hp Hb|p q Hin A K Hp|p Hin A Hb]; cbn; try (left; exact He).
  - left. apply in_or_app. auto.
  - destruct (put_or en_id _ x y e (tv_ids _ T) Hin (kp_id _ _ K) He) as [F| ->]; auto.
  - destruct (put_or en_id _ x y e (tv_ids _ T) Hin (kp_id _ _ K) He) as [F| ->]; [auto|]. right; right. split; [exact Hrun|].
    exists y. split; [exact (in_put_entry _ _ _ Hin (kp_id _ _ K))|exact St].
  - destruct (filter_or en_id _ x e (tv_ids _ T) Hin He) as [F| ->]; auto.
  - destruct (hit e) eqn:Eh.
    + right; left. destruct (Hh e He Eh) as (Hp & x & Hx & Ex & Ho & Hg). rewrite (unique_in en_id _ x e (tv_ids _ T) Hx He Ex) in Hg.
      split; [exact Hp|]. split; [right; exact Hm|auto].
    + left. apply in_map_iff. exists e. rewrite Eh. auto.
Qed.

Lemma Change_part_seen actor t t' p : Time t -> Change actor t t' -> In p (td_parts t) -> In p (td_parts t') \/ org_axis actor p = true.
Proof.
  intros T C He.
  destruct C as [x Hid Hr Hb Hn|x y Hin A K Hr|x y Hin Hrun St K Hr|x Hin A Hb|hit a Hm Hh|q Hid Hp Hb|x y Hin A K Hp|x Hin A Hb]; cbn; try (left; exact He).
  - left. apply in_or_app. auto.
  - destruct (put_or tk_id _ x y p (tv_part_ids _ T) Hin (pk_id _ _ K) He) as [F| ->]; auto.
  - destruct (filter_or tk_id _ x p (tv_part_ids _ T) Hin He) as [F| ->]; auto.
Qed.

(** A stopped row has the owner, partner, organization and approval of the
    running one, and is not stopped again. *)
Lemma stopped_authorized actor e e' : stop_of e e' -> authorized actor e' -> authorized actor e.
Proof. intros (n & d & b & x & tm & ->). exact id. Qed.

Lemma stopped_stays actor e e' : stop_of e e' -> runs_for actor e' = false.
Proof. intros (n & d & b & x & tm & ->). unfold runs_for. cbn. rewrite andb_false_r. reflexivity. Qed.

Lemma Changes_authorized actor t t' : Changes actor t t' -> Time t ->
  (forall e, In e (td_entries t) -> In e (td_entries t') \/ authorized actor e \/ own_stop actor e t') /\
  (forall p, In p (td_parts t) -> In p (td_parts t') \/ org_axis actor p = true).
Proof.
  induction 1 as [t|x y z C _ IH]; intros T; [auto|]. destruct (IH (Change_Time _ _ _ C T)) as [IE IP]. split.
  - intros e He. destruct (Change_authorized _ _ _ _ T C He) as [F|[F|(Hrun & e' & He' & St)]]; auto.
    destruct (IE e' He') as [F|[F|[F _]]].
    + right; right. split; [exact Hrun|eauto].
    + right; left. exact (stopped_authorized _ _ _ St F).
    + rewrite (stopped_stays _ _ _ St) in F. discriminate.
  - intros p Hp. destruct (Change_part_seen _ _ _ _ T C Hp) as [F|F]; auto.
Qed.

(** C10: Every change of logged work is authorized: over tables in order, a call
    that succeeds leaves an entry exactly as it was, unless the actor owns the
    entry or manages all entries, manages all when it is approved, has its
    organization among the accessible ones when those are limited, and has its
    partner when the actor has one; or the entry is the actor's own running timer,
    and then all that happens to it is that it stops: its end, minutes,
    description and billing terms are written, and its organization, ticket, work
    type, start, currency and approval stay (a stop does not check the
    organization). A part stays as it was unless its organization is among the
    actor's accessible ones, when those are limited. An actor without a partner,
    the system's own, passes the partner check on any row. *)
Theorem entry_changes_authorized o t t' :
  Time t -> time_call o t = Ok (tt, t') ->
  (forall e, In e (td_entries t) ->
     In e (td_entries t') \/ authorized (actor_of o) e \/
     (en_userId e = ta_userId (actor_of o) /\ en_endedAt e = None /\ partner_axis (actor_of o) e = true /\
      exists e', In e' (td_entries t') /\ stop_of e e')) /\
  (forall p, In p (td_parts t) -> In p (td_parts t') \/ org_axis (actor_of o) p = true).
Proof.
  intros T E. destruct (Changes_authorized _ _ _ (time_call_changes _ _ _ E) T) as [FE FP]. split; [|exact FP].
  intros e He. destruct (FE e He) as [F|[F|[F S]]]; auto. apply runs_for_spec in F as (F1 & F2 & F3). auto 6.
Qed.

(** ** Stamps under lock *)

Lemma resolveTicketLink_ok r tk actor w l :
  resolveTicketLink r tk actor w = Ok l ->
  exists ticket p, tr_tickets r !! tk = Some ticket /\ ln_orgId l = ti_orgId ticket /\ tr_organizations r !! ti_orgId ticket = Some (p, ln_currencyCode l) /\
    match ta_accessibleOrgIds actor with Some ids => str_mem (ln_orgId l) ids | None => true end = true.
Proof.
  unfold resolveTicketLink, getTicketForTimeTracking. destruct (tr_tickets r !! tk) as [t|] eqn:Et; [|discriminate]. cbn [rbind].
  unfold resolveTicketOrg. destruct (tr_organizations r !! ti_orgId t) as [[op c]|] eqn:Eo; [|discriminate]. intros E.
  do 2 (apply rbind_ok in E as (? & _ & E)). apply rbind_ok in E as (u & G & E). injection E as <-. apply guard_ok in G.
  exists t, op. cbn. auto.
Qed.

(** The link is the ticket's as locked, whatever the unlocked read saw. *)
Definition current_link (t : TimeDb) (tk : string) (actor : TimeEntryActor) (org currency : string) : Prop :=
  exists ticket p, tr_tickets (td_ref t) !! tk = Some ticket /\ org = ti_orgId ticket /\ tr_organizations (td_ref t) !! org = Some (p, currency) /\
    match ta_accessibleOrgIds actor with Some ids => str_mem org ids | None => true end = true.

Lemma readOrg_ok o t c t' : readOrgStampingDefaults o t = Ok (c, t') -> t' = t /\ exists p, tr_organizations (td_ref t) !! o = Some (p, c).
Proof.
  unfold readOrgStampingDefaults. intros E. apply bind_ok in E as (r & t1 & G & E). apply read_ok in G as [-> ->].
  destruct (tr_organizations (td_ref t) !! o) as [[p c']|]; [|discriminate E]. injection E as <- <-. eauto.
Qed.

Lemma lockTicketRow_ok tk t o t' : lockTicketRow tk t = Ok (o, t') -> t' = t /\ exists ticket, tr_tickets (td_ref t) !! tk = Some ticket /\ o = ti_orgId ticket.
Proof.
  unfold lockTicketRow. intros E. apply bind_ok in E as (r & t1 & G & E). apply read_ok in G as [-> ->].
  destruct (tr_tickets (td_ref t) !! tk) as [k|]; [|discriminate E]. injection E as <- <-. eauto.
Qed.

Lemma locked_link_current seen tk actor w t l t' :
  resolveAndLockTicketLink seen tk actor w t = Ok (l, t') -> current_link t tk actor (ln_orgId l) (ln_currencyCode l).
Proof.
  assert (Hnow : forall l, resolveTicketLink (td_ref t) tk actor w = Ok l -> current_link t tk actor (ln_orgId l) (ln_currencyCode l)).
  { intros k E. apply resolveTicketLink_ok in E as (ticket & p & E1 & E2 & E3 & E4). exists ticket, p. rewrite E2 in *. auto. }
  unfold resolveAndLockTicketLink. intros E. apply bind_ok in E as (l1 & t1 & G1 & E). apply lift_ok in G1 as [G1 ->].
  apply bind_ok in E as (org & t1 & G2 & E). apply readOrg_ok in G2 as (-> & p & G2).
  apply bind_ok in E as (locked & t1 & G3 & E). apply lockTicketRow_ok in G3 as (-> & ticket & G3 & Hl).
  apply bind_ok in E as (r & t1 & G4 & E). apply read_ok in G4 as [-> ->]. apply bind_ok in E as ([org' link] & t1 & G5 & E).
  assert (Hlink : t1 = t /\ (org' = ln_currencyCode link -> current_link t tk actor (ln_orgId link) (ln_currencyCode link))).
  { destruct (String.eqb_spec locked (ln_orgId l1)) as [Eo|_].
    - injection G5 as <- <- <-. split; [reflexivity|]. intros Ec. apply resolveTicketLink_ok in G1 as (? & ? & _ & _ & _ & Ha).
      exists ticket, p. split; [exact G3|]. split; [congruence|]. rewrite <- Ec. auto.
    - apply bind_ok in G5 as (o & t2 & G6 & G5). apply readOrg_ok in G6 as (-> & _). apply bind_ok in G5 as (l2 & t2 & G6 & G5).
      apply lift_ok in G6 as [G6 ->]. injection G5 as <- <- <-. auto. }
  destruct Hlink as [-> Hlink]. destruct (String.eqb_spec org' (ln_currencyCode link)) as [Ec|_].
  - injection E as <- _. exact (Hlink Ec).
  - apply lift_ok in E as [E _]. exact (Hnow _ E).
Qed.

Lemma entry_link_current seen tk w o actor t p org cur work b t' x :
  entry_link seen tk w o actor t = Ok ((p, org, cur, work, b), t') -> truthy tk = Some x ->
  exists g c, org = Some g /\ cur = Some c /\ current_link t x actor g c.
Proof.
  unfold entry_link. intros E Hx. rewrite Hx in E. apply bind_ok in E as ([[[[p' org'] cur'] work'] b'] & t1 & G & E).
  apply bind_ok in G as (l & t2 & G & F). injection F as <- <- <- <- <- <-. destruct (truthy _); [|discriminate E]. injection E as _ <- <- _ _ _.
  exists (ln_orgId l), (ln_currencyCode l). split; [reflexivity|]. split; [reflexivity|]. exact (locked_link_current _ _ _ _ _ _ _ G).
Qed.

Lemma inserted_stamp e t x t' : insert_entry e t = Ok (x, t') -> en_orgId x = en_orgId e /\ en_currencyCode x = en_currencyCode e.
Proof. intros E. apply insert_entry_ok in E as [E _]. apply accept_entry_ok in E as (_ & r & _ & -> & _). auto. Qed.

Lemma start_attempt_stamp now entry actor t x t' : start_attempt now entry actor t = Ok (Some x, t') ->
  exists id, en_orgId x = en_orgId (entry id) /\ en_currencyCode x = en_currencyCode (entry id).
Proof.
  unfold start_attempt. intros E. apply bind_ok in E as (o & t1 & _ & E). apply bind_ok in E as (es & t2 & _ & E).
  destruct (existsb _ _); [discriminate E|]. apply bind_ok in E as (id & t3 & _ & E). apply bind_ok in E as (y & t4 & G & E). injection E as <- _.
  exists id. exact (inserted_stamp _ _ _ _ G).
Qed.

(** C9: A row created for a ticket is stamped with the ticket's organization and
    that organization's currency as they stand under lock when the row is
    written, and the organization is one the actor may see, even when the checks
    that came before the locks read an older organization or currency: for a
    logged entry, a started timer and a part. *)
Theorem ticket_stamp_current seen actor t t' tk :
  (forall input pv e, createTimeEntry seen input actor pv t = Ok (e, t') -> truthy (ce_ticketId input) = Some tk ->
     exists org c, en_orgId e = Some org /\ en_currencyCode e = Some c /\ current_link t tk actor org c) /\
  (forall now ticketId d w e, startTimer now seen ticketId d w actor t = Ok (e, t') -> truthy ticketId = Some tk ->
     exists org c, en_orgId e = Some org /\ en_currencyCode e = Some c /\ current_link t tk actor org c) /\
  (forall now input p, addTicketPart now seen tk input actor t = Ok (p, t') -> current_link t tk actor (tk_orgId p) (tk_currencyCode p)).
Proof.
  split; [|split].
  - intros input pv e E Hx. unfold createTimeEntry in E. apply bind_ok in E as (u & t1 & G & E). pose proof (read_only _ _ _ G) as ->.
    apply bind_ok in E as ([[[[p org] cur] work] b] & t1 & G1 & E). destruct (entry_link_current _ _ _ _ _ _ _ _ _ _ _ _ _ G1 Hx) as (g & c & -> & -> & L).
    apply bind_ok in E as (u1 & t2 & _ & E). apply bind_ok in E as (cur' & t3 & G3 & E). rewrite Hx in G3. injection G3 as <- _.
    apply bind_ok in E as (u2 & t4 & _ & E). apply bind_ok in E as (r & t5 & _ & E). apply bind_ok in E as ([s o] & t6 & _ & E).
    apply bind_ok in E as (u3 & t7 & _ & E). apply bind_ok in E as (id & t8 & _ & E). cbv zeta in E. apply inserted_stamp in E as [-> ->]. eauto.
  - intros now tk' d w e E Hx. unfold startTimer in E. apply bind_ok in E as ([[[[p org] cur] work] b] & t1 & G1 & E).
    destruct (entry_link_current _ _ _ _ _ _ _ _ _ _ _ _ _ G1 Hx) as (g & c & -> & -> & L).
    apply bind_ok in E as (u & t2 & _ & E). apply bind_ok in E as (r & t3 & _ & E). cbv zeta in E. apply bind_ok in E as (u1 & t4 & _ & E).
    apply bind_ok in E as (o & t5 & G & E). exists g, c. destruct o as [x|].
    + injection E as <- _. apply start_attempt_stamp in G as (id & -> & ->). auto.
    + apply bind_ok in E as (o & t6 & G' & E). destruct o as [x|]; [|discriminate E]. injection E as <- _. apply start_attempt_stamp in G' as (id & -> & ->). auto.
  - intros now input p E. unfold addTicketPart in E. apply bind_ok in E as (u & t1 & G & E). pose proof (read_only _ _ _ G) as ->.
    apply bind_ok in E as (l & t1 & G1 & E). pose proof (locked_link_current _ _ _ _ _ _ _ G1) as L. cbv zeta in E.
    apply bind_ok in E as (u1 & t2 & _ & E). apply bind_ok in E as (u2 & t3 & _ & E). apply bind_ok in E as (id & t4 & _ & E).
    apply bind_ok in E as (q & t5 & G5 & E). run_m. apply accept_part_ok in G5 as (a & b & c & _ & _ & _ & ->). exact L.
Qed.

End Service.

(** ** A day of work *)

Lemma empty_Time `{Uuids} r : Time (mkTimeDb r [] [] 0).
Proof. constructor; cbn; try apply List.NoDup_nil; first [solve [intros ? []]|intros ? ? []]. Qed.

Definition day_card : ResolvedCard := mkCard "card-usd" "USD" (Some 15) cov_billable (Some "120.00") (Some 30) [].

Definition day_ref : TimeRef :=
  mkTimeRef {["tk1" := mkTicket (Some "p1") "o1" None]} (list_to_map [("o1", ("p1", "USD")); ("o2", ("p1", "EUR"))]) ∅ {["p1" := "USD"]} ∅
    [mkProfile "p1" true true day_card] ∅.

(** The same day before the ticket moved from another organization. *)
Definition earlier_ref : TimeRef :=
  mkTimeRef {["tk1" := mkTicket (Some "p1") "o2" None]} (tr_organizations day_ref) ∅ {["p1" := "USD"]} ∅ (tr_profiles day_ref) ∅.

Definition technician : TimeEntryActor := mkTimeActor "u1" (Some "p1") false false (Some ["o1"; "o2"]).

Definition logged : TimeOp := t_create earlier_ref (mkCreateEntry None (Some "tk1") 0 2820000 (Some "Router") no_billing_input) technician manual_entry.
Definition timer : TimeOp := t_start 3000000 day_ref (Some "tk1") None None technician.
Definition cable : TimeOp :=
  t_part_add 3000000 day_ref "tk1" (mkPartInput "Cable" None None None (ofZ 2) (Some (ofZ 15)) None None None None) technician.
Definition reword : TimeOp := t_update day_ref "0" (mkUpdateEntry None None None None None (Some (Some "Router swap")) no_billing_input) technician.
Definition restart : TimeOp := t_start 6600000 day_ref None (Some "Travel") None technician.

(** An entry and a part logged and invoiced, and a running timer. *)
Definition day : list TimeEvent := [ev_call logged; ev_call cable; ev_issued ["0"] ["1"]; ev_call timer].

Definition day_tables : TimeDb := fold_left time_event day (mkTimeDb day_ref [] [] 0).

Definition day_entry : TimeEntry :=
  mkTimeEntry "0" "p1" (Some "o1") (Some "tk1") None "u1" 0 (Some 2820000) (Some 47) (Some 60) (Some "Router")
    (mkTerms (Some "card-usd") (Some cov_billable) (Some "120.00") (Some 30) (Some 15) true billed false) (Some "USD") so_manual unapproved.

Example day_tables_rows : List.hd_error (td_entries day_tables) = Some day_entry /\ List.length (td_entries day_tables) = 2%nat /\ List.length (td_parts day_tables) = 1%nat.
Proof. vm_compute. auto. Qed.

Lemma day_in_order : Time day_tables.
Proof. apply events_Time, empty_Time. Qed.

(** Stopping the running timer and starting another keeps one running. *)
Lemma time_tables_in_order_witness :
  let t := fold_left time_event (day ++ [ev_call restart])%list (mkTimeDb day_ref [] [] 0) in
  Time t /\ List.length (List.filter (running_entry "u1") (td_entries t)) = 1%nat /\ List.length (td_entries t) = 3%nat.
Proof. split; [apply time_tables_in_order, empty_Time|]. vm_compute. auto. Defined.

Lemma billed_work_frozen_witness :
  exists t', time_call reword day_tables = Ok (tt, t') /\ exists d a, In (redescribed d a day_entry) (td_entries t').
Proof.
  destruct (time_call reword day_tables) as [[[] t']|] eqn:E; [|vm_compute in E; discriminate E]. exists t'. split; [reflexivity|].
  destruct (billed_work_frozen _ _ _ day_in_order E) as [F _]. apply F; [vm_compute; auto|reflexivity].
Defined.

Lemma currency_never_restamped_witness :
  exists t', time_call reword day_tables = Ok (tt, t') /\
    forall e', In e' (td_entries t') -> en_id e' = "0" -> en_currencyCode e' = Some "USD".
Proof.
  destruct (time_call reword day_tables) as [[[] t']|] eqn:E; [|vm_compute in E; discriminate E]. exists t'. split; [reflexivity|].
  intros e' He' Hid. destruct (currency_never_restamped _ _ _ day_in_order E) as [F _].
  apply (F day_entry e'); [vm_compute; auto|exact He'|exact Hid|reflexivity].
Defined.

(** The running timer stopped by its owner, who no longer sees its organization. *)
Definition moved_technician : TimeEntryActor := mkTimeActor "u1" (Some "p1") false false (Some ["o2"]).
Definition day_timer : TimeEntry := List.nth 1 (td_entries day_tables) day_entry.

Lemma entry_changes_authorized_witness :
  exists t', time_call (t_stop 6600000 None None moved_technician) day_tables = Ok (tt, t') /\
    exists e', In e' (td_entries t') /\ stop_of day_timer e'.
Proof.
  destruct (time_call (t_stop 6600000 None None moved_technician) day_tables) as [[[] t']|] eqn:E; [|vm_compute in E; discriminate E].
  exists t'. split; [reflexivity|].
  destruct (proj1 (entry_changes_authorized _ _ _ day_in_order E) day_timer) as [F|[(_ & _ & F & _)|(_ & _ & _ & F)]].
  - vm_compute. auto.
  - vm_compute in E. injection E as <-. vm_compute in F. repeat destruct F as [F|F]; discriminate F || destruct F.
  - vm_compute in F. discriminate F.
  - exact F.
Defined.

(** The ticket was read in the organization it has left. *)
Lemma ticket_stamp_current_witness :
  let t := mkTimeDb day_ref [] [] 0 in
  exists e t', createTimeEntry earlier_ref (mkCreateEntry None (Some "tk1") 0 2820000 (Some "Router") no_billing_input) technician manual_entry t = Ok (e, t') /\
    exists org c, en_orgId e = Some org /\ en_currencyCode e = Some c /\ current_link t "tk1" technician org c.
Proof.
  cbv zeta. destruct (createTimeEntry earlier_ref _ technician manual_entry _) as [[e t']|] eqn:E; [|vm_compute in E; discriminate E].
  exists e, t'. split; [reflexivity|]. exact (proj1 (ticket_stamp_current _ _ _ _ "tk1") _ _ _ E eq_refl).
Defined.

Lemma billed_minutes_never_drift_witness :
  Time day_tables /\ time_call (t_stop 5000000 None None technician) day_tables <> Err (Refused BILLABLE_MINUTES_DRIFT).
Proof.
  split; [exact day_in_order|]. assert (C : cards_ok day_ref) by (intros p [<-|[]] i [= <-]; lia).
  apply billed_minutes_never_drift; [exact day_in_order| |exact C|discriminate].
  intros e He. vm_compute in He. destruct He as [<-|[<-|[]]]; split; intros ? [= <-]; lia.
Defined.

(** ** Detaching *)

Definition detach : UpdateTimeEntryInput := mkUpdateEntry None None (Some None) None None None no_billing_input.

(** What detaching leaves of an entry: its organization, whether it is billable, and its rate. *)
Definition after_detach (ticketId : option string) (orgLink : option (string * string)) : option (option string * bool * option string) :=
  let input := mkCreateEntry None ticketId 0 2820000 (Some "Router") no_billing_input in
  match bind (createTimeEntry day_ref input technician (mkProvenance so_remote_session orgLink))
          (fun e => updateTimeEntry day_ref (en_id e) detach technician) (mkTimeDb day_ref [] [] 0) with
  | Ok (e, _) => Some (en_orgId e, tm_isBillable (en_terms e), tm_hourlyRate (en_terms e))
  | Err _ => None
  end.

(** An entry of a ticket becomes unpriced, non-billable standalone work. An entry
    that only had an organization loses the organization and keeps the price of
    its card: no ticket changed, so it is not repriced. *)
Example detach_reprices_tickets_only :
  after_detach (Some "tk1") None = Some (None, false, None) /\
  after_detach None (Some ("o1", "USD")) = Some (None, true, Some "120.00").
Proof. vm_compute. auto. Qed.
