(* ===== verification/RateCards.v ===== *)
(** * Rate cards, work types and organization currencies
      ([apps/api/src/services/billingProfileService.ts], [workTypeService.ts],
      the change of [orgCurrencyService.ts], and the tables of
      [db/schema/billingProfiles.ts] and [workTypes.ts])

    A partner prices labour by cards: a base row, rows per work type, and for
    each currency one default. An organization is assigned a card or falls back
    to the default of its currency. Timestamps, rule ids and the shape of uuids
    are left out; PostgreSQL's [lower] is taken on ASCII letters. *)

From S2P Require Import Prelude JsString JsNumber Currency TimeBilling CatalogPricing ContractCoverage BillingDb InvoiceService QuoteDb TimeEntries.
From stdpp Require Import base gmap strings list.

Local Open Scope string_scope.
Local Open Scope Z_scope.
Local Open Scope billing_scope.

(** ** Tables *)

Record BillingProfile := mkBillingProfile {
  pr_id : string; pr_partnerId : string; pr_name : string; pr_notes : option string; pr_currencyCode : string;
  pr_isDefault : bool; pr_isActive : bool; pr_roundingIncrementMinutes : option Z;
  pr_baseCoverage : BillCoverage; pr_baseHourlyRate : option string; pr_baseMinimumMinutes : option Z }.

Record ProfileRule := mkProfileRule {
  ru_partnerId : string; ru_billingProfileId : string; ru_workTypeId : string; ru_coverage : BillCoverage;
  ru_hourlyRate : option string; ru_minimumMinutes : option Z; ru_notes : option string }.

Record Assignment := mkAssignment { as_partnerId : string; as_billingProfileId : string; as_assignedBy : option string }.

Record WorkType := mkWorkType {
  wt_id : string; wt_partnerId : string; wt_name : string; wt_sortOrder : Z; wt_isActive : bool }.

Record Category := mkCategory { cg_partnerId : string; cg_defaultWorkTypeId : option string }.

(** The tables: assignments by organization, organizations with their partner and
    currency, partners with their currency. *)
Record RateDb := mkRateDb {
  rd_profiles : list BillingProfile;
  rd_rules : list ProfileRule;
  rd_assignments : gmap string Assignment;
  rd_organizations : gmap string (string * string);
  rd_workTypes : list WorkType;
  rd_categories : gmap string Category;
  rd_partners : gmap string string;
  rd_currencies : list string;
  rd_next : nat }.

Definition set_profiles x (d : RateDb) : RateDb :=
  mkRateDb x (rd_rules d) (rd_assignments d) (rd_organizations d) (rd_workTypes d) (rd_categories d) (rd_partners d) (rd_currencies d) (rd_next d).
Definition set_rules x (d : RateDb) : RateDb :=
  mkRateDb (rd_profiles d) x (rd_assignments d) (rd_organizations d) (rd_workTypes d) (rd_categories d) (rd_partners d) (rd_currencies d) (rd_next d).
Definition set_assignments x (d : RateDb) : RateDb :=
  mkRateDb (rd_profiles d) (rd_rules d) x (rd_organizations d) (rd_workTypes d) (rd_categories d) (rd_partners d) (rd_currencies d) (rd_next d).
Definition set_organizations x (d : RateDb) : RateDb :=
  mkRateDb (rd_profiles d) (rd_rules d) (rd_assignments d) x (rd_workTypes d) (rd_categories d) (rd_partners d) (rd_currencies d) (rd_next d).
Definition set_workTypes x (d : RateDb) : RateDb :=
  mkRateDb (rd_profiles d) (rd_rules d) (rd_assignments d) (rd_organizations d) x (rd_categories d) (rd_partners d) (rd_currencies d) (rd_next d).
Definition set_categories x (d : RateDb) : RateDb :=
  mkRateDb (rd_profiles d) (rd_rules d) (rd_assignments d) (rd_organizations d) (rd_workTypes d) x (rd_partners d) (rd_currencies d) (rd_next d).
Definition bump_next (d : RateDb) : RateDb :=
  mkRateDb (rd_profiles d) (rd_rules d) (rd_assignments d) (rd_organizations d) (rd_workTypes d) (rd_categories d) (rd_partners d) (rd_currencies d) (S (rd_next d)).

Abbreviation RateM := (St RateDb).

(** [lower] of PostgreSQL, on ASCII letters. *)
Definition lower_char (c : ascii) : ascii :=
  let n := Ascii.nat_of_ascii c in if (Nat.leb 65 n && Nat.leb n 90)%bool then Ascii.ascii_of_nat (n + 32) else c.

Fixpoint lower (s : string) : string :=
  match s with EmptyString => EmptyString | String c r => String (lower_char c) (lower r) end.

(** Nothing but spaces: what [btrim] empties. *)
Fixpoint blank (s : string) : bool :=
  match s with EmptyString => true | String c r => (c =? " ")%char && blank r end.

(** [billing_profiles_partner_name_uniq] and
    [billing_profiles_default_per_currency_uniq]. *)
Definition same_name (p q : BillingProfile) : bool :=
  String.eqb (pr_partnerId p) (pr_partnerId q) && String.eqb (lower (pr_name p)) (lower (pr_name q)).

Definition both_default (p q : BillingProfile) : bool :=
  String.eqb (pr_partnerId p) (pr_partnerId q) && String.eqb (pr_currencyCode p) (pr_currencyCode q) &&
  (pr_isDefault p && pr_isActive p) && (pr_isDefault q && pr_isActive q).

Definition profile_free (p : BillingProfile) (ps : list BillingProfile) : bool :=
  forallb (fun q => String.eqb (pr_id q) (pr_id p) || negb (same_name p q || both_default p q)) ps.

Definition unpriced_unless_billable (c : BillCoverage) (rate : option string) (minimum : option Z) : bool :=
  match c with cov_billable => true | _ => negb (present rate) && negb (present minimum) end.

Definition profile_chk (p : BillingProfile) : bool :=
  negb (blank (pr_name p)) && unpriced_unless_billable (pr_baseCoverage p) (pr_baseHourlyRate p) (pr_baseMinimumMinutes p) &&
  match pr_roundingIncrementMinutes p with Some i => (1 <=? i) && (i <=? 480) | None => true end.

Definition with_rate (rate : option string) (p : BillingProfile) : BillingProfile :=
  mkBillingProfile (pr_id p) (pr_partnerId p) (pr_name p) (pr_notes p) (pr_currencyCode p) (pr_isDefault p) (pr_isActive p)
    (pr_roundingIncrementMinutes p) (pr_baseCoverage p) rate (pr_baseMinimumMinutes p).

Definition with_default (b : bool) (p : BillingProfile) : BillingProfile :=
  mkBillingProfile (pr_id p) (pr_partnerId p) (pr_name p) (pr_notes p) (pr_currencyCode p) b (pr_isActive p)
    (pr_roundingIncrementMinutes p) (pr_baseCoverage p) (pr_baseHourlyRate p) (pr_baseMinimumMinutes p).

(** The row the column types and the checks of the table accept. *)
Definition accept_profile (p : BillingProfile) : RateM BillingProfile :=
  do! rate := lift (pg_numeric10_opt (pr_baseHourlyRate p)) in
  do! _ := lift (pg_int4 [pr_roundingIncrementMinutes p; pr_baseMinimumMinutes p]) in
  let p := with_rate rate p in
  do! _ := pg_check (profile_chk p) in
  ret p.

Definition pg_foreign_key {T} (b : bool) : St T unit := if b then ret tt else lift (Err (Thrown "foreign key violation")).

Definition unique_violation : Failure := Thrown "unique violation".

(** What a caller makes of a unique violation. *)
Definition map_unique {A} (code : ErrorCode) (x : RateM A) : RateM A := fun d =>
  match x d with
  | Err (Thrown m) => if String.eqb m "unique violation" then Err (Refused code) else Err (Thrown m)
  | r => r
  end.

(** An update of one row. *)
Definition write_profile (p : BillingProfile) : RateM BillingProfile :=
  do! p := accept_profile p in
  do! ps := read rd_profiles in
  do! _ := if profile_free p ps then ret tt else lift (Err unique_violation) in
  do! codes := read rd_currencies in
  do! _ := pg_foreign_key (str_mem (pr_currencyCode p) codes) in
  do! _ := modify (set_profiles (map (fun q => if String.eqb (pr_id q) (pr_id p) then p else q) ps)) in
  ret p.

(** ** Callers *)

Inductive Scope := sc_system | sc_partner | sc_organization.
Inductive OrgAccess := oa_all | oa_selected | oa_none.

Record WorkTypeCaller := mkCaller { wc_scope : Scope; wc_partnerOrgAccess : option OrgAccess }.

Definition canManagePartnerWidePolicies (auth : WorkTypeCaller) : bool :=
  match wc_scope auth, wc_partnerOrgAccess auth with
  | sc_system, _ => true
  | sc_partner, Some oa_all => true
  | _, _ => false
  end.

Definition assertWriter (caller : WorkTypeCaller) : RateM unit := require (canManagePartnerWidePolicies caller) PARTNER_WIDE_WRITE_DENIED.

(** ** Requests *)

Definition is_upper (c : ascii) : bool := let n := Ascii.nat_of_ascii c in Nat.leb 65 n && Nat.leb n 90.

(** /^[A-Z]{3}$/ and /^\d{1,8}(\.\d{1,2})?$/. *)
Definition currency_shape (s : string) : bool :=
  match s with String a (String b (String c EmptyString)) => is_upper a && is_upper b && is_upper c | _ => false end.

Definition rate_shape (s : string) : bool :=
  let '(whole, rest) := span_digits s in
  (1 <=? slen whole) && (slen whole <=? 8) &&
  match rest with
  | EmptyString => true
  | String "." cents => all_digits cents && (1 <=? slen cents) && (slen cents <=? 2)
  | _ => false
  end.

Definition opt_holds {A} (f : A -> bool) (x : option A) : bool := match x with Some a => f a | None => true end.

Definition rate_valid (r : option string) : bool := opt_holds rate_shape r.
Definition minimum_valid (m : option Z) : bool := opt_holds (fun z => (0 <=? z) && (z <=? 2147483647)) m.
Definition rounding_valid (i : option Z) : bool := opt_holds (fun z => (1 <=? z) && (z <=? 480)) i.
Definition notes_valid (n : option string) : bool := opt_holds (fun s => slen s <=? 4000) n.
Definition name_valid (trimmed : string) : bool := (1 <=? slen trimmed) && (slen trimmed <=? 120).

Record RowInput := mkRow {
  ri_workTypeId : string; ri_coverage : BillCoverage; ri_hourlyRate : option string; ri_minimumMinutes : option Z;
  ri_notes : option (option string) }.

Definition profileRowSchema (r : RowInput) : bool :=
  rate_valid (ri_hourlyRate r) && minimum_valid (ri_minimumMinutes r) && opt_holds notes_valid (ri_notes r) &&
  unpriced_unless_billable (ri_coverage r) (ri_hourlyRate r) (ri_minimumMinutes r).

Definition profileRowsSchema (rows : list RowInput) : bool := (Z.of_nat (List.length rows) <=? 1000) && forallb profileRowSchema rows.

(** A field of a patch is absent, or present and perhaps null. *)
Record UpdateProfileInput := mkUpdateProfile {
  up_name : option string; up_notes : option (option string); up_currencyCode : option string; up_baseCoverage : option BillCoverage;
  up_baseHourlyRate : option (option string); up_baseMinimumMinutes : option (option Z);
  up_roundingIncrementMinutes : option (option Z); up_isDefault : option bool; up_isActive : option bool }.

Definition fields_valid (i : UpdateProfileInput) : bool :=
  opt_holds name_valid (up_name i) && opt_holds notes_valid (up_notes i) && opt_holds currency_shape (up_currencyCode i) &&
  opt_holds rate_valid (up_baseHourlyRate i) && opt_holds minimum_valid (up_baseMinimumMinutes i) &&
  opt_holds rounding_valid (up_roundingIncrementMinutes i).

Definition trimmed_name (i : UpdateProfileInput) : UpdateProfileInput :=
  mkUpdateProfile (option_map trim (up_name i)) (up_notes i) (up_currencyCode i) (up_baseCoverage i) (up_baseHourlyRate i)
    (up_baseMinimumMinutes i) (up_roundingIncrementMinutes i) (up_isDefault i) (up_isActive i).

Definition no_fields (i : UpdateProfileInput) : bool :=
  negb (present (up_name i) || present (up_notes i) || present (up_currencyCode i) || present (up_baseCoverage i) || present (up_baseHourlyRate i) ||
        present (up_baseMinimumMinutes i) || present (up_roundingIncrementMinutes i) || present (up_isDefault i) || present (up_isActive i)).

(** What a request parses to; the name is trimmed. *)
Definition parsed {A} (r : option A) : RateM A := match r with Some a => ret a | None => fail INVALID_PROFILE end.

Definition updateProfileSchema (i : UpdateProfileInput) : option UpdateProfileInput :=
  let i := trimmed_name i in if fields_valid i && negb (no_fields i) then Some i else None.

Record CreateProfileInput := mkCreateProfile {
  cr_name : string; cr_notes : option (option string); cr_currencyCode : string; cr_baseCoverage : BillCoverage;
  cr_baseHourlyRate : option (option string); cr_baseMinimumMinutes : option (option Z);
  cr_roundingIncrementMinutes : option (option Z); cr_isDefault : option bool; cr_rows : option (list RowInput) }.

Definition create_fields (i : CreateProfileInput) : UpdateProfileInput :=
  mkUpdateProfile (Some (cr_name i)) (cr_notes i) (Some (cr_currencyCode i)) (Some (cr_baseCoverage i)) (cr_baseHourlyRate i)
    (cr_baseMinimumMinutes i) (cr_roundingIncrementMinutes i) (cr_isDefault i) None.

Definition createProfileSchema (i : CreateProfileInput) : option CreateProfileInput :=
  if fields_valid (trimmed_name (create_fields i)) && opt_holds profileRowsSchema (cr_rows i)
  then Some (mkCreateProfile (trim (cr_name i)) (cr_notes i) (cr_currencyCode i) (cr_baseCoverage i) (cr_baseHourlyRate i)
               (cr_baseMinimumMinutes i) (cr_roundingIncrementMinutes i) (cr_isDefault i) (cr_rows i))
  else None.

(** The whole drawer: name, currency and coverage are required, a default flag
    is refused. *)
Record SaveProfileInput := mkSaveProfile {
  sv_name : string; sv_notes : option (option string); sv_currencyCode : string; sv_baseCoverage : BillCoverage;
  sv_baseHourlyRate : option (option string); sv_baseMinimumMinutes : option (option Z);
  sv_roundingIncrementMinutes : option (option Z); sv_rows : list RowInput }.

Definition save_changes (i : SaveProfileInput) : UpdateProfileInput :=
  mkUpdateProfile (Some (trim (sv_name i))) (sv_notes i) (Some (sv_currencyCode i)) (Some (sv_baseCoverage i)) (sv_baseHourlyRate i)
    (sv_baseMinimumMinutes i) (sv_roundingIncrementMinutes i) None None.

Definition saveProfileSchema (i : SaveProfileInput) : option (UpdateProfileInput * list RowInput) :=
  if fields_valid (save_changes i) && profileRowsSchema (sv_rows i) then Some (save_changes i, sv_rows i) else None.

(** ** Guards and lookups *)

Definition validateRate (rate : option string) (currency : string) : RateM unit :=
  match rate with Some r => require (isRepresentableInCurrency (Str r) currency) INVALID_RATE | None => ret tt end.

Definition validateBase (p : BillingProfile) : RateM unit :=
  do! _ := require (unpriced_unless_billable (pr_baseCoverage p) (pr_baseHourlyRate p) (pr_baseMinimumMinutes p)) INVALID_PROFILE in
  validateRate (pr_baseHourlyRate p) (pr_currencyCode p).

Definition assertCurrency (currency : string) : RateM unit :=
  do! codes := read rd_currencies in require (str_mem currency codes) INVALID_CURRENCY.

Definition is_profile (id partnerId : string) (p : BillingProfile) : bool := String.eqb (pr_id p) id && String.eqb (pr_partnerId p) partnerId.

Definition profileById (id partnerId : string) : RateM BillingProfile :=
  do! ps := read rd_profiles in
  match List.find (is_profile id partnerId) ps with Some p => ret p | None => fail PROFILE_NOT_FOUND end.

Definition rule_of (p : BillingProfile) (r : ProfileRule) : bool :=
  String.eqb (ru_billingProfileId r) (pr_id p) && String.eqb (ru_partnerId r) (pr_partnerId p).

Definition withRules (p : BillingProfile) : RateM (list ProfileRule) := read (fun d => List.filter (rule_of p) (rd_rules d)).

(** ** Writes *)

Definition switchDefault (p : BillingProfile) : RateM BillingProfile :=
  do! _ := require (pr_isActive p) PROFILE_INACTIVE in
  do! _ := modify (fun d => set_profiles (map (fun q =>
       if String.eqb (pr_partnerId q) (pr_partnerId p) && String.eqb (pr_currencyCode q) (pr_currencyCode p) && pr_isDefault q
       then with_default false q else q) (rd_profiles d)) d) in
  do! q := profileById (pr_id p) (pr_partnerId p) in
  write_profile (with_default true q).

Definition rule_chk (r : ProfileRule) : bool := unpriced_unless_billable (ru_coverage r) (ru_hourlyRate r) (ru_minimumMinutes r).

Definition work_type_of (partnerId : string) (id : string) (t : WorkType) : bool := String.eqb (wt_partnerId t) partnerId && String.eqb (wt_id t) id.

(** One inserted row of a card: column types, check, the unique pair and the two
    composite foreign keys. *)
Definition insert_rule (r : ProfileRule) : RateM unit :=
  do! rate := lift (pg_numeric10_opt (ru_hourlyRate r)) in
  do! _ := lift (pg_int4 [ru_minimumMinutes r]) in
  let r := mkProfileRule (ru_partnerId r) (ru_billingProfileId r) (ru_workTypeId r) (ru_coverage r) rate (ru_minimumMinutes r) (ru_notes r) in
  do! _ := pg_check (rule_chk r) in
  do! rs := read rd_rules in
  do! _ := if existsb (fun x => String.eqb (ru_billingProfileId x) (ru_billingProfileId r) && String.eqb (ru_workTypeId x) (ru_workTypeId r)) rs
           then lift (Err unique_violation) else ret tt in
  do! ps := read rd_profiles in
  do! _ := pg_foreign_key (existsb (is_profile (ru_billingProfileId r) (ru_partnerId r)) ps) in
  do! ts := read rd_workTypes in
  do! _ := pg_foreign_key (existsb (work_type_of (ru_partnerId r) (ru_workTypeId r)) ts) in
  modify (set_rules (rs ++ [r])%list).

Definition row_rule (p : BillingProfile) (r : RowInput) : ProfileRule :=
  mkProfileRule (pr_partnerId p) (pr_id p) (ri_workTypeId r) (ri_coverage r) (ri_hourlyRate r) (ri_minimumMinutes r) (flat (ri_notes r)).

Fixpoint distinct_types (rows : list RowInput) : bool :=
  match rows with [] => true | r :: rest => negb (existsb (fun x => String.eqb (ri_workTypeId x) (ri_workTypeId r)) rest) && distinct_types rest end.

Definition known_types (partnerId : string) (rows : list RowInput) (ts : list WorkType) : list WorkType :=
  List.filter (fun t => String.eqb (wt_partnerId t) partnerId && str_mem (wt_id t) (map ri_workTypeId rows)) ts.

Definition replaceRows (p : BillingProfile) (rows : list RowInput) : RateM (BillingProfile * list RowInput) :=
  do! _ := require (distinct_types rows) DUPLICATE_WORK_TYPE in
  do! ts := read rd_workTypes in
  do! _ := require (Nat.eqb (List.length (known_types (pr_partnerId p) rows ts)) (List.length rows)) WORK_TYPE_NOT_FOUND in
  do! _ := for_each (fun r => validateRate (ri_hourlyRate r) (pr_currencyCode p)) rows in
  do! _ := modify (fun d => set_rules (List.filter (fun r => negb (rule_of p r)) (rd_rules d)) d) in
  do! _ := for_each (fun r => insert_rule (row_rule p r)) rows in
  ret (p, rows).

(** [{ ...profile, ...data }] less the default flag. *)
Definition patched (data : UpdateProfileInput) (p : BillingProfile) : BillingProfile :=
  mkBillingProfile (pr_id p) (pr_partnerId p) (from_option_default (up_name data) (pr_name p)) (from_option_default (up_notes data) (pr_notes p))
    (from_option_default (up_currencyCode data) (pr_currencyCode p)) (pr_isDefault p) (from_option_default (up_isActive data) (pr_isActive p))
    (from_option_default (up_roundingIncrementMinutes data) (pr_roundingIncrementMinutes p))
    (from_option_default (up_baseCoverage data) (pr_baseCoverage p)) (from_option_default (up_baseHourlyRate data) (pr_baseHourlyRate p))
    (from_option_default (up_baseMinimumMinutes data) (pr_baseMinimumMinutes p)).

Definition moves_currency (data : UpdateProfileInput) (p : BillingProfile) : bool :=
  match up_currencyCode data with Some c => negb (String.eqb c (pr_currencyCode p)) | None => false end.

Definition is_false (b : option bool) : bool := match b with Some false => true | _ => false end.

Definition updateProfileInTransaction (id partnerId : string) (data : UpdateProfileInput) : RateM BillingProfile :=
  do! p := profileById id partnerId in
  do! _ := require (negb (pr_isDefault p && pr_isActive p && (is_false (up_isActive data) || is_false (up_isDefault data) || moves_currency data p)))
             DEFAULT_PROFILE_REQUIRED in
  do! _ := match truthy (up_currencyCode data) with
           | Some c => if String.eqb c (pr_currencyCode p) then ret tt else
               do! rules := withRules p in
               do! _ := require (negb (present (pr_baseHourlyRate p)) && forallb (fun r => negb (present (ru_hourlyRate r))) rules) PROFILE_CURRENCY_LOCKED in
               assertCurrency c
           | None => ret tt
           end in
  do! _ := validateBase (patched data p) in
  do! updated := write_profile (patched data p) in
  match up_isDefault data with
  | Some true => switchDefault updated
  | _ => ret updated
  end.

Definition mapProfileWriteError {A} (x : RateM A) : RateM A := map_unique PROFILE_NAME_TAKEN x.

Definition updateProfile (caller : WorkTypeCaller) (id partnerId : string) (input : UpdateProfileInput) : RateM BillingProfile :=
  do! _ := assertWriter caller in
  do! data := parsed (updateProfileSchema input) in
  mapProfileWriteError (updateProfileInTransaction id partnerId data).

Definition saveProfile (caller : WorkTypeCaller) (id partnerId : string) (input : SaveProfileInput) : RateM (BillingProfile * list RowInput) :=
  do! _ := assertWriter caller in
  do! (changes, rows) := parsed (saveProfileSchema input) in
  mapProfileWriteError (do! p := updateProfileInTransaction id partnerId changes in replaceRows p rows).

Definition replaceProfileRows (caller : WorkTypeCaller) (id partnerId : string) (rows : list RowInput) : RateM (BillingProfile * list RowInput) :=
  do! _ := assertWriter caller in
  do! data := parsed (if profileRowsSchema rows then Some rows else None) in
  do! p := profileById id partnerId in
  replaceRows p data.

Definition setDefaultProfile (caller : WorkTypeCaller) (id partnerId : string) : RateM BillingProfile :=
  do! _ := assertWriter caller in
  map_unique PROFILE_DEFAULT_CONFLICT (do! p := profileById id partnerId in switchDefault p).

Section Minting.
Context `{Uuids}.

Definition mint_rate : RateM string := fun d => Ok (uuid (rd_next d), bump_next d).

(** INSERT ... ON CONFLICT DO NOTHING RETURNING. *)
Definition insert_or_nothing (values : string -> BillingProfile) : RateM (option BillingProfile) :=
  do! id := mint_rate in
  do! p := accept_profile (values id) in
  do! ps := read rd_profiles in
  if profile_free p ps then
    do! codes := read rd_currencies in
    do! _ := pg_foreign_key (str_mem (pr_currencyCode p) codes) in
    do! _ := modify (set_profiles (ps ++ [p])%list) in
    ret (Some p)
  else ret None.

Definition insertProfile (values : string -> BillingProfile) : RateM BillingProfile :=
  do! created := insert_or_nothing values in
  match created with Some p => ret p | None => fail PROFILE_NAME_TAKEN end.

Definition created_values (partnerId : string) (data : CreateProfileInput) (id : string) : BillingProfile :=
  mkBillingProfile id partnerId (cr_name data) (flat (cr_notes data)) (cr_currencyCode data) false true (flat (cr_roundingIncrementMinutes data))
    (cr_baseCoverage data) (flat (cr_baseHourlyRate data)) (flat (cr_baseMinimumMinutes data)).

Definition createProfile (caller : WorkTypeCaller) (partnerId : string) (input : CreateProfileInput) : RateM BillingProfile :=
  do! _ := assertWriter caller in
  do! data := parsed (createProfileSchema input) in
  do! _ := assertCurrency (cr_currencyCode data) in
  do! _ := validateBase (created_values partnerId data EmptyString) in
  do! p := insertProfile (created_values partnerId data) in
  do! _ := match cr_rows data with Some rows => discard (replaceRows p rows) | None => ret tt end in
  match cr_isDefault data with Some true => switchDefault p | _ => ret p end.

Definition cloned_values (original : BillingProfile) (name id : string) : BillingProfile :=
  mkBillingProfile id (pr_partnerId original) name (pr_notes original) (pr_currencyCode original) false true (pr_roundingIncrementMinutes original)
    (pr_baseCoverage original) (pr_baseHourlyRate original) (pr_baseMinimumMinutes original).

Definition cloned_rule (partnerId cloneId : string) (r : ProfileRule) : ProfileRule :=
  mkProfileRule partnerId cloneId (ru_workTypeId r) (ru_coverage r) (ru_hourlyRate r) (ru_minimumMinutes r) (ru_notes r).

Definition cloneProfile (caller : WorkTypeCaller) (id partnerId name : string) : RateM BillingProfile :=
  do! _ := assertWriter caller in
  do! cleanName := parsed (if name_valid (trim name) then Some (trim name) else None) in
  do! original := profileById id partnerId in
  do! rules := withRules original in
  do! clone := insertProfile (cloned_values original cleanName) in
  do! _ := for_each (fun r => insert_rule (cloned_rule partnerId (pr_id clone) r)) rules in
  ret clone.

(** ** The default card of a currency *)

Definition default_card (partnerId currencyCode : string) (p : BillingProfile) : bool :=
  String.eqb (pr_partnerId p) partnerId && String.eqb (pr_currencyCode p) currencyCode && pr_isDefault p && pr_isActive p.

Definition default_name (currencyCode : string) (suffix : nat) : string :=
  match suffix with
  | O => "Standard rates"
  | S O => "Standard rates (" ++ currencyCode ++ ")"
  | _ => "Standard rates (" ++ currencyCode ++ " " ++ print_dec (Z.of_nat suffix) ++ ")"
  end.

Definition default_values (partnerId currencyCode name id : string) : BillingProfile :=
  mkBillingProfile id partnerId name None currencyCode true true None cov_billable None None.

(** The loop over suffixes, [None] when the fuel is spent. *)
Fixpoint ensure_loop (fuel suffix : nat) (partnerId currencyCode : string) : RateM (option BillingProfile) :=
  match fuel with
  | O => ret None
  | S fuel =>
      do! ps := read rd_profiles in
      match List.find (default_card partnerId currencyCode) ps with
      | Some existing => ret (Some existing)
      | None =>
          do! created := insert_or_nothing (default_values partnerId currencyCode (default_name currencyCode suffix)) in
          match created with
          | Some p => ret (Some p)
          | None => ensure_loop fuel (S suffix) partnerId currencyCode
          end
      end
  end.

(** With one round more than there are cards. *)
Definition ensureDefaultProfile (partnerId currencyCode : string) : RateM BillingProfile :=
  do! n := read (fun d => S (List.length (rd_profiles d))) in
  do! p := ensure_loop n 0 partnerId currencyCode in
  match p with Some p => ret p | None => lift (Err (Thrown "out of fuel")) end.

(** ** Organizations *)

Definition readStampingDefaults (orgId : string) : RateM string :=
  do! orgs := read rd_organizations in
  match orgs !! orgId with Some (_, currency) => ret currency | None => fail ORG_NOT_FOUND end.

Definition getOrgAssignment (orgId partnerId : string) (d : RateDb) : option Assignment :=
  match rd_assignments d !! orgId with
  | Some a => if String.eqb (as_partnerId a) partnerId then Some a else None
  | None => None
  end.

(** The upsert leaves an assignment of another partner alone. *)
Definition assignProfileToOrg (orgId partnerId profileId assignedBy : string) : RateM Assignment :=
  do! currencyCode := readStampingDefaults orgId in
  do! p := profileById profileId partnerId in
  do! _ := require (pr_isActive p) PROFILE_NOT_FOUND in
  do! _ := require (String.eqb (pr_currencyCode p) currencyCode) PROFILE_CURRENCY_MISMATCH in
  do! orgs := read rd_organizations in
  do! _ := require (match orgs !! orgId with Some (owner, _) => String.eqb owner partnerId | None => false end) ORG_NOT_FOUND in
  do! rows := read rd_assignments in
  do! _ := require (match rows !! orgId with Some a => String.eqb (as_partnerId a) partnerId | None => true end) ORG_NOT_FOUND in
  let a := mkAssignment partnerId profileId (Some assignedBy) in
  do! _ := modify (set_assignments (<[orgId := a]> rows)) in
  ret a.

Definition clearOrgAssignment (orgId partnerId : string) : RateM unit :=
  modify (fun d => match getOrgAssignment orgId partnerId d with Some _ => set_assignments (delete orgId (rd_assignments d)) d | None => d end).

(** Creating an organization: the partner's currency, and its default card. *)
Definition insertOrganization (partnerId : string) : RateM string :=
  do! partners := read rd_partners in
  match partners !! partnerId with
  | None => fail PARTNER_UNRESOLVABLE
  | Some currencyCode =>
      do! id := mint_rate in
      do! _ := modify (fun d => set_organizations (<[id := (partnerId, currencyCode)]> (rd_organizations d)) d) in
      do! _ := ensureDefaultProfile partnerId currencyCode in
      ret id
  end.

Inductive CurrencyOutcome := co_stale | co_noop | co_changed.

Definition requireOrg (actor : InvoiceActor) (orgId : string) : RateM unit :=
  require (match ac_accessibleOrgIds actor with Some ids => str_mem orgId ids | None => true end) ORG_DENIED.

(** The locked section of [changeOrgCurrency]: the outcome and the currency the
    locked row had. *)
Definition change_currency (orgId currencyCode expectedCurrentCurrencyCode : string) (confirmSnapshotRetention : option bool) (actor : InvoiceActor)
    : RateM (CurrencyOutcome * string) :=
  do! orgs := read rd_organizations in
  match orgs !! orgId with
  | None => fail ORG_NOT_FOUND
  | Some (partnerId, locked) =>
      do! _ := requireOrg actor orgId in
      if negb (String.eqb locked expectedCurrentCurrencyCode) then ret (co_stale, locked)
      else if String.eqb locked currencyCode then ret (co_noop, locked)
      else
        do! _ := require (match confirmSnapshotRetention with Some true => true | _ => false end) CONFIRMATION_REQUIRED in
        do! _ := ensureDefaultProfile partnerId currencyCode in
        do! _ := modify (fun d => set_organizations (<[orgId := (partnerId, currencyCode)]> (rd_organizations d)) d) in
        ret (co_changed, locked)
  end.

(** ** Work types *)

Definition work_type_free (t : WorkType) (ts : list WorkType) : bool :=
  forallb (fun u => String.eqb (wt_id u) (wt_id t) || negb (String.eqb (wt_partnerId u) (wt_partnerId t) && String.eqb (lower (wt_name u)) (lower (wt_name t)))) ts.

Definition createWorkType (caller : WorkTypeCaller) (partnerId name : string) (sortOrder : option Z) : RateM WorkType :=
  do! _ := assertWriter caller in
  do! id := mint_rate in
  let t := mkWorkType id partnerId name (from_option_default sortOrder 0) true in
  do! ts := read rd_workTypes in
  do! _ := require (work_type_free t ts) WORK_TYPE_NAME_TAKEN in
  do! _ := modify (set_workTypes (ts ++ [t])%list) in
  ret t.

Definition updateWorkType (caller : WorkTypeCaller) (id partnerId : string) (name : option string) (sortOrder : option Z) (isActive : option bool)
    : RateM WorkType :=
  do! _ := assertWriter caller in
  do! ts := read rd_workTypes in
  match List.find (work_type_of partnerId id) ts with
  | None => fail WORK_TYPE_NOT_FOUND
  | Some t =>
      let t := mkWorkType (wt_id t) (wt_partnerId t) (from_option_default name (wt_name t)) (from_option_default sortOrder (wt_sortOrder t))
                 (from_option_default isActive (wt_isActive t)) in
      do! _ := require (work_type_free t ts) WORK_TYPE_NAME_TAKEN in
      do! _ := modify (set_workTypes (map (fun u => if String.eqb (wt_id u) id then t else u) ts)) in
      ret t
  end.

Definition defaults_to (partnerId id : string) (c : Category) : bool :=
  String.eqb (cg_partnerId c) partnerId && opt_eqb (cg_defaultWorkTypeId c) (Some id).

Definition archiveWorkType (caller : WorkTypeCaller) (id partnerId : string) : RateM (WorkType * nat) :=
  do! _ := assertWriter caller in
  do! ts := read rd_workTypes in
  match List.find (work_type_of partnerId id) ts with
  | None => fail WORK_TYPE_NOT_FOUND
  | Some t =>
      let t := mkWorkType (wt_id t) (wt_partnerId t) (wt_name t) (wt_sortOrder t) false in
      do! _ := modify (set_workTypes (map (fun u => if String.eqb (wt_id u) id then t else u) ts)) in
      do! cs := read rd_categories in
      do! _ := modify (set_categories ((fun c => if defaults_to partnerId id c then mkCategory (cg_partnerId c) None else c) <$> cs)) in
      ret (t, List.length (List.filter (fun kc => defaults_to partnerId id (snd kc)) (map_to_list cs)))
  end.

End Minting.

(** ** What the time entry service reads of these tables *)

Definition card_rule (r : ProfileRule) : CardRule := mkCardRule (ru_workTypeId r) (ru_coverage r) (ru_hourlyRate r) (ru_minimumMinutes r).

Definition card_of (d : RateDb) (p : BillingProfile) : Profile :=
  mkProfile (pr_partnerId p) (pr_isActive p) (pr_isDefault p)
    (mkCard (pr_id p) (pr_currencyCode p) (pr_roundingIncrementMinutes p) (pr_baseCoverage p) (pr_baseHourlyRate p) (pr_baseMinimumMinutes p)
       (map card_rule (List.filter (rule_of p) (rd_rules d)))).

(** Its reference tables, with the tickets of the service desk. *)
Definition time_ref (tickets : gmap string Ticket) (d : RateDb) : TimeRef :=
  mkTimeRef tickets (rd_organizations d) (cg_defaultWorkTypeId <$> rd_categories d) (rd_partners d)
    (list_to_map (map (fun t => (wt_id t, (wt_partnerId t, wt_isActive t))) (rd_workTypes d)))
    (map (card_of d) (rd_profiles d))
    (list_to_map (map (fun oa => ((fst oa, as_partnerId (snd oa)), as_billingProfileId (snd oa))) (map_to_list (rd_assignments d)))).
