(* ===== verification/RateCardSafety.v ===== *)
(** * What the rate card service keeps

    The invariant [Cards] of the card tables, kept by every operation: names and
    defaults are unique, a default is active, every rate is in whole minor units
    of its card's currency, and every organization has a default card in its own
    currency. [evolved] is what one operation leaves of the tables: a default
    once there is never lost. *)

From S2P Require Import Prelude JsString JsNumber Currency TimeBilling CatalogPricing ContractCoverage BillingDb InvoiceService QuoteDb InvoiceInvariants TimeEntries TimeEntrySafety RateCards.
From stdpp Require Import base gmap strings list.

Local Open Scope string_scope.
Local Open Scope Z_scope.
Local Open Scope billing_scope.

(** ** Rows in order *)

(** A price a card carries: stored, in the currency, and only on billable work. *)
Record priced_ok (currency : string) (c : BillCoverage) (rate : option string) (minimum : option Z) : Prop := {
  pk_stored : pg_numeric10_opt rate = Ok rate;
  pk_rate : forall r, rate = Some r -> representable r currency;
  pk_minimum : minimum_valid minimum = true;
  pk_billable : unpriced_unless_billable c rate minimum = true }.

Record profile_ok (codes : list string) (p : BillingProfile) : Prop := {
  fo_price : priced_ok (pr_currencyCode p) (pr_baseCoverage p) (pr_baseHourlyRate p) (pr_baseMinimumMinutes p);
  fo_chk : profile_chk p = true;
  fo_default : pr_isDefault p = true -> pr_isActive p = true;
  fo_currency : str_mem (pr_currencyCode p) codes = true }.

(** A row of a card: its card, in whose currency it is priced, and a work type of
    the partner. *)
Record rule_ok (ps : list BillingProfile) (ts : list WorkType) (r : ProfileRule) : Prop := {
  lo_card : exists p, In p ps /\ rule_of p r = true /\
    priced_ok (pr_currencyCode p) (ru_coverage r) (ru_hourlyRate r) (ru_minimumMinutes r);
  lo_type : existsb (work_type_of (ru_partnerId r) (ru_workTypeId r)) ts = true }.

(** No two rows the relation forbids. *)
Definition alone {A} (R : A -> A -> bool) (l : list A) : Prop := forall x y, In x l -> In y l -> R x y = true -> x = y.

Definition same_label (t u : WorkType) : bool :=
  String.eqb (wt_partnerId t) (wt_partnerId u) && String.eqb (lower (wt_name t)) (lower (wt_name u)).

Definition rule_key (r : ProfileRule) : string * string := (ru_billingProfileId r, ru_workTypeId r).

Definition has_default (partnerId currencyCode : string) (d : RateDb) : Prop :=
  exists p, In p (rd_profiles d) /\ default_card partnerId currencyCode p = true.

Section Safety.
Context `{Uuids}.

(** The tables themselves. *)
Record Tables (d : RateDb) : Prop := {
  rc_ids : List.NoDup (map pr_id (rd_profiles d));
  rc_fresh : forall n, (rd_next d <= n)%nat ->
    ~ In (uuid n) (map pr_id (rd_profiles d)) /\ rd_organizations d !! uuid n = None /\ ~ In (uuid n) (map wt_id (rd_workTypes d));
  rc_names : alone same_name (rd_profiles d);
  rc_defaults : alone both_default (rd_profiles d);
  rc_profiles : forall p, In p (rd_profiles d) -> profile_ok (rd_currencies d) p;
  rc_rules : forall r, In r (rd_rules d) -> rule_ok (rd_profiles d) (rd_workTypes d) r;
  rc_rule_keys : List.NoDup (map rule_key (rd_rules d));
  rc_assigned : forall o a, rd_assignments d !! o = Some a ->
    (exists currency, rd_organizations d !! o = Some (as_partnerId a, currency)) /\
    existsb (is_profile (as_billingProfileId a) (as_partnerId a)) (rd_profiles d) = true;
  rc_types : List.NoDup (map wt_id (rd_workTypes d));
  rc_labels : alone same_label (rd_workTypes d) }.

(** With a default card for every organization. *)
Record Cards (d : RateDb) : Prop := {
  ca_tables : Tables d;
  ca_organizations : forall o partnerId currencyCode, rd_organizations d !! o = Some (partnerId, currencyCode) -> has_default partnerId currencyCode d }.

Record evolved (d d' : RateDb) : Prop := {
  ed_tables : Tables d';
  ed_defaults : forall partnerId currencyCode, has_default partnerId currencyCode d -> has_default partnerId currencyCode d';
  ed_organizations : rd_organizations d' = rd_organizations d;
  ed_currencies : rd_currencies d' = rd_currencies d }.

Lemma evolved_refl d : Tables d -> evolved d d.
Proof. intros T. constructor; auto. Qed.

Lemma evolved_trans d d1 d2 : evolved d d1 -> evolved d1 d2 -> evolved d d2.
Proof. intros [] []. constructor; [assumption|auto|congruence|congruence]. Qed.

Lemma evolved_Cards d d' : Cards d -> evolved d d' -> Cards d'.
Proof. intros [T O] []. constructor; [assumption|]. intros o p c E. apply ed_defaults0, (O o). congruence. Qed.

(** ** Lists with a row replaced *)

Lemma same_name_sym p q : same_name p q = same_name q p.
Proof. unfold same_name. rewrite (String.eqb_sym (pr_partnerId p)), (String.eqb_sym (lower (pr_name p))). reflexivity. Qed.

Lemma both_default_sym p q : both_default p q = both_default q p.
Proof.
  unfold both_default. rewrite (String.eqb_sym (pr_partnerId p)), (String.eqb_sym (pr_currencyCode p)).
  destruct (String.eqb _ _), (String.eqb _ _), (pr_isDefault p), (pr_isActive p), (pr_isDefault q), (pr_isActive q); reflexivity.
Qed.

Definition put {A} (id : A -> string) (p : A) (l : list A) : list A := map (fun x => if String.eqb (id x) (id p) then p else x) l.

Lemma put_ids {A} (id : A -> string) p l : map id (put id p l) = map id l.
Proof. unfold put. rewrite map_map. apply map_ext. intros x. destruct (String.eqb_spec (id x) (id p)); congruence. Qed.

Lemma put_in {A} (id : A -> string) p l x : In x l -> id x <> id p -> In x (put id p l).
Proof. intros Hx N. unfold put. apply in_map_iff. exists x. destruct (String.eqb_spec (id x) (id p)); [contradiction|auto]. Qed.

Lemma put_here {A} (id : A -> string) p l q : In q l -> id q = id p -> In p (put id p l).
Proof. intros Hq E. unfold put. apply in_map_iff. exists q. rewrite E, String.eqb_refl. auto. Qed.

Lemma put_alone {A} (id : A -> string) (R : A -> A -> bool) p l :
  (forall x y, R x y = R y x) -> alone R l -> (forall x, In x l -> id x <> id p -> R p x = false) -> alone R (put id p l).
Proof.
  intros S L F x y Hx Hy E. destruct (in_put _ _ _ _ Hx) as [->|[Hx1 Nx]], (in_put _ _ _ _ Hy) as [->|[Hy1 Ny]].
  - reflexivity.
  - rewrite (F _ Hy1 Ny) in E. discriminate.
  - rewrite S, (F _ Hx1 Nx) in E. discriminate.
  - exact (L x y Hx1 Hy1 E).
Qed.

Lemma snoc_alone {A} (R : A -> A -> bool) p l :
  (forall x y, R x y = R y x) -> alone R l -> (forall x, In x l -> R p x = false) -> alone R (l ++ [p]).
Proof.
  intros S L F x y Hx Hy E. apply in_app_or in Hx as [Hx|[<-|[]]], Hy as [Hy|[<-|[]]].
  - exact (L x y Hx Hy E).
  - rewrite S, (F _ Hx) in E. discriminate.
  - rewrite (F _ Hy) in E. discriminate.
  - reflexivity.
Qed.

Lemma profile_free_spec p ps : profile_free p ps = true -> forall x, In x ps -> pr_id x <> pr_id p -> same_name p x = false /\ both_default p x = false.
Proof.
  unfold profile_free. rewrite forallb_forall. intros F x Hx N. specialize (F x Hx). destruct (String.eqb_spec (pr_id x) (pr_id p)); [contradiction|].
  cbn in F. breflect. auto.
Qed.

Lemma is_profile_spec id pn p : is_profile id pn p = true <-> pr_id p = id /\ pr_partnerId p = pn.
Proof. unfold is_profile. rewrite andb_true_iff, !String.eqb_eq. tauto. Qed.

Lemma rule_of_spec p r : rule_of p r = true <-> ru_billingProfileId r = pr_id p /\ ru_partnerId r = pr_partnerId p.
Proof. unfold rule_of. rewrite andb_true_iff, !String.eqb_eq. tauto. Qed.

Lemma default_card_spec pn c p : default_card pn c p = true <-> pr_partnerId p = pn /\ pr_currencyCode p = c /\ pr_isDefault p = true /\ pr_isActive p = true.
Proof. unfold default_card. rewrite !andb_true_iff, !String.eqb_eq. tauto. Qed.

Lemma existsb_map_same {A} (f : A -> bool) (g : A -> A) l : (forall x, f (g x) = f x) -> existsb f (map g l) = existsb f l.
Proof. intros E. induction l as [|x l IH]; cbn; [reflexivity|]. rewrite E, IH. reflexivity. Qed.

(** ** Cards edited in place *)

Definition unpriced_rules (d : RateDb) (p : BillingProfile) : Prop := forall r, In r (rd_rules d) -> rule_of p r = true -> ru_hourlyRate r = None.

Lemma repriced currency c m : unpriced_unless_billable c None m = true -> minimum_valid m = true -> priced_ok currency c None m.
Proof. intros U V. constructor; [reflexivity|discriminate|exact V|exact U]. Qed.

Lemma map_Tables d f :
  Tables d ->
  (forall p, In p (rd_profiles d) -> pr_id (f p) = pr_id p /\ pr_partnerId (f p) = pr_partnerId p /\ profile_ok (rd_currencies d) (f p) /\
     (pr_currencyCode (f p) = pr_currencyCode p \/ unpriced_rules d p)) ->
  alone same_name (map f (rd_profiles d)) -> alone both_default (map f (rd_profiles d)) -> Tables (set_profiles (map f (rd_profiles d)) d).
Proof.
  intros T Hf N D. assert (I : map pr_id (map f (rd_profiles d)) = map pr_id (rd_profiles d)).
  { rewrite map_map. apply map_ext_in. intros p Hp. apply Hf, Hp. }
  constructor; cbn; rewrite ?I; try apply T; try assumption.
  - intros p Hp. apply in_map_iff in Hp as (q & <- & Hq). apply Hf, Hq.
  - intros r Hr. destruct (rc_rules _ T r Hr) as [(p & Hp & Hrp & P) W]. constructor; [|exact W].
    destruct (Hf p Hp) as (E1 & E2 & _ & E3). exists (f p). split; [apply in_map, Hp|]. split; [rewrite rule_of_spec, E1, E2; apply rule_of_spec, Hrp|].
    destruct E3 as [->|U]; [exact P|]. destruct P as [_ _ V B]. rewrite (U r Hr Hrp) in B |- *. apply repriced; assumption.
  - intros o a Ha. destruct (rc_assigned _ T o a Ha) as [O E]. split; [exact O|]. apply existsb_exists in E as (p & Hp & E).
    apply existsb_exists. exists (f p). split; [apply in_map, Hp|]. destruct (Hf p Hp) as (E1 & E2 & _). rewrite is_profile_spec, E1, E2. apply is_profile_spec, E.
Qed.

Lemma accept_profile_ok p d p' d' :
  accept_profile p d = Ok (p', d') -> d' = d /\ exists rate, pg_numeric10_opt (pr_baseHourlyRate p) = Ok rate /\ p' = with_rate rate p /\ profile_chk p' = true.
Proof. unfold accept_profile. intros E. run_m. eauto 6. Qed.

Lemma foreign_key_ok {T} b (d : T) u d' : pg_foreign_key b d = Ok (u, d') -> b = true /\ d' = d.
Proof. unfold pg_foreign_key. destruct b; intros E; run_m; auto. discriminate. Qed.

Lemma write_profile_ok p d p' d' :
  write_profile p d = Ok (p', d') ->
  accept_profile p d = Ok (p', d) /\ profile_free p' (rd_profiles d) = true /\ str_mem (pr_currencyCode p') (rd_currencies d) = true /\
  d' = set_profiles (put pr_id p' (rd_profiles d)) d.
Proof.
  unfold write_profile. intros E. apply bind_ok in E as (q & d1 & G & E). destruct (accept_profile_ok _ _ _ _ G) as [-> _].
  apply bind_ok in E as (ps & d1 & G1 & E). apply read_ok in G1 as [-> ->]. apply bind_ok in E as (u & d1 & G2 & E).
  destruct (profile_free q (rd_profiles d)) eqn:F; [|discriminate]. apply ret_ok in G2 as [_ ->].
  apply bind_ok in E as (codes & d1 & G3 & E). apply read_ok in G3 as [-> ->]. apply bind_ok in E as (u1 & d1 & G4 & E).
  apply foreign_key_ok in G4 as [Hc ->]. run_m. auto.
Qed.

(** A price the service checked is in order once the columns took it. *)
Lemma accepted_price p d p' d' :
  accept_profile p d = Ok (p', d') -> (forall r, pr_baseHourlyRate p = Some r -> representable r (pr_currencyCode p)) ->
  minimum_valid (pr_baseMinimumMinutes p) = true ->
  priced_ok (pr_currencyCode p') (pr_baseCoverage p') (pr_baseHourlyRate p') (pr_baseMinimumMinutes p').
Proof.
  intros E R M. apply accept_profile_ok in E as (_ & rate & Er & -> & C). constructor; cbn.
  - exact (pg_numeric10_opt_idem _ _ Er).
  - exact (pg_numeric10_rate _ _ _ Er R).
  - exact M.
  - unfold profile_chk in C. cbn in C. breflect. assumption.
Qed.

Lemma write_evolved p q d p' d' :
  Tables d -> In q (rd_profiles d) -> pr_id p = pr_id q -> pr_partnerId p = pr_partnerId q ->
  (forall r, pr_baseHourlyRate p = Some r -> representable r (pr_currencyCode p)) -> minimum_valid (pr_baseMinimumMinutes p) = true ->
  (pr_isDefault p = true -> pr_isActive p = true) ->
  (pr_isDefault q = true -> pr_isDefault p = true /\ pr_isActive p = true /\ pr_currencyCode p = pr_currencyCode q) ->
  (pr_currencyCode p = pr_currencyCode q \/ unpriced_rules d q) ->
  write_profile p d = Ok (p', d') ->
  evolved d d' /\ In p' (rd_profiles d') /\ d' = set_profiles (put pr_id p' (rd_profiles d)) d /\ exists rate, p' = with_rate rate p.
Proof.
  intros T Hq Ei Ep R M A D C E. apply write_profile_ok in E as (G & F & Hc & ->). pose proof (accepted_price _ _ _ _ G R M) as P.
  apply accept_profile_ok in G as (_ & rate & Er & -> & K). set (p' := with_rate rate p) in *.
  pose proof (profile_free_spec _ _ F) as Fr. assert (Hin : In p' (put pr_id p' (rd_profiles d))) by (apply (put_here _ _ _ q Hq); symmetry; exact Ei).
  split; [|eauto]. constructor; [|intros pn cur (x & Hx & Dx)|reflexivity|reflexivity].
  - apply (map_Tables d (fun x => if String.eqb (pr_id x) (pr_id p') then p' else x) T).
    + intros x Hx. destruct (String.eqb_spec (pr_id x) (pr_id p')) as [Ex|Nx]; [|split; [reflexivity|split; [reflexivity|split; [apply T, Hx|left; reflexivity]]]].
      assert (x = q) as -> by (apply (unique_in pr_id (rd_profiles d)); [apply T|exact Hx|exact Hq|]; rewrite Ex; exact Ei).
      split; [exact Ei|split; [exact Ep|split; [|exact C]]]. constructor; assumption.
    + apply put_alone; [exact same_name_sym|apply T|]. intros x Hx N. apply Fr; assumption.
    + apply put_alone; [exact both_default_sym|apply T|]. intros x Hx N. apply Fr; assumption.
  - destruct (decide (pr_id x = pr_id p')) as [Ex|Nx]; [|exists x; split; [apply put_in; assumption|exact Dx]].
    assert (x = q) as -> by (apply (unique_in pr_id (rd_profiles d)); [apply T|exact Hx|exact Hq|]; rewrite Ex; exact Ei).
    exists p'. split; [exact Hin|]. apply default_card_spec in Dx as (D1 & D2 & D3 & _). apply default_card_spec. destruct (D D3) as (D5 & D6 & D7). cbn. intuition congruence.
Qed.

(** ** Changing the default *)

Lemma map_alone {A} (R : A -> A -> bool) f l : (forall x y, R (f x) (f y) = true -> R x y = true) -> alone R l -> alone R (map f l).
Proof.
  intros Hf L x y Hx Hy E. apply in_map_iff in Hx as (a & <- & Ha), Hy as (b & <- & Hb). f_equal. apply L; auto.
Qed.

Definition cleared (p q : BillingProfile) : BillingProfile :=
  if String.eqb (pr_partnerId q) (pr_partnerId p) && String.eqb (pr_currencyCode q) (pr_currencyCode p) && pr_isDefault q then with_default false q else q.

Lemma cleared_cases p q : cleared p q = q \/ cleared p q = with_default false q /\ pr_partnerId q = pr_partnerId p /\ pr_currencyCode q = pr_currencyCode p.
Proof.
  unfold cleared. destruct (_ && _) eqn:E; [|auto]. right. apply andb_true_iff in E as [E _]. rewrite andb_true_iff, !String.eqb_eq in E. tauto.
Qed.

Lemma cleared_ok codes p q : profile_ok codes q -> profile_ok codes (cleared p q).
Proof. intros K. destruct (cleared_cases p q) as [->|[-> _]]; [exact K|]. destruct K. constructor; try assumption. discriminate. Qed.

Lemma cleared_Tables p d : Tables d -> Tables (set_profiles (map (cleared p) (rd_profiles d)) d).
Proof.
  intros T. apply map_Tables; [exact T| | |].
  - intros q Hq. split; [|split; [|split; [apply cleared_ok, T, Hq|left]]]; destruct (cleared_cases p q) as [->|[-> _]]; reflexivity.
  - apply map_alone; [|apply T]. intros x y. destruct (cleared_cases p x) as [->|[-> _]], (cleared_cases p y) as [->|[-> _]]; exact (fun E => E).
  - apply map_alone; [|apply T]. intros x y. destruct (cleared_cases p x) as [->|[-> _]], (cleared_cases p y) as [->|[-> _]]; unfold both_default; cbn;
      rewrite ?andb_false_r; try discriminate; exact (fun E => E).
Qed.

Lemma profileById_ok id pn d p d' : profileById id pn d = Ok (p, d') -> d' = d /\ In p (rd_profiles d) /\ pr_id p = id /\ pr_partnerId p = pn.
Proof.
  unfold profileById. intros E. apply bind_ok in E as (ps & d1 & G & E). apply read_ok in G as [-> ->].
  destruct (List.find _ _) as [q|] eqn:F; [|discriminate]. apply ret_ok in E as [-> ->]. apply find_some in F as [Hq F]. apply is_profile_spec in F. tauto.
Qed.

Lemma switch_evolved p d p' d' :
  Tables d -> In p (rd_profiles d) -> switchDefault p d = Ok (p', d') -> evolved d d' /\ In p' (rd_profiles d') /\ default_card (pr_partnerId p) (pr_currencyCode p) p' = true /\ rd_rules d' = rd_rules d.
Proof.
  intros T Hp E. unfold switchDefault in E. apply bind_ok in E as (u & d1 & G & E). apply require_ok in G as [A ->].
  apply bind_ok in E as (u1 & d1 & G & E). apply modify_ok in G. pose proof (cleared_Tables p d T) as T1. fold (cleared p) in G. rewrite <- G in T1.
  apply bind_ok in E as (q & d2 & G2 & E). apply profileById_ok in G2 as (-> & Hq & Ei & Ep). pose proof (rc_profiles _ T1 q Hq) as K.
  assert (Eq : q = cleared p p).
  { apply (unique_in pr_id (rd_profiles d1)); [apply T1|exact Hq| |].
    - rewrite G. apply in_map, Hp.
    - rewrite Ei. destruct (cleared_cases p p) as [->|[-> _]]; reflexivity. }
  assert (B : pr_currencyCode q = pr_currencyCode p /\ pr_isActive q = pr_isActive p) by (rewrite Eq; destruct (cleared_cases p p) as [->|[-> _]]; auto).
  destruct B as [Ec Ea]. destruct (write_evolved (with_default true q) q d1 p' d') as (V & Hp' & -> & rate & ->); try assumption; try reflexivity; cbn.
  - apply K.
  - apply K.
  - congruence.
  - intros _. split; [reflexivity|split; [congruence|reflexivity]].
  - left. reflexivity.
  - split; [|split; [exact Hp'|split; [apply default_card_spec; cbn; intuition congruence|rewrite G; reflexivity]]].
    constructor; [apply V| |rewrite G; reflexivity|rewrite G; reflexivity].
    intros pn cur (x & Hx & Dx). destruct (cleared_cases p x) as [Ex|[_ [Ex1 Ex2]]].
    + apply (ed_defaults _ _ V). exists x. split; [rewrite G; cbn; rewrite <- Ex; apply in_map, Hx|exact Dx].
    + eexists. split; [exact Hp'|]. apply default_card_spec in Dx. apply default_card_spec. cbn. intuition congruence.
Qed.

(** ** New cards *)

Lemma bump_evolved d : Tables d -> evolved d (bump_next d).
Proof. intros T. constructor; [|auto|reflexivity|reflexivity]. constructor; try apply T. intros n Hn. cbn in Hn |- *. apply T. lia. Qed.

Lemma snoc_evolved p d :
  Tables d -> ~ In (pr_id p) (map pr_id (rd_profiles d)) -> (forall n, (rd_next d <= n)%nat -> uuid n <> pr_id p) ->
  profile_ok (rd_currencies d) p -> profile_free p (rd_profiles d) = true -> evolved d (set_profiles (rd_profiles d ++ [p])%list d).
Proof.
  intros T N U K F. assert (Fr : forall x, In x (rd_profiles d) -> same_name p x = false /\ both_default p x = false).
  { intros x Hx. apply (profile_free_spec _ _ F x Hx). intros Ex. apply N. rewrite <- Ex. apply in_map, Hx. }
  assert (L : forall x, In x (rd_profiles d) -> In x (rd_profiles d ++ [p])%list) by (intros x Hx; apply in_or_app; auto).
  constructor; [|intros pn cur (x & Hx & Dx); exists x; split; [apply L, Hx|exact Dx]|reflexivity|reflexivity].
  constructor; cbn; try apply T.
  - rewrite map_app. apply NoDup_end; [apply T|exact N].
  - intros n Hn. destruct (rc_fresh _ T n Hn) as (F1 & F2). split; [|exact F2]. rewrite map_app, in_app_iff. intros [Hi|[Hi|[]]]; [exact (F1 Hi)|].
    exact (U n Hn (eq_sym Hi)).
  - apply snoc_alone; [exact same_name_sym|apply T|apply Fr].
  - apply snoc_alone; [exact both_default_sym|apply T|apply Fr].
  - intros x Hx. apply in_app_or in Hx as [Hx|[<-|[]]]; [apply T, Hx|exact K].
  - intros r Hr. destruct (rc_rules _ T r Hr) as [(q & Hq & P) W]. constructor; [exists q; split; [apply L, Hq|exact P]|exact W].
  - intros o a Ha. destruct (rc_assigned _ T o a Ha) as [O E]. split; [exact O|]. rewrite existsb_app, E. reflexivity.
Qed.

Lemma mint_rate_ok d id d' : mint_rate d = Ok (id, d') -> id = uuid (rd_next d) /\ d' = bump_next d.
Proof. intros [= <- <-]. auto. Qed.

Lemma insert_evolved values d r d' :
  Tables d -> (forall id, pr_id (values id) = id) ->
  (forall id r, pr_baseHourlyRate (values id) = Some r -> representable r (pr_currencyCode (values id))) ->
  (forall id, minimum_valid (pr_baseMinimumMinutes (values id)) = true) ->
  (forall id, pr_isDefault (values id) = true -> pr_isActive (values id) = true) ->
  insert_or_nothing values d = Ok (r, d') ->
  evolved d d' /\ rd_rules d' = rd_rules d /\ rd_workTypes d' = rd_workTypes d /\
  forall p, r = Some p -> In p (rd_profiles d') /\ exists rate, p = with_rate rate (values (uuid (rd_next d))).
Proof.
  intros T Hid R M D E. unfold insert_or_nothing in E. apply bind_ok in E as (id & d1 & G & E). apply mint_rate_ok in G as [-> ->].
  pose proof (bump_evolved d T) as V. pose proof (ed_tables _ _ V) as T1. apply bind_ok in E as (p & d1 & G & E).
  pose proof (accepted_price _ _ _ _ G (R _) (M _)) as P. apply accept_profile_ok in G as (-> & rate & Er & -> & K).
  apply bind_ok in E as (ps & d1 & G & E). apply read_ok in G as [-> ->]. set (p := with_rate rate (values (uuid (rd_next d)))) in *.
  assert (Ei : pr_id p = uuid (rd_next d)) by apply Hid.
  destruct (profile_free p (rd_profiles (bump_next d))) eqn:F.
  - apply bind_ok in E as (codes & d1 & G & E). apply read_ok in G as [-> ->]. apply bind_ok in E as (u & d1 & G & E). apply foreign_key_ok in G as [Hc ->].
    apply bind_ok in E as (u1 & d1 & G & E). apply modify_ok in G. apply ret_ok in E as [-> ->].
    assert (V1 : evolved (bump_next d) d1).
    { rewrite G. apply snoc_evolved; [exact T1| | | |exact F].
      - rewrite Ei. apply T. lia.
      - rewrite Ei. intros n Hn En. apply (inj uuid) in En. cbn in Hn. lia.
      - constructor; [exact P|exact K|exact (D _)|exact Hc]. }
    split; [exact (evolved_trans _ _ _ V V1)|]. split; [rewrite G; reflexivity|split; [rewrite G; reflexivity|]].
    intros q [= <-]. split; [rewrite G; apply in_or_app; right; left; reflexivity|exists rate; reflexivity].
  - apply ret_ok in E as [-> ->]. split; [exact V|split; [reflexivity|split; [reflexivity|discriminate]]].
Qed.

(** ** The rows of a card *)

Lemma rules_Tables d rs :
  Tables d -> (forall r, In r rs -> rule_ok (rd_profiles d) (rd_workTypes d) r) -> List.NoDup (map rule_key rs) -> Tables (set_rules rs d).
Proof. intros T R N. constructor; try apply T; assumption. Qed.

Lemma rules_evolved d rs :
  Tables d -> (forall r, In r rs -> rule_ok (rd_profiles d) (rd_workTypes d) r) -> List.NoDup (map rule_key rs) -> evolved d (set_rules rs d).
Proof. intros T R N. constructor; [apply rules_Tables; assumption|auto|reflexivity|reflexivity]. Qed.

Lemma insert_rule_evolved r p d u d' :
  Tables d -> In p (rd_profiles d) -> rule_of p r = true -> (forall x, ru_hourlyRate r = Some x -> representable x (pr_currencyCode p)) ->
  minimum_valid (ru_minimumMinutes r) = true -> insert_rule r d = Ok (u, d') ->
  evolved d d' /\ rd_profiles d' = rd_profiles d /\ rd_workTypes d' = rd_workTypes d.
Proof.
  intros T Hp Hr R M E. unfold insert_rule in E. apply bind_ok in E as (rate & d1 & G & E). apply lift_ok in G as [Er ->].
  apply bind_ok in E as (? & d1 & G & E). apply lift_ok in G as [_ ->]. apply bind_ok in E as (? & d1 & G & E). apply pg_check_ok in G as [C ->].
  apply bind_ok in E as (rs & d1 & G & E). apply read_ok in G as [-> ->]. apply bind_ok in E as (? & d1 & G & E). cbn in G.
  destruct (existsb _ (rd_rules d)) eqn:X; [discriminate|]. apply ret_ok in G as [_ ->]. apply bind_ok in E as (ps & d1 & G & E). apply read_ok in G as [-> ->].
  apply bind_ok in E as (? & d1 & G & E). apply foreign_key_ok in G as [_ ->]. apply bind_ok in E as (ts & d1 & G & E). apply read_ok in G as [-> ->].
  apply bind_ok in E as (? & d1 & G & E). apply foreign_key_ok in G as [W ->]. apply modify_ok in E as ->. cbn in W.
  split; [|split; reflexivity]. apply rules_evolved; [exact T| |].
  - intros y Hy. apply in_app_or in Hy as [Hy|[<-|[]]]; [apply T, Hy|]. constructor; [|exact W]. exists p. split; [exact Hp|split; [exact Hr|]]. constructor; cbn.
    + exact (pg_numeric10_opt_idem _ _ Er).
    + exact (pg_numeric10_rate _ _ _ Er R).
    + exact M.
    + exact C.
  - rewrite map_app. apply NoDup_end; [apply T|]. intros Hi. apply in_map_iff in Hi as (y & Ey & Hy). injection Ey as E1 E2.
    assert (F : existsb (fun z => String.eqb (ru_billingProfileId z) (ru_billingProfileId r) && String.eqb (ru_workTypeId z) (ru_workTypeId r)) (rd_rules d) = true)
      by (apply existsb_exists; exists y; rewrite E1, E2, !String.eqb_refl; auto). congruence.
Qed.

Lemma insert_rules_evolved {A} (rule : A -> ProfileRule) (p : BillingProfile) l d u d' :
  Tables d -> In p (rd_profiles d) ->
  (forall a, In a l -> rule_of p (rule a) = true /\ (forall x, ru_hourlyRate (rule a) = Some x -> representable x (pr_currencyCode p)) /\ minimum_valid (ru_minimumMinutes (rule a)) = true) ->
  for_each (fun a => insert_rule (rule a)) l d = Ok (u, d') -> evolved d d' /\ rd_profiles d' = rd_profiles d /\ rd_workTypes d' = rd_workTypes d.
Proof.
  revert d. induction l as [|a l IH]; intros d T Hp Ha E; [apply ret_ok in E as [_ ->]; split; [apply evolved_refl, T|auto]|].
  cbn in E. apply bind_ok in E as (u1 & d1 & G & E). destruct (Ha a (or_introl eq_refl)) as (H1 & H2 & H3).
  destruct (insert_rule_evolved _ _ _ _ _ T Hp H1 H2 H3 G) as (V & Ep & Ew).
  destruct (IH d1 (ed_tables _ _ V)) as (V1 & Ep1 & Ew1); [congruence|intros b Hb; apply Ha; right; exact Hb|exact E|].
  split; [exact (evolved_trans _ _ _ V V1)|split; congruence].
Qed.

Lemma validateRate_ok rate cur d u d' : validateRate rate cur d = Ok (u, d') -> d' = d /\ forall r, rate = Some r -> representable r cur.
Proof. unfold validateRate. destruct rate as [r|]; intros E; run_m; split; try reflexivity; intros x [= <-]; assumption. Qed.

Lemma validate_rows_ok rows cur d u d' :
  for_each (fun r => validateRate (ri_hourlyRate r) cur) rows d = Ok (u, d') ->
  d' = d /\ forall r, In r rows -> forall x, ri_hourlyRate r = Some x -> representable x cur.
Proof.
  revert d. induction rows as [|r rows IH]; intros d E; [apply ret_ok in E as [_ ->]; split; [reflexivity|intros ? []]|].
  cbn in E. apply bind_ok in E as (? & d1 & G & E). apply validateRate_ok in G as [-> Hr]. destruct (IH _ E) as [-> Hrs]. split; [reflexivity|].
  intros y [<-|Hy]; [exact Hr|exact (Hrs y Hy)].
Qed.

Lemma replaceRows_evolved p rows d r d' :
  Tables d -> In p (rd_profiles d) -> profileRowsSchema rows = true -> replaceRows p rows d = Ok (r, d') ->
  evolved d d' /\ rd_profiles d' = rd_profiles d /\ fst r = p.
Proof.
  intros T Hp S E. unfold replaceRows in E. apply bind_ok in E as (? & d1 & G & E). apply require_ok in G as [_ ->].
  apply bind_ok in E as (ts & d1 & G & E). apply read_ok in G as [-> ->]. apply bind_ok in E as (? & d1 & G & E). apply require_ok in G as [_ ->].
  apply bind_ok in E as (? & d1 & G & E). apply validate_rows_ok in G as [-> R]. apply bind_ok in E as (? & d1 & G & E). apply modify_ok in G.
  apply bind_ok in E as (? & d2 & G2 & E). apply ret_ok in E as [-> ->].
  assert (V : evolved d d1).
  { rewrite G. apply rules_evolved; [exact T| |apply NoDup_filter_map, T]. intros y Hy. apply filter_In in Hy as [Hy _]. apply T, Hy. }
  assert (Ep : rd_profiles d1 = rd_profiles d) by (rewrite G; reflexivity).
  destruct (insert_rules_evolved (row_rule p) p rows d1 x3 d2 (ed_tables _ _ V)) as (V1 & E1 & _); [congruence| |exact G2|].
  - intros a Ha. split; [apply rule_of_spec; auto|]. split; [exact (R a Ha)|]. unfold profileRowsSchema in S. apply andb_true_iff in S as [_ S].
    rewrite forallb_forall in S. specialize (S a Ha). unfold profileRowSchema in S. breflect. assumption.
  - split; [exact (evolved_trans _ _ _ V V1)|split; [congruence|reflexivity]].
Qed.

(** ** The operations *)

(** An operation that leaves the tables in order and every default in place. *)
Definition keeps {A} (x : RateM A) : Prop := forall d a d', Tables d -> x d = Ok (a, d') -> evolved d d'.

Lemma keeps_ro {A} (x : RateM A) : ReadOnly x -> keeps x.
Proof. intros R d a d' T E. rewrite (R _ _ _ E). apply evolved_refl, T. Qed.

Lemma keeps_bind {A B} (x : RateM A) (k : A -> RateM B) : keeps x -> (forall a, keeps (k a)) -> keeps (bind x k).
Proof. intros Hx Hk d b d' T E. apply bind_ok in E as (a & d1 & E1 & E2). pose proof (Hx _ _ _ T E1) as V. exact (evolved_trans _ _ _ V (Hk a _ _ _ (ed_tables _ _ V) E2)). Qed.

Lemma map_unique_ok {A} code (x : RateM A) d r : map_unique code x d = Ok r -> x d = Ok r.
Proof. unfold map_unique. destruct (x d) as [a|[c|m]]; [auto|discriminate|destruct (String.eqb m _); discriminate]. Qed.

Lemma keeps_map_unique {A} code (x : RateM A) : keeps x -> keeps (map_unique code x).
Proof. intros K d a d' T E. exact (K _ _ _ T (map_unique_ok _ _ _ _ E)). Qed.

Lemma parsed_ok {A} (r : option A) d a d' : parsed r d = Ok (a, d') -> r = Some a /\ d' = d.
Proof. unfold parsed. destruct r; intros E; run_m; auto. Qed.

Lemma validateBase_ok p d u d' : validateBase p d = Ok (u, d') -> d' = d /\ forall r, pr_baseHourlyRate p = Some r -> representable r (pr_currencyCode p).
Proof. unfold validateBase. intros E. apply bind_ok in E as (? & d1 & G & E). apply require_ok in G as [_ ->]. exact (validateRate_ok _ _ _ _ _ E). Qed.

Lemma currency_shape_truthy c : currency_shape c = true -> truthy (Some c) = Some c.
Proof. destruct c; [discriminate|reflexivity]. Qed.

Lemma update_evolved id pn data d p' d' :
  Tables d -> fields_valid data = true -> updateProfileInTransaction id pn data d = Ok (p', d') -> evolved d d' /\ In p' (rd_profiles d').
Proof.
  intros T Hd E. unfold updateProfileInTransaction in E. apply bind_ok in E as (p & d1 & G & E). apply profileById_ok in G as (-> & Hp & _).
  apply bind_ok in E as (? & d1 & G & E). apply require_ok in G as [Dg ->]. apply bind_ok in E as (? & d1 & G & E).
  assert (C : d1 = d /\ (pr_currencyCode (patched data p) = pr_currencyCode p \/ unpriced_rules d p)).
  { unfold fields_valid in Hd. breflect. cbn [patched pr_currencyCode]. destruct (up_currencyCode data) as [c|]; cbn [opt_holds from_option_default] in *;
      [|apply ret_ok in G as [_ ->]; auto]. rewrite currency_shape_truthy in G by assumption.
    destruct (String.eqb_spec c (pr_currencyCode p)) as [->|]; [apply ret_ok in G as [_ ->]; auto|]. unfold withRules, assertCurrency in G. run_m.
    split; [reflexivity|right]. intros r Hr Hrp. breflect. match goal with F : forallb _ _ = true |- _ => rewrite forallb_forall in F; specialize (F r) end.
    destruct (ru_hourlyRate r); [|reflexivity]. match goal with F : In r _ -> _ |- _ => assert (X := F ltac:(apply filter_In; auto)); discriminate X end. }
  destruct C as [-> C]. apply bind_ok in E as (? & d1 & G1 & E). apply validateBase_ok in G1 as [-> R]. apply bind_ok in E as (q & d1 & G1 & E).
  pose proof (rc_profiles _ T p Hp) as K. destruct (write_evolved (patched data p) p d q d1) as (V & Hq & _ & _); try assumption; try reflexivity.
  - cbn. unfold fields_valid in Hd. breflect. destruct (up_baseMinimumMinutes data); [assumption|apply K].
  - cbn. intros Hdf. rewrite Hdf, (fo_default _ _ K Hdf) in Dg. cbn in Dg. breflect. destruct (up_isActive data) as [[]|]; cbn in *; [reflexivity|discriminate|apply K, Hdf].
  - cbn. intros Hdf. rewrite Hdf, (fo_default _ _ K Hdf) in Dg. cbn in Dg. breflect. unfold moves_currency in *.
    split; [exact Hdf|split; [destruct (up_isActive data) as [[]|]; cbn in *; [reflexivity|discriminate|apply K, Hdf]|]].
    destruct (up_currencyCode data) as [c|]; cbn; [|reflexivity]. breflect. apply String.eqb_eq. assumption.
  - destruct (up_isDefault data) as [[]|]; try (apply ret_ok in E as [-> ->]; auto; fail).
    destruct (switch_evolved _ _ _ _ (ed_tables _ _ V) Hq E) as (V1 & H1 & _). split; [exact (evolved_trans _ _ _ V V1)|exact H1].
Qed.

Lemma updateProfileSchema_valid i data : updateProfileSchema i = Some data -> fields_valid data = true.
Proof. unfold updateProfileSchema. destruct (_ && _) eqn:E; [|discriminate]. intros [= <-]. apply andb_true_iff in E as [E _]. exact E. Qed.

Lemma assertWriter_ok caller d u d' : assertWriter caller d = Ok (u, d') -> d' = d.
Proof. unfold assertWriter. intros E. run_m. reflexivity. Qed.

Lemma updateProfile_keeps caller id pn input : keeps (updateProfile caller id pn input).
Proof.
  intros d p d' T E. unfold updateProfile in E. apply bind_ok in E as (? & d1 & G & E). apply assertWriter_ok in G as ->.
  apply bind_ok in E as (data & d1 & G & E). apply parsed_ok in G as [Hs ->]. apply map_unique_ok in E.
  apply (update_evolved _ _ _ _ _ _ T (updateProfileSchema_valid _ _ Hs) E).
Qed.

Lemma saveProfile_keeps caller id pn input : keeps (saveProfile caller id pn input).
Proof.
  intros d p d' T E. unfold saveProfile in E. apply bind_ok in E as (? & d1 & G & E). apply assertWriter_ok in G as ->.
  apply bind_ok in E as ([changes rows] & d1 & G & E). apply parsed_ok in G as [Hs ->]. apply map_unique_ok in E.
  unfold saveProfileSchema in Hs. destruct (_ && _) eqn:Hv; [|discriminate]. injection Hs as <- <-. apply andb_true_iff in Hv as [H1 H2].
  apply bind_ok in E as (q & d1 & G & E). destruct (update_evolved _ _ _ _ _ _ T H1 G) as [V Hq].
  destruct (replaceRows_evolved _ _ _ _ _ (ed_tables _ _ V) Hq H2 E) as [V1 _]. exact (evolved_trans _ _ _ V V1).
Qed.

Lemma replaceProfileRows_keeps caller id pn rows : keeps (replaceProfileRows caller id pn rows).
Proof.
  intros d p d' T E. unfold replaceProfileRows in E. apply bind_ok in E as (? & d1 & G & E). apply assertWriter_ok in G as ->.
  apply bind_ok in E as (data & d1 & G & E). apply parsed_ok in G as [Hs ->]. destruct (profileRowsSchema rows) eqn:Hr; [|discriminate]. injection Hs as <-.
  apply bind_ok in E as (q & d1 & G & E). apply profileById_ok in G as (-> & Hq & _). apply (replaceRows_evolved _ _ _ _ _ T Hq Hr E).
Qed.

Lemma setDefaultProfile_keeps caller id pn : keeps (setDefaultProfile caller id pn).
Proof.
  intros d p d' T E. unfold setDefaultProfile in E. apply bind_ok in E as (? & d1 & G & E). apply assertWriter_ok in G as ->. apply map_unique_ok in E.
  apply bind_ok in E as (q & d1 & G & E). apply profileById_ok in G as (-> & Hq & _). apply (switch_evolved _ _ _ _ T Hq E).
Qed.

Lemma insertProfile_evolved values d p d' :
  Tables d -> (forall id, pr_id (values id) = id) ->
  (forall id r, pr_baseHourlyRate (values id) = Some r -> representable r (pr_currencyCode (values id))) ->
  (forall id, minimum_valid (pr_baseMinimumMinutes (values id)) = true) ->
  (forall id, pr_isDefault (values id) = true -> pr_isActive (values id) = true) ->
  insertProfile values d = Ok (p, d') ->
  evolved d d' /\ In p (rd_profiles d') /\ rd_rules d' = rd_rules d /\ exists rate, p = with_rate rate (values (uuid (rd_next d))).
Proof.
  intros T Hid R M D E. unfold insertProfile in E. apply bind_ok in E as (r & d1 & G & E).
  destruct (insert_evolved _ _ _ _ T Hid R M D G) as (V & Er & _ & Hp). destruct r as [q|]; [|discriminate]. apply ret_ok in E as [-> ->].
  destruct (Hp q eq_refl) as [H1 H2]. auto.
Qed.

Lemma createProfile_keeps caller pn input : keeps (createProfile caller pn input).
Proof.
  intros d p d' T E. unfold createProfile in E. apply bind_ok in E as (? & d1 & G & E). apply assertWriter_ok in G as ->.
  apply bind_ok in E as (data & d1 & G & E). apply parsed_ok in G as [Hs ->]. unfold createProfileSchema in Hs.
  destruct (_ && _) eqn:Hv; [|discriminate]. injection Hs as <-. apply andb_true_iff in Hv as [Hf Hr].
  apply bind_ok in E as (? & d1 & G & E). unfold assertCurrency in G. apply bind_ok in G as (codes & d2 & G & G1). apply read_ok in G as [-> ->]. apply require_ok in G1 as [_ ->].
  apply bind_ok in E as (? & d1 & G & E). apply validateBase_ok in G as [-> R]. apply bind_ok in E as (q & d1 & G & E).
  apply insertProfile_evolved in G as (V & Hp & _ & _); [|exact T|reflexivity|intros ?; exact R| |discriminate].
  2:{ intros ?. unfold fields_valid in Hf. cbn in Hf. breflect. cbn. destruct (cr_baseMinimumMinutes input); [assumption|reflexivity]. }
  apply bind_ok in E as (? & d2 & G2 & E). cbn in G2, E. assert (V1 : evolved d d2 /\ In q (rd_profiles d2)).
  { destruct (cr_rows input) as [rows|]; [|apply ret_ok in G2 as [_ ->]; auto]. unfold discard in G2. apply bind_ok in G2 as (r & d3 & G2 & G3).
    apply ret_ok in G3 as [_ ->]. destruct (replaceRows_evolved _ _ _ _ _ (ed_tables _ _ V) Hp Hr G2) as (V2 & E2 & _).
    split; [exact (evolved_trans _ _ _ V V2)|congruence]. }
  destruct V1 as [V1 Hin]. destruct (cr_isDefault input) as [[]|]; try (apply ret_ok in E as [-> ->]; exact V1).
  destruct (switch_evolved _ _ _ _ (ed_tables _ _ V1) Hin E) as [V2 _]. exact (evolved_trans _ _ _ V1 V2).
Qed.

(** Copied rows keep the currency they are priced in. *)
Lemma cloneProfile_keeps caller id pn name : keeps (cloneProfile caller id pn name).
Proof.
  intros d p d' T E. unfold cloneProfile in E. apply bind_ok in E as (? & d1 & G & E). apply assertWriter_ok in G as ->.
  apply bind_ok in E as (clean & d1 & G & E). apply parsed_ok in G as [_ ->]. apply bind_ok in E as (o & d1 & G & E). apply profileById_ok in G as (-> & Ho & _ & Epn).
  pose proof (rc_profiles _ T o Ho) as K. apply bind_ok in E as (rules & d1 & G & E). apply read_ok in G as [-> ->]. apply bind_ok in E as (c & d1 & G & E).
  apply insertProfile_evolved in G as (V & Hc & Er & rate & ->); [|exact T|reflexivity|intros ?; apply K|intros ?; apply K|discriminate].
  apply bind_ok in E as (? & d2 & G & E). apply ret_ok in E as [-> ->].
  eapply (insert_rules_evolved _ (with_rate rate (cloned_values o clean (uuid (rd_next d))))) in G as (V1 & _); [exact (evolved_trans _ _ _ V V1)|apply V|exact Hc|].
  intros r Hr. apply filter_In in Hr as [Hr Hro]. split; [apply rule_of_spec; cbn; auto|].
  destruct (rc_rules _ T r Hr) as [(q & Hq & Hrq & P) _]. apply rule_of_spec in Hro as [E1 _], Hrq as [E2 _].
  assert (q = o) as -> by (apply (unique_in pr_id (rd_profiles d)); [apply T|exact Hq|exact Ho|congruence]). split; apply P.
Qed.

(** ** The default card of a currency *)

Lemma default_evolved pn cur name d r d' :
  Tables d -> insert_or_nothing (default_values pn cur name) d = Ok (r, d') -> evolved d d' /\ forall p, r = Some p -> In p (rd_profiles d') /\ default_card pn cur p = true.
Proof.
  intros T E. destruct (insert_evolved (default_values pn cur name) d r d' T) as (V & _ & _ & Hp); try reflexivity; [discriminate|exact E|]. split; [exact V|].
  intros p Er. destruct (Hp p Er) as [Hin (rate & ->)]. split; [exact Hin|apply default_card_spec; auto].
Qed.

Lemma ensure_loop_evolved fuel suffix pn cur d r d' :
  Tables d -> ensure_loop fuel suffix pn cur d = Ok (r, d') -> evolved d d' /\ forall p, r = Some p -> In p (rd_profiles d') /\ default_card pn cur p = true.
Proof.
  revert suffix d. induction fuel as [|fuel IH]; intros suffix d T E; [apply ret_ok in E as [-> ->]; split; [apply evolved_refl, T|discriminate]|].
  cbn [ensure_loop] in E. apply bind_ok in E as (ps & d1 & G & E). apply read_ok in G as [-> ->]. destruct (List.find _ _) as [q|] eqn:F.
  - apply ret_ok in E as [-> ->]. split; [apply evolved_refl, T|]. intros p [= <-]. apply find_some in F. exact F.
  - apply bind_ok in E as (c & d1 & G & E). destruct (default_evolved _ _ _ _ _ _ T G) as [V Hc]. destruct c as [c|].
    + apply ret_ok in E as [-> ->]. split; [exact V|]. intros p [= <-]. apply Hc. reflexivity.
    + destruct (IH _ _ (ed_tables _ _ V) E) as [V1 Hp]. split; [exact (evolved_trans _ _ _ V V1)|exact Hp].
Qed.

Lemma ensureDefault_evolved pn cur d p d' : Tables d -> ensureDefaultProfile pn cur d = Ok (p, d') -> evolved d d' /\ has_default pn cur d'.
Proof.
  intros T E. unfold ensureDefaultProfile in E. apply bind_ok in E as (n & d1 & G & E). apply read_ok in G as [-> ->]. apply bind_ok in E as (r & d1 & G & E).
  destruct (ensure_loop_evolved _ _ _ _ _ _ _ T G) as [V Hp]. destruct r as [q|]; [|discriminate]. apply ret_ok in E as [-> ->]. split; [exact V|].
  exists q. apply Hp. reflexivity.
Qed.

(** ** Organizations and work types *)

Lemma organizations_Tables d orgs :
  Tables d -> (forall n, (rd_next d <= n)%nat -> orgs !! uuid n = None) ->
  (forall o a, rd_assignments d !! o = Some a -> exists currency, orgs !! o = Some (as_partnerId a, currency)) -> Tables (set_organizations orgs d).
Proof.
  intros T F A. constructor; try apply T; cbn.
  - intros n Hn. destruct (rc_fresh _ T n Hn) as (F1 & _ & F3). auto.
  - intros o a Ha. split; [exact (A o a Ha)|apply (rc_assigned _ T o a Ha)].
Qed.

Lemma insertOrganization_Cards pn d id d' : Cards d -> insertOrganization pn d = Ok (id, d') -> Cards d'.
Proof.
  intros [T O] E. unfold insertOrganization in E. apply bind_ok in E as (ps & d1 & G & E). apply read_ok in G as [-> ->].
  destruct (rd_partners d !! pn) as [cur|]; [|discriminate]. apply bind_ok in E as (i & d1 & G & E). apply mint_rate_ok in G as [-> ->].
  apply bind_ok in E as (? & d1 & G & E). apply modify_ok in G. apply bind_ok in E as (p & d2 & G2 & E). apply ret_ok in E as [-> ->].
  assert (T1 : Tables d1).
  { rewrite G. apply organizations_Tables; [apply bump_evolved, T| |]; cbn.
    - intros n Hn. rewrite lookup_insert_ne; [apply T; lia|]. intros En. apply (inj uuid) in En. lia.
    - intros o a Ha. destruct (rc_assigned _ T o a Ha) as [[c Ho] _]. exists c. rewrite lookup_insert_ne; [exact Ho|]. intros <-.
      destruct (rc_fresh _ T (rd_next d) (Nat.le_refl _)) as (_ & F & _). congruence. }
  destruct (ensureDefault_evolved _ _ _ _ _ T1 G2) as [V Hd]. constructor; [apply V|]. intros o p' c Ho.
  rewrite (ed_organizations _ _ V), G in Ho. cbn in Ho. apply lookup_insert_Some in Ho as [[_ [= <- <-]]|[_ Ho]]; [exact Hd|].
  apply (ed_defaults _ _ V). destruct (O _ _ _ Ho) as (z & Hz & Dz). exists z. rewrite G. auto.
Qed.

Lemma change_currency_Cards orgId cur expected confirm actor d r d' :
  Cards d -> change_currency orgId cur expected confirm actor d = Ok (r, d') -> Cards d'.
Proof.
  intros [T O] E. unfold change_currency in E. apply bind_ok in E as (orgs & d1 & G & E). apply read_ok in G as [-> ->].
  destruct (rd_organizations d !! orgId) as [[pn locked]|] eqn:Eo; [|discriminate]. apply bind_ok in E as (? & d1 & G & E). apply require_ok in G as [_ ->].
  destruct (negb _); [apply ret_ok in E as [_ ->]; constructor; assumption|]. destruct (String.eqb locked cur); [apply ret_ok in E as [_ ->]; constructor; assumption|].
  apply bind_ok in E as (? & d1 & G & E). apply require_ok in G as [_ ->]. apply bind_ok in E as (p & d1 & G & E). destruct (ensureDefault_evolved _ _ _ _ _ T G) as [V Hd].
  apply bind_ok in E as (? & d2 & G2 & E). apply modify_ok in G2 as ->. apply ret_ok in E as [_ ->]. pose proof (ed_tables _ _ V) as T1.
  pose proof (ed_organizations _ _ V) as Eq. constructor.
  - apply organizations_Tables; [exact T1| |].
    + intros n Hn. rewrite lookup_insert_ne; [apply T1, Hn|]. intros ->. destruct (rc_fresh _ T1 n Hn) as (_ & F & _). congruence.
    + intros o a Ha. destruct (rc_assigned _ T1 o a Ha) as [[c Ho] _]. destruct (decide (orgId = o)) as [->|N]; [|exists c; rewrite lookup_insert_ne by exact N; exact Ho].
      exists cur. rewrite lookup_insert_eq. congruence.
  - intros o p' c Ho. cbn in Ho. apply lookup_insert_Some in Ho as [[_ [= <- <-]]|[_ Ho]]; [exact Hd|]. rewrite Eq in Ho. exact (ed_defaults _ _ V _ _ (O _ _ _ Ho)).
Qed.

Lemma assign_keeps orgId pn profileId by_ : keeps (assignProfileToOrg orgId pn profileId by_).
Proof.
  intros d a d' T E. unfold assignProfileToOrg, readStampingDefaults in E. apply bind_ok in E as (cur & d1 & G & E).
  assert (d1 = d) as -> by (apply bind_ok in G as (orgs & d2 & G & G1); apply read_ok in G as [-> ->]; destruct (rd_organizations d !! orgId) as [[]|]; run_m; reflexivity). clear G.
  apply bind_ok in E as (p & d1 & G & E). apply profileById_ok in G as (-> & Hp & Ei & Ep). run_m. cbn. destruct (rd_organizations d !! orgId) as [[owner c]|] eqn:Eo; [|discriminate].
  breflect. constructor; [|auto|reflexivity|reflexivity]. constructor; try apply T. cbn. intros o b Hb. apply lookup_insert_Some in Hb as [[<- <-]|[_ Hb]]; [|exact (rc_assigned _ T o b Hb)].
  cbn. split; [exists c; rewrite Eo; f_equal; f_equal; apply String.eqb_eq; assumption|]. apply existsb_exists. exists p. split; [exact Hp|apply is_profile_spec; auto].
Qed.

Lemma clear_keeps orgId pn : keeps (clearOrgAssignment orgId pn).
Proof.
  intros d a d' T E. apply modify_ok in E as ->. destruct (getOrgAssignment orgId pn d); [|apply evolved_refl, T]. constructor; [|auto|reflexivity|reflexivity].
  constructor; try apply T. cbn. intros o b Hb. apply lookup_delete_Some in Hb as [_ Hb]. exact (rc_assigned _ T o b Hb).
Qed.

Lemma same_label_sym t u : same_label t u = same_label u t.
Proof. unfold same_label. rewrite (String.eqb_sym (wt_partnerId t)), (String.eqb_sym (lower (wt_name t))). reflexivity. Qed.

Lemma work_types_evolved d ts :
  Tables d -> List.NoDup (map wt_id ts) -> (forall n, (rd_next d <= n)%nat -> ~ In (uuid n) (map wt_id ts)) -> alone same_label ts ->
  (forall pn id, existsb (work_type_of pn id) (rd_workTypes d) = true -> existsb (work_type_of pn id) ts = true) -> evolved d (set_workTypes ts d).
Proof.
  intros T N F A W. constructor; [|auto|reflexivity|reflexivity]. constructor; try apply T; cbn; try assumption.
  - intros n Hn. destruct (rc_fresh _ T n Hn) as (F1 & F2 & _). auto.
  - intros r Hr. destruct (rc_rules _ T r Hr) as [C K]. constructor; [exact C|apply W, K].
Qed.

Lemma work_type_free_spec t ts : work_type_free t ts = true -> forall u, In u ts -> wt_id u <> wt_id t -> same_label t u = false.
Proof.
  unfold work_type_free. rewrite forallb_forall. intros F u Hu N. specialize (F u Hu). destruct (String.eqb_spec (wt_id u) (wt_id t)); [contradiction|].
  cbn in F. breflect. rewrite same_label_sym. exact F.
Qed.

Lemma createWorkType_keeps caller pn name order : keeps (createWorkType caller pn name order).
Proof.
  intros d t d' T E. unfold createWorkType in E. apply bind_ok in E as (? & d1 & G & E). apply assertWriter_ok in G as ->.
  apply bind_ok in E as (id & d1 & G & E). apply mint_rate_ok in G as [-> ->]. pose proof (bump_evolved d T) as V. run_m. apply (evolved_trans _ _ _ V).
  set (t := mkWorkType _ _ _ _ _) in *. assert (Fr : ~ In (wt_id t) (map wt_id (rd_workTypes d))) by (apply (rc_fresh _ T (rd_next d)); lia).
  apply work_types_evolved; [apply V| | | |]; cbn.
  - rewrite map_app. apply NoDup_end; [apply T|exact Fr].
  - intros n Hn. rewrite map_app, in_app_iff. intros [Hi|[Hi|[]]]; [refine (_ Hi); apply (rc_fresh _ T n); lia|]. apply (inj uuid) in Hi. lia.
  - apply snoc_alone; [exact same_label_sym|apply T|]. intros u Hu. eapply work_type_free_spec; [eassumption|exact Hu|]. intros Eu. apply Fr. rewrite <- Eu. apply in_map, Hu.
  - intros p i Ex. rewrite existsb_app, Ex. reflexivity.
Qed.

(** A work type relabelled or archived is the same one. *)
Lemma put_type_evolved t u d :
  Tables d -> In t (rd_workTypes d) -> wt_id u = wt_id t -> wt_partnerId u = wt_partnerId t -> work_type_free u (rd_workTypes d) = true ->
  evolved d (set_workTypes (put wt_id u (rd_workTypes d)) d).
Proof.
  intros T Ht Ei Ep F. apply work_types_evolved; [exact T| | | |].
  - rewrite put_ids. apply T.
  - intros n Hn. rewrite put_ids. apply (rc_fresh _ T n Hn).
  - apply put_alone; [exact same_label_sym|apply T|exact (work_type_free_spec _ _ F)].
  - intros pn id Ex. apply existsb_exists in Ex as (x & Hx & Ex). apply existsb_exists. destruct (decide (wt_id x = wt_id u)) as [E|N].
    + assert (x = t) as -> by (apply (unique_in wt_id (rd_workTypes d)); [apply T|exact Hx|exact Ht|congruence]). exists u.
      split; [exact (put_here _ _ _ t Ht (eq_sym Ei))|]. unfold work_type_of in *. rewrite Ei, Ep. exact Ex.
    + exists x. split; [apply put_in; assumption|exact Ex].
Qed.

Lemma find_work_type pn id ts t : List.find (work_type_of pn id) ts = Some t -> In t ts /\ wt_id t = id.
Proof. intros F. apply find_some in F as [Ht F]. unfold work_type_of in F. rewrite andb_true_iff, !String.eqb_eq in F. tauto. Qed.

Lemma updateWorkType_keeps caller id pn name order active : keeps (updateWorkType caller id pn name order active).
Proof.
  intros d t d' T E. unfold updateWorkType in E. apply bind_ok in E as (? & d1 & G & E). apply assertWriter_ok in G as ->.
  apply bind_ok in E as (ts & d1 & G & E). apply read_ok in G as [-> ->]. destruct (List.find _ _) as [t0|] eqn:F; [|discriminate].
  apply find_work_type in F as [Ht <-]. cbv zeta in E. run_m. eapply (put_type_evolved t0 (mkWorkType _ _ _ _ _) d T Ht); try reflexivity. assumption.
Qed.

Lemma archived_free t ts : List.NoDup (map wt_id ts) -> alone same_label ts -> In t ts -> work_type_free (mkWorkType (wt_id t) (wt_partnerId t) (wt_name t) (wt_sortOrder t) false) ts = true.
Proof.
  intros N A Ht. apply forallb_forall. intros u Hu. cbn. destruct (String.eqb_spec (wt_id u) (wt_id t)) as [|Ne]; [reflexivity|]. cbn. apply negb_true_iff.
  destruct (_ && _) eqn:E; [|reflexivity]. elim Ne. f_equal. exact (A u t Hu Ht E).
Qed.

Lemma archiveWorkType_keeps caller id pn : keeps (archiveWorkType caller id pn).
Proof.
  intros d t d' T E. unfold archiveWorkType in E. apply bind_ok in E as (? & d1 & G & E). apply assertWriter_ok in G as ->.
  apply bind_ok in E as (ts & d1 & G & E). apply read_ok in G as [-> ->]. destruct (List.find _ _) as [t0|] eqn:F; [|discriminate].
  apply find_work_type in F as [Ht <-]. cbv zeta in E. run_m.
  pose proof (put_type_evolved t0 (mkWorkType _ _ _ _ _) d T Ht eq_refl eq_refl (archived_free _ _ (rc_types _ T) (rc_labels _ T) Ht)) as V.
  apply (evolved_trans _ _ _ V). destruct V as [T1 _ _ _]. constructor; [|auto|reflexivity|reflexivity]. destruct T1. constructor; assumption.
Qed.

End Safety.
