(* ===== verification/RateProperties.v ===== *)
(** * Properties of rate cards and organization currencies

    The card tables stay in order under every operation; the search for the name
    of a default card ends; whatever cards are edited and whatever currency an
    organization moves to, its work is priced by an active card of its partner in
    its own currency. *)

From S2P Require Import Prelude JsString JsNumber Currency TimeBilling CatalogPricing ContractCoverage BillingDb InvoiceService QuoteDb InvoiceInvariants TimeEntries TimeEntrySafety TimeProperties RateCards RateCardSafety.
From stdpp Require Import base gmap strings list.

Local Open Scope string_scope.
Local Open Scope Z_scope.
Local Open Scope billing_scope.

(** ** The card system *)

Inductive RateEvent :=
| rv_create (caller : WorkTypeCaller) (partnerId : string) (input : CreateProfileInput)
| rv_update (caller : WorkTypeCaller) (id partnerId : string) (input : UpdateProfileInput)
| rv_save (caller : WorkTypeCaller) (id partnerId : string) (input : SaveProfileInput)
| rv_rows (caller : WorkTypeCaller) (id partnerId : string) (rows : list RowInput)
| rv_clone (caller : WorkTypeCaller) (id partnerId name : string)
| rv_default (caller : WorkTypeCaller) (id partnerId : string)
| rv_assign (orgId partnerId profileId assignedBy : string)
| rv_clear (orgId partnerId : string)
| rv_organization (partnerId : string)
| rv_currency (orgId currencyCode expected : string) (confirm : option bool) (actor : InvoiceActor)
| rv_type_create (caller : WorkTypeCaller) (partnerId name : string) (sortOrder : option Z)
| rv_type_update (caller : WorkTypeCaller) (id partnerId : string) (name : option string) (sortOrder : option Z) (isActive : option bool)
| rv_type_archive (caller : WorkTypeCaller) (id partnerId : string)
(* the rest of the product *)
| rv_partners (partners : gmap string string)
| rv_categories (categories : gmap string Category).

Definition set_partners x (d : RateDb) : RateDb :=
  mkRateDb (rd_profiles d) (rd_rules d) (rd_assignments d) (rd_organizations d) (rd_workTypes d) (rd_categories d) x (rd_currencies d) (rd_next d).

Section Properties.
Context `{Uuids}.

Definition rate_event (d : RateDb) (v : RateEvent) : RateDb :=
  match v with
  | rv_create c p i => commit (createProfile c p i) d
  | rv_update c id p i => commit (updateProfile c id p i) d
  | rv_save c id p i => commit (saveProfile c id p i) d
  | rv_rows c id p rows => commit (replaceProfileRows c id p rows) d
  | rv_clone c id p name => commit (cloneProfile c id p name) d
  | rv_default c id p => commit (setDefaultProfile c id p) d
  | rv_assign o p id by_ => commit (assignProfileToOrg o p id by_) d
  | rv_clear o p => commit (clearOrgAssignment o p) d
  | rv_organization p => commit (insertOrganization p) d
  | rv_currency o cur expected confirm actor => commit (change_currency o cur expected confirm actor) d
  | rv_type_create c p name order => commit (createWorkType c p name order) d
  | rv_type_update c id p name order active => commit (updateWorkType c id p name order active) d
  | rv_type_archive c id p => commit (archiveWorkType c id p) d
  | rv_partners ps => set_partners ps d
  | rv_categories cs => set_categories cs d
  end.

Lemma commit_Cards {A} (x : RateM A) d : (forall a d', x d = Ok (a, d') -> Cards d') -> Cards d -> Cards (commit x d).
Proof. intros Hx C. unfold commit. destruct (x d) as [[a d']|] eqn:E; [exact (Hx a d' eq_refl)|exact C]. Qed.

Lemma keeps_Cards {A} (x : RateM A) d : keeps x -> Cards d -> Cards (commit x d).
Proof. intros K C. apply commit_Cards; [|exact C]. intros a d' E. exact (evolved_Cards _ _ C (K _ _ _ (ca_tables _ C) E)). Qed.

Lemma event_Cards d v : Cards d -> Cards (rate_event d v).
Proof.
  intros C. destruct v; cbn [rate_event].
  - apply keeps_Cards; [apply createProfile_keeps|exact C].
  - apply keeps_Cards; [apply updateProfile_keeps|exact C].
  - apply keeps_Cards; [apply saveProfile_keeps|exact C].
  - apply keeps_Cards; [apply replaceProfileRows_keeps|exact C].
  - apply keeps_Cards; [apply cloneProfile_keeps|exact C].
  - apply keeps_Cards; [apply setDefaultProfile_keeps|exact C].
  - apply keeps_Cards; [apply assign_keeps|exact C].
  - apply keeps_Cards; [apply clear_keeps|exact C].
  - apply commit_Cards; [|exact C]. intros a d' E. exact (insertOrganization_Cards _ _ _ _ C E).
  - apply commit_Cards; [|exact C]. intros a d' E. exact (change_currency_Cards _ _ _ _ _ _ _ _ C E).
  - apply keeps_Cards; [apply createWorkType_keeps|exact C].
  - apply keeps_Cards; [apply updateWorkType_keeps|exact C].
  - apply keeps_Cards; [apply archiveWorkType_keeps|exact C].
  - destruct C as [[] O]. constructor; [constructor; assumption|exact O].
  - destruct C as [[] O]. constructor; [constructor; assumption|exact O].
Qed.

Lemma events_Cards evs d : Cards d -> Cards (fold_left rate_event evs d).
Proof. revert d. induction evs as [|v evs IH]; intros d C; [exact C|]. apply IH, event_Cards, C. Qed.

(** ** The cards work is priced by *)

Definition active_card (p : BillingProfile) (partnerId : string) : bool := String.eqb (pr_partnerId p) partnerId && pr_isActive p.

(** The card of an organization: its own when it is active and in the currency,
    else the partner's default. *)
Definition card_for (d : RateDb) (orgId partnerId currencyCode : string) (p : BillingProfile) : Prop :=
  In p (rd_profiles d) /\ pr_partnerId p = partnerId /\ pr_isActive p = true /\ pr_currencyCode p = currencyCode /\
  (option_map as_billingProfileId (getOrgAssignment orgId partnerId d) = Some (pr_id p) \/
   pr_isDefault p = true /\
   forall q, In q (rd_profiles d) -> option_map as_billingProfileId (getOrgAssignment orgId partnerId d) = Some (pr_id q) ->
     pr_partnerId q = partnerId -> pr_isActive q = true -> pr_currencyCode q <> currencyCode).

Lemma find_card d f g :
  (forall p, f (card_of d p) = g p) -> List.find f (map (card_of d) (rd_profiles d)) = option_map (card_of d) (List.find g (rd_profiles d)).
Proof. intros E. induction (rd_profiles d) as [|p ps IH]; cbn; [reflexivity|]. rewrite E. destruct (g p); [reflexivity|exact IH]. Qed.

Lemma assigned_ref tickets d o pn :
  tr_assignments (time_ref tickets d) !! (o, pn) = option_map as_billingProfileId (getOrgAssignment o pn d).
Proof.
  cbn. set (l := map _ (map_to_list (rd_assignments d))).
  assert (L : forall x y, In (x, y) l <-> exists a, rd_assignments d !! fst x = Some a /\ as_partnerId a = snd x /\ as_billingProfileId a = y).
  { intros x y. unfold l. rewrite in_map_iff. split.
    - intros ([k a] & [= <- <-] & Ha). exists a. apply list_elem_of_In, elem_of_map_to_list in Ha. auto.
    - intros (a & Ha & Ep & <-). exists (fst x, a). split; [cbn; rewrite Ep; destruct x; reflexivity|]. apply list_elem_of_In, elem_of_map_to_list, Ha. }
  unfold getOrgAssignment. destruct (list_to_map l !! (o, pn)) as [y|] eqn:E.
  - apply elem_of_list_to_map_2, list_elem_of_In, L in E as (a & Ha & Ep & <-). cbn in Ha, Ep. rewrite Ha, Ep, String.eqb_refl. reflexivity.
  - destruct (rd_assignments d !! o) as [a|] eqn:Ea; [|reflexivity]. destruct (String.eqb_spec (as_partnerId a) pn) as [Ep|]; [|reflexivity].
    apply not_elem_of_list_to_map_2 in E. elim E. apply list_elem_of_In, in_map_iff. exists ((o, pn), as_billingProfileId a). split; [reflexivity|]. apply L. exists a. auto.
Qed.

(** The cards the time service loads are rows of the tables. *)
Lemma loadCards_ref tickets d o pn cur :
  loadCardsForOrg (time_ref tickets d) o pn cur =
  (match getOrgAssignment o pn d with
   | Some a => option_map (fun p => pf_card (card_of d p)) (List.find (fun p => is_profile (as_billingProfileId a) pn p && pr_isActive p) (rd_profiles d))
   | None => None
   end, option_map (fun p => pf_card (card_of d p)) (List.find (default_card pn cur) (rd_profiles d))).
Proof.
  unfold loadCardsForOrg. rewrite assigned_ref. f_equal.
  - destruct (getOrgAssignment o pn d) as [a|]; [|reflexivity]. cbn [option_map]. unfold time_ref. cbn [tr_profiles].
    rewrite (find_card d _ (fun p => is_profile (as_billingProfileId a) pn p && pr_isActive p)) by (intros p; reflexivity).
    destruct (List.find _ _); reflexivity.
  - unfold time_ref. cbn [tr_profiles]. rewrite (find_card d _ (default_card pn cur)) by (intros p; reflexivity). destruct (List.find _ _); reflexivity.
Qed.

Lemma chosen_is_card_for tickets d o pn cur :
  Tables d -> has_default pn cur d -> let cards := loadCardsForOrg (time_ref tickets d) o pn cur in
  exists p, card_for d o pn cur p /\ chosen_card (Some cur) (fst cards) (snd cards) = Some (pf_card (card_of d p)).
Proof.
  intros T (q & Hq & Dq). cbv zeta. rewrite loadCards_ref. cbn [fst snd].
  destruct (List.find (default_card pn cur) (rd_profiles d)) as [f|] eqn:Ef; [|rewrite (find_none _ _ Ef q Hq) in Dq; discriminate].
  apply find_some in Ef as [Hf Df]. apply default_card_spec in Df as (F1 & F2 & F3 & F4).
  assert (Ec : String.eqb (pr_currencyCode f) cur = true) by (apply String.eqb_eq; exact F2). unfold card_for, chosen_card. destruct (getOrgAssignment o pn d) as [a|] eqn:Ea; cbn.
  - destruct (List.find _ _) as [x|] eqn:Ex; cbn.
    + apply find_some in Ex as [Hx Kx]. apply andb_true_iff in Kx as [Kx Ax]. apply is_profile_spec in Kx as [Ix Px].
      destruct (String.eqb_spec (pr_currencyCode x) cur) as [Cx|Cx]; [exists x; split; [repeat split; try assumption; left; congruence|reflexivity]|].
      rewrite Ec. exists f. split; [|reflexivity]. repeat split; try assumption. right. split; [exact F3|]. intros y Hy [= Iy] _ _.
      rewrite (unique_in pr_id _ y x (rc_ids _ T) Hy Hx) by congruence. exact Cx.
    + rewrite Ec. exists f. split; [|reflexivity]. repeat split; try assumption. right. split; [exact F3|]. intros y Hy [= Iy] Py Ay.
      pose proof (find_none _ _ Ex y Hy) as N. cbn in N. rewrite Ay, andb_true_r in N. assert (K : is_profile (as_billingProfileId a) pn y = true) by (apply is_profile_spec; auto). congruence.
  - rewrite Ec. exists f. split; [|reflexivity]. repeat split; try assumption. right. split; [exact F3|]. discriminate.
Qed.

Lemma card_row_priced d p r : Tables d -> In p (rd_profiles d) -> In r (rules (pf_card (card_of d p))) ->
  priced_ok (pr_currencyCode p) (rule_coverage r) (rule_hourlyRate r) (rule_minimumMinutes r).
Proof.
  intros T Hp Hr. cbn in Hr. apply in_map_iff in Hr as (x & <- & Hx). apply filter_In in Hx as [Hx Hxp]. destruct (rc_rules _ T x Hx) as [(q & Hq & Hxq & P) _].
  apply rule_of_spec in Hxp as [E1 _], Hxq as [E2 _]. rewrite <- (unique_in pr_id _ q p (rc_ids _ T) Hq Hp) by congruence. exact P.
Qed.

(** The terms a card gives: the row of the work type, else the base row, and a
    price only on billable work. *)
Lemma card_stamp d p cur cards w :
  Tables d -> In p (rd_profiles d) -> chosen_card (Some cur) (fst cards) (snd cards) = Some (pf_card (card_of d p)) ->
  let s := rule_stamp (resolveBillingRule (Some cur) (fst cards) (snd cards) w) in
  sm_billingProfileId s = Some (pr_id p) /\ sm_roundingIncrementMinutes s = pr_roundingIncrementMinutes p /\
  forall rate, sm_hourlyRate s = Some rate -> representable rate (pr_currencyCode p) /\ sm_coverage s = cov_billable.
Proof.
  intros T Hp E. cbv zeta. unfold resolveBillingRule. rewrite E.
  assert (K : exists cov rate m, (match List.find (rule_for w) (rules (pf_card (card_of d p))) with
      | Some r => (rule_coverage r, rule_hourlyRate r, rule_minimumMinutes r) | None => (baseCoverage (pf_card (card_of d p)), baseHourlyRate (pf_card (card_of d p)), baseMinimumMinutes (pf_card (card_of d p))) end) = (cov, rate, m) /\
      priced_ok (pr_currencyCode p) cov rate m).
  { destruct (List.find _ _) as [r|] eqn:F; do 3 eexists; split; try reflexivity; [|apply (rc_profiles _ T p Hp)]. apply find_some in F as [F _]. exact (card_row_priced _ _ _ T Hp F). }
  destruct K as (cov & rate & m & -> & P). cbn. split; [reflexivity|split; [reflexivity|]]. intros x Hx. destruct cov; try discriminate. split; [apply P, Hx|reflexivity].
Qed.

(** C13: The rate card tables stay in order: from tables in order, whatever
    sequence of card, row, default, assignment, organization, currency and work
    type operations, names and work type labels are unique for a partner whatever
    the case of the letters, a currency has at most one active default and a
    default is active, every rate of a card or a row is in whole minor units of
    the card's currency and only on billable work, rows belong to a card and a
    work type of the same partner, an assignment to a card of the organization's
    partner, and every organization has a default card in its currency. *)
Theorem rate_cards_in_order evs d : Cards d -> Cards (fold_left rate_event evs d).
Proof. apply events_Cards. Qed.

(** C12: Work is always priced in the currency of its organization: after any
    sequence of operations on the card tables, the stamp the time service
    resolves for an organization comes from an active card of its partner in the
    organization's currency, the assigned one when it qualifies and else the
    default; its rate is in whole minor units of that currency and only on
    billable work, and its rounding increment is one the billed minutes are exact
    for. *)
Theorem org_work_priced_in_currency evs d tickets o pn cur w :
  Cards d -> let d' := fold_left rate_event evs d in
  rd_organizations d' !! o = Some (pn, cur) -> o <> "" -> cur <> "" ->
  let r := time_ref tickets d' in let s := resolveEntryBilling r (Some o) pn (Some cur) w in
  cards_ok r /\
  exists p, card_for d' o pn cur p /\ sm_billingProfileId s = Some (pr_id p) /\ sm_roundingIncrementMinutes s = pr_roundingIncrementMinutes p /\
    forall rate, sm_hourlyRate s = Some rate -> representable rate cur /\ sm_coverage s = cov_billable.
Proof.
  intros C d' Ho No Nc r s. destruct (events_Cards evs d C) as [T O]. fold d' in T, O. split.
  - intros k Hk. cbn in Hk. apply in_map_iff in Hk as (p & <- & Hp). intros i Hi. cbn in Hi. pose proof (fo_chk _ _ (rc_profiles _ T p Hp)) as K.
    unfold profile_chk in K. rewrite Hi in K. breflect. lia.
  - destruct (chosen_is_card_for tickets d' o pn cur T (O _ _ _ Ho)) as (p & Hp & Ec). exists p. split; [exact Hp|].
    destruct Hp as (Hin & _ & _ & Ecur & _). unfold s, resolveEntryBilling.
    assert (To : truthy (Some o) = Some o) by (destruct o; [elim (No eq_refl)|reflexivity]).
    assert (Tc : truthy (Some cur) = Some cur) by (destruct cur; [elim (Nc eq_refl)|reflexivity]). rewrite To, Tc.
    destruct (card_stamp d' p cur _ w T Hin Ec) as (S1 & S2 & S3). rewrite Ecur in S3. exact (conj S1 (conj S2 S3)).
Qed.

(** ** The search for a default card ends *)

Lemma lower_app a b : lower (a ++ b) = lower a ++ lower b.
Proof. induction a as [|c a IH]; [reflexivity|]. change (String (lower_char c) (lower (a ++ b)) = String (lower_char c) (lower a ++ lower b)). f_equal. exact IH. Qed.

Lemma lower_digits s : all_digits s = true -> lower s = s.
Proof.
  induction s as [|c s IH]; [reflexivity|]. cbn. rewrite andb_true_iff. intros [Hc Hs]. rewrite (IH Hs). f_equal.
  destruct c as [[] [] [] [] [] [] [] []]; try discriminate Hc; reflexivity.
Qed.

Lemma length_lower s : String.length (lower s) = String.length s.
Proof. induction s as [|c s IH]; cbn; congruence. Qed.

Lemma append_head a b c : (a ++ b = a ++ c)%string -> b = c.
Proof. induction a as [|x a IH]; [auto|]. intros E. change (String x (a ++ b) = String x (a ++ c)) in E. injection E as E. exact (IH E). Qed.

Lemma append_tail a b c : (a ++ c = b ++ c)%string -> a = b.
Proof.
  intros E. assert (L : String.length a = String.length b) by (apply (f_equal slen) in E; rewrite !slen_app in E; unfold slen in E; lia).
  revert b E L. induction a as [|x a IH]; intros [|y b] E L; try discriminate; [reflexivity|].
  change (String x (a ++ c) = String y (b ++ c)) in E. injection E as -> E. f_equal. apply IH; [exact E|]. cbn in L. lia.
Qed.

(** Names with different suffixes differ whatever the case. *)
Lemma default_name_inj cur : Inj eq eq (fun k => lower (default_name cur k)).
Proof.
  intros i j E. assert (L : slen (default_name cur i) = slen (default_name cur j)) by (unfold slen; rewrite <- (length_lower (default_name cur i)), E, length_lower; reflexivity).
  destruct i as [|[|i]], j as [|[|j]]; try reflexivity; unfold default_name in L, E; try (exfalso; rewrite !slen_app in L; unfold slen in L; cbn in L; lia).
  rewrite !lower_app in E. apply append_head, append_head, append_head, append_tail in E. rewrite !lower_digits in E by (apply all_digits_print; lia).
  apply (f_equal dec_val) in E. rewrite !dec_val_print in E by lia. lia.
Qed.

Definition taken (ps : list BillingProfile) (pn cur : string) (k : nat) : bool :=
  existsb (fun q => String.eqb (pr_partnerId q) pn && String.eqb (lower (pr_name q)) (lower (default_name cur k))) ps.

(** Of one suffix more than there are cards, one is free. *)
Lemma some_suffix_free ps pn cur : exists k, (k <= List.length ps)%nat /\ taken ps pn cur k = false.
Proof.
  destruct (existsb (fun k => negb (taken ps pn cur k)) (seq 0 (S (List.length ps)))) eqn:E.
  - apply existsb_exists in E as (k & Hk & E). apply in_seq in Hk. exists k. split; [lia|]. apply negb_true_iff, E.
  - exfalso. set (names := map (fun k => lower (default_name cur k)) (seq 0 (S (List.length ps)))).
    assert (N : List.NoDup names) by (apply Finite.Injective_map_NoDup; [exact (default_name_inj cur)|apply seq_NoDup]).
    assert (I : incl names (map (fun q => lower (pr_name q)) ps)).
    { intros x Hx. apply in_map_iff in Hx as (k & <- & Hk). destruct (taken ps pn cur k) eqn:Tk.
      - apply existsb_exists in Tk as (q & Hq & Tk). apply andb_true_iff in Tk as [_ Tk]. apply String.eqb_eq in Tk. rewrite <- Tk. apply (in_map (fun q => lower (pr_name q))), Hq.
      - assert (X : existsb (fun k => negb (taken ps pn cur k)) (seq 0 (S (List.length ps))) = true) by (apply existsb_exists; exists k; rewrite Tk; auto). congruence. }
    pose proof (NoDup_incl_length N I) as L. unfold names in L. rewrite !length_map, length_seq in L. lia.
Qed.

Lemma default_name_chk pn cur k id : profile_chk (default_values pn cur (default_name cur k) id) = true.
Proof. destruct k as [|[|k]]; reflexivity. Qed.

Lemma accept_default pn cur k id d :
  accept_profile (default_values pn cur (default_name cur k) id) d = Ok (default_values pn cur (default_name cur k) id, d).
Proof.
  unfold accept_profile, bind, lift, pg_check. cbn [rbind default_values pr_baseHourlyRate pg_numeric10_opt pr_roundingIncrementMinutes pr_baseMinimumMinutes].
  change (with_rate None _) with (default_values pn cur (default_name cur k) id). cbn [pg_int4 forallb andb rbind]. unfold pg_int4. cbn [forallb andb rbind].
  rewrite default_name_chk. reflexivity.
Qed.

(** One round: a card of the suffix, or the name is taken. *)
Lemma default_round pn cur k d :
  str_mem cur (rd_currencies d) = true -> List.find (default_card pn cur) (rd_profiles d) = None ->
  let p := default_values pn cur (default_name cur k) (uuid (rd_next d)) in
  insert_or_nothing (default_values pn cur (default_name cur k)) d =
    Ok (if profile_free p (rd_profiles d) then (Some p, set_profiles (rd_profiles d ++ [p])%list (bump_next d)) else (None, bump_next d)) /\
  (profile_free p (rd_profiles d) = false -> taken (rd_profiles d) pn cur k = true).
Proof.
  intros Hc Hn p. split.
  - unfold insert_or_nothing, mint_rate. unfold bind at 1. unfold bind at 1. rewrite accept_default. unfold bind at 1, read at 1. cbn [bump_next rd_profiles]. fold p.
    destruct (profile_free p (rd_profiles d)); [|reflexivity]. unfold read, bind, pg_foreign_key. cbn [bump_next rd_currencies].
    change (pr_currencyCode p) with cur. rewrite Hc. reflexivity.
  - intros F. destruct (taken _ _ _ _) eqn:Tk; [reflexivity|]. exfalso. assert (X : profile_free p (rd_profiles d) = true); [|congruence].
    apply forallb_forall. intros q Hq. apply orb_true_iff. right. apply negb_true_iff, orb_false_iff. split.
    + destruct (same_name p q) eqn:E; [|reflexivity]. rewrite same_name_sym in E. rewrite <- Tk. symmetry. apply existsb_exists. exists q. auto.
    + destruct (both_default p q) eqn:E; [|reflexivity]. pose proof (find_none _ _ Hn q Hq) as N. rewrite <- N. symmetry. rewrite both_default_sym in E.
      unfold both_default in E. unfold default_card. cbn in E |- *. breflect. repeat (apply andb_true_iff; split); assumption.
Qed.

(** Enough rounds to reach a free suffix always give the same card. *)
Lemma ensure_loop_total pn cur j : forall k d,
  (k <= j)%nat -> taken (rd_profiles d) pn cur j = false -> str_mem cur (rd_currencies d) = true ->
  exists p d', (forall fuel, (j - k < fuel)%nat -> ensure_loop fuel k pn cur d = Ok (Some p, d')) /\
    default_card pn cur p = true /\ rd_rules d' = rd_rules d /\ rd_assignments d' = rd_assignments d /\ rd_organizations d' = rd_organizations d /\ rd_currencies d' = rd_currencies d /\
    (rd_profiles d' = rd_profiles d /\ In p (rd_profiles d) \/ rd_profiles d' = (rd_profiles d ++ [p])%list /\ List.find (default_card pn cur) (rd_profiles d) = None /\ pr_baseHourlyRate p = None).
Proof.
  intros k d Hk. remember (j - k)%nat as n eqn:En. revert k d Hk En. induction n as [|n IH]; intros k d Hk En Ht Hc.
  all: destruct (List.find (default_card pn cur) (rd_profiles d)) as [q|] eqn:F.
  1,3: exists q, d; apply find_some in F as F2; split; [intros [|fuel] L; [lia|]; cbn [ensure_loop]; unfold bind, read; rewrite F; reflexivity|intuition].
  all: destruct (default_round pn cur k d Hc F) as [R X]; set (p := default_values pn cur (default_name cur k) (uuid (rd_next d))) in *;
    destruct (profile_free p (rd_profiles d)) eqn:Fp;
    [exists p; eexists; split; [intros [|fuel] L; [lia|]; cbn [ensure_loop]; unfold bind at 1, read at 1; rewrite F; unfold bind; rewrite R; reflexivity|];
     split; [apply default_card_spec; auto|cbn; auto 10]|].
  - specialize (X eq_refl). replace k with j in X by lia. congruence.
  - specialize (X eq_refl). assert (k <> j) by (intros ->; congruence). destruct (IH (S k) (bump_next d) ltac:(lia) ltac:(lia) Ht Hc) as (q & d' & E & Q).
    exists q, d'. change (rd_profiles (bump_next d)) with (rd_profiles d) in Q. rewrite F in Q. split; [|exact Q]. intros [|fuel] L; [lia|]. cbn [ensure_loop]. unfold bind at 1, read at 1. rewrite F. unfold bind. rewrite R. apply E. lia.
Qed.

(** The tables before and after a default card is ensured. *)
Definition ensured (pn cur : string) (p : BillingProfile) (d d' : RateDb) : Prop :=
  default_card pn cur p = true /\ rd_rules d' = rd_rules d /\ rd_assignments d' = rd_assignments d /\ rd_organizations d' = rd_organizations d /\
  (rd_profiles d' = rd_profiles d /\ In p (rd_profiles d) \/
   rd_profiles d' = (rd_profiles d ++ [p])%list /\ List.find (default_card pn cur) (rd_profiles d) = None /\ pr_baseHourlyRate p = None).

Lemma ensure_total pn cur d :
  str_mem cur (rd_currencies d) = true ->
  exists p d', ensureDefaultProfile pn cur d = Ok (p, d') /\
    (forall fuel, (List.length (rd_profiles d) < fuel)%nat -> ensure_loop fuel 0 pn cur d = Ok (Some p, d')) /\ ensured pn cur p d d'.
Proof.
  intros Hc. destruct (some_suffix_free (rd_profiles d) pn cur) as (j & Hj & Ht).
  destruct (ensure_loop_total pn cur j 0 d (Nat.le_0_l j) Ht Hc) as (p & d' & E & Hp & H1 & H2 & H3 & _ & H4). exists p, d'. split; [|split; [|repeat split; auto]].
  - unfold ensureDefaultProfile, bind, read. rewrite (E (S (List.length (rd_profiles d)))) by lia. reflexivity.
  - intros fuel L. apply E. lia.
Qed.

(** C15: The search for the name of a default card ends: for a supported currency,
    whatever cards and names the tables hold, one round more than there are cards
    is enough and any more rounds change nothing; the result is an active default
    of the partner in the currency, which was there or is the one card added,
    without a price. *)
Theorem ensure_default_terminates pn cur d :
  str_mem cur (rd_currencies d) = true ->
  exists p d', ensureDefaultProfile pn cur d = Ok (p, d') /\
    (forall fuel, (List.length (rd_profiles d) < fuel)%nat -> ensure_loop fuel 0 pn cur d = Ok (Some p, d')) /\
    ensured pn cur p d d'.
Proof. apply ensure_total. Qed.

End Properties.

(** ** A partner's cards *)

Definition no_cards : RateDb := mkRateDb [] [] ∅ ∅ [] ∅ {["p1" := "USD"]} ["USD"; "EUR"; "JPY"] 0.

Lemma no_cards_in_order : Cards no_cards.
Proof.
  constructor; [constructor|]; cbn; try apply List.NoDup_nil; try (solve [intros ? []]); try (solve [intros ? ? []]).
  - intros n _. split; [intros []|split; [apply lookup_empty|intros []]].
  - intros o a Ha. rewrite lookup_empty in Ha. discriminate Ha.
  - intros o p c Ho. rewrite lookup_empty in Ho. discriminate Ho.
Qed.

Definition owner : WorkTypeCaller := mkCaller sc_partner (Some oa_all).
Definition desk : InvoiceActor := mkActor (Some "u1") (Some "p1") None None.

(** An organization and its default card, a work type, a euro card with a row for
    it that becomes the default of its currency, a move of the organization to
    euros, and an attempt to archive the card it now depends on. *)
Definition euro_move : list RateEvent :=
  [rv_organization "p1"; rv_type_create owner "p1" "On-site" None;
   rv_create owner "p1" (mkCreateProfile " Euro " None "EUR" cov_billable (Some (Some "95.00")) None (Some (Some 15)) (Some true)
     (Some [mkRow "2" cov_billable (Some "150.00") (Some 60) None]));
   rv_currency "0" "EUR" "USD" (Some true) desk;
   rv_update owner "3" "p1" (mkUpdateProfile None None None None None None None None (Some false))].

Definition euro_tables : RateDb := fold_left rate_event euro_move no_cards.

Example euro_tables_cards :
  map (fun p => (pr_id p, pr_name p, pr_currencyCode p, pr_isDefault p, pr_isActive p)) (rd_profiles euro_tables) =
    [("1", "Standard rates", "USD", true, true); ("3", "Euro", "EUR", true, true)] /\
  rd_organizations euro_tables !! "0" = Some ("p1", "EUR").
Proof. vm_compute. auto. Qed.

Lemma rate_cards_in_order_witness : Cards no_cards /\ Cards euro_tables /\ List.length (rd_rules euro_tables) = 1%nat.
Proof.
  split; [exact no_cards_in_order|split; [|vm_compute; reflexivity]]. exact (rate_cards_in_order euro_move no_cards no_cards_in_order).
Defined.

Lemma org_work_priced_in_currency_witness :
  let s := resolveEntryBilling (time_ref ∅ euro_tables) (Some "0") "p1" (Some "EUR") (Some "2") in
  sm_hourlyRate s = Some "150.00" /\ exists p, card_for euro_tables "0" "p1" "EUR" p /\ sm_billingProfileId s = Some (pr_id p) /\ representable "150.00" "EUR".
Proof.
  cbv zeta. split; [vm_compute; reflexivity|].
  destruct (org_work_priced_in_currency euro_move no_cards ∅ "0" "p1" "EUR" (Some "2") no_cards_in_order) as (_ & p & C & E & _ & R);
    [vm_compute; reflexivity|discriminate|discriminate|]. exists p. split; [exact C|split; [exact E|]]. apply R. vm_compute. reflexivity.
Defined.

(** The plain name is taken by the dollar card. *)
Lemma ensure_default_terminates_witness :
  str_mem "JPY" (rd_currencies euro_tables) = true /\
  exists p d', ensureDefaultProfile "p1" "JPY" euro_tables = Ok (p, d') /\ pr_name p = "Standard rates (JPY)" /\ ensured "p1" "JPY" p euro_tables d'.
Proof.
  assert (Hc : str_mem "JPY" (rd_currencies euro_tables) = true) by (vm_compute; reflexivity). split; [exact Hc|].
  destruct (ensure_default_terminates "p1" "JPY" euro_tables Hc) as (p & d' & E & _ & En). exists p, d'. split; [exact E|split; [|exact En]].
  vm_compute in E. injection E as <- _. reflexivity.
Defined.

(** ** Archiving a work type *)

Definition onsite_category : gmap string Category := {["c1" := mkCategory "p1" (Some "2")]}.
Definition desk_tickets : gmap string Ticket := {["tk1" := mkTicket (Some "p1") "0" (Some "c1")]}.

(** The work type a new entry on a ticket of the category is stamped with. *)
Definition stamped_type (d : RateDb) : option (option string) :=
  match resolveTicketLink (time_ref desk_tickets d) "tk1" (mkTimeActor "u1" (Some "p1") false false None) None with
  | Ok l => Some (ln_workTypeId l)
  | Err _ => None
  end.

Definition with_category : RateDb := set_categories onsite_category euro_tables.

(** Archived, the type is no category's default any more. Made inactive by an
    update it stays one, and new entries go on being stamped with it. *)
Example inactive_type_still_stamped :
  stamped_type with_category = Some (Some "2") /\
  stamped_type (rate_event with_category (rv_type_archive owner "2" "p1")) = Some None /\
  (let d := rate_event with_category (rv_type_update owner "2" "p1" None None (Some false)) in
   map wt_isActive (rd_workTypes d) = [false] /\ stamped_type d = Some (Some "2")).
Proof. vm_compute. auto. Qed.
