(* ===== verification/OrgCurrency.v ===== *)
(** * The currency of an organization
      ([apps/api/src/services/orgCurrencyService.ts])

    The preview of a currency change, which counts and sums per currency the
    drafts, quotes, contracts and unbilled work that keep another currency than
    the target, and the change itself: one locked transaction over the tables of
    [RateCards] and then the preview over what is committed. The sums are the
    SQL ones, exact decimals rounded half away from zero. Currency codes are
    ASCII capitals, where [localeCompare] is the order of bytes. *)

From Stdlib Require Import QArith Qround Qabs.
From S2P Require Import Prelude JsString JsNumber Currency InvoiceMath TimeBilling CatalogPricing ContractCoverage BillingDb InvoiceService QuoteDb TimeEntries RateCards.
From stdpp Require Import base gmap strings list.

Local Open Scope string_scope.
Local Open Scope Z_scope.
Local Open Scope billing_scope.

Record ImpactDocuments := mkImpactDocuments { im_draftInvoices : nat; im_draftQuotes : nat; im_sentQuotes : nat; im_viewedQuotes : nat }.
Record ImpactContracts := mkImpactContracts { im_draft : nat; im_active : nat; im_paused : nat }.
Record ImpactBillables := mkImpactBillables {
  im_monetaryTimeSnapshots : nat; im_readyTimeEntries : nat; im_runningTimeEntries : nat; im_currentlyNonBillableTimeEntries : nat;
  im_missingRateTimeEntries : nat; im_laborAmount : option string;
  im_monetaryPartSnapshots : nat; im_readyParts : nat; im_currentlyNonBillableParts : nat; im_partAmount : string }.

(** One currency of the preview; its recovery is a draft assembled in it. *)
Record OrgCurrencyImpactGroup := mkImpactGroup {
  ig_currencyCode : string; ig_documents : ImpactDocuments; ig_contracts : ImpactContracts; ig_billables : ImpactBillables; ig_recovery : string }.

Record ConfigurationWarnings := mkWarnings {
  cw_profileId : option string; cw_profileCurrency : option string; cw_currencyMismatch : bool;
  cw_orgCatalogOverridesSkipped : nat; cw_rateLessTimeEntries : nat }.

Record OrgCurrencyImpact := mkImpact {
  oi_orgId : string; oi_currentCurrencyCode : string; oi_targetCurrencyCode : string; oi_changeRequired : bool;
  oi_impactsByCurrency : list OrgCurrencyImpactGroup; oi_configurationWarnings : ConfigurationWarnings }.

Definition emptyGroup (currencyCode : string) : OrgCurrencyImpactGroup :=
  mkImpactGroup currencyCode (mkImpactDocuments 0 0 0 0) (mkImpactContracts 0 0 0) (mkImpactBillables 0 0 0 0 0 None 0 0 0 "0") currencyCode.

(** ** Aggregates *)

(** GROUP BY: each key with its rows. *)
Definition group_by {A K} `{EqDecision K} (key : A -> K) (rows : list A) : list (K * list A) :=
  map (fun k => (k, List.filter (fun a => bool_decide (key a = k)) rows)) (remove_dups (map key rows)).

(** [round(v, exp)] of a numeric, in units of the last digit. *)
Definition pg_round (v : Q) (exp : Z) : Z :=
  let m := Qfloor (Qabs v * ten ^ exp + (1 # 2)) in if (Qnum v <? 0)%Z then - m else m.

(** The numeric a stored text holds. *)
Definition numeric_value (s : string) : Q := match parse_text s with Ok d => decQ d | Err _ => 0 end.

(** The text of a numeric with [exp] decimals. *)
Definition numeric_text (exp n : Z) : string := if exp =? 0 then print_int n else fixed2 n.

Definition coalesced_minutes (e : TimeEntry) : Z :=
  match en_billableMinutes e with Some m => m | None => from_option_default (en_durationMinutes e) 0 end.

Definition rate_of (e : TimeEntry) : Q := match tm_hourlyRate (en_terms e) with Some r => numeric_value r | None => 0 end.

Definition labor_units (exp : Z) (e : TimeEntry) : Z :=
  pg_round ((inject_Z (pg_round (inject_Z (coalesced_minutes e) / 60) 2) / 100) * rate_of e) exp.

Definition laborSumSql (exp : Z) (es : list TimeEntry) : string := numeric_text exp (zsum (map (labor_units exp) es)).

Definition part_units (exp : Z) (p : TicketPart) : Z := pg_round (numeric_value (tk_quantity p) * numeric_value (tk_unitPrice p)) exp.

Definition partSumSql (exp : Z) (ps : list TicketPart) : string := numeric_text exp (zsum (map (part_units exp) ps)).

Definition amountFor (sum2 sum0 currency : string) : result string string :=
  roundToCurrency (Str (if minorUnitExponent currency =? 0 then sum0 else sum2)) currency.

(** ** The preview *)

Abbreviation Groups := (gmap string OrgCurrencyImpactGroup).

Definition group (code : string) (gs : Groups) : OrgCurrencyImpactGroup := from_option_default (gs !! code) (emptyGroup code).

Definition on_documents (f : ImpactDocuments -> ImpactDocuments) (code : string) (gs : Groups) : Groups :=
  let g := group code gs in <[code := mkImpactGroup (ig_currencyCode g) (f (ig_documents g)) (ig_contracts g) (ig_billables g) (ig_recovery g)]> gs.
Definition on_contracts (f : ImpactContracts -> ImpactContracts) (code : string) (gs : Groups) : Groups :=
  let g := group code gs in <[code := mkImpactGroup (ig_currencyCode g) (ig_documents g) (f (ig_contracts g)) (ig_billables g) (ig_recovery g)]> gs.
Definition on_billables (f : ImpactBillables -> ImpactBillables) (code : string) (gs : Groups) : Groups :=
  let g := group code gs in <[code := mkImpactGroup (ig_currencyCode g) (ig_documents g) (ig_contracts g) (f (ig_billables g)) (ig_recovery g)]> gs.

Definition count_invoices (orgId target : string) (q : QuoteDb) (gs : Groups) : Groups :=
  let rows := List.filter (fun i => String.eqb (iv_orgId i) orgId && match iv_status i with st_draft => true | _ => false end && negb (String.eqb (iv_currencyCode i) target))
                (map snd (map_to_list (db_invoices (qd_billing q)))) in
  fold_left (fun gs r => on_documents (fun x => mkImpactDocuments (List.length (snd r)) (im_draftQuotes x) (im_sentQuotes x) (im_viewedQuotes x)) (fst r) gs)
    (group_by iv_currencyCode rows) gs.

Definition open_quote (s : QuoteStatus) : bool := match s with qs_draft | qs_sent | qs_viewed => true | _ => false end.

Definition count_quotes (orgId target : string) (q : QuoteDb) (gs : Groups) : Groups :=
  let rows := List.filter (fun x => String.eqb (qt_orgId x) orgId && open_quote (qt_status x) && negb (String.eqb (qt_currencyCode x) target))
                (map snd (map_to_list (qd_quotes q))) in
  fold_left (fun gs r =>
      let n := List.length (snd r) in
      on_documents (fun x => match snd (fst r) with
        | qs_draft => mkImpactDocuments (im_draftInvoices x) n (im_sentQuotes x) (im_viewedQuotes x)
        | qs_sent => mkImpactDocuments (im_draftInvoices x) (im_draftQuotes x) n (im_viewedQuotes x)
        | qs_viewed => mkImpactDocuments (im_draftInvoices x) (im_draftQuotes x) (im_sentQuotes x) n
        | _ => x end) (fst (fst r)) gs)
    (group_by (fun x => (qt_currencyCode x, qt_status x)) rows) gs.

Definition open_contract (s : ContractStatus) : bool := match s with cs_draft | cs_active | cs_paused => true | _ => false end.

Definition count_contracts (orgId target : string) (q : QuoteDb) (gs : Groups) : Groups :=
  let rows := List.filter (fun c => String.eqb (ct_orgId c) orgId && open_contract (ct_status c) && negb (String.eqb (ct_currencyCode c) target))
                (map snd (map_to_list (db_contracts (qd_billing q)))) in
  fold_left (fun gs r =>
      let n := List.length (snd r) in
      on_contracts (fun x => match snd (fst r) with
        | cs_draft => mkImpactContracts n (im_active x) (im_paused x)
        | cs_active => mkImpactContracts (im_draft x) n (im_paused x)
        | cs_paused => mkImpactContracts (im_draft x) (im_active x) n
        | _ => x end) (fst (fst r)) gs)
    (group_by (fun c => (ct_currencyCode c, ct_status c)) rows) gs.

(** Unbilled entries of the organization, with and without a rate. A null
    currency is not unequal to the target. *)
Definition unbilled_entry (orgId : string) (e : TimeEntry) : bool :=
  opt_eqb (en_orgId e) (Some orgId) && is_not_billed (tm_billingStatus (en_terms e)).

Definition stranded_entry (orgId target : string) (e : TimeEntry) : bool :=
  unbilled_entry orgId e && present (tm_hourlyRate (en_terms e)) &&
  match en_currencyCode e with Some c => negb (String.eqb c target) | None => false end.

Definition is_billable_entry (e : TimeEntry) : bool := tm_isBillable (en_terms e).

Definition sum_time (orgId target : string) (t : TimeDb) (gs : Groups) : result string Groups :=
  fold_left (fun acc r =>
      let! gs := acc in
      let key := from_option_default (fst r) UNKNOWN_CURRENCY_KEY in
      let es := snd r in
      let! labor := amountFor (laborSumSql 2 es) (laborSumSql 0 es) key in
      Ok (on_billables (fun b => mkImpactBillables (List.length es)
            (List.length (List.filter (fun e => is_billable_entry e && present (en_endedAt e)) es))
            (List.length (List.filter (fun e => negb (present (en_endedAt e))) es))
            (List.length (List.filter (fun e => negb (is_billable_entry e)) es))
            (im_missingRateTimeEntries b) (Some labor) (im_monetaryPartSnapshots b) (im_readyParts b) (im_currentlyNonBillableParts b) (im_partAmount b))
          key gs))
    (group_by en_currencyCode (List.filter (stranded_entry orgId target) (td_entries t))) (Ok gs).

Definition rateless_entry (orgId : string) (e : TimeEntry) : bool := unbilled_entry orgId e && negb (present (tm_hourlyRate (en_terms e))).

(** Entries without a rate: in an old currency they are in its group, else they
    are a warning. *)
Definition count_rateless (orgId target : string) (t : TimeDb) (gs : Groups) : Groups * nat :=
  fold_left (fun acc r =>
      let '(gs, n) := acc in
      match fst r with
      | Some c =>
          if String.eqb c target then (gs, (n + List.length (snd r))%nat)
          else (on_billables (fun b => mkImpactBillables (im_monetaryTimeSnapshots b) (im_readyTimeEntries b) (im_runningTimeEntries b)
                  (im_currentlyNonBillableTimeEntries b) (List.length (snd r)) (im_laborAmount b) (im_monetaryPartSnapshots b) (im_readyParts b)
                  (im_currentlyNonBillableParts b) (im_partAmount b)) c gs, n)
      | None => (gs, (n + List.length (snd r))%nat)
      end)
    (group_by en_currencyCode (List.filter (rateless_entry orgId) (td_entries t))) (gs, 0%nat).

Definition stranded_part (orgId target : string) (p : TicketPart) : bool :=
  String.eqb (tk_orgId p) orgId && is_not_billed (tk_billingStatus p) && negb (String.eqb (tk_currencyCode p) target).

Definition sum_parts (orgId target : string) (t : TimeDb) (gs : Groups) : result string Groups :=
  fold_left (fun acc r =>
      let! gs := acc in
      let ps := snd r in
      let! amount := amountFor (partSumSql 2 ps) (partSumSql 0 ps) (fst r) in
      Ok (on_billables (fun b => mkImpactBillables (im_monetaryTimeSnapshots b) (im_readyTimeEntries b) (im_runningTimeEntries b)
            (im_currentlyNonBillableTimeEntries b) (im_missingRateTimeEntries b) (im_laborAmount b)
            (List.length ps) (List.length (List.filter tk_isBillable ps)) (List.length (List.filter (fun p => negb (tk_isBillable p)) ps)) amount)
          (fst r) gs))
    (group_by tk_currencyCode (List.filter (stranded_part orgId target) (td_parts t))) (Ok gs).

Fixpoint insert_group (g : OrgCurrencyImpactGroup) (l : list OrgCurrencyImpactGroup) : list OrgCurrencyImpactGroup :=
  match l with
  | [] => [g]
  | h :: r => if str_leb (ig_currencyCode g) (ig_currencyCode h) then g :: l else h :: insert_group g r
  end.

Definition sorted_groups (target : string) (gs : Groups) : list OrgCurrencyImpactGroup :=
  fold_right insert_group []
    (List.filter (fun g => negb (String.eqb (ig_currencyCode g) target) && negb (String.eqb (ig_currencyCode g) UNKNOWN_CURRENCY_KEY)) (map snd (map_to_list gs))).

Definition assigned_profile (orgId partnerId : string) (r : RateDb) : option BillingProfile :=
  match getOrgAssignment orgId partnerId r with
  | Some a => List.find (is_profile (as_billingProfileId a) partnerId) (rd_profiles r)
  | None => None
  end.

Definition overrides_skipped (orgId target : string) (q : QuoteDb) : nat :=
  List.length (List.filter (fun x => String.eqb (snd (fst x)) orgId && negb (String.eqb (snd (snd x)) target))
    (map_to_list (rf_orgPricing (db_ref (qd_billing q))))).

(** What the preview reads: documents, work, and cards. *)
Definition getOrgCurrencyImpact (orgId target : string) (actor : InvoiceActor) (q : QuoteDb) (t : TimeDb) (r : RateDb) : result Failure OrgCurrencyImpact :=
  let! _ := Prelude.guard (match ac_accessibleOrgIds actor with Some ids => str_mem orgId ids | None => true end) (Refused ORG_DENIED) in
  match rd_organizations r !! orgId with
  | None => Err (Refused ORG_NOT_FOUND)
  | Some (partnerId, current) =>
      let thrown {A} (x : result string A) : result Failure A := match x with Ok a => Ok a | Err m => Err (Thrown m) end in
      let gs := count_contracts orgId target q (count_quotes orgId target q (count_invoices orgId target q ∅)) in
      let! gs := thrown (sum_time orgId target t gs) in
      let '(gs, rateless) := count_rateless orgId target t gs in
      let! gs := thrown (sum_parts orgId target t gs) in
      let profile := assigned_profile orgId partnerId r in
      Ok (mkImpact orgId current target (negb (String.eqb current target)) (sorted_groups target gs)
            (mkWarnings (option_map pr_id profile) (option_map pr_currencyCode profile)
               (match profile with Some p => negb (String.eqb (pr_currencyCode p) target) | None => false end)
               (overrides_skipped orgId target q) rateless))
  end.

(** ** The change *)

Record ChangeOrgCurrencyResult := mkChangeResult {
  rs_orgId : string; rs_previousCurrencyCode : string; rs_currencyCode : string; rs_impact : OrgCurrencyImpact }.

Definition changeOrgCurrency `{Uuids} (orgId currencyCode expectedCurrentCurrencyCode : string) (confirmSnapshotRetention : option bool)
    (actor : InvoiceActor) (q : QuoteDb) (t : TimeDb) : RunOf RateDb ChangeOrgCurrencyResult :=
  run! _ := tx (requireOrg actor orgId) in
  run! (outcome, locked) := tx (change_currency orgId currencyCode expectedCurrentCurrencyCode confirmSnapshotRetention actor) in
  run! impact := (fun r => (getOrgCurrencyImpact orgId currencyCode actor q t r, r)) in
  match outcome with
  | co_stale => fun r => (Err (Refused ORG_CURRENCY_CHANGED), r)
  | co_noop => done (mkChangeResult orgId locked locked impact)
  | co_changed => done (mkChangeResult orgId locked currencyCode impact)
  end.
