(* ===== verification/OrgCurrencyProperties.v ===== *)
(** * Properties of a currency change

    The preview's SQL sums are the line totals the assembly of a draft in that
    currency computes in doubles and decimals, every stranded row is in the group
    of its own currency, and a change that fails changes nothing. *)

From Stdlib Require Import QArith Qround Qabs Lqa.
From S2P Require Import Prelude JsString JsNumber Currency InvoiceMath ContractMath TimeBilling CatalogPricing ContractCoverage BillingDb InvoiceService QuoteDb InvoiceInvariants TimeEntries TimeEntrySafety TimeProperties RateCards RateCardSafety RateProperties OrgCurrency.
From stdpp Require Import base gmap strings list.

Local Open Scope string_scope.
Local Open Scope Z_scope.
Local Open Scope billing_scope.

(** ** The labour rule in SQL and in the assembly *)

Lemma pg_round_nonneg v exp : (0 <= v)%Q -> pg_round v exp = minor_of v exp.
Proof.
  intros Hv. unfold pg_round, minor_of, half_up. destruct (Z.ltb_spec (Qnum v) 0) as [L|_].
  - exfalso. unfold Qle in Hv. cbn in Hv. lia.
  - apply Qfloor_comp. rewrite Qabs_pos by exact Hv. reflexivity.
Qed.

(** Minutes to hundredths of an hour: never a tie, so the double is close
    enough. *)
Lemma hours_hundredths m : 0 <= m -> minor_of (inject_Z m / 60) 2 = (10 * m + 3) / 6.
Proof.
  intros Hm. unfold minor_of, half_up. change (ten ^ 2)%Q with 100%Q. rewrite (Qfloor_comp _ (inject_Z (10 * m + 3) / inject_Z 6)).
  - rewrite <- Zdiv_Qdiv. reflexivity.
  - rewrite inject_Z_plus, inject_Z_mult. change (inject_Z 10) with 10%Q. change (inject_Z 3) with 3%Q. change (inject_Z 6) with 6%Q. field.
Qed.

Lemma minutes_normal m : normal (inject_Z m / 60).
Proof.
  unfold normal. destruct (Z.eq_dec m 0) as [->|Hm]; [left; reflexivity|right].
  assert (H : (1 <= Qabs (inject_Z m))%Q) by (rewrite Qabs_int; change 1%Q with (inject_Z 1); rewrite <- Zle_Qle; lia).
  unfold Qdiv. rewrite Qabs_Qmult. assert (two ^ (-1022) <= 1 # 1000)%Q by (vm_compute; discriminate). change (Qabs (/ 60))%Q with (1 # 60)%Q. lra.
Qed.

Lemma hours_text m : 0 <= m < 2 ^ 31 -> toFixed 2 (js_div (ofZ m) (ofZ 60)) = fixed2 ((10 * m + 3) / 6).
Proof.
  intros Hm. change (js_div (ofZ m) (ofZ 60)) with (JsNumber.fin (inject_Z m / 60)). set (q := (inject_Z m / 60)%Q).
  assert (B : (0 <= inject_Z m <= 2147483648)%Q) by (change 2147483648%Q with (inject_Z 2147483648); change 0%Q with (inject_Z 0); rewrite <- !Zle_Qle; lia).
  assert (Hq : (0 <= q <= 40000000)%Q) by (unfold q, Qdiv; change (/ 60)%Q with (1 # 60)%Q; lra).
  rewrite fin_small by (rewrite Qabs_pos by apply Hq; assert (40000000 <= two ^ 1000)%Q by (vm_compute; discriminate); lra).
  unfold toFixed. set (x := Qred (rnd q)).
  assert (Hx : (Qabs (x - q) <= q * (1 # 9000000000000000))%Q).
  { unfold x. rewrite Qred_correct. pose proof (rnd_err q (minutes_normal m)) as E. rewrite (Qabs_pos q) in E by apply Hq. pose proof u53_small.
    eapply Qle_trans; [exact E|]. rewrite !(Qmult_comm q). apply Qmult_le_compat_r; [assumption|apply Hq]. }
  apply Qabs_Qle_condition in Hx. assert (Hx0 : (0 <= x)%Q) by lra.
  assert (E : Qle_bool (ten ^ 21) (Qabs x) = false).
  { destruct (Qle_bool _ _) eqn:E; [|reflexivity]. apply Qle_bool_iff in E. rewrite Qabs_pos in E by exact Hx0. change (ten ^ 21)%Q with 1000000000000000000000%Q in E. lra. }
  rewrite E. destruct (Z.ltb_spec (Qnum x) 0) as [L|_]; [unfold Qle in Hx0; cbn in Hx0; lia|].
  pose proof (Z.div_mod (10 * m + 3) 6 ltac:(lia)) as D. pose proof (Z.mod_pos_bound (10 * m + 3) 6 ltac:(lia)) as R.
  set (h := (10 * m + 3) / 6) in *. assert (Hh : 0 <= h) by (apply Z.div_pos; lia).
  assert (R1 : 1 <= (10 * m + 3) mod 6 <= 5).
  { destruct (Z.eq_dec ((10 * m + 3) mod 6) 0) as [Z0|]; [|lia]. rewrite Z0 in D. lia. }
  assert (Qfloor (Qabs x * ten ^ 2 + (1 # 2)) = h) as ->.
  { apply Qfloor_near. rewrite (Qabs_pos x) by exact Hx0. change (ten ^ 2)%Q with 100%Q.
    assert (Eq : (q * 100 == inject_Z h + (inject_Z ((10 * m + 3) mod 6) - 3) * (1 # 6))%Q).
    { unfold q. assert (I : (inject_Z (10 * m + 3) == inject_Z (6 * h + (10 * m + 3) mod 6))%Q) by (rewrite D at 1; reflexivity).
      rewrite !inject_Z_plus, !inject_Z_mult in I. change (inject_Z 10) with 10%Q in I. change (inject_Z 3) with 3%Q in I. change (inject_Z 6) with 6%Q in I. unfold Qdiv. change (/ 60)%Q with (1 # 60)%Q. lra. }
    assert (R2 : (1 <= inject_Z ((10 * m + 3) mod 6) <= 5)%Q) by (change 1%Q with (inject_Z 1); change 5%Q with (inject_Z 5); rewrite <- !Zle_Qle; exact R1).
    apply Qabs_Qlt_condition. split; lra. }
  rewrite fixed_digits_2 by lia. unfold fixed2. rewrite (Z.abs_eq h Hh). destruct (Z.ltb_spec h 0); [lia|reflexivity].
Qed.

Lemma numeric_value_fixed2 c : (numeric_value (fixed2 c) == centsQ c)%Q.
Proof.
  destruct (reads_parse _ _ _ (fixed2_reads c)) as (g & d & Hs & Hd & _ & Hv). unfold numeric_value, parse_text. rewrite Hs, Hd. exact Hv.
Qed.

Lemma print_dec_reads n : 0 <= n -> reads_as (print_dec n) false (inject_Z n).
Proof.
  intros Hn. pose proof (all_digits_print _ Hn) as Hd. exists (print_dec n), "", (print_dec n). split; [reflexivity|].
  assert (S : scan_sign (append (print_dec n) "") = (false, append (print_dec n) "")) by (apply scan_sign_digits; [exact Hd|apply print_dec_nonempty]).
  rewrite append_nil_r in S. split; [exact S|split; [apply scan_int, Hd|split; [exact Hd|split; [reflexivity|split; [apply print_dec_nonempty|]]]]].
  rewrite dec_Q_frac, append_nil_r, dec_val_print by exact Hn. change (ten ^ (- slen ""))%Q with 1%Q. ring.
Qed.

Lemma numeric_text_parses exp n : 0 <= n -> exp = 0 \/ exp = 2 -> parses (Str (numeric_text exp n)) (inject_Z n / ten ^ exp).
Proof.
  intros Hn [->| ->]; unfold numeric_text; cbn [Z.eqb].
  - unfold print_int. rewrite (proj2 (Z.ltb_ge n 0)) by exact Hn. destruct (parses_text (print_dec n) false (inject_Z n)) as (d & Hd & Hu & Hv).
    + exact (print_dec_reads n Hn).
    + apply all_digits_no_space, all_digits_print, Hn.
    + apply print_dec_nonempty.
    + exists d. split; [exact Hd|split; [exact Hu|]]. rewrite Hv. change (ten ^ 0)%Q with 1%Q. field.
  - exact (parses_fixed2 n).
Qed.

(** A sum of amounts at the minor unit is only formatted. *)
Lemma amountFor_sum {A} (units : Z -> A -> Z) (sum : Z -> list A -> string) (rows : list A) cur :
  (forall exp l, sum exp l = numeric_text exp (zsum (map (units exp) l))) ->
  (forall a, In a rows -> 0 <= units (minorUnitExponent cur) a) ->
  amountFor (sum 2 rows) (sum 0 rows) cur =
    Ok (fixed2 (zsum (map (fun a => minor_cents (units (minorUnitExponent cur) a) (minorUnitExponent cur)) rows))).
Proof.
  intros Es Hu. unfold amountFor. set (exp := minorUnitExponent cur) in *.
  assert (E : (if exp =? 0 then sum 0 rows else sum 2 rows) = numeric_text exp (zsum (map (units exp) rows)))
    by (unfold exp; destruct (minorUnitExponent_cases cur) as [->| ->]; apply Es).
  rewrite E. rewrite (roundToCurrency_parses _ (inject_Z (zsum (map (units exp) rows)) / ten ^ exp)).
  - f_equal. f_equal. fold exp. rewrite minor_of_exact by apply minorUnitExponent_nonneg. unfold minor_cents, zsum. clear. generalize (10 ^ (2 - exp)).
    intros k. induction rows as [|a l IH]; [reflexivity|]. cbn [map fold_right]. rewrite Z.mul_add_distr_r, IH. reflexivity.
  - apply numeric_text_parses; [|apply minorUnitExponent_cases]. apply zsum_nonneg, List.Forall_forall. intros x Hx. apply in_map_iff in Hx as (a & <- & Ha). exact (Hu a Ha).
Qed.

Definition entry_row (e : TimeEntry) : TimeEntryRow := se_row (billing_entry e).
Definition part_row (p : TicketPart) : TicketPartRow := sp_row (billing_part p).

(** What the schemas accept: minutes of the column, amounts that are not
    negative. *)
Definition entry_nonneg (e : TimeEntry) : Prop :=
  0 <= coalesced_minutes e < 2 ^ 31 /\ forall r, tm_hourlyRate (en_terms e) = Some r -> (0 <= numeric_value r)%Q.
Definition part_nonneg (p : TicketPart) : Prop := (0 <= numeric_value (tk_quantity p) /\ 0 <= numeric_value (tk_unitPrice p))%Q.

Lemma column_money s : pg_numeric10 s = Ok s -> (0 <= numeric_value s)%Q -> exists c, s = fixed2 c /\ 0 <= c <= cents_bound.
Proof.
  intros E Hn. destruct (pg_numeric_money _ _ (pg_numeric10_ok _ _ E)) as (c & -> & Hc). exists c. split; [reflexivity|].
  rewrite numeric_value_fixed2 in Hn. unfold centsQ, Qle, column_bound, cents_bound in *. cbn in Hn. lia.
Qed.

(** The cents of a line in the currency. *)
Definition entry_cents (cur : string) (e : TimeEntry) : Z := minor_cents (labor_units (minorUnitExponent cur) e) (minorUnitExponent cur).
Definition part_cents (cur : string) (p : TicketPart) : Z := minor_cents (part_units (minorUnitExponent cur) p) (minorUnitExponent cur).

Lemma centsQ_nonneg c : 0 <= c -> (0 <= centsQ c)%Q.
Proof. intros Hc. unfold centsQ, Qle. cbn. lia. Qed.

Lemma minor_of_nonneg v exp : (0 <= v)%Q -> 0 <= minor_of v exp.
Proof.
  intros Hv. unfold minor_of, half_up. rewrite <- (Qfloor_Z 0). apply Qfloor_resp_le. change (inject_Z 0) with 0%Q.
  pose proof (Qmult_le_0_compat _ _ Hv (Qlt_le_weak _ _ (ten_pos exp))). lra.
Qed.

Lemma labor_line e cur rate :
  row_ok e -> entry_nonneg e -> tm_hourlyRate (en_terms e) = Some rate ->
  0 <= labor_units (minorUnitExponent cur) e /\
  exists s, timeEntryToLineSpec (entry_row e) cur = Ok s /\ ds_lineTotal s = fixed2 (entry_cents cur e).
Proof.
  intros R [M N] Er. pose proof (ro_stored _ R) as S. rewrite Er in S. cbn in S.
  assert (S1 : pg_numeric10 rate = Ok rate) by (destruct (pg_numeric10 rate); [|discriminate]; injection S as ->; reflexivity).
  destruct (column_money _ S1 (N _ Er)) as (c & -> & Hc). set (h := (10 * coalesced_minutes e + 3) / 6). assert (Hh : 0 <= h) by (apply Z.div_pos; lia).
  assert (P : pg_round (inject_Z (coalesced_minutes e) / 60) 2 = h).
  { rewrite pg_round_nonneg; [apply hours_hundredths, M|]. apply Qle_shift_div_l; [reflexivity|]. change (0 * 60)%Q with (inject_Z 0). rewrite <- Zle_Qle. lia. }
  assert (V : (inject_Z h / 100 * numeric_value (fixed2 c) == centsQ h * centsQ c)%Q) by (rewrite numeric_value_fixed2; reflexivity).
  assert (V0 : (0 <= centsQ h * centsQ c)%Q) by (apply Qmult_le_0_compat; apply centsQ_nonneg; lia).
  assert (L : forall exp, labor_units exp e = minor_of (centsQ h * centsQ c) exp).
  { intros exp. unfold labor_units, rate_of. rewrite P, Er, pg_round_nonneg by (rewrite V; exact V0). apply minor_of_proper; [exact V|reflexivity]. }
  split; [rewrite L; apply minor_of_nonneg, V0|].
  assert (H1 : entryHours (entry_row e) = fixed2 h).
  { unfold entryHours, entry_row, billing_entry. cbn [se_row te_billableMinutes te_durationMinutes]. unfold h. rewrite <- (hours_text _ M). unfold coalesced_minutes.
    destruct (en_billableMinutes e); [reflexivity|]. destruct (en_durationMinutes e); reflexivity. }
  assert (H2 : te_hourlyRate (entry_row e) = Some (fixed2 c)) by exact Er.
  unfold timeEntryToLineSpec. rewrite H1, H2, js_Number_fixed2, toFixed_cents by lia. unfold computeLineTotal.
  rewrite (multiplyToCurrency_parses _ _ _ _ _ (parses_fixed2 h) (parses_fixed2 c)). cbn [rbind]. eexists. split; [reflexivity|]. cbn. unfold entry_cents. rewrite L. reflexivity.
Qed.

Lemma part_line p cur :
  part_ok p -> part_nonneg p ->
  0 <= part_units (minorUnitExponent cur) p /\
  exists s, ticketPartToLineSpec (part_row p) cur = Ok s /\ ds_lineTotal s = fixed2 (part_cents cur p).
Proof.
  intros R [N1 N2]. destruct (po_stored _ R) as (S1 & S2 & _). destruct (column_money _ S1 N1) as (a & Ea & Ha), (column_money _ S2 N2) as (b & Eb & Hb).
  assert (V : (numeric_value (tk_quantity p) * numeric_value (tk_unitPrice p) == centsQ a * centsQ b)%Q) by (rewrite Ea, Eb, !numeric_value_fixed2; reflexivity).
  assert (V0 : (0 <= centsQ a * centsQ b)%Q) by (apply Qmult_le_0_compat; apply centsQ_nonneg; lia).
  assert (L : forall exp, part_units exp p = minor_of (centsQ a * centsQ b) exp).
  { intros exp. unfold part_units. rewrite pg_round_nonneg by (rewrite V; exact V0). apply minor_of_proper; [exact V|reflexivity]. }
  split; [rewrite L; apply minor_of_nonneg, V0|]. unfold ticketPartToLineSpec, part_row, billing_part. cbn [sp_row tp_quantity tp_unitPrice].
  unfold computeLineTotal. rewrite Ea, Eb, (multiplyToCurrency_parses _ _ _ _ _ (parses_fixed2 a) (parses_fixed2 b)). cbn [rbind]. eexists. split; [reflexivity|].
  cbn. unfold part_cents. rewrite L. reflexivity.
Qed.

(** ** Groups *)

Definition bill (c : string) (gs : Groups) : ImpactBillables := ig_billables (group c gs).

(** Every group is filed under its own code, which its recovery names; no update
    drops one. *)
Definition keyed (gs : Groups) : Prop := forall k g, gs !! k = Some g -> ig_currencyCode g = k /\ ig_recovery g = k.

Definition grows (gs gs' : Groups) : Prop := (keyed gs -> keyed gs') /\ forall k, is_Some (gs !! k) -> is_Some (gs' !! k).

Lemma grows_refl gs : grows gs gs.
Proof. split; auto. Qed.

Lemma grows_trans gs gs1 gs2 : grows gs gs1 -> grows gs1 gs2 -> grows gs gs2.
Proof. intros [A B] [C D]. split; auto. Qed.

Lemma group_code gs c : keyed gs -> ig_currencyCode (group c gs) = c /\ ig_recovery (group c gs) = c.
Proof. intros K. unfold group. destruct (gs !! c) as [g|] eqn:E; [exact (K _ _ E)|auto]. Qed.

Lemma insert_grows c g gs : (keyed gs -> ig_currencyCode g = c /\ ig_recovery g = c) -> grows gs (<[c := g]> gs).
Proof.
  intros Hg. split.
  - intros K k g' E. apply lookup_insert_Some in E as [[<- <-]|[_ E]]; [apply Hg, K|exact (K _ _ E)].
  - intros k Hk. destruct (decide (c = k)) as [->|N]; [rewrite lookup_insert_eq; eauto|rewrite lookup_insert_ne by exact N; exact Hk].
Qed.

Lemma bill_insert c k g gs : bill c (<[k := g]> gs) = if String.eqb k c then ig_billables g else bill c gs.
Proof.
  unfold bill, group. destruct (String.eqb_spec k c) as [->|N]; [rewrite lookup_insert_eq|rewrite lookup_insert_ne by exact N]; reflexivity.
Qed.

Lemma on_documents_bill f k gs c : bill c (on_documents f k gs) = bill c gs /\ grows gs (on_documents f k gs).
Proof.
  unfold on_documents. split; [rewrite bill_insert; destruct (String.eqb_spec k c) as [->|]; reflexivity|apply insert_grows; intros K; apply group_code, K].
Qed.

Lemma on_contracts_bill f k gs c : bill c (on_contracts f k gs) = bill c gs /\ grows gs (on_contracts f k gs).
Proof.
  unfold on_contracts. split; [rewrite bill_insert; destruct (String.eqb_spec k c) as [->|]; reflexivity|apply insert_grows; intros K; apply group_code, K].
Qed.

Lemma on_billables_bill f k gs c : bill c (on_billables f k gs) = (if String.eqb k c then f (bill c gs) else bill c gs) /\ grows gs (on_billables f k gs).
Proof.
  unfold on_billables. split; [rewrite bill_insert; destruct (String.eqb_spec k c) as [->|]; reflexivity|apply insert_grows; intros K; apply group_code, K].
Qed.

Lemma fold_keeps {A} (step : Groups -> A -> Groups) l gs c :
  (forall gs a, bill c (step gs a) = bill c gs /\ grows gs (step gs a)) -> bill c (fold_left step l gs) = bill c gs /\ grows gs (fold_left step l gs).
Proof.
  intros Hs. revert gs. induction l as [|a l IH]; intros gs; [split; [reflexivity|apply grows_refl]|]. cbn. destruct (IH (step gs a)) as [E G], (Hs gs a) as [E1 G1].
  split; [congruence|exact (grows_trans _ _ _ G1 G)].
Qed.

Lemma documents_keep orgId target q c :
  bill c (count_contracts orgId target q (count_quotes orgId target q (count_invoices orgId target q ∅))) = ig_billables (emptyGroup c) /\
  keyed (count_contracts orgId target q (count_quotes orgId target q (count_invoices orgId target q ∅))).
Proof.
  unfold count_contracts, count_quotes, count_invoices. set (invs := group_by iv_currencyCode _). set (cs := group_by _ _). set (qs := group_by _ _).
  match goal with |- context [fold_left ?f invs ∅] => destruct (fold_keeps f invs ∅ c) as [E1 [K1 _]]; [intros; apply on_documents_bill|]; set (g1 := fold_left f invs ∅) in * end.
  match goal with |- context [fold_left ?f qs g1] => destruct (fold_keeps f qs g1 c) as [E2 [K2 _]]; [intros; apply on_documents_bill|]; set (g2 := fold_left f qs g1) in * end.
  match goal with |- context [fold_left ?f cs g2] => destruct (fold_keeps f cs g2 c) as [E3 [K3 _]]; [intros; apply on_contracts_bill|] end.
  split; [rewrite E3, E2, E1; reflexivity|]. apply K3, K2, K1. intros k g E. rewrite lookup_empty in E. discriminate.
Qed.

(** One update per group. *)
Lemma fold_bill {A} (key : A -> string) (F : A -> ImpactBillables -> ImpactBillables) l gs c :
  List.NoDup (map key l) ->
  bill c (fold_left (fun gs r => on_billables (F r) (key r) gs) l gs) =
    match List.find (fun r => String.eqb (key r) c) l with Some r => F r (bill c gs) | None => bill c gs end /\
  grows gs (fold_left (fun gs r => on_billables (F r) (key r) gs) l gs) /\
  forall r, In r l -> is_Some (fold_left (fun gs r => on_billables (F r) (key r) gs) l gs !! key r).
Proof.
  revert gs. induction l as [|a l IH]; intros gs N; [split; [reflexivity|split; [apply grows_refl|intros _ []]]|].
  inversion N as [|? ? Na Nl]; subst. cbn [fold_left List.find]. destruct (on_billables_bill (F a) (key a) gs c) as [E1 G1], (IH (on_billables (F a) (key a) gs) Nl) as (E & G & P).
  split; [|split; [exact (grows_trans _ _ _ G1 G)|]].
  - rewrite E, E1. destruct (String.eqb_spec (key a) c) as [Ec|]; [|reflexivity]. destruct (List.find _ l) as [r|] eqn:Fr; [|reflexivity].
    apply find_some in Fr as [Hr Er]. apply String.eqb_eq in Er. elim Na. replace (key a) with (key r) by congruence. apply in_map, Hr.
  - intros r [<-|Hr]; [|exact (P r Hr)]. apply G. unfold on_billables. rewrite lookup_insert_eq. eauto.
Qed.

Lemma group_by_keys {A K} `{EqDecision K} (key : A -> K) rows : List.NoDup (map fst (group_by key rows)).
Proof.
  unfold group_by. rewrite map_map. cbn. rewrite map_id. apply NoDup_ListNoDup, NoDup_remove_dups.
Qed.

Lemma group_by_in {A K} `{EqDecision K} (key : A -> K) rows k l :
  In (k, l) (group_by key rows) <-> l = List.filter (fun a => bool_decide (key a = k)) rows /\ exists a, In a rows /\ key a = k.
Proof.
  unfold group_by. rewrite in_map_iff. split.
  - intros (x & [= -> <-] & Hx). split; [reflexivity|]. apply list_elem_of_In, elem_of_remove_dups, list_elem_of_In, in_map_iff in Hx as (a & E & Ha). eauto.
  - intros (-> & a & Ha & E). exists k. split; [reflexivity|]. apply list_elem_of_In, elem_of_remove_dups, list_elem_of_In, in_map_iff. eauto.
Qed.

(** The group of a code, when its rows are there. *)
Lemma group_by_find {A K} `{EqDecision K} (key : A -> K) (label : K -> string) rows c :
  (forall a b, In a rows -> In b rows -> label (key a) = label (key b) -> key a = key b) ->
  List.NoDup (map (fun r => label (fst r)) (group_by key rows)) /\
  match List.find (fun r => String.eqb (label (fst r)) c) (group_by key rows) with
  | Some r => label (fst r) = c /\ snd r = List.filter (fun a => String.eqb (label (key a)) c) rows /\ snd r <> []
  | None => List.filter (fun a => String.eqb (label (key a)) c) rows = []
  end.
Proof.
  intros Inj. assert (S : forall r, In r (group_by key rows) -> exists a, In a rows /\ key a = fst r) by (intros [k l] Hr; apply group_by_in in Hr as [_ Hr]; exact Hr). split.
  - rewrite <- (map_map fst label). apply NoDup_map_NoDup_ForallPairs; [|apply group_by_keys]. intros x y Hx Hy E.
    apply in_map_iff in Hx as (r & <- & Hr), Hy as (r' & <- & Hr'). destruct (S r Hr) as (a & Ha & Ea), (S r' Hr') as (b & Hb & Eb). rewrite <- Ea, <- Eb in *. auto.
  - destruct (List.find _ _) as [[k l]|] eqn:F.
    + apply find_some in F as [Hin Ek]. cbn in Ek |- *. apply String.eqb_eq in Ek. apply group_by_in in Hin as (-> & a & Ha & Ea). split; [exact Ek|]. split.
      * apply filter_ext_in. intros b Hb. destruct (String.eqb_spec (label (key b)) c) as [Eb|Nb].
        -- rewrite bool_decide_true; [reflexivity|]. rewrite <- Ea. apply Inj; [exact Hb|exact Ha|congruence].
        -- rewrite bool_decide_false; [reflexivity|]. congruence.
      * intros E. assert (X : In a []) by (rewrite <- E; apply filter_In; rewrite bool_decide_true by exact Ea; auto). destruct X.
    + destruct (List.filter _ rows) as [|b bs] eqn:E; [reflexivity|]. assert (Hb : In b (List.filter (fun a => String.eqb (label (key a)) c) rows)) by (rewrite E; left; reflexivity).
      apply filter_In in Hb as [Hb Eb]. pose proof (find_none _ _ F (key b, List.filter (fun a => bool_decide (key a = key b)) rows)) as X.
      cbn in X. rewrite Eb in X. assert (true = false) by (apply X, group_by_in; eauto). discriminate.
Qed.

(** ** The work of a group *)

Definition time_view (b : ImpactBillables) : nat * nat * nat * nat * option string :=
  (im_monetaryTimeSnapshots b, im_readyTimeEntries b, im_runningTimeEntries b, im_currentlyNonBillableTimeEntries b, im_laborAmount b).
Definition part_view (b : ImpactBillables) : nat * nat * nat * string :=
  (im_monetaryPartSnapshots b, im_readyParts b, im_currentlyNonBillableParts b, im_partAmount b).

(** Entries without a rate, which have a count and no amount. *)
Definition missing (c : string) (gs : Groups) : nat := im_missingRateTimeEntries (bill c gs).

(** A fold whose amounts never fail. *)
Lemma fold_amounts {A} (key : A -> string) (amount : A -> result string string) (value : A -> string) (F : string -> A -> ImpactBillables -> ImpactBillables) l gs :
  (forall r, In r l -> amount r = Ok (value r)) ->
  fold_left (fun acc r => let! gs := acc in let! a := amount r in Ok (on_billables (F a r) (key r) gs)) l (Ok gs) =
    Ok (fold_left (fun gs r => on_billables (F (value r) r) (key r) gs) l gs).
Proof.
  revert gs. induction l as [|a l IH]; intros gs Ha; [reflexivity|]. cbn [fold_left rbind]. rewrite (Ha a (or_introl eq_refl)). cbn [rbind].
  apply IH. intros r Hr. apply Ha. right. exact Hr.
Qed.

Definition of_currency (c : string) (e : TimeEntry) : bool := opt_eqb (en_currencyCode e) (Some c).

Definition stranded_work (orgId target c : string) (t : TimeDb) : list TimeEntry :=
  List.filter (fun e => stranded_entry orgId target e && of_currency c e) (td_entries t).
Definition stranded_parts (orgId target c : string) (t : TimeDb) : list TicketPart :=
  List.filter (fun p => stranded_part orgId target p && String.eqb (tk_currencyCode p) c) (td_parts t).

Definition rateless_work (orgId c : string) (t : TimeDb) : list TimeEntry :=
  List.filter (fun e => rateless_entry orgId e && of_currency c e) (td_entries t).

Definition time_summary (c : string) (es : list TimeEntry) : nat * nat * nat * nat * option string :=
  (List.length es, List.length (List.filter (fun e => is_billable_entry e && present (en_endedAt e)) es),
   List.length (List.filter (fun e => negb (present (en_endedAt e))) es), List.length (List.filter (fun e => negb (is_billable_entry e)) es),
   match es with [] => None | _ => Some (fixed2 (zsum (map (entry_cents c) es))) end).

Definition part_summary (c : string) (ps : list TicketPart) : nat * nat * nat * string :=
  (List.length ps, List.length (List.filter tk_isBillable ps), List.length (List.filter (fun p => negb (tk_isBillable p)) ps),
   match ps with [] => "0" | _ => fixed2 (zsum (map (part_cents c) ps)) end).

Definition time_update (labor : string) (r : option string * list TimeEntry) (b : ImpactBillables) : ImpactBillables :=
  mkImpactBillables (List.length (snd r))
    (List.length (List.filter (fun e => is_billable_entry e && present (en_endedAt e)) (snd r)))
    (List.length (List.filter (fun e => negb (present (en_endedAt e))) (snd r)))
    (List.length (List.filter (fun e => negb (is_billable_entry e)) (snd r)))
    (im_missingRateTimeEntries b) (Some labor) (im_monetaryPartSnapshots b) (im_readyParts b) (im_currentlyNonBillableParts b) (im_partAmount b).

Definition part_update (amount : string) (r : string * list TicketPart) (b : ImpactBillables) : ImpactBillables :=
  mkImpactBillables (im_monetaryTimeSnapshots b) (im_readyTimeEntries b) (im_runningTimeEntries b)
    (im_currentlyNonBillableTimeEntries b) (im_missingRateTimeEntries b) (im_laborAmount b)
    (List.length (snd r)) (List.length (List.filter tk_isBillable (snd r))) (List.length (List.filter (fun p => negb (tk_isBillable p)) (snd r))) amount.

Lemma stranded_terms orgId target e : stranded_entry orgId target e = true -> exists c rate, en_currencyCode e = Some c /\ c <> target /\ tm_hourlyRate (en_terms e) = Some rate.
Proof.
  unfold stranded_entry. intros E. breflect. destruct (tm_hourlyRate (en_terms e)) as [rate|]; [|discriminate]. destruct (en_currencyCode e) as [c|]; [|discriminate].
  breflect. exists c, rate. split; [reflexivity|split; [|reflexivity]]. apply String.eqb_neq. assumption.
Qed.

Section Sums.
Context (orgId target : string) (t : TimeDb).
Hypothesis rows : forall e, In e (td_entries t) -> row_ok e.
Hypothesis parts : forall p, In p (td_parts t) -> part_ok p.
Hypothesis work_nonneg : forall e, In e (td_entries t) -> stranded_entry orgId target e = true -> entry_nonneg e.
Hypothesis parts_nonneg : forall p, In p (td_parts t) -> stranded_part orgId target p = true -> part_nonneg p.

Let entries := List.filter (stranded_entry orgId target) (td_entries t).
Let label (k : option string) : string := from_option_default k UNKNOWN_CURRENCY_KEY.

Lemma stranded_label e c : In e entries -> label (en_currencyCode e) = c <-> of_currency c e = true.
Proof.
  intros He. apply filter_In in He as [_ He]. destruct (stranded_terms _ _ _ He) as (k & _ & Ek & _). unfold of_currency. rewrite Ek. cbn. rewrite String.eqb_eq. reflexivity.
Qed.

Lemma sum_time_ok gs : exists gs', sum_time orgId target t gs = Ok gs' /\ grows gs gs' /\
  forall c, part_view (bill c gs') = part_view (bill c gs) /\ missing c gs' = missing c gs /\
    match stranded_work orgId target c t with
    | [] => time_view (bill c gs') = time_view (bill c gs)
    | es => time_view (bill c gs') = time_summary c es /\ is_Some (gs' !! c)
    end.
Proof.
  assert (L : forall r, In r (group_by en_currencyCode entries) ->
    amountFor (laborSumSql 2 (snd r)) (laborSumSql 0 (snd r)) (label (fst r)) = Ok (fixed2 (zsum (map (entry_cents (label (fst r))) (snd r))))).
  { intros [k es] Hr. apply group_by_in in Hr as (-> & _). apply (amountFor_sum labor_units laborSumSql); [reflexivity|]. cbn. intros e He.
    apply filter_In in He as [He _]. apply filter_In in He as [He Hs]. destruct (stranded_terms _ _ _ Hs) as (c & rate & _ & _ & Er).
    exact (proj1 (labor_line e (label k) rate (rows e He) (work_nonneg e He Hs) Er)). }
  set (F := fun r => time_update (fixed2 (zsum (map (entry_cents (label (fst r))) (snd r)))) r).
  exists (fold_left (fun gs r => on_billables (F r) (label (fst r)) gs) (group_by en_currencyCode entries) gs). split.
  - exact (fold_amounts (fun r => label (fst r)) _ _ time_update _ gs L).
  - assert (I : forall a b, In a entries -> In b entries -> label (en_currencyCode a) = label (en_currencyCode b) -> en_currencyCode a = en_currencyCode b).
    { intros a b Ha Hb E. apply filter_In in Ha as [_ Ha], Hb as [_ Hb]. destruct (stranded_terms _ _ _ Ha) as (c & _ & Ec & _), (stranded_terms _ _ _ Hb) as (c' & _ & Ec' & _).
      rewrite Ec, Ec' in *. cbn in E. congruence. }
    split; [apply (fold_bill (fun r => label (fst r)) F _ _ ""); apply (group_by_find en_currencyCode label entries "" I)|]. intros c.
    destruct (group_by_find en_currencyCode label entries c I) as [N G]. destruct (fold_bill (fun r => label (fst r)) F (group_by en_currencyCode entries) gs c N) as (E & _ & P).
    assert (W : List.filter (fun e => String.eqb (label (en_currencyCode e)) c) entries = stranded_work orgId target c t).
    { unfold stranded_work. unfold entries. rewrite filter_twice. apply filter_ext_in. intros e He. destruct (stranded_entry orgId target e) eqn:Hs; [|apply andb_false_r].
      rewrite andb_true_r. cbn. apply eq_true_iff_eq. rewrite String.eqb_eq. apply stranded_label. apply filter_In. auto. }
    rewrite W in G. unfold missing. destruct (List.find _ _) as [r|] eqn:Fr; rewrite E.
    + destruct G as (Ec & Es & Ne). apply find_some in Fr as [Hr _]. pose proof (P r Hr) as Pr. rewrite Ec in Pr. split; [reflexivity|]. split; [reflexivity|].
      destruct (stranded_work orgId target c t) as [|e0 l0] eqn:Ew; [contradiction|]. split; [|exact Pr].
      unfold F, time_update, time_view, time_summary. rewrite Es, Ec. reflexivity.
    + rewrite G. repeat split; reflexivity.
Qed.

Lemma sum_parts_ok gs : exists gs', sum_parts orgId target t gs = Ok gs' /\ grows gs gs' /\
  forall c, time_view (bill c gs') = time_view (bill c gs) /\ missing c gs' = missing c gs /\
    match stranded_parts orgId target c t with
    | [] => part_view (bill c gs') = part_view (bill c gs)
    | ps => part_view (bill c gs') = part_summary c ps /\ is_Some (gs' !! c)
    end.
Proof.
  set (l := List.filter (stranded_part orgId target) (td_parts t)).
  assert (L : forall r, In r (group_by tk_currencyCode l) -> amountFor (partSumSql 2 (snd r)) (partSumSql 0 (snd r)) (fst r) = Ok (fixed2 (zsum (map (part_cents (fst r)) (snd r))))).
  { intros [k ps] Hr. apply group_by_in in Hr as (-> & _). apply (amountFor_sum part_units partSumSql); [reflexivity|]. cbn. intros p Hp.
    apply filter_In in Hp as [Hp _]. apply filter_In in Hp as [Hp Hs]. exact (proj1 (part_line p k (parts p Hp) (parts_nonneg p Hp Hs))). }
  set (F := fun r => part_update (fixed2 (zsum (map (part_cents (fst r)) (snd r)))) r).
  exists (fold_left (fun gs r => on_billables (F r) (fst r) gs) (group_by tk_currencyCode l) gs). split; [exact (fold_amounts fst _ _ part_update _ gs L)|].
  assert (I : forall a b, In a l -> In b l -> id (tk_currencyCode a) = id (tk_currencyCode b) -> tk_currencyCode a = tk_currencyCode b) by auto.
  split; [apply (fold_bill fst F _ _ ""); apply group_by_keys|]. intros c.
  destruct (group_by_find tk_currencyCode id l c I) as [N G]. destruct (fold_bill fst F (group_by tk_currencyCode l) gs c N) as (E & _ & P).
  assert (W : List.filter (fun p => String.eqb (id (tk_currencyCode p)) c) l = stranded_parts orgId target c t).
  { unfold stranded_parts, l. rewrite filter_twice. apply filter_ext. intros p. apply andb_comm. }
  rewrite W in G. unfold id in G. unfold missing. destruct (List.find _ _) as [r|] eqn:Fr; rewrite E.
  - destruct G as (Ec & Es & Ne). apply find_some in Fr as [Hr _]. pose proof (P r Hr) as Pr. rewrite Ec in Pr. split; [reflexivity|]. split; [reflexivity|].
    destruct (stranded_parts orgId target c t) as [|p0 l0] eqn:Ew; [contradiction|]. split; [|exact Pr].
    unfold F, part_update, part_view, part_summary. rewrite Es, Ec. reflexivity.
  - rewrite G. repeat split; reflexivity.
Qed.

Lemma rateless_keep gs c : let r := count_rateless orgId target t gs in
  time_view (bill c (fst r)) = time_view (bill c gs) /\ part_view (bill c (fst r)) = part_view (bill c gs) /\ grows gs (fst r).
Proof.
  cbv zeta. unfold count_rateless. generalize (group_by en_currencyCode (List.filter (rateless_entry orgId) (td_entries t))), 0%nat. intros l.
  revert gs. induction l as [|[k es] l IH]; intros gs n; [split; [reflexivity|split; [reflexivity|apply grows_refl]]|]. cbn [fold_left fst snd].
  destruct k as [k|]; [|apply IH]. destruct (String.eqb k target); [apply IH|].
  match goal with |- context [on_billables ?g k gs] => set (f := g) end. destruct (on_billables_bill f k gs c) as [E G]. destruct (IH (on_billables f k gs) n) as (E1 & E2 & G1). rewrite E1, E2, E.
  split; [|split; [|exact (grows_trans _ _ _ G G1)]]; destruct (String.eqb k c); reflexivity.
Qed.

(** The rows of a code among those of the unpriced entries. *)
Lemma rateless_find c :
  match List.find (fun r => opt_eqb (fst r) (Some c)) (group_by en_currencyCode (List.filter (rateless_entry orgId) (td_entries t))) with
  | Some r => List.length (snd r) | None => 0%nat
  end = List.length (rateless_work orgId c t).
Proof.
  set (l := List.filter (rateless_entry orgId) (td_entries t)).
  assert (W : rateless_work orgId c t = List.filter (fun e => bool_decide (en_currencyCode e = Some c)) l).
  { unfold rateless_work, l. rewrite filter_twice. apply filter_ext. intros e. unfold of_currency. rewrite andb_comm. f_equal.
    destruct (en_currencyCode e) as [k|]; cbn; [destruct (String.eqb_spec k c)|]; symmetry; [apply bool_decide_true|apply bool_decide_false..]; congruence. }
  rewrite W. destruct (List.find _ _) as [[k es]|] eqn:F.
  - apply find_some in F as [Hin Ek]. cbn in Ek. destruct k as [k|]; [|discriminate]. apply String.eqb_eq in Ek. subst k.
    apply group_by_in in Hin as [-> _]. reflexivity.
  - destruct (List.filter _ l) as [|e es] eqn:El; [reflexivity|].
    assert (He : In e (List.filter (fun e => bool_decide (en_currencyCode e = Some c)) l)) by (rewrite El; left; reflexivity).
    apply filter_In in He as [He Ec]. apply bool_decide_eq_true in Ec.
    assert (Hg : In (Some c, List.filter (fun a => bool_decide (en_currencyCode a = Some c)) l) (group_by en_currencyCode l)) by (apply group_by_in; eauto).
    pose proof (find_none _ _ F _ Hg) as X. cbn in X. rewrite String.eqb_refl in X. discriminate.
Qed.

Lemma rateless_missing gs c : c <> target -> missing c gs = 0%nat ->
  missing c (fst (count_rateless orgId target t gs)) = List.length (rateless_work orgId c t).
Proof.
  intros Nc M. rewrite <- rateless_find. unfold count_rateless. pose proof (group_by_keys en_currencyCode (List.filter (rateless_entry orgId) (td_entries t))) as N.
  revert N. generalize (group_by en_currencyCode (List.filter (rateless_entry orgId) (td_entries t))), 0%nat at 1. intros l n N.
  assert (G : forall gs n, missing c (fst (fold_left (fun acc r => let '(gs, n) := acc in
      match fst r with
      | Some k =>
          if String.eqb k target then (gs, (n + List.length (snd r))%nat)
          else (on_billables (fun b => mkImpactBillables (im_monetaryTimeSnapshots b) (im_readyTimeEntries b) (im_runningTimeEntries b)
                  (im_currentlyNonBillableTimeEntries b) (List.length (snd r)) (im_laborAmount b) (im_monetaryPartSnapshots b) (im_readyParts b)
                  (im_currentlyNonBillableParts b) (im_partAmount b)) k gs, n)
      | None => (gs, (n + List.length (snd r))%nat)
      end) l (gs, n))) = match List.find (fun r => opt_eqb (fst r) (Some c)) l with Some r => List.length (snd r) | None => missing c gs end).
  { clear gs n M. induction l as [|[k es] l IH]; intros gs n; [reflexivity|]. inversion N as [|? ? Na Nl]; subst. cbn [fold_left fst snd List.find].
    destruct k as [k|]; cbn [opt_eqb]; [|apply IH, Nl]. destruct (String.eqb_spec k target) as [->|Nt].
    - rewrite (proj2 (String.eqb_neq target c)) by congruence. apply IH, Nl.
    - rewrite IH by exact Nl. unfold missing at 1. rewrite (proj1 (on_billables_bill _ _ _ _)). destruct (String.eqb_spec k c) as [->|]; [|reflexivity].
      destruct (List.find _ l) as [[k' es']|] eqn:F; [|reflexivity]. apply find_some in F as [Hr Ek]. cbn in Ek. destruct k' as [k'|]; [|discriminate].
      apply String.eqb_eq in Ek. subst k'. elim Na. exact (in_map fst _ _ Hr). }
  rewrite G, M. reflexivity.
Qed.
End Sums.

(** ** Which codes have a group *)

Lemma fold_codes {A} (step : Groups -> A -> Groups) (key : A -> option string) c l gs :
  (forall gs a, is_Some (step gs a !! c) <-> is_Some (gs !! c) \/ key a = Some c) ->
  is_Some (fold_left step l gs !! c) <-> is_Some (gs !! c) \/ exists a, In a l /\ key a = Some c.
Proof.
  intros Hs. revert gs. induction l as [|a l IH]; intros gs; cbn; [firstorder|]. rewrite IH, Hs. split.
  - intros [[H|H]|(b & Hb & E)]; eauto.
  - intros [H|(b & [->|Hb] & E)]; eauto.
Qed.

Lemma insert_codes (g : OrgCurrencyImpactGroup) k c (gs : Groups) : is_Some (<[k := g]> gs !! c) <-> is_Some (gs !! c) \/ Some k = Some c.
Proof.
  destruct (decide (k = c)) as [->|N]; [rewrite lookup_insert_eq|rewrite lookup_insert_ne by exact N]; split; eauto. intros [H|[= E]]; [exact H|contradiction].
Qed.

Lemma fold_amount_codes {A} (key : A -> string) (amount : A -> result string string) (F : string -> A -> ImpactBillables -> ImpactBillables) c l gs gs' :
  fold_left (fun acc r => let! gs := acc in let! a := amount r in Ok (on_billables (F a r) (key r) gs)) l (Ok gs) = Ok gs' ->
  is_Some (gs' !! c) <-> is_Some (gs !! c) \/ exists a, In a l /\ key a = c.
Proof.
  revert gs. induction l as [|a l IH]; intros gs E; [injection E as <-; firstorder|]. cbn [fold_left rbind] in E. destruct (amount a) as [x|m].
  - cbn [rbind] in E. rewrite (IH _ E). unfold on_billables. rewrite insert_codes. cbn. split.
    + intros [[H|[= H]]|(b & Hb & Eb)]; eauto.
    + intros [H|(b & [->|Hb] & Eb)]; [auto|left; right; congruence|eauto].
  - exfalso. clear -E. cbn in E. induction l as [|b l IH]; [discriminate|]. exact (IH E).
Qed.

(** A code is a key of grouped rows when it is that of a row. *)
Lemma group_codes {A K} `{EqDecision K} (key : A -> K) (code : K -> option string) rows c :
  (exists r, In r (group_by key rows) /\ code (fst r) = Some c) <-> exists a, In a rows /\ code (key a) = Some c.
Proof.
  split.
  - intros ([k l] & Hr & E). apply group_by_in in Hr as (_ & a & Ha & <-). eauto.
  - intros (a & Ha & E). exists (key a, List.filter (fun b => bool_decide (key b = key a)) rows). split; [apply group_by_in; eauto|exact E].
Qed.

(** A draft invoice, an open quote or an open contract of the organization in the
    currency. *)
Definition open_document (orgId : string) (q : QuoteDb) (c : string) : Prop :=
  (exists i, In i (map snd (map_to_list (db_invoices (qd_billing q)))) /\ iv_orgId i = orgId /\ iv_status i = st_draft /\ iv_currencyCode i = c) \/
   (exists x, In x (map snd (map_to_list (qd_quotes q))) /\ qt_orgId x = orgId /\ open_quote (qt_status x) = true /\ qt_currencyCode x = c) \/
   (exists x, In x (map snd (map_to_list (db_contracts (qd_billing q)))) /\ ct_orgId x = orgId /\ open_contract (ct_status x) = true /\ ct_currencyCode x = c).

(** The currencies other than the target in which the organization has open
    documents or unbilled work. *)
Definition affected (orgId target : string) (q : QuoteDb) (t : TimeDb) (c : string) : Prop :=
  c <> target /\
  (open_document orgId q c \/
   (exists e, In e (td_entries t) /\ unbilled_entry orgId e = true /\ en_currencyCode e = Some c) \/
   (exists p, In p (td_parts t) /\ tk_orgId p = orgId /\ tk_billingStatus p = not_billed /\ tk_currencyCode p = c)).

Lemma not_billed_iff s : is_not_billed s = true <-> s = not_billed.
Proof. destruct s; unfold is_not_billed; split; intros H; first [discriminate|reflexivity]. Qed.

Ltac by_code := intros; apply insert_codes.

Lemma documents_codes orgId target q c :
  is_Some (count_contracts orgId target q (count_quotes orgId target q (count_invoices orgId target q ∅)) !! c) <->
  c <> target /\
  open_document orgId q c.
Proof.
  unfold open_document, count_contracts. rewrite (fold_codes _ (fun r => Some (fst (fst r)))) by by_code.
  rewrite (group_codes _ (fun k => Some (fst k))). unfold count_quotes. rewrite (fold_codes _ (fun r => Some (fst (fst r)))) by by_code.
  rewrite (group_codes _ (fun k => Some (fst k))). unfold count_invoices. rewrite (fold_codes _ (fun r => Some (fst r))) by by_code.
  rewrite (group_codes _ Some), lookup_empty. setoid_rewrite filter_In. setoid_rewrite andb_true_iff. setoid_rewrite andb_true_iff.
  setoid_rewrite negb_true_iff. setoid_rewrite String.eqb_eq. setoid_rewrite String.eqb_neq. cbn [fst]. split.
  - intros [[[[? [=]]|(i & (Hi & [Ho Hs] & Nt) & [= <-])]|(x & (Hx & [Ho Hs] & Nt) & [= <-])]|(x & (Hx & [Ho Hs] & Nt) & [= <-])];
      (split; [exact Nt|]); [left; exists i|right; left; exists x|right; right; exists x]; [|auto..].
    split; [exact Hi|split; [exact Ho|split; [|reflexivity]]]. destruct (iv_status i); congruence.
  - intros [Nt [(i & Hi & Ho & Hs & <-)|[(x & Hx & Ho & Hs & <-)|(x & Hx & Ho & Hs & <-)]]]; [do 2 left; right|left; right|right]; eexists; rewrite ?Hs; eauto 6.
Qed.

Lemma sum_time_codes orgId target t gs gs' c : sum_time orgId target t gs = Ok gs' ->
  is_Some (gs' !! c) <-> is_Some (gs !! c) \/ exists e, In e (td_entries t) /\ stranded_entry orgId target e = true /\ en_currencyCode e = Some c.
Proof.
  intros E. unfold sum_time in E.
  rewrite (fold_amount_codes (fun r => from_option_default (fst r) UNKNOWN_CURRENCY_KEY)
    (fun r => amountFor (laborSumSql 2 (snd r)) (laborSumSql 0 (snd r)) (from_option_default (fst r) UNKNOWN_CURRENCY_KEY)) time_update c _ _ _ E).
  assert (X : (exists r, In r (group_by en_currencyCode (List.filter (stranded_entry orgId target) (td_entries t))) /\ from_option_default (fst r) UNKNOWN_CURRENCY_KEY = c) <->
    exists r, In r (group_by en_currencyCode (List.filter (stranded_entry orgId target) (td_entries t))) /\ id (fst r) = Some c).
  { split; intros ([k l] & Hr & Ek); exists (k, l); (split; [exact Hr|]); cbn in *; [|subst k; reflexivity].
    apply group_by_in in Hr as (_ & e & He & <-). apply filter_In in He as [_ He]. destruct (stranded_terms _ _ _ He) as (d & _ & Ed & _). rewrite Ed in *. cbn in Ek. unfold id. congruence. }
  rewrite X, group_codes. unfold id. split; (intros [H|(e & He & Ec)]; [auto|right; exists e]).
  - apply filter_In in He as [He Hs]. auto.
  - destruct Ec as [Hs Ec]. rewrite filter_In. auto.
Qed.

Lemma sum_parts_codes orgId target t gs gs' c : sum_parts orgId target t gs = Ok gs' ->
  is_Some (gs' !! c) <-> is_Some (gs !! c) \/ exists p, In p (td_parts t) /\ stranded_part orgId target p = true /\ tk_currencyCode p = c.
Proof.
  intros E. unfold sum_parts in E.
  rewrite (fold_amount_codes fst (fun r => amountFor (partSumSql 2 (snd r)) (partSumSql 0 (snd r)) (fst r)) part_update c _ _ _ E).
  assert (X : (exists r, In r (group_by tk_currencyCode (List.filter (stranded_part orgId target) (td_parts t))) /\ fst r = c) <->
    exists r, In r (group_by tk_currencyCode (List.filter (stranded_part orgId target) (td_parts t))) /\ Some (fst r) = Some c)
    by (split; intros (r & Hr & Ek); exists r; (split; [exact Hr|congruence])).
  rewrite X, (group_codes _ Some). setoid_rewrite filter_In. split; (intros [H|(p & Hp & Ec)]; [auto|right; exists p]); intuition congruence.
Qed.

Lemma rateless_codes orgId target t gs c :
  is_Some (fst (count_rateless orgId target t gs) !! c) <->
  is_Some (gs !! c) \/ c <> target /\ exists e, In e (td_entries t) /\ rateless_entry orgId e = true /\ en_currencyCode e = Some c.
Proof.
  transitivity (is_Some (gs !! c) \/ c <> target /\ exists r, In r (group_by en_currencyCode (List.filter (rateless_entry orgId) (td_entries t))) /\ id (fst r) = Some c).
  - unfold count_rateless. generalize (group_by en_currencyCode (List.filter (rateless_entry orgId) (td_entries t))), 0%nat. intros l. revert gs.
    induction l as [|[k es] l IH]; intros gs n; cbn [fold_left fst snd In]; [split; [auto|intros [H|(_ & _ & [] & _)]; exact H]|]. destruct k as [k|]; [destruct (String.eqb_spec k target) as [->|Nk]|]; rewrite IH.
    + split; [intros [H|(N & r & Hr & E)]; [auto|right; eauto]|]. intros [H|(N & r & [<-|Hr] & E)]; [auto|cbn in E; congruence|right; eauto].
    + unfold on_billables. rewrite insert_codes. split.
      * intros [[H|[= ->]]|(N & r & Hr & E)]; [auto|right; split; [exact Nk|eexists; split; [left; reflexivity|reflexivity]]|right; eauto].
      * intros [H|(N & r & [<-|Hr] & E)]; [auto|left; right; exact E|right; eauto].
    + split; [intros [H|(N & r & Hr & E)]; [auto|right; eauto]|]. intros [H|(N & r & [<-|Hr] & E)]; [auto|discriminate E|right; eauto].
  - rewrite group_codes. unfold id. split; (intros [H|(N & e & He & Ec)]; [auto|right; split; [exact N|exists e]]).
    + apply filter_In in He as [He Hs]. auto.
    + destruct Ec as [Hs Ec]. rewrite filter_In. auto.
Qed.

(** ** The groups of the preview *)

Lemma in_insert_group g h l : In g (insert_group h l) <-> g = h \/ In g l.
Proof.
  induction l as [|x l IH]; cbn; [intuition congruence|]. destruct (str_leb _ _); cbn; [intuition congruence|]. rewrite IH. intuition congruence.
Qed.

Lemma in_sorted_groups target gs g :
  In g (sorted_groups target gs) <-> (exists k, gs !! k = Some g) /\ ig_currencyCode g <> target /\ ig_currencyCode g <> UNKNOWN_CURRENCY_KEY.
Proof.
  unfold sorted_groups. set (l := List.filter _ _). assert (E : forall m, In g (fold_right insert_group [] m) <-> In g m).
  { induction m as [|x m IH]; cbn; [tauto|]. rewrite in_insert_group, IH. intuition congruence. }
  rewrite E. unfold l. rewrite filter_In, andb_true_iff, !negb_true_iff, !String.eqb_neq, in_map_iff. split.
  - intros [([k g'] & <- & H) N]. split; [|exact N]. exists k. apply list_elem_of_In, elem_of_map_to_list in H. exact H.
  - intros [[k H] N]. split; [|exact N]. exists (k, g). split; [reflexivity|]. apply list_elem_of_In, elem_of_map_to_list, H.
Qed.

(** The entries, with and without a rate, and the parts of an affected code. *)
Lemma affected_iff orgId target q t c :
  (((c <> target /\ open_document orgId q c) \/ exists e, In e (td_entries t) /\ stranded_entry orgId target e = true /\ en_currencyCode e = Some c) \/
     (c <> target /\ exists e, In e (td_entries t) /\ rateless_entry orgId e = true /\ en_currencyCode e = Some c)) \/
    (exists p, In p (td_parts t) /\ stranded_part orgId target p = true /\ tk_currencyCode p = c) <-> affected orgId target q t c.
Proof.
  assert (S1 : forall e, en_currencyCode e = Some c -> stranded_entry orgId target e = true <-> c <> target /\ unbilled_entry orgId e = true /\ present (tm_hourlyRate (en_terms e)) = true).
  { intros e Ec. unfold stranded_entry. rewrite Ec, !andb_true_iff, negb_true_iff, String.eqb_neq. tauto. }
  assert (S2 : forall e, rateless_entry orgId e = true <-> unbilled_entry orgId e = true /\ present (tm_hourlyRate (en_terms e)) = false).
  { intros e. unfold rateless_entry. rewrite andb_true_iff, negb_true_iff. reflexivity. }
  assert (S3 : forall p, tk_currencyCode p = c -> stranded_part orgId target p = true <-> c <> target /\ tk_orgId p = orgId /\ tk_billingStatus p = not_billed).
  { intros p Ec. unfold stranded_part. rewrite Ec, !andb_true_iff, negb_true_iff, String.eqb_neq, String.eqb_eq, not_billed_iff. tauto. }
  unfold affected. split.
  - intros [[[[N H]|(e & He & Hs & Ec)]|[N (e & He & Hs & Ec)]]|(p & Hp & Hs & Ec)]; [tauto|..].
    + apply (S1 e Ec) in Hs as (N & U & _). eauto 8.
    + apply S2 in Hs as [U _]. eauto 8.
    + apply (S3 p Ec) in Hs as (N & Ho & B). eauto 10.
  - intros [N [H|[(e & He & U & Ec)|(p & Hp & Ho & B & Ec)]]]; [tauto| |].
    + left. destruct (present (tm_hourlyRate (en_terms e))) eqn:Er; [left; right; exists e; rewrite (S1 e Ec); auto|]. right. split; [exact N|]. exists e. rewrite S2. auto.
    + right. exists p. rewrite (S3 p Ec). auto.
Qed.

Section Preview.
Context `{Uuids} (orgId target : string) (actor : InvoiceActor) (q : QuoteDb) (t : TimeDb) (r : RateDb).
Hypothesis order : Time t.
Hypothesis work_nonneg : forall e, In e (td_entries t) -> stranded_entry orgId target e = true -> entry_nonneg e.
Hypothesis parts_nonneg : forall p, In p (td_parts t) -> stranded_part orgId target p = true -> part_nonneg p.

Lemma preview_groups partnerId current :
  match ac_accessibleOrgIds actor with Some ids => str_mem orgId ids | None => true end = true ->
  rd_organizations r !! orgId = Some (partnerId, current) ->
  exists i gs, getOrgCurrencyImpact orgId target actor q t r = Ok i /\ oi_impactsByCurrency i = sorted_groups target gs /\ keyed gs /\
    forall c, time_view (bill c gs) = time_summary c (stranded_work orgId target c t) /\
      part_view (bill c gs) = part_summary c (stranded_parts orgId target c t) /\
      (c <> target -> missing c gs = List.length (rateless_work orgId c t)) /\ (is_Some (gs !! c) <-> affected orgId target q t c).
Proof.
  intros Ha Ho. unfold getOrgCurrencyImpact. rewrite Ha, Ho. cbn [Prelude.guard rbind].
  set (g0 := count_contracts orgId target q _). destruct (sum_time_ok orgId target t (tv_rows _ order) work_nonneg g0) as (g1 & S1 & G1 & V1). rewrite S1. cbn [rbind].
  pose proof (rateless_keep orgId target t g1) as V2. pose proof (rateless_missing orgId target t g1) as M2. pose proof (rateless_codes orgId target t g1) as C2.
  destruct (count_rateless orgId target t g1) as [g2 n]. cbn [fst] in V2, M2, C2.
  destruct (sum_parts_ok orgId target t (tv_parts _ order) parts_nonneg g2) as (g3 & S3 & G3 & V3). rewrite S3. cbn [rbind].
  eexists. exists g3. split; [reflexivity|split; [reflexivity|]].
  split; [apply G3, (V2 ""), G1, (documents_keep orgId target q "")|]. intros c.
  destruct (documents_keep orgId target q c) as [D _], (V1 c) as (P1 & M1 & T1), (V2 c) as (T2 & P2 & G2), (V3 c) as (T3 & M3 & P3). fold g0 in D.
  rewrite T3, T2. split; [|split; [|split]].
  - destruct (stranded_work orgId target c t); [rewrite T1, D; reflexivity|apply T1].
  - destruct (stranded_parts orgId target c t); [rewrite P3, P2, P1, D; reflexivity|apply P3].
  - intros Nc. rewrite M3. apply M2; [exact Nc|]. rewrite M1. unfold missing. rewrite D. reflexivity.
  - rewrite (sum_parts_codes _ _ _ _ _ c S3), C2, (sum_time_codes _ _ _ _ _ c S1). unfold g0. rewrite documents_codes. apply affected_iff.
Qed.

(** A stranded row is in the work of its own currency. *)
Lemma in_stranded_work c e :
  In e (stranded_work orgId target c t) <-> In e (td_entries t) /\ stranded_entry orgId target e = true /\ en_currencyCode e = Some c.
Proof.
  unfold stranded_work, of_currency. rewrite filter_In, andb_true_iff. destruct (en_currencyCode e) as [k|]; cbn; [rewrite String.eqb_eq|]; intuition congruence.
Qed.

Lemma in_stranded_parts c p :
  In p (stranded_parts orgId target c t) <-> In p (td_parts t) /\ stranded_part orgId target p = true /\ tk_currencyCode p = c.
Proof. unfold stranded_parts. rewrite filter_In, andb_true_iff, String.eqb_eq. tauto. Qed.

Lemma stranded_entry_line c e : In e (stranded_work orgId target c t) ->
  exists s, timeEntryToLineSpec (entry_row e) c = Ok s /\ ds_lineTotal s = fixed2 (entry_cents c e).
Proof.
  intros He. apply in_stranded_work in He as (He & Hs & _). destruct (stranded_terms _ _ _ Hs) as (_ & rate & _ & _ & Er).
  exact (proj2 (labor_line e c rate (tv_rows _ order e He) (work_nonneg e He Hs) Er)).
Qed.

Lemma stranded_part_line c p : In p (stranded_parts orgId target c t) ->
  exists s, ticketPartToLineSpec (part_row p) c = Ok s /\ ds_lineTotal s = fixed2 (part_cents c p).
Proof.
  intros Hp. apply in_stranded_parts in Hp as (Hp & Hs & _). exact (proj2 (part_line p c (tv_parts _ order p Hp) (parts_nonneg p Hp Hs))).
Qed.

Lemma stranded_off_target c :
  (forall e, In e (stranded_work orgId target c t) -> c <> target) /\ (forall p, In p (stranded_parts orgId target c t) -> c <> target).
Proof.
  split.
  - intros e He. apply in_stranded_work in He as (_ & Hs & Ec). destruct (stranded_terms _ _ _ Hs) as (k & _ & Ek & N & _). congruence.
  - intros p Hp. apply in_stranded_parts in Hp as (_ & Hs & <-). unfold stranded_part in Hs. breflect. apply String.eqb_neq. assumption.
Qed.
End Preview.

(** C11: The preview of a currency change sums what a draft would bill. For an
    organization the actor may read, over tables in order whose stranded work has
    no negative minutes, rate, quantity or price, the preview is always computed.
    It has a group for a currency other than the target exactly when the
    organization has in it a draft invoice, an open quote, an open contract, or
    unbilled time or parts, priced or not (save for the reserved key of rows
    without a code). Of each group, whose recovery assembles a draft in its own
    currency, the counts and amounts are those of exactly the priced unbilled
    entries and the unbilled parts of that currency: the SQL sum of the labour,
    hours rounded to hundredths and then one rounding at the minor unit, is to the
    cent the sum of the line totals the assembly computes in doubles and decimals
    for the same rows, and likewise for the parts. Unbilled entries without a rate
    are counted apart, each group's exactly those of its currency. *)
Theorem preview_matches_assembly `{Uuids} orgId target actor q t r partnerId current :
  Time t ->
  (forall e, In e (td_entries t) -> stranded_entry orgId target e = true -> entry_nonneg e) ->
  (forall p, In p (td_parts t) -> stranded_part orgId target p = true -> part_nonneg p) ->
  match ac_accessibleOrgIds actor with Some ids => str_mem orgId ids | None => true end = true ->
  rd_organizations r !! orgId = Some (partnerId, current) ->
  exists i, getOrgCurrencyImpact orgId target actor q t r = Ok i /\
    (forall g, In g (oi_impactsByCurrency i) ->
       let c := ig_currencyCode g in let es := stranded_work orgId target c t in let ps := stranded_parts orgId target c t in
       c <> target /\ ig_recovery g = c /\
       time_view (ig_billables g) = time_summary c es /\ part_view (ig_billables g) = part_summary c ps /\
       im_missingRateTimeEntries (ig_billables g) = List.length (rateless_work orgId c t) /\
       (forall e, In e es -> exists s, timeEntryToLineSpec (entry_row e) c = Ok s /\ ds_lineTotal s = fixed2 (entry_cents c e)) /\
       (forall p, In p ps -> exists s, ticketPartToLineSpec (part_row p) c = Ok s /\ ds_lineTotal s = fixed2 (part_cents c p))) /\
    (forall c, c <> UNKNOWN_CURRENCY_KEY -> In c (map ig_currencyCode (oi_impactsByCurrency i)) <-> affected orgId target q t c).
Proof.
  intros T We Wp Ha Ho. destruct (preview_groups orgId target actor q t r T We Wp partnerId current Ha Ho) as (i & gs & E & Ei & K & V).
  exists i. split; [exact E|]. rewrite Ei. split.
  - intros g Hg. cbv zeta. apply in_sorted_groups in Hg as ([k Hk] & Nt & _). destruct (K _ _ Hk) as [<- Er]. destruct (V (ig_currencyCode g)) as (V1 & V2 & V3 & _).
    specialize (V3 Nt). unfold missing, bill, group in V1, V2, V3. rewrite Hk in V1, V2, V3.
    do 5 (split; [assumption|]). split.
    + intros e. apply (stranded_entry_line orgId target t T We).
    + intros p. apply (stranded_part_line orgId target t T Wp).
  - intros c Nc. destruct (V c) as (_ & _ & _ & P). rewrite <- P, in_map_iff. split.
    + intros (g & Eg & Hg). apply in_sorted_groups in Hg as ([k Hk] & _). destruct (K _ _ Hk) as [Ek _]. exists g. congruence.
    + intros [g Hg]. destruct (K _ _ Hg) as [Ec _]. exists g. split; [exact Ec|]. apply in_sorted_groups. split; [eauto|]. rewrite Ec. split; [|exact Nc].
      apply (proj1 P). eauto.
Qed.

(** ** The change *)

Definition may_access (actor : InvoiceActor) (orgId : string) : bool :=
  match ac_accessibleOrgIds actor with Some ids => str_mem orgId ids | None => true end.

Definition confirmed (c : option bool) : bool := match c with Some true => true | _ => false end.

(** What a change writes: the currency of the one organization, and a card
    without a price when the currency had no default. *)
Definition only_currency (orgId pn cur : string) (r r' : RateDb) : Prop :=
  rd_organizations r' = <[orgId := (pn, cur)]> (rd_organizations r) /\ rd_rules r' = rd_rules r /\ rd_assignments r' = rd_assignments r /\
  exists p, default_card pn cur p = true /\ In p (rd_profiles r') /\
    (rd_profiles r' = rd_profiles r \/ rd_profiles r' = (rd_profiles r ++ [p])%list /\ pr_baseHourlyRate p = None).

Section Change.
Context `{Uuids}.

Lemma change_currency_missing orgId cur expected confirm actor r :
  rd_organizations r !! orgId = None -> change_currency orgId cur expected confirm actor r = Err (Refused ORG_NOT_FOUND).
Proof. intros Ho. unfold change_currency, bind at 1, read at 1. rewrite Ho. reflexivity. Qed.

Lemma change_currency_spec orgId cur expected confirm actor r pn locked :
  may_access actor orgId = true -> rd_organizations r !! orgId = Some (pn, locked) -> str_mem cur (rd_currencies r) = true ->
  change_currency orgId cur expected confirm actor r =
    (if negb (String.eqb locked expected) then Ok ((co_stale, locked), r)
     else if String.eqb locked cur then Ok ((co_noop, locked), r)
     else if confirmed confirm then
       Ok ((co_changed, locked), match ensureDefaultProfile pn cur r with Ok (_, d) => set_organizations (<[orgId := (pn, cur)]> (rd_organizations d)) d | Err _ => r end)
     else Err (Refused CONFIRMATION_REQUIRED)).
Proof.
  intros Ha Ho Hc. unfold change_currency, bind at 1, read at 1. rewrite Ho. unfold requireOrg. fold (may_access actor orgId). rewrite Ha.
  unfold bind at 1. cbn [require]. unfold ret at 1. destruct (String.eqb locked expected); [cbn [negb]|reflexivity]. destruct (String.eqb locked cur); [reflexivity|].
  unfold bind, require, confirmed. destruct confirm as [[]|]; try reflexivity. unfold ret at 1.
  destruct (ensure_total pn cur r Hc) as (p & d & E & _). rewrite E. reflexivity.
Qed.

Lemma only_currency_ensured orgId pn cur r p d :
  ensured pn cur p r d -> only_currency orgId pn cur r (set_organizations (<[orgId := (pn, cur)]> (rd_organizations d)) d).
Proof.
  intros (Dp & E1 & E2 & E3 & Hp). unfold only_currency. cbn. rewrite E1, E2, E3. split; [reflexivity|split; [reflexivity|split; [reflexivity|]]].
  exists p. split; [exact Dp|]. destruct Hp as [[-> Hp]|(-> & _ & Np)]; [auto|]. split; [apply in_or_app; right; left; reflexivity|auto].
Qed.

(** The steps of a request in order: the locked section, the preview over what it
    left, the answer. *)
Lemma changeOrgCurrency_steps orgId cur expected confirm actor q t r :
  changeOrgCurrency orgId cur expected confirm actor q t r =
    if negb (may_access actor orgId) then (Err (Refused ORG_DENIED), r) else
    match change_currency orgId cur expected confirm actor r with
    | Err e => (Err e, r)
    | Ok (outcome, locked, r') =>
        match getOrgCurrencyImpact orgId cur actor q t r' with
        | Err e => (Err e, r')
        | Ok i => (match outcome with
                   | co_stale => Err (Refused ORG_CURRENCY_CHANGED)
                   | co_noop => Ok (mkChangeResult orgId locked locked i)
                   | co_changed => Ok (mkChangeResult orgId locked cur i)
                   end, r')
        end
    end.
Proof.
  unfold changeOrgCurrency, requireOrg. fold (may_access actor orgId). destruct (may_access actor orgId); [|reflexivity].
  unfold then_run, tx, require, ret. cbn [negb]. destruct (change_currency _ _ _ _ _ r) as [[[o l] r']|e]; [|reflexivity].
  destruct (getOrgCurrencyImpact _ _ _ _ _ r'); [|reflexivity]. destruct o; reflexivity.
Qed.

(** The preview an answer carries. *)
Lemma preview_answers orgId cur actor q t r pn current :
  Time t ->
  (forall e, In e (td_entries t) -> stranded_entry orgId cur e = true -> entry_nonneg e) ->
  (forall p, In p (td_parts t) -> stranded_part orgId cur p = true -> part_nonneg p) ->
  may_access actor orgId = true -> rd_organizations r !! orgId = Some (pn, current) ->
  exists i, getOrgCurrencyImpact orgId cur actor q t r = Ok i /\ oi_currentCurrencyCode i = current.
Proof.
  intros T We Wp Ha Ho. destruct (preview_groups orgId cur actor q t r T We Wp pn current Ha Ho) as (i & _ & E & _). exists i. split; [exact E|].
  unfold getOrgCurrencyImpact in E. fold (may_access actor orgId) in E. rewrite Ha, Ho in E. cbn [Prelude.guard rbind] in E.
  destruct (sum_time _ _ _ _) as [g1|]; [|discriminate]. cbn [rbind] in E. destruct (count_rateless _ _ _ _) as [g2 n].
  destruct (sum_parts _ _ _ _) as [g3|]; [|discriminate]. injection E as <-. reflexivity.
Qed.

(** C14: The change of an organization's currency is all or nothing: an actor
    without access, an unknown organization, an expected currency that is no
    longer the one on the row and a change that was not confirmed are refused,
    each with its own code and with every table as it was; asking for the
    currency it already has answers without a write and without a confirmation;
    a confirmed change to a supported currency always succeeds, reports the
    currency of the locked row as the previous one, and writes the currency of
    that organization and at most one default card without a price: no rate, row
    or assignment is touched. *)
Theorem currency_change_outcomes orgId cur expected confirm actor q t r :
  Time t ->
  (forall e, In e (td_entries t) -> stranded_entry orgId cur e = true -> entry_nonneg e) ->
  (forall p, In p (td_parts t) -> stranded_part orgId cur p = true -> part_nonneg p) ->
  str_mem cur (rd_currencies r) = true ->
  let out := changeOrgCurrency orgId cur expected confirm actor q t r in
  if negb (may_access actor orgId) then out = (Err (Refused ORG_DENIED), r) else
  match rd_organizations r !! orgId with
  | None => out = (Err (Refused ORG_NOT_FOUND), r)
  | Some (pn, locked) =>
      if negb (String.eqb locked expected) then out = (Err (Refused ORG_CURRENCY_CHANGED), r)
      else if String.eqb locked cur then exists i, out = (Ok (mkChangeResult orgId locked locked i), r)
      else if negb (confirmed confirm) then out = (Err (Refused CONFIRMATION_REQUIRED), r)
      else exists i r', out = (Ok (mkChangeResult orgId locked cur i), r') /\ oi_currentCurrencyCode i = cur /\ only_currency orgId pn cur r r'
  end.
Proof.
  intros T We Wp Hc. cbv zeta. rewrite changeOrgCurrency_steps. destruct (may_access actor orgId) eqn:Ha; cbn [negb]; [|reflexivity].
  destruct (rd_organizations r !! orgId) as [[pn locked]|] eqn:Ho; [|rewrite change_currency_missing by exact Ho; reflexivity].
  rewrite (change_currency_spec orgId cur expected confirm actor r pn locked Ha Ho Hc). destruct (preview_answers orgId cur actor q t r pn locked T We Wp Ha Ho) as (i & E & _).
  destruct (String.eqb locked expected); cbn [negb]; [|rewrite E; reflexivity].
  destruct (String.eqb locked cur); [exists i; rewrite E; reflexivity|]. destruct (confirmed confirm); cbn [negb]; [|reflexivity].
  destruct (ensure_total pn cur r Hc) as (p & d & -> & _ & En). set (r' := set_organizations _ d).
  destruct (preview_answers orgId cur actor q t r' pn cur T We Wp Ha) as (j & Ej & Cj); [cbn; apply lookup_insert_eq|].
  exists j, r'. rewrite Ej. split; [reflexivity|]. split; [exact Cj|]. exact (only_currency_ensured orgId pn cur r p d En).
Qed.
End Change.

(** ** A move to euros *)

(** Forty-seven minutes billed as an hour at 120 dollars, two cables at 15 and a
    running timer, none of it billed, and an active dollar contract. *)
Definition unbilled_work : TimeDb := fold_left time_event [ev_call logged; ev_call cable; ev_call timer] (mkTimeDb day_ref [] [] 0).

Lemma unbilled_in_order : Time unbilled_work.
Proof. apply events_Time, empty_Time. Qed.

Definition dollar_documents : QuoteDb :=
  mkQuoteDb (set_contracts {["ct" := mkContract "p1" "o1" "Support" cs_active advance 1 "2026-01-01" None None false false None None "USD" None None None]}
    (empty_db sample_ref)) ∅ [] [] [] [] ∅ ∅ ∅ 0.

Definition dollar_cards : RateDb := mkRateDb [] [] ∅ {["o1" := ("p1", "USD")]} [] ∅ {["p1" := "USD"]} ["USD"; "EUR"] 0.

Lemma unbilled_nonneg e : In e (td_entries unbilled_work) -> entry_nonneg e.
Proof. intros He. vm_compute in He. destruct He as [<-|[<-|[]]]; (split; [vm_compute; split; congruence|intros r [= <-]; vm_compute; discriminate]). Qed.

Lemma unbilled_parts_nonneg p : In p (td_parts unbilled_work) -> part_nonneg p.
Proof. intros Hp. vm_compute in Hp. destruct Hp as [<-|[]]. split; vm_compute; discriminate. Qed.

(** One dollar group: the entry, the timer and the cables. *)
Lemma preview_matches_assembly_witness :
  exists i, getOrgCurrencyImpact "o1" "EUR" desk dollar_documents unbilled_work dollar_cards = Ok i /\
    exists g, In g (oi_impactsByCurrency i) /\ ig_currencyCode g = "USD" /\
      time_view (ig_billables g) = (2%nat, 1%nat, 1%nat, 0%nat, Some "120.00") /\ part_view (ig_billables g) = (1%nat, 1%nat, 0%nat, "30.00").
Proof.
  destruct (preview_matches_assembly "o1" "EUR" desk dollar_documents unbilled_work dollar_cards "p1" "USD" unbilled_in_order) as (i & E & G & C).
  - intros e He _. exact (unbilled_nonneg e He).
  - intros p Hp _. exact (unbilled_parts_nonneg p Hp).
  - reflexivity.
  - reflexivity.
  - exists i. split; [exact E|]. assert (A : affected "o1" "EUR" dollar_documents unbilled_work "USD").
    { split; [discriminate|]. right. left. eexists. split; [vm_compute; left; reflexivity|]. vm_compute. auto. }
    apply (C "USD") in A; [|discriminate]. apply in_map_iff in A as (g & Ec & Hg).
    exists g. split; [exact Hg|split; [exact Ec|]]. destruct (G g Hg) as (_ & _ & V1 & V2 & _). rewrite Ec in V1, V2. rewrite V1, V2. split; vm_compute; reflexivity.
Defined.

Lemma currency_change_outcomes_witness :
  (exists i r', changeOrgCurrency "o1" "EUR" "USD" (Some true) desk dollar_documents unbilled_work dollar_cards = (Ok (mkChangeResult "o1" "USD" "EUR" i), r') /\
     only_currency "o1" "p1" "EUR" dollar_cards r') /\
  changeOrgCurrency "o1" "EUR" "USD" None desk dollar_documents unbilled_work dollar_cards = (Err (Refused CONFIRMATION_REQUIRED), dollar_cards).
Proof.
  assert (We : forall e, In e (td_entries unbilled_work) -> stranded_entry "o1" "EUR" e = true -> entry_nonneg e) by (intros e He _; exact (unbilled_nonneg e He)).
  assert (Wp : forall p, In p (td_parts unbilled_work) -> stranded_part "o1" "EUR" p = true -> part_nonneg p) by (intros p Hp _; exact (unbilled_parts_nonneg p Hp)).
  split.
  - destruct (currency_change_outcomes "o1" "EUR" "USD" (Some true) desk dollar_documents unbilled_work dollar_cards unbilled_in_order We Wp eq_refl) as (i & r' & E & _ & O). eauto.
  - exact (currency_change_outcomes "o1" "EUR" "USD" None desk dollar_documents unbilled_work dollar_cards unbilled_in_order We Wp eq_refl).
Defined.
