(* ===== verification/QuoteConversion.v ===== *)
(** * From an accepted quote to an invoice and contracts
      ([apps/api/src/services/quoteToContract.ts], [quoteExpiry.ts],
       [quoteAcceptService.ts], the contract writer of [contractService.ts] and
       the line rules of [packages/shared/src/validators/contracts.ts])

    The contracts a quote's recurring lines become, the creation of a contract
    with its lines, and the conversion of the one-time lines into an issued
    invoice. *)

From Stdlib Require Import QArith Qround.
From S2P Require Import Prelude JsString JsNumber Currency IsoDate QuoteMath InvoiceMath ContractMath TimeBilling CatalogPricing ContractCoverage BillingDb InvoiceService InvoiceLifecycle ContractService QuoteDb.
From stdpp Require Import base gmap strings list.

Local Open Scope string_scope.
Local Open Scope Z_scope.
Local Open Scope billing_scope.

(** ** Expiry *)

Definition isQuoteExpired (expiryDate : option string) (asOf : Z) : bool :=
  match truthy expiryDate with None => false | Some e => str_ltb e (utc_day_string asOf) end.

(** ** Recurring lines become contracts *)

(** [/^\d{4}-\d{2}-\d{2}$/]. *)
Definition is_digit (c : ascii) : bool := Nat.leb 48 (nat_of_ascii c) && Nat.leb (nat_of_ascii c) 57.
Definition iso_shape (s : string) : bool :=
  match list_ascii_of_string s with
  | [a; b; c; d; h1; e; f; h2; g; h] =>
      forallb is_digit [a; b; c; d; e; f; g; h] && Ascii.eqb h1 "-"%char && Ascii.eqb h2 "-"%char
  | _ => false
  end.

(** Month overflow rolls forward. *)
Definition addMonthsToDate (dateStr : string) (months : Z) : result string string :=
  if negb (iso_shape dateStr) then Err "addMonthsToDate: expected YYYY-MM-DD"
  else if months <? 1 then Err "addMonthsToDate: months must be a positive integer"
  else
    let '(y, m, d) := parts dateStr in
    let base := Date_UTC y (m - 1) d in
    Ok (iso_of (Date_UTC (getUTCFullYear base) (utc_month1 base - 1 + months) (getUTCDate base))).

Record NewContractLineSpec := mkLineSpec {
  ns_coverage : CoverageLine; ns_description : string; ns_unitPrice : string; ns_taxable : bool;
  ns_catalogItemId : option string; ns_manualQuantity : option string; ns_siteName : option string;
  ns_allowance : AllowanceSpec; ns_sortOrder : option Z; ns_sourceQuoteLineId : option string }.

Record NewContractSpec := mkContractSpec {
  nc_orgId : string; nc_partnerId : string; nc_name : string; nc_billingTiming : BillingTiming; nc_intervalMonths : Z;
  nc_startDate : string; nc_endDate : option string; nc_currencyCode : string; nc_notes : option string;
  nc_terms : option string; nc_createdBy : option string; nc_lines : list NewContractLineSpec }.

Definition rec_eqb (a b : Recurrence) : bool :=
  match a, b with one_time, one_time | monthly, monthly | annual, annual => true | _, _ => false end.

Definition CADENCES : list (Recurrence * Z * string) := [(monthly, 1, "Monthly"); (annual, 12, "Annual")].

Definition of_cadence (r : Recurrence) (l : QuoteLine) : bool :=
  rec_eqb (recurrence (ql_math l)) r && customerVisible (ql_math l).

(** The label of a contract line. *)
Definition line_label (l : QuoteLine) : string :=
  match truthy (ql_name l), truthy (ql_description l) with
  | Some n, Some d => n ++ " — " ++ d
  | _, _ => match ql_name l with Some n => n | None => match ql_description l with Some d => d | None => "" end end
  end.

Definition line_spec (i : Z) (l : QuoteLine) : NewContractLineSpec :=
  let unitPrice := unitPrice (ql_math l) in
  match ql_contractLineType l with
  | None =>
      mkLineSpec (mkCoverage lt_manual None None None) (line_label l) unitPrice (taxable (ql_math l)) None
        (Some (quantity (ql_math l))) None (mkAllowance None None None) (Some i) (Some (ql_id l))
  | Some t =>
      let siteScopable := match t with lt_per_device | lt_per_device_role => true | _ => false end in
      mkLineSpec
        (mkCoverage t (if siteScopable then ds_siteId (ql_set l) else None)
           (match t with lt_per_device_role => ds_deviceRoles (ql_set l) | _ => None end)
           (match t with lt_per_device_group => ds_deviceGroupId (ql_set l) | _ => None end))
        (line_label l) unitPrice (taxable (ql_math l)) None None (if siteScopable then ds_siteName (ql_set l) else None)
        (ds_allowance (ql_set l)) (Some i) (Some (ql_id l))
  end.

Fixpoint line_specs (i : Z) (ls : list QuoteLine) : list NewContractLineSpec :=
  match ls with [] => [] | l :: rest => line_spec i l :: line_specs (i + 1) rest end.

(** The end date when the lines that have a term agree on one. *)
Definition term_end (startDate : string) (group : list QuoteLine) : result string (option string) :=
  match remove_dups (omap ql_termMonths group) with
  | [months] => let! e := addMonthsToDate startDate months in Ok (Some e)
  | _ => Ok None
  end.

Record QuoteForContract := mkForContract {
  qf_orgId : string; qf_partnerId : string; qf_quoteNumber : string; qf_currencyCode : string; qf_terms : option string }.

Fixpoint contract_specs (quote : QuoteForContract) (lines : list QuoteLine) (startDate : string) (createdBy : option string)
    (cadences : list (Recurrence * Z * string)) : result string (list NewContractSpec) :=
  match cadences with
  | [] => Ok []
  | (r, interval, label) :: rest =>
      match List.filter (of_cadence r) lines with
      | [] => contract_specs quote lines startDate createdBy rest
      | group =>
          let! endDate := term_end startDate group in
          let! more := contract_specs quote lines startDate createdBy rest in
          Ok (mkContractSpec (qf_orgId quote) (qf_partnerId quote) (qf_quoteNumber quote ++ " — " ++ label) advance interval
                startDate endDate (qf_currencyCode quote) (Some ("Auto-created from accepted quote " ++ qf_quoteNumber quote))
                (qf_terms quote) createdBy (line_specs 0 group) :: more)
      end
  end.

Definition buildContractSpecsFromQuote (quote : QuoteForContract) (lines : list QuoteLine) (startDate : string)
    (createdBy : option string) : result string (list NewContractSpec) :=
  contract_specs quote lines startDate createdBy CADENCES.

(** ** Creating a contract with its lines *)

Fixpoint has_dup (l : list string) : bool :=
  match l with [] => false | x :: rest => str_mem x rest || has_dup rest end.

(** A line as the shape rules see it; a stored row carries its stamped names. *)
Record ContractLineShape := mkShape {
  sh_coverage : CoverageLine; sh_manualQuantity : option string; sh_siteName : option string; sh_deviceGroupName : option string;
  sh_allowance : AllowanceSpec }.

Inductive ShapeMode := md_create | md_persisted.

Definition issue (b : bool) (path : string) : list string := if b then [path] else [].

(** A group line names its group when it is new and keeps the stamped name when
    it is stored. *)
Definition reference_issues (l : ContractLineShape) (mode : ShapeMode) : list string :=
  let c := sh_coverage l in
  let isGroupLine := bool_decide (cl_lineType c = lt_per_device_group) in
  let siteScopable := match cl_lineType c with lt_per_device | lt_per_device_role => true | _ => false end in
  match mode with
  | md_create => issue (negb (Bool.eqb isGroupLine (present (cl_deviceGroupId c)))) "deviceGroupId"
  | md_persisted =>
      (issue (negb isGroupLine && present (cl_deviceGroupId c)) "deviceGroupId" ++
       issue (negb (Bool.eqb isGroupLine (present (sh_deviceGroupName l)))) "deviceGroupName" ++
       issue (present (cl_siteId c) && siteScopable && negb (present (sh_siteName l))) "siteName" ++
       issue (present (sh_siteName l) && negb siteScopable) "siteName")%list
  end.

Definition allowance_issues (t : ContractLineType) (a : AllowanceSpec) : list string :=
  (issue ((present (includedQuantity a) || present (overageMode a) || present (overageUnitPrice a)) && negb (carries_allowance t)) "includedQuantity" ++
   issue (negb (Bool.eqb (present (includedQuantity a)) (present (overageMode a)))) "overageMode" ++
   match includedQuantity a with
   | Some q => issue (negb (js_gt (js_Number q) (ofZ 0))) "includedQuantity" ++ issue (negb (js_isInteger (js_Number q))) "includedQuantity"
   | None => []
   end ++
   issue (negb (Bool.eqb (present (overageUnitPrice a)) (match overageMode a with Some om_bill => true | _ => false end))) "overageUnitPrice")%list.

(** The shape rules, by the field each complains about. *)
Definition contractLineInvariantIssues (l : ContractLineShape) (mode : ShapeMode) : list string :=
  let c := sh_coverage l in
  let is_type t := bool_decide (cl_lineType c = t) in
  let persisted := match mode with md_persisted => true | md_create => false end in
  (issue (if is_type lt_manual then negb (present (sh_manualQuantity l)) else persisted && present (sh_manualQuantity l)) "manualQuantity" ++
   issue (present (cl_siteId c) && negb (is_type lt_per_device || is_type lt_per_device_role)) "siteId" ++
   (if negb (Bool.eqb (is_type lt_per_device_role) (present (cl_deviceRoles c))) then ["deviceRoles"]
    else match cl_deviceRoles c with
         | Some roles => issue ((persisted && match roles with [] => true | _ => false end) || has_dup roles) "deviceRoles"
         | None => []
         end) ++
   reference_issues l mode ++ allowance_issues (cl_lineType c) (sh_allowance l))%list.

Definition assertSiteInOrg (siteId orgId : string) : M (string * string) :=
  do! row := read (fun d => rf_sites (db_ref d) !! siteId) in
  match row with
  | Some (o, name) => if String.eqb o orgId then ret (siteId, name) else fail SITE_NOT_IN_ORG
  | None => fail SITE_NOT_IN_ORG
  end.

Definition assertGroupInOrg (groupId orgId : string) : M DeviceGroup :=
  do! row := read (fun d => List.find (fun g => String.eqb (dg_id g) groupId && String.eqb (dg_orgId g) orgId) (rf_deviceGroups (db_ref d))) in
  match row with Some g => ret g | None => fail GROUP_NOT_IN_ORG end.

#[export] Instance assertSiteInOrg_ro s o : ReadOnly (assertSiteInOrg s o).
Proof. unfold assertSiteInOrg. solve_ro. Qed.
#[export] Instance assertGroupInOrg_ro g o : ReadOnly (assertGroupInOrg g o).
Proof. unfold assertGroupInOrg. solve_ro. Qed.

(** The row of a spec before it is stored. *)
Definition spec_row (id contractId orgId : string) (i : Z) (l : NewContractLineSpec) (site : option (string * string))
    (group : option DeviceGroup) (unitPrice : string) (manualQuantity : option string) (allowance : AllowanceSpec) : ContractLine :=
  let c := ns_coverage l in
  mkContractLine id contractId orgId
    (mkCoverage (cl_lineType c) (option_map fst site)
       (match cl_lineType c with lt_per_device_role => cl_deviceRoles c | _ => None end) (option_map dg_id group))
    (ns_description l) (ns_catalogItemId l) unitPrice manualQuantity
    (match site with Some (_, name) => Some (match ns_siteName l with Some n => n | None => name end) | None => None end)
    (option_map dg_name group) allowance (ns_taxable l) (match ns_sortOrder l with Some s => s | None => i end).

(** The insert, under the table's primary key. *)
Definition insert_line_row (row : ContractLine) : M unit :=
  do! taken := read (fun d => str_mem (cn_id row) (map cn_id (db_contractLines d))) in
  do! _ := pg_check (negb taken) in
  modify (fun d => set_contractLines (db_contractLines d ++ [row])%list d).

Section Writers.
Context `{Uuids}.

Definition pg_allowance (a : AllowanceSpec) : result Failure AllowanceSpec :=
  let! q := pg_numeric_opt (includedQuantity a) in
  let! p := pg_numeric_opt (overageUnitPrice a) in
  Ok (mkAllowance q (overageMode a) p).

Definition insert_contract_line (contractId : string) (spec : NewContractSpec) (i : Z) (l : NewContractLineSpec) : M string :=
  let c := ns_coverage l in
  do! _ := require (match contractLineInvariantIssues (mkShape c (ns_manualQuantity l) (ns_siteName l) None (ns_allowance l)) md_create with [] => true | _ => false end) INVALID_STATE in
  do! _ := require (negb (roleLineIsInvalid c (Some BILLABLE_DEVICE_ROLES))) INVALID_STATE in
  do! _ := require (match cl_lineType c with lt_per_device_group => present (truthy (cl_deviceGroupId c)) | _ => true end) INVALID_STATE in
  do! _ := require (match cl_lineType c with
                    | lt_per_device | lt_per_device_role => present (cl_siteId c) || negb (present (ns_siteName l))
                    | _ => true
                    end) INVALID_STATE in
  do! _ := assertRepresentable (ns_unitPrice l) (nc_currencyCode spec) in
  let allowance := allowanceColumnsFor (cl_lineType c) (ns_allowance l) in
  do! _ := assertRepresentable_opt (overageUnitPrice allowance) (nc_currencyCode spec) in
  do! site := match cl_lineType c, truthy (cl_siteId c) with
              | (lt_per_device | lt_per_device_role), Some s => do! r := assertSiteInOrg s (nc_orgId spec) in ret (Some r)
              | _, _ => ret None
              end in
  do! group := match cl_lineType c, truthy (cl_deviceGroupId c) with
               | lt_per_device_group, Some g => do! r := assertGroupInOrg g (nc_orgId spec) in ret (Some r)
               | _, _ => ret None
               end in
  do! id := mint in
  do! unitPrice := lift (pg_numeric (ns_unitPrice l)) in
  do! manualQuantity := lift (pg_numeric_opt
       (match cl_lineType c with lt_manual => Some (match ns_manualQuantity l with Some q => q | None => "0" end) | _ => None end)) in
  do! stored := lift (pg_allowance allowance) in
  do! _ := insert_line_row (spec_row id contractId (nc_orgId spec) i l site group unitPrice manualQuantity stored) in
  ret id.

Fixpoint insert_contract_lines (contractId : string) (spec : NewContractSpec) (i : Z) (ls : list NewContractLineSpec)
    : M (list (string * option string)) :=
  match ls with
  | [] => ret []
  | l :: rest =>
      do! id := insert_contract_line contractId spec i l in
      do! more := insert_contract_lines contractId spec (i + 1) rest in
      ret ((id, ns_sourceQuoteLineId l) :: more)
  end.

(** The new contract and its lines with the quote lines they come from. *)
Definition createContractWithLinesDetailed (spec : NewContractSpec) : M (string * list (string * option string)) :=
  do! id := mint in
  do! taken := read (fun d => present (db_contracts d !! id)) in
  do! _ := pg_check (negb taken) in
  do! _ := modify (fun d => set_contracts (<[id :=
       mkContract (nc_partnerId spec) (nc_orgId spec) (nc_name spec) cs_draft (nc_billingTiming spec) (nc_intervalMonths spec)
         (nc_startDate spec) (nc_endDate spec) None false false None None (nc_currencyCode spec) (nc_notes spec) (nc_terms spec)
         (nc_createdBy spec)]> (db_contracts d)) d) in
  do! lines := insert_contract_lines id spec 0 (nc_lines spec) in
  ret (id, lines).

Fixpoint create_contracts (specs : list NewContractSpec) : M (list string) :=
  match specs with
  | [] => ret []
  | s :: rest =>
      do! created := createContractWithLinesDetailed s in
      do! more := create_contracts rest in
      ret (fst created :: more)
  end.
End Writers.

(** ** One-time lines become the invoice *)

Definition one_time_lines (lines : list QuoteLine) : list QuoteLine := List.filter (of_cadence one_time) lines.

Definition converted_values (lineTotal : string) (l : QuoteLine) : LineValues :=
  mkLine src_manual None None (ql_catalogItemId l) None None (truthy (option_map trim (ql_name l))) (ql_description l)
    (quantity (ql_math l)) (unitPrice (ql_math l)) None None (taxable (ql_math l)) true lineTotal false None.

(** The header of the conversion before its totals. *)
Definition converted_draft (quote : Quote) (actorUserId : option string) : Invoice :=
  let base := draft_row (qt_partnerId quote) (qt_orgId quote) (qt_siteId quote) (qt_currencyCode quote) actorUserId
                (Some (match truthy (qt_quoteNumber quote) with Some n => "Converted from quote " ++ n | None => "Converted from quote" end)) None in
  mkInvoice (iv_partnerId base) (iv_orgId base) (iv_siteId base) (iv_currencyCode base) (iv_createdBy base) (iv_status base)
    (iv_invoiceNumber base) (iv_issueDate base) (iv_dueDate base) (mkMoney "0.00" (qt_taxRate quote) "0.00" "0.00" "0.00" "0.00")
    (iv_marks base) (iv_parties base) (iv_notes base) (iv_termsAndConditions base) (iv_replacesInvoiceId base)
    (iv_replacedByInvoiceId base) (iv_evidenceVersion base) (iv_depositDue base).

(** The quote's totals, kept as they are: the balance is the total. *)
Definition converted_money (t : InvoiceTotals) (taxRate : option string) : result Failure InvoiceMoney :=
  let! subtotal := pg_numeric (it_subtotal t) in
  let! taxTotal := pg_numeric (it_taxTotal t) in
  let! total := pg_numeric (it_total t) in
  Ok (mkMoney subtotal taxRate taxTotal total "0.00" total).

Definition quote_deposit (quote : Quote) : option string :=
  match dp_type (qt_deposit quote) with
  | ty_none => None
  | _ => match dp_amount (qt_deposit quote) with
         | Some a => if js_gt (js_Number a) (ofZ 0) then Some a else None
         | None => None
         end
  end.

(** The invoice issued with the parties the quote froze. *)
Definition converted_row (quote : Quote) (partner : option Partner) (renderLocale number : string) (money : InvoiceMoney) (now : Z) (i : Invoice) : Invoice :=
  let q := qt_parties quote in
  let termsDays := match partner with Some p => pt_invoiceTermsDays p | None => 30 end in
  mkInvoice (iv_partnerId i) (iv_orgId i) (iv_siteId i) (iv_currencyCode i) (iv_createdBy i) st_sent (Some number)
    (Some (utc_day_string now)) (Some (utc_day_string (now + termsDays * MS_PER_DAY))) money (iv_marks i)
    (mkParties (qp_billToName q) (qp_billToAddress q) (qp_billToTaxId q) (pa_billToTaxExempt (iv_parties i)) (qp_terms q)
       (qp_sellerSnapshot q) (Some renderLocale)
       (Some (match pa_deviceAppendix (iv_parties i) with
              | Some b => b
              | None => match partner with Some p => pt_invoiceDeviceAppendix p | None => false end
              end)))
    (iv_notes i) (qp_termsAndConditions q) (iv_replacesInvoiceId i) (iv_replacedByInvoiceId i) (iv_evidenceVersion i)
    (quote_deposit quote).

Section Conversion.
Context `{Uuids}.

Fixpoint convert_lines (invoiceId orgId currencyCode : string) (i : Z) (ls : list QuoteLine) : M (list TotalsLine) :=
  match ls with
  | [] => ret []
  | l :: rest =>
      do! lineTotal := lift_throw (InvoiceMath.computeLineTotal (quantity (ql_math l)) (unitPrice (ql_math l)) currencyCode) in
      do! _ := insert_line invoiceId orgId i (converted_values lineTotal l) in
      do! more := convert_lines invoiceId orgId currencyCode (i + 1) rest in
      ret (mkTotalsLine lineTotal (taxable (ql_math l)) true :: more)
  end.

(** The invoice of a quote: issued when it has one-time lines. *)
Definition convert_invoice (now : Z) (quote : Quote) (lines : list QuoteLine) (renderLocale : string) (actorUserId : option string)
    : M (string * option string) :=
  let oneTime := one_time_lines lines in
  do! partner := read (fun d => rf_partners (db_ref d) !! qt_partnerId quote) in
  do! invoiceId := insert_invoice (converted_draft quote actorUserId) in
  do! totalsLines := convert_lines invoiceId (qt_orgId quote) (qt_currencyCode quote) 0 oneTime in
  do! totals := lift_throw (computeInvoiceTotals totalsLines (qt_taxRate quote) (qt_currencyCode quote)) in
  do! money := lift (converted_money totals (qt_taxRate quote)) in
  match oneTime with
  | [] => do! _ := update_invoice invoiceId (with_money money) in ret (invoiceId, None)
  | _ =>
      let year := getUTCFullYear (now / MS_PER_DAY) in
      do! counter := allocateInvoiceCounter (qt_partnerId quote) year in
      let number := formatInvoiceNumber (match partner with Some p => pt_invoiceNumberPrefix p | None => "INV" end) year counter in
      do! _ := update_invoice invoiceId (converted_row quote partner renderLocale number money now) in
      ret (invoiceId, Some number)
  end.

(** Everything an acceptance writes to the billing tables. *)
Definition convert_quote (now : Z) (quoteId : string) (quote : Quote) (lines : list QuoteLine) (renderLocale : string)
    (actorUserId : option string) : M (string * option string * list string) :=
  do! invoice := convert_invoice now quote lines renderLocale actorUserId in
  do! specs := lift_throw (buildContractSpecsFromQuote
       (mkForContract (qt_orgId quote) (qt_partnerId quote) (match qt_quoteNumber quote with Some n => n | None => quoteId end)
          (qt_currencyCode quote) (qp_terms (qt_parties quote)))
       lines (utc_day_string now) actorUserId) in
  do! contractIds := create_contracts specs in
  ret (invoice, contractIds).
End Conversion.

(** The lines of a group without a term do not keep the contract open: one line
    with a term gives the whole contract its end date. *)
Lemma open_ended_line_gets_the_term l m rest start :
  ql_termMonths l = Some m -> List.Forall (fun x => ql_termMonths x = None) rest ->
  term_end start (l :: rest) = (let! e := addMonthsToDate start m in Ok (Some e)).
Proof.
  intros E F. unfold term_end. cbn. rewrite E.
  assert (omap ql_termMonths rest = []) as -> by (induction F as [|x r Ex _ IH]; [reflexivity|]; cbn; rewrite Ex; exact IH).
  reflexivity.
Qed.
