(* ===== verification/ContractDrafting.v ===== *)
(** * Drafting and editing contracts ([apps/api/src/services/contractService.ts],
      lines 122-125, 186-257, 319-351, 1111-1803, and the patch rules of
      [packages/shared/src/validators/contracts.ts])

    Creating a contract, editing its header and its lines, deleting a draft, and
    restamping its currency: on a draft freely, on an active contract only when
    no unbilled money and no broken invoice lineage would be left behind. Each
    call is one transaction; what is emitted to the event bus is not modelled. *)

From Stdlib Require Import QArith.
From S2P Require Import Prelude JsString JsNumber Currency IsoDate QuoteMath InvoiceMath ContractMath TimeBilling CatalogPricing ContractCoverage BillingDb InvoiceService InvoiceLifecycle ContractService QuoteDb QuoteConversion.
From stdpp Require Import base gmap strings list.

Local Open Scope string_scope.
Local Open Scope Z_scope.
Local Open Scope billing_scope.

(** ** Guards *)

(** [a.permissions?.has(...) === true]: no permission set proves nothing. *)
Definition actorCan (permissions : option (list string)) (grant : string) : bool :=
  match permissions with Some p => str_mem grant p | None => false end.

Definition CONTRACTS_MANAGE : string := "contracts:manage".

Definition assertContractDraft (c : Contract) : M unit :=
  require (match ct_status c with cs_draft => true | _ => false end) NOT_A_DRAFT.

Definition assertEditable (c : Contract) : M unit :=
  require (match ct_status c with cs_draft | cs_active => true | _ => false end) INVALID_STATE.

Definition requireLineSiteAccess (actor : InvoiceActor) (siteId : option string) : M unit :=
  require (negb (contractLineSiteDenied actor siteId)) SITE_DENIED.

(** The lines a read shows, or a denial. *)
Definition visibleLinesOrDeny (actor : InvoiceActor) (lines : list ContractLine) : M (list ContractLine) :=
  match ac_allowedSiteIds actor with
  | None => ret lines
  | Some _ =>
      match List.filter (fun l => negb (contractLineSiteDenied actor (cl_siteId (cn_coverage l)))) lines with
      | [] => fail SITE_DENIED
      | visible => ret visible
      end
  end.

Record DecoratedContractLine := mkDecorated {
  dl_line : ContractLine; dl_site : option (string * string); dl_deviceGroup : option (string * string) }.

(** Both references match on the id and the organization; a row that is gone
    reads as none. The kind of a group (static or dynamic) is left out. *)
Definition decorate_line (ref : Reference) (l : ContractLine) : DecoratedContractLine :=
  mkDecorated l
    (match truthy (cl_siteId (cn_coverage l)) with
     | Some s => match rf_sites ref !! s with
                 | Some (o, name) => if String.eqb o (cn_orgId l) then Some (s, name) else None
                 | None => None
                 end
     | None => None
     end)
    (match truthy (cl_deviceGroupId (cn_coverage l)) with
     | Some g => option_map (fun r => (dg_id r, dg_name r))
                   (List.find (fun r => String.eqb (dg_id r) g && String.eqb (dg_orgId r) (cn_orgId l)) (rf_deviceGroups ref))
     | None => None
     end).

Definition withLineRefs (lines : list ContractLine) : M (list DecoratedContractLine) :=
  read (fun d => map (decorate_line (db_ref d)) lines).

(** [ORDER BY period_start DESC]. *)
Fixpoint insert_period (p : BillingPeriod) (ps : list BillingPeriod) : list BillingPeriod :=
  match ps with
  | [] => [p]
  | x :: r => if str_leb (bp_periodStart x) (bp_periodStart p) then p :: ps else x :: insert_period p r
  end.

Definition period_history (contractId : string) (d : Db) : list (BillingPeriod * option PeriodOutcome) :=
  map (fun p => (p, List.find (fun o => String.eqb (oc_contractBillingPeriodId o) (bp_id p)) (db_outcomes d)))
    (fold_right insert_period [] (List.filter (fun p => String.eqb (bp_contractId p) contractId) (db_periods d))).

Record ContractView := mkContractView {
  gv_contract : Contract; gv_lines : list DecoratedContractLine;
  gv_periods : option (list (BillingPeriod * option PeriodOutcome)); gv_linesFilteredBySiteScope : option bool }.

(** A partial read says so and withholds the history, whose numbers are of the
    whole document. *)
Definition getContract (contractId : string) (actor : InvoiceActor) : M ContractView :=
  do! contract := getOwnedContractOr404 contractId actor in
  do! allLines := read (ordered_lines contractId) in
  do! lines := visibleLinesOrDeny actor allLines in
  do! decorated := withLineRefs lines in
  let filtered := match ac_allowedSiteIds actor with
                  | Some _ => Some (negb (Nat.eqb (List.length lines) (List.length allLines)))
                  | None => None
                  end in
  do! periods := read (period_history contractId) in
  ret (mkContractView contract decorated (match filtered with Some true => None | _ => Some periods end) filtered).

Definition siteScopable (t : ContractLineType) : bool :=
  match t with lt_per_device | lt_per_device_role => true | _ => false end.

(** ** Creating a contract *)

Record CreateContractInput := mkCreateContract {
  kn_orgId : string; kn_name : string; kn_billingTiming : BillingTiming; kn_intervalMonths : Z; kn_startDate : string;
  kn_endDate : option string; kn_autoIssue : option bool; kn_currencyCode : option string; kn_notes : option string;
  kn_terms : option string; kn_autoRenew : option bool; kn_renewalTermMonths : option Z; kn_renewalNoticeDays : option Z }.

Definition in_range (lo hi : Z) (n : option Z) : bool := match n with Some n => (lo <=? n) && (n <=? hi) | None => true end.
Definition text_within (n : Z) (s : option string) : bool := match s with Some s => slen s <=? n | None => true end.
Definition iso_or_null (s : option string) : bool := match s with Some s => iso_shape s | None => true end.

(** Ids are opaque: their guid format is not checked. *)
Definition createContractSchema (i : CreateContractInput) : bool :=
  (1 <=? slen (kn_name i)) && (slen (kn_name i) <=? 255) && in_range 1 60 (Some (kn_intervalMonths i)) &&
  iso_shape (kn_startDate i) && iso_or_null (kn_endDate i) &&
  match kn_currencyCode i with Some c => isKnownCurrency c | None => true end &&
  text_within 5000 (kn_notes i) && text_within 5000 (kn_terms i) &&
  in_range 1 120 (kn_renewalTermMonths i) && in_range 0 365 (kn_renewalNoticeDays i) &&
  match kn_endDate i with Some e => str_ltb (kn_startDate i) e | None => true end &&
  match kn_autoRenew i with Some true => present (kn_endDate i) && present (kn_renewalTermMonths i) | _ => true end.

Section Create.
Context `{Uuids}.

Definition createContract (input : CreateContractInput) (actor : InvoiceActor) : M string :=
  do! _ := requireOrgAccess actor (kn_orgId input) in
  do! _ := require (negb (present (ac_allowedSiteIds actor))) SITE_DENIED in
  do! _ := require (present (ac_partnerId actor)) ORG_DENIED in
  do! stamped := lockOrgStampingDefaults (kn_orgId input) in
  do! org := read (fun d => rf_organizations (db_ref d) !! kn_orgId input) in
  match org with
  | None => fail ORG_NOT_FOUND
  | Some o =>
      do! id := mint in
      do! taken := read (fun d => present (db_contracts d !! id)) in
      do! _ := pg_check (negb taken) in
      do! _ := modify (fun d => set_contracts (<[id :=
           mkContract (org_partnerId o) (kn_orgId input) (kn_name input) cs_draft (kn_billingTiming input) (kn_intervalMonths input)
             (kn_startDate input) (kn_endDate input) None (from_option_default (kn_autoIssue input) false)
             (from_option_default (kn_autoRenew input) false) (kn_renewalTermMonths input) (kn_renewalNoticeDays input)
             (from_option_default (kn_currencyCode input) stamped) (kn_notes input) (kn_terms input) (ac_userId actor)]>
           (db_contracts d)) d) in
      ret id
  end.
End Create.

(** ** Editing the header *)

(** An absent key is [None]; a nullable key is present as [Some None]. *)
Record UpdateContractInput := mkUpdateContract {
  ku_name : option string; ku_billingTiming : option BillingTiming; ku_intervalMonths : option Z; ku_startDate : option string;
  ku_endDate : option (option string); ku_autoIssue : option bool; ku_notes : option (option string);
  ku_terms : option (option string); ku_autoRenew : option bool; ku_renewalTermMonths : option (option Z);
  ku_renewalNoticeDays : option (option Z) }.

Definition no_contract_patch : UpdateContractInput := mkUpdateContract None None None None None None None None None None None.

Definition touches_schedule (p : UpdateContractInput) : bool :=
  present (ku_billingTiming p) || present (ku_intervalMonths p) || present (ku_startDate p).

(** The whitelisted columns, the schedule only when the row read was a draft. *)
Definition safe_set (draft : bool) (p : UpdateContractInput) (c : Contract) : Contract :=
  let scheduled {A} (new : option A) (old : A) : A := if draft then from_option_default new old else old in
  mkContract (ct_partnerId c) (ct_orgId c) (from_option_default (ku_name p) (ct_name c)) (ct_status c)
    (scheduled (ku_billingTiming p) (ct_billingTiming c)) (scheduled (ku_intervalMonths p) (ct_intervalMonths c))
    (scheduled (ku_startDate p) (ct_startDate c)) (from_option_default (ku_endDate p) (ct_endDate c)) (ct_nextBillingAt c)
    (from_option_default (ku_autoIssue p) (ct_autoIssue c)) (from_option_default (ku_autoRenew p) (ct_autoRenew c))
    (from_option_default (ku_renewalTermMonths p) (ct_renewalTermMonths c))
    (from_option_default (ku_renewalNoticeDays p) (ct_renewalNoticeDays c)) (ct_currencyCode c)
    (from_option_default (ku_notes p) (ct_notes c)) (from_option_default (ku_terms p) (ct_terms c)) (ct_createdBy c).

(** An auto-renewing contract has an end date and a renewal term. *)
Definition renewable (c : Contract) : bool :=
  negb (ct_autoRenew c) || (present (ct_endDate c) && present (ct_renewalTermMonths c)).

Definition is_draft (c : Contract) : bool := match ct_status c with cs_draft => true | _ => false end.

(** The reads and checks, which lock nothing, and the columns they decide to
    write. *)
Definition updateContract_plan (contractId : string) (patch : UpdateContractInput) (actor : InvoiceActor) : M (Contract -> Contract) :=
  do! c := getOwnedContractOr404 contractId actor in
  do! _ := requireWholeContractSiteAccess actor contractId in
  do! _ := assertEditable c in
  do! _ := require (is_draft c || negb (touches_schedule patch)) INVALID_STATE in
  do! _ := lift (if renewable (safe_set (is_draft c) patch c) then Ok tt
                 else Err (Thrown "auto-renew requires an end date and renewal term")) in
  ret (safe_set (is_draft c) patch).

Definition updateContract (contractId : string) (patch : UpdateContractInput) (actor : InvoiceActor) : M Contract :=
  do! set := updateContract_plan contractId patch actor in
  do! _ := update_contract contractId set in
  getOwnedContractOr404 contractId actor.

(** ** Deleting a draft *)

Definition without_source_contract (contractId : string) (l : InvoiceLine) : InvoiceLine :=
  let v := il_values l in
  if opt_eqb (lv_sourceContractId v) (Some contractId)
  then mkInvoiceLine (il_id l) (il_invoiceId l) (il_orgId l) (il_sortOrder l)
         (mkLine (lv_sourceType v) (lv_sourceId v) None (lv_catalogItemId v) (lv_parentLineId v) (lv_ticketId v) (lv_name v)
            (lv_description v) (lv_quantity v) (lv_unitPrice v) (lv_costBasis v) (lv_revenueAllocation v) (lv_taxable v)
            (lv_customerVisible v) (lv_lineTotal v) (lv_isUnapprovedTime v) (lv_workedMinutes v))
  else l.

(** What the foreign keys do when a contract row goes: its lines, periods,
    outcomes and notices with it, the lines of invoices it sourced kept without
    it. *)
Definition drop_contract (contractId : string) (d : Db) : Db :=
  let other (c : string) := negb (String.eqb c contractId) in
  set_lines (map (without_source_contract contractId) (db_lines d))
    (set_notices (List.filter (fun n => other (fst (fst n))) (db_notices d))
    (set_outcomes (List.filter (fun o => other (oc_contractId o)) (db_outcomes d))
    (set_periods (List.filter (fun p => other (bp_contractId p)) (db_periods d))
    (set_contractLines (List.filter (fun l => other (cn_contractId l)) (db_contractLines d))
    (set_contracts (delete contractId (db_contracts d)) d))))).

Definition deleteDraftContract_checks (contractId : string) (actor : InvoiceActor) : M unit :=
  do! c := getOwnedContractOr404 contractId actor in
  do! _ := requireWholeContractSiteAccess actor contractId in
  assertContractDraft c.

Definition deleteDraftContract (contractId : string) (actor : InvoiceActor) : M unit :=
  do! _ := deleteDraftContract_checks contractId actor in
  modify (drop_contract contractId).

(** ** Which active contracts may change currency *)

Record ContractCurrencyEligibility := mkEligibility {
  ge_draftInvoiceIds : list string; ge_orphanedBillingPeriodIds : list string;
  ge_orphanedContractSourceLineIds : list string; ge_brokenLineageInvoiceIds : list string }.

Definition no_rows {A} (l : list A) : bool := match l with [] => true | _ => false end.

Definition eligible (e : ContractCurrencyEligibility) : bool :=
  no_rows (ge_draftInvoiceIds e) && no_rows (ge_orphanedBillingPeriodIds e) &&
  no_rows (ge_orphanedContractSourceLineIds e) && no_rows (ge_brokenLineageInvoiceIds e).

Definition LINEAGE_DEPTH_CAP : nat := 32.

(** [Array.prototype.sort] and [ORDER BY id] on ids. *)
Fixpoint insert_text (x : string) (l : list string) : list string :=
  match l with
  | [] => [x]
  | y :: r => if str_leb x y then x :: l else y :: insert_text x r
  end.
Definition sort_ids (l : list string) : list string := fold_right insert_text [] l.

Definition periods_of (contractId : string) (d : Db) : list BillingPeriod :=
  List.filter (fun p => String.eqb (bp_contractId p) contractId) (db_periods d).

(** The invoices that replace one. *)
Definition replacements (i : string) (d : Db) : list string :=
  map fst (List.filter (fun r => opt_eqb (iv_replacesInvoiceId (snd r)) (Some i)) (map_to_list (db_invoices d))).

(** The reissue descendants of an invoice, from the depth the fuel leaves, never
    into an invoice already on the path. *)
Fixpoint walk (fuel : nat) (path : list string) (i : string) (d : Db) : list string :=
  i :: match fuel with
       | O => []
       | S k => flat_map (fun c => if str_mem c path then [] else walk k (c :: path) c d) (replacements i d)
       end.

Definition period_invoices (contractId : string) (d : Db) : list string :=
  List.filter (fun i => present (db_invoices d !! i)) (omap bp_invoiceId (periods_of contractId d)).

Definition is_draft_invoice (i : string) (d : Db) : bool :=
  match db_invoices d !! i with Some inv => match iv_status inv with st_draft => true | _ => false end | None => false end.

Definition reachable_invoices (contractId : string) (d : Db) : list string :=
  flat_map (fun i => walk LINEAGE_DEPTH_CAP [i] i d) (period_invoices contractId d).

(** A live line of a contract has the id. *)
Definition live_contract_line (contractId : option string) (sourceId : option string) (d : Db) : bool :=
  match sourceId with
  | None => false
  | Some s => existsb (fun l => String.eqb (cn_id l) s && match contractId with Some c => String.eqb (cn_contractId l) c | None => true end)
                (db_contractLines d)
  end.

Definition sourced_by (contractId : string) (d : Db) (l : InvoiceLine) : bool :=
  match lv_sourceContractId (il_values l) with
  | Some c => String.eqb c contractId
  | None => live_contract_line (Some contractId) (lv_sourceId (il_values l)) d
  end.

Definition direct_drafts (contractId : string) (d : Db) : list string :=
  map il_invoiceId (List.filter (fun l => is_draft_invoice (il_invoiceId l) d && sourced_by contractId d l) (db_lines d)).

Definition orphan_sources (orgId : string) (d : Db) : list string :=
  sort_ids (map il_id (List.filter (fun l =>
    String.eqb (il_orgId l) orgId && is_draft_invoice (il_invoiceId l) d &&
    match lv_sourceType (il_values l) with src_contract => true | _ => false end &&
    negb (present (lv_sourceContractId (il_values l))) &&
    negb (live_contract_line None (lv_sourceId (il_values l)) d)) (db_lines d))).

(** Upwards: every ancestor in the tenant, and the chain ends within the cap
    and without a revisit. *)
Fixpoint ancestry (fuel : nat) (orgId partnerId : string) (path : list string) (inv : Invoice) (d : Db) : bool * bool :=
  let ok := String.eqb (iv_orgId inv) orgId && String.eqb (iv_partnerId inv) partnerId in
  match iv_replacesInvoiceId inv with
  | None => (ok, true)
  | Some p =>
      match fuel with
      | O => (ok, false)
      | S k =>
          if str_mem p path then (ok, false)
          else match db_invoices d !! p with
               | None => (ok, true)
               | Some parent => let '(o, t) := ancestry k orgId partnerId (p :: path) parent d in (ok && o, t)
               end
      end
  end.

Definition attributable (contractId i : string) (d : Db) : bool :=
  existsb (fun l => String.eqb (il_invoiceId l) i && opt_eqb (lv_sourceContractId (il_values l)) (Some contractId)) (db_lines d) ||
  negb (existsb (fun o => opt_eqb (bp_invoiceId o) (Some i) && negb (String.eqb (bp_contractId o) contractId)) (db_periods d)).

Inductive PeriodVerdict := pv_orphaned (periodId : string) | pv_broken (invoiceId : string) | pv_sound.

Definition period_verdict (contractId : string) (c : Contract) (d : Db) (p : BillingPeriod) : PeriodVerdict :=
  match bp_invoiceId p with
  | None => pv_orphaned (bp_id p)
  | Some i =>
      match db_invoices d !! i with
      | None => pv_orphaned (bp_id p)
      | Some inv =>
          let '(same_tenant, terminates) := ancestry LINEAGE_DEPTH_CAP (ct_orgId c) (ct_partnerId c) [i] inv d in
          if same_tenant && attributable contractId i d && terminates then pv_sound else pv_broken i
      end
  end.

(** [[...new Set(l)]]: the first of equal elements stays. *)
Definition js_set (l : list string) : list string := rev (remove_dups (rev l)).

(** [ORDER BY cbp.id]. *)
Fixpoint insert_period_id (p : BillingPeriod) (ps : list BillingPeriod) : list BillingPeriod :=
  match ps with
  | [] => [p]
  | x :: r => if str_leb (bp_id p) (bp_id x) then p :: ps else x :: insert_period_id p r
  end.

Definition inspect (contractId : string) (c : Contract) (d : Db) : ContractCurrencyEligibility :=
  let verdicts := map (period_verdict contractId c d) (fold_right insert_period_id [] (periods_of contractId d)) in
  mkEligibility
    (sort_ids (remove_dups (List.filter (fun i => is_draft_invoice i d) (reachable_invoices contractId d) ++ direct_drafts contractId d)%list))
    (omap (fun v => match v with pv_orphaned p => Some p | _ => None end) verdicts)
    (orphan_sources (ct_orgId c) d)
    (js_set (omap (fun v => match v with pv_broken i => Some i | _ => None end) verdicts)).

Definition inspectContractCurrencyEligibility (contractId : string) : M ContractCurrencyEligibility :=
  do! row := read (fun d => db_contracts d !! contractId) in
  match row with
  | None => fail CONTRACT_NOT_FOUND
  | Some c => read (inspect contractId c)
  end.

Definition assertActiveContractEligible (e : ContractCurrencyEligibility) : M unit :=
  do! _ := require (no_rows (ge_orphanedContractSourceLineIds e)) ORPHANED_CONTRACT_SOURCE in
  do! _ := require (no_rows (ge_orphanedBillingPeriodIds e)) ORPHANED_BILLING_PERIOD in
  do! _ := require (no_rows (ge_brokenLineageInvoiceIds e)) BROKEN_CONTRACT_LINEAGE in
  require (no_rows (ge_draftInvoiceIds e)) UNBILLED_MONETARY_ROWS.

(** ** Pricing a line *)

(** A catalog item the contract cannot reach is the request's fault. *)
Definition mapCatalogResolveError {A} (x : M A) : M A := fun d =>
  match x d with
  | Err (Refused ITEM_NOT_FOUND) => Err (Refused CATALOG_ITEM_NOT_FOUND)
  | r => r
  end.

Definition catalogActor (actor : InvoiceActor) (c : Contract) : InvoiceActor :=
  mkActor (ac_userId actor) (Some (ct_partnerId c)) (ac_accessibleOrgIds actor) None.

(** The item's price in a currency for the contract's organization. *)
Definition resolve_line_price (catalogItemId currencyCode : string) (c : Contract) (actor : InvoiceActor) : M ResolvedPrice :=
  mapCatalogResolveError (resolvePrice catalogItemId currencyCode (Some (ct_orgId c)) (catalogActor actor c)).

Definition with_unit_price (p : string) (l : ContractLine) : ContractLine :=
  mkContractLine (cn_id l) (cn_contractId l) (cn_orgId l) (cn_coverage l) (cn_description l) (cn_catalogItemId l) p
    (cn_manualQuantity l) (cn_siteName l) (cn_deviceGroupName l) (cn_allowance l) (cn_taxable l) (cn_sortOrder l).

Definition update_contract_lines (sel : ContractLine -> bool) (f : ContractLine -> ContractLine) : M unit :=
  modify (fun d => set_contractLines (map (fun l => if sel l then f l else l) (db_contractLines d)) d).

Definition has_line_id (lineId : string) (l : ContractLine) : bool := String.eqb (cn_id l) lineId.

(** ** Restamping the currency *)

Definition reprice_line (currencyCode : string) (c : Contract) (actor : InvoiceActor) (l : ContractLine) : M unit :=
  match cn_catalogItemId l with
  | None => ret tt
  | Some item =>
      do! resolved := resolve_line_price item currencyCode c actor in
      do! price := lift (pg_numeric (rp_unitPrice resolved)) in
      update_contract_lines (has_line_id (cn_id l)) (with_unit_price price)
  end.

Definition with_currency (currencyCode : string) (c : Contract) : Contract :=
  mkContract (ct_partnerId c) (ct_orgId c) (ct_name c) (ct_status c) (ct_billingTiming c) (ct_intervalMonths c) (ct_startDate c)
    (ct_endDate c) (ct_nextBillingAt c) (ct_autoIssue c) (ct_autoRenew c) (ct_renewalTermMonths c) (ct_renewalNoticeDays c)
    currencyCode (ct_notes c) (ct_terms c) (ct_createdBy c).

(** [ORDER BY contract_lines.id]. *)
Fixpoint insert_line_id (x : ContractLine) (l : list ContractLine) : list ContractLine :=
  match l with
  | [] => [x]
  | y :: r => if str_leb (cn_id x) (cn_id y) then x :: l else y :: insert_line_id x r
  end.

Definition lines_by_id (contractId : string) (d : Db) : list ContractLine := fold_right insert_line_id [] (contract_lines contractId d).

Definition move_lines (contractId currencyCode : string) (clearLines reprice : bool) (c : Contract) (actor : InvoiceActor)
    (lineRows : list ContractLine) : M unit :=
  do! _ := require (clearLines || forallb (fun l => negb (present (overageUnitPrice (cn_allowance l)))) lineRows) CURRENCY_LOCKED in
  if reprice then
    do! _ := require (forallb (fun l => present (cn_catalogItemId l)) lineRows) CURRENCY_LOCKED in
    for_each (reprice_line currencyCode c actor) lineRows
  else
    do! _ := require clearLines CURRENCY_LOCKED in
    modify (fun d => set_contractLines (List.filter (fun l => negb (String.eqb (cn_contractId l) contractId)) (db_contractLines d)) d).

(** The active branch needs the permission, the confirmation and eligibility,
    read under the row lock. *)
Definition assert_restampable (contractId : string) (c : Contract) (confirmActiveChange : bool) (permissions : option (list string)) : M unit :=
  match ct_status c with
  | cs_draft => ret tt
  | cs_active =>
      do! _ := require (actorCan permissions CONTRACTS_MANAGE) ACTIVE_CHANGE_FORBIDDEN in
      do! _ := require confirmActiveChange ACTIVE_CHANGE_CONFIRMATION_REQUIRED in
      do! e := inspectContractCurrencyEligibility contractId in
      assertActiveContractEligible e
  | _ => fail NOT_A_DRAFT
  end.

Definition changeContractCurrencySchema (currencyCode : string) (clearLines reprice : bool) : bool :=
  isKnownCurrency currencyCode && negb (clearLines && reprice).

Definition changeContractCurrency (contractId currencyCode : string) (clearLines reprice confirmActiveChange : bool)
    (permissions : option (list string)) (actor : InvoiceActor) : M unit :=
  do! c := lockContract contractId actor in
  do! _ := requireWholeContractSiteAccess actor contractId in
  do! _ := assert_restampable contractId c confirmActiveChange permissions in
  if String.eqb (ct_currencyCode c) currencyCode then ret tt
  else
    do! lineRows := read (lines_by_id contractId) in
    do! _ := match lineRows with [] => ret tt | _ => move_lines contractId currencyCode clearLines reprice c actor lineRows end in
    update_contract contractId (with_currency currencyCode).

(** ** Adding a line *)

Record ContractLineInput := mkLineInput {
  ni_coverage : CoverageLine; ni_description : string; ni_unitPrice : option string; ni_taxable : option bool;
  ni_catalogItemId : option string; ni_manualQuantity : option string; ni_allowance : AllowanceSpec; ni_sortOrder : option Z }.

(** The price and taxability of a new line: the catalog's, or the input's. *)
Definition new_line_price (input : ContractLineInput) (c : Contract) (actor : InvoiceActor) : M (string * bool) :=
  match truthy (ni_catalogItemId input) with
  | Some item =>
      do! resolved := resolve_line_price item (ct_currencyCode c) c actor in
      ret (rp_unitPrice resolved, rp_taxable resolved)
  | None =>
      match ni_unitPrice input, ni_taxable input with
      | Some unitPrice, Some taxable =>
          do! _ := assertRepresentable unitPrice (ct_currencyCode c) in
          ret (unitPrice, taxable)
      | _, _ => fail INVALID_STATE
      end
  end.

Section AddLine.
Context `{Uuids}.

Definition addContractLineToContract (contractId : string) (input : ContractLineInput) (actor : InvoiceActor) : M ContractLine :=
  let t := cl_lineType (ni_coverage input) in
  do! c := lockContract contractId actor in
  do! _ := requireWholeContractSiteAccess actor contractId in
  do! _ := assertEditable c in
  do! _ := require (negb (roleLineIsInvalid (ni_coverage input) (Some BILLABLE_DEVICE_ROLES))) INVALID_STATE in
  do! _ := require (match t with lt_per_device_group => present (truthy (cl_deviceGroupId (ni_coverage input))) | _ => true end) INVALID_STATE in
  let siteId := if siteScopable t then cl_siteId (ni_coverage input) else None in
  do! _ := requireLineSiteAccess actor siteId in
  do! priced := new_line_price input c actor in
  let allowance := allowanceColumnsFor t (ni_allowance input) in
  do! _ := assertRepresentable_opt (overageUnitPrice allowance) (ct_currencyCode c) in
  do! site := match truthy siteId with
              | Some s => do! r := assertSiteInOrg s (ct_orgId c) in ret (Some r)
              | None => ret None
              end in
  do! group := match t, truthy (cl_deviceGroupId (ni_coverage input)) with
               | lt_per_device_group, Some g => do! r := assertGroupInOrg g (ct_orgId c) in ret (Some r)
               | _, _ => ret None
               end in
  do! id := mint in
  do! unitPrice := lift (pg_numeric (fst priced)) in
  do! manualQuantity := lift (pg_numeric_opt
       (match t with lt_manual => Some (from_option_default (ni_manualQuantity input) "0") | _ => None end)) in
  do! stored := lift (pg_allowance allowance) in
  let row := mkContractLine id contractId (ct_orgId c)
       (mkCoverage t (option_map fst site) (match t with lt_per_device_role => cl_deviceRoles (ni_coverage input) | _ => None end)
          (option_map dg_id group))
       (ni_description input) (ni_catalogItemId input) unitPrice manualQuantity (option_map snd site) (option_map dg_name group)
       stored (snd priced) (from_option_default (ni_sortOrder input) 0) in
  do! _ := insert_line_row row in
  ret row.
End AddLine.

(** ** Patching a line *)

(** An absent key is [None]; a nullable key is present as [Some None]. *)
Record UpdateContractLineInput := mkLinePatch {
  lu_description : option string; lu_unitPrice : option string; lu_taxable : option bool;
  lu_catalogItemId : option (option string); lu_refreshCatalogPrice : bool; lu_manualQuantity : option string;
  lu_siteId : option (option string); lu_deviceRoles : option (list string); lu_deviceGroupId : option string;
  lu_includedQuantity : option (option string); lu_overageMode : option (option OverageMode);
  lu_overageUnitPrice : option (option string); lu_sortOrder : option Z }.

Definition empty_line_patch : UpdateContractLineInput :=
  mkLinePatch None None None None false None None None None None None None None.

(** What the catalog answered for the item a patch links to. *)
Record LineResolution := mkLineResolution { lr_unitPrice : string; lr_taxable : bool; lr_catalogItemId : option string }.

(** The current row under a patch. A resolution wins; a row that stays linked
    keeps its price; an unlinked one takes the patch's. *)
Definition mergeContractLinePatch (current : ContractLine) (patch : UpdateContractLineInput) (resolved : option LineResolution) : ContractLine :=
  let catalogItemId := match resolved with
                       | Some r => lr_catalogItemId r
                       | None => from_option_default (lu_catalogItemId patch) (cn_catalogItemId current)
                       end in
  let stillLinked := present catalogItemId in
  let cov := cn_coverage current in
  let a := cn_allowance current in
  mkContractLine (cn_id current) (cn_contractId current) (cn_orgId current)
    (mkCoverage (cl_lineType cov) (from_option_default (lu_siteId patch) (cl_siteId cov))
       (match lu_deviceRoles patch with Some r => Some r | None => cl_deviceRoles cov end)
       (match lu_deviceGroupId patch with Some g => Some g | None => cl_deviceGroupId cov end))
    (from_option_default (lu_description patch) (cn_description current)) catalogItemId
    (match resolved with
     | Some r => lr_unitPrice r
     | None => if stillLinked then cn_unitPrice current else from_option_default (lu_unitPrice patch) (cn_unitPrice current)
     end)
    (match lu_manualQuantity patch with Some q => Some q | None => cn_manualQuantity current end)
    (match lu_siteId patch with
     | Some s => if present (truthy s) then cn_siteName current else None
     | None => cn_siteName current
     end)
    (cn_deviceGroupName current)
    (mkAllowance (from_option_default (lu_includedQuantity patch) (includedQuantity a))
       (from_option_default (lu_overageMode patch) (overageMode a)) (from_option_default (lu_overageUnitPrice patch) (overageUnitPrice a)))
    (match resolved with
     | Some r => lr_taxable r
     | None => if stillLinked then cn_taxable current else from_option_default (lu_taxable patch) (cn_taxable current)
     end)
    (from_option_default (lu_sortOrder patch) (cn_sortOrder current)).

Definition line_shape (l : ContractLine) : ContractLineShape :=
  mkShape (cn_coverage l) (cn_manualQuantity l) (cn_siteName l) (cn_deviceGroupName l) (cn_allowance l).

(** The catalog transition table. The id of the current item sent again is no
    relink. *)
Definition resolve_transition (current : ContractLine) (patch : UpdateContractLineInput) (c : Contract) (actor : InvoiceActor)
    : M (option LineResolution) :=
  let targetItemId := from_option_default (lu_catalogItemId patch) (cn_catalogItemId current) in
  let relinking := match lu_catalogItemId patch with
                   | Some (Some i) => negb (opt_eqb (Some i) (cn_catalogItemId current))
                   | _ => false
                   end in
  let unlinking := match lu_catalogItemId patch with Some None => present (cn_catalogItemId current) | _ => false end in
  do! _ := require (negb (lu_refreshCatalogPrice patch) || present targetItemId) INVALID_LINE_PATCH in
  match targetItemId, relinking || lu_refreshCatalogPrice patch with
  | Some item, true =>
      do! priced := resolve_line_price item (ct_currencyCode c) c actor in
      ret (Some (mkLineResolution (rp_unitPrice priced) (rp_taxable priced) (Some item)))
  | _, _ =>
      if unlinking then
        match lu_unitPrice patch, lu_taxable patch with
        | Some p, Some _ => do! _ := assertRepresentable p (ct_currencyCode c) in ret None
        | _, _ => fail INVALID_LINE_PATCH
        end
      else match targetItemId with
           | None => do! _ := assertRepresentable_opt (lu_unitPrice patch) (ct_currencyCode c) in ret None
           | Some _ => ret None
           end
  end.

Definition with_names (siteName deviceGroupName : option string) (l : ContractLine) : ContractLine :=
  mkContractLine (cn_id l) (cn_contractId l) (cn_orgId l) (cn_coverage l) (cn_description l) (cn_catalogItemId l) (cn_unitPrice l)
    (cn_manualQuantity l) siteName deviceGroupName (cn_allowance l) (cn_taxable l) (cn_sortOrder l).

(** The row as the numeric columns keep it. *)
Definition store_line (l : ContractLine) : result Failure ContractLine :=
  let! unitPrice := pg_numeric (cn_unitPrice l) in
  let! manualQuantity := pg_numeric_opt (cn_manualQuantity l) in
  let! allowance := pg_allowance (cn_allowance l) in
  Ok (mkContractLine (cn_id l) (cn_contractId l) (cn_orgId l) (cn_coverage l) (cn_description l) (cn_catalogItemId l) unitPrice
        manualQuantity (cn_siteName l) (cn_deviceGroupName l) allowance (cn_taxable l) (cn_sortOrder l)).

Definition is_line (contractId lineId : string) (l : ContractLine) : bool :=
  String.eqb (cn_id l) lineId && String.eqb (cn_contractId l) contractId.

Definition getContractLine (contractId lineId : string) : M ContractLine :=
  do! row := read (fun d => List.find (is_line contractId lineId) (db_contractLines d)) in
  match row with Some l => ret l | None => fail LINE_NOT_FOUND end.

(** *** What the audit log is told *)

Inductive AuditedLineColumn :=
| au_description | au_unitPrice | au_taxable | au_catalogItemId | au_manualQuantity | au_siteId | au_deviceRoles | au_deviceGroupId
| au_deviceGroupName | au_sortOrder | au_includedQuantity | au_overageMode | au_overageUnitPrice.

#[export] Instance audited_column_eq_dec : EqDecision AuditedLineColumn.
Proof. solve_decision. Defined.

Definition AUDITED_LINE_COLUMNS : list AuditedLineColumn :=
  [au_description; au_unitPrice; au_taxable; au_catalogItemId; au_manualQuantity; au_siteId; au_deviceRoles; au_deviceGroupId;
   au_deviceGroupName; au_sortOrder; au_includedQuantity; au_overageMode; au_overageUnitPrice].

Definition column_text (field : AuditedLineColumn) (l : ContractLine) : option string :=
  match field with
  | au_description => Some (cn_description l)
  | au_unitPrice => Some (cn_unitPrice l)
  | au_taxable => Some (if cn_taxable l then "true" else "false")
  | au_catalogItemId => cn_catalogItemId l
  | au_manualQuantity => cn_manualQuantity l
  | au_siteId => cl_siteId (cn_coverage l)
  | au_deviceRoles => None
  | au_deviceGroupId => cl_deviceGroupId (cn_coverage l)
  | au_deviceGroupName => cn_deviceGroupName l
  | au_sortOrder => Some (js_String (ofZ (cn_sortOrder l)))
  | au_includedQuantity => includedQuantity (cn_allowance l)
  | au_overageMode => option_map (fun m => match m with om_bill => "bill" | om_flag => "flag" end) (overageMode (cn_allowance l))
  | au_overageUnitPrice => overageUnitPrice (cn_allowance l)
  end.

(** A reorder of the roles is no change. *)
Definition lineColumnChanged (field : AuditedLineColumn) (before after : ContractLine) : bool :=
  match field with
  | au_deviceRoles => negb (bool_decide (option_map sort_ids (cl_deviceRoles (cn_coverage before)) = option_map sort_ids (cl_deviceRoles (cn_coverage after))))
  | _ => negb (opt_eqb (column_text field before) (column_text field after))
  end.

Record ContractLineAudit := mkLineAudit {
  la_orgId : string; la_contractId : string; la_contractName : string; la_contractLineId : string; la_lineType : ContractLineType;
  la_changedFields : option (list AuditedLineColumn); la_oldUnitPrice : option string; la_newUnitPrice : option string }.

Definition diffLineAudit (before after : ContractLine) (contractId : string) (c : Contract) : ContractLineAudit :=
  let changedFields := List.filter (fun f => lineColumnChanged f before after) AUDITED_LINE_COLUMNS in
  let priced := lineColumnChanged au_unitPrice before after in
  mkLineAudit (ct_orgId c) contractId (ct_name c) (cn_id after) (cl_lineType (cn_coverage after)) (Some changedFields)
    (if priced then Some (cn_unitPrice before) else None) (if priced then Some (cn_unitPrice after) else None).

(** *** The operation *)

Definition updateContractLine (contractId lineId : string) (patch : UpdateContractLineInput) (actor : InvoiceActor)
    : M (DecoratedContractLine * ContractLineAudit) :=
  do! c := lockContract contractId actor in
  do! _ := requireWholeContractSiteAccess actor contractId in
  do! _ := assertEditable c in
  do! current := getContractLine contractId lineId in
  do! resolved := resolve_transition current patch c actor in
  let merged := mergeContractLinePatch current patch resolved in
  let cov := cn_coverage merged in
  let siteId := if siteScopable (cl_lineType cov) then cl_siteId cov else None in
  do! _ := requireLineSiteAccess actor siteId in
  do! siteName := match lu_siteId patch, truthy siteId with
                  | None, _ => ret (cn_siteName merged)
                  | Some _, Some s => do! r := assertSiteInOrg s (ct_orgId c) in ret (Some (snd r))
                  | Some _, None => ret None
                  end in
  let named := with_names siteName (cn_deviceGroupName merged) merged in
  do! _ := require (no_rows (contractLineInvariantIssues (line_shape named) md_persisted)) INVALID_LINE_PATCH in
  do! _ := match lu_overageUnitPrice patch with
           | Some _ => assertRepresentable_opt (overageUnitPrice (cn_allowance named)) (ct_currencyCode c)
           | None => ret tt
           end in
  do! deviceGroupName := match lu_deviceGroupId patch with
                         | Some g => do! r := assertGroupInOrg g (ct_orgId c) in ret (Some (dg_name r))
                         | None => ret (cn_deviceGroupName current)
                         end in
  do! updated := lift (store_line (with_names siteName deviceGroupName named)) in
  do! _ := update_contract_lines (is_line contractId lineId) (fun _ => updated) in
  do! line := read (fun d => decorate_line (db_ref d) updated) in
  ret (line, diffLineAudit current updated contractId c).

Definition removeContractLine (contractId lineId : string) (actor : InvoiceActor) : M ContractLineAudit :=
  do! c := lockContract contractId actor in
  do! _ := requireWholeContractSiteAccess actor contractId in
  do! _ := assertEditable c in
  do! row := getContractLine contractId lineId in
  do! _ := modify (fun d => set_contractLines (List.filter (fun l => negb (is_line contractId lineId l)) (db_contractLines d)) d) in
  ret (mkLineAudit (ct_orgId c) contractId (ct_name c) (cn_id row) (cl_lineType (cn_coverage row)) None None None).
