(* ===== verification/QuoteService.v ===== *)
(** * Drafting quotes ([apps/api/src/services/quoteService.ts], [quoteNumbers.ts],
      [quoteDeviceSet.ts], the guards of [quoteTypes.ts] and the line rules of
      [packages/shared/src/validators/quotes.ts])

    Creation, header edits, the currency of a draft, its blocks and lines, the
    device counts it prices, copies and revisions. A request runs in one
    transaction; the number it may need is drawn in a transaction of its own
    before its writes, so a handler that numbers a quote is a sequence of
    transactions. Pictures, the cover page, block contents and the vendor labels
    of a line are left out. *)

From Stdlib Require Import QArith Qround.
From S2P Require Import Prelude JsString JsNumber Currency IsoDate QuoteMath InvoiceMath ContractMath TimeBilling CatalogPricing ContractCoverage BillingDb InvoiceService InvoiceLifecycle ContractService QuoteDb QuoteConversion.
From stdpp Require Import base gmap strings list.

Local Open Scope string_scope.
Local Open Scope Z_scope.
Local Open Scope billing_scope.

(** ** Access *)

Definition resolvePartner (actor : InvoiceActor) : QM string :=
  match truthy (ac_partnerId actor) with Some p => ret p | None => fail PARTNER_UNRESOLVABLE end.

Definition assertOrg (actor : InvoiceActor) (orgId : string) : QM unit :=
  require (match ac_accessibleOrgIds actor with Some ids => str_mem orgId ids | None => true end) ORG_DENIED.

Definition site_visible (actor : InvoiceActor) (siteId : option string) : bool :=
  match ac_allowedSiteIds actor with
  | None => true
  | Some allowed => match truthy siteId with Some s => str_mem s allowed | None => false end
  end.

Definition assertSite (actor : InvoiceActor) (siteId : option string) : QM unit := require (site_visible actor siteId) SITE_DENIED.

Definition assertQuoteAccess (actor : InvoiceActor) (q : Quote) : QM unit :=
  do! _ := assertOrg actor (qt_orgId q) in
  assertSite actor (qt_siteId q).

Definition quote_row (id : string) : QM Quote :=
  do! row := read (fun d => qd_quotes d !! id) in
  match row with Some q => ret q | None => fail QUOTE_NOT_FOUND end.

Definition is_draft_quote (q : Quote) : bool := match qt_status q with qs_draft => true | _ => false end.

Definition lock_draft (code : ErrorCode) (quoteId : string) (actor : InvoiceActor) : QM Quote :=
  do! q := quote_row quoteId in
  do! _ := assertQuoteAccess actor q in
  do! _ := require (is_draft_quote q) code in
  ret q.

Definition lockDraftQuote : string -> InvoiceActor -> QM Quote := lock_draft NOT_A_DRAFT.
Definition loadDraft : string -> InvoiceActor -> QM Quote := lock_draft NOT_A_DRAFT.

(** ** Numbers *)

Definition formatQuoteNumber (prefix : string) (year counter : Z) : string :=
  prefix ++ "-" ++ print_int year ++ "-" ++ padStart (print_int counter) 4 "0".

Definition allocateQuoteCounter (partnerId : string) (year : Z) : QM Z :=
  do! counter := read (fun d => match qd_counters d !! (partnerId, year) with Some c => c + 1 | None => 1 end) in
  do! _ := modify (fun d => set_counters (<[(partnerId, year) := counter]> (qd_counters d)) d) in
  do! _ := require (1 <=? counter) INVALID_STATE in
  ret counter.

(** ** Totals *)

(** The two rates are read from columns of type numeric(8,5). *)
Definition resolveQuoteTaxRate (orgId partnerId : string) : QM (option string) :=
  do! ref := read (fun d => db_ref (qd_billing d)) in
  let org := rf_organizations ref !! orgId in
  let partner := rf_partners ref !! partnerId in
  do! orgRate := lift (pg_rate_opt (match org with Some o => org_taxRate o | None => None end)) in
  do! partnerRate := lift (pg_rate_opt (match partner with Some p => pt_defaultTaxRate p | None => None end)) in
  match resolveOrgTaxRate (option_map (fun o => mkOrgTax (org_taxExempt o) orgRate) org) (Some partnerRate) with
  | Ok rate => ret rate
  | Err _ => fail ORG_NOT_FOUND
  end.

(** [taxRate ? parseFloat(taxRate) : null]. *)
Definition parsed_rate (taxRate : option string) : option num := option_map parseFloat (truthy taxRate).

Definition deposit_config (q : Quote) : QuoteDepositConfig :=
  toQuoteDepositConfig (Some (dp_type (qt_deposit q))) (option_map Str (dp_percent (qt_deposit q))).

Definition quote_totals (q : Quote) (lines : list QuoteLine) : result string QuoteTotals :=
  computeQuoteTotals (map ql_math lines) (parsed_rate (qt_taxRate q)) (Some (deposit_config q)) (qt_currencyCode q).

(** The header's money columns. *)
Definition stored_totals (t : QuoteTotals) : result Failure (QuoteMoney * option string) :=
  let! s := pg_numeric (subtotal t) in
  let! x := pg_numeric (taxTotal t) in
  let! tot := pg_numeric (QuoteMath.total t) in
  let! o := pg_numeric (oneTimeTotal t) in
  let! m := pg_numeric (monthlyRecurringTotal t) in
  let! y := pg_numeric (annualRecurringTotal t) in
  let! dep := pg_numeric_opt (depositDueTotal t) in
  if match dep with Some a => js_ge (js_Number a) (ofZ 0) | None => true end
  then Ok (mkQuoteMoney s x tot o m y, dep)
  else Err (Thrown "check constraint violation").

Definition with_stored_totals (st : QuoteMoney * option string) (q : Quote) : Quote :=
  with_totals (fst st) (mkQuoteDeposit (dp_type (qt_deposit q)) (dp_percent (qt_deposit q)) (snd st)) q.

(** The callers hold the row they recompute. *)
Definition recomputeAndPersist (quoteId : string) : QM unit :=
  do! row := read (fun d => qd_quotes d !! quoteId) in
  match row with
  | None => ret tt
  | Some q =>
      do! lines := read (quote_lines_of quoteId) in
      do! totals := lift_throw (quote_totals q lines) in
      do! stored := lift (stored_totals totals) in
      update_quote quoteId (with_stored_totals stored)
  end.

(** ** Row writes *)

Section Rows.
Context `{Uuids}.

(** Every partner numbers its quotes once, and a quote has one successor. *)
Definition number_free (partnerId : string) (number : option string) (d : QuoteDb) : bool :=
  match number with
  | None => true
  | Some n => forallb (fun p => negb (String.eqb (qt_partnerId (snd p)) partnerId && bool_decide (qt_quoteNumber (snd p) = Some n)))
                (map_to_list (qd_quotes d))
  end.

Definition successors (parent : string) (d : QuoteDb) : list string :=
  map fst (List.filter (fun p => bool_decide (qt_revisionOfQuoteId (snd p) = Some parent)) (map_to_list (qd_quotes d))).

Definition insert_quote (id : string) (q : Quote) : QM unit :=
  do! taken := read (fun d => present (qd_quotes d !! id)) in
  do! _ := pg_unique "quotes_pkey" (negb taken) in
  do! free := read (number_free (qt_partnerId q) (qt_quoteNumber q)) in
  do! _ := pg_unique "quotes_partner_number_uq" free in
  do! _ := match qt_revisionOfQuoteId q with
           | None => pg_check (qt_revisionNumber q =? 1)
           | Some parent =>
               do! others := read (successors parent) in
               do! _ := pg_unique "quotes_revision_of_uq" (match others with [] => true | _ => false end) in
               do! row := read (fun d => qd_quotes d !! parent) in
               do! _ := pg_reference (match row with Some p => String.eqb (qt_orgId p) (qt_orgId q) | None => false end) in
               pg_check (2 <=? qt_revisionNumber q)
           end in
  modify (fun d => set_quotes (<[id := q]> (qd_quotes d)) d).

Definition insert_block (b : QuoteBlock) : QM unit :=
  do! taken := read (fun d => str_mem (qb_id b) (map qb_id (qd_blocks d))) in
  do! _ := pg_unique "quote_blocks_pkey" (negb taken) in
  modify (fun d => set_blocks (qd_blocks d ++ [b])%list d).

Definition insert_quote_line (l : QuoteLine) : QM QuoteLine :=
  do! stored := lift (store_line l) in
  do! taken := read (fun d => str_mem (ql_id l) (map ql_id (qd_lines d))) in
  do! _ := pg_unique "quote_lines_pkey" (negb taken) in
  do! there := read (fun d => match ql_blockId l with Some b => str_mem b (map qb_id (qd_blocks d)) | None => true end) in
  do! _ := pg_reference there in
  do! _ := pg_check (device_set_ok stored) in
  do! _ := modify (fun d => set_quoteLines (qd_lines d ++ [stored])%list d) in
  ret stored.

Definition update_lines (p : QuoteLine -> bool) (f : QuoteLine -> QuoteLine) : QM unit :=
  modify (fun d => set_quoteLines (map (fun l => if p l then f l else l) (qd_lines d)) d).

Definition update_blocks (p : QuoteBlock -> bool) (f : QuoteBlock -> QuoteBlock) : QM unit :=
  modify (fun d => set_blocks (map (fun b => if p b then f b else b) (qd_blocks d)) d).

Definition quote_update_line (id : string) (l : QuoteLine) : QM unit :=
  do! stored := lift (store_line l) in
  do! _ := pg_check (device_set_ok stored) in
  update_lines (fun x => String.eqb (ql_id x) id) (fun _ => stored).

(** Deleting lines deletes the lines below them. *)
Fixpoint cascade (fuel : nat) (gone : list string) (ls : list QuoteLine) : list string :=
  match fuel with
  | O => gone
  | S f =>
      cascade f (gone ++ map ql_id (List.filter (fun l => match ql_parentLineId l with
                                                          | Some q => str_mem q gone && negb (str_mem (ql_id l) gone)
                                                          | None => false
                                                          end) ls))%list ls
  end.

Definition delete_lines (p : QuoteLine -> bool) : QM unit :=
  modify (fun d =>
    let gone := cascade (List.length (qd_lines d)) (map ql_id (List.filter p (qd_lines d))) (qd_lines d) in
    set_quoteLines (List.filter (fun l => negb (str_mem (ql_id l) gone)) (qd_lines d)) d).

Definition with_block (b : option string) (l : QuoteLine) : QuoteLine :=
  mkQuoteLine (ql_id l) (ql_quoteId l) (ql_orgId l) b (ql_sourceType l) (ql_catalogItemId l) (ql_parentLineId l)
    (ql_name l) (ql_description l) (ql_math l) (ql_lineTotal l) (ql_termMonths l) (ql_billingFrequency l) (ql_set l) (ql_sortOrder l).
Definition with_line_sort (s : Z) (l : QuoteLine) : QuoteLine :=
  mkQuoteLine (ql_id l) (ql_quoteId l) (ql_orgId l) (ql_blockId l) (ql_sourceType l) (ql_catalogItemId l) (ql_parentLineId l)
    (ql_name l) (ql_description l) (ql_math l) (ql_lineTotal l) (ql_termMonths l) (ql_billingFrequency l) (ql_set l) s.
Definition with_line_org (o : string) (s : DeviceSet) (l : QuoteLine) : QuoteLine :=
  mkQuoteLine (ql_id l) (ql_quoteId l) o (ql_blockId l) (ql_sourceType l) (ql_catalogItemId l) (ql_parentLineId l)
    (ql_name l) (ql_description l) (ql_math l) (ql_lineTotal l) (ql_termMonths l) (ql_billingFrequency l) s (ql_sortOrder l).
Definition with_amounts (m : QuoteLineForMath) (t : string) (l : QuoteLine) : QuoteLine :=
  mkQuoteLine (ql_id l) (ql_quoteId l) (ql_orgId l) (ql_blockId l) (ql_sourceType l) (ql_catalogItemId l) (ql_parentLineId l)
    (ql_name l) (ql_description l) m t (ql_termMonths l) (ql_billingFrequency l) (ql_set l) (ql_sortOrder l).
Definition with_sort (s : Z) (b : QuoteBlock) : QuoteBlock :=
  mkBlock (qb_id b) (qb_quoteId b) (qb_orgId b) (qb_blockType b) (qb_contract b) s.
Definition with_content (c : option (string * string)) (b : QuoteBlock) : QuoteBlock :=
  mkBlock (qb_id b) (qb_quoteId b) (qb_orgId b) (qb_blockType b) c (qb_sortOrder b).
Definition with_block_org (o : string) (b : QuoteBlock) : QuoteBlock :=
  mkBlock (qb_id b) (qb_quoteId b) o (qb_blockType b) (qb_contract b) (qb_sortOrder b).

(** A deleted block leaves the lines that named it without one. *)
Definition delete_blocks (p : QuoteBlock -> bool) : QM unit :=
  do! gone := read (fun d => map qb_id (List.filter p (qd_blocks d))) in
  do! _ := modify (fun d => set_blocks (List.filter (fun b => negb (p b)) (qd_blocks d)) d) in
  update_lines (fun l => match ql_blockId l with Some b => str_mem b gone | None => false end) (with_block None).

(** [COALESCE(MAX(key), -1)]. *)
Definition max_of {A} (key : A -> Z) (l : list A) : Z :=
  match l with [] => -1 | x :: r => fold_left (fun m y => Z.max m (key y)) r (key x) end.

Definition nextBlockSortOrder (quoteId : string) : QM Z := read (fun d => max_of qb_sortOrder (quote_blocks_of quoteId d) + 1).
Definition nextLineSortOrder (quoteId : string) : QM Z := read (fun d => max_of ql_sortOrder (quote_lines_of quoteId d) + 1).
End Rows.

(** ** The device sets a quote prices *)

Inductive CountError := ce_group_evaluation_failed | ce_group_deleted | ce_site_deleted.

(** The numbers of a count are those of an allowance. *)
Record QuoteDeviceSetCount := mkCount { qc_lineId : string; qc_resolved : ResolvedQuantity; qc_error : option CountError }.

Definition FAILED (lineId : string) (e : CountError) : QuoteDeviceSetCount := mkCount lineId UNRESOLVED_QTY (Some e).

Record QuoteDeviceSetLine := mkSetLine { sl_id : string; sl_type : ContractLineType; sl_set : DeviceSet }.

(** Callers count only the lines that carry a device set. *)
Definition toQuoteDeviceSetLine (l : QuoteLine) : option QuoteDeviceSetLine :=
  match ql_contractLineType l with Some t => Some (mkSetLine (ql_id l) t (ql_set l)) | None => None end.

Definition isQuoteLineSiteDeleted (s : DeviceSet) : bool :=
  match ds_contractLineType s with
  | Some t => site_scopable t && negb (present (ds_siteId s)) && present (ds_siteName s)
  | None => false
  end.

Section Counts.
Context `{Uuids}.
Variable resolveEffectiveGroupMembers : DeviceGroup -> result string (list string * list string).

Definition count_line (r : OrgDeviceSnapshotResult) (seats : Z) (l : QuoteDeviceSetLine) : result CoverageError QuoteDeviceSetCount :=
  let s := sl_set l in
  let group_of_line := truthy (ds_deviceGroupId s) in
  if bool_decide (sl_type l = lt_per_device_group) && negb (present (ds_deviceGroupId s)) && present (ds_deviceGroupName s)
  then Ok (FAILED (sl_id l) ce_group_deleted)
  else if isQuoteLineSiteDeleted s then Ok (FAILED (sl_id l) ce_site_deleted)
  else
    let failed := match group_of_line with
                  | Some g => if present (sr_groupErrors r !! g) then Some ce_group_evaluation_failed
                              else if present (sn_groups (sr_snapshot r) !! g) then None else Some ce_group_deleted
                  | None => None
                  end in
    match failed with
    | Some e => Ok (FAILED (sl_id l) e)
    | None =>
        let! counted := match sl_type l with
                        | lt_per_seat => Ok seats
                        | t => quantityFor (sr_snapshot r) (mkCoverage t (ds_siteId s) (ds_deviceRoles s) (ds_deviceGroupId s))
                        end in
        Ok (mkCount (sl_id l) (applyAllowance (ofZ counted) (ds_allowance s) included_units) None)
    end.

Fixpoint count_lines (r : OrgDeviceSnapshotResult) (seats : Z) (ls : list QuoteDeviceSetLine)
    : result CoverageError (list QuoteDeviceSetCount) :=
  match ls with
  | [] => Ok []
  | l :: rest => let! c := count_line r seats l in let! more := count_lines r seats rest in Ok (c :: more)
  end.

(** One snapshot per call, one result per line. *)
Definition countQuoteDeviceSetLines (orgId : string) (lines : list QuoteDeviceSetLine) : QM (list QuoteDeviceSetCount) :=
  match lines with
  | [] => ret []
  | _ =>
      let groupIds := remove_dups (omap (fun l => truthy (ds_deviceGroupId (sl_set l))) lines) in
      do! r := read (fun d => let ref := db_ref (qd_billing d) in
                 buildOrgDeviceSnapshot resolveEffectiveGroupMembers (rf_devices ref) (rf_deviceGroups ref) orgId groupIds None) in
      do! seats := if existsb (fun l => bool_decide (sl_type l = lt_per_seat)) lines then in_billing (countContractSeats orgId) else ret 0 in
      in_billing (lift_coverage (count_lines r seats lines))
  end.

Definition with_quantity (q : string) (m : QuoteLineForMath) : QuoteLineForMath :=
  {| quantity := q; unitPrice := unitPrice m; unitCost := unitCost m; taxable := taxable m; customerVisible := customerVisible m;
     recurrence := recurrence m; depositEligible := depositEligible m; itemType := itemType m |}.

(** Failed counts leave the stored quantity. *)
Definition persist_count (quoteId currencyCode : string) (rows : list QuoteLine) (c : QuoteDeviceSetCount) : QM unit :=
  match qc_error c, List.find (fun r => String.eqb (ql_id r) (qc_lineId c)) rows with
  | None, Some row =>
      let text := toFixed 2 (rq_billed (qc_resolved c)) in
      do! lineTotal := lift_throw (InvoiceMath.computeLineTotal text (unitPrice (ql_math row)) currencyCode) in
      do! q := lift (pg_numeric text) in
      do! t := lift (pg_numeric lineTotal) in
      update_lines (fun l => String.eqb (ql_id l) (qc_lineId c) && String.eqb (ql_quoteId l) quoteId)
        (fun l => with_amounts (with_quantity q (ql_math l)) t l)
  | _, _ => ret tt
  end.

Definition persistQuoteDeviceSetQuantities (quoteId currencyCode : string) (rows : list QuoteLine) (counts : list QuoteDeviceSetCount) : QM unit :=
  for_each (persist_count quoteId currencyCode rows) counts.

Definition counted_lines (quoteId : string) (p : QuoteLine -> bool) (d : QuoteDb) : list QuoteLine :=
  List.filter (fun l => present (ql_contractLineType l) && p l) (quote_lines_of quoteId d).

(** Counts the lines that [p] selects and writes their quantities. *)
Definition recount (quoteId orgId currencyCode : string) (p : QuoteLine -> bool) : QM (list QuoteDeviceSetCount) :=
  do! rows := read (counted_lines quoteId p) in
  match rows with
  | [] => ret []
  | _ =>
      do! counts := countQuoteDeviceSetLines orgId (omap toQuoteDeviceSetLine rows) in
      do! _ := persistQuoteDeviceSetQuantities quoteId currencyCode rows counts in
      ret counts
  end.

Definition refreshQuoteDeviceCounts (quoteId : string) (actor : InvoiceActor) : QM (list QuoteDeviceSetCount) :=
  do! q := lock_draft INVALID_STATE quoteId actor in
  do! rows := read (counted_lines quoteId (fun _ => true)) in
  match rows with
  | [] => ret []
  | _ =>
      do! counts := recount quoteId (qt_orgId q) (qt_currencyCode q) (fun _ => true) in
      do! _ := recomputeAndPersist quoteId in
      ret counts
  end.

Definition quoteDeviceSetEstimate (quoteId : string) (actor : InvoiceActor) : QM (list QuoteDeviceSetCount) :=
  do! q := quote_row quoteId in
  do! _ := assertQuoteAccess actor q in
  do! rows := read (counted_lines quoteId (fun _ => true)) in
  countQuoteDeviceSetLines (qt_orgId q) (omap toQuoteDeviceSetLine rows).

(** ** Reading a quote *)

Record QuoteDetail := mkDetail {
  qv_quote : Quote; qv_blocks : list QuoteBlock; qv_lines : list QuoteLine; qv_totals : QuoteTotals;
  qv_billToName : option string; qv_billToAddress : option Address; qv_billToTaxId : option string; qv_successor : option string }.

Definition has_address (a : Address) : bool :=
  existsb (fun o => match o with Some s => negb (String.eqb (trim s) "") | None => false end)
    [ad_line1 a; ad_line2 a; ad_city a; ad_region a; ad_postalCode a; ad_country a].

(** A name that is not blank. *)
Definition named (s : option string) : bool := present (truthy (option_map trim s)).

Definition getQuote (id : string) (actor : InvoiceActor) : QM QuoteDetail :=
  do! q := quote_row id in
  do! _ := assertQuoteAccess actor q in
  do! blocks := read (blocks_in_order id) in
  do! lines := read (lines_in_order id) in
  do! totals := lift_throw (quote_totals q lines) in
  do! org := read (fun d => rf_organizations (db_ref (qd_billing d)) !! qt_orgId q) in
  do! next := read (fun d => match successors id d with
                             | s :: _ => match qd_quotes d !! s with
                                         | Some r => if site_visible actor (qt_siteId r) then Some s else None
                                         | None => None
                                         end
                             | [] => None
                             end) in
  let pt := qt_parties q in
  let '(name, address, taxId) :=
    match qt_status q with
    | qs_draft =>
        (if named (qp_billToName pt) then qp_billToName pt else option_map org_name org,
         if match qp_billToAddress pt with Some a => has_address a | None => false end then qp_billToAddress pt else Some (buildBillToAddress org),
         match qp_billToTaxId pt with Some t => Some t | None => match org with Some o => org_taxId o | None => None end end)
    | _ => (qp_billToName pt, qp_billToAddress pt, qp_billToTaxId pt)
    end in
  ret (mkDetail q blocks lines totals name address taxId next).

(** ** Creation *)

Record CreateQuoteInput := mkCreateQuote {
  ci_orgId : string; ci_siteId : option string; ci_title : option string; ci_currencyCode : option string;
  ci_expiryDate : option string; ci_introNotes : option string; ci_terms : option string; ci_termsAndConditions : option string }.

Definition zero_totals : QuoteMoney := mkQuoteMoney "0.00" "0.00" "0.00" "0.00" "0.00" "0.00".
Definition no_quote_marks : QuoteMarks := mkQuoteMarks None None None None None None None.
Definition no_link : QuoteLink := mkQuoteLink None 0 None None None None.

(** [title?.trim() || null]. *)
Definition clean_title (t : option string) : option string := truthy (option_map trim t).

Definition createQuote (now : Z) (input : CreateQuoteInput) (actor : InvoiceActor) : QRun string :=
  run! start := tx (do! partnerId := resolvePartner actor in
                    do! _ := assertOrg actor (ci_orgId input) in
                    do! _ := assertSite actor (ci_siteId input) in
                    do! rate := resolveQuoteTaxRate (ci_orgId input) partnerId in
                    ret (partnerId, rate)) in
  let '(partnerId, taxRate) := start in
  let year := getUTCFullYear (now / MS_PER_DAY) in
  run! counter := tx (allocateQuoteCounter partnerId year) in
  tx (do! currency := match ci_currencyCode input with
                      | Some c => ret c
                      | None => in_billing (lockOrgStampingDefaults (ci_orgId input))
                      end in
      do! rate := lift (pg_rate_opt taxRate) in
      do! id := q_mint in
      do! _ := insert_quote id
           (mkQuote partnerId (ci_orgId input) (ci_siteId input) (Some (formatQuoteNumber "Q" year counter)) (clean_title (ci_title input))
              (ci_introNotes input) qs_draft currency None (ci_expiryDate input) rate zero_totals (mkQuoteDeposit ty_none None None)
              (mkQuoteParties None None None None None (ci_termsAndConditions input) (ci_terms input)) no_quote_marks no_link None None 1
              (ac_userId actor)) in
      ret id).

(** ** Contract blocks *)

Definition assertContractBlockValid (ref : string * string) (orgId partnerId : string) : QM unit :=
  let '(templateId, versionId) := ref in
  do! version := read (fun d => qd_versions d !! versionId) in
  do! _ := require (match version with Some v => String.eqb (tv_templateId v) templateId && tv_published v | None => false end)
             INVALID_CONTRACT_TEMPLATE in
  do! template := read (fun d => qd_templates d !! templateId) in
  do! _ := require (match template with Some t => negb (tm_archived t) | None => false end) INVALID_CONTRACT_TEMPLATE in
  require (match template with
           | Some t => match tm_orgId t with
                       | Some o => String.eqb o orgId
                       | None => bool_decide (tm_partnerId t = Some partnerId)
                       end
           | None => false
           end) INVALID_CONTRACT_TEMPLATE.

Definition assertContractBlocksValidForOrg (blocks : list QuoteBlock) (orgId partnerId : string) : QM unit :=
  for_each (fun b => match qb_blockType b, qb_contract b with
                     | bt_contract, Some ref => assertContractBlockValid ref orgId partnerId
                     | _, _ => ret tt
                     end) blocks.

(** ** Header edits *)

(** An absent field keeps the column; a present one writes it, null included. *)
Record QuotePatch := mkQuotePatch {
  up_orgId : option string; up_siteId : option (option string); up_title : option (option string);
  up_expiryDate : option (option string); up_introNotes : option (option string); up_terms : option (option string);
  up_termsAndConditions : option (option string); up_billToName : option (option string); up_taxRate : option (option num);
  up_depositType : option QuoteDepositType; up_depositPercent : option (option num) }.

Definition set_or {A} (patch : option A) (current : A) : A := match patch with Some x => x | None => current end.

(** The columns an update of the header writes. *)
Definition patched_header (patch : QuotePatch) (orgId : string) (siteId billToName taxRate : option string) (deposit : QuoteDeposit) (q : Quote) : Quote :=
  let pt := qt_parties q in
  mkQuote (qt_partnerId q) orgId siteId (qt_quoteNumber q)
    (match up_title patch with Some t => clean_title t | None => qt_title q end)
    (set_or (up_introNotes patch) (qt_introNotes q)) (qt_status q) (qt_currencyCode q) (qt_issueDate q)
    (set_or (up_expiryDate patch) (qt_expiryDate q)) taxRate (qt_money q) deposit
    (mkQuoteParties billToName (qp_billToAddress pt) (qp_billToTaxId pt) (qp_sellerSnapshot pt) (qp_documentLocale pt)
       (set_or (up_termsAndConditions patch) (qp_termsAndConditions pt)) (set_or (up_terms patch) (qp_terms pt)))
    (qt_marks q) (qt_link q) (qt_convertedInvoiceId q) (qt_revisionOfQuoteId q) (qt_revisionNumber q) (qt_createdBy q).

Definition without_category (m : QuoteLineForMath) : QuoteLineForMath :=
  {| quantity := quantity m; unitPrice := unitPrice m; unitCost := None; taxable := taxable m; customerVisible := customerVisible m;
     recurrence := recurrence m; depositEligible := depositEligible m; itemType := None |}.

(** The deposit a patch asks for, validated at the rate the same patch leaves. *)
Definition patched_deposit (quoteId : string) (q : Quote) (patch : QuotePatch) (rate : option num) : QM QuoteDeposit :=
  match up_depositType patch, up_depositPercent patch with
  | None, None => ret (qt_deposit q)
  | _, _ =>
      do! lines := read (fun d => map (fun l => without_category (ql_math l)) (quote_lines_of quoteId d)) in
      let nextType := set_or (up_depositType patch) (dp_type (qt_deposit q)) in
      let nextPercent := match up_depositPercent patch with
                         | Some x => option_map Num x
                         | None => option_map Str (dp_percent (qt_deposit q))
                         end in
      do! check := lift_throw (validateQuoteDeposit lines rate (toQuoteDepositConfig (Some nextType) nextPercent) (qt_currencyCode q)) in
      do! _ := match check with deposit_refused code _ => fail (DEPOSIT_RULE code) | deposit_ok _ => ret tt end in
      do! percent := lift (pg_numeric_opt (match nextType, nextPercent with
                                           | ty_percent, Some a => Some (toFixed 2 (to_num a))
                                           | _, _ => None
                                           end)) in
      do! _ := pg_check (match percent with Some x => js_gt (js_Number x) (ofZ 0) && js_lt (js_Number x) (ofZ 100) | None => true end) in
      ret (mkQuoteDeposit nextType percent (dp_amount (qt_deposit q)))
  end.

(** The target organization of a move: of the same partner and currency. *)
Definition assertTargetOrg (targetOrgId partnerId currencyCode : string) : QM unit :=
  do! target := read (fun d => rf_organizations (db_ref (qd_billing d)) !! targetOrgId) in
  match target with
  | None => fail ORG_NOT_FOUND
  | Some o =>
      do! _ := require (String.eqb (org_partnerId o) partnerId) ORG_NOT_FOUND in
      require (String.eqb (org_currencyCode o) currencyCode) CURRENCY_MISMATCH
  end.

Definition org_moved (q : Quote) (patch : QuotePatch) : option string :=
  match up_orgId patch with
  | Some o => if String.eqb o (qt_orgId q) then None else Some o
  | None => None
  end.

Definition unscoped (s : DeviceSet) : DeviceSet :=
  mkDeviceSet (ds_contractLineType s) (ds_deviceRoles s) None (ds_deviceGroupName s) None (ds_siteName s) (ds_allowance s).

Definition is_unscoped (l : QuoteLine) : bool := negb (present (ds_deviceGroupId (ql_set l))) && negb (present (ds_siteId (ql_set l))).

(** The children follow the quote to its new organization and lose what they
    named in the old one. *)
Definition move_children (quoteId orgId : string) : QM unit :=
  do! _ := update_blocks (fun b => String.eqb (qb_quoteId b) quoteId) (with_block_org orgId) in
  do! _ := update_lines (fun l => String.eqb (ql_quoteId l) quoteId && negb (is_unscoped l))
             (fun l => with_line_org orgId (unscoped (ql_set l)) l) in
  update_lines (fun l => String.eqb (ql_quoteId l) quoteId) (fun l => with_line_org orgId (ql_set l) l).

Definition updateQuote (id : string) (patch : QuotePatch) (actor : InvoiceActor) : QM Quote :=
  do! q := loadDraft id actor in
  do! _ := match up_siteId patch with Some s => assertSite actor s | None => ret tt end in
  let moved := org_moved q patch in
  do! orgTaxRate :=
    match moved with
    | None => ret None
    | Some target =>
        do! _ := require (negb (present (qt_revisionOfQuoteId q))) INVALID_STATE in
        do! _ := assertOrg actor target in
        do! _ := assertSite actor None in
        do! _ := assertTargetOrg target (qt_partnerId q) (qt_currencyCode q) in
        match up_taxRate patch with
        | Some _ => ret None
        | None => do! r := resolveQuoteTaxRate target (qt_partnerId q) in ret (Some r)
        end
    end in
  let rate := match up_taxRate patch with
              | Some r => r
              | None => match orgTaxRate with Some r => parsed_rate r | None => parsed_rate (qt_taxRate q) end
              end in
  do! deposit := patched_deposit id q patch rate in
  do! taxRate := match up_taxRate patch with
                 | Some r => lift (pg_rate_opt (option_map (toFixed 5) r))
                 | None => match orgTaxRate with Some r => lift (pg_rate_opt r) | None => ret (qt_taxRate q) end
                 end in
  let billTo := qp_billToName (qt_parties q) in
  do! _ := match moved with
           | Some target =>
               do! locked := in_billing (lockOrgStampingDefaults target) in
               do! _ := require (String.eqb locked (qt_currencyCode q)) CURRENCY_MISMATCH in
               do! blocks := read (quote_blocks_of id) in
               do! _ := assertContractBlocksValidForOrg blocks target (qt_partnerId q) in
               do! _ := update_quote id (patched_header patch target None (set_or (up_billToName patch) None) taxRate deposit) in
               do! _ := move_children id target in
               do! _ := recount id target (qt_currencyCode q) is_unscoped in
               ret tt
           | None => update_quote id (patched_header patch (qt_orgId q) (set_or (up_siteId patch) (qt_siteId q)) (set_or (up_billToName patch) billTo) taxRate deposit)
           end in
  do! _ := recomputeAndPersist id in
  quote_row id.

(** A quote with a successor cannot be deleted; its blocks, lines, acceptances
    and recipients go with it. *)
Definition deleteDraftQuote (id : string) (actor : InvoiceActor) : QM unit :=
  do! _ := loadDraft id actor in
  do! next := read (successors id) in
  do! _ := pg_reference (match next with [] => true | _ => false end) in
  do! _ := delete_lines (fun l => String.eqb (ql_quoteId l) id) in
  do! _ := delete_blocks (fun b => String.eqb (qb_quoteId b) id) in
  do! _ := modify (fun d => set_acceptances (List.filter (fun a => negb (String.eqb (qa_quoteId a) id)) (qd_acceptances d)) d) in
  do! _ := modify (fun d => set_recipients (List.filter (fun r => negb (String.eqb (fst r) id)) (qd_recipients d)) d) in
  modify (fun d => set_quotes (delete id (qd_quotes d)) d).

(** ** The currency of a draft *)

Definition catalog_actor (actor : InvoiceActor) (partnerId : string) : InvoiceActor :=
  mkActor (ac_userId actor) (Some partnerId) (ac_accessibleOrgIds actor) None.

Definition repriceable_line (l : QuoteLine) : bool :=
  match ql_sourceType l with qsrc_catalog => true | _ => false end && present (ql_catalogItemId l) && negb (present (ql_parentLineId l)).

Definition with_price (u : string) (c : option string) (m : QuoteLineForMath) : QuoteLineForMath :=
  {| quantity := quantity m; unitPrice := u; unitCost := c; taxable := taxable m; customerVisible := customerVisible m;
     recurrence := recurrence m; depositEligible := depositEligible m; itemType := itemType m |}.

Definition reprice_quote_line (q : Quote) (currencyCode : string) (actor : InvoiceActor) (l : QuoteLine) : QM unit :=
  match ql_catalogItemId l with
  | None => ret tt
  | Some item =>
      do! resolved := in_billing (resolvePrice item currencyCode (Some (qt_orgId q)) (catalog_actor actor (qt_partnerId q))) in
      do! lineTotal := lift_throw (InvoiceMath.computeLineTotal (quantity (ql_math l)) (rp_unitPrice resolved) currencyCode) in
      do! u := lift (pg_numeric (rp_unitPrice resolved)) in
      do! t := lift (pg_numeric lineTotal) in
      do! c := lift (pg_numeric_opt (if rp_marginAvailable resolved then rp_costBasis resolved else None)) in
      update_lines (fun x => String.eqb (ql_id x) (ql_id l)) (fun x => with_amounts (with_price u c (ql_math x)) t x)
  end.

Definition repriceQuoteCatalogLines (q : Quote) (lines : list QuoteLine) (currencyCode : string) (actor : InvoiceActor) : QM unit :=
  do! _ := require (forallb repriceable_line lines) CURRENCY_LOCKED in
  for_each (reprice_quote_line q currencyCode actor) lines.

Definition changeQuoteCurrency (quoteId currencyCode : string) (clearLines reprice : bool) (actor : InvoiceActor) : QM Quote :=
  do! q := lockDraftQuote quoteId actor in
  if String.eqb (qt_currencyCode q) currencyCode then ret q
  else
    do! lineRows := read (fun d => order_by (fun a b => str_ltb (ql_id a) (ql_id b)) (quote_lines_of quoteId d)) in
    do! _ := require (clearLines || negb (existsb (fun l => present (overageUnitPrice (ds_allowance (ql_set l)))) lineRows)) CURRENCY_LOCKED in
    do! _ := match lineRows with
             | [] => ret tt
             | _ =>
                 if reprice then repriceQuoteCatalogLines q lineRows currencyCode actor
                 else if negb clearLines then fail CURRENCY_LOCKED
                 else delete_lines (fun l => String.eqb (ql_quoteId l) quoteId)
             end in
    do! _ := update_quote quoteId (with_quote_currency currencyCode) in
    do! _ := recomputeAndPersist quoteId in
    quote_row quoteId.

(** ** Blocks *)

(** A block's type and, for a contract block, the template it embeds. *)
Record QuoteBlockInput := mkBlockInput { bi_blockType : QuoteBlockType; bi_contract : option (string * string) }.

Definition check_block (input : QuoteBlockInput) (q : Quote) : QM unit :=
  match bi_blockType input, bi_contract input with
  | bt_contract, Some ref => assertContractBlockValid ref (qt_orgId q) (qt_partnerId q)
  | _, _ => ret tt
  end.

Definition addBlock (quoteId : string) (input : QuoteBlockInput) (actor : InvoiceActor) : QM string :=
  do! q := loadDraft quoteId actor in
  do! _ := check_block input q in
  do! sortOrder := nextBlockSortOrder quoteId in
  do! id := q_mint in
  do! _ := insert_block (mkBlock id quoteId (qt_orgId q) (bi_blockType input) (bi_contract input) sortOrder) in
  ret id.

Definition block_of (quoteId blockId : string) (b : QuoteBlock) : bool := String.eqb (qb_id b) blockId && String.eqb (qb_quoteId b) quoteId.
Definition line_of (quoteId lineId : string) (l : QuoteLine) : bool := String.eqb (ql_id l) lineId && String.eqb (ql_quoteId l) quoteId.
Definition line_in (quoteId blockId : string) (l : QuoteLine) : bool :=
  String.eqb (ql_quoteId l) quoteId && bool_decide (ql_blockId l = Some blockId).

Definition updateBlock (quoteId blockId : string) (input : QuoteBlockInput) (actor : InvoiceActor) : QM unit :=
  do! q := loadDraft quoteId actor in
  do! existing := read (fun d => List.find (block_of quoteId blockId) (qd_blocks d)) in
  match existing with
  | None => fail BLOCK_NOT_FOUND
  | Some b =>
      do! _ := require (bool_decide (qb_blockType b = bi_blockType input)) BLOCK_TYPE_MISMATCH in
      do! _ := check_block input q in
      update_blocks (block_of quoteId blockId) (with_content (bi_contract input))
  end.

Definition deleteBlock (quoteId blockId : string) (actor : InvoiceActor) : QM unit :=
  do! _ := lockDraftQuote quoteId actor in
  do! _ := delete_lines (line_in quoteId blockId) in
  do! _ := delete_blocks (block_of quoteId blockId) in
  recomputeAndPersist quoteId.

(** ** Lines *)

Definition resolveLineBlockId (quoteId orgId : string) (blockId : option string) : QM string :=
  match truthy blockId with
  | Some b => ret b
  | None =>
      do! existing := read (fun d => List.find (fun b => bool_decide (qb_blockType b = bt_line_items)) (blocks_in_order quoteId d)) in
      match existing with
      | Some b => ret (qb_id b)
      | None =>
          do! sortOrder := nextBlockSortOrder quoteId in
          do! id := q_mint in
          do! _ := insert_block (mkBlock id quoteId orgId bt_line_items None sortOrder) in
          ret id
      end
  end.

Definition assertQuoteRepresentable (value currencyCode : string) : QM unit :=
  require (isRepresentableInCurrency (Str value) currencyCode) NOT_REPRESENTABLE.
Definition assertQuoteRepresentable_opt (value : option string) (currencyCode : string) : QM unit :=
  match value with Some v => assertQuoteRepresentable v currencyCode | None => ret tt end.

Definition assertQuoteGroupInOrg (groupId orgId : string) : QM DeviceGroup := in_billing (assertGroupInOrg groupId orgId).
Definition assertQuoteSiteInOrg (siteId orgId : string) : QM (string * string) := in_billing (assertSiteInOrg siteId orgId).

Record QuoteLineInput := mkLineInput {
  qi_sourceType : QuoteLineSource; qi_catalogItemId : option string; qi_blockId : option string; qi_name : option string;
  qi_description : option string; qi_quantity : option num; qi_unitPrice : num; qi_taxable : bool; qi_customerVisible : bool;
  qi_recurrence : Recurrence; qi_termMonths : option Z; qi_billingFrequency : option string; qi_unitCost : option num;
  qi_depositEligible : bool; qi_contractLineType : option ContractLineType; qi_deviceRoles : option (list string);
  qi_deviceGroupId : option string; qi_siteId : option string; qi_includedQuantity : option num; qi_overageMode : option OverageMode;
  qi_overageUnitPrice : option num }.

(** The quantity of one device set, or the refusal to price it. *)
Definition set_quantity (orgId lineId : string) (t : ContractLineType) (s : DeviceSet) : QM string :=
  do! counts := countQuoteDeviceSetLines orgId [mkSetLine lineId t s] in
  match counts with
  | c :: _ => do! _ := require (negb (present (qc_error c))) DEVICE_SET_UNCOUNTABLE in ret (toFixed 2 (rq_billed (qc_resolved c)))
  | [] => fail DEVICE_SET_UNCOUNTABLE
  end.

Definition addManualLine (quoteId : string) (input : QuoteLineInput) (actor : InvoiceActor) : QM QuoteLine :=
  do! q := lockDraftQuote quoteId actor in
  let unitPrice := toFixed 2 (qi_unitPrice input) in
  do! _ := assertQuoteRepresentable unitPrice (qt_currencyCode q) in
  let setType := qi_contractLineType input in
  do! group := match setType, truthy (qi_deviceGroupId input) with
               | Some lt_per_device_group, Some g => do! r := assertQuoteGroupInOrg g (qt_orgId q) in ret (Some r)
               | _, _ => ret None
               end in
  do! site := match setType, truthy (qi_siteId input) with
              | Some _, Some s => do! r := assertQuoteSiteInOrg s (qt_orgId q) in ret (Some r)
              | _, _ => ret None
              end in
  let overageUnitPrice := option_map (toFixed 2) (qi_overageUnitPrice input) in
  do! _ := assertQuoteRepresentable_opt overageUnitPrice (qt_currencyCode q) in
  let allowance := mkAllowance (option_map (toFixed 2) (qi_includedQuantity input)) (qi_overageMode input) overageUnitPrice in
  let set_with roles := mkDeviceSet setType roles (option_map dg_id group) (option_map dg_name group) (option_map fst site) (option_map snd site) allowance in
  do! quantity := match setType with
                  | Some t => set_quantity (qt_orgId q) "new" t (set_with (qi_deviceRoles input))
                  | None => ret (match qi_quantity input with Some n => js_String n | None => "undefined" end)
                  end in
  do! _ := assertQuoteRepresentable_opt (option_map (toFixed 2) (qi_unitCost input)) (qt_currencyCode q) in
  do! blockId := resolveLineBlockId quoteId (qt_orgId q) (qi_blockId input) in
  do! sortOrder := nextLineSortOrder quoteId in
  do! lineTotal := lift_throw (InvoiceMath.computeLineTotal quantity unitPrice (qt_currencyCode q)) in
  do! id := q_mint in
  do! line := insert_quote_line
       (mkQuoteLine id quoteId (qt_orgId q) (Some blockId) (qi_sourceType input) (qi_catalogItemId input) None (qi_name input)
          (qi_description input)
          {| quantity := quantity; unitPrice := unitPrice; unitCost := option_map (toFixed 2) (qi_unitCost input);
             taxable := qi_taxable input; customerVisible := qi_customerVisible input; recurrence := qi_recurrence input;
             depositEligible := Some (qi_depositEligible input); itemType := None |}
          lineTotal (qi_termMonths input) (qi_billingFrequency input)
          (set_with (match setType with Some lt_per_device_role => qi_deviceRoles input | _ => None end)) sortOrder) in
  do! _ := recomputeAndPersist quoteId in
  ret line.

Definition addCatalogLine (quoteId catalogItemId : string) (quantity : num) (blockId : option string) (actor : InvoiceActor) : QM QuoteLine :=
  do! q := lockDraftQuote quoteId actor in
  do! row := read (fun d => rf_catalogItems (db_ref (qd_billing d)) !! catalogItemId) in
  match row with
  | None => fail CATALOG_ITEM_NOT_FOUND
  | Some item =>
      do! _ := require (String.eqb (cr_partnerId item) (qt_partnerId q)) CATALOG_ITEM_NOT_FOUND in
      do! resolved := in_billing (resolvePrice catalogItemId (qt_currencyCode q) (Some (qt_orgId q)) (catalog_actor actor (qt_partnerId q))) in
      let recurrence := if cr_recurring item
                        then match cr_billingFrequency item with Some f => if String.eqb f "annual" then annual else monthly | None => monthly end
                        else one_time in
      let qty := js_String quantity in
      do! resolvedBlockId := resolveLineBlockId quoteId (qt_orgId q) blockId in
      do! sortOrder := nextLineSortOrder quoteId in
      do! lineTotal := lift_throw (InvoiceMath.computeLineTotal qty (rp_unitPrice resolved) (qt_currencyCode q)) in
      do! id := q_mint in
      do! line := insert_quote_line
           (mkQuoteLine id quoteId (qt_orgId q) (Some resolvedBlockId) qsrc_catalog (Some catalogItemId) None (Some (cr_name item))
              (cr_description item)
              {| quantity := qty; unitPrice := rp_unitPrice resolved;
                 unitCost := if rp_marginAvailable resolved then rp_costBasis resolved else None; taxable := rp_taxable resolved;
                 customerVisible := true; recurrence := recurrence;
                 depositEligible := Some (match cr_itemType item with hardware => true | _ => false end);
                 itemType := Some (cr_itemType item) |}
              lineTotal (cr_commitmentTermMonths item) (cr_billingFrequency item) no_device_set sortOrder) in
      do! _ := recomputeAndPersist quoteId in
      ret line
  end.

(** *** Line edits *)

Record QuoteLinePatch := mkQuoteLinePatch {
  lp_name : option (option string); lp_description : option (option string); lp_quantity : option num; lp_unitPrice : option num;
  lp_taxable : option bool; lp_customerVisible : option bool; lp_recurrence : option Recurrence; lp_termMonths : option (option Z);
  lp_sortOrder : option Z; lp_unitCost : option (option num); lp_depositEligible : option bool; lp_deviceRoles : option (list string);
  lp_deviceGroupId : option string; lp_siteId : option (option string); lp_includedQuantity : option (option num);
  lp_overageMode : option (option OverageMode); lp_overageUnitPrice : option (option num) }.

(** The descriptor of a line in the quote's conventions: numbers, not texts. *)
Record QuoteLineDeviceSetShape := mkSetShape {
  ss_contractLineType : option ContractLineType; ss_recurrence : Recurrence; ss_parentLineId : option string;
  ss_deviceRoles : option (list string); ss_deviceGroupId : option string; ss_deviceGroupName : option string;
  ss_siteId : option string; ss_siteName : option string; ss_includedQuantity : option num; ss_overageMode : option OverageMode;
  ss_overageUnitPrice : option num }.

Definition quoteLineDeviceSetIssues (l : QuoteLineDeviceSetShape) (mode : ShapeMode) : list string :=
  match ss_contractLineType l with
  | None =>
      issue (present (ss_deviceRoles l) || present (ss_deviceGroupId l) || present (ss_deviceGroupName l) || present (ss_siteId l)
             || present (ss_siteName l) || present (ss_includedQuantity l) || present (ss_overageMode l) || present (ss_overageUnitPrice l))
        "contractLineType"
  | Some t =>
      if negb (carries_allowance t) then ["contractLineType"]
      else
        let projected := mkShape (mkCoverage t (ss_siteId l) (ss_deviceRoles l) (ss_deviceGroupId l)) None (ss_siteName l) (ss_deviceGroupName l)
                           (mkAllowance (option_map (toFixed 2) (ss_includedQuantity l)) (ss_overageMode l) (option_map (toFixed 2) (ss_overageUnitPrice l))) in
        (issue (rec_eqb (ss_recurrence l) one_time) "recurrence" ++
         issue (present (ss_parentLineId l)) "parentLineId" ++
         match mode, ss_deviceRoles l with
         | md_create, Some [] => issue (str_mem "deviceRoles" (contractLineInvariantIssues projected md_persisted)) "deviceRoles"
         | _, _ => []
         end ++
         contractLineInvariantIssues projected mode)%list
  end.

(** The stored descriptor and a patch of it. *)
Definition shape_of (l : QuoteLine) : QuoteLineDeviceSetShape :=
  let s := ql_set l in
  mkSetShape (ds_contractLineType s) (recurrence (ql_math l)) (ql_parentLineId l) (ds_deviceRoles s) (ds_deviceGroupId s) (ds_deviceGroupName s)
    (ds_siteId s) (ds_siteName s) (option_map js_Number (includedQuantity (ds_allowance s))) (overageMode (ds_allowance s))
    (option_map js_Number (overageUnitPrice (ds_allowance s))).

Definition or_current {A} (patch current : option A) : option A := match patch with Some x => Some x | None => current end.

Definition mergeQuoteLinePatch (c : QuoteLineDeviceSetShape) (patch : QuoteLinePatch) : QuoteLineDeviceSetShape :=
  mkSetShape (ss_contractLineType c) (set_or (lp_recurrence patch) (ss_recurrence c)) (ss_parentLineId c)
    (or_current (lp_deviceRoles patch) (ss_deviceRoles c)) (or_current (lp_deviceGroupId patch) (ss_deviceGroupId c)) (ss_deviceGroupName c)
    (set_or (lp_siteId patch) (ss_siteId c))
    (match lp_siteId patch with Some s => match truthy s with Some _ => ss_siteName c | None => None end | None => ss_siteName c end)
    (set_or (lp_includedQuantity patch) (ss_includedQuantity c)) (set_or (lp_overageMode patch) (ss_overageMode c))
    (set_or (lp_overageUnitPrice patch) (ss_overageUnitPrice c)).

Definition touches_descriptor (patch : QuoteLinePatch) : bool :=
  present (lp_deviceRoles patch) || present (lp_deviceGroupId patch) || present (lp_siteId patch) || present (lp_includedQuantity patch)
  || present (lp_overageMode patch) || present (lp_overageUnitPrice patch).

(** The group and the site a patch names, with the names they are stamped with. *)
Definition patched_references (orgId : string) (l : QuoteLine) (patch : QuoteLinePatch)
    : QM ((option string * option string) * (option string * option string)) :=
  let s := ql_set l in
  do! group := match lp_deviceGroupId patch with
               | Some g => if bool_decide (Some g = ds_deviceGroupId s) then ret (ds_deviceGroupId s, ds_deviceGroupName s)
                           else do! r := assertQuoteGroupInOrg g orgId in ret (Some (dg_id r), Some (dg_name r))
               | None => ret (ds_deviceGroupId s, ds_deviceGroupName s)
               end in
  do! site := match lp_siteId patch with
              | Some x => if bool_decide (x = ds_siteId s) then ret (ds_siteId s, ds_siteName s)
                          else match truthy x with
                               | Some i => do! r := assertQuoteSiteInOrg i orgId in ret (Some (fst r), Some (snd r))
                               | None => ret (None, None)
                               end
              | None => ret (ds_siteId s, ds_siteName s)
              end in
  ret (group, site).

(** The stamps replace what the merge left when the patch moves a reference. *)
Definition stamped (orig : QuoteLine) (patch : QuoteLinePatch) (refs : (option string * option string) * (option string * option string))
    (m : QuoteLineDeviceSetShape) : QuoteLineDeviceSetShape :=
  let group_moves := match lp_deviceGroupId patch with Some g => negb (bool_decide (Some g = ds_deviceGroupId (ql_set orig))) | None => false end in
  let site_moves := match lp_siteId patch with Some x => negb (bool_decide (x = ds_siteId (ql_set orig))) | None => false end in
  mkSetShape (ss_contractLineType m) (ss_recurrence m) (ss_parentLineId m) (ss_deviceRoles m)
    (if group_moves then fst (fst refs) else ss_deviceGroupId m) (if group_moves then snd (fst refs) else ss_deviceGroupName m)
    (if site_moves then fst (snd refs) else ss_siteId m) (if site_moves then snd (snd refs) else ss_siteName m)
    (ss_includedQuantity m) (ss_overageMode m) (ss_overageUnitPrice m).

(** The device set a patched line is written with. *)
Definition patched_set (orgId currencyCode : string) (l : QuoteLine) (patch : QuoteLinePatch) : QM DeviceSet :=
  let s := ql_set l in
  let a := ds_allowance s in
  do! refs := patched_references orgId l patch in
  do! _ := require (match quoteLineDeviceSetIssues (stamped l patch refs (mergeQuoteLinePatch (shape_of l) patch)) md_persisted with [] => true | _ => false end)
             INVALID_LINE_PATCH in
  do! _ := match lp_overageUnitPrice patch with
           | Some (Some x) => assertQuoteRepresentable (toFixed 2 x) currencyCode
           | _ => ret tt
           end in
  ret (mkDeviceSet (ds_contractLineType s) (or_current (lp_deviceRoles patch) (ds_deviceRoles s))
         (fst (fst refs)) (snd (fst refs)) (fst (snd refs)) (snd (snd refs))
         (mkAllowance (match lp_includedQuantity patch with Some x => option_map (toFixed 2) x | None => includedQuantity a end)
            (set_or (lp_overageMode patch) (overageMode a))
            (match lp_overageUnitPrice patch with Some x => option_map (toFixed 2) x | None => overageUnitPrice a end))).

Definition updateLine (quoteId lineId : string) (patch : QuoteLinePatch) (actor : InvoiceActor) : QM QuoteLine :=
  do! q := lockDraftQuote quoteId actor in
  do! row := read (fun d => List.find (line_of quoteId lineId) (qd_lines d)) in
  match row with
  | None => fail LINE_NOT_FOUND
  | Some l =>
      let m := ql_math l in
      let setType := ql_contractLineType l in
      do! _ := require (negb (present setType && present (lp_quantity patch))) INVALID_LINE_PATCH in
      do! _ := require (present setType || negb (touches_descriptor patch)) INVALID_LINE_PATCH in
      let unitPrice' := match lp_unitPrice patch with Some n => toFixed 2 n | None => unitPrice m end in
      do! _ := match lp_unitPrice patch with Some _ => assertQuoteRepresentable unitPrice' (qt_currencyCode q) | None => ret tt end in
      do! _ := match lp_unitCost patch with Some (Some n) => assertQuoteRepresentable (toFixed 2 n) (qt_currencyCode q) | _ => ret tt end in
      let quantity' := match lp_quantity patch with Some n => js_String n | None => quantity m end in
      do! lineTotal := lift_throw (InvoiceMath.computeLineTotal quantity' unitPrice' (qt_currencyCode q)) in
      do! set' := match setType with Some _ => patched_set (qt_orgId q) (qt_currencyCode q) l patch | None => ret (ql_set l) end in
      do! counted := match setType with
                     | Some t =>
                         if touches_descriptor patch
                         then do! quantity := set_quantity (qt_orgId q) lineId t set' in
                              do! lineTotal' := lift_throw (InvoiceMath.computeLineTotal quantity unitPrice' (qt_currencyCode q)) in
                              ret (quantity, lineTotal')
                         else ret (quantity', lineTotal)
                     | None => ret (quantity', lineTotal)
                     end in
      do! _ := quote_update_line lineId
           (mkQuoteLine (ql_id l) (ql_quoteId l) (ql_orgId l) (ql_blockId l) (ql_sourceType l) (ql_catalogItemId l) (ql_parentLineId l)
              (set_or (lp_name patch) (ql_name l)) (set_or (lp_description patch) (ql_description l))
              {| quantity := fst counted; unitPrice := unitPrice';
                 unitCost := match lp_unitCost patch with Some c => option_map (toFixed 2) c | None => unitCost m end;
                 taxable := set_or (lp_taxable patch) (taxable m); customerVisible := set_or (lp_customerVisible patch) (customerVisible m);
                 recurrence := set_or (lp_recurrence patch) (recurrence m);
                 depositEligible := or_current (lp_depositEligible patch) (depositEligible m); itemType := itemType m |}
              (snd counted) (set_or (lp_termMonths patch) (ql_termMonths l)) (ql_billingFrequency l) set'
              (set_or (lp_sortOrder patch) (ql_sortOrder l))) in
      do! _ := recomputeAndPersist quoteId in
      do! updated := read (fun d => List.find (fun x => String.eqb (ql_id x) lineId) (qd_lines d)) in
      match updated with Some x => ret x | None => fail LINE_NOT_FOUND end
  end.

Definition removeLine (quoteId lineId : string) (actor : InvoiceActor) : QM unit :=
  do! _ := lockDraftQuote quoteId actor in
  do! _ := delete_lines (line_of quoteId lineId) in
  recomputeAndPersist quoteId.

(** ** Order *)

(** The ids are the existing ones, each once. *)
Definition permutes (ids existing : list string) : bool :=
  Nat.eqb (List.length (remove_dups ids)) (List.length existing) && forallb (fun i => str_mem i existing) ids.

Fixpoint numbered {A} (i : Z) (l : list A) : list (Z * A) := match l with [] => [] | x :: r => (i, x) :: numbered (i + 1) r end.

Definition reorderBlocks (quoteId : string) (blockIds : list string) (actor : InvoiceActor) : QM unit :=
  do! _ := loadDraft quoteId actor in
  do! existing := read (fun d => map qb_id (quote_blocks_of quoteId d)) in
  do! _ := require (permutes blockIds existing) REORDER_IDS_MISMATCH in
  for_each (fun p => update_blocks (block_of quoteId (snd p)) (with_sort (fst p))) (numbered 0 blockIds).

Definition reorderLines (quoteId blockId : string) (lineIds : list string) (actor : InvoiceActor) : QM unit :=
  do! _ := loadDraft quoteId actor in
  do! block := read (fun d => List.find (block_of quoteId blockId) (qd_blocks d)) in
  do! _ := require (present block) BLOCK_NOT_FOUND in
  do! existing := read (fun d => map ql_id (List.filter (line_in quoteId blockId) (qd_lines d))) in
  do! _ := require (permutes lineIds existing) REORDER_IDS_MISMATCH in
  for_each (fun p => update_lines (fun l => String.eqb (ql_id l) (snd p) && line_in quoteId blockId l) (with_line_sort (fst p))) (numbered 0 lineIds).

Definition moved_line (blockId : string) (s : Z) (l : QuoteLine) : QuoteLine := with_line_sort s (with_block (Some blockId) l).

Definition moveLineToBlock (quoteId lineId targetBlockId : string) (actor : InvoiceActor) : QM unit :=
  do! _ := loadDraft quoteId actor in
  do! row := read (fun d => List.find (line_of quoteId lineId) (qd_lines d)) in
  match row with
  | None => fail LINE_NOT_FOUND
  | Some line =>
      do! _ := require (negb (present (truthy (ql_parentLineId line)))) LINE_IS_BUNDLE_CHILD in
      do! block := read (fun d => List.find (block_of quoteId targetBlockId) (qd_blocks d)) in
      match block with
      | None => fail BLOCK_NOT_FOUND
      | Some b =>
          do! _ := require (bool_decide (qb_blockType b = bt_line_items)) BLOCK_NOT_LINE_ITEMS in
          if bool_decide (ql_blockId line = Some targetBlockId) then ret tt
          else
            do! base := read (fun d => max_of ql_sortOrder (List.filter (line_in quoteId targetBlockId) (qd_lines d)) + 1) in
            do! _ := update_lines (line_of quoteId lineId) (moved_line targetBlockId base) in
            do! children := read (fun d => map ql_id (List.filter (fun l => bool_decide (ql_parentLineId l = Some lineId)) (lines_in_order quoteId d))) in
            for_each (fun p => update_lines (fun l => String.eqb (ql_id l) (snd p)) (moved_line targetBlockId (fst p))) (numbered (base + 1) children)
      end
  end.

(** ** Copies and revisions *)

Record CloneRevision := mkRevision { rv_quoteNumber : string; rv_revisionOfQuoteId : string; rv_revisionNumber : Z }.

Definition cloneLineagePair (revision : option CloneRevision) : QM (option string * Z) :=
  match revision with
  | None => ret (None, 1)
  | Some r =>
      do! _ := require (present (truthy (Some (rv_revisionOfQuoteId r))) && (2 <=? rv_revisionNumber r)) INVALID_STATE in
      ret (Some (rv_revisionOfQuoteId r), rv_revisionNumber r)
  end.

(** Fresh ids for the rows of a copy, by the ids they replace. *)
Fixpoint fresh_ids (old : list string) : QM (list (string * string)) :=
  match old with
  | [] => ret []
  | o :: rest => do! n := q_mint in do! more := fresh_ids rest in ret ((o, n) :: more)
  end.

Definition new_id (ids : list (string * string)) (old : string) : option string :=
  option_map snd (List.find (fun p => String.eqb (fst p) old) ids).

(** The header of a copy: a draft with the source's terms and none of its
    history. *)
Definition cloned_header (source : Quote) (targetOrgId : string) (orgChanged : bool) (number : string) (title taxRate : option string)
    (lineage : option string * Z) (stored : QuoteMoney * option string) (createdBy : option string) : Quote :=
  let pt := qt_parties source in
  mkQuote (qt_partnerId source) targetOrgId (if orgChanged then None else qt_siteId source) (Some number) title (qt_introNotes source)
    qs_draft (qt_currencyCode source) None None taxRate (fst stored)
    (mkQuoteDeposit (dp_type (qt_deposit source)) (dp_percent (qt_deposit source)) (snd stored))
    (mkQuoteParties (if orgChanged then None else qp_billToName pt) None None None None (qp_termsAndConditions pt) (qp_terms pt))
    no_quote_marks no_link None (fst lineage) (snd lineage) createdBy.

Definition cloned_block (quoteId orgId id : string) (b : QuoteBlock) : QuoteBlock :=
  mkBlock id quoteId orgId (qb_blockType b) (qb_contract b) (qb_sortOrder b).

Definition cloned_line (quoteId orgId id : string) (orgChanged : bool) (blockId parentLineId : option string) (l : QuoteLine) : QuoteLine :=
  mkQuoteLine id quoteId orgId blockId (ql_sourceType l) (ql_catalogItemId l) parentLineId (ql_name l) (ql_description l) (ql_math l)
    (ql_lineTotal l) (ql_termMonths l) (ql_billingFrequency l) (if orgChanged then unscoped (ql_set l) else ql_set l) (ql_sortOrder l).

(** A line whose block is missing lands in one pricing section: the copy of the
    first, or a new one. *)
Definition fallback_block (quoteId orgId : string) (blocks : list QuoteBlock) (lines : list QuoteLine) (blockIds : list (string * string))
    : QM (option string * option QuoteBlock) :=
  if existsb (fun l => match truthy (ql_blockId l) with Some b => negb (present (new_id blockIds b)) | None => true end) lines then
    match List.find (fun b => bool_decide (qb_blockType b = bt_line_items)) blocks with
    | Some b => ret (new_id blockIds (qb_id b), None)
    | None =>
        do! id := q_mint in
        ret (Some id, Some (mkBlock id quoteId orgId bt_line_items None (fold_left (fun m b => Z.max m (qb_sortOrder b)) blocks (-1) + 1)))
    end
  else ret (None, None).

Definition clone_lines (quoteId orgId : string) (orgChanged : bool) (blockIds lineIds : list (string * string)) (fallback : option string)
    (lines : list QuoteLine) : QM unit :=
  for_each (fun l =>
    let blockId := match truthy (ql_blockId l) with Some b => new_id blockIds b | None => None end in
    let parent := match truthy (ql_parentLineId l) with Some q => new_id lineIds q | None => None end in
    match new_id lineIds (ql_id l) with
    | Some id => do! _ := insert_quote_line (cloned_line quoteId orgId id orgChanged (or_current blockId fallback) parent l) in ret tt
    | None => ret tt
    end) lines.

(** The copy of a quote as it was read, under the number it was given. *)
Definition write_clone (source : QuoteDetail) (targetOrgId : string) (orgChanged : bool) (number : string) (title taxRate : option string)
    (revision : option CloneRevision) (actor : InvoiceActor) : QM string :=
  let q := qv_quote source in
  let lines := qv_lines source in
  do! quoteId := q_mint in
  do! blockIds := fresh_ids (map qb_id (qv_blocks source)) in
  do! lineIds := fresh_ids (map ql_id lines) in
  do! totals := lift_throw (computeQuoteTotals (map ql_math lines) (parsed_rate taxRate) (Some (deposit_config q)) (qt_currencyCode q)) in
  do! fallback := fallback_block quoteId targetOrgId (qv_blocks source) lines blockIds in
  do! _ := if orgChanged
           then do! locked := in_billing (lockOrgStampingDefaults targetOrgId) in
                require (String.eqb locked (qt_currencyCode q)) CURRENCY_MISMATCH
           else ret tt in
  do! stored := lift (stored_totals totals) in
  do! rate := lift (pg_rate_opt taxRate) in
  do! lineage := cloneLineagePair revision in
  do! _ := insert_quote quoteId (cloned_header q targetOrgId orgChanged number title rate lineage stored (ac_userId actor)) in
  do! _ := for_each (fun b => match new_id blockIds (qb_id b) with
                              | Some id => insert_block (cloned_block quoteId targetOrgId id b)
                              | None => ret tt
                              end) (qv_blocks source) in
  do! _ := match snd fallback with Some b => insert_block b | None => ret tt end in
  do! _ := clone_lines quoteId targetOrgId orgChanged blockIds lineIds (fst fallback) lines in
  do! _ := if orgChanged && existsb (fun l => present (ql_contractLineType l)) lines
           then do! _ := recount quoteId targetOrgId (qt_currencyCode q) is_unscoped in recomputeAndPersist quoteId
           else ret tt in
  ret quoteId.

(** The source and what the copy will carry: its organization and tax rate. *)
Definition clone_source (id : string) (actor : InvoiceActor) (orgId : option string) : QM (QuoteDetail * string * bool * option string) :=
  do! source := getQuote id actor in
  let q := qv_quote source in
  let targetOrgId := set_or orgId (qt_orgId q) in
  let orgChanged := negb (String.eqb targetOrgId (qt_orgId q)) in
  do! taxRate :=
    if orgChanged then
      do! _ := assertOrg actor targetOrgId in
      do! _ := assertSite actor None in
      do! _ := assertTargetOrg targetOrgId (qt_partnerId q) (qt_currencyCode q) in
      do! _ := assertContractBlocksValidForOrg (qv_blocks source) targetOrgId (qt_partnerId q) in
      resolveQuoteTaxRate targetOrgId (qt_partnerId q)
    else ret (qt_taxRate q) in
  ret (source, targetOrgId, orgChanged, taxRate).

Definition cloneQuoteCore (now : Z) (id : string) (actor : InvoiceActor) (orgId title : option string) (revision : option CloneRevision) : QRun string :=
  run! start := tx (do! _ := require (negb (present revision && present (truthy orgId))) INVALID_STATE in clone_source id actor orgId) in
  let '(source, targetOrgId, orgChanged, taxRate) := start in
  let q := qv_quote source in
  let newTitle := match title with Some t => clean_title (Some t) | None => qt_title q end in
  let year := getUTCFullYear (now / MS_PER_DAY) in
  run! number := match revision with
                 | Some r => done (rv_quoteNumber r)
                 | None => run! counter := tx (allocateQuoteCounter (qt_partnerId q) year) in done (formatQuoteNumber "Q" year counter)
                 end in
  tx (write_clone source targetOrgId orgChanged number newTitle taxRate revision actor).

Definition cloneQuote (now : Z) (id : string) (actor : InvoiceActor) (orgId title : option string) : QRun string :=
  cloneQuoteCore now id actor orgId title None.

(** [hops] parents at most. *)
Fixpoint lineage_root (hops : nat) (q : Quote) : QM Quote :=
  match qt_revisionOfQuoteId q with
  | None => ret q
  | Some parent =>
      match hops with
      | O => fail INVALID_STATE
      | S h =>
          do! row := read (fun d => qd_quotes d !! parent) in
          match row with Some p => lineage_root h p | None => fail INVALID_STATE end
      end
  end.

Definition resolveQuoteLineageRoot (q : Quote) : QM Quote := lineage_root 100 q.

Definition isSupersedable (s : QuoteStatus) : bool := match s with qs_sent | qs_viewed | qs_declined | qs_expired => true | _ => false end.

(** The revision a live quote may get, numbered after the root. *)
Definition revision_of (id : string) (actor : InvoiceActor) : QM CloneRevision :=
  do! detail := getQuote id actor in
  let parent := qv_quote detail in
  do! _ := match qt_status parent with
           | qs_draft => fail INVALID_STATE
           | qs_converted | qs_accepted => fail PARENT_CONVERTED
           | qs_superseded => fail ALREADY_SUPERSEDED
           | s => require (isSupersedable s) INVALID_STATE
           end in
  do! _ := require (present (truthy (qt_quoteNumber parent))) INVALID_STATE in
  do! existing := read (successors id) in
  do! _ := require (match existing with [] => true | _ => false end) REVISION_IN_PROGRESS in
  do! root := resolveQuoteLineageRoot parent in
  match truthy (qt_quoteNumber root) with
  | None => fail INVALID_STATE
  | Some n => let r := qt_revisionNumber parent + 1 in ret (mkRevision (n ++ "-R" ++ print_int r) id r)
  end.

(** A concurrent revision makes the unique index refuse this one. *)
Definition reviseQuote (now : Z) (id : string) (actor : InvoiceActor) : QRun string :=
  run! revision := tx (revision_of id actor) in
  catch (cloneQuoteCore now id actor None None (Some revision))
    (fun e d => match e with
                | Thrown index => if String.eqb index "quotes_revision_of_uq" then (Err (Refused REVISION_IN_PROGRESS), d) else (Err e, d)
                | Refused _ => (Err e, d)
                end).
End Counts.
