(* ===== verification/QuoteLifecycle.v ===== *)
(** * Sending, viewing, declining, expiring and accepting quotes
      ([apps/api/src/services/quoteLifecycle.ts], [quoteAcceptService.ts],
       [acceptanceProvider.ts], the public decline of [routes/quotesPublic.ts]
       and [jobs/quoteExpiryReaper.ts])

    A quote leaves the draft state by one conditional update that also retires
    the quote it revises; an acceptance converts it into an invoice and
    contracts in the same transaction. E-mail, tokens, the executed documents and
    the content hash are not modelled: the identity of the token, the template
    variables left open and the outcome of writing the documents are inputs. *)

From Stdlib Require Import QArith.
From S2P Require Import Prelude JsString JsNumber Currency IsoDate QuoteMath InvoiceMath ContractMath TimeBilling CatalogPricing ContractCoverage BillingDb InvoiceService InvoiceLifecycle ContractService QuoteDb QuoteConversion QuoteService.
From stdpp Require Import base gmap strings list.

Local Open Scope string_scope.
Local Open Scope Z_scope.
Local Open Scope billing_scope.

(** A contract block's pinned template, and its variables without a value. *)
Record ContractBlockRenderData := mkRenderData { rd_blockId : string; rd_unresolved : list string }.

(** ** The claim that sends a draft *)

Record QuoteSentSnapshot := mkSent {
  sn_quoteNumber : string; sn_issueDate : string; sn_billToName : option string; sn_billToAddress : Address; sn_billToTaxId : option string;
  sn_sellerSnapshot : SellerSnapshot; sn_documentLocale : string; sn_termsAndConditions : option string; sn_terms : option string;
  sn_partner : option Partner }.

(** The language documents default to without a partner. *)
Definition resolvePartnerDocumentLocale (partner : option Partner) : string :=
  match partner with Some p => pt_documentLocale p | None => "en" end.

(** [quoteNumber] is the number the quote has or was just given. *)
Definition freezeQuoteSentSnapshot (now : Z) (quoteNumber : string) (q : Quote) : QM QuoteSentSnapshot :=
  do! partner := read (fun d => rf_partners (db_ref (qd_billing d)) !! qt_partnerId q) in
  do! org := read (fun d => rf_organizations (db_ref (qd_billing d)) !! qt_orgId q) in
  let pt := qt_parties q in
  ret (mkSent quoteNumber (match qt_issueDate q with Some i => i | None => utc_day_string now end)
         (if named (qp_billToName pt) then qp_billToName pt else option_map org_name org)
         (buildBillToAddress org)
         (match qp_billToTaxId pt with Some t => Some t | None => match org with Some o => org_taxId o | None => None end end)
         (match qp_sellerSnapshot pt with Some s => s | None => buildSellerSnapshot partner end)
         (match qp_documentLocale pt with Some l => l | None => resolvePartnerDocumentLocale partner end)
         (match qp_termsAndConditions pt with Some t => Some t | None => match partner with Some p => pt_billingTermsAndConditions p | None => None end end)
         (match qp_terms pt with Some t => Some t | None => match partner with Some p => pt_invoiceFooter p | None => None end end)
         partner).

Definition with_sent_at (now : Z) (m : QuoteMarks) : QuoteMarks :=
  mkQuoteMarks (Some now) (qm_firstViewedAt m) (qm_viewedAt m) (qm_acceptedAt m) (qm_declinedAt m) (qm_convertedAt m) (qm_declineReason m).

(** The frozen columns on the row; [seller] is the seller as the write builds it. *)
Definition frozen_row (f : QuoteSentSnapshot) (seller : SellerSnapshot) (q : Quote) : Quote :=
  mkQuote (qt_partnerId q) (qt_orgId q) (qt_siteId q) (Some (sn_quoteNumber f)) (qt_title q) (qt_introNotes q) qs_sent (qt_currencyCode q)
    (Some (sn_issueDate f)) (qt_expiryDate q) (qt_taxRate q) (qt_money q) (qt_deposit q)
    (mkQuoteParties (sn_billToName f) (Some (sn_billToAddress f)) (sn_billToTaxId f) (Some seller) (Some (sn_documentLocale f))
       (sn_termsAndConditions f) (sn_terms f))
    (qt_marks q) (qt_link q) (qt_convertedInvoiceId q) (qt_revisionOfQuoteId q) (qt_revisionNumber q) (qt_createdBy q).

(** The token identity stamped with the claim, when one was minted. *)
Definition with_token (jti : option string) (k : QuoteLink) : QuoteLink :=
  mkQuoteLink (match jti with Some j => Some j | None => qk_acceptTokenJti k end) (qk_publicTokenVersion k) (qk_publicResponseJti k)
    (qk_publicResponseConsumedAt k) (qk_publicResponseOutcome k) (qk_publicLinkRevokedAt k).

Definition claimed_row (now : Z) (f : QuoteSentSnapshot) (jti : option string) (q : Quote) : Quote :=
  with_link (with_token jti (qt_link q)) (with_marks (with_sent_at now (qt_marks q)) (frozen_row f (buildSellerSnapshot (sn_partner f)) q)).

Definition revoked_link (now : Z) (k : QuoteLink) : QuoteLink :=
  mkQuoteLink (qk_acceptTokenJti k) (qk_publicTokenVersion k) (qk_publicResponseJti k) (qk_publicResponseConsumedAt k)
    (qk_publicResponseOutcome k) (Some now).

Definition superseded_row (now : Z) (q : Quote) : Quote := with_link (revoked_link now (qt_link q)) (with_quote_status qs_superseded q).

(** Conditional updates: the row must still be in the state the update names. *)
Definition update_quote_if (id : string) (p : Quote -> bool) (f : Quote -> Quote) : QM bool :=
  do! row := read (fun d => qd_quotes d !! id) in
  match row with
  | Some q => if p q then do! _ := update_quote id f in ret true else ret false
  | None => ret false
  end.

Definition applyQuoteSentClaim (now : Z) (quoteId : string) (q : Quote) (f : QuoteSentSnapshot) (jti : option string)
    (parentToSupersede : option string) : QM unit :=
  do! claimed := update_quote_if quoteId is_draft_quote (claimed_row now f jti) in
  do! _ := require claimed INVALID_STATE in
  match parentToSupersede with
  | None => ret tt
  | Some parent =>
      do! flipped := update_quote_if parent (fun p => String.eqb (qt_orgId p) (qt_orgId q) && isSupersedable (qt_status p)) (superseded_row now) in
      require flipped PARENT_CONVERTED
  end.

Definition claimQuoteSent (now : Z) (quoteNumber quoteId : string) (q : Quote) (jti : option string) (parentToSupersede : option string)
    : QM QuoteSentSnapshot :=
  do! f := freezeQuoteSentSnapshot now quoteNumber q in
  do! _ := applyQuoteSentClaim now quoteId q f jti parentToSupersede in
  ret f.

Definition resolveParentToSupersede (q : Quote) : QM (option string) :=
  match truthy (qt_revisionOfQuoteId q) with
  | None => ret None
  | Some id =>
      do! row := read (fun d => qd_quotes d !! id) in
      match row with
      | None => fail INVALID_STATE
      | Some p =>
          do! _ := require (String.eqb (qt_orgId p) (qt_orgId q)) INVALID_STATE in
          do! _ := require (match qt_status p with qs_converted | qs_accepted => false | _ => true end) PARENT_CONVERTED in
          do! _ := require (isSupersedable (qt_status p)) INVALID_STATE in
          ret (Some id)
      end
  end.

Definition assertQuoteSendGates (q : Quote) (lines : list QuoteLine) (renderData : list ContractBlockRenderData) : QM unit :=
  do! _ := require (forallb (fun r => match rd_unresolved r with [] => true | _ => false end) renderData) CONTRACT_VARIABLES_UNRESOLVED in
  match dp_type (qt_deposit q) with
  | ty_none => ret tt
  | _ =>
      do! check := lift_throw (validateQuoteDeposit (map ql_math lines) (parsed_rate (qt_taxRate q)) (deposit_config q) (qt_currencyCode q)) in
      require (match check with deposit_ok _ => true | deposit_refused _ _ => false end) DEPOSIT_INVALID
  end.

(** The number a claim needs when the draft has none: drawn before the claim, in
    a transaction of its own. *)
Definition claim_number (now : Z) (q : Quote) : QRun string :=
  match truthy (qt_quoteNumber q) with
  | Some n => done n
  | None =>
      let year := match qt_issueDate q with Some i => fst (fst (parts i)) | None => getUTCFullYear (now / MS_PER_DAY) end in
      run! counter := tx (allocateQuoteCounter (qt_partnerId q) year) in
      done (formatQuoteNumber "Q" year counter)
  end.

(** ** Sending *)

Definition lower_char (c : ascii) : ascii :=
  let n := Ascii.N_of_ascii c in
  if (65 <=? n)%N && (n <=? 90)%N then Ascii.ascii_of_N (n + 32) else c.

Fixpoint toLowerCase (s : string) : string :=
  match s with EmptyString => EmptyString | String c r => String (lower_char c) (toLowerCase r) end.

Definition to_emails (l : list string) : list string :=
  remove_dups (omap (fun e => truthy (Some (toLowerCase (trim e)))) l).

(** Recipients are stored once per quote. *)
Definition insert_recipients (quoteId : string) (emails : list string) : QM unit :=
  modify (fun d => set_recipients (qd_recipients d ++ List.filter (fun r => negb (bool_decide (r ∈ qd_recipients d))) (map (pair quoteId) emails))%list d).

Section Lifecycle.
Context `{Uuids}.

(** [toEmails], [billingEmail] are the composer's recipients and the
    organization's billing contact; [jti] identifies the minted token. *)
Definition sendQuote (now : Z) (id : string) (actor : InvoiceActor) (toEmails : list string) (billingEmail : option string) (jti : string)
    (renderData : list ContractBlockRenderData) : QRun Quote :=
  run! start := tx (do! detail := getQuote id actor in
                    let q := qv_quote detail in
                    do! _ := require (is_draft_quote q) INVALID_STATE in
                    do! parent := resolveParentToSupersede q in
                    do! _ := assertQuoteSendGates q (qv_lines detail) renderData in
                    ret (q, parent)) in
  let '(q, parent) := start in
  run! number := claim_number now q in
  tx (do! f := freezeQuoteSentSnapshot now number q in
      do! parentRecipients := read (fun d => match parent with
                                             | Some p => map snd (List.filter (fun r => String.eqb (fst r) p) (qd_recipients d))
                                             | None => []
                                             end) in
      let recipients := to_emails (match toEmails with
                                   | [] => match parentRecipients with
                                           | [] => match truthy billingEmail with Some e => [e] | None => [] end
                                           | _ => parentRecipients
                                           end
                                   | _ => toEmails
                                   end) in
      do! _ := applyQuoteSentClaim now id q f (Some jti) parent in
      do! _ := insert_recipients id recipients in
      quote_row id).

(** ** Viewing, declining, expiring *)

Definition viewed_row (now : Z) (q : Quote) : Quote :=
  let m := qt_marks q in
  with_quote_status (match qt_status q with qs_sent => qs_viewed | s => s end)
    (with_marks (mkQuoteMarks (qm_sentAt m) (match qm_firstViewedAt m with Some t => Some t | None => Some now end) (Some now) (qm_acceptedAt m)
                   (qm_declinedAt m) (qm_convertedAt m) (qm_declineReason m)) q).

Definition markQuoteViewed (now : Z) (quoteId orgId : string) : QM unit :=
  do! row := read (fun d => qd_quotes d !! quoteId) in
  match row with
  | Some q =>
      if negb (String.eqb (qt_orgId q) orgId) then ret tt
      else
        do! _ := update_quote_if quoteId
             (fun x => match qt_status q with qs_sent => bool_decide (qt_status x = qs_sent) | _ => negb (bool_decide (qt_status x = qs_superseded)) end)
             (viewed_row now) in
        ret tt
  | None => ret tt
  end.

Definition open_status (q : Quote) : bool := match qt_status q with qs_sent | qs_viewed => true | _ => false end.

Definition declined_row (now : Z) (reason : option string) (q : Quote) : Quote :=
  let m := qt_marks q in
  with_quote_status qs_declined
    (with_marks (mkQuoteMarks (qm_sentAt m) (qm_firstViewedAt m) (qm_viewedAt m) (qm_acceptedAt m) (Some now) (qm_convertedAt m) reason) q).

Definition declineQuoteByActor (now : Z) (id : string) (reason : option string) (actor : InvoiceActor) : QM Quote :=
  do! detail := getQuote id actor in
  let q := qv_quote detail in
  do! _ := require (open_status q) INVALID_STATE in
  do! _ := require (negb (isQuoteExpired (qt_expiryDate q) now)) QUOTE_EXPIRED in
  do! declined := update_quote_if id open_status (declined_row now reason) in
  do! _ := require declined INVALID_STATE in
  quote_row id.

Definition consumed_link (now : Z) (jti outcome : string) (k : QuoteLink) : QuoteLink :=
  mkQuoteLink (qk_acceptTokenJti k) (qk_publicTokenVersion k) (Some jti) (Some now) (Some outcome) (qk_publicLinkRevokedAt k).

(** A token already used on this quote, or not the one the quote was issued with. *)
Definition response_consumed (jti : string) (q : Quote) : bool :=
  let k := qt_link q in
  (present (qk_publicResponseConsumedAt k) && bool_decide (qk_publicResponseJti k = Some jti))
  || (negb (qk_publicTokenVersion k =? 0) && negb (bool_decide (qk_publicResponseJti k = Some jti))).

Definition isPublicLinkDead (q : Quote) : bool :=
  bool_decide (qt_status q = qs_superseded) || present (qk_publicLinkRevokedAt (qt_link q)).

(** The customer's decline by link; [orgIds] are the organizations of the token. *)
Definition declinePublicQuote (now : Z) (quoteId jti : string) (orgIds : list string) (reason : option string) : QM unit :=
  do! row := read (fun d => qd_quotes d !! quoteId) in
  match row with
  | None => fail INVALID_STATE
  | Some q =>
      do! _ := require (str_mem (qt_orgId q) orgIds) INVALID_STATE in
      do! _ := require (negb (response_consumed jti q)) RESPONSE_CONSUMED in
      do! _ := require (negb (isPublicLinkDead q)) QUOTE_SUPERSEDED in
      do! _ := require (open_status q) INVALID_STATE in
      do! _ := require (negb (isQuoteExpired (qt_expiryDate q) now)) QUOTE_EXPIRED in
      do! updated := update_quote_if quoteId (fun x => open_status x && negb (present (qk_publicResponseConsumedAt (qt_link x))))
           (fun x => with_link (consumed_link now jti "declined" (qt_link x)) (declined_row now reason x)) in
      require updated INVALID_STATE
  end.

Definition MAX_REAP_PER_RUN : nat := 500.

(** Past its day while still open. *)
Definition due_for_expiry (now : Z) (q : Quote) : bool :=
  open_status q && match qt_expiryDate q with Some e => str_ltb e (utc_day_string now) | None => false end.

Definition expireQuotes (now : Z) : QM Z :=
  do! due := read (fun d => List.firstn MAX_REAP_PER_RUN
       (order_by (fun a b => match qt_expiryDate (snd a), qt_expiryDate (snd b) with Some x, Some y => str_ltb x y | _, _ => false end)
          (List.filter (fun p => due_for_expiry now (snd p)) (map_to_list (qd_quotes d))))) in
  do! _ := for_each (fun p => do! _ := update_quote_if (fst p) open_status (with_quote_status qs_expired) in ret tt) due in
  ret (Z.of_nat (List.length due)).

(** ** Acceptance *)

Record AcceptQuoteParams := mkAccept {
  ap_quoteId : string; ap_signerName : string; ap_signerEmail : option string; ap_acceptanceTokenJti : option string;
  ap_actorUserId : option string; ap_origin : AcceptOrigin; ap_method : option string; ap_reference : option string;
  ap_contractRenderData : list ContractBlockRenderData }.

Definition acceptable_status (origin : AcceptOrigin) (s : QuoteStatus) : bool :=
  match origin, s with
  | _, (qs_sent | qs_viewed) => true
  | or_on_behalf, qs_draft => true
  | _, _ => false
  end.

(** The checks before anything is written. *)
Definition accept_guards (now : Z) (params : AcceptQuoteParams) : QM Quote :=
  do! q := quote_row (ap_quoteId params) in
  do! _ := require (match truthy (ap_acceptanceTokenJti params) with Some j => negb (response_consumed j q) | None => true end) RESPONSE_CONSUMED in
  do! _ := require (negb (isPublicLinkDead q)) QUOTE_SUPERSEDED in
  do! _ := require (acceptable_status (ap_origin params) (qt_status q))
             (match ap_origin params, qt_status q with
              | or_on_behalf, (qs_expired | qs_declined) => QUOTE_NOT_ACCEPTABLE
              | _, _ => INVALID_STATE
              end) in
  do! _ := require (negb (isQuoteExpired (qt_expiryDate q) now)) QUOTE_EXPIRED in
  ret q.

Definition assertContractRenderDataComplete (blocks : list QuoteBlock) (renderData : list ContractBlockRenderData) : QM unit :=
  require (forallb (fun b => negb (bool_decide (qb_blockType b = bt_contract)) || str_mem (qb_id b) (map rd_blockId renderData)) blocks)
    CONTRACT_RENDER_DATA_MISSING.

(** A reference whose row is gone, or not of this organization, is dropped. *)
Definition live_references (ref : Reference) (orgId : string) (l : QuoteLine) : QuoteLine :=
  let s := ql_set l in
  let live_group g := existsb (fun x => String.eqb (dg_id x) g && String.eqb (dg_orgId x) orgId) (rf_deviceGroups ref) in
  let live_site i := match rf_sites ref !! i with Some (o, _) => String.eqb o orgId | None => false end in
  let keep (live : string -> bool) x := match truthy x with Some i => if live i then x else None | None => x end in
  match ds_contractLineType s with
  | None => l
  | Some _ =>
      with_line_org (ql_orgId l)
        (mkDeviceSet (ds_contractLineType s) (ds_deviceRoles s) (keep live_group (ds_deviceGroupId s)) (ds_deviceGroupName s)
           (keep live_site (ds_siteId s)) (ds_siteName s) (ds_allowance s)) l
  end.

Definition assertQuoteLinesAcceptable (lines : list QuoteLine) : QM unit :=
  require (forallb (fun l => let s := ql_set l in
                             negb (present (ds_contractLineType s)) ||
                             (negb (present (ds_deviceGroupName s) && negb (present (ds_deviceGroupId s))) && negb (isQuoteLineSiteDeleted s))) lines)
    QUOTE_LINE_REFERENCE_DELETED.

(** The signature: typed by the customer, or recorded by a technician. *)
Definition capture_signature (params : AcceptQuoteParams) : QM (string * option string * string) :=
  let email := truthy (option_map trim (ap_signerEmail params)) in
  match truthy (Some (trim (ap_signerName params))), ap_origin params with
  | Some name, or_on_behalf => ret (name, email, match ap_method params with Some m => m | None => "other" end)
  | Some name, or_customer => ret (name, email, "typed-signature")
  | None, or_on_behalf => fail INVALID_SIGNER_NAME
  | None, or_customer => lift (Err (Thrown "signerName is required for a typed signature"))
  end.

Definition converted_row_of (now : Z) (invoiceId : string) (jti : option string) (q : Quote) : Quote :=
  let m := qt_marks q in
  let accepted := with_quote_status qs_converted (with_converted invoiceId
    (with_marks (mkQuoteMarks (qm_sentAt m) (qm_firstViewedAt m) (qm_viewedAt m) (Some now) (qm_declinedAt m) (Some now) (qm_declineReason m)) q)) in
  match jti with
  | Some j => with_link (consumed_link now j "accepted" (qt_link q)) accepted
  | None => accepted
  end.

Record AcceptQuoteResult := mkAccepted {
  ar_acceptanceId : string; ar_invoiceId : string; ar_invoiceNumber : option string; ar_contractIds : list string }.

(** A draft accepted on behalf of the customer passes the gates of a send and is
    claimed before it is converted. *)
Definition accept_start (now : Z) (params : AcceptQuoteParams) : QM (Quote * option string) :=
  do! q := accept_guards now params in
  match qt_status q with
  | qs_draft =>
      do! lines := read (lines_in_order (ap_quoteId params)) in
      do! _ := assertQuoteSendGates q lines (ap_contractRenderData params) in
      do! parent := resolveParentToSupersede q in
      ret (q, parent)
  | _ => ret (q, None)
  end.

Definition accept_claim (now : Z) (quoteId number : string) (q : Quote) (parent : option string) : QM Quote :=
  match qt_status q with
  | qs_draft =>
      do! f := claimQuoteSent now number quoteId q None parent in
      ret (frozen_row f (sn_sellerSnapshot f) q)
  | _ => ret q
  end.

(** [documents] is the outcome of writing the executed documents and the orders
    that the acceptance stages. *)
Definition accept_write (now : Z) (params : AcceptQuoteParams) (number : string) (q0 : Quote) (parent : option string) (documents : result Failure unit) : QM AcceptQuoteResult :=
  let id := ap_quoteId params in
  do! blocks := read (blocks_in_order id) in
  do! stored := read (lines_in_order id) in
  do! q := accept_claim now id number q0 parent in
  do! _ := assertContractRenderDataComplete blocks (ap_contractRenderData params) in
  do! ref := read (fun d => db_ref (qd_billing d)) in
  let lines := map (live_references ref (qt_orgId q)) stored in
  do! _ := assertQuoteLinesAcceptable lines in
  let renderLocale := match qp_documentLocale (qt_parties q) with
                      | Some l => l
                      | None => resolvePartnerDocumentLocale (rf_partners ref !! qt_partnerId q)
                      end in
  do! captured := capture_signature params in
  let '(signerName, signerEmail, method) := captured in
  do! acceptanceId := q_mint in
  let on_behalf := match ap_origin params with or_on_behalf => true | or_customer => false end in
  do! _ := modify (fun d => set_acceptances (qd_acceptances d ++
       [mkAcceptance acceptanceId id (qt_orgId q) signerName signerEmail (ap_acceptanceTokenJti params) renderLocale (ap_origin params) method
          (if on_behalf then ap_reference params else None) (if on_behalf then ap_actorUserId params else None)])%list d) in
  do! converted := in_billing (convert_quote now id q lines renderLocale (ap_actorUserId params)) in
  let '(invoiceId, invoiceNumber, contractIds) := converted in
  do! _ := update_quote id (converted_row_of now invoiceId (truthy (ap_acceptanceTokenJti params))) in
  do! _ := lift documents in
  ret (mkAccepted acceptanceId invoiceId invoiceNumber contractIds).

Definition acceptQuote (now : Z) (params : AcceptQuoteParams) (documents : result Failure unit) : QRun AcceptQuoteResult :=
  run! start := tx (accept_start now params) in
  let '(q, parent) := start in
  run! number := match qt_status q with qs_draft => claim_number now q | _ => done "" end in
  tx (accept_write now params number q parent documents).
End Lifecycle.
