(* ===== verification/RateColumn.v ===== *)
(** * The texts a tax rate column holds

    A rate is stored with five decimals, reads back as the number it was, and is
    its own stored form; the rate resolved for an organization is such a text. *)

From Stdlib Require Import QArith Qround Qabs Lqa.
From S2P Require Import Prelude JsString JsNumber Currency InvoiceMath TimeBilling CatalogPricing BillingDb InvoiceService QuoteDb QuoteConversion QuoteService.
From stdpp Require Import base gmap strings list.

Local Open Scope string_scope.
Local Open Scope Z_scope.
Local Open Scope billing_scope.

(** ** Fixed decimals *)

Lemma padStart_digits n w :
  0 <= n -> 0 < w -> let d := padStart (print_dec n) w "0" in all_digits d = true /\ dec_val d = n /\ w <= slen d.
Proof.
  intros Hn Hw. unfold padStart. cbv zeta. split; [|split].
  - rewrite all_digits_app, all_digits_zeros, all_digits_print by exact Hn. reflexivity.
  - rewrite dec_val_app, dec_val_zeros, dec_val_print by exact Hn. lia.
  - rewrite slen_app, slen_repeat. pose proof (slen_nonneg (print_dec n)). lia.
Qed.

Lemma fixed_digits_split f n :
  0 < f -> 0 <= n ->
  exists ip fp, fixed_digits f n = ip ++ "." ++ fp /\ all_digits ip = true /\ all_digits fp = true /\ ip <> "" /\
    slen fp = f /\ dec_val (ip ++ fp) = n.
Proof.
  intros Hf Hn. destruct (padStart_digits n (f + 1) Hn ltac:(lia)) as (Hd & Hv & Hl). unfold fixed_digits.
  set (d := padStart _ _ _) in *. set (w := Z.to_nat (slen d - f)).
  assert (Hw : (w <= String.length d)%nat) by (unfold w, slen in *; lia).
  pose proof (split_at d w (String.length d) Hw ltac:(lia)) as Hs. pose proof (substring_len d w Hw) as Hlen.
  destruct (Z.eqb_spec f 0); [lia|]. exists (substring 0 w d), (substring w (String.length d) d).
  split; [reflexivity|]. rewrite <- Hs in Hd. rewrite all_digits_app in Hd. apply andb_true_iff in Hd as [H1 H2].
  split; [exact H1|]. split; [exact H2|]. split; [|split; [|rewrite Hs; exact Hv]].
  - intros E. rewrite E in Hlen. cbn in Hlen. unfold w in Hlen. lia.
  - pose proof (f_equal slen Hs) as Hq. rewrite slen_app in Hq. assert (slen (substring 0 w d) = slen d - f); [|lia].
    unfold slen at 1. rewrite Hlen. unfold w. lia.
Qed.

(** The text of [m] hundred-thousandths. *)
Definition rate_text (ng : bool) (m : Z) : string := if ng then "-" ++ fixed_digits 5 m else fixed_digits 5 m.
Definition rate_value (ng : bool) (m : Z) : Q := (inject_Z (if ng then - m else m) / ten ^ 5)%Q.

Lemma rate_digits ng m :
  0 <= m -> exists ip fp, fixed_digits 5 m = ip ++ "." ++ fp /\ all_digits ip = true /\ all_digits fp = true /\ ip <> "" /\
    slen fp = 5 /\ dec_val (ip ++ fp) = m /\ (dec_Q ng ip fp 0 == rate_value ng m)%Q.
Proof.
  intros Hm. destruct (fixed_digits_split 5 m ltac:(lia) Hm) as (ip & fp & E & Hi & Hf & Hne & Hl & Hv).
  exists ip, fp. repeat (split; [assumption|]). unfold dec_Q, rate_value. rewrite Hv, Hl. destruct ng; [rewrite inject_Z_opp|]; cbv zeta; change (0 - 5) with (-5); unfold Qdiv; change (ten ^ (-5))%Q with (/ ten ^ 5)%Q; ring.
Qed.

Lemma js_Number_rate ng m : 0 <= m -> js_Number (rate_text ng m) = JsNumber.fin (rate_value ng m).
Proof.
  intros Hm. destruct (rate_digits ng m Hm) as (ip & fp & E & Hi & Hf & Hne & _ & _ & Hv). unfold rate_text. rewrite E.
  apply (js_Number_plain ip ("." ++ fp) fp); auto. discriminate.
Qed.

Lemma parseFloat_rate ng m : 0 <= m -> parseFloat (rate_text ng m) = JsNumber.fin (rate_value ng m).
Proof.
  intros Hm. destruct (rate_digits ng m Hm) as (ip & fp & E & Hi & Hf & Hne & _ & _ & Hv). unfold rate_text. rewrite E.
  apply (parseFloat_plain ip ("." ++ fp) fp); auto. discriminate.
Qed.

(** ** The column *)

Lemma roundScaled_rate m : 0 <= m -> roundScaled (mkDecimal false m 5) 5 = m.
Proof. intros Hm. unfold roundScaled. cbn. lia. Qed.

Lemma scan_rate ng m : 0 <= m -> parse_text (rate_text ng m) = Ok (mkDecimal ng m 5).
Proof.
  intros Hm. destruct (rate_digits ng m Hm) as (ip & fp & E & Hi & Hf & Hne & Hl & Hv & Hq).
  assert (scan_decimal (rate_text ng m) = Some (ng, ip, fp, 0)) as Hs.
  { unfold rate_text. rewrite E. unfold scan_decimal. destruct ng.
    - change (scan_sign ("-" ++ ip ++ "." ++ fp)) with (true, ip ++ "." ++ fp). cbv iota. rewrite scan_frac by assumption. reflexivity.
    - rewrite scan_sign_digits by assumption. cbv iota. rewrite scan_frac by assumption. reflexivity. }
  unfold parse_text. rewrite Hs, parse_groups by assumption. rewrite Hv, Hl. reflexivity.
Qed.

Lemma pg_rate_digits ng m :
  0 <= m -> pg_rate (rate_text ng m) = if m <? 10 ^ 8 then Ok (rate_text (ng && (0 <? m)) m) else Err (Thrown "numeric field overflow").
Proof.
  intros Hm. unfold pg_rate. rewrite scan_rate by exact Hm. cbn [unscaled scale neg]. rewrite roundScaled_rate by exact Hm.
  destruct (m <? 10 ^ 8); [|reflexivity]. unfold rate_text. destruct (ng && (0 <? m)); reflexivity.
Qed.

Lemma pg_rate_text s t : pg_rate s = Ok t -> exists ng m, 0 <= m < 10 ^ 8 /\ (ng = true -> 0 < m) /\ t = rate_text ng m.
Proof.
  unfold pg_rate. destruct (parse_text s) as [d|e] eqn:E; [|discriminate]. apply parse_text_wf in E as [Hu Hk].
  assert (0 <= roundScaled (mkDecimal false (unscaled d) (scale d)) 5) as Hm.
  { rewrite roundScaled_half_up by (cbn; lia). unfold minor_of, half_up. change 0 with (Qfloor 0). apply Qfloor_resp_le.
    unfold decQ. cbn [neg unscaled scale]. assert (0 <= inject_Z (unscaled d))%Q by (change 0%Q with (inject_Z 0); rewrite <- Zle_Qle; exact Hu).
    
    assert (0 <= inject_Z (unscaled d) * ten ^ (- scale d) * ten ^ 5)%Q by (apply Qmult_le_0_compat; [apply Qmult_le_0_compat; [assumption|]|]; apply Qlt_le_weak, ten_pos).
    apply Qle_trans with (y := (inject_Z (unscaled d) * ten ^ (- scale d) * ten ^ 5 + 0)%Q); [rewrite Qplus_0_r; assumption|].
    apply Qplus_le_compat; [apply Qle_refl|discriminate]. }
  set (m := roundScaled _ _) in *. destruct (Z.ltb_spec m (10 ^ 8)); [|discriminate]. intros [= <-].
  exists (neg d && (0 <? m)), m. split; [lia|]. split; [|unfold rate_text; destruct (neg d && (0 <? m)); reflexivity].
  intros Hb. apply andb_true_iff in Hb as [_ Hb]. apply Z.ltb_lt, Hb.
Qed.

Lemma pg_rate_idem s t : pg_rate s = Ok t -> pg_rate t = Ok t.
Proof.
  intros E. apply pg_rate_text in E as (ng & m & Hm & Hs & ->). rewrite pg_rate_digits by lia.
  rewrite (proj2 (Z.ltb_lt m (10 ^ 8))) by lia. do 2 f_equal. destruct ng; [|reflexivity]. apply Z.ltb_lt, Hs. reflexivity.
Qed.

Lemma pg_rate_opt_idem s t r : pg_rate_opt s = Ok t -> t = Some r -> pg_rate r = Ok r.
Proof. destruct s as [s|]; cbn; [|congruence]. intros E ->. apply rbind_ok in E as (y & Hy & [= ->]). exact (pg_rate_idem _ _ Hy). Qed.

Lemma pg_rate_plain m t : 0 <= m -> pg_rate (fixed_digits 5 m) = Ok t -> t = fixed_digits 5 m.
Proof. intros Hm. change (fixed_digits 5 m) with (rate_text false m). rewrite pg_rate_digits by exact Hm. cbn [andb]. destruct (_ <? _); congruence. Qed.

(** ** The rate of an organization *)

Lemma rate_value_bound ng m b : 0 <= m <= b * 10 ^ 5 -> (Qabs (rate_value ng m) <= inject_Z b)%Q.
Proof.
  intros Hm. unfold rate_value. change (ten ^ 5)%Q with 100000%Q. apply Qabs_Qle_condition.
  assert (- inject_Z (b * 10 ^ 5) <= inject_Z (if ng then - m else m) <= inject_Z (b * 10 ^ 5))%Q as [A B].
  { rewrite <- inject_Z_opp, <- !Zle_Qle. destruct ng; lia. }
  rewrite inject_Z_mult in *. change (inject_Z (10 ^ 5)) with 100000%Q in *. unfold Qdiv. change (/ 100000)%Q with (1 # 100000)%Q. split; lra.
Qed.

Lemma rate_fin ng m : 0 <= m <= 10 ^ 10 -> JsNumber.fin (rate_value ng m) = Fin (Qred (rnd (rate_value ng m))).
Proof.
  intros Hm. apply fin_small. pose proof (rate_value_bound ng m (10 ^ 5) ltac:(lia)).
  assert (inject_Z (10 ^ 5) <= two ^ 1000)%Q by (apply Qle_bool_iff; vm_compute; reflexivity). lra.
Qed.

Lemma rnd_rate_neg m : 0 <= m -> (rnd (rate_value true m) <= 0)%Q.
Proof.
  intros Hm. assert (rate_value true m == - rate_value false m)%Q as E by (unfold rate_value; rewrite inject_Z_opp; unfold Qdiv; ring).
  destruct (Z.eq_dec m 0) as [->|Hne]; [vm_compute; discriminate|].
  assert (0 < rate_value false m)%Q as Hp.
  { unfold rate_value. apply Qlt_shift_div_l; [apply ten_pos|]. rewrite Qmult_0_l. change 0%Q with (inject_Z 0). rewrite <- Zlt_Qlt. lia. }
  rewrite E. rewrite rnd_opp, rnd_of_pos by exact Hp. pose proof (rnd_pos_bound _ Hp). lra.
Qed.

(** A stored rate printed with five decimals, when it is positive. *)
Lemma toFixed_rate ng m :
  0 <= m < 10 ^ 8 -> js_gt (js_Number (toFixed 5 (js_Number (rate_text ng m)))) (ofZ 0) = true ->
  exists n, 0 <= n /\ toFixed 5 (js_Number (rate_text ng m)) = fixed_digits 5 n.
Proof.
  intros Hm. rewrite js_Number_rate, rate_fin by lia. set (x := Qred _). unfold toFixed.
  assert (Hx : (Qabs x <= 2001)%Q).
  { unfold x. rewrite Qred_correct. pose proof (rnd_abs_bound (rate_value ng m)). pose proof (rate_value_bound ng m 1000 ltac:(lia)).
    change (inject_Z 1000) with 1000%Q in *. lra. }
  destruct (Qle_bool (ten ^ 21) (Qabs x)) eqn:E.
  { apply Qle_bool_iff in E. change (ten ^ 21)%Q with 1000000000000000000000%Q in E. lra. }
  set (n := Qfloor _). assert (Hn : 0 <= n <= 10 ^ 10).
  { split; [change 0 with (Qfloor 0)|change (10 ^ 10) with (Qfloor 10000000000)]; apply Qfloor_resp_le;
      change (ten ^ 5)%Q with 100000%Q; pose proof (Qabs_nonneg x); lra. }
  destruct (Qnum x <? 0)%Z; [|exists n; split; [lia|reflexivity]].
  change ("-" ++ fixed_digits 5 n) with (rate_text true n). rewrite js_Number_rate, rate_fin by lia.
  unfold js_gt, js_lt. cbn [ofZ]. intros H. apply negb_true_iff, not_true_iff_false in H. exfalso. apply H, Qle_bool_iff.
  rewrite Qred_correct. exact (rnd_rate_neg n (proj1 Hn)).
Qed.

(** The rate an organization is charged is its own stored form. *)
Lemma resolved_rate org partner d rate d' :
  resolveQuoteTaxRate org partner d = Ok (rate, d') -> rate = None \/ exists n, 0 <= n /\ rate = Some (fixed_digits 5 n).
Proof.
  intros E. unfold resolveQuoteTaxRate in E. cbv zeta in E.
  apply bind_ok in E as (ref & d1 & G & E). apply read_ok in G as [-> ->].
  apply bind_ok in E as (o & d1 & G & E). apply lift_ok in G as [Go ->].
  apply bind_ok in E as (p & d1 & G & E). apply lift_ok in G as [Gp ->].
  destruct (resolveOrgTaxRate _ _) as [r|] eqn:Hr in E; [|discriminate E]. apply ret_ok in E as [-> _].
  unfold resolveOrgTaxRate in Hr. destruct (rf_organizations _ !! org) as [row|]; [|discriminate Hr]. cbn [option_map ot_taxExempt ot_taxRate] in Hr.
  injection Hr as <-. match goal with |- context [if ?b then _ else _] => destruct b eqn:Hg end; [|left; reflexivity]. right.
  assert (forall s t, pg_rate s = Ok t -> js_gt (js_Number (toFixed 5 (js_Number t))) (ofZ 0) = true ->
    exists n, 0 <= n /\ Some (toFixed 5 (js_Number t)) = Some (fixed_digits 5 n)) as K.
  { intros s t Hs Ht. apply pg_rate_text in Hs as (ng & m & Hm & _ & ->). destruct (toFixed_rate ng m Hm Ht) as (n & Hn & ->). eauto. }
  unfold resolveEffectiveTaxRate in *. destruct (org_taxExempt row); [vm_compute in Hg; discriminate|].
  destruct o as [o|]; [destruct (org_taxRate row) as [t|]; [|discriminate Go]; apply rbind_ok in Go as (y & Hy & [= ->]); exact (K _ _ Hy Hg)|].
  destruct p as [p|]; [|vm_compute in Hg; discriminate].
  destruct (rf_partners _ !! partner) as [x|]; [|discriminate Gp]. destruct (pt_defaultTaxRate x) as [t|]; [|discriminate Gp].
  apply rbind_ok in Gp as (y & Hy & [= ->]). exact (K _ _ Hy Hg).
Qed.

(** Parsed for the quote and for the invoice, a stored rate is the same number. *)
Lemma parsed_rate_number r : pg_rate r = Ok r -> parseFloat r = js_Number r.
Proof. intros E. apply pg_rate_text in E as (ng & m & Hm & _ & ->). rewrite parseFloat_rate, js_Number_rate by lia. reflexivity. Qed.
