(* ===== verification/QuoteInvariants.v ===== *)
(** * What every operation on quotes keeps

    The rows of a quote belong to it and to its organization, its header carries
    the totals of its lines, and a revision's parent is retired when the revision
    is sent. Each drafting operation edits one draft; a quote that was sent keeps
    its document: its header, its frozen parties and its lines never change, and
    a converted or superseded quote stays one. *)

From Stdlib Require Import QArith.
From S2P Require Import Prelude JsString JsNumber Currency IsoDate QuoteMath InvoiceMath ContractMath TimeBilling CatalogPricing ContractCoverage BillingDb InvoiceService InvoiceLifecycle InvoiceInvariants ContractService QuoteDb QuoteConversion QuoteService QuoteLifecycle RateColumn.
From stdpp Require Import base gmap strings list.

Local Open Scope string_scope.
Local Open Scope Z_scope.
Local Open Scope billing_scope.

(** ** The invariant *)

(** The lines of a quote, wherever they are placed. *)
Definition rows (i : string) (d : QuoteDb) : list QuoteLine := map (with_block None) (quote_lines_of i d).
Definition maths (i : string) (d : QuoteDb) : list QuoteLineForMath := map ql_math (quote_lines_of i d).

Lemma maths_rows i d : maths i d = map ql_math (rows i d).
Proof. unfold maths, rows. rewrite map_map. reflexivity. Qed.

(** The header carries the totals of these lines. *)
Definition row_totals (q : Quote) (ms : list QuoteLineForMath) : Prop :=
  exists t, computeQuoteTotals ms (parsed_rate (qt_taxRate q)) (Some (deposit_config q)) (qt_currencyCode q) = Ok t /\
    stored_totals t = Ok (qt_money q, dp_amount (qt_deposit q)).

(** A row as its columns keep it. *)
Definition row_ok (l : QuoteLine) : Prop := device_set_ok l = true /\ store_math (ql_math l) = Ok (ql_math l).

Definition line_ok (d : QuoteDb) (l : QuoteLine) : Prop :=
  (exists q, qd_quotes d !! ql_quoteId l = Some q /\ ql_orgId l = qt_orgId q) /\
  ql_parentLineId l = None /\ row_ok l /\ forall b, ql_blockId l = Some b -> In b (map qb_id (qd_blocks d)).

Definition block_ok (d : QuoteDb) (b : QuoteBlock) : Prop := exists q, qd_quotes d !! qb_quoteId b = Some q /\ qb_orgId b = qt_orgId q.

(** A revision follows a quote of its organization that was sent, is numbered
    after it, is its only one, and retires it when it is sent itself. *)
Record lineage (qs : gmap string Quote) : Prop := {
  lg_parent : forall i q p, qs !! i = Some q -> qt_revisionOfQuoteId q = Some p ->
    exists r, qs !! p = Some r /\ qt_orgId r = qt_orgId q /\ qt_status r <> qs_draft /\
      qt_revisionNumber q = qt_revisionNumber r + 1 /\ (qt_status q <> qs_draft -> qt_status r = qs_superseded);
  lg_one : forall i j q r p, qs !! i = Some q -> qs !! j = Some r ->
    qt_revisionOfQuoteId q = Some p -> qt_revisionOfQuoteId r = Some p -> i = j;
  lg_root : forall i q, qs !! i = Some q -> qt_revisionOfQuoteId q = None -> qt_revisionNumber q = 1;
  lg_named : forall i q, qs !! i = Some q -> qt_revisionOfQuoteId q <> Some "" }.

(** The stored rate is a rate, and only a converted quote names an invoice. *)
Definition header_ok (q : Quote) : Prop :=
  (forall r, qt_taxRate q = Some r -> pg_rate r = Ok r) /\ (qt_convertedInvoiceId q <> None -> qt_status q = qs_converted).

(** [stale] is the quote whose totals are still to be recomputed. *)
Record Quotes (stale : option string) (d : QuoteDb) : Prop := {
  qi_line_ids : List.NoDup (map ql_id (qd_lines d));
  qi_block_ids : List.NoDup (map qb_id (qd_blocks d));
  qi_lines : forall l, In l (qd_lines d) -> line_ok d l;
  qi_blocks : forall b, In b (qd_blocks d) -> block_ok d b;
  qi_headers : forall i q, qd_quotes d !! i = Some q -> header_ok q;
  qi_lineage : lineage (qd_quotes d);
  qi_totals : forall i q, stale <> Some i -> qd_quotes d !! i = Some q -> row_totals q (maths i d) }.

(** *** Stored amounts are their own stored form *)

Lemma pg_numeric_idem s t : pg_numeric s = Ok t -> pg_numeric t = Ok t.
Proof.
  intros E. apply pg_numeric_money in E as (c & -> & Hc). rewrite pg_numeric_cents. unfold column_bound in Hc.
  rewrite (proj2 (Z.ltb_lt _ _) Hc). reflexivity.
Qed.

Lemma pg_numeric_opt_idem s t : pg_numeric_opt s = Ok t -> pg_numeric_opt t = Ok t.
Proof.
  destruct s as [s|]; cbn; [|intros [= <-]; reflexivity]. intros E. apply rbind_ok in E as (y & Hy & [= <-]). cbn. rewrite (pg_numeric_idem _ _ Hy). reflexivity.
Qed.

Lemma store_math_ok m :
  pg_numeric (quantity m) = Ok (quantity m) -> pg_numeric (unitPrice m) = Ok (unitPrice m) -> pg_numeric_opt (unitCost m) = Ok (unitCost m) ->
  store_math m = Ok m.
Proof. intros A B C. unfold store_math. rewrite A, B, C. destruct m. reflexivity. Qed.

Lemma store_math_inv m m' :
  store_math m = Ok m' ->
  pg_numeric (quantity m) = Ok (quantity m') /\ pg_numeric (unitPrice m) = Ok (unitPrice m') /\ pg_numeric_opt (unitCost m) = Ok (unitCost m').
Proof.
  unfold store_math. intros E. apply rbind_ok in E as (q & Hq & E). apply rbind_ok in E as (u & Hu & E). apply rbind_ok in E as (c & Hc & [= <-]). auto.
Qed.

Lemma store_math_idem m m' : store_math m = Ok m' -> store_math m' = Ok m'.
Proof.
  intros E. apply store_math_inv in E as (A & B & C). apply store_math_ok; [exact (pg_numeric_idem _ _ A)|exact (pg_numeric_idem _ _ B)|exact (pg_numeric_opt_idem _ _ C)].
Qed.

Lemma store_quantity s q m : store_math m = Ok m -> pg_numeric s = Ok q -> store_math (with_quantity q m) = Ok (with_quantity q m).
Proof. intros E Hq. apply store_math_inv in E as (A & B & C). apply store_math_ok; [exact (pg_numeric_idem _ _ Hq)|exact B|exact C]. Qed.

Lemma store_price s u c c' m : store_math m = Ok m -> pg_numeric s = Ok u -> pg_numeric_opt c = Ok c' -> store_math (with_price u c' m) = Ok (with_price u c' m).
Proof.
  intros E Hu Hc. apply store_math_inv in E as (A & B & C).
  apply store_math_ok; [exact A|exact (pg_numeric_idem _ _ Hu)|exact (pg_numeric_opt_idem _ _ Hc)].
Qed.

Lemma store_line_math l st : store_line l = Ok st -> store_math (ql_math l) = Ok (ql_math st).
Proof.
  unfold store_line. intros E. apply rbind_ok in E as (m & Hm & E). repeat (apply rbind_ok in E as (? & _ & E)). injection E as <-. exact Hm.
Qed.

(** ** What a sent quote keeps *)

(** The header columns a customer was shown. *)
Definition document (q : Quote) :=
  (qt_partnerId q, qt_orgId q, qt_quoteNumber q, qt_currencyCode q, qt_taxRate q, qt_money q, qt_deposit q, qt_parties q,
   (qt_revisionOfQuoteId q, qt_revisionNumber q)).

Definition settled (q : Quote) : bool := match qt_status q with qs_converted | qs_superseded => true | _ => false end.

Definition same_document (q q' : Quote) : Prop :=
  document q' = document q /\ qt_status q' <> qs_draft /\
  (settled q = true -> qt_status q' = qt_status q /\ (qt_convertedInvoiceId q' = qt_convertedInvoiceId q \/ qt_convertedInvoiceId q' = None)).

(** A line as the document prints it: everything but its block, its organization
    and the ids of its device group and site, whose names are stamped beside. *)
Definition printed (l : QuoteLine) : QuoteLine :=
  let s := ql_set l in
  with_line_org "" (mkDeviceSet (ds_contractLineType s) (ds_deviceRoles s) None (ds_deviceGroupName s) None (ds_siteName s) (ds_allowance s)) (with_block None l).
Definition printed_lines (i : string) (d : QuoteDb) : list QuoteLine := map printed (quote_lines_of i d).

Lemma printed_rows i d : printed_lines i d = map printed (rows i d).
Proof. unfold printed_lines, rows. rewrite map_map. reflexivity. Qed.

Lemma same_rows i d d' : rows i d' = rows i d -> printed_lines i d' = printed_lines i d.
Proof. intros E. rewrite !printed_rows, E. reflexivity. Qed.

Definition evolves (d d' : QuoteDb) : Prop :=
  forall i q, qd_quotes d !! i = Some q -> qt_status q <> qs_draft ->
    exists q', qd_quotes d' !! i = Some q' /\ same_document q q' /\ printed_lines i d' = printed_lines i d.

Lemma same_document_refl q : qt_status q <> qs_draft -> same_document q q.
Proof. repeat split; auto. Qed.

Lemma same_document_trans q r s : same_document q r -> same_document r s -> same_document q s.
Proof.
  intros (E1 & D1 & S1) (E2 & D2 & S2). split; [congruence|]. split; [exact D2|]. intros H. destruct (S1 H) as [A B].
  assert (settled r = true) as Hr by (unfold settled in *; rewrite A; exact H). destruct (S2 Hr) as [C D]. split; [congruence|]. destruct B, D; (left; congruence) || (right; congruence).
Qed.

#[export] Instance evolves_preorder : PreOrder evolves.
Proof.
  split.
  - intros d i q Hq Hs. exists q. split; [exact Hq|]. split; [apply same_document_refl, Hs|reflexivity].
  - intros d e f H1 H2 i q Hq Hs. destruct (H1 i q Hq Hs) as (r & Hr & S1 & E1).
    destruct (H2 i r Hr (proj1 (proj2 S1))) as (u & Hu & S2 & E2).
    exists u. split; [exact Hu|]. split; [exact (same_document_trans _ _ _ S1 S2)|congruence].
Qed.

(** ** Steps of a draft's transaction *)

Definition drafting (i org : string) (d : QuoteDb) : Prop :=
  exists q, qd_quotes d !! i = Some q /\ qt_status q = qs_draft /\ qt_orgId q = org.

(** A step of a transaction on the draft [i] of [org]. *)
Class QStep (stale : option string) (i org : string) {A} (x : QM A) : Prop :=
  q_step : forall d a d', Quotes stale d -> drafting i org d -> x d = Ok (a, d') -> Quotes stale d' /\ drafting i org d' /\ evolves d d'.

(** A transaction that leaves the totals of the draft current. *)
Class QClose (i org : string) {A} (x : QM A) : Prop :=
  q_close : forall d a d', Quotes (Some i) d -> drafting i org d -> x d = Ok (a, d') -> Quotes None d' /\ evolves d d'.

(** A whole transaction. *)
Class QTx {A} (x : QM A) : Prop :=
  q_tx : forall d a d', Quotes None d -> x d = Ok (a, d') -> Quotes None d' /\ evolves d d'.

Lemma Quotes_stale s d : Quotes None d -> Quotes s d.
Proof. intros [A B C D E F G]. constructor; try assumption. intros i q _ Hq. apply G; [discriminate|exact Hq]. Qed.

#[export] Instance ro_step s i o {A} (x : QM A) : ReadOnly x -> QStep s i o x.
Proof. intros R d a d' Q D E. apply R in E as ->. split; [exact Q|]. split; [exact D|reflexivity]. Qed.
#[export] Instance ro_tx {A} (x : QM A) : ReadOnly x -> QTx x.
Proof. intros R d a d' Q E. apply R in E as ->. split; [exact Q|reflexivity]. Qed.

#[export] Instance bind_step s i o {A B} (x : QM A) (k : A -> QM B) : QStep s i o x -> (forall a, QStep s i o (k a)) -> QStep s i o (bind x k).
Proof.
  intros Hx Hk d b d' Q D E. apply bind_ok in E as (a & d1 & E1 & E2).
  destruct (Hx _ _ _ Q D E1) as (Q1 & D1 & V1). destruct (Hk a _ _ _ Q1 D1 E2) as (Q2 & D2 & V2).
  split; [exact Q2|]. split; [exact D2|]. etransitivity; eassumption.
Qed.

#[export] Instance for_each_step s i o {A} (f : A -> QM unit) l : (forall a, QStep s i o (f a)) -> QStep s i o (for_each f l).
Proof. intros Hf. induction l as [|x l IH]; cbn [for_each]; apply _. Qed.

Lemma close_before i o {A B} (x : QM A) (k : A -> QM B) : QStep (Some i) i o x -> (forall a, QClose i o (k a)) -> QClose i o (bind x k).
Proof.
  intros Hx Hk d b d' Q D E. apply bind_ok in E as (a & d1 & E1 & E2).
  destruct (Hx _ _ _ Q D E1) as (Q1 & D1 & V1). destruct (Hk a _ _ _ Q1 D1 E2) as (Q2 & V2).
  split; [exact Q2|]. etransitivity; eassumption.
Qed.

Lemma close_after i o {A B} (x : QM A) (k : A -> QM B) : QClose i o x -> (forall a, ReadOnly (k a)) -> QClose i o (bind x k).
Proof.
  intros Hx Hk d b d' Q D E. apply bind_ok in E as (a & d1 & E1 & E2). apply Hk in E2 as ->. exact (Hx _ _ _ Q D E1).
Qed.

Lemma bind_tx {A B} (x : QM A) (k : A -> QM B) : QTx x -> (forall a, QTx (k a)) -> QTx (bind x k).
Proof.
  intros Hx Hk d b d' Q E. apply bind_ok in E as (a & d1 & E1 & E2).
  destruct (Hx _ _ _ Q E1) as (Q1 & V1). destruct (Hk a _ _ _ Q1 E2) as (Q2 & V2). split; [exact Q2|]. etransitivity; eassumption.
Qed.

(** ** Read-only pieces *)

#[export] Instance in_billing_ro {A} (x : M A) : ReadOnly x -> ReadOnly (in_billing x).
Proof.
  intros R d a d' E. unfold in_billing in E. destruct (x (qd_billing d)) as [[b e]|] eqn:Ex; [|discriminate].
  injection E as <- <-. apply R in Ex as ->. destruct d. reflexivity.
Qed.
#[export] Instance pg_unique_ro n b : ReadOnly (pg_unique n b).
Proof. unfold pg_unique. destruct b; apply _. Qed.
#[export] Instance pg_reference_ro b : ReadOnly (pg_reference b).
Proof. unfold pg_reference. destruct b; apply _. Qed.
#[export] Instance assertOrg_ro a o : ReadOnly (assertOrg a o).
Proof. unfold assertOrg. apply _. Qed.
#[export] Instance assertSite_ro a o : ReadOnly (assertSite a o).
Proof. unfold assertSite. apply _. Qed.
#[export] Instance assertQuoteAccess_ro a q : ReadOnly (assertQuoteAccess a q).
Proof. unfold assertQuoteAccess. apply _. Qed.
#[export] Instance quote_row_ro i : ReadOnly (quote_row i).
Proof. unfold quote_row. solve_ro. Qed.
#[export] Instance lock_draft_ro c i a : ReadOnly (lock_draft c i a).
Proof. unfold lock_draft. apply _. Qed.
#[export] Instance resolvePartner_ro a : ReadOnly (resolvePartner a).
Proof. unfold resolvePartner. solve_ro. Qed.
#[export] Instance resolveQuoteTaxRate_ro o p : ReadOnly (resolveQuoteTaxRate o p).
Proof. unfold resolveQuoteTaxRate. cbv zeta. solve_ro. Qed.
#[export] Instance nextBlockSortOrder_ro i : ReadOnly (nextBlockSortOrder i).
Proof. unfold nextBlockSortOrder. apply _. Qed.
#[export] Instance nextLineSortOrder_ro i : ReadOnly (nextLineSortOrder i).
Proof. unfold nextLineSortOrder. apply _. Qed.
#[export] Instance assertContractBlockValid_ro r o p : ReadOnly (assertContractBlockValid r o p).
Proof. unfold assertContractBlockValid. destruct r. apply _. Qed.
#[export] Instance assertContractBlocks_ro bs o p : ReadOnly (assertContractBlocksValidForOrg bs o p).
Proof. unfold assertContractBlocksValidForOrg. apply for_each_ro. intros b. solve_ro. Qed.
#[export] Instance check_block_ro input q : ReadOnly (check_block input q).
Proof. unfold check_block. solve_ro. Qed.
#[export] Instance assertQuoteRepresentable_ro v c : ReadOnly (assertQuoteRepresentable v c).
Proof. unfold assertQuoteRepresentable. apply _. Qed.
#[export] Instance assertQuoteRepresentable_opt_ro v c : ReadOnly (assertQuoteRepresentable_opt v c).
Proof. unfold assertQuoteRepresentable_opt. solve_ro. Qed.
#[export] Instance lift_coverage_ro {A} (r : result CoverageError A) : ReadOnly (lift_coverage r).
Proof. intros d a d' E. unfold lift_coverage in E. destruct r; [injection E as _ <-; reflexivity|discriminate]. Qed.
#[export] Instance countQuote_ro res o ls : ReadOnly (countQuoteDeviceSetLines res o ls).
Proof. unfold countQuoteDeviceSetLines, countContractSeats. cbv zeta. solve_ro. Qed.
#[export] Instance set_quantity_ro res o i t s : ReadOnly (set_quantity res o i t s).
Proof. unfold set_quantity. solve_ro. Qed.
#[export] Instance getQuote_ro `{Uuids} i a : ReadOnly (getQuote i a).
Proof. unfold getQuote. solve_ro. all: destruct (qt_status _); apply _. Qed.

#[export] Instance patched_references_ro o l p : ReadOnly (patched_references o l p).
Proof. unfold patched_references, assertQuoteGroupInOrg, assertQuoteSiteInOrg. cbv zeta. solve_ro. Qed.
#[export] Instance patched_set_ro o c l p : ReadOnly (patched_set o c l p).
Proof. unfold patched_set. cbv zeta. solve_ro. Qed.

(** A read-only step of a successful transaction. *)
Lemma bind_ro_ok {T A B} (x : St T A) (k : A -> St T B) d r : bind x k d = Ok r -> ReadOnly x -> exists a, k a d = Ok r.
Proof. intros E R. apply bind_ok in E as (a & d1 & E1 & E2). apply R in E1 as ->. eauto. Qed.

(** ** Writes of a draft's transaction *)

Lemma edit_evolves i o d d' :
  drafting i o d -> (forall j, j <> i -> qd_quotes d' !! j = qd_quotes d !! j) -> (forall j, j <> i -> rows j d' = rows j d) -> evolves d d'.
Proof.
  intros (q & Hq & Hs & _) Hm Hr j r Hj Hne. assert (j <> i) as Hji by (intros ->; congruence).
  exists r. rewrite (Hm j Hji). split; [exact Hj|]. split; [apply same_document_refl, Hne|apply same_rows, Hr, Hji].
Qed.

(** The lines replaced, those of other quotes untouched. *)
Lemma lines_write s i o ls d :
  Quotes s d -> drafting i o d -> List.NoDup (map ql_id ls) -> (forall l, In l ls -> line_ok d l) ->
  (forall j, j <> i -> rows j (set_quoteLines ls d) = rows j d) -> s = Some i \/ maths i (set_quoteLines ls d) = maths i d ->
  Quotes s (set_quoteLines ls d) /\ drafting i o (set_quoteLines ls d) /\ evolves d (set_quoteLines ls d).
Proof.
  intros [A B C E F G T] D N L R M. split; [|split; [exact D|apply (edit_evolves i o); auto]].
  constructor; try assumption. intros j q Hj Hq. destruct (decide (j = i)) as [->|Hne].
  - destruct M as [->|M]; [contradiction|]. rewrite M. exact (T _ _ Hj Hq).
  - rewrite maths_rows, (R j Hne), <- maths_rows. exact (T _ _ Hj Hq).
Qed.

Lemma rows_app i ls d : rows i (set_quoteLines (qd_lines d ++ ls) d) = (rows i d ++ map (with_block None) (List.filter (fun l => String.eqb (ql_quoteId l) i) ls))%list.
Proof. unfold rows, quote_lines_of. cbn. rewrite List.filter_app, map_app. reflexivity. Qed.

(** What an update may do to a line it touches. *)
Definition line_edit (d : QuoteDb) (l l' : QuoteLine) : Prop :=
  ql_id l' = ql_id l /\ ql_quoteId l' = ql_quoteId l /\ ql_orgId l' = ql_orgId l /\ ql_parentLineId l' = ql_parentLineId l /\
  row_ok l' /\ forall b, ql_blockId l' = Some b -> In b (map qb_id (qd_blocks d)).

Lemma update_lines_ok s i o p f d :
  Quotes s d -> drafting i o d ->
  (forall l, In l (qd_lines d) -> p l = true -> ql_quoteId l = i /\ line_edit d l (f l) /\ (s = Some i \/ ql_math (f l) = ql_math l)) ->
  forall u d', update_lines p f d = Ok (u, d') -> Quotes s d' /\ drafting i o d' /\ evolves d d'.
Proof.
  intros Q D H u d' E. apply modify_ok in E as ->. pose proof Q as [A B C _ _ _ _].
  set (g := fun l => if p l then f l else l).
  assert (Hid : forall l, In l (qd_lines d) -> ql_id (g l) = ql_id l /\ ql_quoteId (g l) = ql_quoteId l).
  { intros l Hl. unfold g. destruct (p l) eqn:Ep; [|auto]. destruct (H l Hl Ep) as (_ & (E1 & E2 & _) & _). auto. }
  assert (Hf : forall j, List.filter (fun l => String.eqb (ql_quoteId l) j) (map g (qd_lines d)) = map g (quote_lines_of j d)).
  { intros j. apply filter_map_keep. intros l Hl. rewrite (proj2 (Hid l Hl)). reflexivity. }
  apply (lines_write s i o); [exact Q|exact D| | | |].
  - rewrite map_map. rewrite (map_ext_in _ ql_id); [exact A|]. intros l Hl. apply Hid, Hl.
  - intros l Hl. apply in_map_iff in Hl as (l0 & <- & Hl). pose proof (C _ Hl) as [[q [Hq Ho]] [Hp [Hd Hb]]]. unfold g.
    destruct (p l0) eqn:Ep; [|split; [eauto|auto]]. destruct (H l0 Hl Ep) as (_ & (E1 & E2 & E3 & E4 & E5 & E6) & _).
    unfold line_ok. rewrite E2, E3, E4. eauto 6.
  - intros j Hj. unfold rows, quote_lines_of at 1. cbn. rewrite Hf. apply map_on_filter. intros l Hl Hlj. unfold g. destruct (p l) eqn:Ep; [|reflexivity].
    destruct (H l Hl Ep) as (Hi & _). apply String.eqb_eq in Hlj. congruence.
  - destruct (decide (s = Some i)) as [->|Hs]; [left; reflexivity|]. right. unfold maths, quote_lines_of at 1. cbn. rewrite Hf.
    apply map_on_filter. intros l Hl _. unfold g. destruct (p l) eqn:Ep; [|reflexivity].
    destruct (H l Hl Ep) as (_ & _ & [Hc|Hm]); [contradiction|exact Hm].
Qed.

Lemma insert_line_ok i o l d st d' :
  Quotes (Some i) d -> drafting i o d -> ql_quoteId l = i -> ql_orgId l = o -> ql_parentLineId l = None ->
  insert_quote_line l d = Ok (st, d') ->
  Quotes (Some i) d' /\ drafting i o d' /\ evolves d d' /\ d' = set_quoteLines (qd_lines d ++ [st])%list d /\ store_line l = Ok st.
Proof.
  intros Q D Hi Ho Hp E. unfold insert_quote_line in E.
  apply bind_ok in E as (st0 & d1 & G & E). apply lift_ok in G as [Gs ->].
  apply bind_ok in E as (taken & d1 & G & E). apply read_ok in G as [-> ->].
  apply bind_ok in E as (u & d1 & G & E). assert (d1 = d) as -> by exact (pg_unique_ro _ _ _ _ _ G).
  apply bind_ok in E as (there & d1 & G' & E). apply read_ok in G' as [-> ->].
  apply bind_ok in E as (u' & d1 & G' & E). assert (d1 = d) as -> by exact (pg_reference_ro _ _ _ _ G').
  run_m. rename st0 into st.
  unfold pg_unique in G. destruct (negb _) eqn:Hn in G; [|discriminate]. apply negb_true_iff in Hn.
  unfold pg_reference in G'. match type of G' with (if ?b then _ else _) _ = _ => destruct b eqn:Hb; [|discriminate] end.
  assert (Hst : ql_id st = ql_id l /\ ql_quoteId st = i /\ ql_orgId st = o /\ ql_parentLineId st = None /\ ql_blockId st = ql_blockId l).
  { unfold store_line in Gs. repeat (apply rbind_ok in Gs as (? & ? & Gs)). injection Gs as <-. cbn. auto. }
  destruct Hst as (S1 & S2 & S3 & S4 & S5). pose proof Q as [A _ C _ _ _ _]. pose proof D as (q & Hq & _ & Hqo).
  assert (Quotes (Some i) (set_quoteLines (qd_lines d ++ [st])%list d) /\ drafting i o (set_quoteLines (qd_lines d ++ [st])%list d) /\ evolves d (set_quoteLines (qd_lines d ++ [st])%list d)) as (X & Y & Z); [|auto].
  apply (lines_write (Some i) i o); [exact Q|exact D| | | |left; reflexivity].
  - rewrite map_app. apply NoDup_end; [exact A|]. cbn. rewrite S1. intros Hin. apply str_mem_in in Hin. congruence.
  - intros y Hx. apply in_app_or in Hx as [Hx|[<-|[]]]; [exact (C _ Hx)|]. unfold line_ok. rewrite S2, S3, S4.
    split; [exists q; split; [exact Hq|congruence]|]. split; [reflexivity|]. split; [split; [assumption|exact (store_math_idem _ _ (store_line_math _ _ Gs))]|]. intros b Eb. rewrite S5 in Eb. rewrite Eb in Hb. apply str_mem_in, Hb.
  - intros j Hj. rewrite rows_app. cbn. rewrite S2. destruct (String.eqb_spec i j); [congruence|]. apply app_nil_r.
Qed.

(** No stored line is below another, so a deletion takes the lines it names. *)
Lemma cascade_flat n ids ls : (forall l, In l ls -> ql_parentLineId l = None) -> cascade n ids ls = ids.
Proof.
  intros H. induction n as [|n IH]; [reflexivity|]. cbn [cascade].
  assert (List.filter (fun l => match ql_parentLineId l with Some q => str_mem q ids && negb (str_mem (ql_id l) ids) | None => false end) ls = []) as ->.
  { clear IH. induction ls as [|l ls IH]; [reflexivity|]. cbn. rewrite (H l (or_introl eq_refl)). apply IH. intros x Hx. apply H. right. exact Hx. }
  cbn. rewrite app_nil_r. exact IH.
Qed.

Lemma same_line s d l l' : Quotes s d -> In l (qd_lines d) -> In l' (qd_lines d) -> ql_id l = ql_id l' -> l = l'.
Proof. intros Q H H' E. exact (unique_in ql_id (qd_lines d) l l' (qi_line_ids _ _ Q) H H' E). Qed.

Lemma delete_lines_ok i o p d u d' :
  Quotes (Some i) d -> drafting i o d -> (forall l, In l (qd_lines d) -> p l = true -> ql_quoteId l = i) ->
  delete_lines p d = Ok (u, d') ->
  (Quotes (Some i) d' /\ drafting i o d' /\ evolves d d') /\ d' = set_quoteLines (List.filter (fun l => negb (p l)) (qd_lines d)) d.
Proof.
  intros Q D H E. apply modify_ok in E as ->. cbv beta zeta. rewrite cascade_flat by (intros l Hl; apply (qi_lines _ _ Q), Hl).
  assert (List.filter (fun l => negb (str_mem (ql_id l) (map ql_id (List.filter p (qd_lines d))))) (qd_lines d) = List.filter (fun l => negb (p l)) (qd_lines d)) as ->.
  { apply filter_ext_in. intros l Hl. f_equal. apply eq_true_iff_eq. rewrite str_mem_in, in_map_iff. split.
    - intros (x & Ex & Hx). apply List.filter_In in Hx as [Hx Hp]. rewrite <- (same_line _ _ _ _ Q Hx Hl Ex). exact Hp.
    - intros Hp. exists l. split; [reflexivity|]. apply List.filter_In. auto. }
  split; [|reflexivity]. pose proof Q as [A _ C _ _ _ _]. apply (lines_write (Some i) i o); [exact Q|exact D| | | |left; reflexivity].
  - apply NoDup_filter_map, A.
  - intros l Hl. apply List.filter_In in Hl as [Hl _]. exact (C _ Hl).
  - intros j Hj. unfold rows, quote_lines_of. cbn. f_equal. rewrite filter_twice. apply filter_ext_in. intros l Hl.
    destruct (p l) eqn:Ep; cbn; [|apply andb_true_r]. rewrite (H l Hl Ep). destruct (String.eqb_spec i j); [congruence|reflexivity].
Qed.

(** Writes of the other tables. *)
Lemma blocks_write s i o bs d :
  Quotes s d -> drafting i o d -> List.NoDup (map qb_id bs) -> (forall b, In b bs -> block_ok d b) ->
  (forall b, In b (map qb_id (qd_blocks d)) -> In b (map qb_id bs)) ->
  Quotes s (set_blocks bs d) /\ drafting i o (set_blocks bs d) /\ evolves d (set_blocks bs d).
Proof.
  intros [A B C E F G T] D N L I. split; [|split; [exact D|apply (edit_evolves i o); auto]].
  constructor; try assumption. intros l Hl. destruct (C l Hl) as (H1 & H2 & H3 & H4).
  split; [exact H1|]. split; [exact H2|]. split; [exact H3|]. intros b Hb. apply I, H4, Hb.
Qed.

Lemma insert_block_ok s i o b d u d' :
  Quotes s d -> drafting i o d -> qb_quoteId b = i -> qb_orgId b = o -> insert_block b d = Ok (u, d') ->
  Quotes s d' /\ drafting i o d' /\ evolves d d'.
Proof.
  intros Q D Hi Ho E. unfold insert_block in E. apply bind_ok in E as (taken & d1 & G & E). apply read_ok in G as [-> ->].
  apply bind_ok in E as (v & d1 & G & E). assert (d1 = d) as -> by exact (pg_unique_ro _ _ _ _ _ G).
  unfold pg_unique in G. destruct (negb _) eqn:Hn in G; [|discriminate]. apply negb_true_iff in Hn. apply modify_ok in E as ->.
  pose proof D as (q & Hq & _ & Hqo). apply (blocks_write s i o); [exact Q|exact D| | |].
  - rewrite map_app. apply NoDup_end; [apply Q|]. intros Hc. apply str_mem_in in Hc. congruence.
  - intros x Hx. apply in_app_or in Hx as [Hx|[<-|[]]]; [exact (qi_blocks _ _ Q _ Hx)|]. exists q. rewrite Hi. split; congruence.
  - intros x Hx. rewrite map_app. apply in_or_app. left. exact Hx.
Qed.

Lemma update_blocks_step s i o p f :
  (forall b, qb_id (f b) = qb_id b /\ qb_quoteId (f b) = qb_quoteId b /\ qb_orgId (f b) = qb_orgId b) -> QStep s i o (update_blocks p f).
Proof.
  intros H d u d' Q D E. apply modify_ok in E as ->. apply (blocks_write s i o); [exact Q|exact D| | |].
  - rewrite map_map. rewrite (map_ext _ qb_id); [apply Q|]. intros b. destruct (p b); [apply H|reflexivity].
  - intros b Hb. apply in_map_iff in Hb as (x & <- & Hx). destruct (qi_blocks _ _ Q _ Hx) as (q & Hq & Ho). exists q.
    destruct (p x); [destruct (H x) as (_ & -> & ->)|]; auto.
  - intros b Hb. rewrite map_map. rewrite (map_ext _ qb_id); [exact Hb|]. intros x. destruct (p x); [apply H|reflexivity].
Qed.

#[export] Instance mint_step s i o `{Uuids} : QStep s i o q_mint.
Proof. intros d a d' Q D [= _ <-]. split; [destruct Q; constructor; assumption|]. split; [exact D|]. apply (edit_evolves i o); auto. Qed.

(** Deleted blocks leave lines of any quote without a place. *)
Lemma delete_blocks_ok s i o p d u d' :
  Quotes s d -> drafting i o d -> (forall b, p b = true -> qb_quoteId b = i) -> delete_blocks p d = Ok (u, d') ->
  Quotes s d' /\ drafting i o d' /\ evolves d d'.
Proof.
  intros Q D H E. unfold delete_blocks, update_lines in E. run_m. pose proof Q as [A B C B' F G T].
  set (gone := map qb_id (List.filter p (qd_blocks d))). set (g := fun l : QuoteLine => if match ql_blockId l with Some b => str_mem b gone | None => false end then with_block None l else l).
  assert (Hg : forall l, with_block None (g l) = with_block None l /\ ql_id (g l) = ql_id l /\ ql_quoteId (g l) = ql_quoteId l).
  { intros l. unfold g. destruct (ql_blockId l) as [b|]; [destruct (str_mem b gone)|]; auto. }
  match goal with |- Quotes s ?e /\ _ => set (d1 := e) end.
  assert (Hr : forall j, rows j d1 = rows j d).
  { intros j. unfold rows, quote_lines_of, d1. cbn. change (fun l : QuoteLine => if match ql_blockId l with Some b => str_mem b gone | None => false end then with_block None l else l) with g.
    rewrite filter_map_keep by (intros l _; rewrite (proj2 (proj2 (Hg l))); reflexivity). rewrite map_map. apply map_ext. intros l. apply Hg. }
  split; [|split; [exact D|apply (edit_evolves i o); auto]]. constructor.
  - cbn. rewrite map_map. rewrite (map_ext _ ql_id); [exact A|]. intros l. apply Hg.
  - apply NoDup_filter_map, B.
  - intros l Hl. cbn in Hl. apply in_map_iff in Hl as (x & <- & Hx). change (line_ok d1 (g x)). destruct (C x Hx) as (H1 & H2 & H3 & H4). unfold g.
    destruct (ql_blockId x) as [b|] eqn:Eb; [destruct (str_mem b gone) eqn:Eg|].
    + split; [exact H1|]. split; [exact H2|]. split; [exact H3|]. intros b' Hb'. discriminate Hb'.
    + split; [exact H1|]. split; [exact H2|]. split; [exact H3|]. intros b' Hb'. rewrite Eb in Hb'. injection Hb' as <-.
      specialize (H4 b eq_refl). cbn. apply in_map_iff in H4 as (y & Ey & Hy). apply in_map_iff. exists y. split; [exact Ey|]. apply List.filter_In. split; [exact Hy|].
      destruct (p y) eqn:Ep; [|reflexivity]. exfalso. assert (In b gone) as Hc by (apply in_map_iff; exists y; split; [exact Ey|apply List.filter_In; auto]).
      apply str_mem_in in Hc. congruence.
    + split; [exact H1|]. split; [exact H2|]. split; [exact H3|]. intros b' Hb'. congruence.
  - intros b Hb. cbn in Hb. apply List.filter_In in Hb as [Hb _]. exact (B' _ Hb).
  - exact F.
  - exact G.
  - intros j q Hj Hq. rewrite maths_rows, (Hr j), <- maths_rows. exact (T _ _ Hj Hq).
Qed.

(** ** The header of a draft *)

(** Nothing follows a draft, so its own row is all of its lineage. *)
Lemma lineage_edit qs i q q' :
  lineage qs -> qs !! i = Some q -> qt_status q = qs_draft -> qt_status q' = qs_draft ->
  qt_revisionOfQuoteId q' = qt_revisionOfQuoteId q -> qt_revisionNumber q' = qt_revisionNumber q ->
  qt_orgId q' = qt_orgId q \/ qt_revisionOfQuoteId q = None -> lineage (<[i := q']> qs).
Proof.
  intros [P O R N] Hi Hd Hd' Er En Eo. constructor.
  - intros j r p Hj Hp. apply lookup_insert_Some in Hj as [[<- <-]|[Hne Hj]].
    + rewrite Er in Hp. destruct (P _ _ _ Hi Hp) as (x & Hx & H1 & H2 & H3 & H4). exists x.
      rewrite lookup_insert_ne by (intros <-; congruence). split; [exact Hx|]. destruct Eo as [Eo|Eo]; [|congruence]. rewrite Eo, En. split; [exact H1|]. split; [exact H2|]. split; [exact H3|].
      intros Hc. contradiction.
    + destruct (P _ _ _ Hj Hp) as (x & Hx & H1 & H2 & H3 & H4). exists x. rewrite lookup_insert_ne by (intros <-; congruence). auto.
  - intros j k r x p Hj Hk Hp Hp'. apply lookup_insert_Some in Hj as [[<- <-]|[Hne Hj]]; apply lookup_insert_Some in Hk as [[<- <-]|[Hne' Hk]];
      [reflexivity| | |exact (O _ _ _ _ _ Hj Hk Hp Hp')]; rewrite Er in *; [exact (O _ _ _ _ _ Hi Hk Hp Hp')|exact (O _ _ _ _ _ Hj Hi Hp Hp')].
  - intros j r Hj Hp. apply lookup_insert_Some in Hj as [[<- <-]|[Hne Hj]]; [|exact (R _ _ Hj Hp)]. rewrite En. rewrite Er in Hp. exact (R _ _ Hi Hp).
  - intros j r Hj. apply lookup_insert_Some in Hj as [[<- <-]|[Hne Hj]]; [rewrite Er; exact (N _ _ Hi)|exact (N _ _ Hj)].
Qed.

Lemma alter_insert_row {A} (f : A -> A) (i : string) (q : A) (m : gmap string A) : m !! i = Some q -> alter f i m = <[i := f q]> m.
Proof.
  intros H. apply map_eq. intros j. destruct (decide (j = i)) as [->|Hne].
  - rewrite lookup_alter_eq, lookup_insert_eq, H. reflexivity.
  - rewrite lookup_alter_ne, lookup_insert_ne by congruence. reflexivity.
Qed.

(** The row of the draft replaced, within its organization. *)
Lemma header_write i o q q' d :
  Quotes (Some i) d -> qd_quotes d !! i = Some q -> qt_status q = qs_draft -> qt_orgId q = o ->
  qt_status q' = qs_draft -> qt_orgId q' = o -> qt_revisionOfQuoteId q' = qt_revisionOfQuoteId q -> qt_revisionNumber q' = qt_revisionNumber q ->
  header_ok q' ->
  let d' := set_quotes (<[i := q']> (qd_quotes d)) d in
  Quotes (Some i) d' /\ drafting i o d' /\ evolves d d'.
Proof.
  intros [A B C E F G T] Hq Hd Ho Hd' Ho' Er En Hk d'.
  assert (Hrow : forall j r, qd_quotes d !! j = Some r -> exists r', qd_quotes d' !! j = Some r' /\ qt_orgId r' = qt_orgId r).
  { intros j r Hj. destruct (decide (j = i)) as [->|Hne]; [exists q'; cbn; rewrite lookup_insert_eq; split; congruence|].
    exists r. cbn. rewrite lookup_insert_ne by congruence. auto. }
  split; [|split].
  - constructor; try assumption.
    + intros l Hl. destruct (C l Hl) as ((r & Hr & Eo) & H1 & H2 & H3). destruct (Hrow _ _ Hr) as (r' & Hr' & Eo'). split; [exists r'; split; congruence|auto].
    + intros b Hb. destruct (E b Hb) as (r & Hr & Eo). destruct (Hrow _ _ Hr) as (r' & Hr' & Eo'). exists r'. split; congruence.
    + intros j r Hj. cbn in Hj. apply lookup_insert_Some in Hj as [[_ <-]|[_ Hj]]; [exact Hk|exact (F _ _ Hj)].
    + apply (lineage_edit _ _ q); auto. left. congruence.
    + intros j r Hj Hr. cbn in Hr. rewrite lookup_insert_ne in Hr by congruence. exact (T _ _ Hj Hr).
  - exists q'. cbn. rewrite lookup_insert_eq. auto.
  - apply (edit_evolves i o); [exists q; auto| |reflexivity]. intros j Hj. cbn. rewrite lookup_insert_ne by congruence. reflexivity.
Qed.

Lemma update_quote_ok i f q d u d' : qd_quotes d !! i = Some q -> update_quote i f d = Ok (u, d') -> d' = set_quotes (<[i := f q]> (qd_quotes d)) d.
Proof. intros H E. apply modify_ok in E as ->. rewrite (alter_insert_row f i q) by exact H. reflexivity. Qed.

Lemma totals_header q st : header_ok q -> header_ok (with_stored_totals st q).
Proof. auto. Qed.

(** ** Recomputed totals are current *)

Lemma recompute_effect i q d u d' :
  qd_quotes d !! i = Some q -> recomputeAndPersist i d = Ok (u, d') ->
  exists t st, quote_totals q (quote_lines_of i d) = Ok t /\ stored_totals t = Ok st /\
    d' = set_quotes (<[i := with_stored_totals st q]> (qd_quotes d)) d.
Proof.
  intros Hq E. unfold recomputeAndPersist in E. apply bind_ok in E as (row & d1 & G & E). apply read_ok in G as [-> ->]. rewrite Hq in E.
  apply bind_ok in E as (ls & d1 & G & E). apply read_ok in G as [-> ->].
  apply bind_ok in E as (t & d1 & G & E). apply lift_throw_ok in G as [Gt ->].
  apply bind_ok in E as (st & d1 & G & E). apply lift_ok in G as [Gs ->].
  exists t, st. split; [exact Gt|]. split; [exact Gs|]. exact (update_quote_ok _ _ _ _ _ _ Hq E).
Qed.

Lemma recompute_totals q st t ms :
  computeQuoteTotals ms (parsed_rate (qt_taxRate q)) (Some (deposit_config q)) (qt_currencyCode q) = Ok t -> stored_totals t = Ok st ->
  row_totals (with_stored_totals st q) ms.
Proof. intros E S. exists t. split; [exact E|]. rewrite S. destruct st. reflexivity. Qed.

#[export] Instance recompute_close i o : QClose i o (recomputeAndPersist i).
Proof.
  intros d u d' Q D E. pose proof D as (q & Hq & Hd & Ho). destruct (recompute_effect _ _ _ _ _ Hq E) as (t & st & Et & Es & ->).
  destruct (header_write i o q (with_stored_totals st q) d Q Hq Hd Ho) as ([A B C F H G T] & _ & V); try assumption; try reflexivity.
  { exact (qi_headers _ _ Q _ _ Hq). }
  split; [|exact V]. constructor; try assumption. intros j r _ Hr. destruct (decide (j = i)) as [->|Hne]; [|apply T; [congruence|exact Hr]].
  cbn in Hr. rewrite lookup_insert_eq in Hr. injection Hr as <-. exact (recompute_totals _ _ _ _ Et Es).
Qed.

(** ** Transactions on a draft *)

Lemma lock_draft_ok c i a d q d' : lock_draft c i a d = Ok (q, d') -> d' = d /\ qd_quotes d !! i = Some q /\ drafting i (qt_orgId q) d.
Proof.
  intros E. assert (d' = d) as -> by exact (lock_draft_ro _ _ _ _ _ _ E). split; [reflexivity|].
  unfold lock_draft, quote_row in E. apply bind_ok in E as (q0 & d1 & G & E). apply bind_ok in G as (row & d2 & G1 & G). apply read_ok in G1 as [-> ->].
  destruct (qd_quotes d !! i) as [r|] eqn:Hr; [|discriminate G]. apply ret_ok in G as [-> ->].
  apply bind_ok in E as (u & d1 & _ & E). run_m. split; [reflexivity|]. exists r. split; [exact Hr|]. split; [|reflexivity].
  unfold is_draft_quote in *. destruct (qt_status r); congruence.
Qed.

(** An operation that locks the draft, edits it and recomputes its totals. *)
Lemma locked_close c i a {B} (k : Quote -> QM B) : (forall q, QClose i (qt_orgId q) (k q)) -> QTx (bind (lock_draft c i a) k).
Proof.
  intros H d b d' Q E. apply bind_ok in E as (q & d1 & E1 & E2). apply lock_draft_ok in E1 as (-> & Hq & D).
  exact (H q _ _ _ (Quotes_stale _ _ Q) D E2).
Qed.

(** One that places blocks and lines and leaves the totals alone. *)
Lemma locked_step c i a {B} (k : Quote -> QM B) : (forall q, QStep None i (qt_orgId q) (k q)) -> QTx (bind (lock_draft c i a) k).
Proof.
  intros H d b d' Q E. apply bind_ok in E as (q & d1 & E1 & E2). apply lock_draft_ok in E1 as (-> & Hq & D).
  destruct (H q _ _ _ Q D E2) as (Q' & _ & V). auto.
Qed.

Ltac solve_step :=
  repeat match goal with
  | |- QStep _ _ _ (match ?x with _ => _ end) => destruct x
  | |- QStep _ _ _ (let '(_, _) := ?x in _) => destruct x
  | |- QStep _ _ _ (if ?x then _ else _) => destruct x
  | |- QStep _ _ _ (bind _ _) => apply bind_step; [|intros ?]
  | |- QStep _ _ _ (for_each _ _) => apply for_each_step; intros ?
  | |- QStep _ _ _ (lock_draft _ _ _) => apply ro_step, lock_draft_ro
  | |- QStep _ _ _ _ => first [apply _|apply ro_step; solve [solve_ro]]
  end.

Ltac solve_close :=
  repeat match goal with
  | |- QClose _ _ (bind (recomputeAndPersist _) _) => apply close_after; [apply _|intros ?; solve [solve_ro]]
  | |- QClose _ _ (recomputeAndPersist _) => apply _
  | |- QClose _ _ (bind _ _) => apply close_before; [solve_step|intros ?]
  | |- QClose _ _ (fail _) => intros ? ? ? ? ? [=]
  | |- QClose _ _ (match ?x with _ => _ end) => destruct x
  | |- QClose _ _ (let '(_, _) := ?x in _) => destruct x
  | |- QClose _ _ (if ?x then _ else _) => destruct x
  end.

(** ** Line and block operations *)

Lemma insert_by_in {A} (before : A -> A -> bool) x l y : In y (insert_by before x l) <-> y = x \/ In y l.
Proof.
  induction l as [|z l IH]; cbn; [intuition congruence|]. destruct (before x z); cbn; [intuition congruence|]. rewrite IH. intuition congruence.
Qed.

Lemma order_by_in {A} (before : A -> A -> bool) l y : In y (order_by before l) <-> In y l.
Proof.
  unfold order_by. enough (forall acc, In y (fold_left (fun acc x => insert_by before x acc) l acc) <-> In y acc \/ In y l) as ->; [cbn; intuition|].
  induction l as [|x l IH]; intros acc; cbn; [intuition|]. rewrite IH, insert_by_in. intuition congruence.
Qed.

Lemma insert_line_step i o l : ql_quoteId l = i -> ql_orgId l = o -> ql_parentLineId l = None -> QStep (Some i) i o (insert_quote_line l).
Proof. intros A B C d a d' Q D E. destruct (insert_line_ok i o l d a d' Q D A B C E) as (X & Y & Z & _). auto. Qed.

Lemma insert_block_step s i o b : qb_quoteId b = i -> qb_orgId b = o -> QStep s i o (insert_block b).
Proof. intros A B d a d' Q D E. exact (insert_block_ok s i o b d a d' Q D A B E). Qed.

Lemma update_lines_step s i o p f :
  (forall l, p l = true -> ql_quoteId l = i) ->
  (forall l, ql_id (f l) = ql_id l /\ ql_quoteId (f l) = ql_quoteId l /\ ql_orgId (f l) = ql_orgId l /\ ql_parentLineId (f l) = ql_parentLineId l /\
     ql_blockId (f l) = ql_blockId l /\ (row_ok l -> row_ok (f l))) ->
  s = Some i \/ (forall l, ql_math (f l) = ql_math l) -> QStep s i o (update_lines p f).
Proof.
  intros P F M d u d' Q D E. apply (update_lines_ok s i o p f d) with (u := u); try assumption. intros l Hl Hp. split; [apply P, Hp|].
  destruct (qi_lines _ _ Q l Hl) as (_ & _ & Hd & Hb). destruct (F l) as (E1 & E2 & E3 & E4 & E5 & E6).
  split; [|destruct M as [M|M]; auto]. unfold line_edit. rewrite E5. auto 8.
Qed.

Lemma delete_lines_step i o p : (forall l, p l = true -> ql_quoteId l = i) -> QStep (Some i) i o (delete_lines p).
Proof. intros P d u d' Q D E. exact (proj1 (delete_lines_ok i o p d u d' Q D (fun l _ => P l) E)). Qed.

Lemma delete_blocks_step s i o p : (forall b, p b = true -> qb_quoteId b = i) -> QStep s i o (delete_blocks p).
Proof. intros P d u d' Q D E. exact (delete_blocks_ok s i o p d u d' Q D P E). Qed.

Lemma no_children s i l d : Quotes s d -> List.filter (fun x => bool_decide (ql_parentLineId x = Some l)) (lines_in_order i d) = [].
Proof.
  intros Q. assert (forall x, In x (lines_in_order i d) -> ql_parentLineId x = None) as H.
  { intros x Hx. apply order_by_in, List.filter_In in Hx as [Hx _]. apply (qi_lines _ _ Q x Hx). }
  induction (lines_in_order i d) as [|x r IH]; [reflexivity|]. cbn. rewrite (H x (or_introl eq_refl)). cbn. apply IH. intros y Hy. apply H. right. exact Hy.
Qed.

Lemma block_of_quote i b x : block_of i b x = true -> qb_quoteId x = i.
Proof. unfold block_of. intros H. apply andb_true_iff in H as [_ H]. apply String.eqb_eq, H. Qed.
Lemma line_of_quote i l x : line_of i l x = true -> ql_quoteId x = i.
Proof. unfold line_of. intros H. apply andb_true_iff in H as [_ H]. apply String.eqb_eq, H. Qed.
Lemma line_in_quote i b x : line_in i b x = true -> ql_quoteId x = i.
Proof. unfold line_in. intros H. apply andb_true_iff in H as [H _]. apply String.eqb_eq, H. Qed.

Section Ops.
Context `{Uuids}.
Variable resolver : DeviceGroup -> result string (list string * list string).

#[export] Instance addBlock_tx i input a : QTx (addBlock i input a).
Proof. unfold addBlock, loadDraft. apply locked_step. intros q. solve_step. apply insert_block_step; reflexivity. Qed.

#[export] Instance updateBlock_tx i b input a : QTx (updateBlock i b input a).
Proof. unfold updateBlock, loadDraft. apply locked_step. intros q. solve_step. apply update_blocks_step. auto. Qed.

#[export] Instance reorderBlocks_tx i ids a : QTx (reorderBlocks i ids a).
Proof. unfold reorderBlocks, loadDraft. apply locked_step. intros q. solve_step. apply update_blocks_step. auto. Qed.

#[export] Instance reorderLines_tx i b ids a : QTx (reorderLines i b ids a).
Proof.
  unfold reorderLines, loadDraft. apply locked_step. intros q. solve_step. apply update_lines_step; [|auto 8|auto].
  intros l Hl. apply andb_true_iff in Hl as [_ Hl]. exact (line_in_quote _ _ _ Hl).
Qed.

#[export] Instance deleteBlock_tx i b a : QTx (deleteBlock i b a).
Proof.
  unfold deleteBlock, lockDraftQuote. apply locked_close. intros q. solve_close.
  - apply delete_lines_step. apply line_in_quote.
  - apply delete_blocks_step. apply block_of_quote.
Qed.

#[export] Instance removeLine_tx i l a : QTx (removeLine i l a).
Proof. unfold removeLine, lockDraftQuote. apply locked_close. intros q. solve_close. apply delete_lines_step, line_of_quote. Qed.

#[export] Instance resolveLineBlockId_step s i o b : QStep s i o (resolveLineBlockId i o b).
Proof. unfold resolveLineBlockId. solve_step. apply insert_block_step; reflexivity. Qed.

#[export] Instance addManualLine_tx i input a : QTx (addManualLine resolver i input a).
Proof.
  unfold addManualLine, lockDraftQuote, assertQuoteGroupInOrg, assertQuoteSiteInOrg. apply locked_close. intros q. cbv zeta. solve_close.
  all: apply insert_line_step; reflexivity.
Qed.

#[export] Instance addCatalogLine_tx i item n b a : QTx (addCatalogLine i item n b a).
Proof.
  unfold addCatalogLine, lockDraftQuote. apply locked_close. intros q. cbv zeta. solve_close.
  all: apply insert_line_step; reflexivity.
Qed.

(** No line is below another, so a move carries one line. *)
#[export] Instance moveLineToBlock_tx i l b a : QTx (moveLineToBlock i l b a).
Proof.
  intros d u d' Q E. unfold moveLineToBlock, loadDraft in E. apply bind_ok in E as (q & d1 & E1 & E). apply lock_draft_ok in E1 as (-> & Hq & D).
  apply bind_ok in E as (row & d1 & G & E). apply read_ok in G as [-> ->]. destruct (List.find (line_of i l) (qd_lines d)) as [line|]; [|discriminate E].
  apply bind_ok in E as (v & d1 & G & E). apply require_ok in G as [_ ->].
  apply bind_ok in E as (blk & d1 & G & E). apply read_ok in G as [-> ->]. destruct (List.find (block_of i b) (qd_blocks d)) as [blk|] eqn:Hb; [|discriminate E].
  apply List.find_some in Hb as [Hin Hb].
  assert (In b (map qb_id (qd_blocks d))) as Hblk. { apply andb_true_iff in Hb as [Hb _]. apply String.eqb_eq in Hb. apply in_map_iff. exists blk. auto. }
  apply bind_ok in E as (v' & d1 & G & E). apply require_ok in G as [_ ->].
  destruct (bool_decide _); [apply ret_ok in E as [_ ->]; split; [exact Q|reflexivity]|].
  apply bind_ok in E as (base & d1 & G & E). apply read_ok in G as [-> ->]. apply bind_ok in E as (w & d1 & G & E).
  apply (update_lines_ok None i (qt_orgId q)) in G as (Q1 & D1 & V1); [| exact Q|exact D|].
  - apply bind_ok in E as (cs & d2 & G & E). apply read_ok in G as [-> ->].
    rewrite (no_children _ _ _ _ Q1) in E. cbn in E. apply ret_ok in E as [_ ->]. auto.
  - intros x Hx Hp. split; [exact (line_of_quote _ _ _ Hp)|]. split; [|auto]. destruct (qi_lines _ _ Q x Hx) as (_ & _ & Hd & _).
    unfold line_edit. repeat (split; [solve [reflexivity|assumption]|]). intros b' [= <-]. exact Hblk.
Qed.

(** The line an edit stores is the line it found. *)
#[export] Instance updateLine_tx i l patch a : QTx (updateLine resolver i l patch a).
Proof.
  intros d r d' Q E. unfold updateLine, lockDraftQuote in E. apply bind_ok in E as (q & d1 & E1 & E). apply lock_draft_ok in E1 as (-> & Hq & D).
  apply bind_ok in E as (row & d1 & G & E). apply read_ok in G as [-> ->]. destruct (List.find (line_of i l) (qd_lines d)) as [x|] eqn:Hf; [|discriminate E].
  apply List.find_some in Hf as [Hin Hx]. pose proof (line_of_quote _ _ _ Hx) as Hxi. apply andb_true_iff in Hx as [Hx _]. apply String.eqb_eq in Hx.
  cbv zeta in E.
  do 7 (apply bind_ro_ok in E as [? E]; [|solve [solve_ro]]).
  apply bind_ok in E as (u & d1 & G & E). unfold quote_update_line in G.
  apply bind_ok in G as (st & d2 & Gs & G). apply lift_ok in Gs as [Gs ->]. apply bind_ok in G as (w & d2 & Gc & G). apply pg_check_ok in Gc as [Gc ->].
  apply (update_lines_ok (Some i) i (qt_orgId q)) in G as (Q1 & D1 & V1); [| exact (Quotes_stale _ _ Q)|exact D|].
  - apply bind_ok in E as (v & d2 & G & E). destruct (recompute_close i (qt_orgId q) _ _ _ Q1 D1 G) as [Q2 V2].
    assert (d' = d2) as -> by (revert E; clear; intros E; apply bind_ok in E as (y & d3 & G & E); apply read_ok in G as [-> ->]; destruct (List.find _ _); run_m; reflexivity).
    split; [exact Q2|etransitivity; eassumption].
  - intros y Hy Hp. apply String.eqb_eq in Hp. assert (y = x) as -> by (apply (same_line _ _ _ _ Q Hy Hin); congruence).
    split; [exact Hxi|]. split; [|auto]. destruct (qi_lines _ _ Q x Hin) as (_ & _ & _ & Hb).
    pose proof (store_math_idem _ _ (store_line_math _ _ Gs)) as Hm.
    unfold store_line in Gs. repeat (apply rbind_ok in Gs as (? & _ & Gs)). injection Gs as <-. repeat split; try assumption.
Qed.

(** *** Device counts *)

#[export] Instance persist_count_step i o cur ls c : QStep (Some i) i o (persist_count i cur ls c).
Proof.
  intros d u d' Q D E. unfold persist_count in E. destruct (qc_error c); [apply ret_ok in E as [_ ->]; split; [exact Q|split; [exact D|reflexivity]]|].
  destruct (List.find _ ls); [|apply ret_ok in E as [_ ->]; split; [exact Q|split; [exact D|reflexivity]]]. cbv zeta in E.
  apply bind_ro_ok in E as [lt E]; [|solve [solve_ro]]. apply bind_ok in E as (n & d1 & G & E). apply lift_ok in G as [Gn ->].
  apply bind_ro_ok in E as [t E]; [|solve [solve_ro]].
  revert Q D E. apply update_lines_step; [| |auto].
  - intros l Hl. apply andb_true_iff in Hl as [_ Hl]. apply String.eqb_eq, Hl.
  - intros l. repeat (split; [reflexivity|]). intros [A B]. split; [exact A|exact (store_quantity _ _ _ B Gn)].
Qed.
#[export] Instance recount_step i o org cur p : QStep (Some i) i o (recount resolver i org cur p).
Proof. unfold recount, persistQuoteDeviceSetQuantities. solve_step. Qed.

#[export] Instance refreshQuoteDeviceCounts_tx i a : QTx (refreshQuoteDeviceCounts resolver i a).
Proof.
  intros d r d' Q E. unfold refreshQuoteDeviceCounts in E. apply bind_ok in E as (q & d1 & E1 & E). apply lock_draft_ok in E1 as (-> & Hq & D).
  apply bind_ok in E as (ls & d1 & G & E). apply read_ok in G as [-> ->].
  destruct (counted_lines i _ d); [apply ret_ok in E as [_ ->]; split; [exact Q|reflexivity]|].
  assert (QClose i (qt_orgId q) (do! counts := recount resolver i (qt_orgId q) (qt_currencyCode q) (fun _ => true) in
    do! _ := recomputeAndPersist i in ret counts)) as C by solve_close.
  exact (C _ _ _ (Quotes_stale _ _ Q) D E).
Qed.

(** *** The currency *)

(** The lines of these ids are the draft's. *)
Definition owned (i : string) (ids : list string) (d : QuoteDb) : Prop := forall l, In l (qd_lines d) -> In (ql_id l) ids -> ql_quoteId l = i.

Lemma reprice_lines_ok i o q cur a ls : forall d u d',
  Quotes (Some i) d -> drafting i o d -> owned i (map ql_id ls) d -> for_each (reprice_quote_line q cur a) ls d = Ok (u, d') ->
  Quotes (Some i) d' /\ drafting i o d' /\ evolves d d'.
Proof.
  induction ls as [|l ls IH]; intros d u d' Q D O E; cbn [for_each] in E.
  - apply ret_ok in E as [_ ->]. split; [exact Q|]. split; [exact D|reflexivity].
  - apply bind_ok in E as (v & d1 & G & E). unfold reprice_quote_line in G. destruct (ql_catalogItemId l) as [item|].
    + do 2 (apply bind_ro_ok in G as [?r0 G]; [|solve [solve_ro]]). apply bind_ok in G as (u0 & d2 & Gu & G). apply lift_ok in Gu as [Gu ->].
      apply bind_ro_ok in G as [?r0 G]; [|solve [solve_ro]]. apply bind_ok in G as (c0 & d2 & Gc & G). apply lift_ok in Gc as [Gc ->].
      assert (Hg : forall x, In x (qd_lines d1) -> exists y, In y (qd_lines d) /\ ql_id x = ql_id y /\ ql_quoteId x = ql_quoteId y).
      { intros x Hx. pose proof G as G2. apply modify_ok in G2. rewrite G2 in Hx. cbn in Hx. apply in_map_iff in Hx as (y & <- & Hy). exists y. destruct (String.eqb _ _); auto. }
      apply (update_lines_ok (Some i) i o) in G as (Q1 & D1 & V1); [|exact Q|exact D|].
      * destruct (IH d1 u d' Q1 D1) as (Q2 & D2 & V2); [|exact E|].
        { intros x Hx Hi. destruct (Hg x Hx) as (y & Hy & E1 & ->). apply O; [exact Hy|]. right. rewrite <- E1. exact Hi. }
        split; [exact Q2|]. split; [exact D2|]. etransitivity; eassumption.
      * intros x Hx Hp. apply String.eqb_eq in Hp. split; [apply O; [exact Hx|left; congruence]|]. split; [|auto].
        destruct (qi_lines _ _ Q x Hx) as (_ & _ & [Hd Hm] & Hb). repeat split; try assumption. exact (store_price _ _ _ _ _ Hm Gu Gc).
    + apply ret_ok in G as [_ ->]. apply (IH d u d' Q D); [|exact E]. intros x Hx Hi. apply O; [exact Hx|right; exact Hi].
Qed.

Lemma with_currency_ok i o cur d u d' :
  Quotes (Some i) d -> drafting i o d -> update_quote i (with_quote_currency cur) d = Ok (u, d') -> Quotes (Some i) d' /\ drafting i o d' /\ evolves d d'.
Proof.
  intros Q D E. pose proof D as (q & Hq & Hd & Ho). rewrite (update_quote_ok _ _ _ _ _ _ Hq E).
  apply (header_write i o q); try assumption; try reflexivity. exact (qi_headers _ _ Q _ _ Hq).
Qed.

#[export] Instance changeQuoteCurrency_tx i cur clear reprice a : QTx (changeQuoteCurrency i cur clear reprice a).
Proof.
  intros d r d' Q E. unfold changeQuoteCurrency, lockDraftQuote in E. apply bind_ok in E as (q & d1 & E1 & E). apply lock_draft_ok in E1 as (-> & Hq & D).
  destruct (String.eqb _ _); [apply ret_ok in E as [_ ->]; split; [exact Q|reflexivity]|].
  apply bind_ok in E as (ls & d1 & G & E). apply read_ok in G as [-> ->]. apply bind_ok in E as (v & d1 & G & E). apply require_ok in G as [_ ->].
  apply Quotes_stale with (s := Some i) in Q. apply bind_ok in E as (w & d1 & G & E).
  assert (Quotes (Some i) d1 /\ drafting i (qt_orgId q) d1 /\ evolves d d1) as (Q1 & D1 & V1).
  { set (ls := order_by _ _) in G. assert (owned i (map ql_id ls) d) as O.
    { intros l Hl Hi. apply in_map_iff in Hi as (x & Ex & Hx). apply order_by_in, List.filter_In in Hx as [Hx Hxi].
      rewrite (same_line _ _ _ _ Q Hl Hx (eq_sym Ex)). apply String.eqb_eq, Hxi. }
    clearbody ls. destruct ls as [|l ls]; [apply ret_ok in G as [_ ->]; split; [exact Q|]; split; [exact D|reflexivity]|].
    destruct reprice; [|destruct (negb clear); [discriminate G|]].
    - unfold repriceQuoteCatalogLines in G. apply bind_ok in G as (x & d2 & G1 & G). apply require_ok in G1 as [_ ->]. exact (reprice_lines_ok _ _ _ _ _ _ _ _ _ Q D O G).
    - apply (delete_lines_step i (qt_orgId q) (fun x => String.eqb (ql_quoteId x) i)) with (a := w); [|exact Q|exact D|exact G]. intros x Hx. apply String.eqb_eq, Hx. }
  apply bind_ok in E as (x & d2 & G' & E). destruct (with_currency_ok _ _ _ _ _ _ Q1 D1 G') as (Q2 & D2 & V2).
  apply bind_ok in E as (y & d3 & G3 & E). destruct (recompute_close i (qt_orgId q) _ _ _ Q2 D2 G3) as (Q3 & V3).
  assert (d' = d3) as -> by (apply (quote_row_ro _ _ _ _ E)). split; [exact Q3|]. etransitivity; [|exact V3]. etransitivity; eassumption.
Qed.
End Ops.
