(* ===== verification/QuoteOperations.v ===== *)
(** * Whole operations on quotes keep their invariant

    Creation, header edits and moves between organizations, deletion, copies and
    revisions, and the life of a sent quote: views, declines, expiry, the claim
    that sends a draft and retires the quote it revises, and acceptance. *)

From Stdlib Require Import QArith.
From S2P Require Import Prelude JsString JsNumber Currency IsoDate QuoteMath InvoiceMath ContractMath TimeBilling CatalogPricing ContractCoverage BillingDb InvoiceService InvoiceLifecycle InvoiceInvariants ContractService QuoteDb QuoteConversion QuoteService QuoteLifecycle RateColumn QuoteInvariants.
From stdpp Require Import base gmap strings list.

Local Open Scope string_scope.
Local Open Scope Z_scope.
Local Open Scope billing_scope.

(** ** Tables the invariant does not read *)

Definition same_quotes (d d' : QuoteDb) : Prop := qd_quotes d' = qd_quotes d /\ qd_blocks d' = qd_blocks d /\ qd_lines d' = qd_lines d.

Lemma frame s d d' : same_quotes d d' -> Quotes s d -> Quotes s d'.
Proof.
  intros (Eq & Eb & El) [A B C E F G T].
  constructor; unfold line_ok, block_ok, maths, quote_lines_of in *; rewrite ?Eq, ?Eb, ?El; assumption.
Qed.

Lemma frame_rows i d d' : same_quotes d d' -> rows i d' = rows i d.
Proof. intros (_ & _ & El). unfold rows, quote_lines_of. rewrite El. reflexivity. Qed.

Lemma frame_evolves d d' : same_quotes d d' -> evolves d d'.
Proof.
  intros S i q Hq Hs. exists q. rewrite (proj1 S). split; [exact Hq|]. split; [apply same_document_refl, Hs|apply same_rows, frame_rows, S].
Qed.

Lemma frame_drafting i o d d' : same_quotes d d' -> drafting i o d -> drafting i o d'.
Proof. intros (Eq & _) (q & Hq & R). exists q. rewrite Eq. auto. Qed.

#[export] Instance same_quotes_preorder : PreOrder same_quotes.
Proof. split; [repeat split|]. intros a b c (A & B & C) (A' & B' & C'). repeat split; congruence. Qed.

(** Transactions that leave the quote tables alone. *)
Class Aside {A} (x : QM A) : Prop := aside : forall d a d', x d = Ok (a, d') -> same_quotes d d'.

#[export] Instance ro_aside {A} (x : QM A) : ReadOnly x -> Aside x.
Proof. intros R d a d' E. apply R in E as ->. reflexivity. Qed.
#[export] Instance bind_aside {A B} (x : QM A) (k : A -> QM B) : Aside x -> (forall a, Aside (k a)) -> Aside (bind x k).
Proof. intros Hx Hk d b d' E. apply bind_ok in E as (a & d1 & E1 & E2). etransitivity; [exact (Hx _ _ _ E1)|exact (Hk a _ _ _ E2)]. Qed.
#[export] Instance in_billing_aside {A} (x : M A) : Aside (in_billing x).
Proof. intros d a d' E. unfold in_billing in E. destruct (x _) as [[b e]|]; [|discriminate]. injection E as _ <-. repeat split. Qed.
#[export] Instance mint_aside `{Uuids} : Aside q_mint.
Proof. intros d a d' [= _ <-]. repeat split. Qed.
#[export] Instance counter_aside p y : Aside (allocateQuoteCounter p y).
Proof. intros d a d' E. unfold allocateQuoteCounter in E. run_m. repeat split. Qed.
#[export] Instance recipients_aside i es : Aside (insert_recipients i es).
Proof. intros d a d' E. apply modify_ok in E as ->. repeat split. Qed.

#[export] Instance aside_tx {A} (x : QM A) : Aside x -> QTx x.
Proof. intros Hx d a d' Q E. apply Hx in E. split; [exact (frame _ _ _ E Q)|exact (frame_evolves _ _ E)]. Qed.
#[export] Instance aside_step s i o {A} (x : QM A) : Aside x -> QStep s i o x.
Proof. intros Hx d a d' Q D E. apply Hx in E. split; [exact (frame _ _ _ E Q)|]. split; [exact (frame_drafting _ _ _ _ E D)|exact (frame_evolves _ _ E)]. Qed.

(** ** Handlers *)

Class QKeeps {A} (x : QRun A) : Prop := q_keeps : forall d, Quotes None d -> Quotes None (after x d) /\ evolves d (after x d).

#[export] Instance tx_qkeeps {A} (x : QM A) : QTx x -> QKeeps (tx x).
Proof. intros Hx d Q. unfold after, tx. destruct (x d) as [[a d']|e] eqn:E; cbn; [exact (Hx _ _ _ Q E)|split; [exact Q|reflexivity]]. Qed.

Lemma run_qkeeps {A B} (x : QRun A) (k : A -> QRun B) : QKeeps x -> (forall a, QKeeps (k a)) -> QKeeps (then_run x k).
Proof.
  intros Hx Hk d Q. specialize (Hx d Q). unfold after, then_run in *. destruct (x d) as [[a|e] d1]; [|exact Hx].
  destruct Hx as [Q1 V1]. destruct (Hk a d1 Q1) as [Q2 V2]. unfold after in *. split; [exact Q2|]. cbn in V1. etransitivity; eassumption.
Qed.

(** A handler from its first transaction, and what a step of it may leave. *)
Lemma run_from {A B} (P : QuoteDb -> Prop) (x : QM A) (k : A -> QRun B) d :
  (forall a d1, x d = Ok (a, d1) -> P (after (k a) d1)) -> P d -> P (after (then_run (tx x) k) d).
Proof. intros Hk Hd. unfold after, then_run, tx in *. destruct (x d) as [[a d1]|e]; [exact (Hk a d1 eq_refl)|exact Hd]. Qed.

Lemma run_assoc {A B C} (x : QRun A) (f : A -> QRun B) (g : B -> QRun C) d :
  then_run (then_run x f) g d = then_run x (fun a => then_run (f a) g) d.
Proof. unfold then_run. destruct (x d) as [[a|e] d1]; reflexivity. Qed.

Lemma tx_from {A} (P : QuoteDb -> Prop) (x : QM A) d : (forall a d1, x d = Ok (a, d1) -> P d1) -> P d -> P (after (tx x) d).
Proof. intros Hk Hd. unfold after, tx in *. destruct (x d) as [[a d1]|e]; [exact (Hk a d1 eq_refl)|exact Hd]. Qed.

Definition kept (d d' : QuoteDb) : Prop := Quotes None d' /\ evolves d d'.

Lemma kept_frame d d1 : Quotes None d -> same_quotes d d1 -> kept d d1.
Proof. intros Q S. split; [exact (frame _ _ _ S Q)|exact (frame_evolves _ _ S)]. Qed.

Lemma kept_after d d1 d2 : evolves d d1 -> kept d1 d2 -> kept d d2.
Proof. intros V [Q2 V2]. split; [exact Q2|]. etransitivity; eassumption. Qed.

(** ** Header edits *)

Section Ops.
Context `{Uuids}.
Variable resolver : DeviceGroup -> result string (list string * list string).

#[export] Instance patched_deposit_ro i q p r : ReadOnly (patched_deposit i q p r).
Proof. unfold patched_deposit. solve_ro. Qed.
#[export] Instance assertTargetOrg_ro o p c : ReadOnly (assertTargetOrg o p c).
Proof. unfold assertTargetOrg. solve_ro. Qed.

Lemma unscoped_row l o s : row_ok l -> s = ql_set l \/ s = unscoped (ql_set l) -> row_ok (with_line_org o s l).
Proof.
  intros [D M] E. split; [|exact M]. unfold device_set_ok in *. cbn [ql_set ql_math ql_parentLineId with_line_org].
  destruct E as [-> | ->]; [exact D|]. destruct (ql_set l) as [t roles g gn s sn a]. cbn [unscoped ds_contractLineType ds_deviceRoles ds_deviceGroupId ds_deviceGroupName ds_siteId ds_siteName ds_allowance] in *.
  destruct t as [t|].
  - rewrite !andb_true_iff in *. cbn [present negb orb]. intuition.
  - rewrite negb_true_iff in *. rewrite !orb_false_iff in *. cbn [present]. intuition.
Qed.

(** A draft that revises nothing moved to another organization with all it holds. *)
Lemma move_quote i q q' t d u d' :
  Quotes (Some i) d -> qd_quotes d !! i = Some q -> qt_status q = qs_draft -> qt_revisionOfQuoteId q = None ->
  qt_status q' = qs_draft -> qt_orgId q' = t -> qt_revisionOfQuoteId q' = None -> qt_revisionNumber q' = qt_revisionNumber q -> header_ok q' ->
  move_children i t (set_quotes (<[i := q']> (qd_quotes d)) d) = Ok (u, d') ->
  Quotes (Some i) d' /\ drafting i t d' /\ evolves d d'.
Proof.
  intros [A B C E F G T] Hq Hd Hr Hd' Ho Hr' Hn Hk X. unfold move_children, update_blocks, update_lines in X.
  apply bind_ok in X as (u1 & d1 & X1 & X). apply bind_ok in X as (u2 & d2 & X2 & X). apply modify_ok in X1, X2, X. subst d1 d2.
  set (g := fun l => if String.eqb (ql_quoteId l) i then with_line_org t (if is_unscoped l then ql_set l else unscoped (ql_set l)) l else l).
  assert (El : qd_lines d' = map g (qd_lines d)).
  { subst d'. cbn. rewrite map_map. apply map_ext. intros l. unfold g. destruct (String.eqb (ql_quoteId l) i) eqn:Ei; cbn [andb]; [|rewrite Ei; reflexivity].
    destruct (is_unscoped l); cbn [negb ql_quoteId with_line_org]; rewrite Ei; reflexivity. }
  set (h := fun b => if String.eqb (qb_quoteId b) i then with_block_org t b else b).
  assert (Eb : qd_blocks d' = map h (qd_blocks d)) by (subst d'; reflexivity).
  assert (Eq : qd_quotes d' = <[i := q']> (qd_quotes d)) by (subst d'; reflexivity). clear X.
  assert (Hg : forall l, ql_id (g l) = ql_id l /\ ql_quoteId (g l) = ql_quoteId l /\ ql_math (g l) = ql_math l /\ ql_blockId (g l) = ql_blockId l /\ ql_parentLineId (g l) = ql_parentLineId l).
  { intros l. unfold g. destruct (String.eqb _ _); auto 6. }
  assert (Hh : map qb_id (qd_blocks d') = map qb_id (qd_blocks d)).
  { rewrite Eb, map_map. apply map_ext. intros b. unfold h. destruct (String.eqb _ _); reflexivity. }
  assert (Hrows : forall j, j <> i -> rows j d' = rows j d).
  { intros j Hj. unfold rows, quote_lines_of. rewrite El, filter_map_keep by (intros l _; rewrite (proj1 (proj2 (Hg l))); reflexivity).
    apply map_on_filter. intros l _ Hl. apply String.eqb_eq in Hl. unfold g. destruct (String.eqb_spec (ql_quoteId l) i); [congruence|reflexivity]. }
  split; [|split].
  - constructor.
    + rewrite El, map_map. rewrite (map_ext _ ql_id); [exact A|]. intros l. apply Hg.
    + rewrite Hh. exact B.
    + intros l Hl. rewrite El in Hl. apply in_map_iff in Hl as (x & <- & Hx). destruct (C x Hx) as ((r & Hr0 & Eo) & H1 & H2 & H3).
      destruct (Hg x) as (G1 & G2 & G3 & G4 & G5). unfold line_ok. rewrite G2, G4, G5, Hh, Eq. split; [|split; [exact H1|split; [|exact H3]]].
      * unfold g. destruct (String.eqb_spec (ql_quoteId x) i) as [->|Hne]; [exists q'; rewrite lookup_insert_eq; auto|].
        exists r. rewrite lookup_insert_ne by congruence. auto.
      * unfold g. destruct (String.eqb _ _); [|exact H2]. apply unscoped_row; [exact H2|]. destruct (is_unscoped x); auto.
    + intros b Hb. rewrite Eb in Hb. apply in_map_iff in Hb as (x & <- & Hx). destruct (E x Hx) as (r & Hr0 & Eo). unfold block_ok, h. rewrite Eq.
      destruct (String.eqb_spec (qb_quoteId x) i) as [Ex|Hne]; [exists q'; cbn; rewrite Ex, lookup_insert_eq; auto|].
      exists r. rewrite lookup_insert_ne by congruence. auto.
    + intros j r Hj. rewrite Eq in Hj. apply lookup_insert_Some in Hj as [[_ <-]|[_ Hj]]; [exact Hk|exact (F _ _ Hj)].
    + rewrite Eq. apply (lineage_edit _ _ q); auto; congruence.
    + intros j r Hj Hr0. rewrite Eq, lookup_insert_ne in Hr0 by congruence. rewrite maths_rows, Hrows, <- maths_rows by congruence. exact (T _ _ Hj Hr0).
  - exists q'. rewrite Eq, lookup_insert_eq. auto.
  - apply (edit_evolves i (qt_orgId q)); [exists q; auto| |exact Hrows]. intros j Hj. rewrite Eq, lookup_insert_ne by congruence. reflexivity.
Qed.

(** The rate a patch leaves. *)
Lemma patched_rate q patch (orgRate : option (option string)) (d : QuoteDb) r d' :
  header_ok q ->
  (match up_taxRate patch with
   | Some n => lift (pg_rate_opt (option_map (toFixed 5) n))
   | None => match orgRate with Some r => lift (pg_rate_opt r) | None => ret (qt_taxRate q) end
   end) d = Ok (r, d') -> d' = d /\ forall x, r = Some x -> pg_rate x = Ok x.
Proof.
  intros [Hr _] E. destruct (up_taxRate patch) as [n|]; [|destruct orgRate as [o|]].
  1, 2: apply lift_ok in E as [E ->]; split; [reflexivity|]; intros x Hx; exact (pg_rate_opt_idem _ _ _ E Hx).
  apply ret_ok in E as [-> ->]. auto.
Qed.

#[export] Instance updateQuote_tx i patch a : QTx (updateQuote resolver i patch a).
Proof.
  intros d r d' Q E. unfold updateQuote, loadDraft in E. apply bind_ok in E as (q & d1 & E1 & E). apply lock_draft_ok in E1 as (-> & Hq & D).
  assert (Hd : qt_status q = qs_draft) by (destruct D as (x & Hx & Hs & _); congruence).
  apply bind_ro_ok in E as [v E]; [|solve [solve_ro]]. cbv zeta in E. apply bind_ok in E as (orgRate & d1 & G & E).
  assert (d1 = d /\ (org_moved q patch = None \/ qt_revisionOfQuoteId q = None)) as [-> Hmv].
  { destruct (org_moved q patch) as [t|]; [|apply ret_ok in G as [_ ->]; auto]. pose proof G as G'. apply bind_ok in G' as (w & d2 & Gr & _).
    apply require_ok in Gr as [Gr _]. split; [|right; destruct (qt_revisionOfQuoteId q); [discriminate Gr|reflexivity]].
    revert G. match goal with |- ?x d = _ -> _ => assert (ReadOnly x) as R by solve_ro; apply R end. }
  clear G. apply bind_ro_ok in E as [dep E]; [|apply _]. apply bind_ok in E as (rate & d1 & G & E).
  apply (patched_rate _ _ _ _ _ _ (qi_headers _ _ Q _ _ Hq)) in G as [-> Hrate].
  apply bind_ok in E as (w & d1 & G & E). apply bind_ok in E as (w' & d2 & G2 & E).
  assert (Hhead : forall o s n, header_ok (patched_header patch o s n rate dep q)).
  { intros o s n. destruct (qi_headers _ _ Q _ _ Hq) as (_ & Hc). split; [exact Hrate|exact Hc]. }
  apply Quotes_stale with (s := Some i) in Q.
  assert (exists o, Quotes (Some i) d1 /\ drafting i o d1 /\ evolves d d1) as (o & Q1 & D1 & V1).
  { destruct (org_moved q patch) as [t|].
    - destruct Hmv as [Hmv|Hmv]; [discriminate Hmv|]. apply bind_ok in G as (cur & d3 & Gc & G). apply in_billing_aside in Gc.
      apply bind_ro_ok in G as [? G]; [|apply _]. apply bind_ro_ok in G as [? G]; [|apply _]. apply bind_ro_ok in G as [? G]; [|apply _].
      assert (qd_quotes d3 !! i = Some q) as Hq3 by (rewrite (proj1 Gc); exact Hq).
      apply bind_ok in G as (u1 & d4 & G4 & G). rewrite (update_quote_ok _ _ _ _ _ _ Hq3 G4) in G. clear G4.
      apply bind_ok in G as (u2 & d5 & G5 & G). apply (move_quote i q) in G5 as (Q5 & D5 & V5); try assumption; try reflexivity; [|exact (frame _ _ _ Gc Q)|apply Hhead].
      apply bind_ok in G as (u3 & d6 & G6 & G). apply ret_ok in G as [_ ->].
      destruct (recount_step resolver i t _ _ _ _ _ _ Q5 D5 G6) as (Q6 & D6 & V6).
      exists t. split; [exact Q6|]. split; [exact D6|]. etransitivity; [exact (frame_evolves _ _ Gc)|]. etransitivity; eassumption.
    - exists (qt_orgId q). rewrite (update_quote_ok _ _ _ _ _ _ Hq G). apply (header_write i _ q); auto. }
  destruct (recompute_close i o _ _ _ Q1 D1 G2) as (Q2 & V2).
  assert (d' = d2) as -> by (apply (quote_row_ro _ _ _ _ E)). split; [exact Q2|]. etransitivity; eassumption.
Qed.

(** ** Deletion *)

Lemma filter_out {A} (p : A -> bool) l : List.filter p (List.filter (fun x => negb (p x)) l) = [].
Proof. induction l as [|x l IH]; [reflexivity|]. cbn. destruct (p x) eqn:E; cbn; [exact IH|]. rewrite E. exact IH. Qed.

Lemma no_successors i d : successors i d = [] -> forall j r, qd_quotes d !! j = Some r -> qt_revisionOfQuoteId r <> Some i.
Proof.
  intros E j r Hj Hr. assert (In j (successors i d)) as Hin; [|rewrite E in Hin; exact Hin].
  apply in_map_iff. exists (j, r). split; [reflexivity|]. apply List.filter_In. split; [apply list_elem_of_In, elem_of_map_to_list, Hj|].
  apply bool_decide_eq_true, Hr.
Qed.

Lemma delete_row i o d d' :
  Quotes (Some i) d -> drafting i o d -> quote_lines_of i d = [] -> quote_blocks_of i d = [] ->
  (forall j r, qd_quotes d !! j = Some r -> qt_revisionOfQuoteId r <> Some i) ->
  same_quotes (set_quotes (delete i (qd_quotes d)) d) d' -> Quotes None d' /\ evolves d d'.
Proof.
  intros [A B C E F G T] D Hl Hb Hs S. cut (Quotes None (set_quotes (delete i (qd_quotes d)) d) /\ evolves d (set_quotes (delete i (qd_quotes d)) d)).
  { intros [Q V]. split; [exact (frame _ _ _ S Q)|]. etransitivity; [exact V|exact (frame_evolves _ _ S)]. }
  assert (forall j r, qd_quotes d !! j = Some r -> j <> i -> delete i (qd_quotes d) !! j = Some r) as Hkeep.
  { intros j r Hj Hne. rewrite lookup_delete_ne by congruence. exact Hj. }
  split.
  - constructor; try assumption.
    + intros l Hin. destruct (C l Hin) as ((q & Hq & Eo) & R). split; [|exact R]. exists q. split; [|exact Eo]. apply Hkeep; [exact Hq|]. intros Hi.
      assert (In l (quote_lines_of i d)) as X by (apply List.filter_In; split; [exact Hin|apply String.eqb_eq, Hi]). rewrite Hl in X. exact X.
    + intros b Hin. destruct (E b Hin) as (q & Hq & Eo). exists q. split; [|exact Eo]. apply Hkeep; [exact Hq|]. intros Hi.
      assert (In b (quote_blocks_of i d)) as X by (apply List.filter_In; split; [exact Hin|apply String.eqb_eq, Hi]). rewrite Hb in X. exact X.
    + intros j q Hq. cbn in Hq. apply lookup_delete_Some in Hq as [_ Hq]. exact (F _ _ Hq).
    + destruct G as [P O R N]. constructor; cbn.
      * intros j q p Hq Hp. apply lookup_delete_Some in Hq as [_ Hq]. destruct (P _ _ _ Hq Hp) as (r & Hr & X). exists r. split; [|exact X].
        apply Hkeep; [exact Hr|]. intros ->. exact (Hs _ _ Hq Hp).
      * intros j k q r p Hq Hr. apply lookup_delete_Some in Hq as [_ Hq], Hr as [_ Hr]. exact (O _ _ _ _ _ Hq Hr).
      * intros j q Hq. apply lookup_delete_Some in Hq as [_ Hq]. exact (R _ _ Hq).
      * intros j q Hq. apply lookup_delete_Some in Hq as [_ Hq]. exact (N _ _ Hq).
    + intros j q _ Hq. cbn in Hq. apply lookup_delete_Some in Hq as [Hne Hq]. apply T; [congruence|exact Hq].
  - apply (edit_evolves i o); [exact D| |reflexivity]. intros j Hj. cbn. rewrite lookup_delete_ne by congruence. reflexivity.
Qed.

#[export] Instance deleteDraftQuote_tx i a : QTx (deleteDraftQuote i a).
Proof.
  intros d r d' Q E. unfold deleteDraftQuote, loadDraft in E. apply bind_ok in E as (q & d1 & E1 & E). apply lock_draft_ok in E1 as (-> & Hq & D).
  apply bind_ok in E as (ss & d1 & G & E). apply read_ok in G as [-> ->].
  apply bind_ok in E as (v & d1 & G & E). assert (d1 = d) as -> by exact (pg_reference_ro _ _ _ _ G).
  assert (successors i d = []) as Hs by (unfold pg_reference in G; destruct (successors i d); [reflexivity|discriminate G]). clear G.
  apply bind_ok in E as (w & d1 & G1 & E). apply (delete_lines_ok i (qt_orgId q)) in G1 as ((Q1 & D1 & V1) & El); [|exact (Quotes_stale _ _ Q)|exact D|intros l _ Hl; apply String.eqb_eq, Hl].
  apply bind_ok in E as (w' & d2 & G2 & E). pose proof G2 as G2'. apply (delete_blocks_ok (Some i) i (qt_orgId q)) in G2' as (Q2 & D2 & V2); [|exact Q1|exact D1|intros b Hb; apply String.eqb_eq, Hb].
  assert (quote_lines_of i d2 = [] /\ quote_blocks_of i d2 = [] /\ qd_quotes d2 = qd_quotes d) as (L2 & B2 & E2).
  { unfold delete_blocks, update_lines in G2. apply bind_ok in G2 as (gone & d3 & X & G2). apply read_ok in X as [-> ->]. apply bind_ok in G2 as (x & d3 & X & G2). apply modify_ok in X, G2.
    subst d2 d3 d1. unfold quote_lines_of, quote_blocks_of. cbn. split; [|split; [|reflexivity]].
    - rewrite filter_map_keep by (intros l _; destruct (match ql_blockId l with Some _ => _ | None => _ end); reflexivity).
      rewrite filter_out. reflexivity.
    - apply filter_out. }
  apply bind_ok in E as (x1 & d3 & G3 & E). apply modify_ok in G3. apply bind_ok in E as (x2 & d4 & G4 & E). apply modify_ok in G4. apply modify_ok in E.
  destruct (delete_row i (qt_orgId q) d2 d' Q2 D2 L2 B2) as [Q' V'].
  - rewrite E2. apply no_successors, Hs.
  - subst d' d4 d3. repeat split.
  - split; [exact Q'|]. etransitivity; [exact V1|]. etransitivity; eassumption.
Qed.

(** ** New quotes *)

Lemma maths_none i d : Quotes None d -> qd_quotes d !! i = None -> quote_lines_of i d = [].
Proof.
  intros Q Hn. destruct (quote_lines_of i d) as [|l ls] eqn:El; [reflexivity|]. exfalso.
  assert (In l (quote_lines_of i d)) as Hin by (rewrite El; left; reflexivity). apply List.filter_In in Hin as [Hin Hi]. apply String.eqb_eq in Hi.
  destruct (qi_lines _ _ Q l Hin) as ((q & Hq & _) & _). rewrite Hi in Hq. congruence.
Qed.

(** A row of its own lineage, or the only successor of a quote that was sent. *)
Definition follows (q : Quote) (qs : gmap string Quote) : Prop :=
  match qt_revisionOfQuoteId q with
  | None => True
  | Some p => p <> "" /\ exists r, qs !! p = Some r /\ qt_status r <> qs_draft /\ qt_revisionNumber q = qt_revisionNumber r + 1
  end.

Lemma lineage_insert qs i q :
  lineage qs -> qs !! i = None -> qt_status q = qs_draft -> follows q qs ->
  (qt_revisionOfQuoteId q = None -> qt_revisionNumber q = 1) ->
  (forall p, qt_revisionOfQuoteId q = Some p -> (forall j r, qs !! j = Some r -> qt_revisionOfQuoteId r <> Some p) /\
     forall r, qs !! p = Some r -> qt_orgId r = qt_orgId q) ->
  lineage (<[i := q]> qs).
Proof.
  intros [P O R N] Hi Hd Hf Hr Ho. unfold follows in Hf.
  assert (forall p r, qs !! p = Some r -> <[i := q]> qs !! p = Some r) as Hk by (intros p r Hp; rewrite lookup_insert_ne by congruence; exact Hp).
  constructor.
  - intros j r p Hj Hp. apply lookup_insert_Some in Hj as [[<- <-]|[Hne Hj]].
    + rewrite Hp in Hf. destruct Hf as (_ & x & Hx & H1 & H2). exists x. destruct (Ho p Hp) as [_ Hog]. repeat split; auto. intros Hc. contradiction.
    + destruct (P _ _ _ Hj Hp) as (x & Hx & X). exists x. auto.
  - intros j k r x p Hj Hk' Hp Hp'. apply lookup_insert_Some in Hj as [[<- <-]|[Hne Hj]]; apply lookup_insert_Some in Hk' as [[<- <-]|[Hne' Hk']].
    + reflexivity.
    + destruct (proj1 (Ho p Hp) _ _ Hk' Hp').
    + destruct (proj1 (Ho p Hp') _ _ Hj Hp).
    + exact (O _ _ _ _ _ Hj Hk' Hp Hp').
  - intros j r Hj Hp. apply lookup_insert_Some in Hj as [[<- <-]|[Hne Hj]]; [exact (Hr Hp)|exact (R _ _ Hj Hp)].
  - intros j r Hj. apply lookup_insert_Some in Hj as [[<- <-]|[Hne Hj]]; [|exact (N _ _ Hj)].
    intros E. rewrite E in Hf. destruct Hf as [Hc _]. congruence.
Qed.

Lemma insert_quote_ok i q d u d' :
  Quotes None d -> insert_quote i q d = Ok (u, d') -> qt_status q = qs_draft -> header_ok q -> follows q (qd_quotes d) ->
  (Quotes (Some i) d' /\ drafting i (qt_orgId q) d' /\ evolves d d') /\ qd_quotes d' !! i = Some q /\ quote_lines_of i d' = [].
Proof.
  intros Q E Hd Hk Hf. unfold insert_quote in E.
  apply bind_ok in E as (t & d1 & G & E). apply read_ok in G as [-> ->]. apply bind_ok in E as (u1 & d1 & G & E). assert (d1 = d) as -> by exact (pg_unique_ro _ _ _ _ _ G).
  assert (Hn : qd_quotes d !! i = None) by (unfold pg_unique in G; destruct (qd_quotes d !! i); [discriminate G|reflexivity]). clear G.
  apply bind_ok in E as (fr & d1 & G & E). apply read_ok in G as [-> ->]. apply bind_ro_ok in E as [? E]; [|apply _].
  apply bind_ok in E as (u2 & d1 & G & E).
  assert (d1 = d /\ (qt_revisionOfQuoteId q = None -> qt_revisionNumber q = 1) /\
    (forall p, qt_revisionOfQuoteId q = Some p -> (forall j r, qd_quotes d !! j = Some r -> qt_revisionOfQuoteId r <> Some p) /\
       forall r, qd_quotes d !! p = Some r -> qt_orgId r = qt_orgId q)) as (-> & Hr & Ho).
  { destruct (qt_revisionOfQuoteId q) as [p|].
    - apply bind_ok in G as (os & d2 & G1 & G). apply read_ok in G1 as [-> ->]. apply bind_ok in G as (v & d2 & G1 & G). assert (d2 = d) as -> by exact (pg_unique_ro _ _ _ _ _ G1).
      apply bind_ok in G as (row & d2 & G2 & G). apply read_ok in G2 as [-> ->]. apply bind_ok in G as (v' & d2 & G2 & G). assert (d2 = d) as -> by exact (pg_reference_ro _ _ _ _ G2).
      apply pg_check_ok in G as [_ ->]. split; [reflexivity|]. split; [discriminate|]. intros p' [= <-]. split.
      + apply no_successors. unfold pg_unique in G1. destruct (successors p d); [reflexivity|discriminate G1].
      + intros r Hr. rewrite Hr in G2. unfold pg_reference in G2. destruct (String.eqb_spec (qt_orgId r) (qt_orgId q)); [assumption|discriminate G2].
    - apply pg_check_ok in G as [G ->]. split; [reflexivity|]. split; [|discriminate]. intros _. apply Z.eqb_eq, G. }
  clear G. apply modify_ok in E. subst d'. pose proof (maths_none i d Q Hn) as Hl. pose proof Q as [A B C E F L T].
  assert (forall p r, qd_quotes d !! p = Some r -> <[i := q]> (qd_quotes d) !! p = Some r) as Hkeep by (intros p r Hp; rewrite lookup_insert_ne by congruence; exact Hp).
  split; [split; [|split]|split; [apply lookup_insert_eq|exact Hl]].
  - constructor; try assumption.
    + intros l Hin. destruct (C l Hin) as ((r & Hq & Eo) & X). split; [exists r; split; [apply Hkeep, Hq|exact Eo]|exact X].
    + intros b Hin. destruct (E b Hin) as (r & Hq & Eo). exists r. split; [apply Hkeep, Hq|exact Eo].
    + intros j r Hj. cbn in Hj. apply lookup_insert_Some in Hj as [[_ <-]|[_ Hj]]; [exact Hk|exact (F _ _ Hj)].
    + apply lineage_insert; assumption.
    + intros j r Hj Hr0. cbn in Hr0. rewrite lookup_insert_ne in Hr0 by congruence. apply T; [discriminate|exact Hr0].
  - exists q. split; [apply lookup_insert_eq|auto].
  - intros j r Hj Hs. exists r. split; [apply Hkeep, Hj|]. split; [apply same_document_refl, Hs|reflexivity].
Qed.

Lemma totals_close i q d : Quotes (Some i) d -> qd_quotes d !! i = Some q -> row_totals q (maths i d) -> Quotes None d.
Proof.
  intros [A B C E F G T] Hq Hr. constructor; try assumption. intros j r _ Hj. destruct (decide (j = i)) as [->|Hne]; [congruence|apply T; congruence].
Qed.

(** A new quote is worth nothing. *)
Lemma empty_totals rate cur :
  (forall r, rate = Some r -> exists x, r = Fin x) ->
  exists t, computeQuoteTotals [] rate (Some deposit_none) cur = Ok t /\ stored_totals t = Ok (zero_totals, None).
Proof.
  intros Hr. assert (forall r, match rate with Some r => r | None => ofZ 0 end = r -> tax_cents (ofZ 0) r = ofZ 0) as Ht.
  { intros r <-. destruct rate as [r|]; [|reflexivity]. destruct (Hr r eq_refl) as [x ->]. unfold tax_cents, js_mul, ofZ.
    rewrite (fin_eq _ 0%Q) by (unfold Qeq; cbn; lia). reflexivity. }
  assert (round_cents_to (ofZ 0) cur = Ok "0.00") as Hz by (apply (round_cents_exact cur 0); [reflexivity|exists 0; reflexivity]).
  unfold computeQuoteTotals. cbn [accumulate rbind a_oneTime a_monthly a_annual a_taxableBasis a_oneTimeTaxableBasis acc0 a_cat].
  assert (js_add (ofZ 0) (ofZ 0) = ofZ 0) as Ha by reflexivity. rewrite !(Ht _ eq_refl), !Ha.
  cbn [deposit_cents deposit_due rbind]. rewrite !Hz. cbn [rbind breakdown CATEGORY_ORDER a_cat acc0]. eexists. split; [reflexivity|]. vm_compute. reflexivity.
Qed.

Lemma stored_rate_finite r x : pg_rate r = Ok r -> parsed_rate (Some r) = Some x -> exists v, x = Fin v.
Proof.
  unfold parsed_rate, truthy. intros E. destruct (String.eqb r ""); [discriminate|]. cbn. intros [= <-].
  apply pg_rate_text in E as (ng & m & Hm & _ & ->). rewrite parseFloat_rate, rate_fin by lia. eauto.
Qed.

(** The row of a new quote, whatever its currency and rate. *)
Lemma new_quote i q d u d' :
  Quotes None d -> insert_quote i q d = Ok (u, d') -> qt_status q = qs_draft -> header_ok q -> qt_revisionOfQuoteId q = None ->
  qt_money q = zero_totals -> qt_deposit q = mkQuoteDeposit ty_none None None -> Quotes None d' /\ evolves d d'.
Proof.
  intros Q E Hd Hk Hr Hm Hdep. destruct (insert_quote_ok i q d u d' Q E Hd Hk) as ((Q' & D' & V') & Hq & Hl); [unfold follows; rewrite Hr; exact I|].
  split; [|exact V']. apply (totals_close i q _ Q' Hq). unfold maths. rewrite Hl. unfold row_totals, deposit_config. rewrite Hm, Hdep. cbn [map dp_type dp_percent option_map dp_amount].
  apply empty_totals. intros r Hx. destruct (qt_taxRate q) as [t|] eqn:Et; [|discriminate Hx]. exact (stored_rate_finite t r (proj1 Hk _ Et) Hx).
Qed.

#[export] Instance createQuote_keeps now input a : QKeeps (createQuote now input a).
Proof.
  unfold createQuote. apply run_qkeeps; [apply tx_qkeeps, ro_tx; solve_ro|]. intros [p rate]. apply run_qkeeps; [apply _|]. intros c. apply tx_qkeeps.
  intros d r d' Q E. apply bind_ok in E as (cur & d1 & G & E).
  assert (same_quotes d d1) as S1 by (destruct (ci_currencyCode input); [apply ret_ok in G as [_ ->]; reflexivity|exact (in_billing_aside _ _ _ _ G)]).
  apply bind_ok in E as (rt & d2 & G2 & E). apply lift_ok in G2 as [Gr ->]. apply bind_ok in E as (i & d2 & G2 & E). apply mint_aside in G2.
  assert (S2 : same_quotes d d2) by (etransitivity; eassumption).
  apply bind_ok in E as (u & d3 & G3 & E). apply ret_ok in E as [_ ->].
  apply new_quote in G3 as [Q3 V3]; try reflexivity; [|exact (frame _ _ _ S2 Q)|].
  - split; [exact Q3|]. etransitivity; [exact (frame_evolves _ _ S2)|exact V3].
  - split; cbn; [intros x Hx; exact (pg_rate_opt_idem _ _ _ Gr Hx)|congruence].
Qed.

(** ** Copies *)

Lemma fresh_ids_ok old : forall d ids d', fresh_ids old d = Ok (ids, d') -> same_quotes d d' /\ forall o, In o old -> exists n, new_id ids o = Some n.
Proof.
  induction old as [|o old IH]; intros d ids d' E; cbn [fresh_ids] in E.
  - apply ret_ok in E as [_ ->]. split; [reflexivity|intros o []].
  - apply bind_ok in E as (n & d1 & G & E). apply bind_ok in E as (more & d2 & G2 & E). apply ret_ok in E as [-> ->].
    destruct (IH _ _ _ G2) as [S2 N]. split; [etransitivity; [exact (mint_aside _ _ _ G)|exact S2]|].
    intros x Hx. unfold new_id. cbn [List.find fst]. destruct (String.eqb_spec o x) as [->|Hne]; [exists n; reflexivity|].
    destruct Hx as [Hx|Hx]; [congruence|]. exact (N x Hx).
Qed.

(** Block writes leave the lines and the headers. *)
Definition lines_aside (d d' : QuoteDb) : Prop := qd_lines d' = qd_lines d /\ qd_quotes d' = qd_quotes d.
Class LinesAside {A} (x : QM A) : Prop := lines_kept : forall d a d', x d = Ok (a, d') -> lines_aside d d'.

#[export] Instance insert_block_lines b : LinesAside (insert_block b).
Proof.
  intros d a d' E. unfold insert_block in E. apply bind_ro_ok in E as [? E]; [|apply _]. apply bind_ro_ok in E as [? E]; [|apply _].
  apply modify_ok in E as ->. split; reflexivity.
Qed.
#[export] Instance ro_lines_aside {A} (x : QM A) : ReadOnly x -> LinesAside x.
Proof. intros R d a d' E. apply R in E as ->. split; reflexivity. Qed.
Lemma for_each_lines_aside {A} (f : A -> QM unit) l : (forall a, LinesAside (f a)) -> LinesAside (for_each f l).
Proof.
  intros Hf. induction l as [|x l IH]; intros d a d' E; cbn [for_each] in E; [apply ret_ok in E as [_ ->]; split; reflexivity|].
  apply bind_ok in E as (u & d1 & G & E). destruct (Hf _ _ _ _ G) as [A1 B1], (IH _ _ _ E) as [A2 B2]. split; congruence.
Qed.

(** What a copy takes from its source. *)
Definition copied (ls : list QuoteLine) : Prop := forall l, In l ls -> ql_parentLineId l = None /\ store_math (ql_math l) = Ok (ql_math l).

Lemma clone_lines_ok i t oc bids lids fb ls : forall d u d',
  Quotes (Some i) d -> drafting i t d -> copied ls -> (forall l, In l ls -> exists n, new_id lids (ql_id l) = Some n) ->
  clone_lines i t oc bids lids fb ls d = Ok (u, d') ->
  (Quotes (Some i) d' /\ drafting i t d' /\ evolves d d') /\ maths i d' = (maths i d ++ map ql_math ls)%list /\ qd_quotes d' = qd_quotes d.
Proof.
  unfold clone_lines. induction ls as [|l ls IH]; intros d u d' Q D K N E; cbn [for_each] in E.
  - apply ret_ok in E as [_ ->]. cbn. rewrite app_nil_r. split; [split; [exact Q|split; [exact D|reflexivity]]|auto].
  - apply bind_ok in E as (v & d1 & G & E). destruct (N l (or_introl eq_refl)) as [n Hn]. rewrite Hn in G. destruct (K l (or_introl eq_refl)) as [Hp Hm].
    apply bind_ok in G as (st & d2 & G & G2). apply ret_ok in G2 as [_ ->]. rewrite Hp in G.
    apply (insert_line_ok i t) in G as (Q2 & D2 & V2 & Ed & Es); try assumption; try reflexivity.
    destruct (IH d2 u d' Q2 D2) as ((Q3 & D3 & V3) & M3 & E3); [intros x Hx; apply K; right; exact Hx|intros x Hx; apply N; right; exact Hx|exact E|].
    split; [split; [exact Q3|split; [exact D3|etransitivity; eassumption]]|]. split; [|rewrite E3, Ed; reflexivity].
    rewrite M3. pose proof (store_line_math _ _ Es) as Hs. cbn [ql_math cloned_line] in Hs. rewrite Hm in Hs. injection Hs as Hs.
    assert (maths i d2 = (maths i d ++ [ql_math l])%list) as ->; [|rewrite <- app_assoc; reflexivity].
    rewrite Ed, !maths_rows, rows_app. unfold store_line in Es. repeat (apply rbind_ok in Es as (? & _ & Es)). injection Es as Es.
    rewrite <- Es at 1. cbn [List.filter ql_quoteId cloned_line]. rewrite String.eqb_refl, map_app. cbn. rewrite <- Es in Hs. cbn in Hs. rewrite Hs. reflexivity.
Qed.

Lemma stored_same rate rate' : (rate = None \/ (exists n, 0 <= n /\ rate = Some (fixed_digits 5 n)) \/ exists r, rate = Some r /\ pg_rate r = Ok r) ->
  pg_rate_opt rate = Ok rate' -> rate' = rate.
Proof.
  intros Hc E. destruct Hc as [->|[(n & Hn & ->)|(r & -> & Hr)]]; cbn in E; [congruence| |rewrite Hr in E; cbn in E; congruence].
  apply rbind_ok in E as (y & Hy & [= <-]). rewrite (pg_rate_plain n y Hn Hy). reflexivity.
Qed.

(** The rate a copy is given. *)
Definition copied_rate (rate : option string) : Prop := forall r, pg_rate_opt rate = Ok r -> r = rate.
Definition copied_revision (rv : option CloneRevision) (qs : gmap string Quote) : Prop :=
  match rv with
  | None => True
  | Some r => exists p, qs !! rv_revisionOfQuoteId r = Some p /\ qt_status p <> qs_draft /\ rv_revisionNumber r = qt_revisionNumber p + 1
  end.

Lemma write_clone_ok src t oc number title rate rv a d r d' :
  Quotes None d -> copied (qv_lines src) -> copied_rate rate -> copied_revision rv (qd_quotes d) ->
  write_clone resolver src t oc number title rate rv a d = Ok (r, d') -> Quotes None d' /\ evolves d d'.
Proof.
  intros Q K Hrate Hrv E. unfold write_clone in E. cbv zeta in E.
  apply bind_ok in E as (i & d1 & G & E). apply mint_aside in G as S1.
  apply bind_ok in E as (bids & d2 & G2 & E). apply fresh_ids_ok in G2 as [S2 _].
  apply bind_ok in E as (lids & d3 & G3 & E). apply fresh_ids_ok in G3 as [S3 N].
  apply bind_ok in E as (tot & d4 & G4 & E). apply lift_throw_ok in G4 as [Gt ->].
  apply bind_ok in E as (fb & d4 & G4 & E).
  assert (same_quotes d3 d4 /\ (forall b, snd fb = Some b -> qb_quoteId b = i /\ qb_orgId b = t)) as [S4 Hfb].
  { unfold fallback_block in G4. destruct (existsb _ _); [destruct (List.find _ _)|].
    2: { apply bind_ok in G4 as (x & d5 & G5 & G4). apply ret_ok in G4 as [-> ->]. split; [exact (mint_aside _ _ _ G5)|]. intros b [= <-]. auto. }
    all: apply ret_ok in G4 as [-> ->]; split; [reflexivity|discriminate]. }
  apply bind_ok in E as (u5 & d5 & G5 & E). assert (same_quotes d4 d5) as S5.
  { destruct oc; [|apply ret_ok in G5 as [_ ->]; reflexivity]. revert G5. apply bind_aside; [apply _|intros ?; apply _]. }
  apply bind_ok in E as (st & d6 & G6 & E). apply lift_ok in G6 as [Gs ->]. apply bind_ok in E as (rt & d6 & G6 & E). apply lift_ok in G6 as [Gr ->].
  pose proof (Hrate _ Gr) as Er. subst rt. apply bind_ok in E as (lg & d6 & G6 & E).
  assert (S : same_quotes d d5) by (repeat (etransitivity; [eassumption|]); reflexivity). clear S1 S2 S3 S4 S5.
  assert (d6 = d5 /\ follows (cloned_header (qv_quote src) t oc number title rate lg st (ac_userId a)) (qd_quotes d5)) as [-> Hf].
  { unfold follows. cbn [qt_revisionOfQuoteId qt_revisionNumber cloned_header]. destruct rv as [rv|]; [|apply ret_ok in G6 as [-> ->]; split; [reflexivity|exact I]].
    apply bind_ok in G6 as (x & d7 & G7 & G6). apply require_ok in G7 as [Gv ->]. apply ret_ok in G6 as [-> ->]. split; [reflexivity|]. cbn [fst snd].
    rewrite (proj1 S). split; [intros Hc; rewrite Hc in Gv; discriminate Gv|exact Hrv]. }
  apply bind_ok in E as (u7 & d7 & G7 & E). apply insert_quote_ok in G7 as ((Q7 & D7 & V7) & Hq & Hl); [|exact (frame _ _ _ S Q)|reflexivity| |exact Hf].
  2: { split; [|cbn; congruence]. cbn. intros x Hx. exact (pg_rate_opt_idem _ _ _ Gr Hx). }
  cbn [qt_orgId cloned_header] in D7. apply bind_ok in E as (u8 & d8 & G8 & E). pose proof G8 as B8.
  assert (QStep (Some i) i t (for_each (fun b => match new_id bids (qb_id b) with Some id => insert_block (cloned_block i t id b) | None => ret tt end) (qv_blocks src))) as C8.
  { apply for_each_step. intros b. destruct (new_id bids (qb_id b)); [apply insert_block_step; reflexivity|apply _]. }
  destruct (C8 _ _ _ Q7 D7 G8) as (Q8 & D8 & V8).
  assert (Keep : LinesAside (for_each (fun b => match new_id bids (qb_id b) with Some id => insert_block (cloned_block i t id b) | None => ret tt end) (qv_blocks src)))
    by (apply for_each_lines_aside; intros b; destruct (new_id bids (qb_id b)); apply _).
  apply Keep in B8. clear Keep C8.
  apply bind_ok in E as (u9 & d9 & G9 & E). assert ((Quotes (Some i) d9 /\ drafting i t d9 /\ evolves d8 d9) /\ lines_aside d8 d9) as ((Q9 & D9 & V9) & B9).
  { destruct (snd fb) as [b|]; [|apply ret_ok in G9 as [_ ->]; split; [split; [exact Q8|split; [exact D8|reflexivity]]|split; reflexivity]].
    destruct (Hfb b eq_refl) as [H1 H2]. split; [exact (insert_block_ok _ _ _ _ _ _ _ Q8 D8 H1 H2 G9)|exact (insert_block_lines _ _ _ _ G9)]. }
  apply bind_ok in E as (u10 & d10 & G10 & E). apply clone_lines_ok in G10 as ((Q10 & D10 & V10) & M10 & E10); [|exact Q9|exact D9|exact K|intros l Hin; apply N, in_map, Hin].
  apply bind_ok in E as (u11 & d11 & G11 & E). apply ret_ok in E as [_ ->].
  assert (evolves d d10) as V by (etransitivity; [exact (frame_evolves _ _ S)|]; etransitivity; [exact V7|]; etransitivity; [exact V8|]; etransitivity; eassumption).
  destruct (oc && _).
  - apply bind_ok in G11 as (u12 & d12 & G12 & G11). destruct (recount_step resolver i t _ _ _ _ _ _ Q10 D10 G12) as (Q12 & D12 & V12).
    destruct (recompute_close i t _ _ _ Q12 D12 G11) as (Q13 & V13). split; [exact Q13|]. etransitivity; [exact V|]. etransitivity; eassumption.
  - apply ret_ok in G11 as [_ ->]. split; [|exact V]. destruct B8 as [L8 R8], B9 as [L9 R9].
    apply (totals_close i (cloned_header (qv_quote src) t oc number title rate lg st (ac_userId a))); [exact Q10|rewrite E10, R9, R8; exact Hq|].
    rewrite M10. assert (maths i d9 = []) as -> by (unfold maths, quote_lines_of; rewrite L9, L8; fold (quote_lines_of i d7); rewrite Hl; reflexivity).
    exists tot. split; [exact Gt|]. rewrite Gs. destruct st. reflexivity.
Qed.

Lemma quote_row_ok i d q d' : quote_row i d = Ok (q, d') -> d' = d /\ qd_quotes d !! i = Some q.
Proof.
  unfold quote_row. intros E. apply bind_ok in E as (row & d1 & G & E). apply read_ok in G as [-> ->].
  destruct (qd_quotes d !! i); [apply ret_ok in E as [-> ->]; auto|discriminate E].
Qed.

Lemma getQuote_ok i a d r d' :
  getQuote i a d = Ok (r, d') ->
  d' = d /\ qd_quotes d !! i = Some (qv_quote r) /\ qv_lines r = lines_in_order i d /\
  quote_totals (qv_quote r) (lines_in_order i d) = Ok (qv_totals r).
Proof.
  intros E. unfold getQuote in E. apply bind_ok in E as (q & d1 & G & E). apply quote_row_ok in G as [-> Hq].
  apply bind_ro_ok in E as [? E]; [|apply _]. apply bind_ok in E as (bs & d1 & G & E). apply read_ok in G as [-> ->].
  apply bind_ok in E as (ls & d1 & G & E). apply read_ok in G as [-> ->]. apply bind_ok in E as (tot & d1 & G & E). apply lift_throw_ok in G as [Gt ->].
  apply bind_ro_ok in E as [? E]; [|apply _]. apply bind_ro_ok in E as [? E]; [|apply _]. cbv zeta in E.
  destruct (match qt_status q with qs_draft => _ | _ => _ end) as [[name addr] tid] in E. apply ret_ok in E as [-> ->]. auto.
Qed.

Lemma lines_copied s i d : Quotes s d -> copied (lines_in_order i d).
Proof.
  intros Q l Hl. apply order_by_in, List.filter_In in Hl as [Hl _]. destruct (qi_lines _ _ Q l Hl) as (_ & Hp & [_ Hm] & _). auto.
Qed.

Lemma clone_source_ok i a org d src t oc rate d' :
  Quotes None d -> clone_source i a org d = Ok ((src, t, oc, rate), d') ->
  d' = d /\ copied (qv_lines src) /\ copied_rate rate.
Proof.
  intros Q E. unfold clone_source in E. cbv zeta in E. apply bind_ok in E as (s & d1 & G & E). apply getQuote_ok in G as (-> & Hq & Hl & _).
  apply bind_ok in E as (rt & d1 & G & E). apply ret_ok in E as [[= -> -> -> ->] ->].
  assert (copied (qv_lines s)) as K by (rewrite Hl; exact (lines_copied _ _ _ Q)).
  destruct (negb _).
  - do 4 (apply bind_ro_ok in G as [? G]; [|solve [solve_ro]]). assert (d1 = d) as -> by exact (resolveQuoteTaxRate_ro _ _ _ _ _ G).
    split; [reflexivity|]. split; [exact K|]. intros r Er. apply (stored_same rt r); [|exact Er]. destruct (resolved_rate _ _ _ _ _ G) as [->|X]; auto.
  - apply ret_ok in G as [-> ->]. split; [reflexivity|]. split; [exact K|]. intros r Er. apply (stored_same _ r); [|exact Er].
    destruct (qt_taxRate (qv_quote s)) as [x|] eqn:Ex; [|auto]. right. right. exists x. split; [reflexivity|]. exact (proj1 (qi_headers _ _ Q _ _ Hq) _ Ex).
Qed.

Lemma cloneQuoteCore_ok now i a org title rv d :
  Quotes None d -> copied_revision rv (qd_quotes d) -> kept d (after (cloneQuoteCore resolver now i a org title rv) d).
Proof.
  intros Q R. assert (kept d d) as Hd by (split; [exact Q|reflexivity]). unfold cloneQuoteCore. apply run_from; [|exact Hd].
  intros [[[src t] oc] rate] d1 E. apply bind_ok in E as (u & d0 & G & E). apply require_ok in G as [_ ->].
  apply (clone_source_ok _ _ _ _ _ _ _ _ _ Q) in E as (-> & K & Hr). cbv zeta.
  assert (forall number title d2, same_quotes d d2 -> kept d (after (tx (write_clone resolver src t oc number title rate rv a)) d2)) as W.
  { intros number tt d2 S2. apply tx_from; [|exact (kept_frame _ _ Q S2)]. intros r d3 E. apply (kept_after _ d2); [exact (frame_evolves _ _ S2)|].
    apply (write_clone_ok _ _ _ _ _ _ _ _ _ _ _ (frame _ _ _ S2 Q) K Hr) with (2 := E). rewrite (proj1 S2). exact R. }
  destruct rv as [rv|]; [apply (W _ _ d); reflexivity|]. unfold after. rewrite run_assoc. apply (run_from (kept d)); [|exact Hd].
  intros c d2 E. apply counter_aside in E. exact (W _ _ d2 E).
Qed.

#[export] Instance cloneQuote_keeps now i a org title : QKeeps (cloneQuote resolver now i a org title).
Proof. intros d Q. apply cloneQuoteCore_ok; [exact Q|exact I]. Qed.

#[export] Instance lineage_root_ro n q : ReadOnly (lineage_root n q).
Proof. revert q. induction n as [|n IH]; intros q; cbn; destruct (qt_revisionOfQuoteId q); solve_ro. Qed.

Lemma revision_of_ok i a d r d' : revision_of i a d = Ok (r, d') -> d' = d /\ copied_revision (Some r) (qd_quotes d).
Proof.
  intros E. unfold revision_of in E. cbv zeta in E. apply bind_ok in E as (s & d1 & G & E). apply getQuote_ok in G as (-> & Hq & _).
  apply bind_ok in E as (u & d1 & G & E). assert (d1 = d /\ qt_status (qv_quote s) <> qs_draft) as [-> Hs].
  { destruct (qt_status (qv_quote s)); try discriminate G; apply require_ok in G as [_ ->]; split; (reflexivity || discriminate). }
  do 2 (apply bind_ro_ok in E as [? E]; [|apply _]). apply bind_ro_ok in E as [? E]; [|apply _]. apply bind_ok in E as (root & d1 & G2 & E).
  assert (d1 = d) as -> by exact (lineage_root_ro _ _ _ _ _ G2). destruct (truthy _); [|discriminate E]. apply ret_ok in E as [-> ->].
  split; [reflexivity|]. exists (qv_quote s). auto.
Qed.

#[export] Instance reviseQuote_keeps now i a : QKeeps (reviseQuote resolver now i a).
Proof.
  intros d Q. unfold reviseQuote. apply (run_from (kept d)); [|split; [exact Q|reflexivity]]. intros rv d1 E. apply revision_of_ok in E as [-> R].
  pose proof (cloneQuoteCore_ok now i a None None (Some rv) d Q R) as X. unfold after, catch in *.
  destruct (cloneQuoteCore _ _ _ _ _ _ _ d) as [[r|[c|x]] d2]; cbn [snd] in *; try exact X. destruct (String.eqb x _); exact X.
Qed.
End Ops.
