(* ===== verification/QuoteLife.v ===== *)
(** * The life of a sent quote keeps the quote tables

    Views, declines and expiry change the state of a quote and nothing a customer
    was shown; the claim that sends a draft retires the quote it revises in the
    same transaction; an acceptance converts one open quote. *)

From Stdlib Require Import QArith.
From S2P Require Import Prelude JsString JsNumber Currency IsoDate QuoteMath InvoiceMath ContractMath TimeBilling CatalogPricing ContractCoverage BillingDb InvoiceService InvoiceLifecycle InvoiceInvariants ContractService QuoteDb QuoteConversion QuoteService QuoteLifecycle RateColumn QuoteInvariants QuoteOperations.
From stdpp Require Import base gmap strings list.

Local Open Scope string_scope.
Local Open Scope Z_scope.
Local Open Scope billing_scope.

(** ** The row of a quote rewritten in place *)

Lemma row_totals_same q q' ms :
  qt_taxRate q' = qt_taxRate q -> qt_deposit q' = qt_deposit q -> qt_currencyCode q' = qt_currencyCode q -> qt_money q' = qt_money q ->
  row_totals q ms -> row_totals q' ms.
Proof. unfold row_totals, deposit_config. intros -> -> -> ->. auto. Qed.

(** Rows replaced without touching lines and blocks. *)
Lemma quotes_write qs d :
  Quotes None d ->
  (forall i q, qd_quotes d !! i = Some q -> exists q', qs !! i = Some q' /\ qt_orgId q' = qt_orgId q) ->
  (forall i q', qs !! i = Some q' -> header_ok q' /\ exists q, qd_quotes d !! i = Some q /\
     qt_taxRate q' = qt_taxRate q /\ qt_deposit q' = qt_deposit q /\ qt_currencyCode q' = qt_currencyCode q /\ qt_money q' = qt_money q) ->
  lineage qs -> Quotes None (set_quotes qs d).
Proof.
  intros [A B C E F G T] Hfw Hbw L. constructor; try assumption.
  - intros l Hl. destruct (C l Hl) as ((q & Hq & Eo) & X). split; [|exact X]. destruct (Hfw _ _ Hq) as (q' & Hq' & Eo'). exists q'. split; [exact Hq'|congruence].
  - intros b Hb. destruct (E b Hb) as (q & Hq & Eo). destruct (Hfw _ _ Hq) as (q' & Hq' & Eo'). exists q'. split; [exact Hq'|congruence].
  - intros i q' Hq'. apply (Hbw _ _ Hq').
  - intros i q' _ Hq'. destruct (Hbw _ _ Hq') as (_ & q & Hq & E1 & E2 & E3 & E4). apply (row_totals_same q); try assumption. exact (T i q ltac:(discriminate) Hq).
Qed.

Definition draft_alike (q q' : Quote) : Prop := qt_status q = qs_draft <-> qt_status q' = qs_draft.
Definition settles (q q' : Quote) : Prop :=
  settled q = true -> qt_status q' = qt_status q /\ (qt_convertedInvoiceId q' = qt_convertedInvoiceId q \/ qt_convertedInvoiceId q' = None).

Lemma lineage_row qs i q q' :
  lineage qs -> qs !! i = Some q -> document q' = document q -> draft_alike q q' -> settles q q' -> lineage (<[i := q']> qs).
Proof.
  intros [P O R N] Hi Hdoc Hd Hs. assert (qt_orgId q' = qt_orgId q /\ qt_revisionOfQuoteId q' = qt_revisionOfQuoteId q /\ qt_revisionNumber q' = qt_revisionNumber q) as (Eo & Er & En)
    by (unfold document in Hdoc; repeat split; congruence). unfold draft_alike in Hd.
  assert (Hback : forall j r', <[i := q']> qs !! j = Some r' -> exists r, qs !! j = Some r /\ qt_orgId r' = qt_orgId r /\ qt_revisionOfQuoteId r' = qt_revisionOfQuoteId r /\
    qt_revisionNumber r' = qt_revisionNumber r /\ (qt_status r' <> qs_draft -> qt_status r <> qs_draft)).
  { intros j r' Hj. apply lookup_insert_Some in Hj as [[<- <-]|[_ Hj]]; [exists q; intuition|exists r'; intuition]. }
  constructor.
  - intros j r' p Hj Hp. destruct (Hback _ _ Hj) as (r & Hr & E1 & E2 & E3 & E4). destruct (P j r p Hr ltac:(congruence)) as (x & Hx & X1 & X2 & X3 & X4).
    destruct (decide (p = i)) as [->|Hne].
    + exists q'. rewrite lookup_insert_eq. assert (x = q) as -> by congruence. split; [reflexivity|]. split; [congruence|]. split; [tauto|]. split; [congruence|].
      intros Hn. specialize (X4 (E4 Hn)). destruct (Hs ltac:(unfold settled; rewrite X4; reflexivity)) as [-> _]. exact X4.
    + exists x. rewrite lookup_insert_ne by congruence. split; [exact Hx|]. split; [congruence|]. split; [exact X2|]. split; [congruence|]. auto.
  - intros j k r x p Hj Hk Hp Hp'. destruct (Hback _ _ Hj) as (r0 & Hr & _ & E2 & _). destruct (Hback _ _ Hk) as (x0 & Hx & _ & E2' & _).
    apply (O j k r0 x0 p); congruence.
  - intros j r Hj Hp. destruct (Hback _ _ Hj) as (r0 & Hr & _ & E2 & E3 & _). rewrite E3. apply (R j); congruence.
  - intros j r Hj. destruct (Hback _ _ Hj) as (r0 & Hr & _ & E2 & _). rewrite E2. exact (N j r0 Hr).
Qed.

Lemma row_write i q q' d d' :
  Quotes None d -> qd_quotes d !! i = Some q -> document q' = document q -> draft_alike q q' -> settles q q' -> header_ok q' ->
  same_quotes (set_quotes (<[i := q']> (qd_quotes d)) d) d' -> kept d d'.
Proof.
  intros Q Hi Hdoc Hd Hs Hk S. cut (kept d (set_quotes (<[i := q']> (qd_quotes d)) d)).
  { intros [Q1 V1]. apply (kept_after _ _ _ V1), kept_frame; assumption. }
  assert (qt_orgId q' = qt_orgId q /\ qt_taxRate q' = qt_taxRate q /\ qt_deposit q' = qt_deposit q /\ qt_currencyCode q' = qt_currencyCode q /\ qt_money q' = qt_money q)
    as (Eo & E1 & E2 & E3 & E4) by (unfold document in Hdoc; repeat split; congruence).
  split.
  - apply quotes_write; [exact Q| | |apply (lineage_row _ _ q); try assumption; apply Q].
    + intros j r Hj. destruct (decide (j = i)) as [->|Hne]; [exists q'; rewrite lookup_insert_eq; split; congruence|exists r; rewrite lookup_insert_ne by congruence; auto].
    + intros j r' Hj. apply lookup_insert_Some in Hj as [[<- <-]|[_ Hj]]; [split; [exact Hk|exists q; auto 6]|].
      split; [exact (qi_headers _ _ Q _ _ Hj)|exists r'; auto 6].
  - intros j r Hj Hr. destruct (decide (j = i)) as [->|Hne].
    + exists q'. cbn. rewrite lookup_insert_eq. assert (r = q) as -> by congruence. split; [reflexivity|]. split; [|reflexivity].
      split; [exact Hdoc|]. split; [intros Hc; apply Hr, Hd, Hc|exact Hs].
    + exists r. cbn. rewrite lookup_insert_ne by congruence. split; [exact Hj|]. split; [apply same_document_refl, Hr|reflexivity].
Qed.

Lemma update_quote_if_ok i p f d b d' :
  update_quote_if i p f d = Ok (b, d') ->
  (b = false /\ d' = d) \/ (b = true /\ exists q, qd_quotes d !! i = Some q /\ p q = true /\ d' = set_quotes (<[i := f q]> (qd_quotes d)) d).
Proof.
  unfold update_quote_if. intros E. apply bind_ok in E as (row & d1 & G & E). apply read_ok in G as [-> ->].
  destruct (qd_quotes d !! i) as [q|] eqn:Hq; [|apply ret_ok in E as [-> ->]; auto]. destruct (p q) eqn:Hp; [|apply ret_ok in E as [-> ->]; auto].
  apply bind_ok in E as (u & d1 & G & E). apply ret_ok in E as [-> ->]. right. split; [reflexivity|]. exists q. rewrite (update_quote_ok _ _ _ _ _ _ Hq G). auto.
Qed.

(** What a step in the life of a quote may make of its row. *)
Definition advances (q q' : Quote) : Prop := document q' = document q /\ draft_alike q q' /\ settles q q' /\ header_ok q'.

Lemma update_if_tx i p f : (forall q, header_ok q -> p q = true -> advances q (f q)) -> QTx (update_quote_if i p f).
Proof.
  intros Hf d b d' Q E. apply update_quote_if_ok in E as [[_ ->]|(_ & q & Hq & Hp & ->)]; [split; [exact Q|reflexivity]|].
  destruct (Hf q (qi_headers _ _ Q _ _ Hq) Hp) as (H1 & H2 & H3 & H4). apply (row_write i q (f q) d); try assumption. reflexivity.
Qed.

(** An open quote has no invoice. *)
Lemma open_advances q q' :
  header_ok q -> open_status q = true -> document q' = document q -> qt_convertedInvoiceId q' = qt_convertedInvoiceId q ->
  qt_status q' <> qs_draft -> qt_status q' <> qs_converted -> advances q q'.
Proof.
  intros [Hr Hc] Ho Hd Hi H1 H2. split; [exact Hd|]. unfold open_status in Ho. split; [|split].
  - split; intros X; [rewrite X in Ho; discriminate|contradiction].
  - intros X. unfold settled in X. destruct (qt_status q); discriminate.
  - split; [replace (qt_taxRate q') with (qt_taxRate q) by (unfold document in Hd; congruence); exact Hr|]. rewrite Hi.
    intros X. apply Hc in X. rewrite X in Ho. discriminate.
Qed.

Ltac solve_tx :=
  repeat match goal with
  | |- QTx (match ?x with _ => _ end) => destruct x
  | |- QTx (if ?x then _ else _) => destruct x
  | |- QTx (bind _ _) => apply bind_tx; [|intros ?]
  | |- QTx (update_quote_if _ _ _) => apply update_if_tx; intros ? ? ?
  | |- QTx _ => first [apply _|apply ro_tx; solve [solve_ro]]
  end.

Section Life.
Context `{Uuids}.

Lemma viewed_advances now q : header_ok q -> advances q (viewed_row now q).
Proof.
  intros [Hr Hc]. split; [reflexivity|]. unfold draft_alike, settles, settled, header_ok. cbn.
  split; [destruct (qt_status q); split; congruence|]. split; [destruct (qt_status q); intros X; split; auto; congruence|].
  split; [exact Hr|]. intros X. rewrite (Hc X). reflexivity.
Qed.

#[export] Instance markQuoteViewed_tx now i o : QTx (markQuoteViewed now i o).
Proof.
  intros d r d' Q E. unfold markQuoteViewed in E. apply bind_ok in E as (row & d1 & G & E). apply read_ok in G as [-> ->].
  destruct (qd_quotes d !! i) as [q|]; [|apply ret_ok in E as [_ ->]; split; [exact Q|reflexivity]].
  revert Q E. match goal with |- _ -> ?x d = _ -> _ => enough (QTx x) as X by exact (X d r d') end. solve_tx.
  apply viewed_advances. assumption.
Qed.

#[export] Instance declineQuoteByActor_tx now i reason a : QTx (declineQuoteByActor now i reason a).
Proof. unfold declineQuoteByActor. cbv zeta. solve_tx. apply open_advances; (assumption || reflexivity || discriminate). Qed.

#[export] Instance declinePublicQuote_tx now i jti orgs reason : QTx (declinePublicQuote now i jti orgs reason).
Proof.
  unfold declinePublicQuote. solve_tx. match goal with X : (_ && _) = true |- _ => apply andb_true_iff in X as [X _] end.
  apply open_advances; (assumption || reflexivity || discriminate).
Qed.

Lemma for_each_tx {A} (f : A -> QM unit) l : (forall a, QTx (f a)) -> QTx (for_each f l).
Proof. intros Hf. induction l as [|x l IH]; cbn [for_each]; [apply _|]. apply bind_tx; [apply Hf|intros _; exact IH]. Qed.

#[export] Instance expireQuotes_tx now : QTx (expireQuotes now).
Proof.
  unfold expireQuotes. solve_tx. apply for_each_tx. intros p. solve_tx. apply open_advances; (assumption || reflexivity || discriminate).
Qed.

(** ** The claim that sends a draft *)

Lemma lineage_claim qs i q q' p r r' :
  lineage qs -> qs !! i = Some q -> qt_status q = qs_draft -> qt_revisionOfQuoteId q = Some p -> qs !! p = Some r ->
  qt_status q' = qs_sent -> qt_orgId q' = qt_orgId q -> qt_revisionOfQuoteId q' = Some p -> qt_revisionNumber q' = qt_revisionNumber q ->
  qt_status r' = qs_superseded -> qt_orgId r' = qt_orgId r -> qt_revisionOfQuoteId r' = qt_revisionOfQuoteId r -> qt_revisionNumber r' = qt_revisionNumber r ->
  lineage (<[p := r']> (<[i := q']> qs)).
Proof.
  intros L Hi Hd Hp Hr Hs Ho Hp' Hn Hs' Ho' Hpr Hn'. pose proof L as [P O R N].
  destruct (P _ _ _ Hi Hp) as (r0 & Hr0 & _ & Hrd & Hrn & _).
  assert (r0 = r) as -> by congruence. assert (i <> p) as Hne by (intros ->; congruence).
  assert (Hback : forall j x', <[p := r']> (<[i := q']> qs) !! j = Some x' -> exists x, qs !! j = Some x /\ qt_orgId x' = qt_orgId x /\
    qt_revisionOfQuoteId x' = qt_revisionOfQuoteId x /\ qt_revisionNumber x' = qt_revisionNumber x /\ (qt_status x' <> qs_draft -> j = i \/ qt_status x <> qs_draft)).
  { intros j x' Hj. apply lookup_insert_Some in Hj as [[<- <-]|[_ Hj]]; [exists r; auto 8|].
    apply lookup_insert_Some in Hj as [[<- <-]|[_ Hj]]; [exists q|exists x'; auto 8]. repeat split; auto; congruence. }
  constructor.
  - intros j x' k Hj Hk. destruct (Hback _ _ Hj) as (x & Hx & E1 & E2 & E3 & E4). rewrite E2 in Hk. destruct (P j x k Hx Hk) as (y & Hy & X1 & X2 & X3 & X4).
    destruct (decide (k = p)) as [->|Hkp].
    + exists r'. rewrite lookup_insert_eq. assert (y = r) as -> by congruence. repeat split; congruence.
    + assert (k <> i) as Hki by (intros ->; congruence). exists y. rewrite !lookup_insert_ne by congruence. repeat split; try congruence.
      intros Hc. destruct (E4 Hc) as [->|Hc']; [congruence|exact (X4 Hc')].
  - intros j k x y z Hj Hk Hz Hz'. destruct (Hback _ _ Hj) as (x0 & Hx & _ & E2 & _). destruct (Hback _ _ Hk) as (y0 & Hy & _ & E2' & _). apply (O j k x0 y0 z); congruence.
  - intros j x Hj Hx. destruct (Hback _ _ Hj) as (x0 & Hx0 & _ & E2 & E3 & _). rewrite E3. apply (R j); congruence.
  - intros j x Hj. destruct (Hback _ _ Hj) as (x0 & Hx0 & _ & E2 & _). rewrite E2. exact (N j x0 Hx0).
Qed.

Lemma lineage_send qs i q q' :
  lineage qs -> qs !! i = Some q -> qt_status q = qs_draft -> qt_revisionOfQuoteId q = None ->
  qt_orgId q' = qt_orgId q -> qt_revisionOfQuoteId q' = None -> qt_revisionNumber q' = qt_revisionNumber q -> lineage (<[i := q']> qs).
Proof.
  intros [P O R N] Hi Hd Hp Ho Hp' Hn. constructor.
  - intros j x k Hj Hk. apply lookup_insert_Some in Hj as [[<- <-]|[_ Hj]]; [congruence|]. destruct (P _ _ _ Hj Hk) as (y & Hy & X1 & X2 & X).
    exists y. rewrite lookup_insert_ne by (intros <-; congruence). auto.
  - intros j k x y z Hj Hk Hz Hz'. apply lookup_insert_Some in Hj as [[<- <-]|[_ Hj]], Hk as [[<- <-]|[_ Hk]]; try congruence. exact (O _ _ _ _ _ Hj Hk Hz Hz').
  - intros j x Hj Hx. apply lookup_insert_Some in Hj as [[<- <-]|[_ Hj]]; [rewrite Hn; exact (R _ _ Hi Hp)|exact (R _ _ Hj Hx)].
  - intros j x Hj. apply lookup_insert_Some in Hj as [[<- <-]|[_ Hj]]; [congruence|exact (N _ _ Hj)].
Qed.

Lemma resolveParent_ok q d p d' : resolveParentToSupersede q d = Ok (p, d') -> d' = d /\ p = truthy (qt_revisionOfQuoteId q).
Proof.
  unfold resolveParentToSupersede. destruct (truthy _) as [x|]; intros E; [|apply ret_ok in E as [-> ->]; auto].
  apply bind_ok in E as (row & d1 & G & E). apply read_ok in G as [-> ->]. destruct (qd_quotes d !! x); [|discriminate E].
  do 3 (apply bind_ro_ok in E as [? E]; [|apply _]). apply ret_ok in E as [-> ->]. auto.
Qed.

Lemma revision_truthy d i q : Quotes None d -> qd_quotes d !! i = Some q -> truthy (qt_revisionOfQuoteId q) = qt_revisionOfQuoteId q.
Proof.
  intros Q Hq. pose proof (lg_named _ (qi_lineage _ _ Q) _ _ Hq) as N. unfold truthy. destruct (qt_revisionOfQuoteId q) as [p|]; [|reflexivity].
  destruct (String.eqb_spec p ""); [congruence|reflexivity].
Qed.

Lemma claimed_header now f jti q : header_ok q -> qt_status q = qs_draft -> header_ok (claimed_row now f jti q).
Proof. intros [Hr Hc] Hd. split; [exact Hr|]. cbn. rewrite Hd in Hc. intros X. apply Hc in X. discriminate. Qed.

Lemma superseded_advances now r : header_ok r -> isSupersedable (qt_status r) = true -> header_ok (superseded_row now r) /\ same_document r (superseded_row now r).
Proof.
  intros [Hr Hc] Hs. split.
  - split; [exact Hr|]. cbn. intros X. apply Hc in X. rewrite X in Hs. discriminate.
  - split; [reflexivity|]. split; [discriminate|]. unfold settled. destruct (qt_status r); discriminate.
Qed.

(** A draft that revises nothing, sent. *)
Lemma send_alone now i q f jti d :
  Quotes None d -> qd_quotes d !! i = Some q -> qt_status q = qs_draft -> qt_revisionOfQuoteId q = None ->
  kept d (set_quotes (<[i := claimed_row now f jti q]> (qd_quotes d)) d).
Proof.
  intros Q Hq Hd Hp. pose proof (claimed_header now f jti q (qi_headers _ _ Q _ _ Hq) Hd) as Hh. split.
  - apply quotes_write; [exact Q| | |].
    + intros j x Hx. destruct (decide (j = i)) as [->|]; [exists (claimed_row now f jti q); rewrite lookup_insert_eq; split; [reflexivity|cbn; congruence]|].
      exists x. rewrite lookup_insert_ne by congruence. auto.
    + intros j x Hx. apply lookup_insert_Some in Hx as [[<- <-]|[_ Hx]]; [split; [exact Hh|exists q; auto 6]|split; [exact (qi_headers _ _ Q _ _ Hx)|exists x; auto 6]].
    + apply (lineage_send _ i q); try assumption; try reflexivity. apply Q.
  - apply (edit_evolves i (qt_orgId q)); [exists q; auto| |reflexivity]. intros j Hj. cbn. rewrite lookup_insert_ne by congruence. reflexivity.
Qed.

(** A revision sent, and the quote it revises retired. *)
Lemma send_revision now i q f jti p r d :
  Quotes None d -> qd_quotes d !! i = Some q -> qt_status q = qs_draft -> qt_revisionOfQuoteId q = Some p -> qd_quotes d !! p = Some r ->
  isSupersedable (qt_status r) = true -> kept d (set_quotes (<[p := superseded_row now r]> (<[i := claimed_row now f jti q]> (qd_quotes d))) d).
Proof.
  intros Q Hq Hd Hp Hr Hc. pose proof (claimed_header now f jti q (qi_headers _ _ Q _ _ Hq) Hd) as Hh.
  destruct (superseded_advances now r (qi_headers _ _ Q _ _ Hr) Hc) as [Hhr Sr].
  assert (i <> p) as Hne by (intros ->; rewrite Hr in Hq; injection Hq as ->; rewrite Hd in Hc; discriminate). split.
  - apply quotes_write; [exact Q| | |].
    + intros j x Hx. destruct (decide (j = p)) as [->|]; [exists (superseded_row now r); rewrite lookup_insert_eq; split; [reflexivity|cbn; congruence]|].
      destruct (decide (j = i)) as [->|]; [exists (claimed_row now f jti q); rewrite lookup_insert_ne, lookup_insert_eq by congruence; split; [reflexivity|cbn; congruence]|].
      exists x. rewrite !lookup_insert_ne by congruence. auto.
    + intros j x Hx. apply lookup_insert_Some in Hx as [[<- <-]|[_ Hx]]; [split; [exact Hhr|exists r; auto 6]|].
      apply lookup_insert_Some in Hx as [[<- <-]|[_ Hx]]; [split; [exact Hh|exists q; auto 6]|split; [exact (qi_headers _ _ Q _ _ Hx)|exists x; auto 6]].
    + apply (lineage_claim _ i q _ p r); try assumption; try reflexivity. apply Q.
  - intros j x Hj Hx. destruct (decide (j = p)) as [->|].
    + exists (superseded_row now r). cbn. rewrite lookup_insert_eq. assert (x = r) as -> by congruence. split; [reflexivity|]. split; [exact Sr|reflexivity].
    + exists x. cbn. rewrite !lookup_insert_ne by congruence. split; [exact Hj|]. split; [apply same_document_refl, Hx|reflexivity].
Qed.

(** The quotes after a claim: the draft sent, and its parent superseded. *)
Definition sent_quotes (now : Z) (i : string) (q q' : Quote) (qs qs' : gmap string Quote) : Prop :=
  match qt_revisionOfQuoteId q with
  | Some p => exists r, qs !! p = Some r /\ isSupersedable (qt_status r) = true /\ i <> p /\ qs' = <[p := superseded_row now r]> (<[i := q']> qs)
  | None => qs' = <[i := q']> qs
  end.

Lemma sent_row now i q q' qs qs' : sent_quotes now i q q' qs qs' -> qs' !! i = Some q'.
Proof.
  unfold sent_quotes. destruct (qt_revisionOfQuoteId q) as [p|]; [|intros ->; apply lookup_insert_eq].
  intros (r & _ & _ & Hne & ->). rewrite lookup_insert_ne by congruence. apply lookup_insert_eq.
Qed.

Lemma sent_claim_ok now i q f jti d u d' :
  Quotes None d -> qd_quotes d !! i = Some q -> qt_status q = qs_draft ->
  applyQuoteSentClaim now i q f jti (truthy (qt_revisionOfQuoteId q)) d = Ok (u, d') ->
  kept d d' /\ exists qs, d' = set_quotes qs d /\ sent_quotes now i q (claimed_row now f jti q) (qd_quotes d) qs.
Proof.
  intros Q Hq Hd E. unfold applyQuoteSentClaim in E. rewrite (revision_truthy _ _ _ Q Hq) in E. unfold sent_quotes.
  apply bind_ok in E as (c & d1 & G & E). apply update_quote_if_ok in G as [[-> ->]|(-> & q0 & Hq0 & _ & ->)]; [apply bind_ok in E as (? & ? & X & _); discriminate X|].
  assert (q0 = q) as -> by congruence. apply bind_ok in E as (v & d1 & G & E). apply require_ok in G as [_ ->].
  destruct (qt_revisionOfQuoteId q) as [p|] eqn:Hp.
  - apply bind_ok in E as (fl & d2 & G & E). apply update_quote_if_ok in G as [[-> ->]|(-> & r & Hr & Hc & ->)]; [discriminate E|].
    apply require_ok in E as [_ ->]. cbn in Hr. apply andb_true_iff in Hc as [_ Hc].
    assert (i <> p) as Hne by (intros ->; destruct (lg_parent _ (qi_lineage _ _ Q) _ _ _ Hq Hp) as (r0 & Hr0 & _ & Hrd & _); congruence).
    rewrite lookup_insert_ne in Hr by exact Hne. cbn [qd_quotes set_quotes].
    split; [exact (send_revision now i q f jti p r d Q Hq Hd Hp Hr Hc)|]. eexists. split; [reflexivity|]. exists r. auto.
  - apply ret_ok in E as [_ ->]. split; [exact (send_alone now i q f jti d Q Hq Hd Hp)|]. eexists. split; reflexivity.
Qed.

(** ** Sending *)

Lemma claim_number_ok now q d : same_quotes d (after (claim_number now q) d).
Proof.
  unfold claim_number, after. destruct (truthy (qt_quoteNumber q)); [reflexivity|]. cbv zeta. unfold then_run, tx.
  destruct (allocateQuoteCounter _ _ d) as [[c d1]|e] eqn:E; [exact (counter_aside _ _ _ _ _ E)|reflexivity].
Qed.

Lemma run_number {A} (P : QuoteDb -> Prop) now q (k : string -> QRun A) d :
  (forall d1, same_quotes d d1 -> P d1) -> (forall n d1, same_quotes d d1 -> P (after (k n) d1)) -> P (after (then_run (claim_number now q) k) d).
Proof.
  intros Hp Hk. pose proof (claim_number_ok now q d) as S1. unfold after, then_run in *. destruct (claim_number now q d) as [[n|e] d1]; [exact (Hk n d1 S1)|exact (Hp d1 S1)].
Qed.

#[export] Instance sendQuote_keeps now i a emails billing jti rds : QKeeps (sendQuote now i a emails billing jti rds).
Proof.
  intros d Q. unfold sendQuote. apply (run_from (kept d)); [|split; [exact Q|reflexivity]]. intros [q parent] d1 E.
  apply bind_ok in E as (det & d2 & G & E). apply getQuote_ok in G as (-> & Hq & _). cbv zeta in E.
  apply bind_ok in E as (u & d2 & G & E). apply require_ok in G as [Hd ->]. apply bind_ok in E as (pr & d2 & G & E). apply resolveParent_ok in G as [-> ->].
  apply bind_ro_ok in E as [? E]; [|unfold assertQuoteSendGates; solve_ro]. apply ret_ok in E as [[= -> ->] ->].
  assert (qt_status (qv_quote det) = qs_draft) as Hs by (unfold is_draft_quote in Hd; destruct (qt_status _); congruence).
  apply run_number; [intros d1 S1; exact (kept_frame _ _ Q S1)|]. intros n d1 S1. apply tx_from; [|exact (kept_frame _ _ Q S1)].
  intros r d3 E. apply (kept_after _ d1); [exact (frame_evolves _ _ S1)|]. apply (frame _ _ _ S1) in Q. rewrite <- (proj1 S1) in Hq.
  apply bind_ro_ok in E as [f E]; [|unfold freezeQuoteSentSnapshot; solve_ro]. apply bind_ro_ok in E as [ps E]; [|apply _]. cbv zeta in E.
  apply bind_ok in E as (v & d4 & G & E). apply (sent_claim_ok _ _ _ _ _ _ _ _ Q Hq Hs) in G as [[Q4 V4] _].
  apply bind_ok in E as (w & d5 & G & E). apply recipients_aside in G. apply quote_row_ok in E as [-> _].
  apply (kept_after _ d4 _ V4), kept_frame; assumption.
Qed.

(** ** Acceptance *)

Lemma converted_advances now inv jti q : header_ok q -> open_status q = true -> advances q (converted_row_of now inv jti q).
Proof.
  intros [Hr Hc] Ho. assert (qt_status (converted_row_of now inv jti q) = qs_converted /\ qt_convertedInvoiceId (converted_row_of now inv jti q) = Some inv) as [E1 E2] by (unfold converted_row_of; destruct jti; auto).
  split; [unfold converted_row_of; destruct jti; reflexivity|]. unfold open_status in Ho. split; [|split].
  - unfold draft_alike. rewrite E1. destruct (qt_status q); split; discriminate.
  - intros X. unfold settled in X. destruct (qt_status q); discriminate.
  - split; [unfold converted_row_of; destruct jti; exact Hr|]. rewrite E1. reflexivity.
Qed.

(** The quote as the claim leaves it, open, and as the conversion reads it. *)
Definition claimed_as (q0 row q : Quote) : Prop :=
  open_status row = true /\ qt_orgId q = qt_orgId q0 /\ qt_taxRate q = qt_taxRate q0 /\ qt_currencyCode q = qt_currencyCode q0 /\
  qt_deposit q = qt_deposit q0 /\ qt_money q = qt_money q0 /\ qt_partnerId q = qt_partnerId q0 /\
  (qt_status q0 = qs_draft \/ q = q0 /\ row = q0).

Lemma accept_claim_ok now i n q0 d q d' :
  Quotes None d -> qd_quotes d !! i = Some q0 -> acceptable_status or_on_behalf (qt_status q0) = true ->
  accept_claim now i n q0 (match qt_status q0 with qs_draft => truthy (qt_revisionOfQuoteId q0) | _ => None end) d = Ok (q, d') ->
  kept d d' /\ exists qs row, d' = set_quotes qs d /\ qs !! i = Some row /\ claimed_as q0 row q /\
    (forall j, j <> i -> qs !! j = qd_quotes d !! j \/ exists r, qs !! j = Some (superseded_row now r)).
Proof.
  intros Q Hq Ha E. unfold accept_claim in E. destruct (qt_status q0) eqn:Hs; try discriminate Ha.
  2, 3: apply ret_ok in E as [-> ->]; split; [split; [exact Q|reflexivity]|]; exists (qd_quotes d), q0;
        (split; [destruct d; reflexivity|]); (split; [exact Hq|]); (split; [|auto]);
        unfold claimed_as, open_status; rewrite Hs; repeat (split; [reflexivity|]); auto.
  apply bind_ok in E as (f & d1 & G & E). apply ret_ok in E as [-> ->]. unfold claimQuoteSent in G.
  apply bind_ro_ok in G as [f0 G]; [|unfold freezeQuoteSentSnapshot; solve_ro]. apply bind_ok in G as (u & d2 & G & E). apply ret_ok in E as [-> ->].
  apply (sent_claim_ok _ _ _ _ _ _ _ _ Q Hq Hs) in G as [K (qs & -> & Hsent)]. split; [exact K|].
  exists qs, (claimed_row now f0 None q0). split; [reflexivity|]. split; [exact (sent_row _ _ _ _ _ _ Hsent)|]. split; [unfold claimed_as; auto 9|].
  intros j Hj. unfold sent_quotes in Hsent. destruct (qt_revisionOfQuoteId q0) as [p|]; [|subst qs; left; rewrite lookup_insert_ne by congruence; reflexivity].
  destruct Hsent as (r & _ & _ & _ & ->). destruct (decide (j = p)) as [->|]; [right; exists r; apply lookup_insert_eq|left; rewrite !lookup_insert_ne by congruence; reflexivity].
Qed.

(** What an acceptance leaves: the invoice of the conversion, the quote that
    names it, the quote it revised retired and every other as it was. *)
Definition accepted (now : Z) (params : AcceptQuoteParams) (q0 : Quote) (d d' : QuoteDb) (r : AcceptQuoteResult) : Prop :=
  exists q locale,
    convert_quote now (ap_quoteId params) q (map (live_references (db_ref (qd_billing d)) (qt_orgId q0)) (lines_in_order (ap_quoteId params) d)) locale
      (ap_actorUserId params) (qd_billing d) = Ok ((ar_invoiceId r, ar_invoiceNumber r, ar_contractIds r), qd_billing d') /\
    (exists row, claimed_as q0 row q) /\
    (exists q', qd_quotes d' !! ap_quoteId params = Some q' /\ qt_status q' = qs_converted /\ qt_convertedInvoiceId q' = Some (ar_invoiceId r)) /\
    (forall j, j <> ap_quoteId params -> qd_quotes d' !! j = qd_quotes d !! j \/ exists r, qd_quotes d' !! j = Some (superseded_row now r)).

Lemma accept_write_ok now params n q0 docs d r d' :
  Quotes None d -> qd_quotes d !! ap_quoteId params = Some q0 -> acceptable_status or_on_behalf (qt_status q0) = true ->
  accept_write now params n q0 (match qt_status q0 with qs_draft => truthy (qt_revisionOfQuoteId q0) | _ => None end) docs d = Ok (r, d') ->
  kept d d' /\ accepted now params q0 d d' r.
Proof.
  intros Q Hq Ha E. unfold accept_write in E. cbv zeta in E. set (i := ap_quoteId params) in *.
  apply bind_ok in E as (bs & d1 & G & E). apply read_ok in G as [-> ->]. apply bind_ok in E as (ls & d1 & G & E). apply read_ok in G as [-> ->].
  apply bind_ok in E as (q & d1 & G & E). apply (accept_claim_ok _ _ _ _ _ _ _ Q Hq Ha) in G as [[Q1 V1] (qs & row & -> & Hrow & Hcl & Hoth)].
  apply bind_ro_ok in E as [? E]; [|unfold assertContractRenderDataComplete; apply _]. apply bind_ok in E as (ref & d2 & G & E). apply read_ok in G as [-> ->].
  cbn [qd_billing set_quotes] in E.
  apply bind_ro_ok in E as [? E]; [|unfold assertQuoteLinesAcceptable; apply _].
  apply bind_ok in E as (cap & d2 & G & E). assert (d2 = set_quotes qs d) as -> by (revert G; match goal with |- ?x _ = _ -> _ => enough (ReadOnly x) as R by apply R end; unfold capture_signature; cbv zeta; solve_ro; destruct (ap_origin params); solve_ro).
  clear G. destruct cap as [[sn se] me].
  apply bind_ok in E as (aid & d2 & G & E). injection G as _ <-. apply bind_ok in E as (u & d2 & G & E). apply modify_ok in G as ->.
  apply bind_ok in E as (cv & d2 & G & E). unfold in_billing in G. cbn [qd_billing set_acceptances set_ids set_quotes] in G.
  destruct (convert_quote _ _ _ _ _ _ _) as [[c b]|] eqn:Hc in G; [|discriminate G]. injection G as <- <-. destruct c as [[inv num] cts].
  apply bind_ok in E as (v & d2 & G & E). apply bind_ok in E as (w & d3 & G3 & E). apply lift_ok in G3 as [_ ->]. apply ret_ok in E as [-> ->].
  match type of G with update_quote _ _ ?e = _ => set (d4 := e) in *; assert (S4 : same_quotes (set_quotes qs d) d4) by (repeat split) end.
  apply (update_quote_ok _ _ row) in G; [|rewrite (proj1 S4); exact Hrow]. pose proof (frame _ _ _ S4 Q1) as Q4.
  assert (qd_quotes d4 !! i = Some row) as Hrow4 by (rewrite (proj1 S4); exact Hrow).
  destruct (converted_advances now inv (truthy (ap_acceptanceTokenJti params)) row (qi_headers _ _ Q4 _ _ Hrow4) (proj1 Hcl)) as (A1 & A2 & A3 & A4).
  pose proof (row_write i row _ d4 d2 Q4 Hrow4 A1 A2 A3 A4) as K. subst d2. specialize (K ltac:(reflexivity)). split.
  - apply (kept_after _ d4); [|exact K]. etransitivity; [exact V1|exact (frame_evolves _ _ S4)].
  - exists q. eexists. split; [|split; [exists row; exact Hcl|split]].
    + rewrite (proj1 (proj2 Hcl)) in Hc. exact Hc.
    + eexists. split; [apply lookup_insert_eq|]. unfold converted_row_of. destruct (truthy _); auto.
    + intros j Hj. cbn [qd_quotes set_quotes]. rewrite lookup_insert_ne by (apply not_eq_sym, Hj). exact (Hoth j Hj).
Qed.

Lemma accept_start_ok now params d q parent d' :
  accept_start now params d = Ok ((q, parent), d') ->
  d' = d /\ qd_quotes d !! ap_quoteId params = Some q /\ acceptable_status (ap_origin params) (qt_status q) = true /\
  parent = match qt_status q with qs_draft => truthy (qt_revisionOfQuoteId q) | _ => None end.
Proof.
  intros E. unfold accept_start in E. apply bind_ok in E as (q0 & d1 & G & E). unfold accept_guards in G.
  apply bind_ok in G as (q1 & d2 & G1 & G). apply quote_row_ok in G1 as [-> Hq]. do 2 (apply bind_ro_ok in G as [? G]; [|apply _]).
  apply bind_ok in G as (u & d2 & G1 & G). apply require_ok in G1 as [Ha ->]. apply bind_ro_ok in G as [? G]; [|apply _]. apply ret_ok in G as [-> ->].
  destruct (qt_status q1) eqn:Hs; [|apply ret_ok in E as [[= -> ->] ->]; rewrite Hs; auto..].
  apply bind_ro_ok in E as [? E]; [|apply _]. apply bind_ro_ok in E as [? E]; [|unfold assertQuoteSendGates; solve_ro].
  apply bind_ok in E as (p & d2 & G & E). apply resolveParent_ok in G as [-> ->]. apply ret_ok in E as [[= -> ->] ->]. rewrite Hs. auto.
Qed.

Lemma acceptable_on_behalf o s : acceptable_status o s = true -> acceptable_status or_on_behalf s = true.
Proof. destruct o, s; auto. Qed.

(** A handler that draws a number first when the quote is a draft. *)
Definition accept_number (now : Z) (q : Quote) : QRun string := match qt_status q with qs_draft => claim_number now q | _ => done "" end.

Lemma accept_number_ok now q d : same_quotes d (after (accept_number now q) d) /\ qd_billing (after (accept_number now q) d) = qd_billing d.
Proof.
  split.
  - unfold accept_number. destruct (qt_status q); try reflexivity. apply claim_number_ok.
  - unfold accept_number, after. destruct (qt_status q); try reflexivity. unfold claim_number. destruct (truthy _); [reflexivity|]. cbv zeta. unfold then_run, tx.
    destruct (allocateQuoteCounter _ _ d) as [[c d1]|e] eqn:E; [|reflexivity]. unfold allocateQuoteCounter in E. run_m. reflexivity.
Qed.

(** An acceptance from the state it starts in: nothing but a drawn number, or the
    conversion of the quote it was asked to accept. *)
Lemma accept_cases now params docs d res d' :
  Quotes None d -> acceptQuote now params docs d = (res, d') ->
  (exists e, res = Err e /\ same_quotes d d' /\ qd_billing d' = qd_billing d) \/
  exists q0 d1 r, res = Ok r /\ qd_quotes d !! ap_quoteId params = Some q0 /\
    acceptable_status (ap_origin params) (qt_status q0) = true /\ same_quotes d d1 /\ qd_billing d1 = qd_billing d /\
    kept d d' /\ accepted now params q0 d1 d' r.
Proof.
  intros Q E0. unfold acceptQuote, then_run at 1, tx at 1 in E0.
  destruct (accept_start now params d) as [[[q parent] d0]|e] eqn:E; [|injection E0 as <- <-; left; exists e; repeat split].
  apply accept_start_ok in E as (-> & Hq & Ha & ->). change (match qt_status q with qs_draft => claim_number now q | _ => done "" end) with (accept_number now q) in E0.
  destruct (accept_number_ok now q d) as [S1 B1]. unfold after in S1, B1. unfold then_run in E0. destruct (accept_number now q d) as [[n|e] d1]; cbn [fst snd] in *.
  2: { injection E0 as <- <-. left. exists e. auto. }
  unfold tx in E0. destruct (accept_write _ _ _ _ _ _ d1) as [[r d2]|e] eqn:E; injection E0 as <- <-.
  2: { left. exists e. auto. }
  right. rewrite <- (proj1 S1) in Hq. pose proof (frame _ _ _ S1 Q) as Q1.
  destruct (accept_write_ok _ _ _ _ _ _ _ _ Q1 Hq (acceptable_on_behalf _ _ Ha) E) as [K A]. exists q, d1, r. rewrite (proj1 S1) in Hq.
  split; [reflexivity|]. split; [exact Hq|]. split; [exact Ha|]. split; [exact S1|]. split; [exact B1|]. split; [|exact A].
  apply (kept_after _ d1); [exact (frame_evolves _ _ S1)|exact K].
Qed.

#[export] Instance acceptQuote_keeps now params docs : QKeeps (acceptQuote now params docs).
Proof.
  intros d Q. unfold after. destruct (acceptQuote now params docs d) as [res d'] eqn:E.
  destruct (accept_cases _ _ _ _ _ _ Q E) as [(_ & _ & S1 & _)|(_ & _ & _ & _ & _ & _ & _ & _ & K & _)]; [exact (kept_frame _ _ Q S1)|exact K].
Qed.
End Life.
