(* ===== verification/ContractRenewal.v ===== *)
(** * The daily contract job ([apps/api/src/services/contractRenewal.ts],
      [apps/api/src/jobs/contractWorker.ts])

    The renewal pre-pass (notices claimed once, terms extended past the due
    period) and the billing sweep that follows it: one transaction per contract,
    a failure never aborting the rest, issuance after the billing transaction
    committed. Notifications and email are not modelled. *)

From Stdlib Require Import QArith.
From S2P Require Import Prelude JsString JsNumber Currency IsoDate InvoiceMath ContractMath TimeBilling CatalogPricing ContractCoverage BillingDb InvoiceService InvoiceLifecycle ContractService.
From stdpp Require Import base gmap strings list pretty.

Local Open Scope string_scope.
Local Open Scope Z_scope.
Local Open Scope billing_scope.

(** ** Renewal *)

Definition same_notice (a b : string * string * NoticeKind) : bool := bool_decide (a = b).

(** [ON CONFLICT (contract_id, end_date, kind) DO NOTHING]. *)
Definition claimNotice (contractId endDate : string) (kind : NoticeKind) : M bool :=
  do! taken := read (fun d => existsb (same_notice (contractId, endDate, kind)) (db_notices d)) in
  if taken then ret false
  else
    do! _ := modify (fun d => set_notices (db_notices d ++ [(contractId, endDate, kind)])%list d) in
    ret true.

Definition automation_eligible (orgId : string) (d : Db) : bool :=
  match rf_organizations (db_ref d) !! orgId with Some o => org_automationEligible o | None => false end.

Definition is_active (s : ContractStatus) : bool := match s with cs_active => true | _ => false end.

Definition renewal_candidates (d : Db) : list (string * Contract) :=
  List.filter (fun e => is_active (ct_status (snd e)) && ct_autoRenew (snd e) &&
                        match ct_endDate (snd e) with Some _ => true | None => false end &&
                        automation_eligible (ct_orgId (snd e)) d) (map_to_list (db_contracts d)).

Definition with_end (endDate : string) (c : Contract) : Contract :=
  mkContract (ct_partnerId c) (ct_orgId c) (ct_name c) (ct_status c) (ct_billingTiming c) (ct_intervalMonths c) (ct_startDate c)
    (Some endDate) (ct_nextBillingAt c) (ct_autoIssue c) (ct_autoRenew c) (ct_renewalTermMonths c) (ct_renewalNoticeDays c)
    (ct_currencyCode c) (ct_notes c) (ct_terms c) (ct_createdBy c).

(** Whether pass B extends the term, and to when. *)
Definition renewal_of (today : string) (c : Contract) : option string :=
  match truthy (ct_endDate c), ct_renewalTermMonths c, truthy (ct_nextBillingAt c) with
  | Some endDate, Some term, Some at_ =>
      if str_ltb today at_ then None
      else
        let '(newEnd, didRenew) := extendTermPastDue endDate (duePeriodStartFor (ct_billingTiming c) at_ (ct_intervalMonths c)) term in
        if didRenew then Some newEnd else None
  | _, _, _ => None
  end.

(** One candidate: the advance notice, then the extension; how many of each. *)
Definition renew_candidate (today : string) (e : string * Contract) : M (nat * nat) :=
  let '(id, c) := e in
  match truthy (ct_endDate c), ct_renewalTermMonths c with
  | Some endDate, Some _ =>
      do! noticed :=
        if isWithinNoticeWindow today endDate (match ct_renewalNoticeDays c with Some n => n | None => 30 end)
        then claimNotice id endDate nk_advance
        else ret false in
      do! renewed := match renewal_of today c with
                     | Some newEnd =>
                         do! _ := update_contract id (with_end newEnd) in
                         do! _ := claimNotice id newEnd nk_renewed in
                         ret true
                     | None => ret false
                     end in
      ret (if noticed then 1%nat else 0%nat, if renewed then 1%nat else 0%nat)
  | _, _ => ret (0%nat, 0%nat)
  end.

Fixpoint renew_all (today : string) (cs : list (string * Contract)) : M (nat * nat) :=
  match cs with
  | [] => ret (0%nat, 0%nat)
  | e :: rest =>
      do! a := renew_candidate today e in
      do! b := renew_all today rest in
      ret ((fst a + fst b)%nat, (snd a + snd b)%nat)
  end.

Definition runContractRenewalSweep (asOf : Z) : M (nat * nat) :=
  do! cs := read renewal_candidates in
  renew_all (utc_day_string asOf) cs.

(** ** Billing *)

Section Sweep.
Context `{Uuids}.
Variable resolveEffectiveGroupMembers : DeviceGroup -> result string (list string * list string).

Definition due_contracts (today : string) (d : Db) : list string :=
  map fst (List.filter (fun e : string * Contract =>
    is_active (ct_status (snd e)) &&
    match ct_nextBillingAt (snd e) with Some at_ => negb (str_ltb today at_) | None => false end &&
    automation_eligible (ct_orgId (snd e)) d) (map_to_list (db_contracts d))).

(** Issuance after the commit, best effort. *)
Definition auto_issue (now : Z) (r : GenerateResult) (d : Db) : Db :=
  match gr_autoIssue r, gr_invoiceId r, gr_actor r with
  | true, Some id, Some actor => commit (issueInvoice now id actor) d
  | _, _, _ => d
  end.

(** One contract of the sweep: the tables, contracts billed and failed. *)
Definition bill_one (asOf now : Z) (st : Db * nat * nat) (contractId : string) : Db * nat * nat :=
  let '(d, done, failed) := st in
  match generateDueInvoice resolveEffectiveGroupMembers asOf contractId d with
  | Err _ => (d, done, S failed)
  | Ok (r, d') => (auto_issue now r d', match gr_invoiceId r with Some _ => S done | None => done end, failed)
  end.

Definition runContractBillingSweep (asOf now : Z) (d : Db) : Db * nat * nat :=
  fold_left (bill_one asOf now) (due_contracts (utc_day_string asOf) d) (d, 0%nat, 0%nat).

(** The worker's job: the renewal pass commits before billing starts, and a
    renewal error fails the job. *)
Definition billing_sweep_job (asOf now : Z) (d : Db) : Db :=
  match runContractRenewalSweep asOf d with
  | Err _ => d
  | Ok (_, d') => fst (fst (runContractBillingSweep asOf now d'))
  end.
End Sweep.
