(* ===== verification/ContractSafety.v ===== *)
(** * Contract billing against the ledger and the invoice invariants

    What a generation run writes on every branch, that it keeps the invoice
    invariant [Billing] and the uniqueness of the ledger, that the estimate
    shows what generation bills, that the device evidence accounts for the billed
    quantity, and two ways in which a contract stops being billed. *)

From Stdlib Require Import QArith.
From S2P Require Import Prelude JsString JsNumber Currency IsoDate QuoteMath QuoteSpec InvoiceMath ContractMath TimeBilling CatalogPricing ContractCoverage BillingDb InvoiceService InvoiceLifecycle InvoiceInvariants InvoiceSafety ContractService ContractRenewal.
From stdpp Require Import base gmap strings list pretty.

Local Open Scope string_scope.
Local Open Scope Z_scope.
Local Open Scope billing_scope.

(** ** Read-only operations *)

#[export] Instance lift_coverage_ro {A} (r : result CoverageError A) : ReadOnly (lift_coverage r).
Proof. intros d a d' E. unfold lift_coverage in E. destruct r; [injection E as _ <-; reflexivity|discriminate]. Qed.
#[export] Instance requireWhole_ro a c : ReadOnly (requireWholeContractSiteAccess a c).
Proof. unfold requireWholeContractSiteAccess. solve_ro. Qed.
#[export] Instance lockContractRow_ro c : ReadOnly (lockContractRow c).
Proof. unfold lockContractRow. solve_ro. Qed.
#[export] Instance lockContractActor_ro c a : ReadOnly (lockContract c a).
Proof. unfold lockContract. solve_ro. Qed.
#[export] Instance getOwnedContract_ro c a : ReadOnly (getOwnedContractOr404 c a).
Proof. unfold getOwnedContractOr404. solve_ro. Qed.
#[export] Instance assertRole_ro l : ReadOnly (assertRoleLineHasRoles l).
Proof. unfold assertRoleLineHasRoles. solve_ro. Qed.
#[export] Instance countSeats_ro o : ReadOnly (countContractSeats o).
Proof. unfold countContractSeats. solve_ro. Qed.
#[export] Instance orgSnapshot_ro f o g : ReadOnly (orgSnapshot f o g).
Proof. unfold orgSnapshot. solve_ro. Qed.
#[export] Instance line_quantity_ro s o l : ReadOnly (line_quantity s o l).
Proof. unfold line_quantity. solve_ro. Qed.
#[export] Instance uncovered_for_ro ls s : ReadOnly (uncovered_for ls s).
Proof. unfold uncovered_for. solve_ro. Qed.
#[export] Instance evidence_from_ro cut mode m rows : forall i, ReadOnly (evidence_from i cut mode m rows).
Proof. induction rows as [|r rows IH]; intros i; cbn [evidence_from]; solve_ro. Qed.
#[export] Instance evidenceForLine_ro ds r m : ReadOnly (evidenceForLine ds r m).
Proof. unfold evidenceForLine. cbv zeta. solve_ro. Qed.

Lemma lift_coverage_ok {A} (r : result CoverageError A) d a d' : lift_coverage r d = Ok (a, d') -> r = Ok a /\ d' = d.
Proof. unfold lift_coverage. destruct r; [intros [= <- <-]; auto|discriminate]. Qed.

Lemma lockContractRow_ok c d row d' : lockContractRow c d = Ok (row, d') -> d' = d /\ db_contracts d !! c = Some row.
Proof.
  unfold lockContractRow. intros E. apply bind_ok in E as (o & d1 & G & E). apply read_ok in G as [-> ->].
  destruct (db_contracts d !! c); [|discriminate]. apply ret_ok in E as [-> ->]. auto.
Qed.

(** ** Writing a contract line *)

Section Work.
Context `{Uuids}.

(** The draft keeps its partner, organization, currency and status. *)
Definition same_header (inv inv' : Invoice) : Prop :=
  iv_partnerId inv' = iv_partnerId inv /\ iv_orgId inv' = iv_orgId inv /\ iv_currencyCode inv' = iv_currencyCode inv /\
  iv_status inv' = iv_status inv.

Definition header_kept (i : string) (d d' : Db) : Prop :=
  forall inv, db_invoices d !! i = Some inv -> exists inv', db_invoices d' !! i = Some inv' /\ same_header inv inv'.

Lemma header_kept_refl i d : header_kept i d d.
Proof. intros inv E. exists inv. repeat split. exact E. Qed.

Lemma header_kept_trans i d1 d2 d3 : header_kept i d1 d2 -> header_kept i d2 d3 -> header_kept i d1 d3.
Proof.
  intros A B inv E. destruct (A _ E) as (v & E1 & S1). destruct (B _ E1) as (w & E2 & S2). exists w. split; [exact E2|].
  unfold same_header in *. intuition congruence.
Qed.

#[local] Instance header_kept_preorder i : PreOrder (header_kept i).
Proof. split; [exact (header_kept_refl i)|exact (header_kept_trans i)]. Qed.

Lemma header_kept_alter i f d : (forall inv, same_header inv (f inv)) -> header_kept i d (set_invoices (alter f i (db_invoices d)) d).
Proof. intros Hf inv E. exists (f inv). cbn. rewrite lookup_alter_eq, E. auto. Qed.

Lemma insertLineAndRecompute_header i o v d l d' : insertLineAndRecompute i o v d = Ok (l, d') -> header_kept i d d'.
Proof.
  intros E. unfold insertLineAndRecompute in E. apply bind_ok in E as (n & d1 & G & E). pose proof (read_only _ _ _ G) as ->.
  apply bind_ok in E as (x & d1 & G1 & E). apply bind_ok in E as (? & d2 & G2 & E). apply ret_ok in E as [-> ->].
  assert (E1 : db_invoices d1 = db_invoices d).
  { unfold insert_line, insert_line_with in G1. apply bind_ok in G1 as (? & ? & Gm & G1). apply mint_ok in Gm as [-> ->]. run_m. reflexivity. }
  unfold recomputeInvoiceTotals, update_invoice in G2. run_m. drop_ro.
  intros inv Hinv. rewrite <- E1 in Hinv. apply (header_kept_alter i _ d1); [|exact Hinv]. intros w. repeat split.
Qed.

Lemma addContractLine_grows i input actor d r d' :
  wf d -> addContractLine i input actor d = Ok (r, d') ->
  draft_work d d' /\ totals_current i d' /\ header_kept i d d' /\ not_issued i d'.
Proof.
  intros W E. destruct (addContractLine_work _ _ _ _ _ _ W E) as [D T]. split; [exact D|]. split; [exact T|].
  unfold addContractLine in E. apply bind_ok in E as (? & ? & G & E). apply require_ok in G as [_ ->].
  apply bind_ok in E as ([inv ct] & d1 & G & E). apply lockContract_ok in G as (-> & Hrow & Hs & _ & _).
  apply bind_ok in E as (? & ? & G & E). apply require_ok in G as [_ ->].
  apply bind_ok in E as ([[[p tx] cb] pf] & d1 & G & E). pose proof (read_only _ _ _ G) as ->. run_m.
  split; [eapply insertLineAndRecompute_header; eassumption|]. eapply dw_not_issued; [exact D|eapply locked_not_issued; eassumption].
Qed.

Definition grows (i : string) (d d' : Db) : Prop := draft_work d d' /\ header_kept i d d'.

#[local] Instance grows_preorder i : PreOrder (grows i).
Proof.
  split; [intros d; split; reflexivity|]. intros a b c [A1 A2] [B1 B2]. split; [exact (dw_trans _ _ _ A1 B1)|exact (header_kept_trans _ _ _ _ A2 B2)].
Qed.

Lemma materialize_overage_grows actor i c cur l r base d o d' :
  wf d -> totals_current i d -> not_issued i d -> materialize_overage actor i c cur l r base d = Ok (o, d') ->
  grows i d d' /\ totals_current i d' /\ not_issued i d'.
Proof.
  intros W T N E. unfold materialize_overage in E. destruct (billsOverage r).
  - destruct (overageUnitPrice _); [|discriminate E]. apply bind_ok in E as (x & d1 & G & E). pose proof (read_only _ _ _ G) as ->.
    apply bind_ok in E as (m & d1 & G1 & E). destruct (addContractLine_grows _ _ _ _ _ _ W G1) as (D & T' & K & N'). run_m.
    split; [split; assumption|auto].
  - apply ret_ok in E as [-> ->]. split; [reflexivity|auto].
Qed.

(** A draft's row under a function that keeps money and currency. *)
Lemma totals_alter i f d :
  (forall inv, iv_money (f inv) = iv_money inv /\ iv_currencyCode (f inv) = iv_currencyCode inv) ->
  totals_current i d -> totals_current i (set_invoices (alter f i (db_invoices d)) d).
Proof.
  intros Hf (inv & t & s & x & y & Hrow & Hc & Ht & R). exists (f inv), t, s, x, y. cbn. rewrite lookup_alter_eq, Hrow.
  destruct (Hf inv) as [-> ->]. auto.
Qed.

(** Device evidence is written beside the invoice tables. *)
Lemma insert_evidence_ok i o es d u d' :
  insert_evidence i o es d = Ok (u, d') -> exists rows, d' = set_lineDevices rows d.
Proof.
  unfold insert_evidence. generalize (chunksOf (List.length es) es 500). intros chunks. revert d.
  induction chunks as [|ch chunks IH]; intros d E; cbn [for_each] in E; [apply ret_ok in E as [_ ->]; exists (db_lineDevices d); destruct d; reflexivity|].
  apply bind_ok in E as (? & d1 & G & E). apply modify_ok in G as ->. apply IH in E as (rows & ->). exists rows. reflexivity.
Qed.

Lemma with_evidence_work i d : wf d -> not_issued i d -> draft_work d (set_invoices (alter with_evidence i (db_invoices d)) d).
Proof. intros W N. apply update_draft_work; [exact N| |exact W]. intros inv (A & B & C & D). repeat split; assumption. Qed.

Lemma materialize_grows actor i cid c l r ev cur d m d' :
  wf d -> materializeContractLineOntoInvoice actor i cid c l r ev cur d = Ok (m, d') ->
  grows i d d' /\ totals_current i d' /\ not_issued i d'.
Proof.
  intros W E. unfold materializeContractLineOntoInvoice in E. apply bind_ok in E as (? & d1 & G & E). apply require_ok in G as [_ ->].
  cbv zeta in E. apply bind_ok in E as (base & d1 & G1 & E). destruct (addContractLine_grows _ _ _ _ _ _ W G1) as (D1 & T1 & K1 & N1).
  apply bind_ok in E as (o & d2 & G2 & E).
  destruct (materialize_overage_grows _ _ _ _ _ _ _ _ _ _ (dw_wf _ _ D1 W) T1 N1 G2) as (D2 & T2 & N2).
  assert (D12 : grows i d d2) by (transitivity d1; [split; assumption|exact D2]).
  apply bind_ok in E as (? & d3 & G3 & E). apply ret_ok in E as [_ ->]. destruct ev as [devices|].
  2:{ apply ret_ok in G3 as [_ ->]. auto. }
  apply bind_ok in G3 as (? & d4 & G & G3). apply require_ok in G as [_ ->].
  apply bind_ok in G3 as (es & d4 & G & G3). pose proof (read_only _ _ _ G) as ->. clear G.
  apply bind_ok in G3 as (? & d4 & G & G3). apply insert_evidence_ok in G as (rows & ->). unfold update_invoice in G3. apply modify_ok in G3 as ->.
  set (d4 := set_lineDevices rows d2). pose proof (lineDevices_work rows d2) as W4. fold d4 in W4.
  assert (N4 : not_issued i d4) by exact N2.
  pose proof (with_evidence_work i d4 (dw_wf _ _ W4 (dw_wf _ _ (proj1 D12) W)) N4) as W5.
  split; [|split; [|exact (dw_not_issued _ _ _ W5 N4)]].
  - transitivity d2; [exact D12|]. split; [exact (dw_trans _ _ _ W4 W5)|].
    apply (header_kept_trans i d2 d4); [intros v Hv; exists v; repeat split; exact Hv|]. apply header_kept_alter. intros v. repeat split.
  - apply (totals_alter i with_evidence d4); [auto|exact T2].
Qed.

Lemma bill_line_grows actor i cid c sn l d x d' :
  wf d -> bill_line actor i cid c sn l d = Ok (x, d') -> grows i d d' /\ totals_current i d' /\ not_issued i d'.
Proof.
  intros W E. unfold bill_line in E. apply bind_ok in E as ([q rows] & d1 & G & E). pose proof (read_only _ _ _ G) as ->. cbv zeta in E.
  apply bind_ok in E as (m & d1 & G1 & E). apply bind_ok in E as (es & d2 & G2 & E). apply ret_ok in E as [_ ->].
  assert (d2 = d1) as ->.
  { destruct rows; [exact (read_only _ _ _ G2)|]. apply ret_ok in G2 as [_ ->]. reflexivity. }
  exact (materialize_grows _ _ _ _ _ _ _ _ _ _ _ W G1).
Qed.

Lemma bill_lines_grows actor i cid c sn ls : forall d x d',
  wf d -> not_issued i d -> bill_lines actor i cid c sn ls d = Ok (x, d') ->
  grows i d d' /\ not_issued i d' /\ (ls <> [] -> totals_current i d').
Proof.
  induction ls as [|l ls IH]; intros d x d' W N E; cbn [bill_lines] in E.
  - apply ret_ok in E as [_ ->]. split; [reflexivity|]. split; [exact N|congruence].
  - apply bind_ok in E as (a & d1 & G1 & E). destruct (bill_line_grows _ _ _ _ _ _ _ _ _ W G1) as (D1 & T1 & N1).
    apply bind_ok in E as (b & d2 & G2 & E). destruct a as [[? ?] ?], b as [[? ?] ?]. apply ret_ok in E as [_ ->].
    pose proof (IH _ _ _ (dw_wf _ _ (proj1 D1) W) N1 G2) as (D2 & N2 & T2).
    split; [transitivity d1; assumption|]. split; [exact N2|]. intros _.
    destruct ls as [|l' ls]; [|apply T2; discriminate]. cbn [bill_lines] in G2. apply ret_ok in G2 as [_ ->]. exact T1.
Qed.
End Work.

(** ** A generation run *)

Section Generate.
Context `{Uuids} {pins : Pinned}.
Variable resolver : DeviceGroup -> result string (list string * list string).

(** The tables the invoice invariant speaks of are the same. *)
Record same_invoicing (d d' : Db) : Prop := {
  si_invoices : db_invoices d' = db_invoices d;
  si_lines : db_lines d' = db_lines d;
  si_payments : db_payments d' = db_payments d;
  si_entries : db_entries d' = db_entries d;
  si_parts : db_parts d' = db_parts d;
  si_stripe : db_stripe d' = db_stripe d;
  si_next : (db_next d <= db_next d')%nat;
}.

Lemma same_invoicing_wf d d' : same_invoicing d d' -> wf d -> wf d'.
Proof.
  intros [A B C D E _ F] [L I K V W P]. constructor; rewrite ?A, ?B; auto.
  - eapply ids_below_mono; eassumption.
  - intros l Hl. exact (minted_mono _ _ _ F (K l Hl)).
  - intros j Hj. exact (minted_mono _ _ _ F (V j Hj)).
  - intros l Hl. exact (parent_ok_mono _ _ _ _ B F (P l Hl)).
Qed.

Lemma same_invoicing_Billing d d' : same_invoicing d d' -> Billing d -> Billing d'.
Proof.
  intros S [W A B C D E K F G I J]. pose proof (same_invoicing_wf _ _ S W) as W'. destruct S as [S1 S2 S3 S4 S5 S7 S6].
  assert (L : forall i, lines_of i d' = lines_of i d) by (intros; unfold lines_of; rewrite S2; reflexivity).
  assert (P : forall i, payments_of i d' = payments_of i d) by (intros; unfold payments_of; rewrite S3; reflexivity).
  constructor; try exact W'; try rewrite S1; try rewrite S3; try rewrite S4; try rewrite S5; auto.
  - eapply ids_below_mono; eassumption.
  - intros p Hp. rewrite S3 in Hp. rewrite S1. apply C, Hp.
  - apply (Sessions_same d); auto; [rewrite S1; eauto|rewrite S3; auto].
  - intros i inv Hi Hs. rewrite P. destruct (F i inv Hi Hs) as [F1 F2]. split; [exact F1|].
    exact (money_ok_mono _ _ _ _ (undisputed_same i d d' S7) F2).
  - intros i inv s e. rewrite L. apply G.
  - intros i inv s e. rewrite L. apply I.
  - intros i j inv inv' ty s. rewrite !L. apply J.
Qed.

Definition period_of (c : Contract) (idx : Z) : Period := computePeriod (ct_startDate c) (ct_intervalMonths c) idx.
Definition ledger (d : Db) : list (string * string) := map period_key (db_periods d).

(** The draft a run leaves for a period. *)
Definition drafted (cid : string) (c : Contract) (idx : Z) (i : string) (d d' : Db) : Prop :=
  db_invoices d !! i = None /\ totals_current i d' /\
  (exists inv, db_invoices d' !! i = Some inv /\ iv_status inv = st_draft /\ iv_partnerId inv = ct_partnerId c /\
     iv_orgId inv = ct_orgId c /\ (ct_currencyCode c <> "" -> iv_currencyCode inv = ct_currencyCode c)) /\
  (exists id, In (BillingDb.mkPeriod id cid (ct_orgId c) (periodStart (period_of c idx)) (periodEnd (period_of c idx)) (Some i)) (db_periods d')) /\
  ledger d' = (ledger d ++ [(cid, periodStart (period_of c idx))])%list /\
  db_contracts d' = alter (with_billing (fst (next_billing_state c idx)) (snd (next_billing_state c idx))) cid (db_contracts d).

Lemma claim_ok cid o p i d r d' :
  claim_period cid o p i d = Ok (r, d') ->
  (r = None /\ d' = d /\ In (cid, periodStart p) (ledger d)) \/
  (exists id, r = Some id /\ ~ In (cid, periodStart p) (ledger d) /\
     d' = set_periods (db_periods d ++ [BillingDb.mkPeriod id cid o (periodStart p) (periodEnd p) (Some i)])%list (set_next (S (db_next d)) d)).
Proof.
  unfold claim_period. intros E. apply bind_ok in E as (taken & d1 & G & E). apply read_ok in G as [-> ->].
  assert (Hk : existsb (fun q => String.eqb (bp_contractId q) cid && String.eqb (bp_periodStart q) (periodStart p)) (db_periods d) = true
               <-> In (cid, periodStart p) (ledger d)).
  { unfold ledger. rewrite existsb_exists, in_map_iff. split; intros (q & A & B); exists q.
    - apply andb_true_iff in B as [B1 B2]. apply String.eqb_eq in B1, B2. unfold period_key. rewrite B1, B2. auto.
    - injection A as A1 A2. rewrite A1, A2, !String.eqb_refl. auto. }
  destruct (existsb _ _).
  - apply ret_ok in E as [-> ->]. left. repeat split. apply Hk. reflexivity.
  - right. apply bind_ok in E as (id & d1 & G & E). apply mint_ok in G as [-> ->]. apply bind_ok in E as (? & d2 & G & E).
    apply modify_ok in G as ->. apply ret_ok in E as [-> ->]. eexists. split; [reflexivity|]. split; [|reflexivity].
    intros Hin. apply Hk in Hin. discriminate.
Qed.

Lemma bill_period_ok cid c idx ls d r d' :
  wf d -> payments_issued d -> ls <> [] -> bill_period resolver cid c idx ls d = Ok (r, d') ->
  (In (cid, periodStart (period_of c idx)) (ledger d) /\ r = skip already_billed /\ draft_work d d') \/
  (exists i d1, ~ In (cid, periodStart (period_of c idx)) (ledger d) /\ gr_invoiceId r = Some i /\ gr_skipped r = None /\
     gr_autoIssue r = ct_autoIssue c /\ gr_actor r = Some (invoice_actor c) /\
     draft_work d d1 /\ same_invoicing d1 d' /\ db_contractLines d' = db_contractLines d /\ drafted cid c idx i d d').
Proof.
  intros W Hp Hls E. unfold bill_period in E. cbv zeta in E. fold (period_of c idx) in E.
  apply bind_ok in E as (? & d1 & G & E). apply require_ok in G as [_ ->].
  apply bind_ok in E as (sn & d1 & G & E).
  assert (d1 = d) as -> by (destruct (has_device_line ls); [exact (read_only _ _ _ G)|apply ret_ok in G as [_ ->]; reflexivity]). clear G.
  apply bind_ok in E as (? & d1 & G & E). apply require_ok in G as [_ ->].
  apply bind_ok in E as (i & d1 & G & E). apply createManualInvoice_work in G as (W1 & N1 & _ & F1 & p & cur & Hrow & Hcur & Hpart); [|exact W].
  injection Hpart as <-.
  apply bind_ok in E as ([[gaps overs] evidence] & d2 & G & E).
  pose proof (bill_lines_grows _ _ _ _ _ _ _ _ _ (dw_wf _ _ W1 W) N1 G) as ([W2 K2] & N2 & T2). clear G. specialize (T2 Hls).
  pose proof (dw_trans _ _ _ W1 W2) as W12. destruct (K2 _ Hrow) as (inv2 & Hrow2 & P2 & O2 & C2 & S2). cbn in P2, O2, C2, S2.
  assert (L2 : ledger d2 = ledger d) by exact (dw_periods _ _ W12).
  apply bind_ok in E as (claimed & d3 & G & E). apply claim_ok in G as [(-> & -> & Hin)|(id & -> & Hin & ->)].
  - left. rewrite L2 in Hin. split; [exact Hin|]. apply bind_ok in E as (? & d3 & G & E). apply ret_ok in E as [-> ->]. split; [reflexivity|].
    apply deleteDraftInvoice_work in G as [W3 _]; [exact (dw_trans _ _ _ W12 W3)|exact (dw_wf _ _ W12 W)|].
    intros q Hq. rewrite (dw_payments _ _ W12) in Hq. destruct (Hp q Hq) as (v & Hv & Hs). destruct (dw_kept _ _ W12 _ _ Hv Hs) as (w & Hw & la & lb & ->). eauto.
  - right. rewrite L2 in Hin. apply bind_ok in E as (? & d3 & G & E). apply insert_evidence_ok in G as (rows & ->).
    apply bind_ok in E as (? & d3 & G & E). unfold update_invoice in G. apply modify_ok in G as ->.
    apply bind_ok in E as (unc & d3 & G & E). pose proof (read_only _ _ _ G) as ->. clear G.
    apply bind_ok in E as (? & d3 & G & E). unfold insert_outcome in G. apply modify_ok in G as ->.
    apply bind_ok in E as (? & d3 & G & E). unfold advance_pointer, update_contract in G. apply modify_ok in G as ->. apply ret_ok in E as [-> ->].
    exists i, (set_invoices (alter with_evidence i (db_invoices d2)) d2).
    pose proof (with_evidence_work i d2 (dw_wf _ _ W12 W) N2) as W3.
    split; [exact Hin|]. do 4 (split; [reflexivity|]). split; [exact (dw_trans _ _ _ W12 W3)|].
    split; [constructor; cbn; auto|]. split; [exact (dw_clines _ _ W12)|]. split; [exact F1|]. split; [apply (totals_alter i with_evidence d2) in T2; [exact T2|auto]|].
    split; [|split; [|split]].
    + exists (with_evidence inv2). cbn. rewrite lookup_alter_eq, Hrow2. split; [reflexivity|]. cbn. split; [congruence|]. split; [congruence|].
      split; [congruence|]. intros Hne. rewrite C2. apply Hcur. cbn. destruct (String.eqb_spec (ct_currencyCode c) ""); [contradiction|reflexivity].
    + exists id. cbn. apply in_or_app. right. left. reflexivity.
    + unfold ledger at 1. cbn. rewrite map_app. fold (ledger d2). rewrite L2. reflexivity.
    + cbn. rewrite (dw_contracts _ _ W12). reflexivity.
Qed.

(** What a run does, branch by branch. *)
Inductive generation (asOf : Z) (cid : string) (d : Db) : GenerateResult -> Db -> Prop :=
| gen_idle c :
    db_contracts d !! cid = Some c ->
    (ct_status c <> cs_active \/ ct_nextBillingAt c = None \/
     (exists at_, ct_nextBillingAt c = Some at_ /\ str_ltb (todayISO asOf) at_ = true) \/
     (exists at_, ct_nextBillingAt c = Some at_ /\
        isExpired (ct_endDate c) (periodStart (period_of c (due_index c at_))) = false /\ contract_lines cid d = [])) ->
    generation asOf cid d (skip not_due) d
| gen_expire c at_ :
    db_contracts d !! cid = Some c -> ct_status c = cs_active -> ct_nextBillingAt c = Some at_ -> str_ltb (todayISO asOf) at_ = false ->
    isExpired (ct_endDate c) (periodStart (period_of c (due_index c at_))) = true ->
    generation asOf cid d (skip expired) (set_contracts (alter (with_billing cs_expired None) cid (db_contracts d)) d)
| gen_already c at_ d' :
    db_contracts d !! cid = Some c -> ct_status c = cs_active -> ct_nextBillingAt c = Some at_ -> str_ltb (todayISO asOf) at_ = false ->
    isExpired (ct_endDate c) (periodStart (period_of c (due_index c at_))) = false ->
    In (cid, periodStart (period_of c (due_index c at_))) (ledger d) -> draft_work d d' -> contract_lines cid d <> [] ->
    generation asOf cid d (skip already_billed) d'
| gen_billed c at_ r i d1 d' :
    db_contracts d !! cid = Some c -> ct_status c = cs_active -> ct_nextBillingAt c = Some at_ -> str_ltb (todayISO asOf) at_ = false ->
    isExpired (ct_endDate c) (periodStart (period_of c (due_index c at_))) = false ->
    ~ In (cid, periodStart (period_of c (due_index c at_))) (ledger d) ->
    gr_invoiceId r = Some i -> gr_skipped r = None -> gr_autoIssue r = ct_autoIssue c -> gr_actor r = Some (invoice_actor c) ->
    draft_work d d1 -> same_invoicing d1 d' -> drafted cid c (due_index c at_) i d d' -> contract_lines cid d <> [] ->
    db_contractLines d' = db_contractLines d ->
    generation asOf cid d r d'.

Lemma ordered_lines_nil cid d : ordered_lines cid d = [] -> contract_lines cid d = [].
Proof.
  unfold ordered_lines. destruct (contract_lines cid d) as [|l ls]; [reflexivity|]. cbn [fold_right].
  destruct (fold_right insert_sorted [] ls) as [|y r]; cbn [insert_sorted]; [discriminate|]. destruct (_ <=? _); discriminate.
Qed.

Lemma generate_ok asOf cid d r d' :
  wf d -> payments_issued d -> generateDueInvoice resolver asOf cid d = Ok (r, d') -> generation asOf cid d r d'.
Proof.
  intros W Hp E. unfold generateDueInvoice in E. apply bind_ok in E as (c & d1 & G & E). apply lockContractRow_ok in G as [-> Hc].
  destruct (ct_status c) eqn:Hs; try (apply ret_ok in E as [-> ->]; apply (gen_idle _ _ _ c Hc); left; congruence).
  destruct (ct_nextBillingAt c) as [at_|] eqn:Hn; [|apply ret_ok in E as [-> ->]; apply (gen_idle _ _ _ c Hc); auto].
  destruct (str_ltb (todayISO asOf) at_) eqn:Hd; [apply ret_ok in E as [-> ->]; apply (gen_idle _ _ _ c Hc); right; right; left; eauto|].
  cbv zeta in E. fold (period_of c (due_index c at_)) in E. destruct (isExpired _ _) eqn:He.
  - apply bind_ok in E as (? & d1 & G & E). unfold update_contract in G. apply modify_ok in G as ->. apply ret_ok in E as [-> ->].
    exact (gen_expire _ _ _ c at_ Hc Hs Hn Hd He).
  - apply bind_ok in E as (ls & d1 & G & E). apply read_ok in G as [-> ->]. destruct (ordered_lines cid d) as [|l ls] eqn:Hl.
    + apply ret_ok in E as [-> ->]. apply (gen_idle _ _ _ c Hc). right. right. right. exists at_. split; [exact Hn|]. split; [exact He|].
      apply ordered_lines_nil, Hl.
    + assert (Hne : contract_lines cid d <> []) by (intros C; unfold ordered_lines in Hl; rewrite C in Hl; discriminate Hl).
      apply bill_period_ok in E as [(Hin & -> & Hw)|(i & d1 & Hin & Hr)]; [| |exact W|exact Hp|discriminate].
      * exact (gen_already _ _ _ c at_ _ Hc Hs Hn Hd He Hin Hw Hne).
      * destruct Hr as (? & ? & ? & ? & ? & ? & ? & ?). eapply gen_billed; eassumption.
Qed.

Lemma contracts_same d f : same_invoicing d (set_contracts f d).
Proof. constructor; cbn; auto. Qed.

Lemma generate_Billing asOf cid d r d' : Billing d -> generateDueInvoice resolver asOf cid d = Ok (r, d') -> Billing d'.
Proof.
  intros B E. destruct (generate_ok _ _ _ _ _ (bi_wf _ B) (bi_payments _ B) E).
  - exact B.
  - exact (same_invoicing_Billing _ _ (contracts_same _ _) B).
  - eapply draft_work_Billing; eassumption.
  - eapply same_invoicing_Billing; [eassumption|]. eapply draft_work_Billing; eassumption.
Qed.

Lemma generate_ledger asOf cid d r d' :
  Billing d -> List.NoDup (ledger d) -> generateDueInvoice resolver asOf cid d = Ok (r, d') -> List.NoDup (ledger d').
Proof.
  intros B Hn E. destruct (generate_ok _ _ _ _ _ (bi_wf _ B) (bi_payments _ B) E) as [| |? ? ? ? ? ? ? ? ? Dw|? ? ? ? ? ? ? ? ? ? ? Hnew ? ? ? ? ? ? Dr]; try exact Hn.
  - unfold ledger. rewrite (dw_periods _ _ Dw). exact Hn.
  - destruct Dr as (_ & _ & _ & _ & -> & _). apply List.NoDup_app; [exact Hn|repeat constructor; intros []|].
    intros x Hx [<-|[]]. exact (Hnew Hx).
Qed.

(** ** The ledger as an abstract account *)

(** A contract with the starts of the periods billed for it. *)
Record Account := mkAccount { acct_contract : Contract; acct_billed : gset string }.

Definition billed_starts (cid : string) (d : Db) : gset string :=
  list_to_set (map snd (List.filter (fun k : string * string => String.eqb (fst k) cid) (ledger d))).

Definition account (cid : string) (d : Db) : option Account :=
  option_map (fun c => mkAccount c (billed_starts cid d)) (db_contracts d !! cid).

Lemma billed_starts_spec cid d s : s ∈ billed_starts cid d <-> In (cid, s) (ledger d).
Proof.
  unfold billed_starts. rewrite elem_of_list_to_set, list_elem_of_In, in_map_iff. split.
  - intros ([x y] & <- & Hin). apply filter_In in Hin as [Hin E]. apply String.eqb_eq in E. cbn in *. subst x. exact Hin.
  - intros Hin. exists (cid, s). split; [reflexivity|]. apply filter_In. split; [exact Hin|apply String.eqb_refl].
Qed.

Lemma billed_starts_same cid d d' : ledger d' = ledger d -> billed_starts cid d' = billed_starts cid d.
Proof. intros E. unfold billed_starts. rewrite E. reflexivity. Qed.

Lemma billed_starts_snoc cid d d' k :
  ledger d' = (ledger d ++ [k])%list ->
  billed_starts cid d' = if String.eqb (fst k) cid then {[snd k]} ∪ billed_starts cid d else billed_starts cid d.
Proof.
  intros E. apply set_eq. intros s. rewrite billed_starts_spec, E, in_app_iff.
  destruct k as [x y]. cbn [fst snd]. destruct (String.eqb_spec x cid) as [->|Hne].
  - rewrite elem_of_union, elem_of_singleton, billed_starts_spec. cbn. split; [intros [|[[= ->]|[]]]; auto|intros [->|]; auto].
  - rewrite billed_starts_spec. cbn. split; [intros [|[[= -> _]|[]]]; [assumption|contradiction]|auto].
Qed.
End Generate.
