(* ===== verification/ContractLedger.v ===== *)
(** * Contract billing refines a schedule of numbered periods

    An abstract machine that bills the periods of a contract in order, by index
    and by day number, and the proof that [generateDueInvoice], which works on
    date strings, a billing pointer and a ledger of period starts, is a data
    refinement of it. *)

From S2P Require Import Prelude JsString JsNumber IsoDate ContractMath BillingDb InvoiceService InvoiceLifecycle InvoiceInvariants InvoiceSafety ContractService ContractSafety.
From stdpp Require Import base gmap strings list.

Local Open Scope string_scope.
Local Open Scope Z_scope.
Local Open Scope billing_scope.

(** ** The specification *)

(** A schedule is stopped, about to bill period [k], or over; and it remembers
    the periods it has billed. *)
Inductive Phase := ph_stopped | ph_running (k : Z) | ph_over.

Record Schedule := mkSchedule { sc_phase : Phase; sc_billed : gset Z }.

(** The days of a contract: when period [k] falls due, when it starts, and when
    the term ends. *)
Record Calendar := mkCalendar { due_day : Z -> Z; start_day : Z -> Z; end_day : option Z }.

Definition in_term (cal : Calendar) (k : Z) : bool :=
  match end_day cal with None => true | Some e => start_day cal k <? e end.

Inductive BillOutcome := bo_not_due | bo_expired | bo_already_billed | bo_billed (k : Z).

(** One run: nothing before the due day; past the term the schedule is over; a
    contract without lines waits; a period is billed at most once; and after
    period [k] comes period [k + 1] or the end. *)
Definition schedule_step (cal : Calendar) (today : Z) (has_lines : bool) (s : Schedule) : Schedule * BillOutcome :=
  match sc_phase s with
  | ph_running k =>
      if today <? due_day cal k then (s, bo_not_due)
      else if negb (in_term cal k) then (mkSchedule ph_over (sc_billed s), bo_expired)
      else if negb has_lines then (s, bo_not_due)
      else if decide (k ∈ sc_billed s) then (s, bo_already_billed)
      else (mkSchedule (if in_term cal (k + 1) then ph_running (k + 1) else ph_over) ({[k]} ∪ sc_billed s), bo_billed k)
  | _ => (s, bo_not_due)
  end.

(** ** The representation *)

Definition calendar_of (c : Contract) : Calendar :=
  mkCalendar
    (fun k => day_of (nextBillingDate (ct_startDate c) (ct_intervalMonths c) (ct_billingTiming c) k))
    (fun k => day_of (periodStart (period_of c k)))
    (option_map day_of (ct_endDate c)).

Record terms_ok (c : Contract) : Prop := {
  to_start : is_iso (ct_startDate c);
  to_interval : 1 <= ct_intervalMonths c;
  to_end : forall e, ct_endDate c = Some e -> is_iso e }.

(** Period [k] and the two after it stay in four-digit years and below the
    guard of the index search. *)
Definition horizon (c : Contract) (k : Z) : Prop :=
  month4 (month_index (ct_startDate c) + ct_intervalMonths c * (k + 2)) /\ ct_intervalMonths c * (k + 1) <= 100000.

Definition phase_of (c : Contract) (p : Phase) : Prop :=
  match p with
  | ph_running k =>
      ct_status c = cs_active /\ 0 <= k /\ horizon c k /\
      ct_nextBillingAt c = Some (nextBillingDate (ct_startDate c) (ct_intervalMonths c) (ct_billingTiming c) k)
  | ph_over => ct_status c = cs_expired /\ ct_nextBillingAt c = None
  | ph_stopped => ct_status c <> cs_active /\ ct_status c <> cs_expired /\ ct_nextBillingAt c = None
  end.

Record represents (cid : string) (c : Contract) (s : Schedule) (d : Db) : Prop := {
  rp_row : db_contracts d !! cid = Some c;
  rp_terms : terms_ok c;
  rp_phase : phase_of c (sc_phase s);
  rp_billed : forall j, 0 <= j -> horizon c j -> (j ∈ sc_billed s <-> In (cid, periodStart (period_of c j)) (ledger d)) }.

Section Dates.
Context (c : Contract) (T : terms_ok c).

Lemma horizon_month k : 0 <= k -> horizon c k -> month4 (month_index (ct_startDate c) + ct_intervalMonths c * k) /\
  month4 (month_index (ct_startDate c) + ct_intervalMonths c * (k + 1)).
Proof.
  intros Hk [Hm _]. destruct (iso_fields _ (to_start _ T)) as (_ & Ms & _). pose proof (to_interval _ T).
  unfold month4 in *. split; nia.
Qed.

Lemma start_iso k : 0 <= k -> horizon c k -> is_iso (periodStart (period_of c k)).
Proof. intros Hk H. apply pstart_month; [apply T|]. apply horizon_month; assumption. Qed.

Lemma next_start_iso k : 0 <= k -> horizon c k -> is_iso (periodStart (period_of c (k + 1))).
Proof. intros Hk H. apply pstart_month; [apply T|]. apply horizon_month; assumption. Qed.

Lemma pointer_iso k : 0 <= k -> horizon c k -> is_iso (nextBillingDate (ct_startDate c) (ct_intervalMonths c) (ct_billingTiming c) k).
Proof. intros Hk H. unfold nextBillingDate. destruct (ct_billingTiming c); [exact (start_iso k Hk H)|exact (next_start_iso k Hk H)]. Qed.

(** The pointer of period [k] makes the run pick period [k]. *)
Lemma due_index_pointer k : 0 <= k -> horizon c k ->
  due_index c (nextBillingDate (ct_startDate c) (ct_intervalMonths c) (ct_billingTiming c) k) = k.
Proof.
  intros Hk H. destruct (horizon_month k Hk H) as [_ Hm]. destruct H as [Hm2 Hg]. pose proof (to_interval _ T) as Hi.
  assert (Hm2' : month4 (month_index (ct_startDate c) + ct_intervalMonths c * (k + 1 + 1))) by (replace (k + 1 + 1) with (k + 2) by lia; exact Hm2).
  unfold due_index, nextBillingDate. destruct (ct_billingTiming c).
  - rewrite (index_of_start _ _ (to_start _ T) Hi k) by (assumption || nia). lia.
  - change (periodEnd (computePeriod (ct_startDate c) (ct_intervalMonths c) k))
      with (periodStart (computePeriod (ct_startDate c) (ct_intervalMonths c) (k + 1))).
    rewrite (index_of_start _ _ (to_start _ T) Hi (k + 1)) by (assumption || nia). lia.
Qed.

Lemma expired_in_term k : is_iso (periodStart (period_of c k)) ->
  isExpired (ct_endDate c) (periodStart (period_of c k)) = negb (in_term (calendar_of c) k).
Proof.
  intros Hs. unfold isExpired, in_term. cbn [calendar_of end_day start_day].
  destruct (ct_endDate c) as [e|] eqn:He; [|reflexivity]. cbn [option_map].
  rewrite (iso_leb _ _ (to_end _ T _ He) Hs), Z.leb_antisym. reflexivity.
Qed.

Lemma starts_distinct j k : 0 <= j -> 0 <= k -> horizon c j -> horizon c k ->
  periodStart (period_of c j) = periodStart (period_of c k) -> j = k.
Proof.
  intros Hj Hk Gj Gk E. destruct (horizon_month j Hj Gj) as [Mj _], (horizon_month k Hk Gk) as [Mk _].
  unfold period_of in E. destruct (Z.lt_trichotomy j k) as [L|[L|L]]; [exfalso|exact L|exfalso].
  - pose proof (pstart_lt _ _ (to_start _ T) (to_interval _ T) _ _ Mj Mk L) as P. rewrite E in P. lia.
  - pose proof (pstart_lt _ _ (to_start _ T) (to_interval _ T) _ _ Mk Mj L) as P. rewrite E in P. lia.
Qed.

(** A period that is due lets the next one be represented. *)
Lemma horizon_next k today : 0 <= k -> horizon c k -> is_iso today ->
  day_of (nextBillingDate (ct_startDate c) (ct_intervalMonths c) (ct_billingTiming c) k) <= day_of today ->
  month4 (month_index today + 3 * ct_intervalMonths c) ->
  month_index today + 2 * ct_intervalMonths c - month_index (ct_startDate c) <= 100000 ->
  horizon c (k + 1).
Proof.
  intros Hk H Ht Hd Hm Hg. destruct (horizon_month k Hk H) as [Mk Mk1]. pose proof (to_interval _ T) as Hi.
  assert (Hle : month_index (ct_startDate c) + ct_intervalMonths c * k <= month_index today).
  { apply (month_index_le _ _ (pointer_iso k Hk H) Ht) in Hd. unfold nextBillingDate in Hd. destruct (ct_billingTiming c).
    - rewrite (proj2 (pstart_month _ _ (to_start _ T) k Mk)) in Hd. exact Hd.
    - change (periodEnd ?p) with (periodStart (computePeriod (ct_startDate c) (ct_intervalMonths c) (k + 1))) in Hd.
      rewrite (proj2 (pstart_month _ _ (to_start _ T) (k + 1) Mk1)) in Hd. lia. }
  destruct H as [H2 _]. unfold horizon, month4 in *. split; nia.
Qed.
End Dates.

Lemma with_billing_terms c st at_ : terms_ok c -> terms_ok (with_billing st at_ c).
Proof. intros [A B C]. constructor; assumption. Qed.

(** ** The refinement *)

(** What the run answers for an outcome, and the ledger row and draft behind a
    billed period. *)
Definition reports (cid : string) (c : Contract) (d d' : Db) (r : GenerateResult) (o : BillOutcome) : Prop :=
  match o with
  | bo_not_due => r = skip not_due
  | bo_expired => r = skip expired
  | bo_already_billed => r = skip already_billed
  | bo_billed k => exists i, gr_invoiceId r = Some i /\ gr_skipped r = None /\ drafted cid c k i d d'
  end.

Definition billed_keys (cid : string) (c : Contract) (o : BillOutcome) : list (string * string) :=
  match o with bo_billed k => [(cid, periodStart (period_of c k))] | _ => [] end.

Definition has_lines (cid : string) (d : Db) : bool := match contract_lines cid d with [] => false | _ => true end.

Lemma has_lines_true cid d : contract_lines cid d <> [] -> has_lines cid d = true.
Proof. unfold has_lines. destruct (contract_lines cid d); [contradiction|reflexivity]. Qed.

(** The ledger of the other contracts. *)
Lemma other_accounts cid c k i d d' other :
  drafted cid c k i d d' -> other <> cid -> account other d' = account other d.
Proof.
  intros (_ & _ & _ & _ & El & Ec) Ho. unfold account. rewrite Ec, lookup_alter_ne by congruence.
  rewrite (billed_starts_snoc other d d' _ El). cbn [fst]. destruct (String.eqb_spec cid other); [congruence|reflexivity].
Qed.

Lemma draft_work_represents `{Uuids} cid c s d d' : draft_work d d' -> represents cid c s d -> represents cid c s d'.
Proof.
  intros Dw [A B C D]. constructor; [rewrite (dw_contracts _ _ Dw); exact A|exact B|exact C|].
  intros j Hj Hh. unfold ledger. rewrite (dw_periods _ _ Dw). apply (D j Hj Hh).
Qed.

(** After period [k] was drafted and claimed. *)
Lemma drafted_represents cid c k i s d d' :
  represents cid c s d -> sc_phase s = ph_running k -> horizon c (k + 1) -> drafted cid c k i d d' ->
  let s' := mkSchedule (if in_term (calendar_of c) (k + 1) then ph_running (k + 1) else ph_over) ({[k]} ∪ sc_billed s) in
  exists c', represents cid c' s' d' /\ c' = with_billing (ct_status c') (ct_nextBillingAt c') c.
Proof.
  intros [Hc T P Bl] Hp H1 (_ & _ & _ & _ & El & Ec) s'. rewrite Hp in P. destruct P as (Hs & Hk & Hh & _).
  pose proof (next_start_iso c T k Hk Hh) as Hi.
  exists (with_billing (fst (next_billing_state c k)) (snd (next_billing_state c k)) c). split; [|reflexivity]. constructor.
  - rewrite Ec, lookup_alter_eq, Hc. reflexivity.
  - apply with_billing_terms, T.
  - unfold next_billing_state. fold (period_of c (k + 1)). rewrite (expired_in_term c T (k + 1) Hi). cbn [s' sc_phase].
    destruct (in_term (calendar_of c) (k + 1)); cbn; [|auto]. split; [exact Hs|]. split; [lia|]. split; [exact H1|].
    unfold nextBillingDate. destruct (ct_billingTiming c); reflexivity.
  - intros j Hj Hjh. rewrite El, in_app_iff. cbn [s' sc_billed]. rewrite elem_of_union, elem_of_singleton, (Bl j Hj Hjh).
    split; [intros [->|Hin]; [right; left; reflexivity|left; exact Hin]|].
    intros [Hin|[E|[]]]; [right; exact Hin|left]. injection E as E. symmetry. apply (starts_distinct c T k j Hk Hj Hh Hjh E).
Qed.

(** The day is representable for the contract: two intervals ahead of it stay in
    four-digit years and below the guard of the index search. *)
Definition day_ok (c : Contract) (today : string) : Prop :=
  is_iso today /\ month4 (month_index today + 3 * ct_intervalMonths c) /\
  month_index today + 2 * ct_intervalMonths c - month_index (ct_startDate c) <= 100000.

Lemma generate_simulates `{Uuids} resolver asOf cid c s d r d' :
  let today := todayISO asOf in
  Billing d -> represents cid c s d -> day_ok c today ->
  generateDueInvoice resolver asOf cid d = Ok (r, d') ->
  let '(s', o) := schedule_step (calendar_of c) (day_of today) (has_lines cid d) s in
  (exists c', represents cid c' s' d' /\ c' = with_billing (ct_status c') (ct_nextBillingAt c') c) /\
  reports cid c d d' r o /\ ledger d' = (ledger d ++ billed_keys cid c o)%list /\
  (forall other, other <> cid -> account other d' = account other d).
Proof.
  intros today B Rp (Ht & Hm & Hg) E. pose proof (generate_ok _ _ _ _ _ _ (bi_wf _ B) (bi_payments _ B) E) as G.
  assert (Self : exists c', represents cid c' s d /\ c' = with_billing (ct_status c') (ct_nextBillingAt c') c)
    by (exists c; split; [exact Rp|destruct c; reflexivity]).
  destruct Rp as [Hc T P Bl]. unfold schedule_step.
  destruct (sc_phase s) as [|k|] eqn:Hp.
  1,3: destruct G as [c' Hc' Hi|c' at_ Hc' Hs|c' at_ d' Hc' Hs|c' at_ r i d1 d' Hc' Hs]; [repeat split; assumption || reflexivity || apply eq_sym, List.app_nil_r|..];
    exfalso; rewrite Hc in Hc'; injection Hc' as <-; cbn in P; destruct P as [P ?]; congruence.
  destruct P as (Hs & Hk & Hh & Hn). pose proof (pointer_iso c T k Hk Hh) as Hdi. pose proof (due_index_pointer c T k Hk Hh) as Hx.
  pose proof (expired_in_term c T k (start_iso c T k Hk Hh)) as Hterm.
  assert (Hdue : str_ltb today (nextBillingDate (ct_startDate c) (ct_intervalMonths c) (ct_billingTiming c) k)
                 = (day_of today <? due_day (calendar_of c) k)) by exact (iso_ltb _ _ Ht Hdi).
  destruct G as [c' Hc' Hi|c' at_ Hc' _ Hn' Hd He|c' at_ d' Hc' _ Hn' Hd He Hin Dw Hl|c' at_ r i d1 d' Hc' _ Hn' Hd He Hin Hr1 Hr2 _ _ _ _ Dr Hl];
    rewrite Hc in Hc'; injection Hc' as <-.
  all: try (rewrite Hn in Hn'; injection Hn' as <-; rewrite Hx, Hterm in He; fold today in Hd; rewrite Hdue in Hd; rewrite Hd).
  - destruct Hi as [Hi|[Hi|[(a & Ha & Hi)|(a & Ha & He & Hl)]]]; [congruence|congruence|..]; rewrite Hn in Ha; injection Ha as <-.
    + fold today in Hi. rewrite Hdue in Hi. rewrite Hi. repeat split; assumption || reflexivity || apply eq_sym, List.app_nil_r.
    + rewrite Hx, Hterm in He. rewrite He. unfold has_lines. rewrite Hl.
      destruct (_ <? _); repeat split; assumption || reflexivity || apply eq_sym, List.app_nil_r.
  - rewrite He. split; [|split; [reflexivity|split; [apply eq_sym, List.app_nil_r|]; intros o Ho; unfold account; cbn; rewrite lookup_alter_ne by congruence; reflexivity]].
    exists (with_billing cs_expired None c). split; [|reflexivity]. constructor; cbn.
    + rewrite lookup_alter_eq, Hc. reflexivity.
    + apply with_billing_terms, T.
    + auto.
    + exact Bl.
  - rewrite He, (has_lines_true _ _ Hl). cbn [negb]. rewrite Hx in Hin. rewrite decide_True by (apply Bl; assumption).
    split; [|split; [reflexivity|split]].
    + destruct Self as (c' & Rp & Ec). exists c'. split; [exact (draft_work_represents _ _ _ _ _ Dw Rp)|exact Ec].
    + cbn. rewrite List.app_nil_r. apply (dw_periods _ _ Dw).
    + intros o Ho. unfold account. rewrite (dw_contracts _ _ Dw), (billed_starts_same o d d'); [reflexivity|apply (dw_periods _ _ Dw)].
  - rewrite He, (has_lines_true _ _ Hl). cbn [negb]. rewrite Hx in Hin, Dr. rewrite decide_False by (rewrite Bl; assumption).
    split; [|split; [|split]].
    + apply (drafted_represents cid c k i s d d'); [constructor; try assumption; rewrite Hp; cbn; auto|exact Hp| |exact Dr].
      apply (horizon_next c T k today); try assumption. apply Z.ltb_ge, Hd.
    + exists i. auto.
    + apply Dr.
    + intros o. apply (other_accounts cid c k i d d' o Dr).
Qed.

(** C26: A successful billing run is one step of the schedule: given a contract
    whose terms are valid dates and whose row and ledger represent a schedule,
    the run leaves a row and ledger that represent the schedule after
    [schedule_step] on that day, reports its outcome (with a new draft whose
    totals are current and a ledger row for the billed period), adds exactly that
    row to the ledger, keeps the contract's terms, and leaves every other
    contract's account alone. *)
Theorem generate_refines_ledger `{Uuids} resolver asOf cid c s d r d' :
  let today := todayISO asOf in
  Billing d -> represents cid c s d -> day_ok c today ->
  generateDueInvoice resolver asOf cid d = Ok (r, d') ->
  let '(s', o) := schedule_step (calendar_of c) (day_of today) (has_lines cid d) s in
  (exists c', represents cid c' s' d' /\ c' = with_billing (ct_status c') (ct_nextBillingAt c') c) /\
  reports cid c d d' r o /\ ledger d' = (ledger d ++ billed_keys cid c o)%list /\
  (forall other, other <> cid -> account other d' = account other d).
Proof. exact (generate_simulates resolver asOf cid c s d r d'). Qed.

(** ** Runs in sequence *)

(** The same contract's billing run on a sequence of days, each committed or
    rolled back on its own. *)
Definition runs `{Uuids} resolver (cid : string) (days : list Z) (d : Db) : Db :=
  fold_left (fun d asOf => commit (generateDueInvoice resolver asOf cid) d) days d.

Section Runs.
Context `{Uuids} (resolver : ContractCoverage.DeviceGroup -> result string (list string * list string)) (cid : string).

(** One committed run of a schedule that is over leaves the ledger alone. *)
Lemma runs_over days : forall c s d,
  Billing d -> represents cid c s d -> sc_phase s = ph_over -> List.Forall (fun x => day_ok c (todayISO x)) days ->
  ledger (runs resolver cid days d) = ledger d.
Proof.
  induction days as [|day days IH]; intros c s d B Rp Hp Hd; [reflexivity|]. inversion Hd as [|? ? H1 H2]; subst.
  cbn [runs fold_left]. change (fold_left _ days ?x) with (runs resolver cid days x). unfold commit.
  destruct (generateDueInvoice resolver day cid d) as [[r d1]|e] eqn:E; [|exact (IH c s d B Rp Hp H2)].
  pose proof (generate_Billing _ _ _ _ _ _ B E) as B1.
  pose proof (generate_ok _ _ _ _ _ _ (bi_wf _ B) (bi_payments _ B) E) as G.
  destruct Rp as [Hc T P Bl]. rewrite Hp in P. destruct P as [Hs Hn].
  destruct G as [c' Hc' Hi|c' at_ Hc' Hs'|c' at_ d1 Hc' Hs'|c' at_ r i d0 d1 Hc' Hs']; try (exfalso; rewrite Hc in Hc'; injection Hc' as <-; congruence).
  apply (IH c s d); [exact B1|constructor; try assumption; rewrite Hp; split; assumption|exact Hp|exact H2].
Qed.

Lemma runs_cons day days d :
  runs resolver cid (day :: days) d = runs resolver cid days (commit (generateDueInvoice resolver day cid) d).
Proof. reflexivity. Qed.

(** Periods [k], [k + 1], ... in the ledger. *)
Definition period_keys (c : Contract) (k : Z) (m : nat) : list (string * string) :=
  map (fun j => (cid, periodStart (period_of c (k + Z.of_nat j)))) (List.seq 0 m).

Lemma period_keys_S c k m : period_keys c k (S m) = (cid, periodStart (period_of c k)) :: period_keys c (k + 1) m.
Proof.
  unfold period_keys. cbn [List.seq map]. rewrite Z.add_0_r, <- List.seq_shift, map_map. f_equal.
  apply map_ext. intros j. do 3 f_equal. lia.
Qed.

(** The first [m] periods from [k] were in the term and due on one of the days. *)
Definition all_due (c : Contract) (k : Z) (m : nat) (days : list Z) : Prop :=
  forall j, (j < m)%nat -> in_term (calendar_of c) (k + Z.of_nat j) = true /\
    exists x, In x days /\ due_day (calendar_of c) (k + Z.of_nat j) <= day_of (todayISO x).

Lemma all_due_weaken c k m x days : all_due c k m days -> all_due c k m (x :: days).
Proof. intros A j Hj. destruct (A j Hj) as (Ht & y & Hy & Hd). split; [exact Ht|]. exists y. split; [right; exact Hy|exact Hd]. Qed.

Lemma all_due_S c k m x days :
  in_term (calendar_of c) k = true -> due_day (calendar_of c) k <= day_of (todayISO x) -> all_due c (k + 1) m days ->
  all_due c k (S m) (x :: days).
Proof.
  intros Ht Hd A [|j] Hj.
  - rewrite Z.add_0_r. split; [exact Ht|]. exists x. split; [left; reflexivity|exact Hd].
  - destruct (A j ltac:(lia)) as (Ht' & y & Hy & Hd'). replace (k + Z.of_nat (S j)) with (k + 1 + Z.of_nat j) by lia.
    split; [exact Ht'|]. exists y. split; [right; exact Hy|exact Hd'].
Qed.
End Runs.

(** C27: Billing runs leave no gap and repeat nothing: from a schedule about to
    bill period [k] with no later period billed, whatever the days the runs
    fall on and whichever of them fail and roll back, the ledger grows by
    exactly the periods [k], [k+1], ..., [k+m-1] in this order, each of them in
    the contract's term and due on one of the days. *)
Theorem billing_gapless `{Uuids} resolver cid days : forall c k billed d,
  Billing d -> represents cid c (mkSchedule (ph_running k) billed) d -> (forall j, k <= j -> j ∉ billed) ->
  List.Forall (fun x => day_ok c (todayISO x)) days ->
  exists m, ledger (runs resolver cid days d) = (ledger d ++ period_keys cid c k m)%list /\ all_due c k m days.
Proof.
  induction days as [|day days IH]; intros c k billed d B Rp Hb Hd.
  { exists 0%nat. split; [symmetry; apply List.app_nil_r|intros j Hj; lia]. }
  inversion Hd as [|? ? H1 H2]; subst. rewrite runs_cons. unfold commit.
  destruct (generateDueInvoice resolver day cid d) as [[r d1]|e] eqn:E.
  2:{ destruct (IH c k billed d B Rp Hb H2) as (m & L & A). exists m. split; [exact L|apply all_due_weaken, A]. }
  pose proof (generate_Billing _ _ _ _ _ _ B E) as B1.
  pose proof (generate_simulates _ _ _ _ _ _ _ _ B Rp H1 E) as S. unfold schedule_step in S. cbn [sc_phase sc_billed] in S.
  assert (Stay : forall s' o, (exists c', represents cid c' s' d1 /\ c' = with_billing (ct_status c') (ct_nextBillingAt c') c) ->
    s' = mkSchedule (ph_running k) billed -> ledger d1 = (ledger d ++ billed_keys cid c o)%list -> billed_keys cid c o = [] ->
    exists m, ledger (runs resolver cid days d1) = (ledger d ++ period_keys cid c k m)%list /\ all_due c k m (day :: days)).
  { intros s' o (c' & Rp' & Ec) -> El Eo. rewrite Eo, List.app_nil_r in El. rewrite Ec in Rp'.
    destruct (IH _ k billed d1 B1 Rp' Hb H2) as (m & L & A). exists m. rewrite <- El. split; [exact L|apply all_due_weaken, A]. }
  destruct (Z.ltb_spec (day_of (todayISO day)) (due_day (calendar_of c) k)) as [Hlt|Hle].
  { destruct S as (X & _ & El & _). exact (Stay _ bo_not_due X eq_refl El eq_refl). }
  destruct (in_term (calendar_of c) k) eqn:Ht; cbn [negb] in S.
  2:{ destruct S as ((c' & Rp' & Ec) & _ & El & _). cbn in El. rewrite List.app_nil_r in El. rewrite Ec in Rp'.
      exists 0%nat. rewrite (runs_over resolver cid days _ _ d1 B1 Rp' eq_refl H2), El.
      split; [symmetry; apply List.app_nil_r|intros j Hj; lia]. }
  destruct (has_lines cid d); cbn [negb] in S; [|destruct S as (X & _ & El & _); exact (Stay _ bo_not_due X eq_refl El eq_refl)].
  rewrite decide_False in S by (apply Hb; lia). destruct S as ((c' & Rp' & Ec) & _ & El & _). cbn in El. rewrite Ec in Rp'.
  destruct (in_term (calendar_of c) (k + 1)) eqn:Ht1.
  - assert (Hb' : forall j, k + 1 <= j -> j ∉ {[k]} ∪ billed).
    { intros j Hj Hin. apply elem_of_union in Hin as [Hin|Hin]; [apply elem_of_singleton in Hin; lia|apply (Hb j); [lia|exact Hin]]. }
    destruct (IH _ (k + 1) _ d1 B1 Rp' Hb' H2) as (m & L & A). exists (S m).
    rewrite period_keys_S, L, El, <- List.app_assoc. split; [reflexivity|]. apply all_due_S; [exact Ht|lia|exact A].
  - exists 1%nat. rewrite (runs_over resolver cid days _ _ d1 B1 Rp' eq_refl H2), El, period_keys_S.
    split; [reflexivity|]. apply all_due_S; [exact Ht|lia|intros j Hj; lia].
Qed.
