(* ===== verification/ContractProperties.v ===== *)
(** * Properties of contract billing

    The estimate against generation, device evidence against the billed
    quantity, what becomes of a contract resumed inside a period it already
    billed, and of an auto-renewing contract after its last in-term period. *)

From Stdlib Require Import QArith Permutation.
From S2P Require Import Prelude JsString JsNumber Currency IsoDate QuoteMath QuoteSpec InvoiceMath ContractMath TimeBilling CatalogPricing ContractCoverage BillingDb InvoiceService InvoiceLifecycle InvoiceInvariants InvoiceSafety ContractService ContractRenewal ContractSafety ContractLedger.
From stdpp Require Import base gmap strings list pretty.

Local Open Scope string_scope.
Local Open Scope Z_scope.
Local Open Scope billing_scope.

(** ** Counts as text *)

Lemma js_Number_print_int n : 0 <= n < int_bound -> js_Number (print_int n) = ofZ n.
Proof.
  intros [Hn Hb]. unfold print_int. rewrite (proj2 (Z.ltb_ge n 0)) by lia.
  assert (E : js_Number (append (print_dec n) "") = JsNumber.fin (inject_Z n)).
  { apply (js_Number_plain (print_dec n) "" "" (inject_Z n) false);
      [apply all_digits_print, Hn|reflexivity|apply print_dec_nonempty|auto|auto|].
    rewrite dec_Q_frac, append_nil_r, dec_val_print by exact Hn. change (ten ^ (- slen ""))%Q with 1%Q. ring. }
  rewrite append_nil_r in E. rewrite E. apply fin_int; [reflexivity|lia].
Qed.

Lemma counted_kept n spec mode : rq_counted (applyAllowance n spec mode) = n.
Proof. unfold applyAllowance. destruct (option_map _ _); reflexivity. Qed.

(** ** The estimate *)

(** A device-counted line: its matched devices, their count and its text. *)
Ltac device_line :=
  match goal with E : bind _ _ _ = Ok _, Hdev : context [orderDevicesForEvidence] |- _ =>
    let G := fresh in let Hm := fresh in let ms := fresh in
    apply bind_ok in E as (? & ? & G & E); pose proof (read_only _ _ _ G); subst; apply bind_ok in E as (ms & ? & Hm & E);
    apply lift_coverage_ok in Hm as [Hm ->]; cbv zeta in E; apply ret_ok in E as [[= -> ->] _];
    let Hq := fresh in let Hp := fresh in let Hl := fresh in destruct (Hdev _ Hm) as (Hq & Hp & Hl);
    unfold bind; rewrite ?G, Hq, Hp; split; [reflexivity|]; intros ? [= <-]; rewrite Hl; apply counted_kept
  end.

(** The estimate and the invoice resolve a contract line to the same
    quantities: for a line generation accepts (its site and group still exist),
    the split of the quantity generation bills into billed units and overage is
    exactly what the estimate shows, marked resolved; and a device-counted line
    bills as many devices as it lists in evidence. *)
Theorem estimate_matches_generation snapshot orgId l d q rows d' :
  Z.of_nat (List.length (sn_devices snapshot)) < int_bound ->
  (forall n, rf_seats (db_ref d) !! orgId = Some n -> 0 <= n < int_bound) ->
  isSiteDeletedLine l = false -> (cl_lineType (cn_coverage l) = lt_per_device_group -> group_present snapshot l = true) ->
  line_quantity snapshot orgId l d = Ok (q, rows, d') ->
  let r := applyAllowance (js_Number q) (cn_allowance l) included_units in
  resolveLineQty snapshot orgId l d = Ok (mkLineQuantity r (negb (match cl_lineType (cn_coverage l) with lt_flat | lt_manual => true | _ => false end)) None, d) /\
  (forall devices, rows = Some devices -> rq_counted r = ofZ (Z.of_nat (List.length devices))).
Proof.
  intros Hn Hseat Hsite Hgroup E r. unfold r. clear r.
  assert (Hdev : forall ms, matchingDevicesForLine snapshot (cn_coverage l) = Ok ms ->
    quantityFor snapshot (cn_coverage l) = Ok (Z.of_nat (List.length ms)) /\
    js_Number (print_int (Z.of_nat (List.length (orderDevicesForEvidence ms)))) = ofZ (Z.of_nat (List.length ms)) /\
    List.length (orderDevicesForEvidence ms) = List.length ms).
  { intros ms Hm. unfold quantityFor. rewrite Hm. split; [reflexivity|].
    rewrite <- (Permutation_length (order_perm ms)). split; [|reflexivity]. apply js_Number_print_int.
    unfold matchingDevicesForLine in Hm. apply rbind_ok in Hm as (? & _ & Hm). destruct (negb _); [discriminate|]. injection Hm as <-.
    pose proof (filter_length_le (is_matched (cn_coverage l) snapshot) (sn_devices snapshot)). lia. }
  unfold line_quantity in E. unfold resolveLineQty. rewrite Hsite.
  destruct (cl_lineType (cn_coverage l)) eqn:Ht.
  - apply ret_ok in E as [[= -> ->] _]. split; [reflexivity|discriminate].
  - device_line.
  - device_line.
  - rewrite (Hgroup eq_refl). device_line.
  - apply bind_ok in E as (n & d1 & G & E). apply read_ok in G as [-> ->]. apply ret_ok in E as [[= -> ->] _]. split; [|discriminate].
    unfold bind, countContractSeats, read. rewrite js_Number_print_int; [reflexivity|].
    destruct (rf_seats (db_ref d) !! orgId) as [n|] eqn:Hs; [exact (Hseat n eq_refl)|]. unfold int_bound. lia.
  - apply ret_ok in E as [[= -> ->] _]. split; [reflexivity|discriminate].
Qed.

(** ** Device evidence *)

Definition count_as (a : CountedAs) (es : list PendingEvidence) : Z :=
  Z.of_nat (List.length (List.filter (fun e => bool_decide (ev_countedAs e = a)) es)).

(** What becomes of the devices above the allowance. *)
Definition excess_as (mode : option OverageMode) : CountedAs :=
  match mode with Some om_bill => ca_overage | _ => ca_flagged end.

Definition evidence_line (m : MaterializedContractLine) (e : PendingEvidence) : Prop :=
  match ev_countedAs e, mz_overageLine m with
  | ca_overage, Some o => ev_invoiceLineId e = il_id o
  | ca_overage, None => False
  | _, _ => ev_invoiceLineId e = il_id (mz_baseLine m)
  end.

Lemma evidence_from_spec cut mode m rows : forall i d es d',
  evidence_from i (ofZ cut) mode m rows d = Ok (es, d') ->
  map ev_device es = rows /\ List.Forall (evidence_line m) es /\
  count_as ca_included es = Z.max 0 (Z.min (cut - i) (Z.of_nat (List.length rows))) /\
  count_as (excess_as mode) es = Z.of_nat (List.length rows) - Z.max 0 (Z.min (cut - i) (Z.of_nat (List.length rows))).
Proof.
  induction rows as [|row rows IH]; intros i d es d' E; cbn [evidence_from] in E.
  - apply ret_ok in E as [-> ->]. split; [reflexivity|]. split; [apply List.Forall_nil|]. unfold count_as. cbn. lia.
  - cbv zeta in E. rewrite js_lt_int in E. apply bind_ok in E as (lid & d1 & G & E). apply bind_ok in E as (more & d2 & G2 & E).
    apply ret_ok in E as [-> ->]. destruct (IH _ _ _ _ G2) as (A & B & C & D). clear IH G2.
    change (Datatypes.length (row :: rows)) with (S (List.length rows)). unfold count_as in *. cbn [map List.filter ev_device ev_countedAs].
    assert (Hx : excess_as mode <> ca_included) by (destruct mode as [[]|]; discriminate).
    fold (excess_as mode) in G |- *. rewrite A. split; [reflexivity|]. split.
    + constructor; [|exact B]. unfold evidence_line. cbn [ev_countedAs ev_invoiceLineId]. destruct (i <? cut); [apply ret_ok in G as [-> _]; reflexivity|].
      destruct (excess_as mode), (mz_overageLine m); first [apply ret_ok in G as [-> _]; reflexivity|discriminate G].
    + destruct (Z.ltb_spec i cut).
      * rewrite bool_decide_true by reflexivity. rewrite bool_decide_false by congruence. cbn [List.length]. lia.
      * rewrite bool_decide_false by congruence. rewrite bool_decide_true by reflexivity. cbn [List.length]. lia.
Qed.

(** The devices the allowance covers: all of them when there is none. *)
Definition allowed (spec : AllowanceSpec) (n k : Z) : Prop :=
  match includedQuantity spec with None => k = n | Some s => js_Number s = ofZ k end.

(** The device evidence of a contract line accounts for its quantity: every
    counted device appears once, in the canonical order; as many are marked
    included as the allowance covers; the rest are exactly the overage the line
    bills or flags, marked so; and each row hangs on the invoice line that bills
    its device (the overage line for billed overage, the base line otherwise). *)
Theorem evidence_accounts_for_quantity devices spec k m d es d' :
  let n := Z.of_nat (List.length devices) in
  n < 10 ^ 12 -> 0 <= k < 10 ^ 12 -> allowed spec n k ->
  let r := applyAllowance (ofZ n) spec included_units in
  evidenceForLine devices r m d = Ok (es, d') ->
  map ev_device es = orderDevicesForEvidence devices /\ List.Forall (evidence_line m) es /\
  count_as ca_included es = Z.min k n /\
  count_as (excess_as (rq_overageMode r)) es = Z.max 0 (n - k) /\ rq_overage r = ofZ (Z.max 0 (n - k)).
Proof.
  intros n Hn Hk Ha r E. unfold evidenceForLine in E. cbv zeta in E.
  assert (Hl : List.length (orderDevicesForEvidence devices) = List.length devices) by (symmetry; apply Permutation_length, order_perm).
  rewrite Hl in E. fold n in E.
  assert (Hc : match rq_included r with Some i => math_min i (ofZ n) | None => ofZ n end = ofZ (Z.min k n) /\ rq_overage r = ofZ (Z.max 0 (n - k))).
  { unfold r, applyAllowance, allowed in *. destruct (includedQuantity spec) as [s|]; cbn [option_map rq_included rq_overage].
    - rewrite Ha, math_min_int, js_sub_int by (unfold int_bound; lia). split; [reflexivity|apply math_max_int].
    - subst k. rewrite Z.min_id, Z.sub_diag. auto. }
  destruct Hc as [Hc Ho].
  assert (E' : evidence_from 0 (ofZ (Z.min k n)) (rq_overageMode r) m (orderDevicesForEvidence devices) d = Ok (es, d')) by (rewrite <- Hc; exact E).
  apply evidence_from_spec in E' as (A & B & C & D). rewrite Hl in C, D. fold n in C, D.
  repeat split; [exact A|exact B|lia|lia|exact Ho].
Qed.

(** ** A contract resumed inside a period it already billed *)

Lemma billed_pointer_stalls `{Uuids} resolver cid c at_ days : forall d,
  Billing d -> db_contracts d !! cid = Some c -> ct_status c = cs_active -> ct_nextBillingAt c = Some at_ ->
  isExpired (ct_endDate c) (periodStart (period_of c (due_index c at_))) = false ->
  In (cid, periodStart (period_of c (due_index c at_))) (ledger d) ->
  account cid (runs resolver cid days d) = account cid d.
Proof.
  induction days as [|day days IH]; intros d B Hc Hs Hn He Hin; [reflexivity|]. cbn [runs fold_left].
  change (fold_left _ days ?x) with (runs resolver cid days x). unfold commit.
  destruct (generateDueInvoice resolver day cid d) as [[r d1]|e] eqn:E; [|apply IH; assumption].
  pose proof (generate_Billing _ _ _ _ _ _ B E) as B1.
  destruct (generate_ok _ _ _ _ _ _ (bi_wf _ B) (bi_payments _ B) E)
    as [c' Hc' _|c' at' Hc' _ Hn' _ He'|c' at' d1 Hc' _ _ _ _ _ Dw|c' at' r i d0 d1 Hc' _ Hn' _ _ Hnew].
  - apply IH; assumption.
  - rewrite Hc in Hc'. injection Hc' as <-. rewrite Hn in Hn'. injection Hn' as <-. congruence.
  - assert (Hc1 : db_contracts d1 !! cid = Some c) by (rewrite (dw_contracts _ _ Dw); exact Hc).
    rewrite IH; try assumption.
    + unfold account. rewrite Hc, Hc1. cbn. do 2 f_equal. apply billed_starts_same, (dw_periods _ _ Dw).
    + unfold ledger. rewrite (dw_periods _ _ Dw). exact Hin.
  - rewrite Hc in Hc'. injection Hc' as <-. rewrite Hn in Hn'. injection Hn' as <-. contradiction.
Qed.

(** C29: A contract billed in advance that is paused and resumed inside a period
    it has already billed is never billed again: resuming points it back at the
    start of that period, whose ledger claim then fails on every later run
    without moving the pointer, so its account stays the same whatever the days
    the billing runs on. *)
Theorem resume_in_billed_period_stalls `{Uuids} resolver cid c day actor days d u d' :
  Billing d -> db_contracts d !! cid = Some c -> ct_billingTiming c = advance ->
  is_iso (ct_startDate c) -> 1 <= ct_intervalMonths c ->
  let idx := periodIndexFor (ct_startDate c) (ct_intervalMonths c) day in
  0 <= idx -> month4 (month_index (ct_startDate c) + ct_intervalMonths c * (idx + 1)) -> ct_intervalMonths c * idx <= 100000 ->
  In (cid, periodStart (period_of c idx)) (ledger d) -> isExpired (ct_endDate c) (periodStart (period_of c idx)) = false ->
  resumeContract day cid actor d = Ok (u, d') ->
  account cid (runs resolver cid days d') = account cid d' /\
  option_map ct_nextBillingAt (db_contracts d' !! cid) = Some (Some (periodStart (period_of c idx))).
Proof.
  intros B Hc Ht Hi H1 idx H0 Hm Hg Hin He E. unfold resumeContract, resume_plan in E.
  apply bind_ok in E as (set & d0 & Gp & E). apply bind_ok in Gp as (c' & d1 & G & Gp). unfold getOwnedContractOr404 in G. apply bind_ok in G as (row & d2 & Gr & G). apply read_ok in Gr as [-> ->].
  rewrite Hc in G. apply bind_ok in G as (? & d2 & Gq & G). pose proof (read_only _ _ _ Gq) as ->. apply ret_ok in G as [-> ->].
  apply bind_ok in Gp as (? & d1 & G & Gp). pose proof (read_only _ _ _ G) as ->. apply bind_ok in Gp as (? & d1 & G1 & Gp). apply require_ok in G1 as [_ ->].
  apply ret_ok in Gp as [-> ->]. cbn in E. apply modify_ok in E as ->. set (c1 := with_billing cs_active (Some (pointer_on c day)) c).
  assert (Hp : pointer_on c day = periodStart (period_of c idx)) by (unfold pointer_on, nextBillingDate; rewrite Ht; reflexivity).
  assert (Hd : due_index c1 (pointer_on c day) = idx).
  { unfold due_index. cbn. rewrite Ht, Hp. unfold period_of. rewrite (index_of_start _ _ Hi H1 idx H0 Hm Hg). lia. }
  assert (Hrow : alter (with_billing cs_active (Some (pointer_on c day))) cid (db_contracts d) !! cid = Some c1) by (rewrite lookup_alter_eq, Hc; reflexivity).
  split; [|cbn; rewrite Hrow; cbn; rewrite Hp; reflexivity].
  apply (billed_pointer_stalls resolver cid c1 (pointer_on c day)).
  - exact (same_invoicing_Billing _ _ (contracts_same _ _) B).
  - exact Hrow.
  - reflexivity.
  - reflexivity.
  - rewrite Hd. exact He.
  - rewrite Hd. exact Hin.
Qed.

(** ** An auto-renewing contract after its last in-term period *)

Lemma no_extension e due t : isExpired (Some e) due = false -> extendTermPastDue e due t = (e, false).
Proof.
  intros E. unfold extendTermPastDue. generalize (Z.to_nat 100001). intros [|n]; [reflexivity|].
  cbn [extend_walk]. rewrite E. reflexivity.
Qed.

Lemma claimNotice_ok c e k d b d' : claimNotice c e k d = Ok (b, d') -> exists ns, d' = set_notices ns d.
Proof.
  unfold claimNotice. intros E. apply bind_ok in E as (t & d1 & G & E). apply read_ok in G as [-> ->]. destruct (existsb _ _).
  - apply ret_ok in E as [_ ->]. exists (db_notices d). destruct d. reflexivity.
  - apply bind_ok in E as (? & d1 & G & E). apply modify_ok in G as ->. apply ret_ok in E as [_ ->]. eauto.
Qed.

(** The renewal of a candidate writes its end date and notices only. *)
Lemma renew_candidate_ok today e d x d' :
  renew_candidate today e d = Ok (x, d') ->
  exists ns, d' = set_notices ns d \/ exists newEnd, d' = set_notices ns (set_contracts (alter (with_end newEnd) (fst e) (db_contracts d)) d).
Proof.
  destruct e as [id c]. unfold renew_candidate. intros E.
  assert (Same : exists ns, d = set_notices ns d) by (exists (db_notices d); destruct d; reflexivity).
  destruct (truthy (ct_endDate c)) as [e|]; [|apply ret_ok in E as [_ ->]; destruct Same; eauto].
  destruct (ct_renewalTermMonths c); [|apply ret_ok in E as [_ ->]; destruct Same; eauto].
  apply bind_ok in E as (n & d1 & G & E).
  assert (N : exists ns, d1 = set_notices ns d) by (destruct (isWithinNoticeWindow _ _ _); [exact (claimNotice_ok _ _ _ _ _ _ G)|apply ret_ok in G as [_ ->]; exact Same]).
  destruct N as (ns & ->). apply bind_ok in E as (b & d2 & G2 & E). apply ret_ok in E as [_ ->].
  destruct (renewal_of today c) as [newEnd|]; [|apply ret_ok in G2 as [_ ->]; eauto].
  apply bind_ok in G2 as (? & d3 & G3 & G2). unfold update_contract in G3. apply modify_ok in G3 as ->.
  apply bind_ok in G2 as (? & d3 & G3 & G2). apply ret_ok in G2 as [_ ->]. apply claimNotice_ok in G3 as (ns' & ->).
  exists ns'. right. exists newEnd. reflexivity.
Qed.

Lemma renew_all_keeps today cid cs : forall d x d',
  ~ In cid (map fst cs) -> renew_all today cs d = Ok (x, d') -> db_contracts d' !! cid = db_contracts d !! cid.
Proof.
  induction cs as [|e cs IH]; intros d x d' Hn E; cbn [renew_all] in E; [apply ret_ok in E as [_ ->]; reflexivity|].
  apply bind_ok in E as (a & d1 & G & E). apply bind_ok in E as (b & d2 & G2 & E). apply ret_ok in E as [_ ->].
  rewrite (IH _ _ _ (fun H => Hn (or_intror H)) G2). apply renew_candidate_ok in G as (ns & [->|(ne & ->)]); [reflexivity|].
  cbn. apply lookup_alter_ne. intros Hc. apply Hn. left. exact Hc.
Qed.

Lemma not_a_candidate cid c d : db_contracts d !! cid = Some c -> ct_status c <> cs_active -> ~ In cid (map fst (renewal_candidates d)).
Proof.
  intros Hc Hs Hin. apply in_map_iff in Hin as ([id c'] & <- & Hin). apply filter_In in Hin as [Hin E].
  apply list_elem_of_In, elem_of_map_to_list in Hin. cbn in *. rewrite Hin in Hc. injection Hc as ->.
  destruct (ct_status c); try discriminate E. congruence.
Qed.

(** C30: A contract billed in advance expires as soon as its last in-term period
    is billed, auto-renew or not: while that period is due the renewal pass does
    not extend the term (the due period is still in it), and once it is billed
    the contract is expired, which no later renewal pass selects. *)
Theorem auto_renewal_never_reached `{Uuids} resolver cid c at_ asOf d r i d' :
  Billing d -> db_contracts d !! cid = Some c -> ct_nextBillingAt c = Some at_ -> ct_billingTiming c = advance ->
  isExpired (ct_endDate c) at_ = false ->
  isExpired (ct_endDate c) (periodStart (period_of c (due_index c at_ + 1))) = true ->
  generateDueInvoice resolver asOf cid d = Ok (r, d') -> gr_invoiceId r = Some i ->
  (forall today, renewal_of today c = None) /\
  (forall asOf' x d'', runContractRenewalSweep asOf' d' = Ok (x, d'') ->
     db_contracts d'' !! cid = Some (with_billing cs_expired None c)).
Proof.
  intros B Hc Hn Ht He Hx E Hi. split.
  - intros today. unfold renewal_of. rewrite Hn. destruct (truthy (ct_endDate c)) as [e|] eqn:Ee; [|reflexivity].
    destruct (ct_renewalTermMonths c) as [t|]; [|reflexivity]. destruct (truthy (Some at_)) as [a|] eqn:Ea; [|reflexivity].
    assert (a = at_) as -> by (cbn in Ea; destruct (String.eqb _ _); congruence).
    assert (Ee' : ct_endDate c = Some e) by (destruct (ct_endDate c) as [e'|]; cbn in Ee; [destruct (String.eqb _ _); congruence|discriminate]).
    rewrite Ee' in He. unfold duePeriodStartFor. rewrite Ht, (no_extension _ _ t He). destruct (str_ltb today at_); reflexivity.
  - intros asOf' x d'' E2.
    assert (Hrow : db_contracts d' !! cid = Some (with_billing cs_expired None c)).
    { destruct (generate_ok _ _ _ _ _ _ (bi_wf _ B) (bi_payments _ B) E)
        as [? ? ?|? ? ? ? ? ? ?|? ? ? ? ? ? ? ? ? ?|c' at' r i' d1 d' Hc' Hs Hn' Hd He' Hin Hr1 Hr2 Hr3 Hr4 Dw Si Dr]; try discriminate Hi.
      rewrite Hc in Hc'. injection Hc' as <-. rewrite Hn in Hn'. injection Hn' as <-. destruct Dr as (_ & _ & _ & _ & _ & Ec).
      rewrite Ec, lookup_alter_eq, Hc. unfold next_billing_state. fold (period_of c (due_index c at_ + 1)). rewrite Hx. reflexivity. }
    unfold runContractRenewalSweep in E2. apply bind_ok in E2 as (cs & d1 & G & E2). apply read_ok in G as [-> ->].
    rewrite (renew_all_keeps _ cid _ _ _ _ (not_a_candidate _ _ _ Hrow ltac:(discriminate)) E2). exact Hrow.
Qed.

(** ** A small contract to run the operations on *)

Definition sample_contract (status : ContractStatus) (next : option string) (endDate : option string) (autoRenew : bool) : Contract :=
  mkContract "msp" "org" "Managed services" status advance 1 "2026-01-01" endDate next false autoRenew (Some 3) (Some 30) "USD" None None None.
Definition flat_line : ContractLine :=
  mkContractLine "line" "ct" "org" (mkCoverage lt_flat None None None) "Support" None "250.00" None None None (mkAllowance None None None) true 0.
Definition contract_db (c : Contract) : Db :=
  mkDb sample_ref ∅ [] [] [] [] [] {["ct" := c]} [flat_line] [] [] [] ∅ [] [] 0.
Definition no_groups (g : DeviceGroup) : result string (list string * list string) := Err "no groups".
(** Noon on a day. *)
Definition noon (iso : string) : Z := day_of iso * MS_PER_DAY + 43200000.

Lemma no_invoices_Billing `{Uuids} d :
  db_invoices d = ∅ -> db_lines d = [] -> db_payments d = [] -> db_stripe d = [] ->
  List.NoDup (map entry_id (db_entries d)) -> List.NoDup (map part_id (db_parts d)) -> Billing d.
Proof.
  intros Ei El Ep Es He Hp.
  assert (N : forall j v, db_invoices d !! j = Some v -> False) by (intros j v E; rewrite Ei, lookup_empty in E; discriminate).
  constructor; try assumption; rewrite ?Ep; try (intros; exfalso; eapply N; eassumption).
  - constructor; rewrite ?El; [constructor|intros x []|intros l []| | |intros l []].
    + intros j [v E]. elim (N _ _ E).
    + intros j v E. elim (N _ _ E).
  - constructor.
  - intros x [].
  - intros p Hin. rewrite Ep in Hin. destruct Hin.
  - constructor; rewrite ?Es; [constructor|intros x []|intros r r' pid []|intros r []|intros p []].
Qed.

Lemma contract_db_Billing c : Billing (contract_db c).
Proof. apply no_invoices_Billing; try reflexivity; constructor. Qed.

(** A running monthly contract from January 2026 with nothing billed. *)
Definition running_contract : Contract := sample_contract cs_active (Some "2026-01-01") None false.
Definition january : Schedule := mkSchedule (ph_running 0) ∅.

Lemma january_represents : represents "ct" running_contract january (contract_db running_contract).
Proof.
  constructor.
  - reflexivity.
  - constructor; [solve_iso|cbn; lia|discriminate].
  - cbn. split; [reflexivity|]. split; [lia|]. split; [|reflexivity].
    split; [vm_compute; split; [discriminate|reflexivity]|cbn; lia].
  - intros j _ _. cbn. set_solver.
Qed.

Lemma january_days : List.Forall (fun x => day_ok running_contract (todayISO x)) [noon "2026-01-15"; noon "2026-01-20"; noon "2026-02-03"].
Proof.
  assert (D : forall s x, todayISO x = s -> is_iso s -> 24000 <= month_index s < 25000 -> day_ok running_contract (todayISO x)).
  { intros s x -> Hs Hm. split; [exact Hs|]. assert (E : month_index "2026-01-01" = 24312) by (vm_compute; reflexivity).
    unfold month4. cbn [ct_intervalMonths ct_startDate running_contract sample_contract]. rewrite E. lia. }
  apply List.Forall_cons; [|apply List.Forall_cons; [|apply List.Forall_cons; [|apply List.Forall_nil]]].
  - apply (D "2026-01-15"); [vm_compute; reflexivity|solve_iso|vm_compute; split; [discriminate|reflexivity]].
  - apply (D "2026-01-20"); [vm_compute; reflexivity|solve_iso|vm_compute; split; [discriminate|reflexivity]].
  - apply (D "2026-02-03"); [vm_compute; reflexivity|solve_iso|vm_compute; split; [discriminate|reflexivity]].
Qed.

(** Billed on the 15th of January: the schedule moves to February. *)
Lemma generate_refines_ledger_witness :
  exists r d' c', generateDueInvoice no_groups (noon "2026-01-15") "ct" (contract_db running_contract) = Ok (r, d') /\
    represents "ct" c' (mkSchedule (ph_running 1) {[0]}) d' /\ gr_invoiceId r = Some "0".
Proof.
  destruct (generateDueInvoice no_groups (noon "2026-01-15") "ct" (contract_db running_contract)) as [[r d']|e] eqn:E;
    [|exfalso; vm_compute in E; discriminate E].
  pose proof (List.Forall_inv january_days) as Hd. cbv beta in Hd.
  pose proof (generate_refines_ledger no_groups (noon "2026-01-15") "ct" running_contract january (contract_db running_contract) r d'
    (contract_db_Billing _) january_represents Hd E) as S. cbv zeta in S.
  assert (Es : schedule_step (calendar_of running_contract) (day_of (todayISO (noon "2026-01-15"))) (has_lines "ct" (contract_db running_contract)) january
               = (mkSchedule (ph_running 1) {[0]}, bo_billed 0)) by (vm_compute; reflexivity).
  rewrite Es in S. destruct S as ((c' & Rp & _) & _ & _ & _). exists r, d', c'. split; [reflexivity|]. split; [exact Rp|].
  transitivity (match generateDueInvoice no_groups (noon "2026-01-15") "ct" (contract_db running_contract)
                with Ok (r, _) => gr_invoiceId r | Err _ => None end); [rewrite E; reflexivity|vm_compute; reflexivity].
Defined.

(** Three runs, the second of them too early: January and February. *)
Lemma billing_gapless_witness :
  exists m, ledger (runs no_groups "ct" [noon "2026-01-15"; noon "2026-01-20"; noon "2026-02-03"] (contract_db running_contract))
    = period_keys "ct" running_contract 0 m /\ period_keys "ct" running_contract 0 2 = [("ct", "2026-01-01"); ("ct", "2026-02-01")].
Proof.
  destruct (billing_gapless no_groups "ct" _ running_contract 0 ∅ (contract_db running_contract) (contract_db_Billing _) january_represents
    ltac:(intros j _; apply not_elem_of_empty) january_days)
    as (m & L & _).
  exists m. split; [exact L|vm_compute; reflexivity].
Defined.

(** Billed in January, paused and resumed on the 20th. *)
Definition january_billed : Db :=
  commit (generateDueInvoice no_groups (noon "2026-01-15") "ct") (contract_db (sample_contract cs_active (Some "2026-01-01") None false)).
Definition paused_db : Db := commit (pauseContract "ct" sample_actor) january_billed.

Lemma paused_db_Billing : Billing paused_db.
Proof.
  assert (B : Billing january_billed).
  { unfold january_billed, commit. destruct (generateDueInvoice _ _ _ _) as [[r d]|e] eqn:E; [|apply contract_db_Billing].
    exact (generate_Billing _ _ _ _ _ _ (contract_db_Billing _) E). }
  unfold paused_db, commit. destruct (pauseContract _ _ _) as [[u d]|e] eqn:E; [|exact B].
  unfold pauseContract, pause_plan in E. apply bind_ok in E as (set & d1 & G & E). pose proof (read_only _ _ _ G) as ->.
  destruct set as [f|]; [|apply ret_ok in E as [_ ->]; exact B]. apply modify_ok in E as ->. exact (same_invoicing_Billing _ _ (contracts_same _ _) B).
Qed.

(** Resumed on the 20th of January, the contract is not billed in February,
    March or ever after. *)
Lemma resume_in_billed_period_stalls_witness :
  exists d', resumeContract "2026-01-20" "ct" sample_actor paused_db = Ok (tt, d') /\
    account "ct" (runs no_groups "ct" [noon "2026-02-01"; noon "2026-03-01"] d') = account "ct" d' /\
    option_map ct_nextBillingAt (db_contracts d' !! "ct") = Some (Some "2026-01-01").
Proof.
  destruct (resumeContract "2026-01-20" "ct" sample_actor paused_db) as [[[] d']|e] eqn:E; [|exfalso; vm_compute in E; discriminate E].
  exists d'. split; [reflexivity|].
  assert (Hc : db_contracts paused_db !! "ct" = Some (sample_contract cs_paused None None false)) by (vm_compute; reflexivity).
  assert (Hi : periodIndexFor "2026-01-01" 1 "2026-01-20" = 0) by (vm_compute; reflexivity).
  pose proof (resume_in_billed_period_stalls no_groups "ct" _ "2026-01-20" sample_actor [noon "2026-02-01"; noon "2026-03-01"]
    paused_db tt d' paused_db_Billing Hc eq_refl) as R.
  cbv zeta in R. cbn [ct_startDate ct_intervalMonths ct_endDate sample_contract] in R. rewrite Hi in R.
  refine (R _ _ _ _ _ _ _ E).
  - solve_iso.
  - lia.
  - lia.
  - vm_compute. split; [discriminate|reflexivity].
  - lia.
  - assert (L : ledger paused_db = [("ct", "2026-01-01")]) by (vm_compute; reflexivity). rewrite L. left. vm_compute. reflexivity.
  - reflexivity.
Defined.

(** A three-month term that renews itself, its last month due. *)
Lemma auto_renewal_never_reached_witness :
  let c := sample_contract cs_active (Some "2026-03-01") (Some "2026-04-01") true in
  exists r d' x d'',
    generateDueInvoice no_groups (noon "2026-03-01") "ct" (contract_db c) = Ok (r, d') /\
    runContractRenewalSweep (noon "2026-04-01") d' = Ok (x, d'') /\
    option_map ct_status (db_contracts d'' !! "ct") = Some cs_expired.
Proof.
  intros c.
  destruct (generateDueInvoice no_groups (noon "2026-03-01") "ct" (contract_db c)) as [[r d']|e] eqn:E; [|exfalso; vm_compute in E; discriminate E].
  destruct (runContractRenewalSweep (noon "2026-04-01") d') as [[x d'']|e] eqn:E2.
  2:{ exfalso. assert (F : match generateDueInvoice no_groups (noon "2026-03-01") "ct" (contract_db c) with
                            | Ok (_, d1) => match runContractRenewalSweep (noon "2026-04-01") d1 with Ok _ => true | Err _ => false end
                            | Err _ => false end = true) by (vm_compute; reflexivity). rewrite E, E2 in F. discriminate F. }
  assert (Hr : gr_invoiceId r = Some "0").
  { transitivity (match generateDueInvoice no_groups (noon "2026-03-01") "ct" (contract_db c) with Ok (r, _) => gr_invoiceId r | Err _ => None end);
      [rewrite E; reflexivity|vm_compute; reflexivity]. }
  exists r, d', x, d''. split; [reflexivity|]. split; [exact E2|].
  destruct (auto_renewal_never_reached no_groups "ct" c "2026-03-01" (noon "2026-03-01") (contract_db c) r "0" d' (contract_db_Billing c)
    eq_refl eq_refl eq_refl ltac:(vm_compute; reflexivity) ltac:(vm_compute; reflexivity) E Hr) as [_ K].
  rewrite (K _ _ _ E2). reflexivity.
Defined.

(** Two servers and a line that counts them. *)
Definition two_servers : OrgDeviceSnapshot :=
  mkSnapshot [mkRow "d2" "web" "server" None; mkRow "d1" "db" "server" None; mkRow "d3" "pc" "workstation" None] ∅.
Definition server_line : ContractLine :=
  mkContractLine "servers" "ct" "org" (mkCoverage lt_per_device_role None (Some ["server"]) None) "Servers" None "10.00" None None None
    (mkAllowance (Some "1.00") (Some om_bill) (Some "4.00")) true 0.

Lemma estimate_matches_generation_witness :
  resolveLineQty two_servers "org" server_line (contract_db (sample_contract cs_draft None None false)) =
  Ok (mkLineQuantity (applyAllowance (js_Number "2") (cn_allowance server_line) included_units) true None,
      contract_db (sample_contract cs_draft None None false)).
Proof.
  apply (estimate_matches_generation two_servers "org" server_line _ "2" (Some [mkRow "d1" "db" "server" None; mkRow "d2" "web" "server" None])
    (contract_db (sample_contract cs_draft None None false))).
  - vm_compute. reflexivity.
  - intros n E. vm_compute in E. discriminate E.
  - reflexivity.
  - discriminate.
  - reflexivity.
Defined.

Definition billed_line (id : string) : InvoiceLine :=
  mkInvoiceLine id "0" "org" 1 (mkLine src_contract None None None None None None None "1.00" "10.00" None None true true "10.00" false None).

(** One server is inside the allowance, the other on the overage line. *)
Lemma evidence_accounts_for_quantity_witness :
  let rows := [mkRow "d2" "web" "server" None; mkRow "d1" "db" "server" None] in
  let m := mkMaterialized (billed_line "a") (Some (billed_line "b")) None pf_contract_snapshot in
  exists es, evidenceForLine rows (applyAllowance (ofZ 2) (cn_allowance server_line) included_units) m (contract_db (sample_contract cs_draft None None false))
      = Ok (es, contract_db (sample_contract cs_draft None None false)) /\
    count_as ca_included es = 1 /\ count_as ca_overage es = 1.
Proof.
  intros rows m.
  destruct (evidenceForLine rows (applyAllowance (ofZ 2) (cn_allowance server_line) included_units) m (contract_db (sample_contract cs_draft None None false)))
    as [[es d']|e] eqn:E; [|exfalso; vm_compute in E; discriminate E].
  exists es. split; [f_equal; f_equal; exact (read_only _ _ _ E)|].
  destruct (evidence_accounts_for_quantity rows (cn_allowance server_line) 1 m _ es d' ltac:(cbn; lia) ltac:(lia) ltac:(vm_compute; reflexivity) E)
    as (_ & _ & A & B & _).
  split; [exact A|exact B].
Defined.
