(* ===== verification/ContractLines.v ===== *)
(** * Lines of contracts are priced in their contract's currency

    Lemmas on the writers of contract lines ([ContractDrafting], the contract
    writer of [QuoteConversion]): the price a line is stored with is a whole
    number of minor units of the contract's currency, whether it comes from the
    catalog, from a request or from a repricing. *)

From Stdlib Require Import QArith Qround.
From S2P Require Import Prelude JsString JsNumber Currency IsoDate QuoteMath InvoiceMath ContractMath TimeBilling CatalogPricing ContractCoverage BillingDb InvoiceService InvoiceLifecycle InvoiceInvariants ContractService QuoteDb QuoteConversion ContractDrafting ContractRenewal ContractSafety.
From stdpp Require Import base gmap strings list.

Local Open Scope string_scope.
Local Open Scope Z_scope.
Local Open Scope billing_scope.

(** ** What holds of a stored line *)

(** Its price and its overage rate are whole minor units of the currency. *)
Definition priced_in (cur : string) (l : ContractLine) : Prop :=
  representable (cn_unitPrice l) cur /\ forall p, overageUnitPrice (cn_allowance l) = Some p -> representable p cur.

(** It belongs to a contract of its organization and is priced in its currency. *)
Definition line_ok (cs : gmap string Contract) (l : ContractLine) : Prop :=
  exists c, cs !! cn_contractId l = Some c /\ cn_orgId l = ct_orgId c /\ priced_in (ct_currencyCode c) l.

(** A contract that is renamed, rescheduled or moved through its lifecycle keeps
    its lines as they are. *)
Lemma line_ok_alter cs cid f l :
  (forall c, ct_orgId (f c) = ct_orgId c /\ ct_currencyCode (f c) = ct_currencyCode c) ->
  line_ok cs l -> line_ok (alter f cid cs) l.
Proof.
  intros Hf (c & Hc & Ho & Hp). unfold line_ok. destruct (decide (cn_contractId l = cid)) as [E|E].
  - exists (f c). rewrite E, lookup_alter_eq, <- E, Hc. destruct (Hf c) as [-> ->]. auto.
  - exists c. rewrite lookup_alter_ne by congruence. auto.
Qed.

Lemma line_ok_insert cs cid c l : cs !! cid = None -> line_ok cs l -> line_ok (<[cid := c]> cs) l.
Proof.
  intros Hn (c' & Hc & Ho & Hp). exists c'. rewrite lookup_insert_ne by congruence. auto.
Qed.

(** ** Prices *)

Lemma resolvePriceFrom_representable item override book cur r :
  resolvePriceFrom item override book cur = inl r -> representable (rp_unitPrice r) cur.
Proof.
  unfold resolvePriceFrom, representable. cbv zeta.
  destruct (match override with Some _ => _ | None => _ end) as [[p s]|]; [|discriminate].
  destruct (isRepresentableInCurrency (Str p) cur) eqn:E; cbn [negb]; [|discriminate]. intros [= <-]. exact E.
Qed.

Lemma resolvePrice_representable i cur o a d p d' :
  resolvePrice i cur o a d = Ok (p, d') -> representable (rp_unitPrice p) cur.
Proof.
  unfold resolvePrice, price_or_gap. intros E. apply bind_ok in E as (r & d1 & G & E).
  repeat (apply bind_ok in G as (? & ? & _ & G)). apply ret_ok in G as [-> _]. cbn [snd] in E.
  destruct (resolvePriceFrom _ _ _ _) as [q|[]] eqn:Er; try discriminate E. apply ret_ok in E as [-> _].
  exact (resolvePriceFrom_representable _ _ _ _ _ Er).
Qed.

#[export] Instance mapCatalog_ro {A} (x : M A) : ReadOnly x -> ReadOnly (mapCatalogResolveError x).
Proof.
  intros R d a d' E. unfold mapCatalogResolveError in E. destruct (x d) as [[b d1]|e] eqn:Ex.
  - injection E as <- <-. exact (R _ _ _ Ex).
  - destruct e as [[]|]; discriminate E.
Qed.

#[export] Instance resolve_line_price_ro i cur c a : ReadOnly (resolve_line_price i cur c a).
Proof. unfold resolve_line_price. apply _. Qed.

Lemma resolve_line_price_ok i cur c a d p d' :
  resolve_line_price i cur c a d = Ok (p, d') -> representable (rp_unitPrice p) cur.
Proof.
  unfold resolve_line_price, mapCatalogResolveError. destruct (resolvePrice _ _ _ _ d) as [[q d1]|[[]|]] eqn:E; try discriminate.
  intros [= <- _]. exact (resolvePrice_representable _ _ _ _ _ _ _ E).
Qed.

(** The price of a new line, before it is stored. *)
Lemma new_line_price_ok input c a d p d' :
  new_line_price input c a d = Ok (p, d') -> representable (fst p) (ct_currencyCode c).
Proof.
  unfold new_line_price. destruct (truthy (ni_catalogItemId input)) as [item|].
  - intros E. apply bind_ok in E as (r & d1 & G & E). apply ret_ok in E as [-> _]. exact (resolve_line_price_ok _ _ _ _ _ _ _ G).
  - destruct (ni_unitPrice input) as [u|], (ni_taxable input) as [t|]; try discriminate. intros E.
    apply bind_ok in E as (? & d1 & G & E). apply ret_ok in E as [-> _]. unfold assertRepresentable in G. apply require_ok in G as [G _]. exact G.
Qed.

#[export] Instance new_line_price_ro input c a : ReadOnly (new_line_price input c a).
Proof. unfold new_line_price. solve_ro. Qed.

Lemma assertRepresentable_opt_ok o cur d u d' :
  assertRepresentable_opt o cur d = Ok (u, d') -> forall p, o = Some p -> representable p cur.
Proof.
  unfold assertRepresentable_opt, assertRepresentable. destruct o as [v|]; [|intros _ p [=]]. intros E p [= <-].
  apply require_ok in E as [E _]. exact E.
Qed.

Lemma pg_numeric_opt_representable o r cur :
  pg_numeric_opt o = Ok r -> (forall p, o = Some p -> representable p cur) -> forall p, r = Some p -> representable p cur.
Proof.
  unfold pg_numeric_opt. destruct o as [v|]; [|intros [= <-] _ p [=]]. destruct (pg_numeric v) as [w|] eqn:E; [|discriminate].
  intros [= <-] H p [= <-]. exact (pg_numeric_representable _ _ _ (H _ eq_refl) E).
Qed.

Lemma pg_allowance_representable a r cur :
  pg_allowance a = Ok r -> (forall p, overageUnitPrice a = Some p -> representable p cur) ->
  forall p, overageUnitPrice r = Some p -> representable p cur.
Proof.
  unfold pg_allowance. destruct (pg_numeric_opt (includedQuantity a)) as [q|]; [|discriminate]. cbn.
  destruct (pg_numeric_opt (overageUnitPrice a)) as [o|] eqn:E; [|discriminate]. intros [= <-]. exact (pg_numeric_opt_representable _ _ _ E).
Qed.

(** ** The writers *)

Lemma lockOwned_ok cid actor d c d' : lockContract cid actor d = Ok (c, d') -> d' = d /\ db_contracts d !! cid = Some c.
Proof.
  unfold lockContract, lockContractRow. intros E. apply bind_ok in E as (c0 & d1 & G & E). apply bind_ok in G as (o & d2 & G & G2).
  apply read_ok in G as [-> ->]. destruct (db_contracts d !! cid) as [c1|]; [|discriminate G2]. apply ret_ok in G2 as [-> ->].
  apply bind_ok in E as (? & d1 & G & E). pose proof (read_only _ _ _ G) as ->. apply ret_ok in E as [-> ->]. auto.
Qed.

Lemma insert_line_row_ok row d u d' :
  insert_line_row row d = Ok (u, d') ->
  ~ In (cn_id row) (map cn_id (db_contractLines d)) /\ d' = set_contractLines (db_contractLines d ++ [row])%list d.
Proof.
  unfold insert_line_row. intros E. run_m. split; [|reflexivity]. intros Hin. apply str_mem_in in Hin.
  match goal with Hn : negb _ = true |- _ => rewrite Hin in Hn; discriminate Hn end.
Qed.

Section Writers.
Context `{Uuids}.

(** Adding a line appends one row of the contract, priced in its currency, and
    changes nothing else. *)
Lemma addContractLine_ok cid input actor d row d' :
  addContractLineToContract cid input actor d = Ok (row, d') ->
  exists c, db_contracts d !! cid = Some c /\ (ct_status c = cs_draft \/ ct_status c = cs_active) /\
    cn_contractId row = cid /\ cn_orgId row = ct_orgId c /\ priced_in (ct_currencyCode c) row /\
    ~ In (cn_id row) (map cn_id (db_contractLines d)) /\
    d' = set_contractLines (db_contractLines d ++ [row])%list (set_next (S (db_next d)) d).
Proof.
  unfold addContractLineToContract. cbv zeta. intros E.
  apply bind_ok in E as (c1 & d1 & G & E). apply lockOwned_ok in G as [-> Hc].
  apply bind_ok in E as (? & d1 & G & E). pose proof (read_only _ _ _ G) as ->. clear G.
  apply bind_ok in E as (? & d1 & G & E). unfold assertEditable in G. apply require_ok in G as [Hs ->].
  do 3 (apply bind_ok in E as (? & d1 & G & E); unfold requireLineSiteAccess in G; apply require_ok in G as [_ ->]).
  apply bind_ok in E as (priced & d1 & G & E). pose proof (read_only _ _ _ G) as ->. apply new_line_price_ok in G as Hp.
  apply bind_ok in E as (? & d1 & Go & E). pose proof (read_only _ _ _ Go) as ->.
  apply bind_ok in E as (site & d1 & G2 & E). assert (d1 = d) as -> by (destruct (truthy _); [exact (read_only _ _ _ G2)|apply ret_ok in G2 as [_ ->]; reflexivity]).
  apply bind_ok in E as (grp & d1 & G3 & E).
  assert (d1 = d) as -> by (destruct (cl_lineType _); try (apply ret_ok in G3 as [_ ->]; reflexivity); destruct (truthy _); [exact (read_only _ _ _ G3)|apply ret_ok in G3 as [_ ->]; reflexivity]).
  apply bind_ok in E as (id & d1 & G4 & E). apply mint_ok in G4 as [-> ->].
  run_m. match goal with Hi : insert_line_row _ _ = Ok _ |- _ => apply insert_line_row_ok in Hi as [Hnew ->] end.
  exists c1. split; [exact Hc|]. split; [destruct (ct_status c1); try discriminate Hs; auto|].
  split; [reflexivity|]. split; [reflexivity|]. split; [|split; [exact Hnew|reflexivity]].
  split; cbn; [eapply pg_numeric_representable; [exact Hp|eassumption]|].
  eapply pg_allowance_representable; [eassumption|]. exact (assertRepresentable_opt_ok _ _ _ _ _ Go).
Qed.
End Writers.

(** *** Patching a line *)

Lemma getContractLine_ok cid lid d l d' :
  getContractLine cid lid d = Ok (l, d') ->
  d' = d /\ In l (db_contractLines d) /\ cn_id l = lid /\ cn_contractId l = cid.
Proof.
  unfold getContractLine. intros E. apply bind_ok in E as (o & d1 & G & E). apply read_ok in G as [-> ->].
  destruct (List.find _ _) as [x|] eqn:F; [|discriminate E]. apply ret_ok in E as [-> ->].
  apply find_some in F as [Hin F]. unfold is_line in F. apply andb_true_iff in F as [F1 F2].
  apply String.eqb_eq in F1, F2. auto.
Qed.

#[export] Instance getContractLine_ro cid lid : ReadOnly (getContractLine cid lid).
Proof. unfold getContractLine. solve_ro. Qed.

#[export] Instance resolve_transition_ro l patch c actor : ReadOnly (resolve_transition l patch c actor).
Proof. unfold resolve_transition. cbv zeta. solve_ro. Qed.

(** The price a patch leaves is the one the line had, or one checked against the
    contract's currency. *)
Lemma transition_priced l patch c actor d r d' :
  resolve_transition l patch c actor d = Ok (r, d') -> representable (cn_unitPrice l) (ct_currencyCode c) ->
  representable (cn_unitPrice (mergeContractLinePatch l patch r)) (ct_currencyCode c).
Proof.
  unfold resolve_transition. cbv zeta. intros E Hl. apply bind_ok in E as (? & d1 & G & E). apply require_ok in G as [_ ->].
  unfold mergeContractLinePatch. cbv zeta. cbn [cn_unitPrice].
  set (target := from_option_default (lu_catalogItemId patch) (cn_catalogItemId l)) in *.
  destruct target as [item|] eqn:Et; [destruct (_ || lu_refreshCatalogPrice patch)|].
  - apply bind_ok in E as (p & d1 & G & E). apply ret_ok in E as [-> _]. exact (resolve_line_price_ok _ _ _ _ _ _ _ G).
  - assert (r = None) as ->; [|exact Hl]. unfold target in Et.
    destruct (lu_catalogItemId patch) as [[i|]|]; [| discriminate Et|]; apply ret_ok in E as [-> _]; reflexivity.
  - assert (K : r = None /\ forall p, lu_unitPrice patch = Some p -> representable p (ct_currencyCode c)).
    { clear Hl. match type of E with (if ?b then _ else _) _ = _ => destruct b end.
      1: destruct (lu_unitPrice patch) as [p|]; [|discriminate E]; destruct (lu_taxable patch); [|discriminate E];
        apply bind_ok in E as (? & d1 & G & E); apply ret_ok in E as [-> _]; split; [reflexivity|]; intros q [= <-];
        apply require_ok in G as [G _]; exact G.
      all: apply bind_ok in E as (? & d1 & G & E); apply ret_ok in E as [-> _]; split; [reflexivity|];
        exact (assertRepresentable_opt_ok _ _ _ _ _ G). }
    destruct K as [-> K]. destruct (lu_unitPrice patch) as [p|]; [exact (K p eq_refl)|exact Hl].
Qed.

Lemma store_line_ok l r cur : store_line l = Ok r -> priced_in cur l ->
  priced_in cur r /\ cn_id r = cn_id l /\ cn_contractId r = cn_contractId l /\ cn_orgId r = cn_orgId l /\ cn_coverage r = cn_coverage l.
Proof.
  unfold store_line. intros E [H1 H2]. destruct (pg_numeric (cn_unitPrice l)) as [u|] eqn:Eu; [|discriminate]. cbn in E.
  destruct (pg_numeric_opt (cn_manualQuantity l)) as [m|]; [|discriminate]. cbn in E.
  destruct (pg_allowance (cn_allowance l)) as [a|] eqn:Ea; [|discriminate]. injection E as <-.
  split; [|auto]. split; [exact (pg_numeric_representable _ _ _ H1 Eu)|exact (pg_allowance_representable _ _ _ Ea H2)].
Qed.

(** A patch rewrites the rows of that id in the contract to one row, of the same
    contract and organization and priced in its currency. *)
Lemma updateContractLine_ok cid lid patch actor d r d' :
  (forall l, In l (db_contractLines d) -> line_ok (db_contracts d) l) ->
  updateContractLine cid lid patch actor d = Ok (r, d') ->
  exists c l x, db_contracts d !! cid = Some c /\ In l (db_contractLines d) /\ cn_id l = lid /\ cn_contractId l = cid /\
    cn_id x = lid /\ cn_contractId x = cid /\ cn_orgId x = ct_orgId c /\ priced_in (ct_currencyCode c) x /\
    dl_line (fst r) = x /\ snd r = diffLineAudit l x cid c /\
    d' = set_contractLines (map (fun y => if is_line cid lid y then x else y) (db_contractLines d)) d.
Proof.
  unfold updateContractLine. cbv zeta. intros Hok E.
  apply bind_ok in E as (c & d1 & G & E). apply lockOwned_ok in G as [-> Hc].
  do 2 (apply bind_ok in E as (? & d1 & G & E); pose proof (read_only _ _ _ G) as ->; clear G).
  apply bind_ok in E as (l & d1 & G & E). apply getContractLine_ok in G as (-> & Hin & Hid & Hcid).
  apply bind_ok in E as (res & d1 & Gt & E). pose proof (read_only _ _ _ Gt) as ->.
  destruct (Hok l Hin) as (c' & Hc' & Ho & Hp1 & Hp2). rewrite Hcid, Hc in Hc'. injection Hc' as <-.
  apply (transition_priced _ _ _ _ _ _ _ Gt) in Hp1. clear Gt.
  apply bind_ok in E as (? & d1 & G & E). unfold requireLineSiteAccess in G. apply require_ok in G as [_ ->].
  apply bind_ok in E as (sn & d1 & G & E).
  assert (d1 = d) as -> by (destruct (lu_siteId patch); [destruct (truthy _)|]; exact (read_only _ _ _ G)). clear G.
  apply bind_ok in E as (? & d1 & G & E). apply require_ok in G as [_ ->].
  apply bind_ok in E as (? & d1 & Go & E). assert (d1 = d) as -> by (destruct (lu_overageUnitPrice patch); exact (read_only _ _ _ Go)).
  apply bind_ok in E as (gn & d1 & G & E). assert (d1 = d) as -> by (destruct (lu_deviceGroupId patch); exact (read_only _ _ _ G)). clear G.
  unfold update_contract_lines in E. run_m.
  match goal with Hs : store_line _ = Ok ?y |- _ => apply (store_line_ok _ _ (ct_currencyCode c)) in Hs as (Hp & I1 & I2 & I3 & _) end.
  - eexists c, l, _. split; [exact Hc|]. do 3 (split; [assumption|]). split; [rewrite I1; exact Hid|]. split; [rewrite I2; exact Hcid|]. split; [rewrite I3; exact Ho|]. split; [exact Hp|]. auto.
  - split; [exact Hp1|]. cbn [with_names cn_allowance mergeContractLinePatch overageUnitPrice]. cbn [with_names cn_allowance mergeContractLinePatch overageUnitPrice] in Go.
    destruct (lu_overageUnitPrice patch) as [o|]; cbn [from_option_default] in *; [exact (assertRepresentable_opt_ok _ _ _ _ _ Go)|exact Hp2].
Qed.

Lemma removeContractLine_ok cid lid actor d r d' :
  removeContractLine cid lid actor d = Ok (r, d') ->
  d' = set_contractLines (List.filter (fun l => negb (is_line cid lid l)) (db_contractLines d)) d.
Proof. unfold removeContractLine, assertEditable. intros E. apply bind_ok in E as (c & d1 & G & E). apply lockOwned_ok in G as [-> _]. run_m. drop_ro. reflexivity. Qed.

(** *** Restamping the currency *)

Definition repriced (g : string -> option string) (l : ContractLine) : ContractLine :=
  match g (cn_id l) with Some p => with_unit_price p l | None => l end.

Lemma repriced_id g l : cn_id (repriced g l) = cn_id l.
Proof. unfold repriced. destruct (g _); reflexivity. Qed.

(** The repricing loop gives each row's id a price in the currency. *)
Lemma reprice_rows cur c actor rows : forall d u d',
  List.Forall (fun l => present (cn_catalogItemId l) = true) rows ->
  for_each (reprice_line cur c actor) rows d = Ok (u, d') ->
  exists g, (forall id, g id <> None <-> In id (map cn_id rows)) /\ (forall id p, g id = Some p -> representable p cur) /\
    d' = set_contractLines (map (repriced g) (db_contractLines d)) d.
Proof.
  induction rows as [|r rows IH]; intros d u d' Hf E; cbn [for_each] in E.
  - apply ret_ok in E as [_ ->]. exists (fun _ => None). split; [intros id; split; [congruence|intros []]|]. split; [discriminate|].
    unfold repriced. rewrite map_id. destruct d; reflexivity.
  - apply bind_ok in E as (? & d1 & G & E). inversion Hf as [|? ? H1 H2]; subst. unfold reprice_line in G.
    destruct (cn_catalogItemId r) as [item|]; [|discriminate H1]. apply bind_ok in G as (p & d2 & G1 & G).
    pose proof (read_only _ _ _ G1) as ->. apply resolve_line_price_ok in G1.
    apply bind_ok in G as (q & d2 & G2 & G). apply lift_ok in G2 as [G2 ->]. unfold update_contract_lines in G. apply modify_ok in G as ->.
    pose proof (pg_numeric_representable _ _ _ G1 G2) as Hq. apply IH in E as (g & Hg & Hr & ->); [|exact H2].
    exists (fun id => match g id with Some x => Some x | None => if String.eqb id (cn_id r) then Some q else None end). split; [|split].
    + intros id. cbn [map In]. rewrite <- Hg. destruct (g id); [intuition congruence|]. destruct (String.eqb_spec id (cn_id r)); intuition congruence.
    + intros id v. destruct (g id) as [y|] eqn:Ey; [intros [= <-]; exact (Hr _ _ Ey)|]. destruct (String.eqb _ _); intros [= <-]; exact Hq.
    + unfold set_contractLines; cbn. f_equal. rewrite map_map. apply map_ext. intros l. unfold repriced, has_line_id.
      destruct (String.eqb (cn_id l) (cn_id r)); cbn; destruct (g (cn_id l)); reflexivity.
Qed.

Lemma in_insert_line_id x y l : In y (insert_line_id x l) <-> y = x \/ In y l.
Proof. induction l as [|z l IH]; cbn; [intuition|]. destruct (str_leb _ _); cbn; [intuition|]. rewrite IH. intuition. Qed.

Lemma in_lines_by_id cid l d : In l (lines_by_id cid d) <-> In l (db_contractLines d) /\ cn_contractId l = cid.
Proof.
  assert (K : forall xs, In l (fold_right insert_line_id [] xs) <-> In l xs).
  { induction xs as [|x xs IH]; [reflexivity|]. cbn [fold_right]. rewrite in_insert_line_id, IH. cbn. intuition. }
  unfold lines_by_id, contract_lines. rewrite K, filter_In, String.eqb_eq. reflexivity.
Qed.

(** What the active branch demands. *)
Definition restampable (cid : string) (c : Contract) (confirm : bool) (permissions : option (list string)) (d : Db) : Prop :=
  ct_status c = cs_draft \/
  (ct_status c = cs_active /\ actorCan permissions CONTRACTS_MANAGE = true /\ confirm = true /\ eligible (inspect cid c d) = true).

Lemma assert_restampable_ok cid c confirm perms d u d' :
  db_contracts d !! cid = Some c -> assert_restampable cid c confirm perms d = Ok (u, d') -> d' = d /\ restampable cid c confirm perms d.
Proof.
  unfold assert_restampable, restampable. intros Hc E. destruct (ct_status c); try discriminate E.
  - apply ret_ok in E as [_ ->]. auto.
  - unfold inspectContractCurrencyEligibility, assertActiveContractEligible in E.
    apply bind_ok in E as (? & d1 & G & E). apply require_ok in G as [H1 ->]. apply bind_ok in E as (? & d1 & G & E). apply require_ok in G as [H2 ->].
    apply bind_ok in E as (e & d1 & G & E). apply bind_ok in G as (o & d2 & G & G2). apply read_ok in G as [-> ->]. rewrite Hc in G2.
    apply read_ok in G2 as [-> ->]. run_m. split; [reflexivity|]. right. split; [reflexivity|]. split; [exact H1|]. split; [exact H2|].
    unfold eligible. repeat match goal with Hn : no_rows _ = true |- _ => rewrite Hn; clear Hn end. reflexivity.
Qed.

(** What happens to the lines: those of other contracts stay; those of this one
    are gone or priced in the new currency. *)
Definition lines_restamped (cid cur : string) (d : Db) (ls : list ContractLine) : Prop :=
  List.NoDup (map cn_id ls) /\
  forall l, In l ls -> (cn_contractId l <> cid /\ In l (db_contractLines d)) \/
    (cn_contractId l = cid /\ priced_in cur l /\ exists l0, In l0 (db_contractLines d) /\ l = with_unit_price (cn_unitPrice l) l0).

Lemma move_lines_ok cid cur clear reprice c actor d u d' :
  List.NoDup (map cn_id (db_contractLines d)) -> clear && reprice = false ->
  move_lines cid cur clear reprice c actor (lines_by_id cid d) d = Ok (u, d') ->
  exists ls, d' = set_contractLines ls d /\ lines_restamped cid cur d ls.
Proof.
  unfold move_lines. intros N X E. apply bind_ok in E as (? & d1 & G & E). apply require_ok in G as [Ho ->]. destruct reprice.
  - apply bind_ok in E as (? & d1 & G & E). apply require_ok in G as [Hc ->]. rewrite andb_true_r in X. subst clear. cbn [orb] in Ho.
    rewrite forallb_forall in Ho, Hc. apply reprice_rows in E as (g & Hg & Hr & ->); [|apply List.Forall_forall; exact Hc].
    eexists. split; [reflexivity|]. split.
    + rewrite map_map, (map_ext _ cn_id (repriced_id g)). exact N.
    + intros l Hl. apply in_map_iff in Hl as (y & <- & Hy). unfold repriced. destruct (g (cn_id y)) as [p|] eqn:Ep.
      * assert (Hi : In (cn_id y) (map cn_id (lines_by_id cid d))) by (apply Hg; congruence).
        apply in_map_iff in Hi as (z & Ez & Hz). pose proof (Ho z Hz) as Hoz. apply in_lines_by_id in Hz as [Hz Hzc].
        assert (z = y) as -> by exact (unique_in cn_id _ z y N Hz Hy Ez). right. split; [exact Hzc|]. split; [|exists y; split; [exact Hy|reflexivity]].
        split; [exact (Hr _ _ Ep)|]. cbn. intros q Eq. rewrite Eq in Hoz. discriminate Hoz.
      * left. split; [|exact Hy]. intros Ec. assert (Hi : In (cn_id y) (map cn_id (lines_by_id cid d))) by (apply in_map, in_lines_by_id; auto).
        apply Hg in Hi. congruence.
  - apply bind_ok in E as (? & d1 & G & E). apply require_ok in G as [_ ->]. apply modify_ok in E as ->. eexists. split; [reflexivity|].
    split; [apply NoDup_filter_map, N|]. intros l Hl. apply filter_In in Hl as [Hl Hn]. left. split; [|exact Hl].
    intros Ec. rewrite Ec, String.eqb_refl in Hn. discriminate Hn.
Qed.

Lemma changeContractCurrency_ok cid cur clear reprice confirm perms actor d u d' :
  List.NoDup (map cn_id (db_contractLines d)) -> clear && reprice = false ->
  changeContractCurrency cid cur clear reprice confirm perms actor d = Ok (u, d') ->
  exists c, db_contracts d !! cid = Some c /\ restampable cid c confirm perms d /\
    ((ct_currencyCode c = cur /\ d' = d) \/
     (ct_currencyCode c <> cur /\ exists ls, d' = set_contracts (alter (with_currency cur) cid (db_contracts d)) (set_contractLines ls d) /\
        lines_restamped cid cur d ls)).
Proof.
  unfold changeContractCurrency. intros N X E. apply bind_ok in E as (c & d1 & G & E). apply lockOwned_ok in G as [-> Hc].
  apply bind_ok in E as (? & d1 & G & E). pose proof (read_only _ _ _ G) as ->. clear G.
  apply bind_ok in E as (? & d1 & G & E). apply (assert_restampable_ok _ _ _ _ _ _ _ Hc) in G as [-> Hr].
  exists c. split; [exact Hc|]. split; [exact Hr|]. destruct (String.eqb_spec (ct_currencyCode c) cur) as [Ec|Ec].
  - apply ret_ok in E as [_ ->]. auto.
  - right. split; [exact Ec|]. apply bind_ok in E as (rows & d1 & G & E). apply read_ok in G as [-> ->].
    apply bind_ok in E as (? & d1 & G & E). unfold update_contract in E. apply modify_ok in E as ->.
    destruct (lines_by_id cid d) as [|r rs] eqn:El.
    + apply ret_ok in G as [_ ->]. exists (db_contractLines d). split; [destruct d; reflexivity|]. split; [exact N|].
      intros l Hl. left. split; [|exact Hl]. intros Eq. assert (Hin : In l (lines_by_id cid d)) by (apply in_lines_by_id; auto). rewrite El in Hin. destruct Hin.
    + rewrite <- El in G. apply move_lines_ok in G as (ls & -> & Hls); [|exact N|exact X]. exists ls. split; [reflexivity|exact Hls].
Qed.
