(* ===== verification/BillingSteps.v ===== *)
(** * Steps of the billing system

    The invariant of the whole system (invoices, payments, charges, the contract
    ledger and contract statuses) and that every transaction and every handler
    keeps it. *)

From Stdlib Require Import QArith.
From S2P Require Import Prelude JsString JsNumber Currency IsoDate QuoteMath QuoteSpec InvoiceMath ContractMath TimeBilling CatalogPricing ContractCoverage BillingDb InvoiceService StripeSessions StripeReversal InvoiceLifecycle StripeReconcile PaymentPull InvoiceInvariants InvoiceSafety StripeSafety ContractService QuoteDb QuoteConversion ContractDrafting ContractRenewal ContractSafety ContractProperties ContractLines.
From stdpp Require Import base gmap strings list pretty.

Local Open Scope string_scope.
Local Open Scope Z_scope.
Local Open Scope billing_scope.

(** ** Operations that leave part of the tables alone *)

(** What a view of the tables does not look at. *)
Class InvoiceBlind {T} (view : Db -> T) : Prop := {
  ib_invoices : forall x d, view (set_invoices x d) = view d;
  ib_lines : forall x d, view (set_lines x d) = view d;
  ib_lineDevices : forall x d, view (set_lineDevices x d) = view d;
  ib_payments : forall x d, view (set_payments x d) = view d;
  ib_entries : forall x d, view (set_entries x d) = view d;
  ib_parts : forall x d, view (set_parts x d) = view d;
  ib_sequences : forall x d, view (set_sequences x d) = view d;
  ib_next : forall x d, view (set_next x d) = view d }.
Class SessionBlind {T} (view : Db -> T) : Prop := sb_stripe : forall x d, view (set_stripe x d) = view d.
Class EventBlind {T} (view : Db -> T) : Prop := eb_events : forall x d, view (set_stripeEvents x d) = view d.

Class Keeps {T} (view : Db -> T) {A} (x : M A) : Prop := keeps : forall d a d', x d = Ok (a, d') -> view d' = view d.

#[export] Instance ro_keeps {T} (view : Db -> T) {A} (x : M A) : ReadOnly x -> Keeps view x.
Proof. intros R d a d' E. apply R in E as ->. reflexivity. Qed.
#[export] Instance bind_keeps {T} (view : Db -> T) {A B} (x : M A) (k : A -> M B) :
  Keeps view x -> (forall a, Keeps view (k a)) -> Keeps view (bind x k).
Proof. intros Hx Hk d b d' E. apply bind_ok in E as (a & d1 & G & E). rewrite (Hk a _ _ _ E). exact (Hx _ _ _ G). Qed.
#[export] Instance for_each_keeps {T} (view : Db -> T) {A} (f : A -> M unit) l :
  (forall a, Keeps view (f a)) -> Keeps view (for_each f l).
Proof. intros Hf. induction l as [|x l IH]; cbn [for_each]; apply _. Qed.

Lemma modify_keeps {T} (view : Db -> T) f : (forall d, view (f d) = view d) -> Keeps view (modify f).
Proof. intros Hf d u d' E. apply modify_ok in E as ->. apply Hf. Qed.

(** Case analysis inside an operation. *)
Ltac solve_keeps :=
  repeat match goal with
  | |- Keeps _ (match ?x with _ => _ end) => destruct x
  | |- Keeps _ (let '(_, _) := ?x in _) => destruct x
  | |- Keeps _ (if ?x then _ else _) => destruct x
  | |- Keeps _ (bind _ _) => apply bind_keeps; [|intros ?]
  | |- Keeps _ (modify _) => apply modify_keeps; intros ?; unfold release_entries, release_parts;
      first [apply ib_invoices|apply ib_lines|apply ib_lineDevices|apply ib_payments|apply ib_entries|apply ib_parts
            |apply ib_sequences|apply ib_next|apply sb_stripe|apply eb_events]
  | |- Keeps _ _ => apply _
  end.

#[export] Instance throw_ro {A} m : ReadOnly (throw (A := A) m).
Proof. intros d a d' E. discriminate E. Qed.
#[export] Instance checked_stripe_ro : ReadOnly checked_stripe.
Proof. unfold checked_stripe. solve_ro. Qed.
#[export] Instance minor_amount_read a c : ReadOnly (minor_amount a c).
Proof. unfold minor_amount. solve_ro. Qed.
#[export] Instance payment_amount_read a c : ReadOnly (payment_amount a c).
Proof. unfold payment_amount. solve_ro. Qed.

Section Views.
Context {T : Type} (view : Db -> T) `{!InvoiceBlind view}.

#[export] Instance update_invoice_keeps i f : Keeps view (update_invoice i f).
Proof. unfold update_invoice. solve_keeps. Qed.
#[export] Instance mint_keeps `{Uuids} : Keeps view mint.
Proof. intros d a d' E. apply mint_ok in E as [_ ->]. apply ib_next. Qed.
#[export] Instance recomputeStatus_keeps now i : Keeps view (recomputeInvoiceStatus now i).
Proof. unfold recomputeInvoiceStatus. cbv zeta. solve_keeps. Qed.
#[export] Instance recomputeTotals_keeps i o : Keeps view (recomputeInvoiceTotals i o).
Proof. unfold recomputeInvoiceTotals. solve_keeps. Qed.
#[export] Instance flip_entries_keeps ids o : Keeps view (flip_entries ids o).
Proof. unfold flip_entries. solve_keeps. Qed.
#[export] Instance flip_parts_keeps ids o : Keeps view (flip_parts ids o).
Proof. unfold flip_parts. solve_keeps. Qed.
#[export] Instance allocate_keeps p y : Keeps view (allocateInvoiceCounter p y).
Proof. unfold allocateInvoiceCounter. solve_keeps. Qed.
#[export] Instance issueInvoice_keeps now i a : Keeps view (issueInvoice now i a).
Proof. unfold issueInvoice. cbv zeta. solve_keeps. Qed.
#[export] Instance write_due_keeps now i due : Keeps view (write_due_date now i due).
Proof. unfold write_due_date. solve_keeps. Qed.
#[export] Instance recordPayment_keeps `{Uuids} now i input a : Keeps view (recordPayment_tx now i input a).
Proof. unfold recordPayment_tx. cbv zeta. solve_keeps. Qed.
#[export] Instance voidPayment_keeps now p a : Keeps view (voidPayment now p a).
Proof. unfold voidPayment. solve_keeps. Qed.
#[export] Instance mark_overdue_keeps asOf ids : Keeps view (mark_overdue asOf ids).
Proof. unfold mark_overdue. solve_keeps. Qed.
#[export] Instance pull_keeps `{Uuids} now p i e l : Keeps view (applyAccountingPayment now p i e l).
Proof. unfold applyAccountingPayment. cbv zeta. solve_keeps. Qed.
#[export] Instance pull_reverse_keeps now p pid : Keeps view (reverseAccountingPayment now p pid).
Proof. unfold reverseAccountingPayment. solve_keeps. Qed.
#[export] Instance markViewed_keeps now i o : Keeps view (markViewed now i o).
Proof. unfold markViewed. solve_keeps. Qed.
#[export] Instance newId_keeps m x : Keeps view (newId m x).
Proof. unfold newId. solve_keeps. Qed.
#[export] Instance insert_line_with_keeps id i o n v : Keeps view (insert_line_with id i o n v).
Proof. unfold insert_line_with. cbv zeta. solve_keeps. Qed.
#[export] Instance clone_line_keeps m dr l : Keeps view (clone_line m dr l).
Proof. unfold clone_line. solve_keeps. Qed.
#[export] Instance clone_evidence_keeps m dr e : Keeps view (clone_evidence m dr e).
Proof. unfold clone_evidence. solve_keeps. Qed.
#[export] Instance mint_ids_keeps `{Uuids} ls : Keeps view (mint_ids ls).
Proof. induction ls as [|l ls IH]; cbn [mint_ids]; solve_keeps. Qed.
#[export] Instance insert_invoice_keeps `{Uuids} v : Keeps view (insert_invoice v).
Proof. unfold insert_invoice. solve_keeps. Qed.
#[export] Instance voidInvoice_keeps `{Uuids} now i reason b a : Keeps view (voidInvoice_tx now i reason b a).
Proof. unfold voidInvoice_tx, reissue_clone. solve_keeps. Qed.

Context `{!SessionBlind view}.

#[export] Instance update_stripe_keeps p f : Keeps view (update_stripe p f).
Proof. unfold update_stripe. solve_keeps. Qed.
#[export] Instance markMapping_keeps m s : Keeps view (markMapping m s).
Proof. unfold markMapping. solve_keeps. Qed.
#[export] Instance capture_keeps `{Uuids} now input inv m : Keeps view (capture now input inv m).
Proof. unfold capture, markSiblingRevocationIntentInTx. cbv zeta. solve_keeps. Qed.
#[export] Instance recordStripePayment_keeps `{Uuids} now input : Keeps view (recordStripePayment_tx now input).
Proof. unfold recordStripePayment_tx. solve_keeps. Qed.
#[export] Instance write_payment_keeps `{Uuids} m s r t : Keeps view (write_payment m s r t).
Proof. unfold write_payment. solve_keeps. Qed.
#[export] Instance commitPayLink_keeps `{Uuids} now o s : Keeps view (commitPayLink now o s).
Proof. unfold commitPayLink, markSessionRevocationRequestedInTx. cbv zeta. solve_keeps. Qed.

Context `{!EventBlind view}.

#[export] Instance update_event_keeps id f : Keeps view (update_event id f).
Proof. unfold update_event. solve_keeps. Qed.
#[export] Instance settle_event_keeps id s e r : Keeps view (settle_event id s e r).
Proof. unfold settle_event. solve_keeps. Qed.
#[export] Instance retry_event_keeps now id r : Keeps view (retry_event now id r).
Proof. unfold retry_event. solve_keeps. Qed.
#[export] Instance apply_to_mapping_keeps `{Uuids} now e m : Keeps view (apply_to_mapping now e m).
Proof. unfold apply_to_mapping. cbv zeta. solve_keeps. Qed.
#[export] Instance apply_event_keeps `{Uuids} now id : Keeps view (applyStripeFinancialEvent now id).
Proof. unfold applyStripeFinancialEvent, apply_open. cbv zeta. solve_keeps. Qed.
End Views.

(** The contracts and their ledger, the card sessions, the event inbox. *)
Definition contracts_view (d : Db) : list (string * string) * gmap string Contract * list ContractLine :=
  (ledger d, db_contracts d, db_contractLines d).
Definition sessions_view (d : Db) : list StripeRow * Reference := (db_stripe d, db_ref d).

#[export] Instance contracts_blind : InvoiceBlind contracts_view.
Proof. constructor; reflexivity. Qed.
#[export] Instance contracts_session_blind : SessionBlind contracts_view.
Proof. intros x d. reflexivity. Qed.
#[export] Instance contracts_event_blind : EventBlind contracts_view.
Proof. intros x d. reflexivity. Qed.
#[export] Instance sessions_blind : InvoiceBlind sessions_view.
Proof. constructor; reflexivity. Qed.
#[export] Instance events_blind : InvoiceBlind db_stripeEvents.
Proof. constructor; reflexivity. Qed.
#[export] Instance events_session_blind : SessionBlind db_stripeEvents.
Proof. intros x d. reflexivity. Qed.

(** ** Rows the rest of the product writes *)

#[export] Instance entry_row_eq_dec : EqDecision TimeEntryRow.
Proof. solve_decision. Defined.
#[export] Instance stored_entry_eq_dec : EqDecision StoredEntry.
Proof. solve_decision. Defined.
#[export] Instance part_row_eq_dec : EqDecision TicketPartRow.
Proof. solve_decision. Defined.
#[export] Instance stored_part_eq_dec : EqDecision StoredPart.
Proof. solve_decision. Defined.

(** What billing asks of whoever logs work: ids are distinct; a billed row stays,
    the same up to its wording; a row that is not billed is not made billed; and a
    new row is not billed and has an id no line of its kind names. *)
Definition names_source (ty : InvoiceLineSourceType) (id : string) (l : InvoiceLine) : bool :=
  source_type_eqb (lv_sourceType (il_values l)) ty && opt_eqb (lv_sourceId (il_values l)) (Some id).

Fixpoint distinct (ids : list string) : bool :=
  match ids with [] => true | x :: r => negb (str_mem x r) && distinct r end.

Section WorkContract.
Context {A : Type} (key : A -> string) (status : A -> TimeBillingStatus) (frozen : A -> A -> bool).

Definition work_allowed (ty : InvoiceLineSourceType) (lines : list InvoiceLine) (old new : list A) : bool :=
  distinct (map key new) &&
  forallb (fun x => negb (is_billed (status x)) || existsb (fun y => String.eqb (key y) (key x) && frozen x y) new) old &&
  forallb (fun y => match List.find (fun x => String.eqb (key x) (key y)) old with
                    | Some x => Bool.eqb (is_billed (status x)) (is_billed (status y))
                    | None => negb (is_billed (status y)) && negb (existsb (names_source ty (key y)) lines)
                    end) new.
End WorkContract.

(** Rows up to their wording and approval. *)
Definition reworded_entry (x y : StoredEntry) : bool :=
  let blank e := let r := se_row e in
    mkStoredEntry (mkEntry (te_id r) (te_ticketId r) None (te_durationMinutes r) (te_billableMinutes r) (te_hourlyRate r) false (te_currencyCode r))
      (se_orgId e) (se_isBillable e) (se_status e) (se_endedAt e) in
  bool_decide (blank x = blank y).

Definition reworded_part (x y : StoredPart) : bool :=
  let blank p := let r := sp_row p in
    mkStoredPart (mkPart (tp_id r) (tp_ticketId r) (tp_catalogItemId r) "" (tp_quantity r) (tp_unitPrice r) (tp_costBasis r) (tp_currencyCode r))
      (sp_orgId p) (sp_isBillable p) (sp_status p) (sp_createdAt p) in
  bool_decide (blank x = blank y).

Definition work_write_allowed (d : Db) (es : list StoredEntry) (ps : list StoredPart) : bool :=
  work_allowed entry_id se_status reworded_entry src_time_entry (db_lines d) (db_entries d) es &&
  work_allowed part_id sp_status reworded_part src_part (db_lines d) (db_parts d) ps.

Section Steps.
Context `{Uuids} {pins : Pinned}.
Variable resolver : DeviceGroup -> result string (list string * list string).

(** ** The invariant *)

(** Exactly the active contracts have a billing date. *)
Definition contract_ok (c : Contract) : Prop := ct_status c = cs_active <-> ct_nextBillingAt c <> None.

Record Sys (d : Db) : Prop := {
  sy_billing : Billing d;
  sy_ledger : List.NoDup (ledger d);
  sy_contracts : forall cid c, db_contracts d !! cid = Some c -> contract_ok c;
  sy_line_ids : List.NoDup (map cn_id (db_contractLines d));
  sy_lines : forall l, In l (db_contractLines d) -> line_ok (db_contracts d) l;
}.

Lemma draft_Sys d d' : Sys d -> draft_work d d' -> Sys d'.
Proof.
  intros [B L K I P] W. constructor; [eapply draft_work_Billing; eassumption| | | |].
  - unfold ledger. rewrite (dw_periods _ _ W). exact L.
  - rewrite (dw_contracts _ _ W). exact K.
  - rewrite (dw_clines _ _ W). exact I.
  - rewrite (dw_clines _ _ W), (dw_contracts _ _ W). exact P.
Qed.

Lemma keeps_Sys {A} (x : M A) d a d' :
  Keeps contracts_view x -> (Billing d -> x d = Ok (a, d') -> Billing d') -> Sys d -> x d = Ok (a, d') -> Sys d'.
Proof.
  intros Hk Hb [B L K I P] E. pose proof (Hk _ _ _ E) as [= E1 E2 E3].
  constructor; [auto|rewrite E1; exact L|rewrite E2; exact K|rewrite E3; exact I|rewrite E2, E3; exact P].
Qed.

(** The contracts and their lines rewritten, the invoices left alone. *)
Lemma same_Sys d d' : same_invoicing d d' -> ledger d' = ledger d ->
  (forall cid c, db_contracts d' !! cid = Some c -> contract_ok c) -> List.NoDup (map cn_id (db_contractLines d')) ->
  (forall l, In l (db_contractLines d') -> line_ok (db_contracts d') l) -> Sys d -> Sys d'.
Proof. intros S L C I P [B L0 _ _ _]. constructor; [eapply same_invoicing_Billing; eassumption|rewrite L; exact L0|exact C|exact I|exact P]. Qed.

(** The contracts and their lines untouched. *)
Lemma same_contracts_Sys d d' : same_invoicing d d' -> contracts_view d' = contracts_view d -> Sys d -> Sys d'.
Proof. intros S [= L C K] Hs. apply (same_Sys d); rewrite ?C, ?K; try apply Hs; assumption. Qed.

Lemma altered_contracts d cid f :
  (forall c, db_contracts d !! cid = Some c -> contract_ok (f c)) -> Sys d ->
  forall j c, alter f cid (db_contracts d) !! j = Some c -> contract_ok c.
Proof.
  intros Hf S j c Hj. destruct (decide (j = cid)) as [->|Hne].
  - rewrite lookup_alter_eq in Hj. apply fmap_Some in Hj as (c0 & Hc & ->). apply Hf, Hc.
  - rewrite lookup_alter_ne in Hj by congruence. exact (sy_contracts _ S _ _ Hj).
Qed.

(** A row write of a contract, in its organization and its currency. *)
Lemma contract_Sys d cid f :
  (forall c, contract_ok c -> contract_ok (f c)) ->
  (forall c, ct_orgId (f c) = ct_orgId c /\ ct_currencyCode (f c) = ct_currencyCode c) ->
  Sys d -> Sys (set_contracts (alter f cid (db_contracts d)) d).
Proof.
  intros Hf Hk S. apply (same_Sys d); [apply contracts_same|reflexivity| |apply S| |exact S].
  - apply altered_contracts; [|exact S]. intros c Hc. apply Hf, (sy_contracts _ S _ _ Hc).
  - intros l Hl. apply line_ok_alter; [exact Hk|]. exact (sy_lines _ S l Hl).
Qed.

Lemma with_billing_ok s p c : (s = cs_active <-> p <> None) -> contract_ok c -> contract_ok (with_billing s p c).
Proof. intros E _. exact E. Qed.

Lemma billing_Sys d cid s p :
  (s = cs_active <-> p <> None) -> Sys d -> Sys (set_contracts (alter (with_billing s p) cid (db_contracts d)) d).
Proof. intros E. apply contract_Sys; [intros c; apply with_billing_ok, E|intros c; split; reflexivity]. Qed.

Lemma generate_Sys asOf cid d r d' : Sys d -> generateDueInvoice resolver asOf cid d = Ok (r, d') -> Sys d'.
Proof.
  intros S E. pose proof S as [B L K I P]. pose proof (generate_Billing _ _ _ _ _ _ B E) as B'. pose proof (generate_ledger _ _ _ _ _ _ B L E) as L'.
  destruct (generate_ok _ _ _ _ _ _ (bi_wf _ B) (bi_payments _ B) E)
    as [c Hc Hi|c at_ Hc Hs Hn Hd He|c at_ d' Hc Hs Hn Hd He Hin Dw|c at_ r i d1 d' Hc Hs Hn Hd He Hin Hr1 Hr2 Hr3 Hr4 Dw Si Dr Hl Ecl].
  - exact S.
  - apply billing_Sys; [split; [discriminate|congruence]|exact S].
  - exact (draft_Sys _ _ S Dw).
  - destruct Dr as (_ & _ & _ & _ & _ & Ec).
    assert (S' : Sys (set_contracts (alter (with_billing (fst (next_billing_state c (due_index c at_))) (snd (next_billing_state c (due_index c at_)))) cid (db_contracts d)) d)).
    { apply billing_Sys; [|exact S]. clear He. unfold next_billing_state. destruct (isExpired _ _); cbn [fst snd]; [split; [discriminate|congruence]|].
      rewrite Hs. split; [intros _; discriminate|reflexivity]. }
    constructor; [exact B'|exact L'|rewrite Ec; apply S'|rewrite Ecl; exact I|rewrite Ec, Ecl; apply S'].
Qed.

Lemma issue_Sys now i actor d r d' : Sys d -> issueInvoice now i actor d = Ok (r, d') -> Sys d'.
Proof. intros S E. eapply keeps_Sys; [| |exact S|exact E]; [apply _|apply issueInvoice_Billing]. Qed.

Lemma renew_Sys today cs : forall d x d', Sys d -> renew_all today cs d = Ok (x, d') -> Sys d'.
Proof.
  induction cs as [|e cs IH]; intros d x d' S E; cbn [renew_all] in E; [apply ret_ok in E as [_ ->]; exact S|].
  apply bind_ok in E as (a & d1 & G & E). apply bind_ok in E as (b & d2 & G2 & E). apply ret_ok in E as [_ ->].
  apply (IH d1 b d2); [|exact G2]. clear IH G2.
  apply renew_candidate_ok in G as (ns & [->|(ne & ->)]).
  - apply (same_contracts_Sys d); [constructor; cbn; auto|reflexivity|exact S].
  - assert (S1 : Sys (set_contracts (alter (with_end ne) (fst e) (db_contracts d)) d)).
    { apply contract_Sys; [|split; reflexivity|exact S]. intros c Hc. exact Hc. }
    apply (same_contracts_Sys (set_contracts (alter (with_end ne) (fst e) (db_contracts d)) d)); [constructor; cbn; auto|reflexivity|exact S1].
Qed.

Lemma bill_one_Sys asOf now st cid : Sys (fst (fst st)) -> Sys (fst (fst (bill_one resolver asOf now st cid))).
Proof.
  destruct st as [[d n] f]. cbn [fst]. intros S. unfold bill_one.
  destruct (generateDueInvoice resolver asOf cid d) as [[r d1]|e] eqn:E; [|exact S]. cbn [fst].
  pose proof (generate_Sys _ _ _ _ _ S E) as S1. unfold auto_issue.
  destruct (gr_autoIssue r); [|exact S1]. destruct (gr_invoiceId r) as [i|]; [|exact S1]. destruct (gr_actor r) as [actor|]; [|exact S1].
  unfold commit. destruct (issueInvoice now i actor d1) as [[v d2]|e] eqn:E2; [|exact S1]. exact (issue_Sys _ _ _ _ _ _ S1 E2).
Qed.

Lemma billing_job_Sys asOf now d : Sys d -> Sys (billing_sweep_job resolver asOf now d).
Proof.
  intros S. unfold billing_sweep_job. destruct (runContractRenewalSweep asOf d) as [[x d1]|e] eqn:E; [|exact S].
  unfold runContractRenewalSweep in E. apply bind_ok in E as (cs & d0 & G & E). apply read_ok in G as [-> ->].
  apply renew_Sys in E; [|exact S]. unfold runContractBillingSweep.
  assert (K : forall ids st, Sys (fst (fst st)) -> Sys (fst (fst (fold_left (bill_one resolver asOf now) ids st)))).
  { intros ids. induction ids as [|i ids IH]; intros st Hs; [exact Hs|]. cbn [fold_left]. apply IH, bill_one_Sys, Hs. }
  apply K. exact E.
Qed.

(** *** Work logged *)

Lemma distinct_NoDup ids : distinct ids = true <-> List.NoDup ids.
Proof.
  induction ids as [|x r IH]; cbn; [split; [intros _; apply List.NoDup_nil|reflexivity]|].
  rewrite andb_true_iff, negb_true_iff, List.NoDup_cons_iff, IH, <- str_mem_in. destruct (str_mem x r); intuition congruence.
Qed.

(** Every row a live invoice bills is still billed. *)
Lemma work_allowed_billed {A} (key : A -> string) status frozen ty d old new :
  work_allowed key status frozen ty (db_lines d) old new = true ->
  List.NoDup (map key new) /\
  forall j s y, In s (sourceIds ty (lines_of j d)) -> In y new -> key y = s ->
    (forall x, In x old -> key x = s -> status x = billed) -> status y = billed.
Proof.
  unfold work_allowed. rewrite !andb_true_iff, distinct_NoDup, !forallb_forall. intros ((N & _) & W). split; [exact N|].
  intros j s y Hs Hy Ey Hold. specialize (W y Hy). destruct (List.find _ old) as [x|] eqn:Ef.
  - apply find_some in Ef as [Hx Ex]. apply String.eqb_eq in Ex. rewrite (Hold x Hx ltac:(congruence)) in W. cbn in W.
    destruct (status y); try discriminate W. reflexivity.
  - exfalso. apply andb_true_iff in W as [_ W]. apply negb_true_iff in W. apply in_sourceIds in Hs as (l & Hl & E1 & E2).
    unfold lines_of in Hl. apply filter_In in Hl as [Hl _].
    assert (F : existsb (names_source ty (key y)) (db_lines d) = true); [|congruence]. apply existsb_exists. exists l. split; [exact Hl|].
    unfold names_source. rewrite E1. destruct (lv_sourceId (il_values l)) as [z|]; [|discriminate E2]. cbn in E2 |- *.
    destruct (String.eqb z ""); [discriminate|]. injection E2 as ->. rewrite Ey. apply String.eqb_refl.
Qed.

Lemma write_work_Sys es ps d : Sys d -> work_write_allowed d es ps = true -> Sys (set_parts ps (set_entries es d)).
Proof.
  intros [B L K I P] W. apply andb_true_iff in W as [We Wp].
  destruct (work_allowed_billed _ _ _ _ _ _ _ We) as [Ne He]. destruct (work_allowed_billed _ _ _ _ _ _ _ Wp) as [Np Hp].
  constructor; [|exact L|exact K|exact I|exact P]. destruct B as [W A1 A2 A3 A4 A5 A6 A6' A7 A8 A9]. constructor; cbn; try assumption.
  - destruct W. constructor; cbn; assumption.
  - apply (Sessions_same d); cbn; eauto.
  - intros i inv s e Hi Hl Hin Hx Ex. apply (He i s e Hin Hx Ex). intros x Hold E. exact (A7 _ _ _ _ Hi Hl Hin Hold E).
  - intros i inv s p Hi Hl Hin Hx Ex. apply (Hp i s p Hin Hx Ex). intros x Hold E. exact (A8 _ _ _ _ Hi Hl Hin Hold E).
Qed.

(** A contract write of the lifecycle. *)
Lemma lifecycle_Sys (x : M unit) cid s p d u d' :
  (s = cs_active <-> p <> None) -> (d' = d \/ d' = set_contracts (alter (with_billing s p) cid (db_contracts d)) d) ->
  x d = Ok (u, d') -> Sys d -> Sys d'.
Proof. intros Hs [-> | ->] _ S; [exact S|]. apply billing_Sys; [exact Hs|exact S]. Qed.

Lemma activate_Sys asOf cid actor d u d' : Sys d -> activateContract asOf cid actor d = Ok (u, d') -> Sys d'.
Proof.
  intros S E. pose proof E as E0. unfold activateContract, update_contract in E. apply bind_ok in E as (c & d1 & G & E).
  pose proof (read_only _ _ _ G) as ->. clear G. run_m. drop_ro.
  eapply (lifecycle_Sys _ cid cs_active); [|right; reflexivity|exact E0|exact S]. split; [discriminate|reflexivity].
Qed.

(** What an unlocked call of the lifecycle may write: a status with the pointer
    that belongs to it. *)
Definition lifecycle_write (set : option (Contract -> Contract)) : Prop :=
  forall f, set = Some f -> exists s p, f = with_billing s p /\ (s = cs_active <-> p <> None).

Lemma pause_writes cid actor seen set seen' : pause_plan cid actor seen = Ok (set, seen') -> lifecycle_write set.
Proof. unfold pause_plan. intros E. run_m. intros f [= <-]. eexists _, _. split; [reflexivity|]. split; [discriminate|congruence]. Qed.

Lemma resume_writes day cid actor seen set seen' : resume_plan day cid actor seen = Ok (set, seen') -> lifecycle_write set.
Proof. unfold resume_plan. intros E. run_m. intros f [= <-]. eexists _, _. split; [reflexivity|]. split; [discriminate|reflexivity]. Qed.

Lemma cancel_writes cid actor seen set seen' : cancel_plan cid actor seen = Ok (set, seen') -> lifecycle_write set.
Proof.
  unfold cancel_plan. intros E. run_m. intros f E. exists cs_cancelled, None. split; [|split; [discriminate|congruence]].
  destruct (ct_status _); congruence.
Qed.

Lemma write_plan_Sys cid set d u d' : lifecycle_write set -> write_plan cid set d = Ok (u, d') -> Sys d -> Sys d'.
Proof.
  intros L E S. destruct set as [f|]; cbn in E; [|apply ret_ok in E as [_ ->]; exact S].
  destruct (L f eq_refl) as (s & p & -> & Hs). apply modify_ok in E as ->. apply billing_Sys; assumption.
Qed.

(** A committed transaction keeps the invariant if its successful runs do. *)
Lemma commit_Sys {A} (x : M A) d : Sys d -> (forall a d', x d = Ok (a, d') -> Sys d') -> Sys (commit x d).
Proof. intros S Hx. unfold commit. destruct (x d) as [[a d']|e] eqn:E; [exact (Hx _ _ eq_refl)|exact S]. Qed.

End Steps.

(** ** Transactions and handlers that keep the invariant *)

Section Handlers.
Context `{Uuids} {pins : Pinned}.

Class SysTx {A} (x : M A) : Prop := sys_tx : forall d a d', Sys d -> x d = Ok (a, d') -> Sys d'.
Class SysRun {A} (x : Run A) : Prop := sys_run : forall d, Sys d -> Sys (after x d).

#[export] Instance ro_tx {A} (x : M A) : ReadOnly x -> SysTx x.
Proof. intros R d a d' S E. apply R in E as ->. exact S. Qed.
#[export] Instance bind_tx {A B} (x : M A) (k : A -> M B) : SysTx x -> (forall a, SysTx (k a)) -> SysTx (bind x k).
Proof. intros Hx Hk d b d' S E. apply bind_ok in E as (a & d1 & G & E). eapply Hk; [|exact E]. eapply Hx; eassumption. Qed.

Lemma keeps_tx {A} (x : M A) :
  Keeps contracts_view x -> (forall d a d', Billing d -> x d = Ok (a, d') -> Billing d') -> SysTx x.
Proof. intros Hk Hb d a d' S E. eapply keeps_Sys; [exact Hk|apply Hb|exact S|exact E]. Qed.

Lemma draft_tx {A} (x : M A) : (forall d a d', Billing d -> x d = Ok (a, d') -> draft_work d d') -> SysTx x.
Proof. intros Hx d a d' S E. eapply draft_Sys; [exact S|]. eapply Hx; [apply S|exact E]. Qed.

Lemma resession_Sys d d' : resession d d' -> Sys d -> Sys d'.
Proof.
  intros R [B L K I P]. pose proof (resession_Billing _ _ R B) as B'. destruct R as (g & -> & _). constructor; [exact B'|exact L|exact K|exact I|exact P].
Qed.
Lemma resession_tx {A} (x : M A) : (forall d a d', x d = Ok (a, d') -> resession d d') -> SysTx x.
Proof. intros Hx d a d' S E. eapply resession_Sys; [|exact S]. eapply Hx, E. Qed.

#[export] Instance run_tx {A} (x : M A) : SysTx x -> SysRun (tx x).
Proof. intros Hx. exact (tx_keeps Sys x Hx). Qed.
#[export] Instance run_done {A} (a : A) : SysRun (done a).
Proof. intros d S. exact S. Qed.
#[export] Instance run_then {A B} (x : Run A) (k : A -> Run B) : SysRun x -> (forall a, SysRun (k a)) -> SysRun (then_run x k).
Proof. intros Hx Hk. exact (run_keeps Sys x k Hx Hk). Qed.
#[export] Instance run_catch {A} (x : Run A) h : SysRun x -> (forall e, SysRun (h e)) -> SysRun (catch x h).
Proof. intros Hx Hh. exact (catch_keeps Sys x h Hx Hh). Qed.
#[export] Instance run_loop {A} (f : A -> Run unit) l : (forall a, SysRun (f a)) -> SysRun (run_each f l).
Proof. intros Hf. exact (run_each_keeps Sys f l Hf). Qed.

(** A read whose answer satisfies [Q] and what follows it. *)
Lemma run_read {A B} (Q : A -> Prop) (x : M A) (k : A -> Run B) :
  ReadOnly x -> (forall d a d', x d = Ok (a, d') -> Q a) -> (forall a, Q a -> SysRun (k a)) -> SysRun (then_run (tx x) k).
Proof.
  intros R Hq Hk d S. unfold after, then_run, tx. destruct (x d) as [[a d']|e] eqn:E; [|exact S].
  rewrite (read_only _ _ _ E). apply (Hk a (Hq _ _ _ E)), S.
Qed.
End Handlers.

(** Case analysis inside a handler. *)
Ltac solve_run :=
  repeat match goal with
  | |- SysRun (match ?x with _ => _ end) => destruct x
  | |- SysRun (let '(_, _) := ?x in _) => destruct x
  | |- SysRun (if ?x then _ else _) => destruct x
  | |- SysRun (then_run _ _) => apply run_then; [|intros ?]
  | |- SysRun (catch _ _) => apply run_catch; [|intros ?]
  | |- SysRun (run_each _ _) => apply run_loop; intros ?
  | |- SysRun (tx _) => apply run_tx
  | |- SysTx (match ?x with _ => _ end) => destruct x
  | |- SysTx (if ?x then _ else _) => destruct x
  | |- SysRun _ => apply _
  | |- SysTx (bind _ _) => first [apply _|apply bind_tx; [|intros ?]]
  | |- SysTx _ => apply _
  end.

Section HandlerSteps.
Context `{Uuids} {pins : Pinned}.

(** *** Invoices *)

#[export] Instance recompute_tx i o : SysTx (recomputeInvoiceTotals i o).
Proof. apply draft_tx. intros d u d' B E. apply recompute_work in E as [W _]; [exact W|apply B]. Qed.
#[export] Instance revocation_tx now an i reason a : SysTx (requestInvoiceSessionRevocation now an i reason a).
Proof. apply resession_tx. intros d u d'. apply revocation_sessions. Qed.
#[export] Instance recordPayment_sys now i input a : SysTx (recordPayment_tx now i input a).
Proof. apply keeps_tx; [apply _|]. intros d u d'. apply recordPayment_Billing. Qed.
#[export] Instance voidInvoice_sys now i reason b a : SysTx (voidInvoice_tx now i reason b a).
Proof. apply keeps_tx; [apply _|]. intros d u d'. apply voidInvoice_Billing. Qed.

Lemma recordPayment_run now an i input a : SysRun (recordPayment now an i input a).
Proof. unfold recordPayment. solve_run. Qed.
Lemma voidInvoice_run now an i reason b a : SysRun (voidInvoice now an i reason b a).
Proof. unfold voidInvoice. solve_run. Qed.

(** *** Checkout sessions *)

Lemma update_revocation_tx p f : (forall r, exists k, f r = with_revocation k r) -> SysTx (update_stripe p f).
Proof. intros Hf. apply resession_tx. intros d u d' E. eapply update_stripe_resession; eassumption. Qed.
#[export] Instance intent_tx now i reason a : SysTx (recordRevocationIntent now i reason a).
Proof. apply resession_tx. intros d u d'. apply recordRevocationIntent_sessions. Qed.
#[export] Instance provider_tx now an rows : SysTx (runProviderPhase now an rows).
Proof. apply resession_tx. intros d u d'. apply runProviderPhase_sessions. Qed.
#[export] Instance abandon_tx i reason : SysTx (abandonInvoiceSessionRevocation i reason).
Proof.
  unfold abandonInvoiceSessionRevocation. cbv zeta. apply bind_tx; [apply _|]. intros rows. apply bind_tx; [|intros _; solve_run].
  apply update_revocation_tx. intros r. eexists. reflexivity.
Qed.
#[export] Instance repair_tx i : SysTx (markSessionChargedRepair i).
Proof. apply update_revocation_tx. intros r. eexists. reflexivity. Qed.
#[export] Instance account_intent_tx now a reason : SysTx (markRevocationIntentForAccountInTx now a reason).
Proof. apply update_revocation_tx. intros r. eexists. reflexivity. Qed.
#[export] Instance rearm_tx now a : SysTx (rearmBlockedRevocationsForAccount now a).
Proof. apply update_revocation_tx. intros r. eexists. reflexivity. Qed.
#[export] Instance sweep_tx now an : SysTx (runStripeSessionRevocationSweep now an).
Proof. unfold runStripeSessionRevocationSweep. solve_run. Qed.
Lemma revoke_account_run now an a reason : SysRun (revokeOpenSessionsForAccount now an a reason).
Proof. unfold revokeOpenSessionsForAccount. solve_run. Qed.

(** *** Reversals *)

#[export] Instance apply_tx now id : SysTx (applyStripeFinancialEvent now id).
Proof. apply keeps_tx; [apply _|]. intros d u d'. apply apply_Billing. Qed.
Lemma events_tx f : SysTx (modify (fun d => set_stripeEvents (f d) d)).
Proof. apply keeps_tx; [apply modify_keeps; reflexivity|]. intros d u d' B E. apply modify_ok in E as ->. apply events_Billing, B. Qed.
#[export] Instance apply_each_run now ids : SysRun (apply_each now ids).
Proof. induction ids as [|id ids IH]; cbn [apply_each]; solve_run. Qed.
#[export] Instance pending_payment_run now a pi : SysRun (processPendingStripeFinancialEventsForPayment now a pi).
Proof. unfold processPendingStripeFinancialEventsForPayment. solve_run. Qed.
Lemma pending_run now n : SysRun (processPendingStripeFinancialEvents now n).
Proof. unfold processPendingStripeFinancialEvents, attempt_event. solve_run. apply events_tx. Qed.
#[export] Instance exact_ro v : ReadOnly (exactNonNegativeInteger v).
Proof. unfold exactNonNegativeInteger. solve_ro. Qed.
#[export] Instance store_event_tx now e q : SysTx (store_event now e q).
Proof. unfold store_event. solve_run; try apply events_tx. Qed.
#[export] Instance ingest_run now e q : SysRun (ingestStripeFinancialEvent now e q).
Proof. unfold ingestStripeFinancialEvent. cbv zeta. solve_run. Qed.

(** *** Captures *)

(** An amount the provider reports: at most twelve digits of minor units. *)
Definition plausible_total (n : option Z) : bool := match n with Some n => n <=? 10 ^ 12 | None => true end.
Definition plausible (s : CheckoutSession) : bool := plausible_total (ck_amountTotal s).

(** What a capture must bring: an amount of money. *)
Definition money_input (c : CaptureInput) : Prop := exists n, ci_amount c = fixed2 n /\ Z.abs n <= cents_bound.

#[export] Instance session_capture_ro a s : ReadOnly (session_capture a s).
Proof. unfold session_capture. cbv zeta. solve_ro. Qed.

Lemma session_capture_money a s d c d' : plausible s = true -> session_capture a s d = Ok (Some c, d') -> money_input c.
Proof.
  intros P E. unfold session_capture in E. cbv zeta in E. destruct (truthy _) as [pi|]; [|discriminate E].
  destruct (_ || _) eqn:Hn; [discriminate E|]. apply orb_false_iff in Hn as [_ Hn]. run_m. cbn.
  unfold plausible, plausible_total in P. destruct (ck_amountTotal s) as [n|]; [|discriminate Hn].
  apply Z.leb_le in P. apply Z.leb_gt in Hn. match goal with G : Some _ = Some _ |- _ => injection G as -> end.
  match goal with G : fromMinorUnits _ ?cur = Ok _ |- _ => rewrite fromMinorUnits_money in G by lia; injection G as <-;
    exists (minor_cents n (minorUnitExponent cur)); split; [reflexivity|]; unfold minor_cents, cents_bound;
    destruct (minorUnitExponent_cases cur) as [F|F]; rewrite F; cbn; lia end.
Qed.

Lemma record_run now c : money_input c -> SysRun (recordStripePayment now c).
Proof.
  intros (n & E & Hn). unfold recordStripePayment. apply run_then; [|intros []; solve_run].
  apply run_tx, keeps_tx; [apply _|]. intros d u d' B. eapply recordStripePayment_Billing; eassumption.
Qed.

Lemma settle_run now p s : plausible s = true -> SysRun (settleCheckoutSession now p s).
Proof.
  intros P. unfold settleCheckoutSession. apply run_then; [solve_run|]. intros [a|]; [|solve_run].
  apply (run_read (fun o => forall c, o = Some c -> money_input c)); [apply _| |].
  - intros d o d' E c ->. eapply session_capture_money; eassumption.
  - intros [c|] Hc; [|solve_run]. apply run_then; [apply record_run, Hc; reflexivity|]. intros _. solve_run.
Qed.

(** The provider's sessions, where it answers with an amount it could charge. *)
Definition plausible_answers (retrieve : string -> option CheckoutSession) (id : string) : option CheckoutSession :=
  match retrieve id with Some s => if plausible s then Some s else None | None => None end.

Lemma reconcile_run now retrieve : SysRun (reconcilePendingStripePayments now (plausible_answers retrieve)).
Proof.
  unfold reconcilePendingStripePayments. apply run_then; [solve_run|]. intros rows. apply run_loop. intros row.
  unfold plausible_answers. destruct (retrieve (snd row)) as [s|]; [|solve_run]. destruct (plausible s) eqn:P; [|solve_run].
  apply run_catch; [|intros _; solve_run]. apply run_then; [apply settle_run, P|intros _; solve_run].
Qed.

Definition plausible_event (e : StripeEvent) : bool := match e with ev_checkout _ _ s => plausible s | _ => true end.

#[export] Instance money_connection_ro a l : ReadOnly (money_connection a l).
Proof. unfold money_connection. solve_ro. Qed.

#[export] Instance payment_failed_tx pi : SysTx (payment_failed pi).
Proof.
  unfold payment_failed. apply keeps_tx; [solve_keeps|]. intros d u d' B E. apply bind_ok in E as (found & d1 & G & E).
  apply read_ok in G as [-> ->]. destruct (List.find _ _) as [m|] eqn:F; [|run_m; exact B].
  apply List.find_some in F as [Hin _]. eapply markMapping_Billing; eassumption.
Qed.

#[export] Instance disconnect_tx a : SysTx (markDisconnectedByAccount a).
Proof.
  intros d u d' S E. apply modify_ok in E as ->. apply (same_contracts_Sys d); [constructor; cbn; auto|reflexivity|exact S].
Qed.

Lemma webhook_run now retrieve e : plausible_event e = true -> SysRun (handleStripeEvent now retrieve e).
Proof.
  intros P. destruct e as [a l s|a l pi|e|a|]; cbn [handleStripeEvent]; try solve [solve_run].
  apply run_then; [solve_run|]. intros [c|]; [|solve_run].
  apply (run_read (fun o => forall c, o = Some c -> money_input c)); [apply _| |].
  - intros d o d' E x ->. eapply session_capture_money; eassumption.
  - intros [x|] Hc; [|solve_run]. apply run_then; [apply record_run, Hc; reflexivity|intros _; solve_run].
Qed.

(** *** Payment links *)

Lemma link_run now o session :
  offer_ok o -> In (pin_invoice (of_invoiceId o) (iv_currencyCode (of_invoice o))) pinned -> SysRun (finishPayLink now o session).
Proof.
  intros Ho Hp. unfold finishPayLink. apply run_then; [|intros raced; solve_run].
  apply run_tx, keeps_tx; [apply _|]. intros d u d' B. apply commitPayLink_Billing; assumption.
Qed.
End HandlerSteps.

(** Pins may be dropped, and added where they hold. *)
Lemma Sys_pins `{Uuids} (p q : Pinned) d :
  (forall x, In x (pinned (Pinned := q)) -> In x (pinned (Pinned := p)) \/ pin_ok d x) ->
  Sys (pins := p) d -> Sys (pins := q) d.
Proof.
  intros Hq [B L K I P]. constructor; [|exact L|exact K|exact I|exact P]. destruct B as [W A1 A2 A3 A4 A5 [C1 C2 C3 C4 C5] A6 A7 A8 A9].
  constructor; auto. constructor; auto. intros x Hx. destruct (Hq x Hx) as [Hx'|Hx']; [exact (C5 x Hx')|exact Hx'].
Qed.
