(* ===== verification/ContractSteps.v ===== *)
(** * Editing contracts keeps the billing system's invariant

    Every operation of [ContractDrafting] as a transaction that keeps the
    invariant of [BillingSteps]: the statuses and billing dates of contracts and
    the prices of the lines. *)

From Stdlib Require Import QArith.
From S2P Require Import Prelude JsString JsNumber Currency IsoDate QuoteMath QuoteSpec InvoiceMath ContractMath TimeBilling CatalogPricing ContractCoverage BillingDb InvoiceService StripeSessions StripeReversal InvoiceLifecycle StripeReconcile InvoiceInvariants InvoiceSafety StripeSafety ContractService QuoteDb QuoteConversion ContractDrafting ContractRenewal ContractSafety ContractProperties ContractLines BillingSteps.
From stdpp Require Import base gmap strings list.

Local Open Scope string_scope.
Local Open Scope Z_scope.
Local Open Scope billing_scope.

Section ContractSteps.
Context `{Uuids} {pins : Pinned}.

(** ** Lines *)

(** The lines replaced by lines of live contracts, priced in their currency. *)
Lemma lines_Sys ls d :
  List.NoDup (map cn_id ls) -> (forall l, In l ls -> line_ok (db_contracts d) l) -> Sys d -> Sys (set_contractLines ls d).
Proof. intros N P S. apply (same_Sys d); [constructor; cbn; auto|reflexivity|apply S|exact N|exact P|exact S]. Qed.

Lemma add_line_Sys l d :
  ~ In (cn_id l) (map cn_id (db_contractLines d)) -> line_ok (db_contracts d) l -> Sys d ->
  Sys (set_contractLines (db_contractLines d ++ [l])%list d).
Proof.
  intros N P S. apply lines_Sys; [| |exact S].
  - rewrite map_app. apply List.NoDup_app; [apply S|repeat constructor; intros []|]. intros x Hx [<-|[]]. contradiction.
  - intros x Hx. apply in_app_or in Hx as [Hx|[<-|[]]]; [exact (sy_lines _ S x Hx)|exact P].
Qed.

Lemma filter_lines_Sys p d : Sys d -> Sys (set_contractLines (List.filter p (db_contractLines d)) d).
Proof.
  intros S. apply lines_Sys; [apply NoDup_filter_map, S| |exact S]. intros l Hl. apply filter_In in Hl as [Hl _]. exact (sy_lines _ S l Hl).
Qed.

Lemma next_Sys n d : (db_next d <= n)%nat -> Sys d -> Sys (set_next n d).
Proof. intros Hn S. apply (same_contracts_Sys d); [constructor; cbn; auto|reflexivity|exact S]. Qed.

#[export] Instance addContractLine_tx cid input actor : SysTx (addContractLineToContract cid input actor).
Proof.
  intros d row d' Sd E. apply addContractLine_ok in E as (c & Hc & _ & Ec & Eo & Hp & Hn & ->).
  apply (add_line_Sys row (set_next (S (db_next d)) d)); [exact Hn| |apply next_Sys; [lia|exact Sd]].
  exists c. rewrite Ec. auto.
Qed.

#[export] Instance removeContractLine_tx cid lid actor : SysTx (removeContractLine cid lid actor).
Proof. intros d r d' S E. apply removeContractLine_ok in E as ->. apply filter_lines_Sys, S. Qed.

#[export] Instance updateContractLine_tx cid lid patch actor : SysTx (updateContractLine cid lid patch actor).
Proof.
  intros d r d' S E. apply updateContractLine_ok in E as (c & l & x & Hc & _ & _ & _ & Ei & Ec & Eo & Hp & _ & _ & ->); [|apply S].
  apply lines_Sys; [| |exact S].
  - rewrite map_map, (map_ext_in _ cn_id); [apply S|]. intros y _. unfold is_line. destruct (String.eqb_spec (cn_id y) lid); [|reflexivity].
    cbn. destruct (String.eqb _ _); congruence.
  - intros y Hy. apply in_map_iff in Hy as (z & <- & Hz). destruct (is_line cid lid z); [|exact (sy_lines _ S z Hz)].
    exists c. rewrite Ec. auto.
Qed.

(** ** Headers *)

Lemma new_contract_Sys cid c d :
  db_contracts d !! cid = None -> ct_status c = cs_draft -> ct_nextBillingAt c = None -> Sys d ->
  Sys (set_contracts (<[cid := c]> (db_contracts d)) d).
Proof.
  intros Hn Hs Hb S. apply (same_Sys d); [apply contracts_same|reflexivity| |apply S| |exact S].
  - intros j c' Hc. cbn in Hc. apply lookup_insert_Some in Hc as [[_ <-]|[_ Hc]]; [|exact (sy_contracts _ S _ _ Hc)].
    unfold contract_ok. rewrite Hs, Hb. split; [discriminate|congruence].
  - intros l Hl. apply line_ok_insert; [exact Hn|exact (sy_lines _ S l Hl)].
Qed.

#[export] Instance createContract_sys input actor : SysTx (createContract input actor).
Proof.
  intros d id d' Sd E. unfold createContract in E.
  do 4 (apply bind_ok in E as (? & d1 & G & E); pose proof (read_only _ _ _ G) as ->; clear G).
  apply bind_ok in E as (o & d1 & G & E). apply read_ok in G as [-> ->]. destruct (rf_organizations _ !! _) as [org|]; [|discriminate E].
  apply bind_ok in E as (k & d1 & G & E). apply mint_ok in G as [-> ->]. run_m.
  apply (new_contract_Sys _ _ (set_next (S (db_next d)) d)); try reflexivity.
  - match goal with Hn : negb _ = true |- _ => cbn in Hn |- *; destruct (db_contracts d !! _); [discriminate Hn|reflexivity] end.
  - apply next_Sys; [lia|exact Sd].
Qed.

#[export] Instance updateContract_plan_ro cid patch actor : ReadOnly (updateContract_plan cid patch actor).
Proof. unfold updateContract_plan, assertEditable. solve_ro. Qed.

Lemma getOwnedContract_row cid actor d c d' : getOwnedContractOr404 cid actor d = Ok (c, d') -> db_contracts d !! cid = Some c.
Proof.
  unfold getOwnedContractOr404. intros E. apply bind_ok in E as (o & d1 & G & E). apply read_ok in G as [-> ->].
  destruct (db_contracts d !! cid) as [c0|]; [|discriminate E]. apply bind_ok in E as (? & d1 & _ & E). apply ret_ok in E as [-> _]. reflexivity.
Qed.

(** What an update of the header writes, and when it may. *)
Lemma updateContract_plan_ok cid patch actor d f d' :
  updateContract_plan cid patch actor d = Ok (f, d') ->
  exists c, db_contracts d !! cid = Some c /\ (ct_status c = cs_draft \/ (ct_status c = cs_active /\ touches_schedule patch = false)) /\
    f = safe_set (is_draft c) patch /\ renewable (f c) = true.
Proof.
  unfold updateContract_plan, assertEditable. intros E. apply bind_ok in E as (c & d1 & G & E). pose proof (read_only _ _ _ G) as ->.
  apply getOwnedContract_row in G. apply bind_ok in E as (? & d1 & G1 & E). pose proof (read_only _ _ _ G1) as ->. clear G1.
  run_m. exists c. split; [exact G|]. unfold is_draft in *. destruct (renewable _) eqn:Hr; [|discriminate].
  split; [|auto]. destruct (ct_status c); try discriminate; [auto|]. right. split; [reflexivity|]. destruct (touches_schedule patch); [discriminate|reflexivity].
Qed.

(** Whatever the columns were decided on, they are not the status, the pointer,
    the organization or the currency. *)
Lemma header_write_Sys cid draft patch d : Sys d -> Sys (set_contracts (alter (safe_set draft patch) cid (db_contracts d)) d).
Proof. apply contract_Sys; [intros c Hc; exact Hc|intros c; split; reflexivity]. Qed.

(** ** The currency *)

Lemma changeContractCurrency_Sys cid cur clear reprice confirm perms actor :
  clear && reprice = false -> SysTx (changeContractCurrency cid cur clear reprice confirm perms actor).
Proof.
  intros X d u d' S E. apply changeContractCurrency_ok in E as (c & Hc & _ & [[_ ->]|(_ & ls & -> & N & Hl)]); [exact S| |apply S|exact X].
  apply (same_Sys d); [constructor; cbn; auto|reflexivity| |exact N| |exact S].
  - apply altered_contracts; [|exact S]. intros c' Hc'. rewrite Hc in Hc'. injection Hc' as <-. exact (sy_contracts _ S _ _ Hc).
  - intros l Hin. cbn in Hin |- *. destruct (Hl l Hin) as [[Hne Hin0]|(Ec & Hp & l0 & Hin0 & El)].
    + destruct (sy_lines _ S l Hin0) as (c' & Hc' & Ho & Hp). exists c'. rewrite lookup_alter_ne by congruence. auto.
    + destruct (sy_lines _ S l0 Hin0) as (c' & Hc' & Ho & _). assert (cn_contractId l0 = cid) as E0 by (rewrite <- Ec, El; reflexivity).
      rewrite E0, Hc in Hc'. injection Hc' as <-. exists (with_currency cur c). rewrite Ec, lookup_alter_eq, Hc.
      split; [reflexivity|]. split; [rewrite El; exact Ho|exact Hp].
Qed.

(** ** Deleting a draft *)

Lemma relined_fields cid l :
  il_id (without_source_contract cid l) = il_id l /\ il_invoiceId (without_source_contract cid l) = il_invoiceId l /\
  lv_sourceType (il_values (without_source_contract cid l)) = lv_sourceType (il_values l) /\
  lv_sourceId (il_values (without_source_contract cid l)) = lv_sourceId (il_values l).
Proof. unfold without_source_contract. cbv zeta. destruct (opt_eqb _ _); auto. Qed.

Lemma relined_parent cid l : lv_parentLineId (il_values (without_source_contract cid l)) = lv_parentLineId (il_values l).
Proof. unfold without_source_contract. cbv zeta. destruct (opt_eqb _ _); reflexivity. Qed.

Lemma relined_sources cid ty i ls s :
  In s (sourceIds ty (List.filter (fun l => String.eqb (il_invoiceId l) i) (map (without_source_contract cid) ls))) <->
  In s (sourceIds ty (List.filter (fun l => String.eqb (il_invoiceId l) i) ls)).
Proof.
  rewrite !in_sourceIds. split.
  - intros (l & Hl & E). apply filter_In in Hl as [Hl Hi]. apply in_map_iff in Hl as (x & <- & Hx).
    destruct (relined_fields cid x) as (_ & F2 & F3 & F4). rewrite F2 in Hi. rewrite F3, F4 in E. exists x. split; [apply filter_In; auto|exact E].
  - intros (l & Hl & E). apply filter_In in Hl as [Hl Hi]. destruct (relined_fields cid l) as (_ & F2 & F3 & F4).
    exists (without_source_contract cid l). rewrite F3, F4. split; [apply filter_In; split; [apply in_map, Hl|rewrite F2; exact Hi]|exact E].
Qed.

(** The invoice lines of a deleted contract lose their mark, nothing billing
    rests on. *)
Lemma relined_Billing cid d : Billing d -> Billing (set_lines (map (without_source_contract cid) (db_lines d)) d).
Proof.
  intros [[W1 W2 W3 W4 W5 W6] A1 A2 A3 A4 A5 A6 A7 A8 A9 A10].
  assert (Hid : map il_id (map (without_source_contract cid) (db_lines d)) = map il_id (db_lines d)).
  { rewrite map_map. apply map_ext. intros l. apply relined_fields. }
  assert (L : forall ty i s, In s (sourceIds ty (lines_of i (set_lines (map (without_source_contract cid) (db_lines d)) d))) -> In s (sourceIds ty (lines_of i d)))
    by (intros ty i s; apply relined_sources).
  constructor; try assumption.
  - constructor; cbn; try rewrite Hid; try assumption; intros l Hl; apply in_map_iff in Hl as (x & <- & Hx); destruct (relined_fields cid x) as (_ & -> & _).
    + exact (W3 x Hx).
    + rewrite relined_parent. intros p E. destruct (W6 x Hx p E) as [Hm Hq]. split; [exact Hm|]. cbn. intros q Hin Eq. apply in_map_iff in Hin as (y & <- & Hy).
      destruct (relined_fields cid y) as (F1 & F2 & _). rewrite F1 in Eq. rewrite F2. exact (Hq y Hy Eq).
  - apply (Sessions_same d); cbn; eauto.
  - intros i inv s e Hi Hv Hs. exact (A8 i inv s e Hi Hv (L _ _ _ Hs)).
  - intros i inv s e Hi Hv Hs. exact (A9 i inv s e Hi Hv (L _ _ _ Hs)).
  - intros i j inv inv' ty s Hi Hj Hv Hv' Ht Hs Hs'. exact (A10 i j inv inv' ty s Hi Hj Hv Hv' Ht (L _ _ _ Hs) (L _ _ _ Hs')).
Qed.

Lemma drop_contract_Sys cid d : Sys d -> Sys (drop_contract cid d).
Proof.
  intros [B L K I P]. set (d1 := set_lines (map (without_source_contract cid) (db_lines d)) d).
  constructor.
  - apply (same_invoicing_Billing d1); [constructor; cbn; auto|apply relined_Billing, B].
  - apply (NoDup_filter_map period_key), L.
  - intros j c Hj. cbn in Hj. apply lookup_delete_Some in Hj as [_ Hj]. exact (K j c Hj).
  - apply (NoDup_filter_map cn_id), I.
  - intros l Hl. cbn in Hl. apply filter_In in Hl as [Hl Hn]. destruct (P l Hl) as (c & Hc & Ho & Hp). exists c.
    split; [|auto]. cbn. rewrite lookup_delete_ne; [exact Hc|]. intros Ed. rewrite <- Ed, String.eqb_refl in Hn. discriminate Hn.
Qed.

End ContractSteps.
