(* ===== verification/QuoteSafety.v ===== *)
(** * The conversion of a quote against the billing invariant

    What an acceptance writes to the billing tables keeps the invariant of the
    whole system, and what the invoice it issues says. *)

From Stdlib Require Import QArith.
From S2P Require Import Prelude JsString JsNumber Currency IsoDate QuoteMath QuoteSpec InvoiceMath ContractMath TimeBilling CatalogPricing ContractCoverage BillingDb InvoiceService StripeSessions StripeReversal InvoiceLifecycle StripeReconcile InvoiceInvariants InvoiceSafety StripeSafety ContractService QuoteDb QuoteConversion ContractRenewal ContractSafety ContractProperties ContractDrafting ContractLines BillingSteps ContractSteps.
From stdpp Require Import base gmap strings list pretty.

Local Open Scope string_scope.
Local Open Scope Z_scope.
Local Open Scope billing_scope.

Section Conversion.
Context `{Uuids} {pins : Pinned}.

(** ** The lines *)

(** A line of the conversion with its stored form. *)
Definition converted (cur : string) (l : QuoteLine) (t : TotalsLine) : Prop :=
  exists c, InvoiceMath.computeLineTotal (quantity (ql_math l)) (unitPrice (ql_math l)) cur = Ok (fixed2 c) /\
    whole_units cur c /\ t = mkTotalsLine (fixed2 c) (taxable (ql_math l)) true.

Lemma computeLineTotal_money q u cur t : InvoiceMath.computeLineTotal q u cur = Ok t -> exists c, t = fixed2 c /\ whole_units cur c.
Proof.
  unfold InvoiceMath.computeLineTotal, multiplyToCurrency. intros E. apply rbind_ok in E as (x & Hx & E). apply rbind_ok in E as (y & Hy & E).
  pose proof (multiplyToCurrency_parses _ _ _ _ cur (parsed _ _ Hx) (parsed _ _ Hy)) as R. unfold multiplyToCurrency in R.
  rewrite Hx, Hy in R. cbn [rbind] in R. rewrite R in E. injection E as <-. eexists. split; [reflexivity|]. eexists. reflexivity.
Qed.

Lemma store_values_money v c x : store_values v = Ok x -> lv_lineTotal v = fixed2 c ->
  lv_lineTotal x = fixed2 c /\ lv_taxable x = lv_taxable v /\ lv_customerVisible x = lv_customerVisible v /\
  lv_sourceType x = lv_sourceType v.
Proof.
  intros E Hc. unfold store_values in E. rewrite Hc in E. do 4 apply rbind_ok in E as (? & _ & E).
  apply rbind_ok in E as (t & Ht & E). apply pg_numeric_kept in Ht as [-> _]. injection E as <-. auto.
Qed.

Lemma convert_lines_ok i org cur ls : forall k d ts d',
  wf d -> not_issued i d -> convert_lines i org cur k ls d = Ok (ts, d') ->
  draft_work d d' /\ db_invoices d' = db_invoices d /\ db_sequences d' = db_sequences d /\ List.Forall2 (converted cur) ls ts /\
  exists new, db_lines d' = (db_lines d ++ new)%list /\ map totals_row new = ts /\
    List.Forall (fun l => il_invoiceId l = i /\ lv_sourceType (il_values l) = src_manual) new.
Proof.
  induction ls as [|l ls IH]; intros k d ts d' W Hn E; cbn [convert_lines] in E.
  - run_m. split; [reflexivity|]. repeat (split; [reflexivity || constructor|]). exists []. rewrite app_nil_r. auto.
  - apply bind_ok in E as (lt & d1 & G & E). apply lift_throw_ok in G as [Hlt ->].
    apply bind_ok in E as (line & d1 & G & E). destruct (insert_line_work _ _ _ (converted_values lt l) _ _ _ Hn W (parent_none _ _) G) as [W1 _].
    apply bind_ok in E as (more & d2 & G2 & E). apply ret_ok in E as [-> ->].
    destruct (computeLineTotal_money _ _ _ _ Hlt) as (c & -> & Wc).
    unfold insert_line, insert_line_with in G. apply bind_ok in G as (id & d3 & G3 & G). apply mint_ok in G3 as [-> ->].
    run_m. match goal with G : store_values _ = Ok _ |- _ => apply (store_values_money _ c) in G as (S1 & S2 & S3 & S4); [|reflexivity] end.
    destruct (IH _ _ _ _ (dw_wf _ _ W1 W) (dw_not_issued _ _ _ W1 Hn) G2) as (W2 & E1 & E2 & F & new & L & T & A).
    split; [exact (dw_trans _ _ _ W1 W2)|]. split; [rewrite E1; reflexivity|]. split; [rewrite E2; reflexivity|].
    split; [constructor; [exists c; auto|exact F]|].
    eexists (_ :: new). rewrite L. cbn [set_lines db_lines set_next]. rewrite <- app_assoc. split; [reflexivity|].
    cbn [map app]. rewrite T. unfold totals_row. cbn [il_values]. rewrite S1, S2, S3. split; [reflexivity|].
    constructor; [split; [reflexivity|exact S4]|exact A].
Qed.

(** No line names an id that was not handed out. *)
Lemma fresh_lines i d : wf d -> db_invoices d !! i = None -> ~ minted i d -> lines_of i d = [].
Proof.
  intros W _ Hm. unfold lines_of. destruct (List.filter _ _) as [|l ls] eqn:E; [reflexivity|]. exfalso. apply Hm.
  assert (In l (l :: ls)) as Hin by (left; reflexivity). rewrite <- E in Hin. apply filter_In in Hin as [Hin Ei].
  apply String.eqb_eq in Ei. rewrite <- Ei. apply (wf_line_invoices _ W), Hin.
Qed.

Lemma lines_of_app i d d' new :
  db_lines d' = (db_lines d ++ new)%list -> lines_of i d = [] -> List.Forall (fun l => il_invoiceId l = i) new -> lines_of i d' = new.
Proof.
  unfold lines_of. intros -> E F. rewrite List.filter_app, E. simpl. apply filter_all. intros l Hl.
  rewrite List.Forall_forall in F. apply String.eqb_eq, F, Hl.
Qed.

Lemma manual_sources ty ls :
  ty = src_time_entry \/ ty = src_part -> List.Forall (fun l => lv_sourceType (il_values l) = src_manual) ls -> sourceIds ty ls = [].
Proof.
  intros Hty F. destruct (sourceIds ty ls) as [|s r] eqn:E; [reflexivity|]. exfalso.
  assert (In s (sourceIds ty ls)) as Hin by (rewrite E; left; reflexivity). apply in_sourceIds in Hin as (l & Hl & Et & _).
  rewrite List.Forall_forall in F. rewrite (F l Hl) in Et. destruct Hty as [-> | ->]; discriminate Et.
Qed.

Lemma flipped_none {A} (src : A -> _) (f : A -> A) o (xs : list A) : flipped src f [] o xs = xs.
Proof. unfold flipped. rewrite <- (map_id xs) at 2. apply map_ext. reflexivity. Qed.

(** ** The invoice *)

(** The invoice [inv] of a quote's one-time lines, numbered when there are some. *)
Record invoice_of (quote : Quote) (lines : list QuoteLine) (ts : list TotalsLine) (t : InvoiceTotals) (number : option string)
    (inv : Invoice) : Prop := {
  io_lines : List.Forall2 (converted (qt_currencyCode quote)) (one_time_lines lines) ts;
  io_totals : computeInvoiceTotals ts (qt_taxRate quote) (qt_currencyCode quote) = Ok t;
  io_money : iv_money inv = mkMoney (it_subtotal t) (qt_taxRate quote) (it_taxTotal t) (it_total t) "0.00" (it_total t);
  io_parties : iv_partnerId inv = qt_partnerId quote /\ iv_orgId inv = qt_orgId quote /\ iv_currencyCode inv = qt_currencyCode quote;
  io_number : iv_invoiceNumber inv = number;
  io_status : match one_time_lines lines with
              | [] => iv_status inv = st_draft /\ number = None /\ iv_depositDue inv = None
              | _ => iv_status inv = st_sent /\ number <> None /\ iv_depositDue inv = quote_deposit quote
              end }.

Lemma converted_draft_ok q u : draft_ok (converted_draft q u).
Proof. repeat split. Qed.

Lemma converted_money_ok t r m s x y :
  t = mkInvoiceTotals (fixed2 s) (fixed2 x) (fixed2 y) -> converted_money t r = Ok m ->
  m = mkMoney (it_subtotal t) r (it_taxTotal t) (it_total t) "0.00" (it_total t) /\ Z.abs y < column_bound.
Proof.
  intros -> E. unfold converted_money in E. cbn [it_subtotal it_taxTotal it_total] in *.
  apply rbind_ok in E as (s' & Hs & E). apply rbind_ok in E as (x' & Hx & E). apply rbind_ok in E as (y' & Hy & E). injection E as <-.
  apply pg_numeric_kept in Hs as [-> _], Hx as [-> _], Hy as [-> Hy]. auto.
Qed.

(** Issuing a draft whose lines have no sources. *)
Lemma issued_manual i inv row y seqs d :
  Billing d -> db_invoices d !! i = Some inv -> draft_ok inv -> issued_as row inv y ->
  List.Forall (fun l => lv_sourceType (il_values l) = src_manual) (lines_of i d) ->
  Billing (set_invoices (alter row i (db_invoices d)) (set_sequences seqs d)).
Proof.
  intros B Hi Hd Ha Hm.
  assert (T : sourceIds src_time_entry (lines_of i d) = []) by (apply manual_sources; auto).
  assert (P : sourceIds src_part (lines_of i d) = []) by (apply manual_sources; auto).
  apply (issued_Billing i inv row y seqs d); try assumption; rewrite ?T, ?P; try reflexivity.
  rewrite !flipped_none. destruct d. reflexivity.
Qed.

Lemma convert_invoice_ok now quote lines locale actor d i number d' :
  Billing d -> convert_invoice now quote lines locale actor d = Ok ((i, number), d') ->
  Billing d' /\ db_invoices d !! i = None /\
  exists inv t, db_invoices d' !! i = Some inv /\ invoice_of quote lines (map totals_row (lines_of i d')) t number inv.
Proof.
  intros B E. unfold convert_invoice in E. cbv zeta in E. set (cur := qt_currencyCode quote) in *.
  apply bind_ok in E as (partner & d1 & G & E). apply read_ok in G as [-> ->].
  apply bind_ok in E as (j & d1 & G & E).
  apply insert_invoice_work in G as G'; [|apply B|apply converted_draft_ok]. destruct G' as (W1 & Hn & Hrow & Hf & Hl).
  assert (Hnew : lines_of j d1 = []).
  { unfold lines_of. rewrite Hl. apply (fresh_lines j d); [apply B|exact Hf|]. unfold insert_invoice in G. run_m.
    match goal with G : mint _ = _ |- _ => apply mint_ok in G as [-> _] end. intros (k & Hk & Ek). apply uuid_inj in Ek. lia. }
  clear G. pose proof (draft_work_Billing _ _ B W1) as B1.
  apply bind_ok in E as (ts & d2 & G & E). apply convert_lines_ok in G as (W2 & Ei & _ & F & new & L & T & A); [|apply B1|exact Hn].
  pose proof (draft_work_Billing _ _ B1 W2) as B2. rewrite <- Ei in Hrow.
  assert (Hls : lines_of j d2 = new).
  { apply (lines_of_app j d1); [exact L|exact Hnew|]. eapply List.Forall_impl; [|exact A]. intros l [Hx _]. exact Hx. }
  apply bind_ok in E as (t & d3 & G & E). apply lift_throw_ok in G as [Ht ->].
  apply bind_ok in E as (m & d3 & G & E). apply lift_ok in G as [Hm ->].
  pose proof (invoice_totals_money _ _ _ _ Ht) as (s & x & y & Et & _ & _ & Wy).
  destruct (converted_money_ok _ _ _ _ _ _ Et Hm) as [-> Hy].
  assert (Hd : draft_ok (converted_draft quote actor)) by apply converted_draft_ok. subst new ts t.
  set (t := mkInvoiceTotals (fixed2 s) (fixed2 x) (fixed2 y)) in *.
  destruct (one_time_lines lines) as [|l0 ls0] eqn:Eo.
  - apply bind_ok in E as (? & d3 & G & E). apply ret_ok in E as [[= -> ->] ->]. unfold update_invoice in G. apply modify_ok in G as ->.
    assert (W3 : draft_work d2 (set_invoices (alter (with_money (mkMoney (it_subtotal t) (qt_taxRate quote) (it_taxTotal t) (it_total t) "0.00" (it_total t))) j (db_invoices d2)) d2)).
    { apply update_draft_work; [exact (dw_not_issued _ _ _ W2 Hn)|intros v (D1 & D2 & D3 & D4); repeat split; assumption|apply B2]. }
    split; [exact (draft_work_Billing _ _ B2 W3)|]. split; [exact Hf|].
    eexists _, t. split; [cbn; rewrite lookup_alter_eq, Hrow; reflexivity|].
    change (lines_of j (set_invoices _ d2)) with (lines_of j d2).
    constructor; rewrite ?Eo; try assumption; repeat split; reflexivity.
  - apply bind_ok in E as (c & d3 & G & E). unfold allocateInvoiceCounter in G. run_m. unfold update_invoice in *. run_m.
    split; [|split; [exact Hf|]].
    + refine (issued_manual j (converted_draft quote actor) _ y _ d2 _ _ _ _ _); [exact B2|exact Hrow|exact Hd| |].
      * split; [reflexivity|]. split; [split; [discriminate|cbn; split; [contradiction|discriminate]]|]. cbn. auto 8.
      * eapply List.Forall_impl; [|exact A]. intros l [_ Hx]. exact Hx.
    + eexists _, t. split; [cbn; rewrite lookup_alter_eq, Hrow; reflexivity|].
      change (lines_of j (set_invoices _ _)) with (lines_of j d2).
      constructor; rewrite ?Eo; try assumption; repeat split; discriminate || reflexivity.
Qed.

#[export] Instance insert_line_keeps {T} (view : Db -> T) `{!InvoiceBlind view} i o n v : Keeps view (insert_line i o n v).
Proof. unfold insert_line. solve_keeps. Qed.
#[export] Instance convert_lines_keeps {T} (view : Db -> T) `{!InvoiceBlind view} i o cur k ls : Keeps view (convert_lines i o cur k ls).
Proof. revert k. induction ls as [|l ls IH]; intros k; cbn [convert_lines]; solve_keeps. Qed.
#[export] Instance convert_invoice_keeps {T} (view : Db -> T) `{!InvoiceBlind view} now q ls loc a : Keeps view (convert_invoice now q ls loc a).
Proof. unfold convert_invoice. cbv zeta. solve_keeps. Qed.

#[export] Instance convert_invoice_tx now q ls loc a : SysTx (convert_invoice now q ls loc a).
Proof. apply keeps_tx; [apply _|]. intros d [i n] d' B E. exact (proj1 (convert_invoice_ok _ _ _ _ _ _ _ _ _ B E)). Qed.

(** ** The contracts *)

#[export] Instance mint_tx : SysTx mint.
Proof. apply draft_tx. intros d x d' _. apply mint_work. Qed.

(** A line of a new contract, priced in the contract's currency. *)
Lemma insert_contract_line_Sys cid spec i l c d id d' :
  db_contracts d !! cid = Some c -> ct_orgId c = nc_orgId spec -> ct_currencyCode c = nc_currencyCode spec ->
  Sys d -> insert_contract_line cid spec i l d = Ok (id, d') -> Sys d' /\ db_contracts d' !! cid = Some c.
Proof.
  intros Hc Ho Hcur Sd E. unfold insert_contract_line in E. cbv zeta in E.
  do 4 (apply bind_ok in E as (? & d1 & G & E); apply require_ok in G as [_ ->]).
  apply bind_ok in E as (? & d1 & G & E). unfold assertRepresentable in G. apply require_ok in G as [Hp ->].
  apply bind_ok in E as (? & d1 & Go & E). pose proof (read_only _ _ _ Go) as ->.
  apply bind_ok in E as (site & d1 & G & E).
  assert (d1 = d) as -> by (destruct (cl_lineType _); try (apply ret_ok in G as [_ ->]; reflexivity); destruct (truthy _); exact (read_only _ _ _ G)). clear G.
  apply bind_ok in E as (grp & d1 & G & E).
  assert (d1 = d) as -> by (destruct (cl_lineType _); try (apply ret_ok in G as [_ ->]; reflexivity); destruct (truthy _); exact (read_only _ _ _ G)). clear G.
  apply bind_ok in E as (k & d1 & G & E). apply mint_ok in G as [-> ->]. run_m.
  match goal with Hi : insert_line_row _ _ = Ok _ |- _ => apply insert_line_row_ok in Hi as [Hn ->] end.
  split; [|exact Hc]. apply (add_line_Sys _ (set_next (S (db_next d)) d)); [exact Hn| |apply next_Sys; [lia|exact Sd]].
  exists c. split; [exact Hc|]. split; [symmetry; exact Ho|]. rewrite Hcur.
  split; cbn; [eapply pg_numeric_representable; [exact Hp|eassumption]|].
  eapply pg_allowance_representable; [eassumption|]. exact (assertRepresentable_opt_ok _ _ _ _ _ Go).
Qed.

Lemma insert_contract_lines_Sys cid spec c ls : forall i d r d',
  db_contracts d !! cid = Some c -> ct_orgId c = nc_orgId spec -> ct_currencyCode c = nc_currencyCode spec ->
  Sys d -> insert_contract_lines cid spec i ls d = Ok (r, d') -> Sys d'.
Proof.
  induction ls as [|l ls IH]; intros i d r d' Hc Ho Hcur Sd E; cbn [insert_contract_lines] in E; [apply ret_ok in E as [_ ->]; exact Sd|].
  apply bind_ok in E as (id & d1 & G & E). apply (insert_contract_line_Sys _ _ _ _ c) in G as [S1 H1]; try assumption.
  apply bind_ok in E as (more & d2 & G & E). apply ret_ok in E as [_ ->]. exact (IH _ _ _ _ H1 Ho Hcur S1 G).
Qed.

#[export] Instance createContract_tx spec : SysTx (createContractWithLinesDetailed spec).
Proof.
  intros d r d' Sd E. unfold createContractWithLinesDetailed in E.
  apply bind_ok in E as (id & d1 & G & E). apply mint_ok in G as [-> ->].
  apply bind_ok in E as (tk & d1 & G & E). apply read_ok in G as [-> ->].
  apply bind_ok in E as (? & d1 & G & E). apply pg_check_ok in G as [Ht ->].
  apply bind_ok in E as (? & d1 & G & E). apply modify_ok in G as ->.
  apply bind_ok in E as (lines & d1 & G & E). apply ret_ok in E as [_ ->].
  refine (insert_contract_lines_Sys _ spec _ _ _ _ _ _ (lookup_insert_eq _ _ _) _ _ _ G); [reflexivity|reflexivity|].
  apply (new_contract_Sys _ _ (set_next (S (db_next d)) d)); try reflexivity; [|apply next_Sys; [lia|exact Sd]].
  cbn in Ht |- *. destruct (db_contracts d !! _); [discriminate Ht|reflexivity].
Qed.
#[export] Instance create_contracts_tx specs : SysTx (create_contracts specs).
Proof. induction specs as [|s specs IH]; cbn [create_contracts]; solve_run. Qed.

#[export] Instance convert_quote_tx now id q ls loc a : SysTx (convert_quote now id q ls loc a).
Proof. unfold convert_quote. solve_run. Qed.
End Conversion.
