(* ===== verification/BillingSystem.v ===== *)
(** * The billing system as a whole

    Every operation of the invoice, contract and card-payment services and the
    conversion of an accepted quote as one step of a system over the shared
    tables, each transaction committed or rolled back on its own, with the changes
    the rest of the product makes in between: reference tables edited, payments
    pulled from the accounting service, and work written under the contract
    [work_write_allowed], which the time entry service implements
    ([TimeRefinement]). A call that checks without a lock and writes later by id
    checks tables of its own ([seen]) and writes on the current ones. A payment
    link is offered in one step and written in a later one, once the provider has
    created its session. The conversion of a quote is a step for any quote and
    lines, more than the quote service ever converts. What holds of every state
    such a system reaches: payments reconcile with the invoices, card payments
    with their charges, no work is billed twice, no contract period is billed
    twice. *)

From Stdlib Require Import QArith.
From S2P Require Import Prelude JsString JsNumber Currency IsoDate QuoteMath QuoteSpec InvoiceMath ContractMath TimeBilling CatalogPricing ContractCoverage BillingDb InvoiceService StripeSessions StripeReversal InvoiceLifecycle StripeReconcile PaymentPull InvoiceInvariants InvoiceSafety StripeSafety PullSafety ContractService QuoteDb QuoteConversion ContractDrafting ContractRenewal ContractSafety ContractProperties ContractLines BillingSteps ContractSteps QuoteSafety.
From stdpp Require Import base gmap strings list pretty relations.

Local Open Scope string_scope.
Local Open Scope Z_scope.
Local Open Scope billing_scope.

(** ** The system's operations

    Some calls read and check without a lock and write later by id. Such a call
    carries [seen], the tables its reads saw, which are any tables at all: others
    may have written in between. *)

Inductive Op :=
(* drafts *)
| do_create (orgId : string) (siteId notes terms currencyCode : option string) (actor : InvoiceActor)
| do_line (o : LineOp) (invoiceId : string) (actor : InvoiceActor)
| do_assemble_org (orgId : string) (siteId : option string) (from to : Z) (currencyCode : option string) (actor : InvoiceActor)
| do_assemble_ticket (ticketId : string) (currencyCode : option string) (actor : InvoiceActor)
| do_update (invoiceId : string) (patch : InvoicePatch) (actor : InvoiceActor)
| do_currency (invoiceId currencyCode : string) (clearLines reprice : bool) (actor : InvoiceActor)
| do_delete (invoiceId : string) (actor : InvoiceActor)
| do_materialize (actor : InvoiceActor) (invoiceId contractId : string) (c : Contract) (l : ContractLine) (r : ResolvedQuantity)
    (evidence : option (list DeviceSnapshotRow)) (currencyCode : string)
(* issued invoices *)
| do_issue (now : Z) (invoiceId : string) (actor : InvoiceActor)
| do_due_date (now : Z) (invoiceId dueDate : string) (actor : InvoiceActor) (seen : Db)
| do_pay (now : Z) (answer : StripeRow -> option ProviderOutcome) (invoiceId : string) (input : RecordPaymentInput) (actor : InvoiceActor)
| do_void_payment (now : Z) (paymentId : string) (actor : InvoiceActor)
| do_void (now : Z) (answer : StripeRow -> option ProviderOutcome) (invoiceId reason : string) (reissue : bool) (actor : InvoiceActor)
| do_overdue_sweep (asOf : Z) (seen : Db)
| do_viewed (now : Z) (invoiceId : string) (orgId : option string)
(* contracts *)
| do_contract_create (input : CreateContractInput) (actor : InvoiceActor)
| do_contract_update (contractId : string) (patch : UpdateContractInput) (actor : InvoiceActor) (seen : Db)
| do_contract_delete (contractId : string) (actor : InvoiceActor) (seen : Db)
| do_contract_currency (contractId currencyCode : string) (clearLines reprice confirmActiveChange : bool)
    (permissions : option (list string)) (actor : InvoiceActor)
| do_contract_line_add (contractId : string) (input : ContractLineInput) (actor : InvoiceActor)
| do_contract_line_update (contractId lineId : string) (patch : UpdateContractLineInput) (actor : InvoiceActor)
| do_contract_line_remove (contractId lineId : string) (actor : InvoiceActor)
| do_activate (asOf : Z) (contractId : string) (actor : InvoiceActor)
| do_pause (contractId : string) (actor : InvoiceActor) (seen : Db)
| do_resume (asOfISO contractId : string) (actor : InvoiceActor) (seen : Db)
| do_cancel (contractId : string) (actor : InvoiceActor) (seen : Db)
| do_generate (asOf : Z) (contractId : string)
| do_billing_job (asOf now : Z)
(* accepted quotes *)
| do_convert (now : Z) (quoteId : string) (quote : Quote) (lines : list QuoteLine) (renderLocale : string) (actorUserId : option string)
(* the rest of the product *)
| write_work (es : list StoredEntry) (ps : list StoredPart)
| set_reference (ref : Reference)
(* payments pulled from the accounting service *)
| pull_payment (now : Z) (partnerId invoiceId : string) (existing : option string) (line : PaymentLine)
| pull_reverse (now : Z) (partnerId invoiceId paymentId : string)
(* card payments *)
| stripe_webhook (now : Z) (retrieve : string -> option string) (event : StripeEvent)
| stripe_settle (now : Z) (partnerId : string) (session : CheckoutSession)
| stripe_reconcile_sweep (now : Z) (retrieve : string -> option CheckoutSession)
| stripe_ingest (now : Z) (event : FinancialFacts) (quarantineReason : option string)
| stripe_process_pending (now : Z) (limit : nat)
| stripe_link_reset (now : Z) (answer : StripeRow -> option ProviderOutcome) (invoiceId : string)
| stripe_abandon (invoiceId reason : string)
| stripe_revocation_sweep (now : Z) (answer : StripeRow -> ProviderOutcome)
| stripe_revoke_account (now : Z) (answer : StripeRow -> option ProviderOutcome) (stripeAccountId reason : string)
| stripe_account_intent (now : Z) (stripeAccountId reason : string)
| stripe_rearm (now : Z) (stripeAccountId : string).

Section System.
Context `{Uuids}.
Variable resolver : DeviceGroup -> result string (list string * list string).

(** The foreign keys of a contract line to its site and device group, in its
    organization: when the row goes, the id is cleared and the stamped name stays. *)
Definition referenced (ref : Reference) (l : ContractLine) : ContractLine :=
  let c := cn_coverage l in
  let live_site i := match rf_sites ref !! i with Some (o, _) => String.eqb o (cn_orgId l) | None => false end in
  let live_group g := existsb (fun x => String.eqb (dg_id x) g && String.eqb (dg_orgId x) (cn_orgId l)) (rf_deviceGroups ref) in
  let keep (live : string -> bool) x := match x with Some i => if live i then x else None | None => None end in
  mkContractLine (cn_id l) (cn_contractId l) (cn_orgId l)
    (mkCoverage (cl_lineType c) (keep live_site (cl_siteId c)) (cl_deviceRoles c) (keep live_group (cl_deviceGroupId c)))
    (cn_description l) (cn_catalogItemId l) (cn_unitPrice l) (cn_manualQuantity l) (cn_siteName l) (cn_deviceGroupName l) (cn_allowance l)
    (cn_taxable l) (cn_sortOrder l).

(** Checks made on what was seen. *)
Definition allowed {A} (checks : M A) (seen : Db) : bool := match checks seen with Ok _ => true | Err _ => false end.

(** A lifecycle write decided on what was seen. *)
Definition unlocked (contractId : string) (plan : M (option (Contract -> Contract))) (seen d : Db) : Db :=
  match plan seen with Ok (set, _) => commit (write_plan contractId set) d | Err _ => d end.

(** An invoice that was issued when it was read is no draft when it is written
    ([issued_stays]). *)
Definition is_issued (i : string) (d : Db) : bool :=
  match db_invoices d !! i with Some inv => match iv_status inv with st_draft => false | _ => true end | None => false end.

(** No invoice the overdue sweep selected was voided before it is marked. The
    sweep does not check this, and a mark that comes later brings the invoice back
    to life ([late_mark_bills_twice]): the system's runs are those without one. *)
Definition sweep_timely (due : list string) (d : Db) : bool :=
  forallb (fun i => match db_invoices d !! i with
                    | Some inv => match iv_status inv with st_draft | st_void => false | _ => true end
                    | None => true
                    end) due.

Definition exec (o : Op) (d : Db) : Db :=
  match o with
  | do_create org site notes terms cur actor => commit (createManualInvoice org site notes terms cur actor) d
  | do_line o i actor => commit (run_line_op o i actor) d
  | do_assemble_org org site from to cur actor => commit (assembleDraftFromOrg org site from to cur actor) d
  | do_assemble_ticket t cur actor => commit (assembleDraftFromTicket t cur actor) d
  | do_update i patch actor => commit (updateInvoice i patch actor) d
  | do_currency i cur clear reprice actor => commit (changeInvoiceCurrency i cur clear reprice actor) d
  | do_delete i actor => commit (deleteDraftInvoice i actor) d
  | do_materialize actor i cid c l r ev cur => commit (materializeContractLineOntoInvoice actor i cid c l r ev cur) d
  | do_issue now i actor => commit (issueInvoice now i actor) d
  | do_due_date now i due actor seen =>
      if allowed (due_date_allowed i actor) seen && is_issued i d then commit (write_due_date now i due) d else d
  | do_pay now answer i input actor => after (recordPayment now answer i input actor) d
  | do_void_payment now p actor => commit (voidPayment now p actor) d
  | do_void now answer i reason reissue actor => after (voidInvoice now answer i reason reissue actor) d
  | do_overdue_sweep asOf seen => if sweep_timely (overdue_due asOf seen) d then commit (mark_overdue asOf (overdue_due asOf seen)) d else d
  | do_viewed now i org => commit (markViewed now i org) d
  | do_contract_create input actor => if createContractSchema input then commit (createContract input actor) d else d
  | do_contract_update cid patch actor seen =>
      match updateContract_plan cid patch actor seen with Ok (set, _) => commit (update_contract cid set) d | Err _ => d end
  | do_contract_delete cid actor seen => if allowed (deleteDraftContract_checks cid actor) seen then drop_contract cid d else d
  | do_contract_currency cid cur clear reprice confirm perms actor =>
      if changeContractCurrencySchema cur clear reprice
      then commit (changeContractCurrency cid cur clear reprice confirm perms actor) d else d
  | do_contract_line_add cid input actor => commit (addContractLineToContract cid input actor) d
  | do_contract_line_update cid lid patch actor => commit (updateContractLine cid lid patch actor) d
  | do_contract_line_remove cid lid actor => commit (removeContractLine cid lid actor) d
  | do_activate asOf cid actor => commit (activateContract asOf cid actor) d
  | do_pause cid actor seen => unlocked cid (pause_plan cid actor) seen d
  | do_resume day cid actor seen => unlocked cid (resume_plan day cid actor) seen d
  | do_cancel cid actor seen => unlocked cid (cancel_plan cid actor) seen d
  | do_generate asOf cid => commit (generateDueInvoice resolver asOf cid) d
  | do_billing_job asOf now => billing_sweep_job resolver asOf now d
  | do_convert now qid q ls loc a => commit (convert_quote now qid q ls loc a) d
  | write_work es ps => if work_write_allowed d es ps then set_parts ps (set_entries es d) else d
  | set_reference ref => set_contractLines (map (referenced ref) (db_contractLines d)) (set_ref ref d)
  | pull_payment now p i existing line => if pull_target i existing d then commit (applyAccountingPayment now p i existing line) d else d
  | pull_reverse now p i pid => if pull_claim i pid d then commit (reverseAccountingPayment now p pid) d else d
  | stripe_webhook now retrieve e => if plausible_event e then after (handleStripeEvent now retrieve e) d else d
  | stripe_settle now p s => if plausible s then after (settleCheckoutSession now p s) d else d
  | stripe_reconcile_sweep now retrieve => after (reconcilePendingStripePayments now (plausible_answers retrieve)) d
  | stripe_ingest now e q => after (ingestStripeFinancialEvent now e q) d
  | stripe_process_pending now limit => after (processPendingStripeFinancialEvents now limit) d
  | stripe_link_reset now answer i => commit (requestInvoiceSessionRevocation now answer i "link_reset" None) d
  | stripe_abandon i reason => commit (abandonInvoiceSessionRevocation i reason) d
  | stripe_revocation_sweep now answer => commit (runStripeSessionRevocationSweep now answer) d
  | stripe_revoke_account now answer a reason => after (revokeOpenSessionsForAccount now answer a reason) d
  | stripe_account_intent now a reason => commit (markRevocationIntentForAccountInTx now a reason) d
  | stripe_rearm now a => commit (rearmBlockedRevocationsForAccount now a) d
  end.

(** The tables of a tenant before its first invoice. *)
Record initial (d : Db) : Prop := {
  in_invoices : db_invoices d = ∅; in_lines : db_lines d = []; in_payments : db_payments d = []; in_stripe : db_stripe d = []; in_periods : db_periods d = [];
  in_entries : List.NoDup (map entry_id (db_entries d)); in_parts : List.NoDup (map part_id (db_parts d));
  in_contracts : forall cid c, db_contracts d !! cid = Some c -> ct_status c = cs_draft /\ ct_nextBillingAt c = None;
  in_line_ids : List.NoDup (map cn_id (db_contractLines d));
  in_contract_lines : forall l, In l (db_contractLines d) -> line_ok (db_contracts d) l }.

(** The tables, and the payment links the provider is creating. *)
Record World := mkWorld { w_db : Db; w_offers : list PayLinkOffer }.

Inductive step : World -> World -> Prop :=
| step_op o d os : step (mkWorld d os) (mkWorld (exec o d) os)
| step_offer i actor d os o : offerPayLink i actor d = Ok (o, d) -> step (mkWorld d os) (mkWorld d (o :: os))
| step_link now session d os1 o os2 : step (mkWorld d (os1 ++ o :: os2)) (mkWorld (after (finishPayLink now o session) d) (os1 ++ os2))
| step_no_link d os1 o os2 : step (mkWorld d (os1 ++ o :: os2)) (mkWorld d (os1 ++ os2)).

Inductive reach : World -> Prop :=
| reach_initial d : initial d -> reach (mkWorld d [])
| reach_step w w' : reach w -> step w w' -> reach w'.

Lemma reach_op o d os : reach (mkWorld d os) -> reach (mkWorld (exec o d) os).
Proof. intros R. exact (reach_step _ _ R (step_op o d os)). Qed.
Lemma reach_offer i actor d os o : reach (mkWorld d os) -> offerPayLink i actor d = Ok (o, d) -> reach (mkWorld d (o :: os)).
Proof. intros R E. exact (reach_step _ _ R (step_offer i actor d os o E)). Qed.
Lemma reach_link now session d os1 o os2 :
  reach (mkWorld d (os1 ++ o :: os2)) -> reach (mkWorld (after (finishPayLink now o session) d) (os1 ++ os2)).
Proof. intros R. exact (reach_step _ _ R (step_link now session d os1 o os2)). Qed.

Definition reachable (d : Db) : Prop := exists os, reach (mkWorld d os).

(** An invoice whose link is being created stays issued in its currency. *)
Definition offer_pin (o : PayLinkOffer) : Pin := pin_invoice (of_invoiceId o) (iv_currencyCode (of_invoice o)).
Definition pins_of (os : list PayLinkOffer) : Pinned := map offer_pin os.

Lemma timely_live due d : sweep_timely due d = true -> all_live due d.
Proof.
  intros E i inv Hi Hr. unfold sweep_timely in E. rewrite forallb_forall in E. specialize (E i Hi). rewrite Hr in E.
  split; intros F; rewrite F in E; discriminate E.
Qed.

Lemma unlocked_Sys {pins : Pinned} cid plan seen d :
  (forall s set s', plan s = Ok (set, s') -> lifecycle_write set) -> Sys d -> Sys (unlocked cid plan seen d).
Proof.
  intros L S. unfold unlocked. destruct (plan seen) as [[set s]|] eqn:E; [|exact S]. apply commit_Sys; [exact S|].
  intros u d' F. exact (write_plan_Sys _ _ _ _ _ (L _ _ _ E) F S).
Qed.

Lemma exec_Sys {pins : Pinned} o d : Sys d -> Sys (exec o d).
Proof.
  intros S. pose proof (bi_wf _ (sy_billing _ S)) as W.
  destruct o; cbn [exec].
  - apply commit_Sys; [exact S|]. intros a d' E. apply (draft_Sys _ _ S), (createManualInvoice_work _ _ _ _ _ _ _ _ _ W E).
  - apply commit_Sys; [exact S|]. intros a d' E. apply (draft_Sys _ _ S), (line_op_work _ _ _ _ _ _ W E).
  - apply commit_Sys; [exact S|]. intros a d' E. apply (draft_Sys _ _ S), (assembleDraftFromOrg_work _ _ _ _ _ _ _ _ _ W E).
  - apply commit_Sys; [exact S|]. intros a d' E. apply (draft_Sys _ _ S), (assembleDraftFromTicket_work _ _ _ _ _ _ W E).
  - apply commit_Sys; [exact S|]. intros a d' E. apply (draft_Sys _ _ S), (updateInvoice_work _ _ _ _ _ _ W E).
  - apply commit_Sys; [exact S|]. intros a d' E. apply (draft_Sys _ _ S), (changeInvoiceCurrency_work _ _ _ _ _ _ _ _ W E).
  - apply commit_Sys; [exact S|]. intros a d' E. apply (draft_Sys _ _ S), (deleteDraftInvoice_work _ _ _ _ _ W (bi_payments _ (sy_billing _ S)) E).
  - apply commit_Sys; [exact S|]. intros a d' E. apply (draft_Sys _ _ S), (materialize_grows _ _ _ _ _ _ _ _ _ _ _ W E).
  - apply commit_Sys; [exact S|]. intros a d' E. exact (issue_Sys _ _ _ _ _ _ S E).
  - destruct (allowed _ _ && _) eqn:G; [|exact S]. apply andb_true_iff in G as [_ G]. unfold is_issued in G.
    destruct (db_invoices d !! invoiceId) as [inv|] eqn:Hi; [|discriminate]. assert (Hs : iv_status inv <> st_draft) by (destruct (iv_status inv); discriminate).
    apply commit_Sys; [exact S|]. intros a d' E. refine (keeps_Sys _ _ _ _ _ _ S E). intros B. exact (write_due_date_Billing _ _ _ _ _ _ _ B Hi Hs).
  - apply recordPayment_run, S.
  - apply commit_Sys; [exact S|]. intros ? ?; apply keeps_tx; [apply _|apply voidPayment_Billing|exact S].
  - apply voidInvoice_run, S.
  - destruct (sweep_timely _ _) eqn:G; [|exact S]. apply commit_Sys; [exact S|]. intros a d' E. refine (keeps_Sys _ _ _ _ _ _ S E).
    intros B. apply mark_overdue_Billing; [exact B|exact (timely_live _ _ G)].
  - apply commit_Sys; [exact S|]. intros ? ?; apply keeps_tx; [apply _|apply markViewed_Billing|exact S].
  - destruct (createContractSchema input) eqn:V; [|exact S]. apply commit_Sys; [exact S|]. intros a d'. exact (createContract_sys _ _ d a d' S).
  - destruct (updateContract_plan _ _ _ seen) as [[f s]|] eqn:G; [|exact S]. apply updateContract_plan_ok in G as (c & _ & _ & -> & _).
    apply header_write_Sys, S.
  - destruct (allowed _ _); [apply drop_contract_Sys|]; exact S.
  - destruct (changeContractCurrencySchema _ _ _) eqn:V; [|exact S]. apply andb_true_iff in V as [_ V]. apply negb_true_iff in V.
    apply commit_Sys; [exact S|]. intros a d'. exact (changeContractCurrency_Sys _ _ _ _ _ _ _ V d a d' S).
  - apply commit_Sys; [exact S|]. intros a d'. exact (addContractLine_tx _ _ _ d a d' S).
  - apply commit_Sys; [exact S|]. intros a d'. exact (updateContractLine_tx _ _ _ _ d a d' S).
  - apply commit_Sys; [exact S|]. intros a d'. exact (removeContractLine_tx _ _ _ d a d' S).
  - apply commit_Sys; [exact S|]. intros a d' E. exact (activate_Sys _ _ _ _ _ _ S E).
  - apply unlocked_Sys; [apply pause_writes|exact S].
  - apply unlocked_Sys; [apply resume_writes|exact S].
  - apply unlocked_Sys; [apply cancel_writes|exact S].
  - apply commit_Sys; [exact S|]. intros a d' E. exact (generate_Sys _ _ _ _ _ _ S E).
  - apply billing_job_Sys, S.
  - apply commit_Sys; [exact S|]. intros a d'. exact (convert_quote_tx _ _ _ _ _ _ d a d' S).
  - destruct (work_write_allowed _ _ _) eqn:E; [exact (write_work_Sys _ _ _ S E)|exact S].
  - apply (lines_Sys _ (set_ref ref d)); [| |apply (same_contracts_Sys d); [constructor; cbn; auto|reflexivity|exact S]].
    + rewrite map_map. apply S.
    + intros l Hl. apply in_map_iff in Hl as (x & <- & Hx). exact (sy_lines _ S x Hx).
  - destruct (pull_target _ _ _) eqn:G; [|exact S]. apply commit_Sys; [exact S|]. intros a d' E. refine (keeps_Sys _ _ _ _ _ _ S E).
    intros B. exact (pull_Billing _ _ _ _ _ _ _ _ B G).
  - destruct (pull_claim _ _ _) eqn:G; [|exact S]. apply commit_Sys; [exact S|]. intros a d' E. refine (keeps_Sys _ _ _ _ _ _ S E).
    intros B. exact (pull_reverse_Billing _ _ _ _ _ _ B (proj2 (pull_claim_ok _ _ _ G))).
  - destruct (plausible_event event) eqn:P; [apply webhook_run; assumption|exact S].
  - destruct (plausible session) eqn:P; [apply settle_run; assumption|exact S].
  - apply reconcile_run, S.
  - apply ingest_run, S.
  - apply pending_run, S.
  - apply commit_Sys; [exact S|]. intros a d'. exact (revocation_tx _ _ _ _ _ d a d' S).
  - apply commit_Sys; [exact S|]. intros a d'. exact (abandon_tx _ _ d a d' S).
  - apply commit_Sys; [exact S|]. intros a d'. exact (sweep_tx _ _ d a d' S).
  - apply revoke_account_run, S.
  - apply commit_Sys; [exact S|]. intros a d'. exact (account_intent_tx _ _ _ d a d' S).
  - apply commit_Sys; [exact S|]. intros a d'. exact (rearm_tx _ _ d a d' S).
Qed.

Lemma initial_Sys d : initial d -> Sys (pins := []) d.
Proof.
  intros [A B C S D E F G I P]. constructor.
  - apply no_invoices_Billing; assumption.
  - unfold ledger. rewrite D. constructor.
  - intros cid c Hc. destruct (G _ _ Hc) as (S' & N). unfold contract_ok. rewrite S', N. split; [discriminate|congruence].
  - exact I.
  - exact P.
Qed.

Lemma drop_pin os1 o os2 (more : Pinned) d : Sys (pins := (pins_of (os1 ++ o :: os2) ++ more)%list) d -> Sys (pins := (pins_of (os1 ++ os2) ++ more)%list) d.
Proof.
  apply Sys_pins. intros p Hp. left. apply in_app_or in Hp as [Hp|Hp]; apply in_or_app; [left|right; exact Hp].
  apply in_map_iff in Hp as (x & E & Hx). apply in_map_iff. exists x. split; [exact E|].
  apply in_app_or in Hx as [Hx|Hx]; apply in_or_app; [left|right; right]; exact Hx.
Qed.

(** The invariant of the tables and of the offers, with more pinned than the
    offered invoices. *)
Definition World_ok (more : Pinned) (w : World) : Prop :=
  Sys (pins := (pins_of (w_offers w) ++ more)%list) (w_db w) /\ forall o, In o (w_offers w) -> offer_ok o.

Lemma step_ok more w w' : step w w' -> World_ok more w -> World_ok more w'.
Proof.
  intros St [S O]. destruct St as [o d os|i actor d os o E|now session d os1 o os2|d os1 o os2]; split; cbn in *.
  - apply exec_Sys, S.
  - exact O.
  - apply (offer_made i actor d o d (sy_billing _ S)) in E as (_ & Ho & <- & Hrow & Hs).
    apply (Sys_pins (pins_of os ++ more)%list); [|exact S]. intros p [<-|Hp]; [right; exists (of_invoice o); auto|left; exact Hp].
  - apply (offer_made i actor d o d (sy_billing _ S)) in E as (_ & Ho & <- & Hrow & Hs). intros x [<-|Hx]; auto.
  - assert (In o (os1 ++ o :: os2)) as Hin by (apply in_or_app; right; left; reflexivity).
    apply (drop_pin os1 o os2), link_run; [exact (O o Hin)|apply in_or_app; left; apply (in_map offer_pin _ _ Hin)|exact S].
  - intros x Hx. apply O. apply in_app_or in Hx as [Hx|Hx]; apply in_or_app; [left|right; right]; exact Hx.
  - apply (drop_pin os1 o os2), S.
  - intros x Hx. apply O. apply in_app_or in Hx as [Hx|Hx]; apply in_or_app; [left|right; right]; exact Hx.
Qed.

Lemma reach_ok w : reach w -> World_ok [] w.
Proof. induction 1 as [d Hi|w w' _ S St]; [split; [apply initial_Sys, Hi|intros o []]|exact (step_ok _ _ _ St S)]. Qed.

Lemma reach_Sys w : reach w -> Sys (pins := pins_of (w_offers w)) (w_db w) /\ forall o, In o (w_offers w) -> offer_ok o.
Proof. intros R. apply reach_ok in R as [S O]. rewrite app_nil_r in S. auto. Qed.

(** What can be pinned stays, whatever happens. *)
Lemma pin_stays w w' p : rtc step w w' -> World_ok [] w -> pin_ok (w_db w) p -> pin_ok (w_db w') p /\ World_ok [p] w'.
Proof.
  intros St [S O] Hp. assert (K : World_ok [p] w).
  { split; [|exact O]. apply (Sys_pins (pins_of (w_offers w) ++ [])%list); [|exact S]. intros q Hq.
    apply in_app_or in Hq as [Hq|[<-|[]]]; [left; apply in_or_app; auto|right; exact Hp]. }
  assert (K' : World_ok [p] w') by (clear -St K; induction St as [|? ? ? S1 _ IH]; [exact K|exact (IH (step_ok _ _ _ S1 K))]).
  split; [|exact K']. destruct K' as [K' _]. apply (se_pinned _ (bi_sessions _ (sy_billing _ K'))). apply in_or_app. right. left. reflexivity.
Qed.

(** An issued invoice stays issued, in its currency. *)
Lemma issued_stays w w' i inv : rtc step w w' -> reach w -> db_invoices (w_db w) !! i = Some inv -> iv_status inv <> st_draft ->
  exists inv', db_invoices (w_db w') !! i = Some inv' /\ iv_status inv' <> st_draft /\ iv_currencyCode inv' = iv_currencyCode inv.
Proof.
  intros St R Hi Hs. apply (pin_stays w w' (pin_invoice i (iv_currencyCode inv)) St (reach_ok _ R)). exists inv. auto.
Qed.

Lemma reachable_Sys d : reachable d -> Sys d.
Proof. intros [os R]. apply reach_Sys in R as [S _]. apply (Sys_pins (pins_of os)); [intros p []|exact S]. Qed.
End System.

(** ** What every reachable state satisfies *)

(** C1: In every state the billing system reaches, the payments of every issued
    invoice reconcile with its header: what it says is paid is the sum of its
    payments, each positive and in whole minor units; the balance is the total
    less what is paid; paid means nothing is left to pay, partially paid that
    something is. As long as no card charge of the invoice is disputed, the
    payments taken by Breeze, by hand or by card, are never more than the total
    (an invoice of zero or less takes none), and a voided invoice has no payments.
    Payments pulled from QuickBooks are outside the bound: the pull takes an
    over-payment as it comes. Overdue says nothing of the balance, since the sweep
    can mark an invoice that was paid after it was selected; runs in which the
    sweep marks an invoice that was voided after it was selected are not runs of
    the system. *)
Theorem payments_reconcile `{Uuids} resolver d i inv :
  reachable resolver d -> db_invoices d !! i = Some inv -> iv_status inv <> st_draft ->
  exists total cents,
    map py_amount (payments_of i d) = map fixed2 cents /\
    List.Forall (fun c => 0 < c /\ whole_units (iv_currencyCode inv) c) cents /\
    im_total (iv_money inv) = fixed2 total /\
    im_amountPaid (iv_money inv) = fixed2 (zsum cents) /\
    im_balance (iv_money inv) = fixed2 (total - zsum cents) /\
    (iv_status inv = st_paid -> total <= zsum cents) /\
    (iv_status inv = st_partially_paid -> zsum cents < total) /\
    (undisputed i d -> zsum (own (payments_of i d) cents) <= Z.max 0 total /\ (iv_status inv = st_void -> cents = [])).
Proof.
  intros R Hi Hs. pose proof (sy_billing _ (reachable_Sys _ _ R)) as B.
  destruct (bi_rows _ B _ _ Hi Hs) as [_ (T & cs & H1 & _ & _ & H2 & H3 & _ & H4 & H5 & H6 & H7 & H8 & H9)].
  exists T, cs. auto 15.
Qed.

(** C2: In every state the billing system reaches, work is billed at most once:
    a time entry or a ticket part on a line of an issued, unvoided invoice is
    marked billed, and no other such invoice has a line for it. One run that the
    code does not rule out is not a run of the system: the overdue sweep marking an
    invoice that was voided after the sweep selected it, after which work can be
    billed twice. *)
Theorem work_billed_once `{Uuids} resolver d i inv :
  reachable resolver d -> db_invoices d !! i = Some inv -> iv_status inv <> st_draft -> iv_status inv <> st_void ->
  (forall e, In e (db_entries d) -> In (te_id (se_row e)) (sourceIds src_time_entry (lines_of i d)) -> se_status e = billed) /\
  (forall p, In p (db_parts d) -> In (tp_id (sp_row p)) (sourceIds src_part (lines_of i d)) -> sp_status p = billed) /\
  (forall j inv' ty s, db_invoices d !! j = Some inv' -> iv_status inv' <> st_draft -> iv_status inv' <> st_void ->
     ty = src_time_entry \/ ty = src_part ->
     In s (sourceIds ty (lines_of i d)) -> In s (sourceIds ty (lines_of j d)) -> j = i).
Proof.
  intros R Hi Hd Hv. pose proof (sy_billing _ (reachable_Sys _ _ R)) as B.
  split; [|split].
  - intros e He Hin. exact (bi_entry_billed _ B _ _ _ _ Hi (conj Hd Hv) Hin He eq_refl).
  - intros p Hp Hin. exact (bi_part_billed _ B _ _ _ _ Hi (conj Hd Hv) Hin Hp eq_refl).
  - intros j inv' ty s Hj Hd' Hv' Hty H1 H2. symmetry. exact (bi_once _ B _ _ _ _ _ _ Hi Hj (conj Hd Hv) (conj Hd' Hv') Hty H1 H2).
Qed.

(** C3: In every state the billing system reaches, the contract ledger has at
    most one row per contract and period, whatever was drafted, issued, voided,
    deleted, paused or resumed in between; and a contract has a next billing date
    exactly when it is active. *)
Theorem period_billed_once `{Uuids} resolver d :
  reachable resolver d ->
  (forall p q, In p (db_periods d) -> In q (db_periods d) ->
     bp_contractId p = bp_contractId q -> bp_periodStart p = bp_periodStart q -> p = q) /\
  List.NoDup (map period_key (db_periods d)) /\
  (forall cid c, db_contracts d !! cid = Some c -> (ct_status c = cs_active <-> ct_nextBillingAt c <> None)).
Proof.
  intros R. destruct (reachable_Sys _ _ R) as [_ L K _ _]. split; [|split; [exact L|intros cid c Hc; exact (K cid c Hc)]].
  intros p q Hp Hq E1 E2. apply (unique_in period_key (db_periods d) p q L Hp Hq). unfold period_key. congruence.
Qed.

(** ** A run of the system *)

Definition sample_entry : StoredEntry :=
  mkStoredEntry (mkEntry "te" None (Some "Printer") (Some 90) None (Some "100.00") true (Some "USD")) "org" true not_billed (Some (noon "2026-01-10")).

Definition sample_pay (i : string) : Op :=
  do_pay (noon "2026-02-01") (fun _ => None) i (mkPaymentInput (ofZ 50) "check" None "2026-02-01" None) sample_actor.

(** Ninety minutes are logged, invoiced and partly paid; the contract is
    activated and billed by the daily job. *)
Definition sample_ops : list Op :=
  [write_work [sample_entry] [];
   do_assemble_org "org" None (noon "2026-01-01") (noon "2026-01-31") None sample_actor;
   do_issue (noon "2026-01-31") "0" sample_actor;
   sample_pay "0";
   do_activate (noon "2026-01-15") "ct" sample_actor;
   do_billing_job (noon "2026-01-15") (noon "2026-01-15")].

Definition sample_state : Db :=
  fold_left (fun d o => exec no_groups o d) sample_ops (contract_db (sample_contract cs_draft None None false)).

Lemma ops_reachable `{Uuids} resolver ops : forall d os, reach resolver (mkWorld d os) ->
  reach resolver (mkWorld (fold_left (fun d o => exec resolver o d) ops d) os).
Proof. induction ops as [|o ops IH]; intros d os R; [exact R|]. apply IH, reach_op, R. Qed.

Lemma contract_db_initial c :
  ct_status c = cs_draft -> ct_nextBillingAt c = None -> ct_orgId c = "org" -> ct_currencyCode c = "USD" ->
  initial (contract_db c).
Proof.
  intros E1 E2 E4 E5. constructor; try reflexivity; [constructor..| | |].
  - intros cid c' E. cbn [contract_db db_contracts] in E. apply lookup_singleton_Some in E as [_ <-]. auto.
  - repeat constructor. intros [].
  - intros l [<-|[]]. exists c. split; [apply lookup_singleton_eq|]. rewrite E4, E5. split; [reflexivity|].
    split; [vm_compute; reflexivity|discriminate].
Qed.

Lemma sample_reachable : reachable no_groups sample_state.
Proof. exists []. apply ops_reachable, reach_initial, contract_db_initial; reflexivity. Qed.

(** The overdue sweep reads the unpaid invoice in March; the customer pays, and
    the sweep then marks what is paid in full. *)
Definition pay_rest (i : string) : Op :=
  do_pay (noon "2026-03-10") (fun _ => None) i (mkPaymentInput (ofZ 100) "check" None "2026-03-10" None) sample_actor.

Example stale_sweep_marks_paid :
  let d := exec no_groups (do_overdue_sweep (noon "2026-03-10") sample_state) (exec no_groups (pay_rest "0") sample_state) in
  reachable no_groups d /\
  option_map (fun i => (iv_status i, im_balance (iv_money i))) (db_invoices d !! "0") = Some (st_overdue, "0.00").
Proof.
  split; [|vm_compute; reflexivity]. destruct sample_reachable as [os R]. exists os.
  exact (reach_op _ (do_overdue_sweep (noon "2026-03-10") sample_state) _ _ (reach_op _ (pay_rest "0") _ _ R)).
Qed.

(** A mark that comes after the invoice was voided: the hours are released and
    billed on another invoice, and both invoices are live. *)
Definition invoiced_state : Db := fold_left (fun d o => exec no_groups o d) (firstn 3 sample_ops) (contract_db (sample_contract cs_draft None None false)).
Definition late_mark : Db :=
  let voided := exec no_groups (do_void (noon "2026-03-10") (fun _ => None) "0" "duplicate" false sample_actor) invoiced_state in
  let revived := commit (mark_overdue (noon "2026-03-10") (overdue_due (noon "2026-03-10") invoiced_state)) voided in
  fold_left (fun d o => exec no_groups o d)
    [do_assemble_org "org" None (noon "2026-01-01") (noon "2026-01-31") None sample_actor; do_issue (noon "2026-03-11") "2" sample_actor] revived.

Example late_mark_bills_twice :
  map (fun i => (option_map iv_status (db_invoices late_mark !! i), sourceIds src_time_entry (lines_of i late_mark))) ["0"; "2"] =
    [(Some st_overdue, ["te"]); (Some st_sent, ["te"])].
Proof. vm_compute. reflexivity. Qed.

(** A payment pulled from QuickBooks beyond what is owed. *)
Example pulled_beyond_total :
  let d := exec no_groups (pull_payment (noon "2026-02-02") "msp" "0" None (mkPaymentLine "QB-1" 50000 "USD" "2026-02-02" None None)) sample_state in
  option_map (fun i => (iv_status i, im_total (iv_money i), im_amountPaid (iv_money i))) (db_invoices d !! "0") = Some (st_paid, "150.00", "550.00").
Proof. vm_compute. reflexivity. Qed.

Lemma payments_reconcile_witness :
  exists inv total cents,
    db_invoices sample_state !! "0" = Some inv /\ iv_status inv = st_partially_paid /\
    im_total (iv_money inv) = fixed2 total /\ im_balance (iv_money inv) = fixed2 (total - zsum cents) /\ zsum cents < total.
Proof.
  assert (E : option_map iv_status (db_invoices sample_state !! "0") = Some st_partially_paid) by (vm_compute; reflexivity).
  destruct (db_invoices sample_state !! "0") as [inv|] eqn:Hi; [|discriminate E]. injection E as E.
  destruct (payments_reconcile _ _ _ _ sample_reachable Hi ltac:(congruence)) as (T & cs & _ & _ & A & _ & B & _ & C & _).
  exists inv, T, cs. split; [reflexivity|]. split; [exact E|]. split; [exact A|]. split; [exact B|]. apply C. exact E.
Defined.

Lemma work_billed_once_witness :
  List.Forall (fun e => te_id (se_row e) = "te" -> se_status e = billed) (db_entries sample_state).
Proof.
  assert (E : option_map iv_status (db_invoices sample_state !! "0") = Some st_partially_paid) by (vm_compute; reflexivity).
  destruct (db_invoices sample_state !! "0") as [inv|] eqn:Hi; [|discriminate E]. injection E as E.
  destruct (work_billed_once _ _ _ _ sample_reachable Hi ltac:(congruence) ltac:(congruence)) as [A _].
  apply List.Forall_forall. intros e He Ee. apply (A e He). rewrite Ee.
  assert (S : sourceIds src_time_entry (lines_of "0" sample_state) = ["te"]) by (vm_compute; reflexivity). rewrite S. left. reflexivity.
Defined.

Lemma period_billed_once_witness :
  List.NoDup (map period_key (db_periods sample_state)) /\ map period_key (db_periods sample_state) = [("ct", "2026-01-01")].
Proof. split; [apply (period_billed_once _ _ sample_reachable)|vm_compute; reflexivity]. Defined.
