(* ===== verification/TimeRefinement.v ===== *)
(** * The time entry service implements what billing asks of logged work

    The billing system only knows the columns of the rows it reads and one
    operation on them, [write_work], with a contract: distinct ids, billed rows
    kept, nothing made billed, fresh ids for new rows. Every call of the time entry
    service that succeeds is one such operation on the rows billing sees. *)

From Stdlib Require Import QArith.
From S2P Require Import Prelude JsString JsNumber Currency IsoDate InvoiceMath TimeBilling CatalogPricing ContractCoverage BillingDb InvoiceService InvoiceLifecycle InvoiceInvariants ContractService QuoteDb ContractDrafting ContractProperties BillingSteps BillingSystem TimeEntries TimeEntrySafety TimeProperties.
From stdpp Require Import base gmap strings list relations.

Local Open Scope string_scope.
Local Open Scope Z_scope.
Local Open Scope billing_scope.

Section Refinement.
Context `{Uuids}.
Variable resolver : DeviceGroup -> result string (list string * list string).

(** The billing tables show the time tables, and no invoice line names a row of
    theirs that is still to be created. *)
Record Shows (t : TimeDb) (d : Db) : Prop := {
  sh_entries : db_entries d = map billing_entry (td_entries t);
  sh_parts : db_parts d = map billing_part (td_parts t);
  sh_sources : forall ty k, ty = src_time_entry \/ ty = src_part -> (td_next t <= k)%nat -> existsb (names_source ty (uuid k)) (db_lines d) = false;
}.

Lemma evolves_allowed {A B} (key : A -> string) (was_billed : A -> Prop) (keeps : A -> A -> Prop) (f : A -> B) (keyB : B -> string) status frozen n n' l l' ty ls :
  (forall a, keyB (f a) = key a) -> (forall a, is_billed (status (f a)) = true <-> was_billed a) ->
  (forall x y, In x l -> keeps x y -> was_billed x -> frozen (f x) (f y) = true /\ was_billed y) -> (forall x y, keeps x y -> ~ was_billed x -> ~ was_billed y) ->
  List.NoDup (map key l) -> List.NoDup (map key l') -> ids_below n (map key l) ->
  (forall k, (n <= k)%nat -> existsb (names_source ty (uuid k)) ls = false) ->
  evolves key was_billed keeps n n' l l' -> work_allowed keyB status frozen ty ls (map f l) (map f l') = true.
Proof.
  intros Hk Hst Kb Kr N N' Hb Hfresh [F G]. assert (Hkeys : forall m, map keyB (map f m) = map key m) by (intros m; rewrite map_map; apply map_ext, Hk).
  unfold work_allowed. rewrite !andb_true_iff, distinct_NoDup, Hkeys, !forallb_forall. split; [split; [exact N'|]|].
  - intros z Hz. apply in_map_iff in Hz as (x & <- & Hx). destruct (is_billed (status (f x))) eqn:Ex; [|reflexivity]. apply Hst in Ex.
    destruct (F x Hx) as [(y & Hy & Ey & K)|[B0 _]]; [|elim (B0 Ex)]. apply existsb_exists. exists (f y). split; [apply in_map, Hy|].
    rewrite !Hk, Ey, String.eqb_refl. apply (Kb x y Hx K Ex).
  - intros z Hz. apply in_map_iff in Hz as (y & <- & Hy). destruct (List.find _ _) as [w|] eqn:Ef.
    + apply find_some in Ef as [Hw Ew]. apply in_map_iff in Hw as (x & <- & Hx). rewrite !Hk, String.eqb_eq in Ew.
      destruct (G y Hy) as [(x' & Hx' & Ex & K)|[_ (k & Hk' & Ek)]].
      * rewrite (unique_in key l x' x N Hx' Hx ltac:(congruence)) in K. apply Bool.eqb_true_iff, Bool.eq_iff_eq_true. rewrite !Hst. split; [apply (Kb x y Hx K)|].
        intros By. destruct (is_billed (status (f x))) eqn:Es; [apply Hst, Es|]. elim (Kr x y K); [|exact By]. rewrite <- Hst. congruence.
      * destruct (Hb (key x) (in_map key l x Hx)) as (k' & Hlt & E). rewrite Ew, Ek in E. apply uuid_inj in E. lia.
    + destruct (G y Hy) as [(x & Hx & Ex & _)|[B0 (k & Hk' & Ek)]].
      * pose proof (find_none _ _ Ef (f x) (in_map f l x Hx)) as Hn. rewrite !Hk, Ex, String.eqb_refl in Hn. discriminate.
      * rewrite Hk, Ek, (Hfresh k) by lia. destruct (is_billed (status (f y))) eqn:Es; [|reflexivity]. elim B0. apply Hst, Es.
Qed.

Lemma is_billed_spec s : is_billed s = true <-> s = billed.
Proof. destruct s; cbn; intuition congruence. Qed.

(** The operation of the billing system that a call amounts to. *)
Definition work_of (t : TimeDb) : Op := write_work (map billing_entry (td_entries t)) (map billing_part (td_parts t)).

Lemma work_of_allowed t t' d : Time t -> Time t' -> Evolves t t' -> Shows t d ->
  work_write_allowed d (map billing_entry (td_entries t')) (map billing_part (td_parts t')) = true.
Proof.
  intros T T' [_ _ E1 E2] [S1 S2 S3]. unfold work_write_allowed. rewrite S1, S2. apply andb_true_iff. split.
  - eapply (evolves_allowed en_id billed_entry kept); [reflexivity| | | |apply T|apply T'|apply T|intros k Hk; apply S3; auto|exact E1].
    + intros e. apply is_billed_spec.
    + intros x y Hx K B. destruct (kp_billed _ _ K B (tv_rows _ T x Hx)) as (d0 & a & ->). split; [|exact B]. apply bool_decide_true. reflexivity.
    + intros x y K. apply K.
  - eapply (evolves_allowed tk_id (fun p => tk_billingStatus p = billed) part_kept); [reflexivity| | | |apply T|apply T'|apply T|intros k Hk; apply S3; auto|exact E2].
    + intros p. apply is_billed_spec.
    + intros x y Hx K B. destruct (pk_billed _ _ K B (tv_parts _ T x Hx)) as (d0 & m & v & o & ->). split; [|exact B]. apply bool_decide_true. reflexivity.
    + intros x y K. apply K.
Qed.

(** C4: The time entry service implements the contract of logged work: when the
    billing tables show time tables in order, every call that succeeds is one
    operation of the billing system, which accepts it, so the billing tables then
    show the new rows and are still reachable; invoices, payments and contracts
    are untouched. *)
Theorem time_service_refines_billing o t t' d :
  Time t -> Shows t d -> reachable resolver d -> time_call o t = Ok (tt, t') ->
  let d' := exec resolver (work_of t') d in
  Shows t' d' /\ reachable resolver d' /\ db_invoices d' = db_invoices d /\ db_lines d' = db_lines d /\ db_payments d' = db_payments d /\
  db_contracts d' = db_contracts d.
Proof.
  intros T S R E. pose proof (call_Time _ _ _ E T) as T'. pose proof (call_Evolves _ _ _ E T) as V. cbv zeta.
  assert (R' : reachable resolver (exec resolver (work_of t') d)) by (destruct R as [os R]; exists os; apply (reach_op _ _ _ _ R)).
  revert R'. unfold work_of, exec. rewrite (work_of_allowed _ _ _ T T' V S). intros R'.
  split; [|auto 10]. constructor; [reflexivity|reflexivity|]. intros ty k Hty Hk. apply (sh_sources _ _ S); [exact Hty|]. pose proof (evo_next _ _ V). lia.
Qed.

End Refinement.

(** The first entry of the day, over the tables of a tenant before its first invoice. *)
Lemma time_service_refines_billing_witness :
  let t := mkTimeDb day_ref [] [] 0 in
  let d := contract_db (sample_contract cs_draft None None false) in
  exists t', time_call logged t = Ok (tt, t') /\ Shows t' (exec no_groups (work_of t') d) /\
    List.length (db_entries (exec no_groups (work_of t') d)) = 1%nat.
Proof.
  cbv zeta. destruct (time_call logged (mkTimeDb day_ref [] [] 0)) as [[[] t']|] eqn:E; [|vm_compute in E; discriminate E].
  exists t'. split; [reflexivity|].
  assert (R : reachable no_groups (contract_db (sample_contract cs_draft None None false))).
  { exists []. apply reach_initial, contract_db_initial; reflexivity. }
  destruct (time_service_refines_billing no_groups logged _ _ (contract_db (sample_contract cs_draft None None false)) (empty_Time day_ref)
    ltac:(constructor; reflexivity) R E) as [S _].
  split; [exact S|]. rewrite (sh_entries _ _ S), length_map. vm_compute in E. injection E as <-. reflexivity.
Defined.
