(* ===== verification/ContractEditing.v ===== *)
(** * What editing contracts guarantees

    Over the operations of [ContractDrafting] and the states of [BillingSystem]:
    prices follow the contract's currency, an active contract changes currency
    only when nothing unbilled is left behind, the eligibility walk over reissued
    invoices decides exactly what it says, the header keeps what billing relies
    on, and a line's price moves only as the catalog transition table says. *)

From Stdlib Require Import QArith.
From S2P Require Import Prelude JsString JsNumber Currency IsoDate QuoteMath QuoteSpec InvoiceMath ContractMath TimeBilling CatalogPricing ContractCoverage BillingDb InvoiceService StripeSessions StripeReversal InvoiceLifecycle StripeReconcile InvoiceInvariants InvoiceSafety StripeSafety ContractService QuoteDb QuoteConversion ContractDrafting ContractRenewal ContractSafety ContractProperties ContractLines BillingSteps ContractSteps QuoteSafety BillingSystem.
From stdpp Require Import base gmap strings list.

Local Open Scope string_scope.
Local Open Scope Z_scope.
Local Open Scope billing_scope.

(** ** Lists *)

Lemma no_rows_nil {A} (l : list A) : no_rows l = true <-> forall x, ~ In x l.
Proof. destruct l as [|x l]; cbn; split; auto; [discriminate|]. intros H. elim (H x). left. reflexivity. Qed.

Lemma in_insert_text x y l : In y (insert_text x l) <-> y = x \/ In y l.
Proof. induction l as [|z l IH]; cbn; [intuition|]. destruct (str_leb _ _); cbn; [intuition|]. rewrite IH. intuition. Qed.

Lemma in_sort_ids x l : In x (sort_ids l) <-> In x l.
Proof. unfold sort_ids. induction l as [|y l IH]; [reflexivity|]. cbn [fold_right]. rewrite in_insert_text, IH. cbn. intuition. Qed.

Lemma in_remove_dups x (l : list string) : In x (remove_dups l) <-> In x l.
Proof. rewrite <- !list_elem_of_In. apply elem_of_remove_dups. Qed.

Lemma in_js_set x l : In x (js_set l) <-> In x l.
Proof. unfold js_set. rewrite <- in_rev, in_remove_dups, <- in_rev. reflexivity. Qed.

Lemma in_omap {A B} (f : A -> option B) l y : In y (omap f l) <-> exists x, In x l /\ f x = Some y.
Proof. rewrite <- list_elem_of_In, list_elem_of_omap. setoid_rewrite list_elem_of_In. reflexivity. Qed.

Lemma in_periods_by_id x l : In x (fold_right insert_period_id [] l) <-> In x l.
Proof.
  assert (K : forall a b xs, In b (insert_period_id a xs) <-> b = a \/ In b xs).
  { intros a b. induction xs as [|z xs IH]; cbn; [intuition|]. destruct (str_leb _ _); cbn; [intuition|]. rewrite IH. intuition. }
  induction l as [|y l IH]; [reflexivity|]. cbn [fold_right]. rewrite K, IH. cbn. intuition.
Qed.

Lemma in_periods_of cid p d : In p (periods_of cid d) <-> In p (db_periods d) /\ bp_contractId p = cid.
Proof. unfold periods_of. rewrite filter_In, String.eqb_eq. reflexivity. Qed.

Lemma opt_eqb_some o s : opt_eqb o (Some s) = true <-> o = Some s.
Proof. destruct o as [x|]; cbn; [|split; discriminate]. rewrite String.eqb_eq. split; congruence. Qed.

(** ** Reissued invoices *)

(** The invoice [c] replaces [i]. *)
Definition replaces (d : Db) (c i : string) : Prop := exists inv, db_invoices d !! c = Some inv /\ iv_replacesInvoiceId inv = Some i.

(** A chain of invoices from [i], each replacing the one before it. *)
Fixpoint reissue_chain (d : Db) (i : string) (p : list string) : Prop :=
  match p with [] => True | c :: r => replaces d c i /\ reissue_chain d c r end.

Lemma in_replacements c i d : In c (replacements i d) <-> replaces d c i.
Proof.
  unfold replacements, replaces. rewrite in_map_iff. split.
  - intros ([k inv] & <- & Hin). apply filter_In in Hin as [Hin E]. apply list_elem_of_In, elem_of_map_to_list in Hin.
    apply opt_eqb_some in E. eauto.
  - intros (inv & Hc & E). exists (c, inv). split; [reflexivity|]. apply filter_In. split; [apply list_elem_of_In, elem_of_map_to_list, Hc|].
    apply opt_eqb_some, E.
Qed.

Lemma last_cons_default (c i : string) p : List.last (c :: p) i = List.last p c.
Proof. revert c i. induction p as [|x p IH]; intros c i; [reflexivity|]. change (List.last (c :: x :: p) i) with (List.last (x :: p) i). rewrite !IH. reflexivity. Qed.

(** The recursive query visits exactly the ends of the chains of distinct
    invoices that avoid the path and are no longer than the depth left. *)
Lemma walk_spec d : forall fuel path i j,
  In j (walk fuel path i d) <->
  exists p, reissue_chain d i p /\ (List.length p <= fuel)%nat /\ List.NoDup p /\ (forall c, In c p -> ~ In c path) /\ j = List.last p i.
Proof.
  induction fuel as [|k IH]; intros path i j; cbn [walk In].
  - split.
    + intros [<-|[]]. exists []. cbn. split; [exact I|]. split; [lia|]. split; [constructor|]. auto.
    + intros (p & _ & Hl & _ & _ & ->). destruct p; [left; reflexivity|cbn in Hl; lia].
  - rewrite in_flat_map. split.
    + intros [<-|(c & Hc & Hj)]; [exists []; cbn; split; [exact I|]; split; [lia|]; split; [constructor|]; auto|].
      apply in_replacements in Hc. destruct (str_mem c path) eqn:Em; [destruct Hj|]. apply IH in Hj as (p & Hp & Hl & Hn & Ha & ->).
      exists (c :: p). split; [split; assumption|]. split; [cbn; lia|]. split; [constructor; [intros Hin; apply (Ha c Hin); left; reflexivity|exact Hn]|].
      split; [|symmetry; apply last_cons_default]. intros x [<-|Hx] Hin; [apply str_mem_in in Hin; congruence|]. apply (Ha x Hx). right. exact Hin.
    + intros (p & Hp & Hl & Hn & Ha & ->). destruct p as [|c p]; [left; reflexivity|]. right. exists c. destruct Hp as [Hc Hp].
      split; [apply in_replacements, Hc|]. destruct (str_mem c path) eqn:Em; [apply str_mem_in in Em; elim (Ha c (or_introl eq_refl) Em)|].
      apply IH. inversion Hn as [|? ? H1 H2]; subst. exists p. split; [exact Hp|]. split; [cbn in Hl; lia|]. split; [exact H2|].
      split; [|apply last_cons_default]. intros x Hx [<-|Hin]; [contradiction|]. exact (Ha x (or_intror Hx) Hin).
Qed.

(** ** The ancestry of a period's invoice *)

Section Lineage.
Context (d : Db) (orgId partnerId : string).

Definition in_tenant (inv : Invoice) : Prop := iv_orgId inv = orgId /\ iv_partnerId inv = partnerId.

(** Every ancestor is the tenant's and the chain ends, within so many steps and
    without meeting the path again. *)
Inductive clean_ancestry : nat -> list string -> Invoice -> Prop :=
| anc_root n path inv : in_tenant inv -> iv_replacesInvoiceId inv = None -> clean_ancestry n path inv
| anc_gone n path inv p : in_tenant inv -> iv_replacesInvoiceId inv = Some p -> ~ In p path -> db_invoices d !! p = None ->
    clean_ancestry (S n) path inv
| anc_up n path inv p parent : in_tenant inv -> iv_replacesInvoiceId inv = Some p -> ~ In p path -> db_invoices d !! p = Some parent ->
    clean_ancestry n (p :: path) parent -> clean_ancestry (S n) path inv.

Lemma tenant_spec inv : String.eqb (iv_orgId inv) orgId && String.eqb (iv_partnerId inv) partnerId = true <-> in_tenant inv.
Proof. unfold in_tenant. rewrite andb_true_iff, !String.eqb_eq. reflexivity. Qed.

Lemma ancestry_spec : forall n path inv, ancestry n orgId partnerId path inv d = (true, true) <-> clean_ancestry n path inv.
Proof.
  induction n as [|n IH]; intros path inv; cbn [ancestry]; destruct (iv_replacesInvoiceId inv) as [p|] eqn:Er.
  - split; [discriminate|]. inversion 1; congruence.
  - split; [intros [= E]; apply tenant_spec in E; exact (anc_root _ _ _ E Er)|].
    inversion 1; subst; f_equal; apply tenant_spec; assumption.
  - destruct (str_mem p path) eqn:Em; [split; [discriminate|]; apply str_mem_in in Em; inversion 1; congruence|].
    assert (Hn : ~ In p path) by (intros Hin; apply str_mem_in in Hin; congruence).
    destruct (db_invoices d !! p) as [parent|] eqn:Ep.
    + destruct (ancestry n orgId partnerId (p :: path) parent d) as [o t] eqn:Ea. split.
      * intros [= E ->]. apply andb_true_iff in E as [E ->]. apply tenant_spec in E. apply (anc_up _ _ _ _ _ E Er Hn Ep), IH, Ea.
      * inversion 1 as [| |? ? ? q par Ht Eq Hq Epar Hc]; subst; try congruence. rewrite Er in Eq. injection Eq as <-. rewrite Ep in Epar.
        injection Epar as <-. apply IH in Hc. rewrite Hc in Ea. injection Ea as <- <-. f_equal. rewrite andb_true_r. apply tenant_spec, Ht.
    + split; [intros [= E]; apply tenant_spec in E; exact (anc_gone _ _ _ _ E Er Hn Ep)|].
      inversion 1; subst; try congruence. f_equal. apply tenant_spec. assumption.
  - split; [intros [= E]; apply tenant_spec in E; exact (anc_root _ _ _ E Er)|].
    inversion 1; subst; try congruence. f_equal. apply tenant_spec. assumption.
Qed.

(** A billed period whose invoice is there, the tenant's, the contract's own,
    and of a clean ancestry. *)
Definition sound_period (contractId : string) (p : BillingPeriod) : Prop :=
  exists i inv, bp_invoiceId p = Some i /\ db_invoices d !! i = Some inv /\ attributable contractId i d = true /\
    clean_ancestry LINEAGE_DEPTH_CAP [i] inv.
End Lineage.

Lemma verdict_sound cid c d p :
  period_verdict cid c d p = pv_sound <-> sound_period d (ct_orgId c) (ct_partnerId c) cid p.
Proof.
  unfold period_verdict, sound_period. destruct (bp_invoiceId p) as [i|]; [|split; [discriminate|intros (i & inv & [=] & _)]].
  destruct (db_invoices d !! i) as [inv|] eqn:Ei; [|split; [discriminate|intros (j & inv & [= <-] & Ej & _); congruence]].
  pose proof (ancestry_spec d (ct_orgId c) (ct_partnerId c) LINEAGE_DEPTH_CAP [i] inv) as K.
  destruct (ancestry _ _ _ _ _ _) as [o t]. split.
  - destruct o, t, (attributable cid i d) eqn:Ea; cbn; try discriminate. intros _. exists i, inv. split; [reflexivity|]. split; [exact Ei|].
    split; [exact Ea|]. apply K. reflexivity.
  - intros (j & v & [= <-] & Ev & Ha & Hc). assert (v = inv) as -> by congruence. apply K in Hc. injection Hc as -> ->. rewrite Ha. reflexivity.
Qed.

(** ** Eligibility, in the terms of the tables *)

(** Billed by the contract, directly or as a reissue. *)
Definition billed_under (cid : string) (d : Db) (j : string) : Prop :=
  exists p i chain, In p (db_periods d) /\ bp_contractId p = cid /\ bp_invoiceId p = Some i /\ is_Some (db_invoices d !! i) /\
    reissue_chain d i chain /\ (List.length chain <= LINEAGE_DEPTH_CAP)%nat /\ List.NoDup (i :: chain) /\ j = List.last chain i.

(** A contract line on a draft that no contract owns. *)
Definition stray (orgId : string) (d : Db) (l : InvoiceLine) : Prop :=
  il_orgId l = orgId /\ is_draft_invoice (il_invoiceId l) d = true /\ lv_sourceType (il_values l) = src_contract /\
  lv_sourceContractId (il_values l) = None /\ live_contract_line None (lv_sourceId (il_values l)) d = false.

Record restamp_safe (cid : string) (c : Contract) (d : Db) : Prop := {
  rs_no_draft : forall j, billed_under cid d j -> is_draft_invoice j d = false;
  rs_no_line : forall l, In l (db_lines d) -> is_draft_invoice (il_invoiceId l) d = true -> sourced_by cid d l = false;
  rs_no_stray : forall l, In l (db_lines d) -> ~ stray (ct_orgId c) d l;
  rs_periods : forall p, In p (db_periods d) -> bp_contractId p = cid -> sound_period d (ct_orgId c) (ct_partnerId c) cid p }.

Lemma in_reachable_invoices cid d j : In j (reachable_invoices cid d) <-> billed_under cid d j.
Proof.
  unfold reachable_invoices, period_invoices, billed_under. rewrite in_flat_map. split.
  - intros (i & Hi & Hj). apply filter_In in Hi as [Hi Hp]. apply in_omap in Hi as (p & Hpin & Ep). apply in_periods_of in Hpin as [Hpin Ec].
    apply walk_spec in Hj as (chain & Hc & Hl & Hn & Ha & ->). exists p, i, chain. split; [exact Hpin|]. split; [exact Ec|]. split; [exact Ep|].
    split; [destruct (db_invoices d !! i); [eexists; reflexivity|discriminate Hp]|]. split; [exact Hc|]. split; [exact Hl|].
    split; [|reflexivity]. constructor; [|exact Hn]. intros Hin. exact (Ha i Hin (or_introl eq_refl)).
  - intros (p & i & chain & Hpin & Ec & Ep & [inv Hi] & Hc & Hl & Hn & ->). inversion Hn as [|? ? H1 H2]; subst. exists i. split.
    + apply filter_In. split; [|rewrite Hi; reflexivity]. apply in_omap. exists p. split; [apply in_periods_of; auto|exact Ep].
    + apply walk_spec. exists chain. split; [exact Hc|]. split; [exact Hl|]. split; [exact H2|]. split; [|reflexivity].
      intros x Hx [<-|[]]. contradiction.
Qed.

Lemma in_direct_drafts cid d j :
  In j (direct_drafts cid d) <-> exists l, In l (db_lines d) /\ il_invoiceId l = j /\ is_draft_invoice j d = true /\ sourced_by cid d l = true.
Proof.
  unfold direct_drafts. rewrite in_map_iff. split.
  - intros (l & <- & Hl). apply filter_In in Hl as [Hl E]. apply andb_true_iff in E as [E1 E2]. eauto.
  - intros (l & Hl & <- & E1 & E2). exists l. split; [reflexivity|]. apply filter_In. rewrite E1, E2. auto.
Qed.

Lemma in_orphan_sources org d x :
  In x (orphan_sources org d) <-> exists l, In l (db_lines d) /\ il_id l = x /\ stray org d l.
Proof.
  unfold orphan_sources, stray. rewrite in_sort_ids, in_map_iff. split.
  - intros (l & <- & Hl). apply filter_In in Hl as [Hl E]. repeat (apply andb_true_iff in E as [E ?]). apply String.eqb_eq in E.
    exists l. split; [exact Hl|]. split; [reflexivity|]. split; [exact E|]. split; [assumption|].
    split; [destruct (lv_sourceType (il_values l)); congruence|]. split; [destruct (lv_sourceContractId (il_values l)); [discriminate|reflexivity]|].
    apply negb_true_iff. assumption.
  - intros (l & Hl & <- & E1 & E2 & E3 & E4 & E5). exists l. split; [reflexivity|]. apply filter_In. split; [exact Hl|].
    rewrite E1, E2, E3, E4, E5, String.eqb_refl. reflexivity.
Qed.

(** The inspection answers eligible exactly when the restamp is safe. *)
Lemma eligible_spec cid c d : eligible (inspect cid c d) = true <-> restamp_safe cid c d.
Proof.
  unfold eligible. rewrite !andb_true_iff, !no_rows_nil. unfold inspect. cbv zeta. cbn [ge_draftInvoiceIds ge_orphanedBillingPeriodIds ge_orphanedContractSourceLineIds ge_brokenLineageInvoiceIds].
  setoid_rewrite in_orphan_sources. setoid_rewrite in_sort_ids. setoid_rewrite in_js_set. setoid_rewrite in_remove_dups. setoid_rewrite in_app_iff. setoid_rewrite filter_In. setoid_rewrite in_reachable_invoices.
  setoid_rewrite in_direct_drafts. setoid_rewrite in_omap. setoid_rewrite in_map_iff. setoid_rewrite in_periods_by_id.
  split.
  - intros [[[A B] C] D]. constructor.
    + intros j Hj. destruct (is_draft_invoice j d) eqn:E; [|reflexivity]. elim (A j). left. auto.
    + intros l Hl E. destruct (sourced_by cid d l) eqn:E2; [|reflexivity]. elim (A (il_invoiceId l)). right. eauto 6.
    + intros l Hl Hs. apply (C (il_id l)). eauto.
    + intros p Hp Ec. apply verdict_sound. destruct (period_verdict cid c d p) as [x|x|] eqn:Ev; [| |reflexivity]; exfalso.
      * apply (B x). exists (pv_orphaned x). split; [exists p; split; [exact Ev|apply in_periods_of; auto]|reflexivity].
      * apply (D x). exists (pv_broken x). split; [exists p; split; [exact Ev|apply in_periods_of; auto]|reflexivity].
  - intros [A B C D]. assert (K : forall v, (exists p, period_verdict cid c d p = v /\ In p (periods_of cid d)) -> v = pv_sound).
    { intros v (p & <- & Hp). apply in_periods_of in Hp as [Hp Ec]. apply verdict_sound, D; assumption. }
    split; [split; [split|]|].
    + intros j [[Hj E]|(l & Hl & <- & E & E2)]; [rewrite (A j Hj) in E; discriminate|rewrite (B l Hl E) in E2; discriminate].
    + intros x (v & Hv & E). rewrite (K v Hv) in E. discriminate E.
    + intros x (l & Hl & _ & Hs). exact (C l Hl Hs).
    + intros x (v & Hv & E). rewrite (K v Hv) in E. discriminate E.
Qed.

(** ** Properties *)

(** C6: In every state the billing system reaches, every contract line belongs to
    a contract that exists, in its organization, and its unit price and its
    overage rate are whole minor units of that contract's currency: no edit of a
    line, repricing, restamp, conversion of a quote or deletion leaves a line
    priced in another currency or without its contract, whatever header edits,
    pauses and deletions decided on an older row are written in between. Line ids
    are distinct, and exactly the active contracts have a billing date. *)
Theorem contract_lines_in_currency `{Uuids} resolver d :
  reachable resolver d ->
  (forall l, In l (db_contractLines d) ->
     exists c, db_contracts d !! cn_contractId l = Some c /\ cn_orgId l = ct_orgId c /\
       representable (cn_unitPrice l) (ct_currencyCode c) /\
       forall p, overageUnitPrice (cn_allowance l) = Some p -> representable p (ct_currencyCode c)) /\
  List.NoDup (map cn_id (db_contractLines d)) /\
  forall cid c, db_contracts d !! cid = Some c ->
    (ct_status c = cs_active <-> ct_nextBillingAt c <> None).
Proof. intros R. apply reachable_Sys in R as [_ _ K I P]. auto. Qed.

(** C5: An active contract changes currency only with the manage permission and
    an explicit confirmation, and only when it strands nothing: afterwards no
    draft invoice carries a line this contract sourced, nor one of the
    organization that no contract owns; every billed period has its invoice, in
    the contract's tenant with a clean ancestry; and no invoice of a period, nor
    any reissue of it within the depth the walk covers, is a draft. The
    contract's lines are then all priced in the new currency, the invoices are
    untouched, and the other contracts and their lines stay as they were. *)
Theorem active_restamp_strands_nothing `{Uuids} resolver d cid cur clear reprice confirm perms actor u d' c :
  reachable resolver d -> changeContractCurrencySchema cur clear reprice = true ->
  changeContractCurrency cid cur clear reprice confirm perms actor d = Ok (u, d') ->
  db_contracts d !! cid = Some c -> ct_status c = cs_active -> ct_currencyCode c <> cur ->
  actorCan perms CONTRACTS_MANAGE = true /\ confirm = true /\
  restamp_safe cid c d /\
  db_invoices d' = db_invoices d /\ db_lines d' = db_lines d /\ db_periods d' = db_periods d /\
  db_contracts d' = alter (with_currency cur) cid (db_contracts d) /\
  forall l, In l (db_contractLines d') ->
    (cn_contractId l = cid /\ priced_in cur l) \/ (cn_contractId l <> cid /\ In l (db_contractLines d)).
Proof.
  intros R V E Hc Hs Hne. apply reachable_Sys in R. apply andb_true_iff in V as [_ V]. apply negb_true_iff in V.
  apply changeContractCurrency_ok in E as (c' & Hc' & Hr & [[Ec _]|(_ & ls & -> & _ & Hl)]); [congruence| |apply R|exact V].
  rewrite Hc in Hc'. injection Hc' as <-. destruct Hr as [Hr|(_ & Hm & Hcf & He)]; [congruence|].
  split; [exact Hm|]. split; [exact Hcf|]. split; [apply eligible_spec, He|]. do 4 (split; [reflexivity|]).
  intros l Hin. destruct (Hl l Hin) as [[Hn Hi]|(Hcid & Hp & _)]; auto.
Qed.

(** C16: The inspection that guards an active restamp decides exactly the safety
    it stands for: it lists no blocker if and only if no chain of distinct
    reissues of at most thirty-two steps leads from a billed period's invoice to
    a draft, no draft line comes from the contract, no draft line of the
    organization is a contract line without a contract, and every billed period
    has an invoice that is attributable to the contract and whose replaced
    ancestors are all in the tenant and end without a cycle. Both walks stop on
    cyclic chains. *)
Theorem currency_eligibility_exact cid c d :
  db_contracts d !! cid = Some c ->
  exists e, inspectContractCurrencyEligibility cid d = Ok (e, d) /\ (eligible e = true <-> restamp_safe cid c d) /\
    (forall j, In j (ge_draftInvoiceIds e) <->
       is_draft_invoice j d = true /\
       (billed_under cid d j \/ exists l, In l (db_lines d) /\ il_invoiceId l = j /\ sourced_by cid d l = true)).
Proof.
  intros Hc. exists (inspect cid c d). split; [unfold inspectContractCurrencyEligibility, bind, read; rewrite Hc; reflexivity|].
  split; [apply eligible_spec|]. intros j. unfold inspect. cbv zeta. cbn [ge_draftInvoiceIds].
  rewrite in_sort_ids, in_remove_dups, in_app_iff, filter_In, in_reachable_invoices, in_direct_drafts. split.
  - intros [[A B]|(l & A & B & C & D)]; split; eauto.
  - intros [A [B|(l & B & C & D)]]; [left; auto|right; eauto].
Qed.

Definition header_update (cid : string) (patch : UpdateContractInput) (actor : InvoiceActor) (d : Db) : result Failure (Contract * Db) :=
  match db_contracts d !! cid with
  | None => Err (Refused CONTRACT_NOT_FOUND)
  | Some c =>
      if match ac_accessibleOrgIds actor with Some orgs => negb (str_mem (ct_orgId c) orgs) | None => false end then Err (Refused ORG_DENIED)
      else match ct_status c with
           | cs_draft | cs_active =>
               if match ct_status c with cs_draft => false | _ => true end && touches_schedule patch then Err (Refused INVALID_STATE)
               else let c' := safe_set (is_draft c) patch c in
                    if renewable c' then Ok (c', set_contracts (alter (safe_set (is_draft c) patch) cid (db_contracts d)) d)
                    else Err (Thrown "auto-renew requires an end date and renewal term")
           | _ => Err (Refused INVALID_STATE)
           end
  end.

(** An update of the header by an actor without a site restriction has
    exactly these outcomes: a missing contract, an organization out of reach, a
    contract neither draft nor active, a schedule edit on an active contract and
    a renewal without end or term are each refused and change nothing;
    otherwise the whitelisted columns of the one row are written, and the
    tenant, the status, the currency, the billing date and, on an active
    contract, the schedule stay as they are. *)
Theorem contract_header_update cid patch actor d :
  ac_allowedSiteIds actor = None ->
  updateContract cid patch actor d = header_update cid patch actor d /\
  forall c c' d', updateContract cid patch actor d = Ok (c', d') -> db_contracts d !! cid = Some c ->
    ct_partnerId c' = ct_partnerId c /\ ct_orgId c' = ct_orgId c /\ ct_status c' = ct_status c /\
    ct_currencyCode c' = ct_currencyCode c /\ ct_nextBillingAt c' = ct_nextBillingAt c /\ ct_createdBy c' = ct_createdBy c /\
    (ct_status c = cs_active ->
       ct_billingTiming c' = ct_billingTiming c /\ ct_intervalMonths c' = ct_intervalMonths c /\ ct_startDate c' = ct_startDate c).
Proof.
  intros Ha. assert (K : updateContract cid patch actor d = header_update cid patch actor d).
  { unfold header_update, updateContract, updateContract_plan, getOwnedContractOr404, requireWholeContractSiteAccess, assertEditable, requireOrgAccess, update_contract.
    rewrite Ha. unfold bind, read, require, lift, modify, rbind, ret, fail. destruct (db_contracts d !! cid) as [c|] eqn:Hc; [|reflexivity].
    assert (Hcur : alter (safe_set (is_draft c) patch) cid (db_contracts d) !! cid = Some (safe_set (is_draft c) patch c))
      by (rewrite lookup_alter_eq, Hc; reflexivity).
    assert (Ho : ct_orgId (safe_set (is_draft c) patch c) = ct_orgId c) by reflexivity.
    destruct (ac_accessibleOrgIds actor) as [orgs|]; [destruct (str_mem (ct_orgId c) orgs) eqn:Em; [|reflexivity]|]; cbn [negb].
    all: destruct (ct_status c) eqn:Hs; try reflexivity; unfold is_draft in *; rewrite Hs in *; cbn [andb orb negb]; try (destruct (touches_schedule patch); [reflexivity|]); cbn [negb];
      (destruct (renewable _); [|reflexivity]); cbn [db_contracts set_contracts]; rewrite Hcur, ?Ho, ?Em; reflexivity. }
  split; [exact K|]. rewrite K. intros c c' d' E Hc. unfold header_update in E. rewrite Hc in E.
  destruct (match ac_accessibleOrgIds actor with Some _ => _ | None => _ end); [discriminate E|].
  destruct (ct_status c) eqn:Hs; try discriminate E; cbn [andb] in E.
  - destruct (renewable _); [|discriminate E]. injection E as <- _. repeat split; try reflexivity; try exact Hs; discriminate.
  - destruct (touches_schedule patch); [discriminate E|]. destruct (renewable _); [|discriminate E]. injection E as <- _.
    unfold is_draft. rewrite Hs. repeat split; try reflexivity. exact Hs.
Qed.

(** What the price and the taxability of a patched line come from. *)
Definition price_source (c : Contract) (actor : InvoiceActor) (d : Db) (patch : UpdateContractLineInput) (before : ContractLine)
    (item : option string) (price : string) (taxable : bool) : Prop :=
  match item with
  | Some i =>
      if lu_refreshCatalogPrice patch || negb (opt_eqb (cn_catalogItemId before) (Some i))
      then exists p, resolvePrice i (ct_currencyCode c) (Some (ct_orgId c)) (catalogActor actor c) d = Ok (p, d) /\
             rp_unitPrice p = price /\ rp_taxable p = taxable
      else cn_unitPrice before = price /\ cn_taxable before = taxable
  | None => from_option_default (lu_unitPrice patch) (cn_unitPrice before) = price /\
            from_option_default (lu_taxable patch) (cn_taxable before) = taxable
  end.

Lemma resolve_line_price_resolved i cur c actor d p d' :
  resolve_line_price i cur c actor d = Ok (p, d') -> resolvePrice i cur (Some (ct_orgId c)) (catalogActor actor c) d = Ok (p, d).
Proof.
  unfold resolve_line_price, mapCatalogResolveError. destruct (resolvePrice _ _ _ _ d) as [[q d1]|[[]|]] eqn:E; try discriminate.
  intros [= <- _]. pose proof (resolvePrice_ro i cur (Some (ct_orgId c)) (catalogActor actor c) _ _ _ E) as ->. reflexivity.
Qed.

Lemma transition_source l patch c actor d r d' :
  resolve_transition l patch c actor d = Ok (r, d') ->
  let m := mergeContractLinePatch l patch r in
  cn_catalogItemId m = from_option_default (lu_catalogItemId patch) (cn_catalogItemId l) /\
  price_source c actor d patch l (cn_catalogItemId m) (cn_unitPrice m) (cn_taxable m).
Proof.
  unfold resolve_transition. cbv zeta. intros E. apply bind_ok in E as (? & d1 & G & E). apply require_ok in G as [Hf ->].
  unfold mergeContractLinePatch, price_source. cbv zeta. cbn [cn_catalogItemId cn_unitPrice cn_taxable].
  destruct (lu_catalogItemId patch) as [[i|]|] eqn:Ep; cbn [from_option_default] in *.
  - rewrite (opt_eqb_sym (Some i)), (orb_comm _ (lu_refreshCatalogPrice patch)) in E.
    destruct (lu_refreshCatalogPrice patch || _) eqn:Eb.
    + apply bind_ok in E as (p & d1 & G & E). apply ret_ok in E as [-> _]. split; [reflexivity|]. cbn [lr_catalogItemId]. rewrite Eb. exists p.
      split; [exact (resolve_line_price_resolved _ _ _ _ _ _ _ G)|auto].
    + apply ret_ok in E as [-> _]. rewrite Eb. cbn. auto.
  - assert (r = None) as -> by (destruct (present (cn_catalogItemId l)); [destruct (lu_unitPrice patch), (lu_taxable patch); try discriminate E|]; run_m; reflexivity).
    cbn. auto.
  - destruct (cn_catalogItemId l) as [i|] eqn:El; cbn [orb] in E.
    + assert (Eo : opt_eqb (Some i) (Some i) = true) by (cbn; apply String.eqb_refl). destruct (lu_refreshCatalogPrice patch).
      * apply bind_ok in E as (p & d1 & G & E). apply ret_ok in E as [-> _]. split; [reflexivity|]. exists p.
        split; [exact (resolve_line_price_resolved _ _ _ _ _ _ _ G)|auto].
      * apply ret_ok in E as [-> _]. rewrite Eo. cbn. auto.
    + assert (r = None) as -> by (run_m; reflexivity). cbn. auto.
Qed.

Lemma store_line_columns l r : store_line l = Ok r ->
  pg_numeric (cn_unitPrice l) = Ok (cn_unitPrice r) /\ cn_catalogItemId r = cn_catalogItemId l /\ cn_taxable r = cn_taxable l /\
  cn_coverage r = cn_coverage l.
Proof.
  unfold store_line. intros E. destruct (pg_numeric (cn_unitPrice l)) as [u|] eqn:Eu; [|discriminate]. cbn in E.
  destruct (pg_numeric_opt (cn_manualQuantity l)) as [m|]; [|discriminate]. cbn in E.
  destruct (pg_allowance (cn_allowance l)) as [a|]; [|discriminate]. injection E as <-. auto.
Qed.

(** A patch of a contract line that succeeds leaves the line's id, contract,
    organization and type, links it to the item the patch names (or keeps its
    link), and takes price and taxability from one place: the catalog's price in
    the contract's currency when the item is new or a refresh is asked for; the
    stored ones, whatever the patch sent, when the line stays linked; and the
    patch's, or the stored ones, when the line has no item. The other lines, the
    contracts and the invoices stay as they were, and the audit entry compares
    the stored rows. *)
Theorem line_price_transitions `{Uuids} resolver d cid lid patch actor r d' :
  reachable resolver d -> updateContractLine cid lid patch actor d = Ok (r, d') ->
  exists c before after price,
    db_contracts d !! cid = Some c /\ In before (db_contractLines d) /\ cn_id before = lid /\ cn_contractId before = cid /\
    dl_line (fst r) = after /\ snd r = diffLineAudit before after cid c /\
    cn_id after = lid /\ cn_contractId after = cid /\ cn_orgId after = ct_orgId c /\
    cl_lineType (cn_coverage after) = cl_lineType (cn_coverage before) /\
    cn_catalogItemId after = from_option_default (lu_catalogItemId patch) (cn_catalogItemId before) /\
    price_source c actor d patch before (cn_catalogItemId after) price (cn_taxable after) /\ pg_numeric price = Ok (cn_unitPrice after) /\
    d' = set_contractLines (map (fun y => if is_line cid lid y then after else y) (db_contractLines d)) d.
Proof.
  intros R E. pose proof (updateContractLine_ok _ _ _ _ _ _ _ (sy_lines _ (reachable_Sys _ _ R)) E)
    as (c & l & x & Hc & Hin & Hid & Hcid & Xid & Xcid & Xo & _ & Ex & Ea & Ed).
  unfold updateContractLine in E. cbv zeta in E. apply bind_ok in E as (c0 & d1 & G & E). apply lockOwned_ok in G as [-> Hc0].
  assert (c0 = c) as -> by congruence.
  do 2 (apply bind_ok in E as (? & d1 & G & E); pose proof (read_only _ _ _ G) as ->; clear G).
  apply bind_ok in E as (l0 & d1 & G & E). apply getContractLine_ok in G as (-> & Hin0 & Hid0 & _).
  assert (l0 = l) as -> by (apply (unique_in cn_id (db_contractLines d)); [exact (sy_line_ids _ (reachable_Sys _ _ R))|assumption..|congruence]).
  apply bind_ok in E as (res & d1 & Gt & E). pose proof (read_only _ _ _ Gt) as ->. apply transition_source in Gt as [T1 T2].
  do 4 (apply bind_ok in E as (? & ? & _ & E)).
  apply bind_ok in E as (gn & d2 & _ & E). apply bind_ok in E as (up & d3 & G & E). apply lift_ok in G as [G _].
  apply bind_ok in E as (? & ? & _ & E). apply bind_ok in E as (dl & ? & G2 & E). apply read_ok in G2 as [-> _]. apply ret_ok in E as [-> _].
  cbn [fst dl_line decorate_line] in Ex. subst up. apply store_line_columns in G as (F1 & F2 & F3 & F4).
  exists c, l, x, (cn_unitPrice (mergeContractLinePatch l patch res)). cbn [fst dl_line decorate_line].
  do 4 (split; [assumption|]). split; [reflexivity|]. split; [exact Ea|]. do 3 (split; [assumption|]). split; [rewrite F4; reflexivity|].
  rewrite F2, F3. split; [exact T1|]. split; [exact T2|]. split; [exact F1|exact Ed].
Qed.

(** ** A contract that is billed and restamped *)

Definition issued_state : Db := exec no_groups (do_issue (noon "2026-01-16") "3" sample_actor) sample_state.

Lemma issued_reachable : reachable no_groups issued_state.
Proof. exists []. apply reach_op. apply ops_reachable, reach_initial, contract_db_initial; reflexivity. Qed.

Definition manage : option (list string) := Some ["contracts:read"; "contracts:manage"].
Definition price_patch : UpdateContractLineInput :=
  mkLinePatch None (Some "300.00") None None false None None None None None None None None.
Definition restamped : Db := commit (changeContractCurrency "ct" "EUR" true false true manage sample_actor) issued_state.

Lemma contract_lines_in_currency_witness :
  reachable no_groups issued_state /\ exists l c, In l (db_contractLines issued_state) /\ db_contracts issued_state !! cn_contractId l = Some c /\
    ct_status c = cs_active /\ representable (cn_unitPrice l) (ct_currencyCode c).
Proof.
  split; [exact issued_reachable|]. destruct (contract_lines_in_currency no_groups issued_state issued_reachable) as [P _].
  assert (Hin : In flat_line (db_contractLines issued_state)) by (vm_compute; left; reflexivity).
  destruct (P flat_line Hin) as (c & Hc & _ & Hp & _). exists flat_line, c. split; [exact Hin|]. split; [exact Hc|]. split; [|exact Hp].
  vm_compute in Hc. injection Hc as <-. reflexivity.
Defined.

Lemma active_restamp_strands_nothing_witness :
  exists c, db_contracts issued_state !! "ct" = Some c /\ restamp_safe "ct" c issued_state /\
    option_map ct_currencyCode (db_contracts restamped !! "ct") = Some "EUR".
Proof.
  destruct (db_contracts issued_state !! "ct") as [c|] eqn:Hc; [|vm_compute in Hc; discriminate Hc]. exists c. split; [reflexivity|].
  destruct (changeContractCurrency "ct" "EUR" true false true manage sample_actor issued_state) as [[u d']|e] eqn:E; [|vm_compute in E; discriminate E].
  assert (Hs : ct_status c = cs_active /\ ct_currencyCode c = "USD") by (vm_compute in Hc; injection Hc as <-; split; reflexivity).
  destruct (active_restamp_strands_nothing no_groups issued_state "ct" "EUR" true false true manage sample_actor u d' c
    issued_reachable eq_refl E Hc (proj1 Hs) ltac:(destruct Hs as [_ ->]; discriminate)) as (_ & _ & Hr & _).
  split; [exact Hr|]. vm_compute. reflexivity.
Defined.

Lemma currency_eligibility_exact_witness :
  exists c e, db_contracts sample_state !! "ct" = Some c /\ inspectContractCurrencyEligibility "ct" sample_state = Ok (e, sample_state) /\
    eligible e = false /\ ~ restamp_safe "ct" c sample_state.
Proof.
  destruct (db_contracts sample_state !! "ct") as [c|] eqn:Hc; [|vm_compute in Hc; discriminate Hc]. exists c.
  destruct (currency_eligibility_exact "ct" c sample_state Hc) as (e & He & Hs & _). exists e. split; [reflexivity|]. split; [exact He|].
  assert (eligible e = false) as Ee by (vm_compute in He; injection He as <-; reflexivity). split; [exact Ee|].
  intros Hr. apply Hs in Hr. congruence.
Defined.

Lemma contract_header_update_witness :
  exists c, db_contracts (commit (updateContract "ct" (mkUpdateContract (Some "Gold") None None None None None None None None None None) sample_actor) sample_state) !! "ct" = Some c /\
    ct_name c = "Gold" /\ updateContract "ct" (mkUpdateContract None None (Some 3) None None None None None None None None) sample_actor sample_state = Err (Refused INVALID_STATE).
Proof.
  eexists. split; [|split; [|rewrite (proj1 (contract_header_update "ct" _ sample_actor sample_state eq_refl)); vm_compute; reflexivity]].
  - unfold commit. rewrite (proj1 (contract_header_update "ct" _ sample_actor sample_state eq_refl)). vm_compute. reflexivity.
  - reflexivity.
Defined.

Lemma line_price_transitions_witness :
  exists r d', updateContractLine "ct" "line" price_patch sample_actor issued_state = Ok (r, d') /\
    cn_unitPrice (dl_line (fst r)) = "300.00" /\ la_changedFields (snd r) = Some [au_unitPrice].
Proof.
  destruct (updateContractLine "ct" "line" price_patch sample_actor issued_state) as [[r d']|e] eqn:E; [|vm_compute in E; discriminate E].
  destruct (line_price_transitions no_groups issued_state "ct" "line" price_patch sample_actor r d' issued_reachable E)
    as (c & l & x & p & _ & _ & _ & _ & _ & _ & _ & _ & _ & _ & _ & _ & Hp & _).
  exists r, d'. split; [reflexivity|]. vm_compute in E. injection E as <- _. split; reflexivity.
Defined.

(** ** A schedule edit that races an activation

    The checks of the header update lock nothing, so an activation can commit
    between them and the write. The contract is then active and due before its
    first period: the billing date is not the one of its schedule. *)
Definition late_start : UpdateContractInput := mkUpdateContract None None None (Some "2026-03-01") None None None None None None None.

Lemma schedule_edit_races_activation :
  let d0 := contract_db (sample_contract cs_draft None None false) in
  exists set d1 d2 c,
    updateContract_plan "ct" late_start sample_actor d0 = Ok (set, d0) /\
    activateContract (noon "2026-01-15") "ct" sample_actor d0 = Ok (tt, d1) /\
    update_contract "ct" set d1 = Ok (tt, d2) /\
    db_contracts d2 !! "ct" = Some c /\ ct_status c = cs_active /\ ct_startDate c = "2026-03-01" /\ ct_nextBillingAt c = Some "2026-01-01" /\
    pointer_on c (todayISO (noon "2026-01-15")) = "2026-03-01".
Proof. eexists _, _, _, _. do 3 (split; [reflexivity|]). split; [vm_compute; reflexivity|]. repeat split; vm_compute; reflexivity. Qed.

(** Two concurrent edits, one that makes the contract renew itself and one that
    removes its end: each is fine on the row it read, and together they leave a
    contract that renews itself without an end. *)
Definition with_renewal : UpdateContractInput := mkUpdateContract None None None None None None None None (Some true) None None.
Definition without_end : UpdateContractInput := mkUpdateContract None None None None (Some None) None None None None None None.

Example renewal_races_open_end :
  let d0 := contract_db (sample_contract cs_draft None (Some "2026-12-31") false) in
  let d := exec no_groups (do_contract_update "ct" without_end sample_actor d0) (exec no_groups (do_contract_update "ct" with_renewal sample_actor d0) d0) in
  reachable no_groups d /\
  option_map (fun c => (ct_autoRenew c, ct_endDate c)) (db_contracts d !! "ct") = Some (true, None).
Proof.
  split; [|vm_compute; reflexivity]. eexists. do 2 apply reach_op. apply reach_initial, contract_db_initial; reflexivity.
Qed.
