(* ===== verification/QuoteSystem.v ===== *)
(** * The quoting and billing system as a whole

    Every operation on quotes as one step of a system over the quote tables and
    the billing tables behind them. Only an acceptance writes to the billing
    tables, and its conversion is a case of the step the billing system has for
    any quote and lines, so every billing state it reaches is one the billing
    system reaches. A step of the billing system clears the references to rows it
    deletes: a quote's invoice, a line's device group and site.
    In every state, the rows of the quote tables are well formed, the stored
    totals are those of the lines, what a customer was sent stays as it was, and a
    quote and its revisions are converted at most once, for the amount quoted. *)

From Stdlib Require Import QArith.
From S2P Require Import Prelude JsString JsNumber Currency IsoDate QuoteMath QuoteSpec InvoiceMath ContractMath TimeBilling CatalogPricing ContractCoverage BillingDb InvoiceService StripeSessions InvoiceLifecycle StripeReconcile InvoiceInvariants InvoiceSafety ContractService QuoteDb QuoteConversion QuoteService QuoteLifecycle RateColumn QuoteInvariants QuoteOperations QuoteLife ContractProperties BillingSteps QuoteSafety BillingSystem.
From stdpp Require Import base gmap strings list.

Local Open Scope string_scope.
Local Open Scope Z_scope.
Local Open Scope billing_scope.

(** ** The operations *)

Inductive QOp :=
(* drafts *)
| q_create (now : Z) (input : CreateQuoteInput) (actor : InvoiceActor)
| q_update (id : string) (patch : QuotePatch) (actor : InvoiceActor)
| q_delete (id : string) (actor : InvoiceActor)
| q_currency (id currencyCode : string) (clearLines reprice : bool) (actor : InvoiceActor)
| q_add_block (id : string) (input : QuoteBlockInput) (actor : InvoiceActor)
| q_update_block (id blockId : string) (input : QuoteBlockInput) (actor : InvoiceActor)
| q_delete_block (id blockId : string) (actor : InvoiceActor)
| q_order_blocks (id : string) (ids : list string) (actor : InvoiceActor)
| q_add_line (id : string) (input : QuoteLineInput) (actor : InvoiceActor)
| q_add_catalog_line (id itemId : string) (quantity : num) (blockId : option string) (actor : InvoiceActor)
| q_update_line (id lineId : string) (patch : QuoteLinePatch) (actor : InvoiceActor)
| q_remove_line (id lineId : string) (actor : InvoiceActor)
| q_order_lines (id blockId : string) (ids : list string) (actor : InvoiceActor)
| q_move_line (id lineId blockId : string) (actor : InvoiceActor)
| q_refresh_counts (id : string) (actor : InvoiceActor)
| q_clone (now : Z) (id : string) (actor : InvoiceActor) (orgId title : option string)
| q_revise (now : Z) (id : string) (actor : InvoiceActor)
(* sent quotes *)
| q_send (now : Z) (id : string) (actor : InvoiceActor) (toEmails : list string) (billingEmail : option string) (jti : string)
    (renderData : list ContractBlockRenderData)
| q_viewed (now : Z) (id orgId : string)
| q_decline (now : Z) (id : string) (reason : option string) (actor : InvoiceActor)
| q_decline_public (now : Z) (id jti : string) (orgIds : list string) (reason : option string)
| q_expire (now : Z)
| q_accept (now : Z) (params : AcceptQuoteParams) (documents : result Failure unit)
(* the rest of the product *)
| q_templates (templates : gmap string ContractTemplate) (versions : gmap string TemplateVersion).

Definition set_templates t v (d : QuoteDb) : QuoteDb :=
  mkQuoteDb (qd_billing d) (qd_quotes d) (qd_blocks d) (qd_lines d) (qd_acceptances d) (qd_recipients d) (qd_counters d) t v (qd_next d).

(** A deleted invoice leaves the quote it came from without one. *)
Definition without_invoice (q : Quote) : Quote :=
  mkQuote (qt_partnerId q) (qt_orgId q) (qt_siteId q) (qt_quoteNumber q) (qt_title q) (qt_introNotes q) (qt_status q) (qt_currencyCode q) (qt_issueDate q)
    (qt_expiryDate q) (qt_taxRate q) (qt_money q) (qt_deposit q) (qt_parties q) (qt_marks q) (qt_link q) None
    (qt_revisionOfQuoteId q) (qt_revisionNumber q) (qt_createdBy q).

Definition unlink (b : Db) (q : Quote) : Quote :=
  match qt_convertedInvoiceId q with
  | Some i => if present (db_invoices b !! i) then q else without_invoice q
  | None => q
  end.

(** The foreign keys of a line to its device group and site, in its organization:
    when the row goes, the id is cleared and the name stays. *)
Definition unreferenced (b : Db) (l : QuoteLine) : QuoteLine := live_references (db_ref b) (ql_orgId l) l.

Definition billed_by (b : Db) (d : QuoteDb) : QuoteDb :=
  set_quotes (unlink b <$> qd_quotes d) (set_quoteLines (map (unreferenced b) (qd_lines d)) (set_billing b d)).

Section System.
Context `{Uuids}.
Variable resolver : DeviceGroup -> result string (list string * list string).

Definition qexec (o : QOp) : QuoteDb -> QuoteDb :=
  match o with
  | q_create now input a => after (createQuote now input a)
  | q_update i patch a => after (tx (updateQuote resolver i patch a))
  | q_delete i a => after (tx (deleteDraftQuote i a))
  | q_currency i cur clear reprice a => after (tx (changeQuoteCurrency i cur clear reprice a))
  | q_add_block i input a => after (tx (addBlock i input a))
  | q_update_block i b input a => after (tx (updateBlock i b input a))
  | q_delete_block i b a => after (tx (deleteBlock i b a))
  | q_order_blocks i ids a => after (tx (reorderBlocks i ids a))
  | q_add_line i input a => after (tx (addManualLine resolver i input a))
  | q_add_catalog_line i item n b a => after (tx (addCatalogLine i item n b a))
  | q_update_line i l patch a => after (tx (updateLine resolver i l patch a))
  | q_remove_line i l a => after (tx (removeLine i l a))
  | q_order_lines i b ids a => after (tx (reorderLines i b ids a))
  | q_move_line i l b a => after (tx (moveLineToBlock i l b a))
  | q_refresh_counts i a => after (tx (refreshQuoteDeviceCounts resolver i a))
  | q_clone now i a org title => after (cloneQuote resolver now i a org title)
  | q_revise now i a => after (reviseQuote resolver now i a)
  | q_send now i a emails billing jti rds => after (sendQuote now i a emails billing jti rds)
  | q_viewed now i org => after (tx (markQuoteViewed now i org))
  | q_decline now i reason a => after (tx (declineQuoteByActor now i reason a))
  | q_decline_public now i jti orgs reason => after (tx (declinePublicQuote now i jti orgs reason))
  | q_expire now => after (tx (expireQuotes now))
  | q_accept now params documents => after (acceptQuote now params documents)
  | q_templates t v => set_templates t v
  end.

(** The tables of a tenant before its first quote and invoice. *)
Record q_initial (d : QuoteDb) : Prop := {
  qi_billing : initial (qd_billing d); qi_quotes : qd_quotes d = ∅; qi_no_blocks : qd_blocks d = []; qi_no_lines : qd_lines d = [] }.

Record QWorld := mkQWorld { qw_db : QuoteDb; qw_offers : list PayLinkOffer }.

Definition qw_billing (w : QWorld) : World := mkWorld (qd_billing (qw_db w)) (qw_offers w).

Inductive q_steps : QWorld -> QWorld -> Prop :=
| step_quote o d os : q_steps (mkQWorld d os) (mkQWorld (qexec o d) os)
| step_billing d os b os' :
    step resolver (mkWorld (qd_billing d) os) (mkWorld b os') -> q_steps (mkQWorld d os) (mkQWorld (billed_by b d) os').

Inductive q_reach : QWorld -> Prop :=
| q_reach_initial d : q_initial d -> q_reach (mkQWorld d [])
| q_reach_step w w' : q_reach w -> q_steps w w' -> q_reach w'.

Definition q_reachable (d : QuoteDb) : Prop := exists os, q_reach (mkQWorld d os).

(** ** Only an acceptance writes to the billing tables *)

Class Apart {A} (x : QM A) : Prop := apart : forall d a d', x d = Ok (a, d') -> qd_billing d' = qd_billing d.
Class RunApart {A} (x : QRun A) : Prop := run_apart : forall d, qd_billing (after x d) = qd_billing d.

#[local] Instance ro_apart {A} (x : QM A) : ReadOnly x -> Apart x.
Proof. intros R d a d' E. apply R in E as ->. reflexivity. Qed.
#[local] Instance bind_apart {A B} (x : QM A) (k : A -> QM B) : Apart x -> (forall a, Apart (k a)) -> Apart (bind x k).
Proof. intros Hx Hk d b d' E. apply bind_ok in E as (a & d1 & G & E). rewrite (Hk a _ _ _ E). exact (Hx _ _ _ G). Qed.
#[local] Instance for_each_apart {A} (f : A -> QM unit) l : (forall a, Apart (f a)) -> Apart (for_each f l).
Proof. intros Hf. induction l as [|x l IH]; cbn [for_each]; apply _. Qed.
Lemma modify_apart f : (forall d, qd_billing (f d) = qd_billing d) -> Apart (modify f).
Proof. intros Hf d u d' E. apply modify_ok in E as ->. apply Hf. Qed.
#[local] Instance mint_apart : Apart q_mint.
Proof. intros d a d' [= _ <-]. reflexivity. Qed.
#[local] Instance update_quote_apart i f : Apart (update_quote i f).
Proof. apply modify_apart. reflexivity. Qed.
#[local] Instance update_lines_apart p f : Apart (update_lines p f).
Proof. apply modify_apart. reflexivity. Qed.
#[local] Instance update_blocks_apart p f : Apart (update_blocks p f).
Proof. apply modify_apart. reflexivity. Qed.
#[local] Instance delete_lines_apart p : Apart (delete_lines p).
Proof. apply modify_apart. reflexivity. Qed.

Ltac solve_apart :=
  repeat match goal with
  | |- Apart (match ?x with _ => _ end) => destruct x
  | |- Apart (let '(_, _) := ?x in _) => destruct x
  | |- Apart (if ?x then _ else _) => destruct x
  | |- Apart (bind _ _) => apply bind_apart; [|intros ?]
  | |- Apart (for_each _ _) => apply for_each_apart; intros ?
  | |- Apart (modify _) => apply modify_apart; reflexivity
  | |- Apart (lock_draft _ _ _) => apply ro_apart, lock_draft_ro
  | |- Apart _ => first [apply _|apply ro_apart; solve [solve_ro]]
  end.

#[local] Instance insert_block_apart b : Apart (insert_block b).
Proof. unfold insert_block. solve_apart. Qed.
#[local] Instance insert_line_apart l : Apart (insert_quote_line l).
Proof. unfold insert_quote_line. solve_apart. Qed.
#[local] Instance insert_quote_apart i q : Apart (insert_quote i q).
Proof. unfold insert_quote. solve_apart. Qed.
#[local] Instance delete_blocks_apart p : Apart (delete_blocks p).
Proof. unfold delete_blocks. solve_apart. Qed.
#[local] Instance recompute_apart i : Apart (recomputeAndPersist i).
Proof. unfold recomputeAndPersist. solve_apart. Qed.
#[local] Instance recount_apart i o c p : Apart (recount resolver i o c p).
Proof. unfold recount, persistQuoteDeviceSetQuantities, persist_count. cbv zeta. solve_apart. Qed.
#[local] Instance counter_apart p y : Apart (allocateQuoteCounter p y).
Proof. unfold allocateQuoteCounter. solve_apart. Qed.
#[local] Instance block_apart i o b : Apart (resolveLineBlockId i o b).
Proof. unfold resolveLineBlockId. solve_apart. Qed.
#[local] Instance update_if_apart i p f : Apart (update_quote_if i p f).
Proof. unfold update_quote_if. solve_apart. Qed.
#[local] Instance claim_apart now i q f jti p : Apart (applyQuoteSentClaim now i q f jti p).
Proof. unfold applyQuoteSentClaim. solve_apart. Qed.
#[local] Instance fresh_ids_apart old : Apart (fresh_ids old).
Proof. induction old as [|o old IH]; cbn [fresh_ids]; solve_apart. Qed.
#[local] Instance write_clone_apart src t oc n ti r rv a : Apart (write_clone resolver src t oc n ti r rv a).
Proof. unfold write_clone, fallback_block, clone_lines, cloneLineagePair. cbv zeta. solve_apart. Qed.

Lemma tx_apart {A} (x : QM A) : Apart x -> RunApart (tx x).
Proof. intros Hx d. unfold after, tx. destruct (x d) as [[a d']|e] eqn:E; cbn; [exact (Hx _ _ _ E)|reflexivity]. Qed.
Lemma run_then_apart {A B} (x : QRun A) (k : A -> QRun B) : RunApart x -> (forall a, RunApart (k a)) -> RunApart (then_run x k).
Proof.
  intros Hx Hk d. specialize (Hx d). unfold after, then_run in *. destruct (x d) as [[a|e] d1]; [|exact Hx]. specialize (Hk a d1). unfold after in Hk. rewrite Hk. exact Hx.
Qed.
Lemma done_apart {A} (a : A) : RunApart (done a).
Proof. intros d. reflexivity. Qed.

Ltac solve_run_apart :=
  repeat match goal with
  | |- RunApart (match ?x with _ => _ end) => destruct x
  | |- RunApart (let '(_, _) := ?x in _) => destruct x
  | |- RunApart (then_run _ _) => apply run_then_apart; [|intros ?]
  | |- RunApart (done _) => apply done_apart
  | |- RunApart (tx _) => apply tx_apart
  | |- RunApart _ => apply _
  | |- Apart _ => progress solve_apart
  end.

Lemma claim_number_apart now q : RunApart (claim_number now q).
Proof. unfold claim_number. cbv zeta. solve_run_apart. Qed.
Lemma clone_core_apart now i a org title rv : RunApart (cloneQuoteCore resolver now i a org title rv).
Proof.
  unfold cloneQuoteCore, clone_source. cbv zeta. solve_run_apart.
Qed.

Definition is_accept (o : QOp) : bool := match o with q_accept _ _ _ => true | _ => false end.

Lemma qexec_apart o d : is_accept o = false -> qd_billing (qexec o d) = qd_billing d.
Proof.
  intros Ho. destruct o; try discriminate Ho; cbn [qexec]; try reflexivity;
    match goal with |- qd_billing (after ?x d) = _ => enough (RunApart x) as R by apply R end.
  - unfold createQuote. cbv zeta. solve_run_apart.
  - apply tx_apart. unfold updateQuote, loadDraft, move_children. cbv zeta. solve_apart.
  - apply tx_apart. unfold deleteDraftQuote, loadDraft. solve_apart.
  - apply tx_apart. unfold changeQuoteCurrency, lockDraftQuote, repriceQuoteCatalogLines, reprice_quote_line. solve_apart.
  - apply tx_apart. unfold addBlock, loadDraft. solve_apart.
  - apply tx_apart. unfold updateBlock, loadDraft. solve_apart.
  - apply tx_apart. unfold deleteBlock, lockDraftQuote. solve_apart.
  - apply tx_apart. unfold reorderBlocks, loadDraft. solve_apart.
  - apply tx_apart. unfold addManualLine, lockDraftQuote, assertQuoteGroupInOrg, assertQuoteSiteInOrg. cbv zeta. solve_apart.
  - apply tx_apart. unfold addCatalogLine, lockDraftQuote. cbv zeta. solve_apart.
  - apply tx_apart. unfold updateLine, lockDraftQuote, quote_update_line. cbv zeta. solve_apart.
  - apply tx_apart. unfold removeLine, lockDraftQuote. solve_apart.
  - apply tx_apart. unfold reorderLines, loadDraft. solve_apart.
  - apply tx_apart. unfold moveLineToBlock, loadDraft. solve_apart.
  - apply tx_apart. unfold refreshQuoteDeviceCounts. solve_apart.
  - apply clone_core_apart.
  - unfold reviseQuote. apply run_then_apart; [apply tx_apart; unfold revision_of, resolveQuoteLineageRoot; cbv zeta; solve_apart|].
    intros rv e. pose proof (clone_core_apart now id actor None None (Some rv) e) as X. unfold after, catch in *.
    destruct (cloneQuoteCore _ _ _ _ _ _ _ e) as [[r|[c|x]] d2]; try exact X. destruct (String.eqb x _); exact X.
  - unfold sendQuote. solve_run_apart. all: try apply claim_number_apart. all: unfold freezeQuoteSentSnapshot, resolveParentToSupersede, assertQuoteSendGates, insert_recipients; cbv zeta; solve_apart.
  - apply tx_apart. unfold markQuoteViewed. solve_apart.
  - apply tx_apart. unfold declineQuoteByActor. cbv zeta. solve_apart.
  - apply tx_apart. unfold declinePublicQuote. solve_apart.
  - apply tx_apart. unfold expireQuotes. solve_apart.
Qed.

(** ** Every step keeps the quote tables *)

Lemma qexec_kept o d : Quotes None d -> kept d (qexec o d).
Proof.
  intros Q. destruct o; cbn [qexec].
  - apply createQuote_keeps, Q.
  - apply tx_qkeeps; [apply updateQuote_tx|exact Q].
  - apply tx_qkeeps; [apply deleteDraftQuote_tx|exact Q].
  - apply tx_qkeeps; [apply changeQuoteCurrency_tx|exact Q].
  - apply tx_qkeeps; [apply addBlock_tx|exact Q].
  - apply tx_qkeeps; [apply updateBlock_tx|exact Q].
  - apply tx_qkeeps; [apply deleteBlock_tx|exact Q].
  - apply tx_qkeeps; [apply reorderBlocks_tx|exact Q].
  - apply tx_qkeeps; [apply addManualLine_tx|exact Q].
  - apply tx_qkeeps; [apply addCatalogLine_tx|exact Q].
  - apply tx_qkeeps; [apply updateLine_tx|exact Q].
  - apply tx_qkeeps; [apply removeLine_tx|exact Q].
  - apply tx_qkeeps; [apply reorderLines_tx|exact Q].
  - apply tx_qkeeps; [apply moveLineToBlock_tx|exact Q].
  - apply tx_qkeeps; [apply refreshQuoteDeviceCounts_tx|exact Q].
  - apply cloneQuote_keeps, Q.
  - apply reviseQuote_keeps, Q.
  - apply sendQuote_keeps, Q.
  - apply tx_qkeeps; [apply markQuoteViewed_tx|exact Q].
  - apply tx_qkeeps; [apply declineQuoteByActor_tx|exact Q].
  - apply tx_qkeeps; [apply declinePublicQuote_tx|exact Q].
  - apply tx_qkeeps; [apply expireQuotes_tx|exact Q].
  - apply acceptQuote_keeps, Q.
  - apply kept_frame; [exact Q|]. repeat split.
Qed.

Lemma unlink_row b q :
  let q' := unlink b q in
  document q' = document q /\ qt_status q' = qt_status q /\ qt_orgId q' = qt_orgId q /\ qt_taxRate q' = qt_taxRate q /\ qt_deposit q' = qt_deposit q /\
  qt_currencyCode q' = qt_currencyCode q /\ qt_money q' = qt_money q /\ qt_revisionOfQuoteId q' = qt_revisionOfQuoteId q /\
  qt_revisionNumber q' = qt_revisionNumber q /\ (qt_convertedInvoiceId q' = qt_convertedInvoiceId q \/ qt_convertedInvoiceId q' = None).
Proof. cbv zeta. unfold unlink. destruct (qt_convertedInvoiceId q) as [i|] eqn:E; [destruct (present _)|]; cbn; auto 12. Qed.

Lemma unlink_header b q : header_ok q -> header_ok (unlink b q).
Proof.
  intros [Hr Hc]. destruct (unlink_row b q) as (_ & E1 & _ & E2 & _ & _ & _ & _ & _ & E3). split; [rewrite E2; exact Hr|]. rewrite E1. intros X. apply Hc. destruct E3; congruence.
Qed.

Lemma unlink_lineage b qs : lineage qs -> lineage (unlink b <$> qs).
Proof.
  intros [P O R N].
  assert (Hback : forall i q', (unlink b <$> qs) !! i = Some q' -> exists q, qs !! i = Some q /\ qt_orgId q' = qt_orgId q /\ qt_status q' = qt_status q /\
    qt_revisionOfQuoteId q' = qt_revisionOfQuoteId q /\ qt_revisionNumber q' = qt_revisionNumber q).
  { intros i q' Hi. rewrite lookup_fmap in Hi. destruct (qs !! i) as [q|]; [|discriminate Hi]. injection Hi as <-. exists q. destruct (unlink_row b q) as (_ & E1 & E2 & _ & _ & _ & _ & E3 & E4 & _). auto. }
  constructor.
  - intros i q' p Hi Hp. destruct (Hback _ _ Hi) as (q & Hq & E1 & E2 & E3 & E4). destruct (P i q p Hq ltac:(congruence)) as (r & Hr & X1 & X2 & X3 & X4).
    exists (unlink b r). rewrite lookup_fmap, Hr. destruct (unlink_row b r) as (_ & F1 & F2 & _ & _ & _ & _ & _ & F4 & _). split; [reflexivity|]. rewrite F1, F2, F4, E1, E2, E4. auto.
  - intros i j q' r' p Hi Hj Hp Hp'. destruct (Hback _ _ Hi) as (q & Hq & _ & _ & E3 & _). destruct (Hback _ _ Hj) as (r & Hr & _ & _ & F3 & _). apply (O i j q r p); congruence.
  - intros i q' Hi Hp. destruct (Hback _ _ Hi) as (q & Hq & _ & _ & E3 & E4). rewrite E4. apply (R i); congruence.
  - intros i q' Hi. destruct (Hback _ _ Hi) as (q & Hq & _ & _ & E3 & _). rewrite E3. exact (N _ _ Hq).
Qed.

Lemma live_line ref o l : ql_math (live_references ref o l) = ql_math l.
Proof. unfold live_references. cbv zeta. destruct (ds_contractLineType _); reflexivity. Qed.

Lemma unreferenced_line b l : let l' := unreferenced b l in
  ql_id l' = ql_id l /\ ql_quoteId l' = ql_quoteId l /\ ql_orgId l' = ql_orgId l /\ ql_parentLineId l' = ql_parentLineId l /\
  ql_blockId l' = ql_blockId l /\ ql_math l' = ql_math l /\ printed l' = printed l.
Proof. cbv zeta. unfold unreferenced, live_references. cbv zeta. destruct (ds_contractLineType (ql_set l)) eqn:E; [|auto 8]. repeat split. unfold printed. cbn. rewrite E. reflexivity. Qed.

(** A cleared id passes the check of the table. *)
Lemma unreferenced_row b l : row_ok l -> row_ok (unreferenced b l).
Proof.
  intros [D M]. unfold unreferenced, live_references. cbv zeta. destruct (ql_set l) as [t roles g gn s sn a] eqn:Es. cbn [ds_contractLineType].
  destruct t as [t|]; [|split; assumption]. split; [|exact M]. unfold device_set_ok in *. rewrite Es in D.
  cbn [ql_set ql_math ql_parentLineId with_line_org ds_contractLineType ds_deviceRoles ds_deviceGroupId ds_deviceGroupName ds_siteId ds_siteName ds_allowance] in *.
  assert (K : forall (f : string -> bool) (x : option string), present (match truthy x with Some i => if f i then x else None | None => x end) = true -> present x = true).
  { intros f x. destruct (truthy x) as [i|]; [destruct (f i); [auto|discriminate]|auto]. }
  rewrite !andb_true_iff in *. repeat match goal with H : _ /\ _ |- _ => destruct H end. repeat split; try assumption.
  all: match goal with |- negb (present (match truthy ?x with _ => _ end)) || ?c = true =>
    match goal with H : negb (present x) || c = true |- _ => apply orb_true_iff; apply orb_true_iff in H as [H|H]; [left|right; exact H];
      apply negb_true_iff; apply negb_true_iff in H; apply not_true_iff_false; intros F; apply K in F; congruence end end.
Qed.

Lemma clear_kept b d : Quotes None d -> kept d (set_quoteLines (map (unreferenced b) (qd_lines d)) d).
Proof.
  intros [A B C E F G T].
  assert (Hf : forall i, quote_lines_of i (set_quoteLines (map (unreferenced b) (qd_lines d)) d) = map (unreferenced b) (quote_lines_of i d)).
  { intros i. unfold quote_lines_of. cbn. apply filter_map_keep. intros l _. destruct (unreferenced_line b l) as (_ & -> & _). reflexivity. }
  split.
  - constructor; try assumption.
    + cbn. rewrite map_map, (map_ext _ ql_id); [exact A|]. intros l. apply unreferenced_line.
    + cbn. intros l Hl. apply in_map_iff in Hl as (x & <- & Hx). destruct (unreferenced_line b x) as (E1 & E2 & E3 & E4 & E5 & _).
      destruct (C x Hx) as (H1 & H2 & H3 & H4). unfold line_ok. cbn. rewrite E2, E3, E4, E5. split; [exact H1|]. split; [exact H2|]. split; [apply unreferenced_row, H3|exact H4].
    + intros i q Hi Hq. assert (Em : maths i (set_quoteLines (map (unreferenced b) (qd_lines d)) d) = maths i d).
      { unfold maths. rewrite Hf, map_map. apply map_ext. intros l. apply unreferenced_line. }
      rewrite Em. exact (T _ _ Hi Hq).
  - intros i q Hq Hs. exists q. split; [exact Hq|]. split; [apply same_document_refl, Hs|]. unfold printed_lines. rewrite Hf, map_map.
    apply map_ext. intros l. apply unreferenced_line.
Qed.

Lemma billed_kept b d : Quotes None d -> kept d (billed_by b d).
Proof.
  intros Q. unfold billed_by. pose proof (frame None d (set_billing b d) ltac:(repeat split) Q) as Q0. destruct (clear_kept b _ Q0) as [Q1 V1].
  change (qd_quotes d) with (qd_quotes (set_quoteLines (map (unreferenced b) (qd_lines d)) (set_billing b d))).
  change (qd_lines d) with (qd_lines (set_billing b d)). set (e := set_quoteLines (map (unreferenced b) (qd_lines (set_billing b d))) (set_billing b d)) in *.
  apply (kept_after _ e); [etransitivity; [apply (frame_evolves d (set_billing b d)); repeat split|exact V1]|]. clear Q Q0 V1. rename Q1 into Q. split.
  - apply quotes_write; [exact Q| | |apply unlink_lineage, Q].
    + intros i q Hq. exists (unlink b q). rewrite lookup_fmap, Hq. split; [reflexivity|apply unlink_row].
    + intros i q' Hi. rewrite lookup_fmap in Hi. destruct (qd_quotes e !! i) as [q|] eqn:Hq; [|discriminate Hi]. injection Hi as <-.
      split; [apply unlink_header, (qi_headers _ _ Q _ _ Hq)|]. exists q. destruct (unlink_row b q) as (_ & _ & _ & E1 & E2 & E3 & E4 & _). auto.
  - intros i q Hq Hs. exists (unlink b q). cbn. rewrite lookup_fmap. change (qd_quotes d !! i = Some q) in Hq. rewrite Hq. split; [reflexivity|]. split; [|reflexivity].
    destruct (unlink_row b q) as (E1 & E2 & _ & _ & _ & _ & _ & _ & _ & E3). split; [exact E1|]. split; [congruence|]. auto.
Qed.

Lemma q_steps_kept w w' : q_steps w w' -> Quotes None (qw_db w) -> kept (qw_db w) (qw_db w').
Proof. intros St Q. destruct St; cbn in *; [apply qexec_kept, Q|apply billed_kept, Q]. Qed.

Lemma q_initial_Quotes d : q_initial d -> Quotes None d.
Proof.
  intros [_ Eq Eb El]. assert (forall i q, qd_quotes d !! i = Some q -> False) as Hn by (intros i q; rewrite Eq, lookup_empty; discriminate).
  constructor; rewrite ?Eb, ?El.
  - constructor.
  - constructor.
  - intros l [].
  - intros b [].
  - intros i q Hq. destruct (Hn _ _ Hq).
  - constructor; intros; exfalso; eauto.
  - intros i q _ Hq. destruct (Hn _ _ Hq).
Qed.

Lemma q_reach_Quotes w : q_reach w -> Quotes None (qw_db w).
Proof. induction 1 as [d Hi|w w' _ Q St]; [apply q_initial_Quotes, Hi|]. apply (q_steps_kept _ _ St Q). Qed.

Lemma q_reachable_Quotes d : q_reachable d -> Quotes None d.
Proof. intros [os R]. exact (q_reach_Quotes _ R). Qed.

Lemma steps_Quotes w w' : q_reach w -> rtc q_steps w w' -> Quotes None (qw_db w').
Proof. intros R St. induction St as [w|w w1 w2 S1 _ IH]; [exact (q_reach_Quotes _ R)|]. exact (IH (q_reach_step _ _ R S1)). Qed.

Lemma kept_steps w w' : q_reach w -> rtc q_steps w w' -> evolves (qw_db w) (qw_db w').
Proof.
  intros R St. induction St as [w|w w1 w2 S1 _ IH]; [reflexivity|]. etransitivity; [|exact (IH (q_reach_step _ _ R S1))].
  apply (q_steps_kept _ _ S1), q_reach_Quotes, R.
Qed.

(** ** The billing system behind *)

(** An acceptance is a conversion, or nothing. *)
Lemma accept_billing now params docs d :
  Quotes None d -> let b := qd_billing (qexec (q_accept now params docs) d) in b = qd_billing d \/ exists o, b = exec resolver o (qd_billing d).
Proof.
  intros Q. cbn [qexec]. unfold after. destruct (acceptQuote now params docs d) as [res d'] eqn:E. cbn [snd].
  destruct (accept_cases _ _ _ _ _ _ Q E) as [(_ & _ & _ & B)|(q0 & d1 & r & _ & _ & _ & _ & B1 & _ & q & loc & Hc & _)]; [left; exact B|]. right.
  exists (do_convert now (ap_quoteId params) q (map (live_references (db_ref (qd_billing d1)) (qt_orgId q0)) (lines_in_order (ap_quoteId params) d1)) loc (ap_actorUserId params)).
  cbn [exec]. unfold commit. rewrite <- B1, Hc. reflexivity.
Qed.

Lemma q_steps_billing w w' : q_steps w w' -> Quotes None (qw_db w) -> qw_billing w' = qw_billing w \/ step resolver (qw_billing w) (qw_billing w').
Proof.
  intros St Q. destruct St as [o d os|d os b os' St]; cbn in *; [|right; exact St]. unfold qw_billing. cbn.
  destruct (is_accept o) eqn:Ea; [|left; rewrite qexec_apart by exact Ea; reflexivity]. destruct o; try discriminate Ea.
  destruct (accept_billing now params documents d Q) as [E|[o E]]; rewrite E; [left; reflexivity|right; apply step_op].
Qed.

Lemma q_reach_billing w : q_reach w -> reach resolver (qw_billing w).
Proof.
  intros R. induction R as [d Hi|w w' R IH St]; [apply reach_initial, Hi|].
  destruct (q_steps_billing _ _ St (q_reach_Quotes _ R)) as [->|S']; [exact IH|exact (reach_step _ _ _ IH S')].
Qed.

Lemma q_reachable_billing d : q_reachable d -> reachable resolver (qd_billing d).
Proof. intros [os R]. exists os. exact (q_reach_billing _ R). Qed.
End System.

(** ** What every reachable state satisfies *)

(** C31: The quote tables are well formed in every reachable state: ids are
    unique; a line belongs to a stored quote of its organization, is below no
    other line, names a stored block when it names one, has a device set its
    table accepts and amounts of two decimals; a block belongs to a stored quote
    of its organization; a stored tax rate has five decimals and is below 1000;
    only a converted quote names an invoice. *)
Theorem quote_rows_well_formed `{Uuids} resolver d :
  q_reachable resolver d ->
  List.NoDup (map ql_id (qd_lines d)) /\ List.NoDup (map qb_id (qd_blocks d)) /\
  (forall l, In l (qd_lines d) ->
     (exists q, qd_quotes d !! ql_quoteId l = Some q /\ ql_orgId l = qt_orgId q) /\ ql_parentLineId l = None /\ device_set_ok l = true /\
     (forall b, ql_blockId l = Some b -> In b (map qb_id (qd_blocks d))) /\
     exists n u, quantity (ql_math l) = fixed2 n /\ unitPrice (ql_math l) = fixed2 u /\ Z.abs n < column_bound /\ Z.abs u < column_bound) /\
  (forall b, In b (qd_blocks d) -> exists q, qd_quotes d !! qb_quoteId b = Some q /\ qb_orgId b = qt_orgId q) /\
  (forall i q, qd_quotes d !! i = Some q ->
     (forall r, qt_taxRate q = Some r -> exists ng m, 0 <= m < 10 ^ 8 /\ r = rate_text ng m) /\
     (qt_convertedInvoiceId q <> None -> qt_status q = qs_converted)).
Proof.
  intros R. pose proof (q_reachable_Quotes _ _ R) as Q. split; [apply Q|]. split; [apply Q|]. split; [|split; [apply Q|]].
  - intros l Hl. destruct (qi_lines _ _ Q l Hl) as (A & B & [C M] & D). repeat (split; [assumption|]).
    apply store_math_inv in M as (M1 & M2 & _). apply pg_numeric_money in M1 as (n & -> & Hn), M2 as (u & -> & Hu). eauto 8.
  - intros i q Hq. destruct (qi_headers _ _ Q _ _ Hq) as [Hr Hc]. split; [|exact Hc]. intros r Er. apply Hr, pg_rate_text in Er as (ng & m & Hm & _ & E). eauto.
Qed.

Lemma with_stored_same q m a : m = qt_money q -> a = dp_amount (qt_deposit q) -> with_stored_totals (m, a) q = q.
Proof. intros -> ->. destruct q as [? ? ? ? ? ? ? ? ? ? ? ? [? ? ?]]. reflexivity. Qed.

(** C21: Stored totals are current in every reachable state: the header of every
    quote, drafted or sent, carries the totals and the deposit of its stored
    lines at its rate and currency, and recomputing them changes nothing. *)
Theorem quote_totals_current `{Uuids} resolver d i q :
  q_reachable resolver d -> qd_quotes d !! i = Some q ->
  (exists t, quote_totals q (quote_lines_of i d) = Ok t /\ stored_totals t = Ok (qt_money q, dp_amount (qt_deposit q))) /\
  recomputeAndPersist i d = Ok (tt, d).
Proof.
  intros R Hq. pose proof (q_reachable_Quotes _ _ R) as Q. destruct (qi_totals _ _ Q i q ltac:(discriminate) Hq) as (t & Et & Es).
  split; [exists t; auto|]. unfold recomputeAndPersist, bind, read. rewrite Hq. unfold lift_throw, quote_totals.
  change (map ql_math (quote_lines_of i d)) with (maths i d). rewrite Et. unfold lift. rewrite Es. unfold update_quote, modify.
  cbn [rbind]. rewrite (alter_insert_row _ _ q) by exact Hq. rewrite with_stored_same by reflexivity. rewrite insert_id by exact Hq. destruct d. reflexivity.
Qed.

(** What the customer was shown of the header. *)
Definition shown (q : Quote) :=
  (qt_quoteNumber q, qt_currencyCode q, qt_taxRate q, qt_money q, qt_deposit q, qt_parties q, (qt_revisionOfQuoteId q, qt_revisionNumber q)).

(** C23: What a customer was sent stays: from the moment a quote leaves the draft
    state, however the system runs on, its number, currency, rate, totals,
    deposit, frozen parties and revision never change, nor does anything its
    lines print: their texts, quantities, prices, terms, device sets with the
    stamped names of group and site, and allowances, in their order. It is never a
    draft again, and a converted or superseded quote stays so. The ids behind the
    stamped names are cleared when a device group or a site is deleted, and a line
    may lose its block; merging one organization into another, which moves a quote
    to the other, and erasing one are not steps of the system. *)
Theorem sent_quote_kept `{Uuids} resolver w w' i q :
  q_reach resolver w -> rtc (q_steps resolver) w w' ->
  qd_quotes (qw_db w) !! i = Some q -> qt_status q <> qs_draft ->
  exists q', qd_quotes (qw_db w') !! i = Some q' /\ shown q' = shown q /\
    map printed (quote_lines_of i (qw_db w')) = map printed (quote_lines_of i (qw_db w)) /\ qt_status q' <> qs_draft /\
    (qt_status q = qs_converted \/ qt_status q = qs_superseded -> qt_status q' = qt_status q).
Proof.
  intros R St Hq Hs. destruct (kept_steps _ _ _ R St i q Hq Hs) as (q' & Hq' & (Hd & Hn & Ht) & Hr). exists q'. split; [exact Hq'|].
  split; [unfold document, shown in *; congruence|]. split; [exact Hr|]. split; [exact Hn|].
  intros Hc. apply Ht. unfold settled. destruct Hc as [-> | ->]; reflexivity.
Qed.

(** *** Revisions *)

Definition revises (qs : gmap string Quote) (j i : string) : Prop := exists q, qs !! j = Some q /\ qt_revisionOfQuoteId q = Some i.

(** A quote and its revisions: those with a common ancestor. *)
Definition one_lineage (qs : gmap string Quote) (i j : string) : Prop := exists r, rtc (revises qs) i r /\ rtc (revises qs) j r.

Lemma lineage_linear qs i j r : lineage qs -> rtc (revises qs) i r -> rtc (revises qs) j r -> rtc (revises qs) i j \/ rtc (revises qs) j i.
Proof.
  intros L Hi Hj. induction Hi as [i|i p r Hp _ IH]; [right; exact Hj|]. destruct (IH Hj) as [H|H]; [left; exact (rtc_l _ _ _ _ Hp H)|].
  apply rtc_inv_r in H as [->|(k & Hk & Hkp)]; [left; apply rtc_once, Hp|]. right.
  destruct Hp as (q & Hq & Eq), Hkp as (x & Hx & Ex). assert (i = k) as -> by exact (lg_one _ L _ _ _ _ _ Hq Hx Eq Ex). exact Hk.
Qed.

(** A revised quote is not a draft, and is superseded unless its revision is one. *)
Lemma revised qs j i r : lineage qs -> rtc (revises qs) j i -> j <> i -> qs !! i = Some r ->
  qt_status r <> qs_draft /\ exists k x, rtc (revises qs) j k /\ qs !! k = Some x /\ (qt_status x <> qs_draft -> qt_status r = qs_superseded).
Proof.
  intros L H Hne Hr. apply rtc_inv_r in H as [->|(k & Hk & x & Hx & Ex)]; [congruence|].
  destruct (lg_parent _ L _ _ _ Hx Ex) as (r' & Hr' & _ & Hd & _ & Hs). assert (r' = r) as -> by congruence. split; [exact Hd|]. exists k, x. auto.
Qed.

Lemma revised_superseded qs j i q r :
  lineage qs -> rtc (revises qs) j i -> j <> i -> qs !! j = Some q -> qs !! i = Some r -> qt_status q <> qs_draft -> qt_status r = qs_superseded.
Proof.
  intros L H Hne Hj Hi Hq. destruct (revised _ _ _ _ L H Hne Hi) as (_ & k & x & Hk & Hx & Hs). apply Hs.
  destruct (decide (j = k)) as [->|Hjk]; [congruence|]. apply (revised _ _ _ _ L Hk Hjk Hx).
Qed.

Lemma revising_draft qs j i q r :
  lineage qs -> rtc (revises qs) j i -> j <> i -> qs !! j = Some q -> qs !! i = Some r -> qt_status r = qs_converted -> qt_status q = qs_draft.
Proof.
  intros L H Hne Hj Hi Hr. destruct (decide (qt_status q = qs_draft)) as [|Hq]; [assumption|].
  rewrite (revised_superseded _ _ _ _ _ L H Hne Hj Hi Hq) in Hr. discriminate.
Qed.

(** C22: A quote and all its revisions are converted at most once: in every
    reachable state, when one quote of a lineage is converted, every other is
    superseded or is the draft of a next revision, which can then not be sent. *)
Theorem lineage_converted_once `{Uuids} resolver d i j q r :
  q_reachable resolver d -> one_lineage (qd_quotes d) i j ->
  qd_quotes d !! i = Some q -> qd_quotes d !! j = Some r -> qt_status q = qs_converted -> i <> j ->
  qt_status r = qs_superseded \/ (qt_status r = qs_draft /\ qt_revisionOfQuoteId r = Some i /\
    resolveParentToSupersede r d = Err (Refused PARENT_CONVERTED)).
Proof.
  intros R (root & Hi & Hj) Hq Hr Hs Hne. pose proof (qi_lineage _ _ (q_reachable_Quotes _ _ R)) as L.
  destruct (lineage_linear _ _ _ _ L Hi Hj) as [Hij|Hji].
  - left. apply (revised_superseded _ _ _ _ _ L Hij Hne Hq Hr). congruence.
  - right. assert (qt_status r = qs_draft) as Hd by exact (revising_draft _ _ _ _ _ L Hji ltac:(congruence) Hr Hq Hs). split; [exact Hd|].
    assert (qt_revisionOfQuoteId r = Some i) as Hp.
    { apply rtc_inv in Hji as [->|(k & (x & Hx & Ex) & Hk)]; [congruence|]. assert (x = r) as -> by congruence.
      destruct (lg_parent _ L _ _ _ Hr Ex) as (y & Hy & _ & Hyd & _). destruct (decide (k = i)) as [->|Hki]; [exact Ex|].
      destruct (Hyd (revising_draft _ _ _ _ _ L Hk Hki Hy Hq Hs)). }
    split; [exact Hp|]. unfold resolveParentToSupersede. destruct (lg_parent _ L _ _ _ Hr Hp) as (y & Hy & Ho & _). assert (y = q) as -> by congruence.
    pose proof (lg_named _ L _ _ Hr) as Hn. rewrite Hp. unfold truthy. destruct (String.eqb_spec i ""); [congruence|]. unfold bind, read. rewrite Hq, Ho, String.eqb_refl, Hs. reflexivity.
Qed.

(** ** A run of the system *)

Definition sample_tables : QuoteDb := mkQuoteDb (empty_db sample_ref) ∅ [] [] [] [] ∅ ∅ ∅ 0.

Definition plain_line (price : Z) (r : Recurrence) : QuoteLineInput :=
  mkLineInput qsrc_manual None None (Some "Workstation") None (Some (ofZ 3)) (ofZ price) true true r None None None false None None None None None None None.

Definition quarter_deposit : QuotePatch :=
  mkQuotePatch None None None None None None None None None (Some ty_percent) (Some (Some (ofZ 25))).

Definition customer (id : string) : AcceptQuoteParams := mkAccept id "Ada" None None None or_customer None None [].

(** A quote is drafted, priced, sent and revised; its revision is sent and
    accepted by the customer. *)
Definition sent_ops : list QOp :=
  [q_create (noon "2026-03-02") (mkCreateQuote "org" None (Some "Refresh") None None None None None) sample_actor;
   q_add_line "0" (plain_line 100 one_time) sample_actor;
   q_add_line "0" (plain_line 50 monthly) sample_actor;
   q_update "0" quarter_deposit sample_actor;
   q_send (noon "2026-03-02") "0" sample_actor [] None "token" [];
   q_revise (noon "2026-03-03") "0" sample_actor;
   q_send (noon "2026-03-03") "4" sample_actor [] None "token-2" []].
Definition accept_op : QOp := q_accept (noon "2026-03-04") (customer "4") (Ok tt).

Definition run_ops (ops : list QOp) (d : QuoteDb) : QuoteDb := fold_left (fun d o => qexec no_groups o d) ops d.

Definition sent_tables : QuoteDb := run_ops sent_ops sample_tables.
Definition accepted_tables : QuoteDb := run_ops (sent_ops ++ [accept_op]) sample_tables.

Lemma ops_rtc ops : forall d, rtc (q_steps no_groups) (mkQWorld d []) (mkQWorld (run_ops ops d) []).
Proof. induction ops as [|o ops IH]; intros d; [reflexivity|]. exact (rtc_l _ _ _ _ (step_quote no_groups o d []) (IH _)). Qed.

Lemma rtc_reach w w' : q_reach no_groups w -> rtc (q_steps no_groups) w w' -> q_reach no_groups w'.
Proof. intros R St. induction St as [|w w1 w2 S1 _ IH]; [exact R|]. exact (IH (q_reach_step _ _ _ R S1)). Qed.

Lemma sample_initial : q_initial sample_tables.
Proof. constructor; try reflexivity. constructor; try reflexivity; [constructor..| |constructor|intros l []]. intros cid c Hc. cbn in Hc. rewrite lookup_empty in Hc. discriminate. Qed.

Lemma sample_reach ops : q_reach no_groups (mkQWorld (run_ops ops sample_tables) []).
Proof. exact (rtc_reach _ _ (q_reach_initial _ _ sample_initial) (ops_rtc ops sample_tables)). Qed.

Lemma sample_q_reachable ops : q_reachable no_groups (run_ops ops sample_tables).
Proof. exists []. apply sample_reach. Qed.

Lemma quote_rows_well_formed_witness :
  List.NoDup (map ql_id (qd_lines sent_tables)) /\ map ql_quoteId (qd_lines sent_tables) = ["0"; "0"; "4"; "4"].
Proof. split; [exact (proj1 (quote_rows_well_formed no_groups _ (sample_q_reachable sent_ops)))|vm_compute; reflexivity]. Defined.

Lemma quote_totals_current_witness :
  recomputeAndPersist "4" sent_tables = Ok (tt, sent_tables) /\ option_map (fun q => qh_total (qt_money q)) (qd_quotes sent_tables !! "4") = Some "487.13".
Proof.
  assert (E : option_map (fun q => qh_total (qt_money q)) (qd_quotes sent_tables !! "4") = Some "487.13") by (vm_compute; reflexivity). split; [|exact E].
  destruct (qd_quotes sent_tables !! "4") as [q|] eqn:Hq; [|discriminate E]. exact (proj2 (quote_totals_current no_groups _ _ _ (sample_q_reachable sent_ops) Hq)).
Defined.

Lemma sent_quote_kept_witness :
  exists q q', qd_quotes sent_tables !! "0" = Some q /\ qt_status q = qs_superseded /\
    qd_quotes accepted_tables !! "0" = Some q' /\ qt_status q' = qs_superseded /\ shown q' = shown q.
Proof.
  assert (E : option_map qt_status (qd_quotes sent_tables !! "0") = Some qs_superseded) by (vm_compute; reflexivity).
  destruct (qd_quotes sent_tables !! "0") as [q|] eqn:Hq; [|discriminate E]. injection E as E. exists q.
  destruct (sent_quote_kept no_groups (mkQWorld sent_tables []) (mkQWorld (run_ops [accept_op] sent_tables) []) "0" q (sample_reach sent_ops)
    (ops_rtc [accept_op] sent_tables) Hq ltac:(congruence)) as (q' & Hq' & Hd & _ & _ & Hs).
  exists q'. split; [reflexivity|]. split; [exact E|]. split; [exact Hq'|]. split; [|exact Hd]. rewrite (Hs (or_intror E)). exact E.
Defined.

Lemma lineage_converted_once_witness :
  exists q r, qd_quotes accepted_tables !! "4" = Some q /\ qt_status q = qs_converted /\ qd_quotes accepted_tables !! "0" = Some r /\ qt_status r = qs_superseded.
Proof.
  assert (Eq : option_map (fun q => (qt_status q, qt_revisionOfQuoteId q)) (qd_quotes accepted_tables !! "4") = Some (qs_converted, Some "0")) by (vm_compute; reflexivity).
  assert (Er : option_map qt_revisionOfQuoteId (qd_quotes accepted_tables !! "0") = Some None) by (vm_compute; reflexivity).
  destruct (qd_quotes accepted_tables !! "4") as [q|] eqn:Hq; [|discriminate Eq]. injection Eq as Es Ep.
  destruct (qd_quotes accepted_tables !! "0") as [r|] eqn:Hr; [|discriminate Er]. injection Er as Er. exists q, r.
  destruct (lineage_converted_once no_groups accepted_tables "4" "0" q r (sample_q_reachable (sent_ops ++ [accept_op]))) as [X|(_ & X & _)]; try assumption; [|discriminate|auto|congruence].
  exists "0". split; [apply rtc_once; exists q; auto|reflexivity].
Defined.
