(* ===== verification/QuoteAcceptance.v ===== *)
(** * What an acceptance bills

    The invoice an acceptance issues is for the amount the quote said is due on
    acceptance, although the two are computed by different code from different
    rows: the quote sums the one-time lines and their tax in one pass over all its
    lines, the invoice stores each line's total and adds the stored texts. *)

From Stdlib Require Import QArith.
From S2P Require Import Prelude JsString JsNumber Currency IsoDate QuoteMath QuoteSpec InvoiceMath ContractMath TimeBilling CatalogPricing ContractCoverage BillingDb InvoiceService InvoiceLifecycle InvoiceInvariants InvoiceSafety ContractService QuoteDb QuoteConversion QuoteService QuoteLifecycle RateColumn QuoteInvariants QuoteOperations QuoteLife ContractProperties BillingSteps QuoteSafety BillingSystem QuoteSystem.
From stdpp Require Import base gmap strings list.

Local Open Scope string_scope.
Local Open Scope Z_scope.
Local Open Scope billing_scope.

(** ** The amount due on acceptance *)

(** The one-time lines of a quote and their tax, in cents. *)
Definition due_cents (lcs : list (QuoteLineForMath * Z)) (r : Q) : Z :=
  sum_where (is_rec one_time) lcs + tax_int (sum_where (fun l => taxable l && is_rec one_time l) lcs) r.

Lemma due_exact cur ms lcs rate r dep t :
  lines_are cur ms lcs -> total_abs lcs <= doc_bound -> rate_is rate r ->
  computeQuoteTotals ms rate dep cur = Ok t -> dueOnAcceptanceTotal t = money cur (due_cents lcs r).
Proof.
  intros Hl Hb Hr E.
  destruct (deposit_due (deposit_cents dep
    (ofZ (sum_where (is_rec one_time) lcs + tax_int (sum_where (fun l => taxable l && is_rec one_time l) lcs) r))
    (ofZ (sum_where is_eligible lcs)) (ofZ (sum_where (fun l => is_eligible l && taxable l) lcs)) (Fin r)) cur) as [x|e] eqn:Hd.
  - rewrite (computeQuoteTotals_core _ _ _ _ _ _ _ Hl Hb Hr Hd) in E. injection E as <-. reflexivity.
  - exfalso. pose proof (rate_is_num _ _ Hr) as Hrate. destruct Hr as [_ Hr01].
    assert (Hcb : total_abs lcs < cents_bound) by (unfold doc_bound, cents_bound in *; lia).
    destruct (accumulate_exact cur ms lcs Hl acc0 [] acc0_ok Hcb) as (a & Ha & Hok). cbn [app] in Hok. destruct Hok as (H1 & H2 & H3 & H4 & H5 & H6 & H7 & _).
    destruct (doc_sums lcs r Hb Hr01) as (_ & _ & _ & _ & _ & _ & B7 & _).
    unfold computeQuoteTotals in E. rewrite Ha in E. cbn [rbind] in E. rewrite H1, H5, H6, H7, Hrate in E.
    rewrite (tax_cents_int (sum_where (fun l => taxable l && is_rec one_time l) lcs)) in E by (first [apply sum_where_cents; assumption | apply rate_le_3; assumption]).
    rewrite (js_add_cents _ _ B7), Hd in E. discriminate E.
Qed.

(** ** The invoice's lines *)

Lemma one_time_rec m : rec_eqb (recurrence m) one_time = is_rec one_time m.
Proof. unfold is_rec. destruct (recurrence m); reflexivity. Qed.

Lemma sum_where_cons p l c lcs : sum_where p ((l, c) :: lcs) = (if p l then c else 0) + sum_where p lcs.
Proof. reflexivity. Qed.
Lemma total_abs_cons l c lcs : total_abs ((l, c) :: lcs) = Z.abs c + total_abs lcs.
Proof. reflexivity. Qed.
Lemma inv_cons t c lcs :
  inv_sum ((t, c) :: lcs) = c + inv_sum lcs /\ inv_taxable ((t, c) :: lcs) = (if t then c else 0) + inv_taxable lcs /\
  inv_abs ((t, c) :: lcs) = Z.abs c + inv_abs lcs.
Proof. repeat split. Qed.

Lemma one_time_lines_are cur ls : forall lcs ts,
  lines_are cur (map ql_math ls) lcs -> List.Forall2 (converted cur) (one_time_lines ls) ts ->
  exists ilcs, inv_lines cur ts ilcs /\ inv_sum ilcs = sum_where (is_rec one_time) lcs /\
    inv_taxable ilcs = sum_where (fun l => taxable l && is_rec one_time l) lcs /\ inv_abs ilcs <= total_abs lcs.
Proof.
  induction ls as [|l ls IH]; intros lcs ts Hl F.
  - inversion Hl; subst. inversion F; subst. exists []. repeat split; try reflexivity. constructor.
  - unfold one_time_lines in F. cbn [List.filter] in F. unfold of_cadence in F at 1. rewrite one_time_rec in F. cbn [map] in Hl. inversion Hl as [|m ms lcs' Hv Hl'|m c ms lcs' Hv [Hc Hw] Hl']; subst.
    + rewrite Hv, andb_false_r in F. exact (IH _ _ Hl' F).
    + rewrite Hv, andb_true_r in F. rewrite !sum_where_cons, total_abs_cons. destruct (is_rec one_time (ql_math l)) eqn:Er.
      * inversion F as [|x t xs ts' (c' & Hc' & _ & ->) F']; subst.
        assert (fixed2 c' = fixed2 c) as -> by (unfold InvoiceMath.computeLineTotal, QuoteMath.computeLineTotal in *; congruence).
        destruct (IH _ _ Hl' F') as (il & I1 & I2 & I3 & I4). exists ((taxable (ql_math l), c) :: il).
        split; [apply (il_line cur (mkTotalsLine (fixed2 c) (taxable (ql_math l)) true)); auto|].
        destruct (inv_cons (taxable (ql_math l)) c il) as (-> & -> & ->). rewrite andb_true_r. split; [|split]; lia.
      * destruct (IH _ _ Hl' F) as (il & I1 & I2 & I3 & I4). exists il. split; [exact I1|]. rewrite andb_false_r. split; [|split]; lia.
Qed.

(** ** The acceptance *)

Lemma quote_rate q r : header_ok q -> rate_is (parsed_rate (qt_taxRate q)) r -> rate_string (qt_taxRate q) r.
Proof.
  intros [Hh _] [Hr Hb]. split; [|exact Hb]. unfold parsed_rate, truthy in Hr. destruct (qt_taxRate q) as [t|]; [|destruct Hr as [[_ ->]|Hr]; [left; auto|discriminate Hr]].
  specialize (Hh t eq_refl). destruct (String.eqb_spec t "") as [->|Hne]; [vm_compute in Hh; discriminate Hh|].
  destruct Hr as [[Hr _]|Hr]; [discriminate Hr|]. injection Hr as Hr. right. exists t. rewrite <- (parsed_rate_number t Hh). auto.
Qed.

Lemma live_math ref o ls : map ql_math (map (live_references ref o) ls) = map ql_math ls.
Proof. rewrite map_map. apply map_ext. intros l. apply live_line. Qed.

Lemma converted_total cur q ls ts t num inv lcs r :
  qt_currencyCode q = cur -> invoice_of q ls ts t num inv -> lines_are cur (map ql_math ls) lcs -> total_abs lcs <= doc_bound -> rate_string (qt_taxRate q) r ->
  im_total (iv_money inv) = money cur (due_cents lcs r) /\ im_balance (iv_money inv) = money cur (due_cents lcs r) /\ im_amountPaid (iv_money inv) = "0.00".
Proof.
  intros <- [F Ht Hm _ _ _] Hl Hb Hr. destruct (one_time_lines_are _ _ _ _ Hl F) as (il & I1 & I2 & I3 & I4).
  rewrite (invoice_totals_core _ _ _ _ _ I1 ltac:(lia) Hr) in Ht. injection Ht as <-. rewrite Hm. cbn [im_total im_balance im_amountPaid it_total].
  unfold due_cents. rewrite money_eq, money_cents_add by (rewrite <- I2; exact (inv_lines_whole _ _ _ I1)). rewrite <- I2, <- I3. auto.
Qed.

Section Accept.
Context `{Uuids}.

#[local] Instance mint_invoices : Keeps db_invoices mint.
Proof. intros d a d' E. apply mint_ok in E as [_ ->]. reflexivity. Qed.

Ltac keep_invoices :=
  repeat match goal with
  | |- Keeps db_invoices (match ?x with _ => _ end) => destruct x
  | |- Keeps db_invoices (bind _ _) => apply bind_keeps; [|intros ?]
  | |- Keeps db_invoices (modify _) => apply modify_keeps; reflexivity
  | |- Keeps db_invoices _ => apply _
  end.

#[local] Instance contract_line_invoices cid spec i l : Keeps db_invoices (insert_contract_line cid spec i l).
Proof. unfold insert_contract_line, insert_line_row. cbv zeta. keep_invoices. Qed.
#[local] Instance contract_lines_invoices cid spec ls i : Keeps db_invoices (insert_contract_lines cid spec i ls).
Proof. revert i. induction ls as [|l ls IH]; intros i; cbn [insert_contract_lines]; keep_invoices. Qed.
#[local] Instance contract_invoices spec : Keeps db_invoices (createContractWithLinesDetailed spec).
Proof. unfold createContractWithLinesDetailed. keep_invoices. Qed.
#[local] Instance contracts_invoices specs : Keeps db_invoices (create_contracts specs).
Proof. induction specs as [|s specs IH]; cbn [create_contracts]; keep_invoices. Qed.

Lemma convert_quote_invoice {pins : Pinned} now i q ls loc a d inv num cts d' :
  Billing d -> convert_quote now i q ls loc a d = Ok ((inv, num, cts), d') ->
  db_invoices d !! inv = None /\ exists row ts t, db_invoices d' !! inv = Some row /\ invoice_of q ls ts t num row.
Proof.
  intros B E. unfold convert_quote in E. apply bind_ok in E as ([j n] & d1 & G & E). apply convert_invoice_ok in G as (_ & Hn & row & t & Hrow & Ho); [|exact B].
  apply bind_ok in E as (specs & d2 & G & E). apply lift_throw_ok in G as [_ ->]. apply bind_ok in E as (cs & d2 & G & E). apply contracts_invoices in G.
  apply ret_ok in E as [[= -> -> ->] ->]. split; [exact Hn|]. rewrite G. eauto.
Qed.

Lemma same_lines d d1 i : same_quotes d d1 -> lines_in_order i d1 = lines_in_order i d.
Proof. intros (_ & _ & El). unfold lines_in_order, quote_lines_of. rewrite El. reflexivity. Qed.

Lemma one_time_live ref o ls : one_time_lines (map (live_references ref o) ls) = map (live_references ref o) (one_time_lines ls).
Proof.
  unfold one_time_lines. apply filter_map_keep. intros l _. unfold of_cadence. rewrite live_line. reflexivity.
Qed.

Lemma filter_nil_existsb {A} (p : A -> bool) l : List.filter p l = [] -> existsb p l = false.
Proof. induction l as [|x l IH]; [reflexivity|]. cbn. destruct (p x); [discriminate|exact IH]. Qed.

Lemma deposit_kept q q' : qt_deposit q = qt_deposit q' -> quote_deposit q = quote_deposit q'.
Proof. unfold quote_deposit. intros ->. reflexivity. Qed.

(** C20: Accepting a quote bills what it said: when an acceptance succeeds in any
    reachable state, it issues a new invoice whose total and open balance are
    exactly the amount that the quote's detail view reported as due on acceptance
    (for documents up to 10^13 cents and tax rates between 0 and 1), in the
    quote's currency and for its organization, unpaid, with the quote's deposit;
    a quote without one-time lines leaves a draft without a deposit. The quote is
    then converted and names that invoice. *)
Theorem acceptance_bills_quote resolver d viewer detail now params docs r d' lcs rate :
  q_reachable resolver d -> getQuote (ap_quoteId params) viewer d = Ok (detail, d) ->
  lines_are (qt_currencyCode (qv_quote detail)) (map ql_math (qv_lines detail)) lcs -> total_abs lcs <= doc_bound ->
  rate_is (parsed_rate (qt_taxRate (qv_quote detail))) rate ->
  acceptQuote now params docs d = (Ok r, d') ->
  db_invoices (qd_billing d) !! ar_invoiceId r = None /\
  exists inv q',
    db_invoices (qd_billing d') !! ar_invoiceId r = Some inv /\
    im_total (iv_money inv) = dueOnAcceptanceTotal (qv_totals detail) /\ im_balance (iv_money inv) = dueOnAcceptanceTotal (qv_totals detail) /\
    im_amountPaid (iv_money inv) = "0.00" /\
    iv_orgId inv = qt_orgId (qv_quote detail) /\ iv_currencyCode inv = qt_currencyCode (qv_quote detail) /\
    (if existsb (of_cadence one_time) (qv_lines detail)
     then iv_status inv = st_sent /\ iv_depositDue inv = quote_deposit (qv_quote detail)
     else iv_status inv = st_draft /\ iv_depositDue inv = None) /\
    qd_quotes d' !! ap_quoteId params = Some q' /\ qt_status q' = qs_converted /\ qt_convertedInvoiceId q' = Some (ar_invoiceId r).
Proof.
  intros R Hg Hl Hb Hr E. pose proof (q_reachable_Quotes _ _ R) as Q. apply getQuote_ok in Hg as (_ & Hq & Els & Ht).
  destruct (accept_cases _ _ _ _ _ _ Q E) as [(e & X & _)|(q0 & d1 & r' & [= <-] & Hq0 & _ & S1 & B1 & _ & q & loc & Hc & (row & Hcl) & (q' & Hq' & Hs' & Hi') & _)]; [discriminate X|].
  assert (q0 = qv_quote detail) as -> by congruence. destruct Hcl as (_ & Ho & Hx & Hcur & Hdep & _ & Hpt & _). rewrite B1, (same_lines _ _ _ S1), <- Els in Hc.
  apply convert_quote_invoice in Hc as (Hn & inv & ts & t & Hinv & Io); [|exact (sy_billing _ (reachable_Sys _ _ (q_reachable_billing _ _ R)))].
  pose proof (qi_headers _ _ Q _ _ Hq) as Hh. pose proof (quote_rate _ _ Hh Hr) as Hrs. rewrite <- Hx in Hrs.
  assert (lines_are (qt_currencyCode (qv_quote detail)) (map ql_math (map (live_references (db_ref (qd_billing d)) (qt_orgId (qv_quote detail))) (qv_lines detail))) lcs) as Hl'
    by (rewrite live_math; exact Hl).
  destruct (converted_total _ _ _ _ _ _ _ _ _ Hcur Io Hl' Hb Hrs) as (T1 & T2 & T3).
  unfold quote_totals in Ht. rewrite <- Els in Ht. pose proof (due_exact _ _ _ _ _ _ _ Hl Hb Hr Ht) as Hdue.
  split; [exact Hn|]. exists inv, q'. rewrite Hdue. destruct Io as [_ _ _ (P1 & P2 & P3) _ St].
  split; [exact Hinv|]. split; [exact T1|]. split; [exact T2|]. split; [exact T3|]. split; [congruence|]. split; [congruence|]. split; [|auto].
  rewrite (deposit_kept _ _ Hdep) in St. rewrite one_time_live in St. destruct (one_time_lines (qv_lines detail)) as [|l ls] eqn:El; cbn [map] in St.
  - replace (existsb _ _) with false; [tauto|]. symmetry. apply filter_nil_existsb, El.
  - replace (existsb _ _) with true; [tauto|]. symmetry. apply existsb_exists. exists l. apply List.filter_In. unfold one_time_lines in El. rewrite El. left. reflexivity.
Qed.

(** C24: A quote is accepted at most once: after an acceptance succeeded in a
    reachable state, however the system runs on, no other acceptance of that
    quote succeeds, by the customer or on their behalf. *)
Theorem quote_accepted_once resolver d os now params docs r d1 w now' params' docs' :
  q_reach resolver (mkQWorld d os) -> acceptQuote now params docs d = (Ok r, d1) ->
  rtc (q_steps resolver) (mkQWorld d1 os) w -> ap_quoteId params' = ap_quoteId params ->
  exists e, fst (acceptQuote now' params' docs' (qw_db w)) = Err e.
Proof.
  intros R E St Ei. pose proof (q_reach_Quotes _ _ R) as Q. cbn in Q.
  destruct (accept_cases _ _ _ _ _ _ Q E) as [(e & X & _)|(q0 & d0 & r' & _ & _ & _ & _ & _ & _ & q & loc & _ & _ & (q' & Hq' & Hs' & _) & _)]; [discriminate X|].
  assert (q_reach resolver (mkQWorld d1 os)) as R1.
  { pose proof (q_reach_step _ _ _ R (step_quote resolver (q_accept now params docs) d os)) as X. cbn [qexec] in X. unfold after in X. rewrite E in X. exact X. }
  destruct (kept_steps _ _ _ R1 St _ _ Hq' ltac:(congruence)) as (q2 & Hq2 & (_ & _ & Ht) & _).
  assert (qt_status q2 = qs_converted) as Hs2 by (rewrite <- Hs'; apply Ht; unfold settled; rewrite Hs'; reflexivity).
  destruct (acceptQuote now' params' docs' (qw_db w)) as [res d3] eqn:E3. cbn [fst].
  destruct (accept_cases _ _ _ _ _ _ (steps_Quotes _ _ _ R1 St) E3) as [(e & -> & _)|(q3 & d4 & r3 & _ & Hq3 & Ha & _)]; [eauto|].
  rewrite Ei in Hq3. assert (q3 = q2) as -> by congruence. rewrite Hs2 in Ha. destruct (ap_origin params'); discriminate Ha.
Qed.
End Accept.

(** ** A quote accepted *)

Definition sample_rate : Q := Eval vm_compute in (match js_Number "0.0825" with Fin q => q | _ => 0%Q end).

Definition plain_math (price : string) (r : Recurrence) : QuoteLineForMath :=
  {| quantity := "3.00"; unitPrice := price; unitCost := None; taxable := true; customerVisible := true; recurrence := r; depositEligible := Some false; itemType := None |}.

Definition sample_lines : list (QuoteLineForMath * Z) := [(plain_math "100.00" one_time, 30000); (plain_math "50.00" monthly, 15000)].

Lemma sample_lines_are : lines_are "USD" (map fst sample_lines) sample_lines.
Proof.
  assert (forall c, whole_units "USD" c) as W by (intros; apply whole_units_usd; reflexivity).
  apply la_cons; [reflexivity|split; [vm_compute; reflexivity|apply W]|]. apply la_cons; [reflexivity|split; [vm_compute; reflexivity|apply W]|]. constructor.
Qed.

(** What the customer is shown before accepting. *)
Definition shown (t : QuoteDetail) :=
  (dueOnAcceptanceTotal (qv_totals t), quote_deposit (qv_quote t), qt_currencyCode (qv_quote t), parsed_rate (qt_taxRate (qv_quote t)),
   existsb (of_cadence one_time) (qv_lines t), map ql_math (qv_lines t)).

Lemma sample_detail : exists t, getQuote "4" sample_actor sent_tables = Ok (t, sent_tables) /\
  shown t = ("324.75", Some "81.19", "USD", Some (Fin sample_rate), true, map fst sample_lines).
Proof.
  assert (V : match getQuote "4" sample_actor sent_tables with Ok (t, _) => Some (shown t) | Err _ => None end =
    Some ("324.75", Some "81.19", "USD", Some (Fin sample_rate), true, map fst sample_lines)) by (vm_compute; reflexivity).
  destruct (getQuote "4" sample_actor sent_tables) as [[t d0]|] eqn:G; [|discriminate V].
  assert (shown t = ("324.75", Some "81.19", "USD", Some (Fin sample_rate), true, map fst sample_lines)) as V' by congruence. exists t.
  rewrite (getQuote_ro _ _ _ _ _ G). split; [reflexivity|exact V'].
Qed.

Lemma sample_accepts : exists r d', acceptQuote (noon "2026-03-04") (customer "4") (Ok tt) sent_tables = (Ok r, d').
Proof.
  assert (V : match fst (acceptQuote (noon "2026-03-04") (customer "4") (Ok tt) sent_tables) with Ok _ => true | Err _ => false end = true) by (vm_compute; reflexivity).
  destruct (acceptQuote _ _ _ _) as [[r|e] d']; [eauto|discriminate V].
Qed.

Lemma acceptance_bills_quote_witness :
  exists r d' inv, acceptQuote (noon "2026-03-04") (customer "4") (Ok tt) sent_tables = (Ok r, d') /\
    db_invoices (qd_billing d') !! ar_invoiceId r = Some inv /\ im_total (iv_money inv) = "324.75" /\ iv_depositDue inv = Some "81.19".
Proof.
  destruct sample_accepts as (r & d' & E), sample_detail as (t & G & [= V1 V2 V3 V4 V5 V6]).
  destruct (acceptance_bills_quote no_groups sent_tables sample_actor t (noon "2026-03-04") (customer "4") (Ok tt) r d' sample_lines sample_rate)
    as (_ & inv & q' & Hi & Ht & _ & _ & _ & _ & Hd & _).
  - exact (sample_q_reachable sent_ops).
  - exact G.
  - rewrite V3, V6. exact sample_lines_are.
  - vm_compute. discriminate.
  - rewrite V4. split; [right; reflexivity|split; vm_compute; discriminate].
  - exact E.
  - rewrite V5, V2 in Hd. exists r, d', inv. rewrite <- V1. intuition.
Defined.

Lemma quote_accepted_once_witness :
  exists r d1, acceptQuote (noon "2026-03-04") (customer "4") (Ok tt) sent_tables = (Ok r, d1) /\
    exists e, fst (acceptQuote (noon "2026-03-05") (customer "4") (Ok tt) d1) = Err e.
Proof.
  destruct sample_accepts as (r & d1 & E). exists r, d1. split; [exact E|].
  exact (quote_accepted_once no_groups sent_tables [] _ _ _ _ d1 (mkQWorld d1 []) (noon "2026-03-05") (customer "4") (Ok tt)
    (sample_reach sent_ops) E (rtc_refl _ _) eq_refl).
Defined.
