(* ===== verification/StripeProperties.v ===== *)
(** * What holds of card payments

    In every reachable state each charge accounts for its payment; a capture is
    recorded at most once however often it is delivered; a reversal that cannot be
    applied leaves the retry loop after a bounded number of attempts; an event id
    cannot be reused for other data; and where the gate is enforced a payment or a
    void goes through only when every pending session of the invoice is revoked or
    given up by an operator. Four concrete runs show
    where the handlers do less than their comments say. *)

From Stdlib Require Import QArith.
From S2P Require Import Prelude JsString JsNumber Currency IsoDate QuoteMath QuoteSpec InvoiceMath ContractMath TimeBilling CatalogPricing ContractCoverage BillingDb InvoiceService StripeSessions StripeReversal InvoiceLifecycle StripeReconcile InvoiceInvariants InvoiceSafety StripeSafety ContractService ContractProperties BillingSteps BillingSystem.
From stdpp Require Import base gmap strings list pretty.

Local Open Scope string_scope.
Local Open Scope Z_scope.
Local Open Scope billing_scope.

(** ** Charges and payments *)

(** C18: In every state the billing system reaches, every card charge accounts
    for itself: it belongs to an issued invoice and is in its currency; the
    payment it is linked to is on that invoice and is exactly the amount charged
    less what was refunded and what a dispute withdrew, and no other charge is
    linked to it; a charge without a payment is waiting, failed, refunded in full
    or disputed, so a capture never finds one it does not know how to treat. *)
Theorem charges_reconcile `{Uuids} resolver d r :
  reachable resolver d -> In r (db_stripe d) ->
  let units m := minor_cents m (minorUnitExponent (sr_currency r)) in
  exists inv m,
    db_invoices d !! sr_invoiceId r = Some inv /\ iv_status inv <> st_draft /\ iv_currencyCode inv = sr_currency r /\
    0 < m /\ sr_amount r = fixed2 (units m) /\ units m < column_bound /\
    0 <= rv_refundedAmountMinor (sr_reversal r) <= m /\ 0 <= rv_disputeAmountMinor (sr_reversal r) <= m /\
    match sr_invoicePaymentId r with
    | Some pid =>
        (exists p, In p (db_payments d) /\ py_id p = pid /\ py_invoiceId p = sr_invoiceId r /\
           0 < targetMinor m (sr_reversal r) /\ py_amount p = fixed2 (units (targetMinor m (sr_reversal r)))) /\
        (forall r', In r' (db_stripe d) -> sr_invoicePaymentId r' = Some pid -> r' = r)
    | None =>
        sr_status r = sp_pending /\ sr_reversal r = no_reversal \/ sr_status r = sp_failed \/
        sr_status r = sp_refunded /\ m <= rv_refundedAmountMinor (sr_reversal r) \/ sr_status r = sp_disputed
    end.
Proof.
  intros R Hin units. pose proof (bi_sessions _ (sy_billing _ (reachable_Sys _ _ R))) as Se.
  destruct (se_rows _ Se r Hin) as (inv & m & E1 & E2 & E3 & E4 & E5 & Eb & (E6 & E7 & _) & E8). exists inv, m.
  repeat (split; [assumption|]). destruct (sr_invoicePaymentId r) as [pid|] eqn:L.
  - split; [exact E8|]. intros r' Hr' L'. exact (se_links _ Se r' r pid Hr' Hin L' L).
  - unfold unlinked_ok in E8. destruct (sr_status r); tauto.
Qed.

(** ** A capture is recorded once *)

(** A delivery for a session whose row is linked, failed or reversed. *)
Lemma settled_noop `{Uuids} now input d r :
  List.find (of_object (ci_stripeObjectId input)) (db_stripe d) = Some r ->
  is_linked r = true \/ (is_Some (db_invoices d !! sr_invoiceId r) /\ sr_status r = sp_failed) ->
  recordStripePayment_tx now input d = Ok (ro_noop (sr_invoiceId r), d).
Proof.
  intros F K. unfold recordStripePayment_tx, bind, read, of_object in *. rewrite F.
  destruct (is_linked r); [reflexivity|]. destruct K as [K|[[inv E] K]]; [discriminate K|]. rewrite E, K. reflexivity.
Qed.

(** The row of a recorded capture is linked. *)
Lemma capture_linked `{Uuids} now input inv m d r d' :
  List.find (of_object (ci_stripeObjectId input)) (db_stripe d) = Some m -> is_linked m = false ->
  capture now input inv m d = Ok (r, d') ->
  exists m', List.find (of_object (ci_stripeObjectId input)) (db_stripe d') = Some m' /\ is_linked m' = true.
Proof.
  intros F L E. unfold capture in E. cbv zeta in E.
  apply bind_ok in E as (id & d1 & G & E). injection G as <- <-.
  apply bind_ok in E as (a & d1 & G & E). apply lift_ok in G as [_ ->].
  apply bind_ok in E as (? & d1 & G & E). apply pg_check_ok in G as [_ ->].
  apply bind_ok in E as (? & d1 & G & E). apply modify_ok in G.
  apply bind_ok in E as (n & d2 & Gn & E). apply read_ok in Gn as [-> ->].
  apply bind_ok in E as (? & d2 & Gn & E). assert (d2 = d1) as -> by (destruct (_ =? _)%nat; [run_m; reflexivity|discriminate Gn]).
  apply bind_ok in E as (? & d2 & G2 & E). apply modify_ok in G2.
  apply bind_ok in E as (? & d3 & G3 & E). apply checked_stripe_ok in G3 as ->.
  apply bind_ok in E as (? & d3 & G3 & E). apply modify_ok in G3.
  apply bind_ok in E as (? & d4 & G4 & E). apply (keeps (view := sessions_view)) in G4. injection G4 as G4 _. run_m.
  rewrite G4, G3. cbn [set_stripe db_stripe]. rewrite find_map_same by (intros row; destruct (_ && _); reflexivity).
  rewrite G2. cbn [set_stripe db_stripe]. rewrite find_map_same by (intros row; destruct (unlinked_by_id _ _); reflexivity).
  rewrite G. cbn [set_payments set_next db_stripe]. rewrite F. cbn [option_map]. eexists. split; [reflexivity|].
  unfold unlinked_by_id, by_id. rewrite String.eqb_refl, L. cbn [andb negb]. destruct (_ && _); reflexivity.
Qed.

(** Whatever a delivery did, it leaves the session's row decided. *)
Lemma delivery_decides `{Uuids} now input d r d' :
  recordStripePayment_tx now input d = Ok (r, d') -> pin_ok d' (pin_session (ci_stripeObjectId input)).
Proof.
  intros E. unfold recordStripePayment_tx in E. apply bind_ok in E as (found & d1 & G & E). apply read_ok in G as [-> ->].
  fold (of_object (ci_stripeObjectId input)) in E. destruct (List.find _ _) as [m|] eqn:F; [|discriminate E].
  destruct (is_linked m) eqn:L; [run_m; exists m; split; [exact F|left; exact L]|].
  apply bind_ok in E as (row & d1 & G & E). apply read_ok in G as [-> ->].
  destruct (db_invoices d !! sr_invoiceId m) as [inv|] eqn:Hrow; [|discriminate E].
  assert (K : forall x y, match terminal_reason inv m input with
       | Some reason => do! _ := markMapping (sr_id m) sp_failed in ret (ro_terminal (sr_invoiceId m) reason)
       | None => capture now input inv m end d = Ok (x, y) -> pin_ok y (pin_session (ci_stripeObjectId input))).
  { intros x y K. destruct (terminal_reason inv m input) as [reason|].
    - apply bind_ok in K as (? & d1 & G & K). apply modify_ok in G. run_m. rewrite G. eexists. split.
      + cbn [set_stripe db_stripe]. rewrite find_map_same by (intros z; destruct (by_id _ _); reflexivity). rewrite F. reflexivity.
      + right. unfold by_id. rewrite String.eqb_refl. discriminate.
    - apply (capture_linked _ _ _ _ _ _ _ F L) in K as (m' & F' & L'). exists m'. split; [exact F'|left; exact L']. }
  destruct (sr_status m) eqn:Hs; try discriminate E; try exact (K _ _ E); run_m; exists m; (split; [exact F|right; rewrite Hs; discriminate]).
Qed.

(** A delivery for a session whose row is decided writes nothing. *)
Lemma decided_noop `{Uuids} {pins : Pinned} now input d :
  Sessions d -> pin_ok d (pin_session (ci_stripeObjectId input)) ->
  exists invoiceId, recordStripePayment now input d = (Ok (ro_noop invoiceId), d).
Proof.
  intros S (r & F & D). exists (sr_invoiceId r). destruct (se_rows _ S r (proj1 (List.find_some _ _ F))) as (inv & m & Hi & _ & _ & _ & _ & _ & _ & K).
  unfold recordStripePayment, then_run, tx. enough (E : recordStripePayment_tx now input d = Ok (ro_noop (sr_invoiceId r), d)) by (rewrite E; reflexivity).
  unfold recordStripePayment_tx, bind, read, of_object in *. rewrite F. unfold decided, is_linked in *.
  destruct (sr_invoicePaymentId r); [reflexivity|]. rewrite Hi. unfold unlinked_ok in K.
  destruct (sr_status r); try contradiction; try reflexivity. destruct D as [D|D]; [discriminate D|elim D; reflexivity].
Qed.

(** C32: A capture is recorded at most once: whatever the first delivery for a
    checkout session did (recorded a payment, refused it for good, or nothing),
    and whatever the system does afterwards (refunds and disputes that take the
    payment off the books, voids, sweeps, declined attempts, new links), every
    later delivery for that session is a no-op that writes nothing. The first
    delivery is on a state the system reaches and brings an amount of money below
    the bound. *)
Theorem capture_at_most_once `{Uuids} resolver w now input r d w' now' input' :
  reach resolver w -> money_input input -> recordStripePayment_tx now input (w_db w) = Ok (r, d) ->
  rtc (step resolver) (mkWorld d (w_offers w)) w' -> ci_stripeObjectId input' = ci_stripeObjectId input ->
  exists invoiceId, recordStripePayment now' input' (w_db w') = (Ok (ro_noop invoiceId), w_db w').
Proof.
  intros R (n & Ha & Hn) E St Eo. pose proof (delivery_decides _ _ _ _ _ E) as P. apply reach_ok in R as [S O].
  assert (W : World_ok [] (mkWorld d (w_offers w))).
  { split; [|exact O]. refine (keeps_Sys _ _ _ _ _ _ S E). intros B. exact (recordStripePayment_Billing _ _ _ _ _ _ B Ha Hn). }
  destruct (pin_stays resolver _ w' _ St W P) as [P' [S' _]]. apply (decided_noop _ _ _ (bi_sessions _ (sy_billing _ S'))).
  rewrite Eo. exact P'.
Qed.

(** ** Refunds and disputes in any order *)

Definition charge_row (id : string) (d : Db) : option StripeRow := List.find (by_id id) (db_stripe d).

(** The payment's own account and intent, by which an event finds its charge. *)
Definition bound_to (id : string) (event : FinancialEvent) (d : Db) : Prop :=
  exists m, charge_row id d = Some m /\ sr_stripeAccountId m = ff_stripeAccountId (fe_facts event) /\
    sr_stripePaymentIntentId m = ff_paymentIntentId (fe_facts event).

(** Events of one charge applied one after another, each by its own transaction of
    the handler on what it finds, with anything that leaves the charge's row alone
    in between: captures of other charges, payments, redeliveries of an event that
    was applied. *)
Inductive applied_events `{Uuids} (id : string) : list FinancialFacts -> Db -> Db -> Prop :=
| ae_none d : applied_events id [] d d
| ae_other es d d1 d2 : charge_row id d1 = charge_row id d -> applied_events id es d1 d2 -> applied_events id es d d2
| ae_event now eventId event i c es d d1 d2 :
    find_event eventId d = Some event -> bound_to id event d -> applyStripeFinancialEvent now eventId d = Ok (ar_applied i c, d1) ->
    applied_events id es d1 d2 -> applied_events id (fe_facts event :: es) d d2.

(** What an applied event leaves of the charge. *)
Definition stores (o : Z) (m m' : StripeRow) : Prop :=
  sr_status m' = nextStatus o (sr_reversal m') /\ is_linked m' = (0 <? targetMinor o (sr_reversal m')) /\
  sr_amount m' = sr_amount m /\ sr_currency m' = sr_currency m.

Lemma charge_row_map id f d : (forall r, sr_id (f r) = sr_id r) ->
  charge_row id (set_stripe (map f (db_stripe d)) d) = option_map f (charge_row id d).
Proof. intros Hf. apply find_map_same. intros r. unfold by_id. rewrite Hf. reflexivity. Qed.

Lemma charge_updated id f m d u d' : (forall r, sr_id (f r) = sr_id r) -> charge_row id d = Some m ->
  update_stripe (by_id id) f d = Ok (u, d') -> charge_row id d' = Some (f m).
Proof.
  intros Hf F E. apply modify_ok in E as ->. rewrite charge_row_map by (intros r; destruct (by_id id r); auto). rewrite F. cbn.
  apply List.find_some in F as [_ ->]. reflexivity.
Qed.

(** The payment's writer leaves the charge linked exactly when something is left
    of it, and writes the row itself when nothing is. *)
Lemma write_payment_link `{Uuids} m st rev target d w d' :
  0 <= target -> charge_row (sr_id m) d = Some m -> write_payment m st rev target d = Ok (w, d') ->
  (match fst w with Some _ => true | None => false end) = (0 <? target) /\
  charge_row (sr_id m) d' = if is_linked m && (target =? 0) then Some (with_charge st None rev m) else Some m.
Proof.
  intros Ht F E. unfold write_payment in E. unfold is_linked. destruct (sr_invoicePaymentId m) as [pid|].
  - apply bind_ok in E as (p & d1 & G & E). apply read_ok in G as [-> ->]. destruct (List.find _ (db_payments d)) as [pay|]; [|discriminate E].
    apply bind_ok in E as (prev & d1 & G & E). apply minor_amount_ro in G as ->. destruct (Z.eqb_spec target 0) as [->|Hn]; cbn [andb].
    + apply bind_ok in E as (? & d1 & G & E). apply (charge_updated (sr_id m) _ m) in G; [|reflexivity|exact F].
      apply bind_ok in E as (? & d2 & G2 & E). apply checked_stripe_ok in G2 as ->. run_m. auto.
    + apply bind_ok in E as (a & d1 & G & E). pose proof (read_only _ _ _ G) as ->. run_m. cbn. split; [|exact F]. symmetry. apply Z.ltb_lt. lia.
  - cbn [andb]. destruct (Z.ltb_spec 0 target) as [Hp|Hp]; [|run_m; auto].
    apply bind_ok in E as (k & d1 & G & E). apply mint_ok in G as [-> ->]. apply bind_ok in E as (a & d1 & G & E). pose proof (read_only _ _ _ G) as ->.
    run_m. auto.
Qed.

Lemma settle_result id st err x d r d' : settle_event id st err x d = Ok (r, d') -> r = x /\ db_stripe d' = db_stripe d.
Proof. intros E. apply bind_ok in E as (? & d1 & G & E). apply modify_ok in G as ->. run_m. auto. Qed.

(** An applied event stores what it makes of the charge's reversal. *)
Lemma applied_stores `{Uuids} now event m o d i c d' :
  apply_to_mapping now event m d = Ok (ar_applied i c, d') -> charge_row (sr_id m) d = Some m ->
  minor_amount (sr_amount m) (sr_currency m) d = Ok (o, d) ->
  exists m', charge_row (sr_id m) d' = Some m' /\ observe o (sr_reversal m) (fe_facts event) = Ok (sr_reversal m') /\ stores o m m'.
Proof.
  intros E F O. unfold apply_to_mapping in E. cbv zeta in E.
  apply bind_ok in E as (row & d1 & G & E). apply read_ok in G as [-> ->]. destruct (db_invoices d !! _) as [inv|]; [|discriminate E].
  apply bind_ok in E as (cur & d1 & G & E). apply read_ok in G as [-> ->].
  do 3 (match type of E with context [if ?b then _ else _] => destruct b end; [apply settle_result in E as [[=] _]|]).
  apply bind_ok in E as (orig & d1 & G & E). rewrite O in G. injection G as <- <-.
  match type of E with context [if ?b then _ else _] => destruct b end; [apply settle_result in E as [[=] _]|].
  match type of E with context [if ?b then _ else _] => destruct b end; [unfold retry_event in E; run_m; discriminate|].
  destruct (observe _ _ _) as [rev|reason] eqn:Ob; [|apply settle_result in E as [[=] _]].
  assert (Ht : 0 <= targetMinor o rev) by (unfold targetMinor; lia).
  apply bind_ok in E as (w & d1 & G1 & E). destruct (write_payment_link _ _ _ _ _ _ _ Ht F G1) as [L1 F1].
  apply bind_ok in E as (u1 & d2 & G2 & E). apply bind_ok in E as (u2 & d3 & G3 & E). apply (keeps (view := sessions_view)) in G3. injection G3 as G3 _.
  apply settle_result in E as [_ E].
  assert (F2 : charge_row (sr_id m) d2 = Some (with_charge (nextStatus o rev) (fst w) rev m)).
  { destruct (is_linked m && _) eqn:Z0 in G2, F1.
    - run_m. rewrite F1. apply andb_true_iff in Z0 as [_ Z0]. rewrite (proj2 (Z.ltb_ge 0 (targetMinor o rev))) in L1 by lia. destruct (fst w); [discriminate|reflexivity].
    - apply bind_ok in G2 as (? & d4 & G4 & G2). apply checked_stripe_ok in G2 as ->. apply (charge_updated _ _ m) in G4; [exact G4|reflexivity|exact F1]. }
  exists (with_charge (nextStatus o rev) (fst w) rev m). unfold charge_row in *. rewrite E, G3. split; [exact F2|]. split; [reflexivity|]. repeat split. exact L1.
Qed.

(** The charge an event finds is the one it is bound to. *)
Lemma event_charge `{Uuids} now eventId event id d i c d' :
  find_event eventId d = Some event -> bound_to id event d -> applyStripeFinancialEvent now eventId d = Ok (ar_applied i c, d') ->
  exists m, charge_row id d = Some m /\ sr_id m = id /\ apply_to_mapping now event m d = Ok (ar_applied i c, d').
Proof.
  intros F (m & Hm & Ea & Ep) E. exists m. split; [exact Hm|]. pose proof (List.find_some _ _ Hm) as [Hin Hid]. apply String.eqb_eq in Hid. split; [exact Hid|].
  apply bind_ok in E as (o & d1 & G & E). apply read_ok in G as [-> ->]. rewrite F in E.
  assert (K : apply_open now event d = Ok (ar_applied i c, d')) by (destruct (fe_status event); try exact E; run_m; discriminate). clear E.
  unfold apply_open in K. cbv zeta in K. destruct (_ && _); [apply settle_result in K as [[=] _]|].
  destruct (ff_paymentIntentId _) as [pi|] eqn:Epi; [|apply settle_result in K as [[=] _]].
  apply bind_ok in K as (ms & d1 & G & K). apply read_ok in G as [-> ->].
  assert (Hf : In m (List.filter (fun r => String.eqb (sr_stripeAccountId r) (ff_stripeAccountId (fe_facts event)) &&
             opt_eqb (sr_stripePaymentIntentId r) (Some pi)) (db_stripe d))).
  { apply filter_In. split; [exact Hin|]. rewrite Ea, Ep. cbn. rewrite !String.eqb_refl. reflexivity. }
  destruct (List.filter _ _) as [|m1 [|m2 ms]]; cbn [firstn] in K.
  - destruct Hf.
  - destruct Hf as [->|[]]. exact K.
  - apply settle_result in K as [[=] _].
Qed.

(** A run of events leaves the reversal they make of the first one. *)
Lemma run_stores `{Uuids} id o es d d' m :
  applied_events id es d d' -> charge_row id d = Some m -> 0 < o -> minor_cents o (minorUnitExponent (sr_currency m)) < column_bound ->
  sr_amount m = fixed2 (minor_cents o (minorUnitExponent (sr_currency m))) ->
  exists m', charge_row id d' = Some m' /\ delivered o es (sr_reversal m) (sr_reversal m') /\ (es = [] /\ m' = m \/ es <> [] /\ stores o m m').
Proof.
  intros R. revert m. induction R as [d|es d d1 d2 Eo _ IH|now eventId event i c es d d1 d2 F B E _ IH]; intros m Hm Ho Hb Ha.
  - exists m. split; [exact Hm|]. split; [constructor|auto].
  - apply IH; try assumption. congruence.
  - destruct (event_charge _ _ _ _ _ _ _ _ F B E) as (m0 & Hm0 & Hid & K). assert (m0 = m) as -> by congruence. subst id.
    destruct (applied_stores now event m o d i c d1 K Hm) as (m1 & H1 & Ob & S1); [rewrite Ha; apply minor_amount_money; assumption|].
    pose proof S1 as (_ & _ & Am & Cu). destruct (IH m1) as (m' & H' & D & S'); [exact H1|exact Ho|rewrite Cu; exact Hb|rewrite Am, Cu; exact Ha|].
    exists m'. split; [exact H'|]. split; [econstructor; eassumption|]. right. split; [discriminate|].
    destruct S' as [[_ ->]|[_ (T1 & T2 & T3 & T4)]]; [exact S1|]. repeat split; congruence.
Qed.

(** C25: Refunds and disputes of a charge converge whatever their order: take a
    charge of a reachable state that nothing has reversed, and two runs that apply
    the same provider events to it, each event in the handler's own transaction,
    in any orders and with anything that leaves the charge alone in between. Then
    the two rows hold the same refunded amount and the same dispute state, so the
    same amount is left of the charge; they have the same status; and a payment is
    linked in both or in neither. The events are each within the charge, carry
    distinct ids, and no two dispute events of the same second both withdraw or
    both reinstate: two such events tie, and the one that came first is kept. *)
Theorem reversal_order_irrelevant `{Uuids} resolver d id m o es es' d1 d2 :
  reachable resolver d -> charge_row id d = Some m -> sr_reversal m = no_reversal ->
  minor_amount (sr_amount m) (sr_currency m) d = Ok (o, d) ->
  batch o es -> (forall e, In e es <-> In e es') -> applied_events id es d d1 -> applied_events id es' d d2 ->
  exists m1 m2, charge_row id d1 = Some m1 /\ charge_row id d2 = Some m2 /\
    sr_reversal m1 = sr_reversal m2 /\ targetMinor o (sr_reversal m1) = targetMinor o (sr_reversal m2) /\
    sr_status m1 = sr_status m2 /\ is_linked m1 = is_linked m2.
Proof.
  intros R Hm Hn Ho B S R1 R2.
  pose proof (bi_sessions _ (sy_billing _ (reachable_Sys _ _ R))) as Se. pose proof (List.find_some _ _ Hm) as [Hin _].
  destruct (se_rows _ Se m Hin) as (inv & m0 & _ & _ & _ & H0 & Ha & Hb & _). rewrite Ha, minor_amount_money in Ho by assumption. injection Ho as <-.
  destruct (run_stores _ _ _ _ _ _ R1 Hm H0 Hb Ha) as (m1 & H1 & D1 & K1), (run_stores _ _ _ _ _ _ R2 Hm H0 Hb Ha) as (m2 & H2 & D2 & K2).
  assert (E : sr_reversal m1 = sr_reversal m2).
  { rewrite Hn in D1, D2. refine (delivered_same m0 es es' _ _ _ B S D1 D2). pose proof (minor_small _ _ H0 Hb). lia. }
  exists m1, m2. rewrite E. do 4 (split; [assumption || reflexivity|]).
  destruct K1 as [[-> ->]|[N1 (T1 & L1 & _)]], K2 as [[-> ->]|[N2 (T2 & L2 & _)]].
  - auto.
  - exfalso. destruct es' as [|e es']; [contradiction|]. apply (S e). left. reflexivity.
  - exfalso. destruct es as [|e es]; [contradiction|]. apply (S e). left. reflexivity.
  - rewrite T1, T2, L1, L2, E. auto.
Qed.

(** ** The retry loop ends *)

Definition with_event_id (id : string) (e : FinancialEvent) : bool := String.eqb (ff_stripeEventId (fe_facts e)) id.

(** A row of the inbox after some attempts: out of the loop, or pending with its
    attempts counted and below the limit. *)
Definition counted (n : Z) (e : FinancialEvent) : Prop :=
  fe_status e <> fs_pending \/ n <= fe_attemptCount e < MAX_PENDING_ATTEMPTS.

Lemma retry_counted now e reason n : n <= fe_attemptCount e -> counted (n + 1) (pendingRetryUpdate now e reason).
Proof.
  intros Hn. unfold counted, pendingRetryUpdate. cbn. destruct (Z.leb_spec MAX_PENDING_ATTEMPTS (fe_attemptCount e + 1)); [left; discriminate|right; lia].
Qed.

(** Rows rewritten in place. *)
Lemma update_event_find id f e d u d' :
  (forall e, fe_facts (f e) = fe_facts e) -> update_event id f d = Ok (u, d') -> find_event id d = Some e -> find_event id d' = Some (f e).
Proof.
  intros Hf E F. apply modify_ok in E as ->. unfold find_event in *. cbn [set_stripeEvents db_stripeEvents].
  rewrite find_map_same, F.
  - cbn. apply List.find_some in F as [_ F]. rewrite F. reflexivity.
  - intros x. cbn beta. destruct (String.eqb (ff_stripeEventId (fe_facts x)) id) eqn:Ex; rewrite ?Hf; exact Ex.
Qed.

Lemma find_same id d d' : db_stripeEvents d' = db_stripeEvents d -> find_event id d' = find_event id d.
Proof. unfold find_event. intros ->. reflexivity. Qed.

(** What an attempt leaves of the event it was made for. *)
Definition attempted (id : string) (n : Z) (d' : Db) : Prop := exists e', find_event id d' = Some e' /\ counted n e'.

Lemma settle_attempted id st err x e n d r d' :
  st <> fs_pending -> find_event id d = Some e -> settle_event id st err x d = Ok (r, d') -> attempted id n d'.
Proof.
  intros Hs F E. apply bind_ok in E as (u & d1 & G & E). run_m.
  exists (settledEvent st err e). split; [|left; exact Hs]. eapply update_event_find; [|exact G|exact F]. reflexivity.
Qed.

Lemma retry_attempted now id reason e d r d' :
  find_event id d = Some e -> retry_event now id reason d = Ok (r, d') -> attempted id (fe_attemptCount e + 1) d'.
Proof.
  intros F E. apply bind_ok in E as (u & d1 & G & E). run_m.
  exists (pendingRetryUpdate now e reason). split; [|apply retry_counted; lia].
  apply (update_event_find id (fun e => pendingRetryUpdate now e reason) e d u d1); [reflexivity|exact G|exact F].
Qed.

Lemma apply_to_mapping_attempted `{Uuids} now e m d r d' :
  let id := ff_stripeEventId (fe_facts e) in
  find_event id d = Some e -> apply_to_mapping now e m d = Ok (r, d') -> attempted id (fe_attemptCount e + 1) d'.
Proof.
  intros id F E. unfold apply_to_mapping in E. cbv zeta in E.
  apply bind_ok in E as (row & d1 & G & E). apply read_ok in G as [-> ->]. destruct (db_invoices d !! _) as [inv|]; [|discriminate E].
  apply bind_ok in E as (cur & d1 & G & E). apply read_ok in G as [-> ->].
  do 3 (match type of E with context [if ?b then _ else _] => destruct b end; [eapply settle_attempted; [|exact F|exact E]; discriminate|]).
  apply bind_ok in E as (orig & d1 & G & E). pose proof (read_only _ _ _ G) as ->. clear G.
  match type of E with context [if ?b then _ else _] => destruct b end; [eapply settle_attempted; [|exact F|exact E]; discriminate|].
  match type of E with context [if ?b then _ else _] => destruct b end; [eapply retry_attempted; [exact F|exact E]|].
  destruct (observe _ _ _) as [rev|reason]; [|eapply settle_attempted; [|exact F|exact E]; discriminate].
  apply bind_ok in E as (w & d1 & G1 & E). apply (keeps (view := db_stripeEvents)) in G1.
  apply bind_ok in E as (u1 & d2 & G2 & E). assert (K2 : db_stripeEvents d2 = db_stripeEvents d1) by (destruct (is_linked m && _); exact (keeps (view := db_stripeEvents) _ _ _ G2)). clear G2.
  apply bind_ok in E as (u2 & d3 & G3 & E). apply (keeps (view := db_stripeEvents)) in G3.
  eapply (settle_attempted id _ _ _ e); [|rewrite (find_same id d d3); [exact F|rewrite G3, K2; exact G1]|exact E]. discriminate.
Qed.

Lemma apply_attempted `{Uuids} now id e d r d' :
  find_event id d = Some e -> fe_status e = fs_pending -> applyStripeFinancialEvent now id d = Ok (r, d') ->
  attempted id (fe_attemptCount e + 1) d'.
Proof.
  intros F Hp E. apply bind_ok in E as (o & d1 & G & E). apply read_ok in G as [-> ->]. rewrite F, Hp in E.
  assert (Hid : ff_stripeEventId (fe_facts e) = id) by (apply List.find_some in F as [_ F]; apply String.eqb_eq, F). subst id.
  unfold apply_open in E. cbv zeta in E. destruct (_ && _); [eapply settle_attempted; [|exact F|exact E]; discriminate|].
  destruct (ff_paymentIntentId _); [|eapply settle_attempted; [|exact F|exact E]; discriminate].
  apply bind_ok in E as (ms & d1 & G & E). apply read_ok in G as [-> ->].
  destruct (firstn 2 _) as [|m [|]]; [eapply retry_attempted|eapply apply_to_mapping_attempted|eapply settle_attempted; [|exact F|exact E]; discriminate]; eassumption.
Qed.

(** One attempt of the sweep takes the event out of the loop or counts it. *)
Lemma attempt_counted `{Uuids} now id e d :
  find_event id d = Some e -> fe_status e = fs_pending -> attempted id (fe_attemptCount e + 1) (after (attempt_event now id) d).
Proof.
  intros F Hp. unfold attempt_event, after, catch, then_run, tx.
  destruct (applyStripeFinancialEvent now id d) as [[r d1]|x] eqn:E; cbn [snd done modify].
  - eapply apply_attempted; eassumption.
  - exists (pendingRetryUpdate now e "apply_error"). split; [|apply retry_counted; lia].
    unfold find_event in *. cbn [set_stripeEvents db_stripeEvents]. rewrite find_map_same, F; cbn beta.
    + apply List.find_some in F as [_ F]. cbn [option_map]. rewrite F, Hp. reflexivity.
    + intros y. destruct (_ && _); reflexivity.
Qed.

(** [n] attempts of the sweep on an event, with anything that leaves its row
    alone in between. *)
Inductive retries `{Uuids} (id : string) : nat -> Db -> Db -> Prop :=
| rt_none d : retries id 0 d d
| rt_other n d d1 d2 : retries id n d d1 -> find_event id d2 = find_event id d1 -> retries id n d d2
| rt_attempt now n d d1 e : retries id n d d1 -> find_event id d1 = Some e -> fe_status e = fs_pending ->
    retries id (S n) d (after (attempt_event now id) d1).

(** The retry loop ends: the sweep attempts a pending refund or dispute at
    most fifty times, whatever each attempt meets (no charge yet, a failure, a
    database error) and whatever happens in between; after that many the event is
    out of the loop. *)
Theorem retries_bounded `{Uuids} id n d d' e :
  find_event id d = Some e -> 0 <= fe_attemptCount e < MAX_PENDING_ATTEMPTS -> retries id n d d' ->
  exists e', find_event id d' = Some e' /\ Z.of_nat n <= MAX_PENDING_ATTEMPTS - fe_attemptCount e /\
    (Z.of_nat n = MAX_PENDING_ATTEMPTS - fe_attemptCount e -> fe_status e' <> fs_pending).
Proof.
  intros F Ha R.
  assert (K : attempted id (fe_attemptCount e + Z.of_nat n) d' /\ Z.of_nat n <= MAX_PENDING_ATTEMPTS - fe_attemptCount e).
  { induction R as [d|n d d1 d2 _ IH E|now n d d1 x _ IH Fx Hp].
    - split; [exists e; split; [exact F|right; lia]|lia].
    - destruct (IH F) as [(e' & F' & C) Hn]. split; [exists e'; rewrite E; auto|exact Hn].
    - destruct (IH F) as [(e' & F' & C) Hn]. rewrite Fx in F'. injection F' as <-. destruct C as [C|C]; [congruence|].
      split; [|lia]. destruct (attempt_counted now id x d1 Fx Hp) as (y & Fy & Cy). exists y. split; [exact Fy|].
      destruct Cy as [Cy|Cy]; [left; exact Cy|right; lia]. }
  destruct K as [(e' & F' & C) Hn]. exists e'. split; [exact F'|]. split; [exact Hn|]. intros En.
  destruct C as [C|C]; [exact C|lia].
Qed.

(** ** An event id stands for one set of facts *)

(** The id of a provider event cannot be reused: an event whose id is in the
    inbox with other facts (account, charge, amounts, currency) is refused, and
    neither the inbox nor any payment changes. *)
Theorem event_identity_reuse_refused `{Uuids} now event quarantine d e :
  find_event (ff_stripeEventId event) d = Some e -> fe_facts e <> with_currency (toUpperCase (ff_currency event)) event ->
  exists message, ingestStripeFinancialEvent now event quarantine d = (Err (Thrown message), d).
Proof.
  intros F N. unfold ingestStripeFinancialEvent. cbv zeta. set (first := if _ || _ then _ else _).
  assert (K : forall x d', first d = Ok (x, d') -> d' = d).
  { intros x d' E. unfold first in E. repeat (match type of E with context [if ?b then _ else _] => destruct b end; [discriminate E|]).
    apply bind_ok in E as (c & d1 & G & E). apply read_ok in G as [-> ->]. destruct (bound_connection _ d) as [c|]; [|discriminate E].
    destruct (negb _); [discriminate E|]. do 3 (apply bind_ok in E as (? & d1 & G & E); pose proof (read_only _ _ _ G) as ->; clear G).
    apply bind_ok in E as (k & d1 & G & E). apply read_ok in G as [-> ->]. cbn [with_currency ff_stripeEventId] in E. rewrite F in E. run_m. reflexivity. }
  assert (Kf : forall f, first d = Err f -> exists m, f = Thrown m).
  { intros f E. unfold first, store_event, bind, read, throw in E.
    repeat (match type of E with context [if ?b then _ else _] => destruct b end; [injection E as <-; eauto|]).
    destruct (bound_connection _ d) as [c|]; [|injection E as <-; eauto].
    destruct (negb _); [injection E as <-; eauto|]. unfold exactNonNegativeInteger, throw, ret in E.
    repeat match type of E with context [match ?b with Some _ => _ | None => _ end] => destruct b | context [if ?b then _ else _] => destruct b end;
      try discriminate E; injection E as <-; eauto. }
  unfold then_run, tx. destruct (first d) as [[x d1]|f] eqn:E.
  - rewrite (K _ _ eq_refl). cbn [read]. unfold read. rewrite F. rewrite bool_decide_eq_false_2 by exact N. eexists. reflexivity.
  - destruct (Kf f eq_refl) as [m ->]. eexists. reflexivity.
Qed.

(** ** The revocation gate *)

Lemma tx_ok {A} (x : M A) d a d' : tx x d = (Ok a, d') -> x d = Ok (a, d').
Proof. unfold tx. destruct (x d) as [[b d1]|e]; [intros [= -> ->]; reflexivity|discriminate]. Qed.

Lemma then_run_ok {A B} (x : Run A) (k : A -> Run B) d b d' :
  then_run x k d = (Ok b, d') -> exists a d1, x d = (Ok a, d1) /\ k a d1 = (Ok b, d').
Proof. unfold then_run. destruct (x d) as [[a|e] d1]; [eauto|discriminate]. Qed.

(** Every pending session of the invoice is revoked at the provider, or an operator
    gave it up. *)
Definition pending_sessions_closed (i : string) (d : Db) : Prop :=
  forall r, In r (db_stripe d) -> pending_session i r = true ->
    rk_state (sr_revocation r) = rs_revoked \/ isOperatorAbandoned (sr_revocation r) = true.

Lemma gate_open i d u d' :
  assertInvoiceSessionsRevoked i d = Ok (u, d') -> d' = d /\ (rf_revocationObserveOnly (db_ref d) = false -> pending_sessions_closed i d).
Proof.
  intros E. unfold assertInvoiceSessionsRevoked in E. run_m. split; [reflexivity|]. intros O r Hr Hp.
  match goal with G : negb _ || _ = true |- _ => rewrite O, orb_false_r in G; apply negb_true_iff in G; rename G into N end.
  destruct (blocking_session i r) eqn:Bl; [assert (existsb (blocking_session i) (db_stripe d) = true) by (apply existsb_exists; exists r; auto); congruence|].
  unfold blocking_session in Bl. rewrite Hp in Bl. cbn in Bl. apply andb_false_iff in Bl as [Bl|Bl]; apply negb_false_iff in Bl.
  - left. apply bool_decide_eq_true in Bl. exact Bl.
  - right. exact Bl.
Qed.

Lemma gate_kept {A} i (x : M A) d a d' : Keeps sessions_view x -> x d = Ok (a, d') ->
  (rf_revocationObserveOnly (db_ref d) = false -> pending_sessions_closed i d) ->
  rf_revocationObserveOnly (db_ref d') = false -> pending_sessions_closed i d'.
Proof. intros K E Hd. apply K in E as [= E1 E2]. unfold pending_sessions_closed. rewrite E1, E2. exact Hd. Qed.

Lemma payment_gate `{Uuids} now i input actor d p d' :
  recordPayment_tx now i input actor d = Ok (p, d') -> rf_revocationObserveOnly (db_ref d') = false -> pending_sessions_closed i d'.
Proof.
  intros E. unfold recordPayment_tx in E.
  do 3 (apply bind_ok in E as (? & d1 & G & E); pose proof (read_only _ _ _ G) as ->; clear G).
  apply bind_ok in E as (? & d1 & G & E). apply gate_open in G as [-> Hd]. cbv zeta in E.
  refine (gate_kept i _ d p d' _ E Hd). clear E. solve_keeps.
Qed.

Lemma void_gate `{Uuids} now i reason reissue actor d p d' :
  voidInvoice_tx now i reason reissue actor d = Ok (p, d') -> rf_revocationObserveOnly (db_ref d') = false -> pending_sessions_closed i d'.
Proof.
  intros E. unfold voidInvoice_tx in E.
  do 5 (apply bind_ok in E as (? & d1 & G & E); pose proof (read_only _ _ _ G) as ->; clear G).
  apply bind_ok in E as (? & d1 & G & E). apply gate_open in G as [-> Hd]. cbv zeta in E.
  refine (gate_kept i _ d p d' _ E Hd). clear E. unfold reissue_clone. solve_keeps.
Qed.

(** C33: Where the revocation gate is enforced, a manual payment or a void that
    succeeds leaves every pending checkout session of the invoice either revoked at
    the provider or given up by an operator. In observe-only mode the gate lets the
    transition through; a session an operator gave up may still be payable; and a
    row that a declined attempt marked failed is not pending, so the gate does not
    see it, although its session can still be paid. *)
Theorem no_payment_beside_open_session `{Uuids} now answer i actor d :
  (forall input p d', recordPayment now answer i input actor d = (Ok p, d') ->
     rf_revocationObserveOnly (db_ref d') = false -> pending_sessions_closed i d') /\
  (forall reason reissue r d', voidInvoice now answer i reason reissue actor d = (Ok r, d') ->
     rf_revocationObserveOnly (db_ref d') = false -> pending_sessions_closed i d').
Proof.
  split.
  - intros input p d' E. unfold recordPayment in E. apply then_run_ok in E as (? & d1 & _ & E).
    apply then_run_ok in E as (? & d2 & _ & E). apply tx_ok in E. exact (payment_gate _ _ _ _ _ _ _ E).
  - intros reason reissue r d' E. unfold voidInvoice in E. apply then_run_ok in E as (? & d1 & _ & E).
    apply then_run_ok in E as (draft & d2 & G & E). apply tx_ok in G. pose proof (void_gate _ _ _ _ _ _ _ _ G) as V.
    destruct draft as [draftId|]; [|injection E as _ <-; exact V].
    apply then_run_ok in E as (? & d3 & G3 & E). injection E as _ <-. apply tx_ok in G3. exact (gate_kept i _ d2 _ d3 _ G3 V).
Qed.

(** ** Payment links again *)

Lemma filter_two {A} (p : A -> bool) (l1 : list A) x y : In x l1 -> p x = true -> p y = true ->
  (1 < List.length (List.filter p (l1 ++ [y])%list))%nat.
Proof.
  intros Hin Hx Hy. rewrite List.filter_app, length_app. cbn. rewrite Hy. cbn.
  apply in_split in Hin as (a & b & ->). rewrite List.filter_app, length_app. cbn. rewrite Hx. cbn. lia.
Qed.

(** A link whose session is already mapped is refused by the unique index: the
    provider's idempotent replay of a session cannot be stored twice. *)
Theorem repeated_session_refused `{Uuids} now o session d r :
  In r (db_stripe d) -> sr_stripeObjectId r = sn_id session -> exists e, commitPayLink now o session d = Err e.
Proof.
  intros Hin Er. destruct (commitPayLink now o session d) as [[x d']|e] eqn:E; [|eauto]. exfalso.
  unfold commitPayLink in E. cbv zeta in E.
  do 5 (apply bind_ok in E as (? & d1 & G & E); pose proof (read_only _ _ _ G) as ->; clear G).
  apply bind_ok in E as (id & d1 & G & E). injection G as <- <-.
  apply bind_ok in E as (a & d1 & G & E). apply lift_ok in G as [_ ->].
  apply bind_ok in E as (? & d1 & G & E). apply modify_ok in G. apply bind_ok in E as (? & d2 & G2 & E). clear E.
  unfold checked_stripe in G2. run_m. rewrite G in H1. cbn [set_stripe set_next db_stripe] in H1. clear G.
  unfold stripe_constraints in H1. apply andb_true_iff in H1 as [H1 _]. apply andb_true_iff in H1 as [_ H1].
  rewrite forallb_forall in H1. specialize (H1 r (in_or_app _ _ _ (or_introl Hin))). cbn beta in H1. apply Nat.leb_le in H1.
  apply (Nat.lt_irrefl 1). eapply Nat.lt_le_trans; [|exact H1]. apply (filter_two _ _ r); [exact Hin|apply String.eqb_refl|].
  cbn. apply String.eqb_eq. congruence.
Qed.

(** ** Runs of the system *)

(** A step of a script: an operation, or a payment link from offer to row. *)
Inductive Step := step_op (o : Op) | step_link (now : Z) (i : string) (session : CreatedSession).

Definition run_step (s : Step) (d : Db) : Db :=
  match s with
  | step_op o => exec no_groups o d
  | step_link now i session =>
      match offerPayLink i sample_actor d with Ok (o, _) => after (finishPayLink now o session) d | Err _ => d end
  end.

Definition run_script (ss : list Step) (d : Db) : Db := fold_left (fun d s => run_step s d) ss d.

Lemma offer_read_only i actor d o d' : offerPayLink i actor d = Ok (o, d') -> d' = d.
Proof.
  assert (R : ReadOnly (offerPayLink i actor)).
  { unfold offerPayLink, assertNoPendingRevocation. solve_ro. }
  apply R.
Qed.

Lemma script_reach ss : forall d os, reach no_groups (mkWorld d os) -> reach no_groups (mkWorld (run_script ss d) os).
Proof.
  induction ss as [|s ss IH]; intros d os R; [exact R|]. apply IH. clear IH. destruct s as [o|now i session]; [apply reach_op, R|].
  cbn [run_step]. destruct (offerPayLink i sample_actor d) as [[o d']|e] eqn:E; [|exact R]. pose proof (offer_read_only _ _ _ _ _ E) as ->.
  apply (reach_link no_groups now session d [] o os). cbn. eapply reach_offer; [exact R|exact E].
Qed.

Definition connected_ref : Reference := with_connections [mkConnection "conn" "msp" "acct" true true] sample_ref.
Definition sample_session : CreatedSession := mkSession "cs" (Some "pi").

(** One invoice of 150 dollars, issued, with a payment link. *)
Definition linked_script : list Step :=
  [step_op (set_reference connected_ref);
   step_op (do_create "org" None None None None sample_actor);
   step_op (do_line (op_manual sample_line) "0" sample_actor);
   step_op (do_issue (noon "2026-01-31") "0" sample_actor);
   step_link (noon "2026-02-01") "0" sample_session].

Definition from_scratch (ss : list Step) : Db := run_script ss (contract_db (sample_contract cs_draft None None false)).

Lemma scratch_reach ss : reach no_groups (mkWorld (from_scratch ss) []).
Proof. apply script_reach, reach_initial, contract_db_initial; reflexivity. Qed.
Lemma scratch_reachable ss : reachable no_groups (from_scratch ss).
Proof. exists []. apply scratch_reach. Qed.

Definition paid_event (cents : Z) : StripeEvent := ev_checkout (Some "acct") true (mkCheckout "cs" true (Some "pi") (Some cents) (Some "usd")).
Definition refund_event (cents : Z) : StripeEvent :=
  ev_reversal (mkReversalEvent "ev_refund" (Some "acct") true 100 (charge_refunded (mkCharge "ch" (Some "pi") "usd" 16238 cents))).
Definition dispute_event_at (id : string) (created : Z) (kind : DisputeEvent) : StripeEvent :=
  ev_reversal (mkReversalEvent id (Some "acct") true created
    (dispute_event kind (mkDispute "dp" (Some "ch") (Some "pi") "usd" 16238 "needs_response"))).
Definition webhook (e : StripeEvent) : Step := step_op (stripe_webhook (noon "2026-02-02") (fun _ => None) e).

(** Paid by card, then fifty dollars refunded. *)
Definition refunded_script : list Step := (linked_script ++ [webhook (paid_event 16238); webhook (refund_event 5000)])%list.

Lemma charges_reconcile_witness :
  exists r, db_stripe (from_scratch refunded_script) = [r] /\ sr_invoicePaymentId r = Some "3" /\
    exists p, In p (db_payments (from_scratch refunded_script)) /\ py_id p = "3" /\ py_amount p = "112.38".
Proof.
  assert (E : match db_stripe (from_scratch refunded_script) with
              | [r] => Some (sr_invoicePaymentId r, sr_currency r, sr_amount r, sr_reversal r) | _ => None end
              = Some (Some "3", "USD", "162.38", mkReversal 5000 0 false None None)) by (vm_compute; reflexivity).
  destruct (db_stripe (from_scratch refunded_script)) as [|r [|]] eqn:Es; try discriminate E. injection E as E1 E2 E3 E4.
  exists r. split; [reflexivity|]. split; [exact E1|].
  destruct (charges_reconcile no_groups _ r (scratch_reachable refunded_script)) as (inv & m & _ & _ & _ & Hm & Ha & Hb & _ & _ & K);
    [rewrite Es; left; reflexivity|].
  rewrite E1 in K. destruct K as [(p & Hp & Hid & _ & _ & Hamt) _]. exists p. split; [exact Hp|]. split; [exact Hid|].
  rewrite Hamt. rewrite E2, E3, E4 in *. change "162.38" with (fixed2 16238) in Ha. unfold minor_cents in *.
  change (minorUnitExponent "USD") with 2 in *. change (10 ^ (2 - 2)) with 1 in *. rewrite Z.mul_1_r in *.
  assert (16238 = m) as <-; [|reflexivity]. apply fixed2_inj; [unfold cents_bound; lia|apply cents_small; lia|exact Ha].
Defined.

(** A partial refund, a dispute that withdraws the whole charge and its
    reinstatement in the same second, in the inbox of a paid charge. *)
Definition charge_facts (id : string) (created : Z) (refund dispute : option Z) (withdrawn : option bool) : FinancialFacts :=
  mkFacts "msp" "acct" id "charge" true created (Some "pi") None None "USD" None refund dispute withdrawn.
Definition refund_facts : FinancialFacts := charge_facts "r" 15 (Some 400) None None.
Definition withdrawal_facts : FinancialFacts := charge_facts "w" 20 None (Some 16238) (Some true).
Definition reinstated_facts : FinancialFacts := charge_facts "x" 20 None (Some 16238) (Some false).
Definition paid_charge : Db := from_scratch (linked_script ++ [webhook (paid_event 16238)])%list.
Definition received (f : FinancialFacts) : FinancialEvent := mkFinancialEvent f "conn" fs_pending 0 None None.
Definition inbox : Db := set_stripeEvents (map received [refund_facts; withdrawal_facts; reinstated_facts]) paid_charge.
Definition apply_ids (ids : list string) (d : Db) : Db := fold_left (fun d id => commit (applyStripeFinancialEvent 0 id) d) ids d.

Lemma applied_next id eventId f i c es d d2 :
  find_event eventId d = Some (received f) ->
  option_map (fun m => (sr_stripeAccountId m, sr_stripePaymentIntentId m)) (charge_row id d) =
    Some (ff_stripeAccountId f, ff_paymentIntentId f) ->
  match applyStripeFinancialEvent 0 eventId d with Ok (ar_applied i c, _) => Some (i, c) | _ => None end = Some (i, c) ->
  applied_events id es (commit (applyStripeFinancialEvent 0 eventId) d) d2 -> applied_events id (f :: es) d d2.
Proof.
  intros F B E R. eapply (ae_event id 0 eventId (received f) i c); [exact F| | |exact R].
  - destruct (charge_row id d) as [m|] eqn:Hm; [|discriminate B]. injection B as B1 B2. exists m. auto.
  - unfold commit. destruct (applyStripeFinancialEvent 0 eventId d) as [[[] d1]|]; try discriminate E. injection E as -> ->. reflexivity.
Qed.

Ltac by_compute := vm_compute; reflexivity.

Lemma events_aside id evs d : charge_row id (set_stripeEvents evs d) = charge_row id d.
Proof. reflexivity. Qed.
Lemma same_charge : charge_row "2" inbox = charge_row "2" paid_charge.
Proof. exact (events_aside "2" (map received [refund_facts; withdrawal_facts; reinstated_facts]) paid_charge). Qed.

Lemma reversal_order_irrelevant_witness :
  exists m1 m2, charge_row "2" (apply_ids ["r"; "w"; "x"] inbox) = Some m1 /\ charge_row "2" (apply_ids ["x"; "w"; "r"] inbox) = Some m2 /\
    sr_reversal m1 = sr_reversal m2 /\ sr_reversal m1 = mkReversal 400 16238 false (Some 20) (Some "x").
Proof.
  assert (E : option_map (fun m => (sr_reversal m, sr_amount m, sr_currency m)) (charge_row "2" paid_charge) = Some (no_reversal, "162.38", "USD")) by (vm_compute; reflexivity).
  destruct (charge_row "2" paid_charge) as [m|] eqn:Hm; [|discriminate E]. injection E as E1 E2 E3.
  destruct (reversal_order_irrelevant no_groups paid_charge "2" m 16238 [refund_facts; withdrawal_facts; reinstated_facts] [reinstated_facts; withdrawal_facts; refund_facts]
    (apply_ids ["r"; "w"; "x"] inbox) (apply_ids ["x"; "w"; "r"] inbox) (scratch_reachable _) Hm E1) as (m1 & m2 & H1 & H2 & Er & _).
  - rewrite E2, E3. vm_compute. reflexivity.
  - constructor.
    + intros e [<-|[<-|[<-|[]]]]; split; reflexivity.
    + intros e e' [<-|[<-|[<-|[]]]] [<-|[<-|[<-|[]]]] [=]; reflexivity.
    + intros e e' [<-|[<-|[<-|[]]]] [<-|[<-|[<-|[]]]] I1 I2 K; try reflexivity; try (exfalso; apply I1; reflexivity); try (exfalso; apply I2; reflexivity); vm_compute in K; discriminate K.
  - intros e. cbn. tauto.
  - refine (ae_other "2" _ paid_charge inbox _ same_charge _). unfold apply_ids. cbn [fold_left].
    eapply (applied_next "2" "r"); [by_compute..|]. eapply (applied_next "2" "w"); [by_compute..|]. eapply (applied_next "2" "x"); [by_compute..|]. apply ae_none.
  - refine (ae_other "2" _ paid_charge inbox _ same_charge _). unfold apply_ids. cbn [fold_left].
    eapply (applied_next "2" "x"); [by_compute..|]. eapply (applied_next "2" "w"); [by_compute..|]. eapply (applied_next "2" "r"); [by_compute..|]. apply ae_none.
  - exists m1, m2. do 3 (split; [assumption|]).
    assert (K : option_map sr_reversal (charge_row "2" (apply_ids ["r"; "w"; "x"] inbox)) = Some (mkReversal 400 16238 false (Some 20) (Some "x"))) by (vm_compute; reflexivity).
    rewrite H1 in K. injection K as K. exact K.
Defined.

Definition paid_input : CaptureInput := mkCapture "cs" "pi" "acct" "162.38" "USD" None.

Definition status_and_money (i : string) (d : Db) : option (InvoiceStatus * string * string) :=
  option_map (fun inv => (iv_status inv, im_total (iv_money inv), im_balance (iv_money inv))) (db_invoices d !! i).

(** The capture, then a full refund that takes the payment off the books again. *)
Definition captured_state : Db := match recordStripePayment_tx 0 paid_input (from_scratch linked_script) with Ok (_, d) => d | Err _ => from_scratch [] end.
Definition refunded_state : Db := run_script [webhook (refund_event 16238)] captured_state.

Lemma capture_at_most_once_witness :
  status_and_money "0" captured_state = Some (st_paid, "162.38", "0.00") /\
  status_and_money "0" refunded_state = Some (st_sent, "162.38", "162.38") /\
  exists i, recordStripePayment 1 paid_input refunded_state = (Ok (ro_noop i), refunded_state).
Proof.
  split; [vm_compute; reflexivity|]. split; [vm_compute; reflexivity|].
  assert (E : exists r, recordStripePayment_tx 0 paid_input (from_scratch linked_script) = Ok (r, captured_state)).
  { assert (K : match recordStripePayment_tx 0 paid_input (from_scratch linked_script) with Ok _ => true | Err _ => false end = true) by (vm_compute; reflexivity).
    unfold captured_state. destruct (recordStripePayment_tx 0 paid_input (from_scratch linked_script)) as [[r d']|e]; [eauto|discriminate K]. }
  destruct E as [r E].
  apply (capture_at_most_once no_groups (mkWorld (from_scratch linked_script) []) 0 paid_input r captured_state (mkWorld refunded_state []) 1 paid_input).
  - apply scratch_reach.
  - exists 16238. split; [reflexivity|]. unfold cents_bound. lia.
  - exact E.
  - eapply rtc_l; [|apply rtc_refl]. exact (BillingSystem.step_op no_groups _ captured_state []).
  - reflexivity.
Defined.

(** A refund that arrives before its charge. *)
Definition early_refund : Db := from_scratch [step_op (set_reference connected_ref); webhook (refund_event 5000)].

Lemma retries_bounded_witness :
  exists e e', find_event "ev_refund" early_refund = Some e /\ fe_status e = fs_pending /\
    find_event "ev_refund" (after (attempt_event 0 "ev_refund") early_refund) = Some e' /\ 1 <= 50 - fe_attemptCount e.
Proof.
  assert (E : option_map (fun e => (fe_status e, fe_attemptCount e)) (find_event "ev_refund" early_refund) = Some (fs_pending, 1))
    by (vm_compute; reflexivity).
  destruct (find_event "ev_refund" early_refund) as [e|] eqn:F; [|discriminate E]. injection E as E1 E2.
  destruct (retries_bounded "ev_refund" 1 early_refund (after (attempt_event 0 "ev_refund") early_refund) e F) as (e' & F' & Hn & _).
  - rewrite E2. unfold MAX_PENDING_ATTEMPTS. lia.
  - eapply rt_attempt; [apply rt_none|exact F|exact E1].
  - exists e, e'. split; [reflexivity|]. split; [exact E1|]. split; [exact F'|]. unfold MAX_PENDING_ATTEMPTS in Hn. lia.
Defined.

Definition forged_refund : FinancialFacts :=
  mkFacts "msp" "acct" "ev_refund" "charge.refunded" true 100 (Some "pi") (Some "ch") None "usd" (Some 16238) (Some 16238) None None.

Lemma event_identity_reuse_refused_witness :
  exists message, ingestStripeFinancialEvent 0 forged_refund None early_refund = (Err (Thrown message), early_refund).
Proof.
  assert (E : option_map (fun e => ff_refundedAmountMinor (fe_facts e)) (find_event "ev_refund" early_refund) = Some (Some 5000))
    by (vm_compute; reflexivity).
  destruct (find_event "ev_refund" early_refund) as [e|] eqn:F; [|discriminate E]. injection E as E.
  apply (event_identity_reuse_refused 0 forged_refund None early_refund e F). intros K. rewrite K in E. discriminate E.
Defined.

(** A check arrives while a link is open; the provider revokes the session. *)
Definition check_payment : RecordPaymentInput := mkPaymentInput (ofZ 50) "check" None "2026-02-01" None.
Definition revoking : StripeRow -> option ProviderOutcome := fun _ => Some po_revoked.

Lemma no_payment_beside_open_session_witness :
  exists p d', recordPayment 0 revoking "0" check_payment sample_actor (from_scratch linked_script) = (Ok p, d') /\ pending_sessions_closed "0" d'.
Proof.
  destruct (recordPayment 0 revoking "0" check_payment sample_actor (from_scratch linked_script)) as [[p|e] d'] eqn:E.
  - exists p, d'. split; [reflexivity|]. apply (proj1 (no_payment_beside_open_session 0 revoking "0" sample_actor _) _ _ _ E).
    assert (K : rf_revocationObserveOnly (db_ref (snd (recordPayment 0 revoking "0" check_payment sample_actor (from_scratch linked_script)))) = false)
      by (vm_compute; reflexivity). rewrite E in K. exact K.
  - exfalso. assert (K : match fst (recordPayment 0 revoking "0" check_payment sample_actor (from_scratch linked_script)) with
                         | Ok _ => true | Err _ => false end = true) by (vm_compute; reflexivity). rewrite E in K. discriminate K.
Defined.

(** ** Where the handlers do less than their comments say *)

(** A dispute withdraws a card payment, the customer pays by check, and the
    dispute is won: the card payment comes back without a look at the balance. *)
Definition overpaid_script : list Step :=
  (linked_script ++ [webhook (paid_event 16238); webhook (dispute_event_at "ev_w" 10 de_funds_withdrawn);
     step_op (do_pay (noon "2026-03-01") (fun _ => None) "0" (mkPaymentInput (Fin (16238 # 100)) "check" None "2026-03-01" None) sample_actor);
     webhook (dispute_event_at "ev_r" 20 de_funds_reinstated)])%list.

(** A reinstated dispute can leave an invoice paid twice. *)
Theorem reinstated_dispute_overpays :
  exists d, reachable no_groups d /\ status_and_money "0" d = Some (st_paid, "162.38", "-162.38").
Proof. exists (from_scratch overpaid_script). split; [apply scratch_reachable|vm_compute; reflexivity]. Qed.

(** A declined card marks the charge failed; the customer pays with another one in
    the same session, and that capture is dropped. *)
Definition declined_script : list Step :=
  (linked_script ++ [webhook (ev_payment_failed (Some "acct") true "pi"); webhook (paid_event 16238)])%list.

(** A capture after a declined attempt of the same session is not recorded. *)
Theorem declined_attempt_loses_capture :
  exists d, reachable no_groups d /\ status_and_money "0" d = Some (st_sent, "162.38", "162.38") /\
    recordStripePayment_tx 0 paid_input d = Ok (ro_noop "0", d).
Proof.
  exists (from_scratch declined_script). split; [apply scratch_reachable|]. split; [vm_compute; reflexivity|].
  assert (E : option_map (fun r => (sr_invoiceId r, sr_status r)) (List.find (of_object "cs") (db_stripe (from_scratch declined_script)))
              = Some ("0", sp_failed)) by (vm_compute; reflexivity).
  destruct (List.find (of_object "cs") _) as [r|] eqn:F; [|discriminate E]. injection E as E1 E2. rewrite <- E1.
  apply (settled_noop 0 paid_input _ r F). right. split; [|exact E2]. rewrite E1. eexists. vm_compute. reflexivity.
Qed.

(** The invoice is voided while the provider creates a session for it. *)
Definition issued_state : Db := from_scratch (firstn 4 linked_script).
Definition voided_state : Db := exec no_groups (do_void (noon "2026-02-01") (fun _ => None) "0" "mistake" false sample_actor) issued_state.

(** A session can stay open and unmarked on a voided invoice: no row asks for its
    revocation when there was none to mark at the void. *)
Theorem raced_void_leaves_payable_session :
  exists d r, reachable no_groups d /\ status_and_money "0" d = Some (st_void, "162.38", "162.38") /\
    db_stripe d = [r] /\ pending_session "0" r = true /\ rk_state (sr_revocation r) = rs_active.
Proof.
  destruct (offerPayLink "0" sample_actor issued_state) as [[o d']|e] eqn:E.
  2: { exfalso. assert (K : match offerPayLink "0" sample_actor issued_state with Ok _ => true | Err _ => false end = true) by (vm_compute; reflexivity).
       rewrite E in K. discriminate K. }
  pose proof (offer_read_only _ _ _ _ _ E) as ->. set (d := after (finishPayLink (noon "2026-02-01") o sample_session) voided_state).
  assert (R : reachable no_groups d).
  { exists []. apply (reach_link no_groups _ _ voided_state [] o []), reach_op. eapply reach_offer; [|exact E].
    apply scratch_reach. }
  assert (Ho : Some o = match offerPayLink "0" sample_actor issued_state with Ok (o, _) => Some o | Err _ => None end) by (rewrite E; reflexivity).
  vm_compute in Ho. injection Ho as Ho.
  exists d. subst d o. eexists. split; [exact R|]. split; [vm_compute; reflexivity|]. split; [vm_compute; reflexivity|]. split; reflexivity.
Qed.
